(* ===== verification/_CoqProject ===== *)
-Q . S2P
Prelude.v
Text.v
Arq.v
RecvBuffer.v
ConcurrentQueue.v
Messages.v
MessagePool.v
TimingWheel.v
Timer.v
Session.v
Cipher.v
TcpSession.v
Dispatcher.v
Interleave.v
Events.v
ThreadPool.v
SendLoop.v
Strand.v
UdpRegistry.v
UdpNetwork.v
Packets.v
UdpSession.v
SessionFactory.v
RefPtr.v
DbPool.v
Database.v
DbDriver.v
Handles.v
Sqlite.v
Mysql.v
Accounts.v
Float32.v
Random.v
Modifiers.v
GameData.v
Inventory.v
Entity.v
Player.v
World.v
Projectile.v
Waves.v
Effects.v
TileMap.v
Room.v
RoomObjects.v
Combat.v
CombatProps.v
Emitters.v
Movement.v
MonsterAI.v
Frame.v
Lobby.v
Commands.v
Config.v
Console.v
Acceptors.v
MessageQueue.v
Startup.v
