(* ===== verification/Prelude.v ===== *)
(** * ToyServer2 verification library

    A model of the framework of ToyServer2 (src/System), a C++ game server, and of
    the core of the example game built on it (src/Examples/VampireSurvivor/Server),
    with the theorems that make them correct.

    ** The program

    I/O threads run TCP sessions (a [GatewaySession] per client, a
    [BackendSession] per server peer) and a UDP network with [UDPSession]s; timers
    tick on an I/O thread.  All of them talk to one dispatcher thread through
    messages allocated in a message pool: the dispatcher routes packets to the
    application, runs tasks and timer callbacks and destroys sessions when nothing
    refers to them any more.  Sessions accept packets from any thread into a
    lock-free send queue, drained by whoever owns the session's sending flag.
    Sessions and game objects come from pools, with intrusive reference counts; a
    database facade shares pooled connections between threads.

    The example game runs rooms of players on that framework: monsters come in waves,
    drop experience, and a player who gains a level chooses a weapon or a passive while
    the monsters around are slowed.

    ** The files

    - [Prelude] (this file): machine integers, memory images, list lemmas,
      automation.
    - [Text]: words and decimal numbers in lines of text, as the Standard Library of C++
      reads them; what was written is read back.
    - [Arq]: Session/UDP/KCPWrapper.cpp, the small protocol that the server does not use:
      what it keeps in order and why two endpoints never advance.
    - [RecvBuffer]: Network/RecvBuffer.  The stream buffer refines a byte queue.
    - [ConcurrentQueue]: the third-party lock-free queue as two interfaces (any
      number of producers; FIFO) and their list instance.
    - [Messages]: Dispatcher/IMessage.h, SystemMessages.h, Packet/PacketHeader.h.
    - [MessagePool]: Dispatcher/MessagePool.cpp, Network/PacketUtils.cpp.  Blocks,
      per-thread caches, shared pools, heap, live messages and their references;
      the invariant [mem_inv] and the behaviour of allocation and release.
    - [TimingWheel], [Timer]: Timer/TimingWheel.h, Timer/TimerImpl.cpp.  The
      five-level wheel delivers exactly what is due; the service refines a
      per-timer specification ([spec_run]); one-shot, interval and cancelled
      timers behave as their names say.
    - [Session]: Session/Session.cpp, SessionContext.cpp; the state monad [M] of
      session methods, in which [None] is undefined behaviour, so that a theorem
      saying a method returns includes memory safety; ownership of message
      references ([refs_ok]).
    - [Cipher]: Network/AesEncryption.cpp, XorEncryption.h.  [LawfulCipher] is what
      sessions rely on; both ciphers are instances on the lengths they handle.
    - [TcpSession]: Session/GatewaySession.cpp and BackendSession.cpp.  Reassembly
      of packets from any cut of the stream, batched writes, end-to-end delivery,
      error and close paths, heartbeat.
    - [Dispatcher]: Dispatcher/DISPATCHER/DispatcherImpl.cpp.  The invariants
      [dinv] (every message in flight is covered by a reference to its session) and
      [rinv] (a session's connect comes before its disconnect; the registry names
      sessions in use); [Process] keeps them, gives a session back only when it is
      disconnected and nothing refers to it, and leaks no reference; a [WithSession]
      deferred to the dispatcher thread is the one made there.
    - [Interleave]: threads as program counters over shared state; [SendLoop]:
      the send paths of Session.cpp with the flushes of the TCP and UDP sessions as
      atomic steps; [Strand]: Thread/Strand.h with [Enqueue], [Stop] and the worker
      loop of ThreadPool.cpp.  Single writer, conservation, wake-ups, and what loses
      them (a task that throws, a pool that is stopped).
    - [ThreadPool]: Thread/ThreadPool.cpp with start, stop and join.  No task is lost
      while it runs; after [Stop] the waiting of [Join] ends.  [Events]:
      Events/EventBus.h, subscribers that copy the map and lock-free publishers.
    - [UdpRegistry]: UDPTransportHeader.h, UDPLimits.h, UDPEndpointRegistry.cpp.
    - [UdpNetwork]: UDPSendContextPool.cpp and the send path of
      UDPNetworkImpl.cpp, with exact accounting of references ([refs_exact]).
    - [Packets]: Packet/PacketPtr.h, PacketBase.h, PacketBuilder.h and
      Network/ByteBuffer.h: packet pointers count exactly, what the byte buffer gives
      back, serialised packets are what the receiving session accepts.
    - [UdpSession]: UDPSession.cpp, KCPAdapter.cpp and the receive path of
      UDPNetworkImpl.cpp.
    - [SessionFactory]: Session/SessionFactory.cpp, SessionPool.h.  Sessions are handed
      to one client at a time, fresh and configured, and come back clean.
    - [RefPtr]: Memory/RefCounted.h, RefPtr.h, LockFreeObjectPool.h, ObjectPool.h,
      SimplePool.h, GenerationalID.h.  Counts are exact for every program of smart
      pointers; the allocation limit under concurrent Pops.
    - [DbPool]: [Acquire] and [Release] of Database/DatabaseImpl.cpp as interleaved
      steps; [Database]: the whole facade on one thread, with any driver.
    - [DbDriver]: what [ResetState] of a driver promises ([ResettingDriver]), and what
      the facade makes of it for the connections that wait in the pool and those it hands
      out; [Handles]: what the drivers share, connections with the handles of a client
      library; [Sqlite], [Mysql]: Drivers/SQLite/SQLiteConnection.cpp and
      Drivers/MySQL (with the address of the driver) as instances.
    - [Accounts]: Core/UserDB.cpp and the transaction of Core/LoginController.cpp, on the
      facade: unlocking is all or nothing, the login refines its specification, the SQL
      texts and what quotes do to them.
    - [Float32]: binary32 arithmetic and conversions.  [Random]: Utility/FastRandom.h.
    - [Modifiers]: Entity/StatModifier.h, ModifierContainer.cpp.  When the cache of
      computed stats is current, and when it is not.
    - [GameData]: Core/DataManager.cpp, over an abstract JSON library; the invariant
      [data_ok] of what the loaders leave.
    - [Inventory]: Entity/PlayerInventory.cpp, Game/LevelUpManager.cpp.  Slots and
      levels; the options offered are distinct and can be taken.
    - [Entity]: Math/Vector2.h, GameObject, Monster, ExpGem.  A monster's speed is never
      stale.
    - [Player]: Entity/Player.cpp against the interface [RoomApi] of its room.  Damage,
      experience, the level-up state and its slow aura, emitters.
    - [World]: Game/ObjectManager.h, SpatialGrid.cpp.  The monster counter is exact; a
      query finds exactly what it should.
    - [Projectile]: Entity/Projectile.h, Projectile.cpp, ProjectileFactory.cpp.  Flight,
      orbit, hits and pierce.
    - [Waves]: Entity/MonsterFactory.cpp, Game/WaveManager.cpp.  Waves start in order and
      respect the population limit.
    - [Effects]: Game/Effect/EffectManager.cpp.  A frame deals every due tick once; one
      effect of a type per object; what repeated hits do to damage over time.
    - [TileMap]: Game/TileMap.cpp and the physics of Room_Update.cpp.  The swept test finds
      the first wall; what it does not look at.
    - [Room]: Game/Room.cpp and the network part of Room_Update.cpp.  The tasks of the
      strand ([exec_task]), their refinement of an abstract life cycle that says what each
      task does to it ([v_exec], [life_step]), its invariants in every run; the packets of
      a frame; the nearest player.  The room is an instance of the player's [RoomApi] and
      [RoomLaws], so the theorems of [Player] hold in it; what a frame does to the objects
      is the interface [RoomFrame].  A task is [None] where the code is undefined or does
      not return: a frame, the giving of experience, a spawn.
    - [RoomObjects]: what a hit does in a room (packets, the gem of a kill), and the
      invariant [room_wf] of its object table with the number of ids that are needed.
    - [Combat], [CombatProps]: Game/CombatManager.cpp.  Projectiles hit exactly what they
      should; contact damage counts once; when the game ends; gems are paid once; the
      clean-up is exact.
    - [Emitters]: Game/DamageEmitter.cpp and [Player::Update].  Fields and pulses of every
      kind; an area pulse hits the nearest.
    - [Movement]: the strategies of Entity/AI/Movement; a reserved cell is nobody else's.
      [MonsterAI]: the behaviours of Entity/AI and [Monster::Update].
    - [Frame]: the simulation of a frame in Room_Update.cpp, put together from the files
      above: the instance of [RoomFrame] that [Room] and [Lobby] are proved against, with
      its [FrameLaws].  It is [None] where a position has no cell of the grid or the map,
      or experience does not fit.
    - [Lobby]: Game/RoomManager.cpp, the packet handlers and events.  The whole game
      server as a transition system ([server_step]) of main thread, strands, timers and
      database, each room of which is a room of [Room]; what disconnections leave.
    - [Commands]: Game/CommandManager.cpp, Core/Handlers/Game/ChatHandler.cpp and the
      console's lines.  The server of [Lobby] with its chat and console
      ([program_step]); which player, rooms and packets a line can touch, and that every
      command but [/levelup] returns.

    - [Config]: IConfig.h, Config/Json/JsonConfigLoader.cpp, and the encryption that
      Framework.cpp makes of a configuration.  What loads is what is documented.
    - [Console]: Console/CommandConsole.cpp.  The terminal's lines run the commands of
      [Commands] as they were typed; what is still read after a stop.
    - [Acceptors]: Network/NetworkImpl.cpp, WebSocketNetworkImpl.cpp and
      WebSocketSession.cpp.  Both accept loops, broadcasts in order, one write at a time.
    - [MessageQueue]: MQ/MessageSystem.cpp, RedisStreamDriver.cpp, NatsDriver.cpp, over the
      client libraries as classes.  In order and once, in every interleaving with the
      polling task; what a shutdown does to that task.
    - [Startup]: Framework/Framework.cpp, Database/DatabaseRegistry.cpp and
      Core/ServerApp.cpp, on top of all the others.  When the server starts, what a
      started server can rely on, the order in which it stops.

    ** Conventions

    A pointer is a [Z], a nullable pointer an [option Z]; a boolean names a pointer
    of which only nullness matters.  Integers are [Z] with [wrap] and [swrap] where
    the code can overflow; bytes are [Z] in [0, 256).  Asynchronous operations are
    entries of a trace; their completion handlers are operations of their own.
    Clocks, random tokens, thread ids and outcomes of I/O are arguments.

    In the game files a [float] is a binary32 number and every operation rounds to
    nearest even; [sin], [cos], [acos],
    [atan2] and [std::pow] are arguments.  Signed 32-bit arithmetic wraps
    around.  The order in which a hash table is iterated is an argument of which only the
    elements are known ([GameData.IterationOrder]), so that the theorems hold for each.

    Loops that are not structural have fuel, and the theorems show that it is
    enough: the receive loop gets one more than the unread bytes (a packet has at
    least one byte); [Flush] gets two rounds, since on one thread the second look at
    the queue finds it empty (interleavings are the subject of [SendLoop]);
    draining a queue gets one more than its size; the KCP loop gets one more than
    the messages the library has ready; the wheel's cascade is shown to terminate; the
    level-up loop gets as many rounds as there is experience, each of which costs some.

    Third-party code is abstract: the lock-free queue and ikcp are classes of
    operations with their documented laws, sockets and timers of boost are traces
    of requests.  The atomicity used in [SendLoop] and [Strand] is that of the
    code's atomics, mutexes and queue operations under sequential consistency.

    ** What is not modelled

    Logging, the crash handler, metrics and the test clients, whose code is calls of the
    operating system; and the broadcast helper, the packet pool and the rate limiter, which
    the program does not use.  [GetRemoteAddress] and log output of the modelled classes are
    left out, as are failures to open or bind the UDP socket, the closing handshake of
    WebSockets, and the waiting of the main loop.  Callbacks of the message queue are assumed
    to return.

    The range queries of players, emitters and monsters ([Room_GetMonstersInRange]) find
    nobody where the conversion to a cell is undefined, and the cells of the movement
    strategies are those of the x86 conversion there.

    Of the game: how ServerApp creates its controllers (their state is in [Accounts] and
    [Lobby]), and the classes of Game/Emitter, which the program does not use.  Chat
    commands act on players and rooms from the main thread while the room's strand may run,
    and so do those of the terminal on its own thread; a command is one step here.  The
    generators of a thread and the object pools of the process are shared by its rooms: what
    a frame finds in them is an argument of the frame. *)

From Stdlib Require Import ZArith Lia.
From stdpp Require Import base list numbers gmap.

#[global] Open Scope Z_scope.

(** ** Notations *)

Declare Scope mach_scope.
Delimit Scope mach_scope with mach.

(** ** Machine integers

    An unsigned [w]-bit value is a [Z] in [0, 2^w); [wrap w] is the conversion
    every C++ unsigned operation ends with.  [swrap w] is the two's complement
    reinterpretation used by casts to signed types. *)

Definition wrap (w z : Z) : Z := z mod 2 ^ w.

Definition swrap (w z : Z) : Z := (z + 2 ^ (w - 1)) mod 2 ^ w - 2 ^ (w - 1).

Abbreviation u8 := (wrap 8).
Abbreviation u16 := (wrap 16).
Abbreviation u32 := (wrap 32).
Abbreviation u64 := (wrap 64).
Abbreviation i32 := (swrap 32).
Abbreviation i64 := (swrap 64).

Notation "x +32 y" := (wrap 32 (x + y)) (at level 50, left associativity) : mach_scope.
Notation "x -32 y" := (wrap 32 (x - y)) (at level 50, left associativity) : mach_scope.
#[global] Open Scope mach_scope.

Definition in_u (w z : Z) : Prop := 0 <= z < 2 ^ w.

Lemma wrap_bound w z : 0 <= w -> in_u w (wrap w z).
Proof. intros Hw. unfold in_u, wrap. apply Z.mod_pos_bound. lia. Qed.

Lemma wrap_small w z : in_u w z -> wrap w z = z.
Proof. apply Z.mod_small. Qed.

Lemma wrap_idemp w z : 0 <= w -> wrap w (wrap w z) = wrap w z.
Proof. intros Hw. by apply wrap_small, wrap_bound. Qed.

Lemma swrap_small w z : 0 < w -> - 2 ^ (w - 1) <= z < 2 ^ (w - 1) -> swrap w z = z.
Proof.
  intros Hw Hz. unfold swrap.
  assert (2 ^ w = 2 * 2 ^ (w - 1)) as E.
  { rewrite <- Z.pow_succ_r by lia. f_equal. lia. }
  rewrite Z.mod_small; lia.
Qed.

Lemma swrap_add w x y : 0 < w -> swrap w (swrap w x + y) = swrap w (x + y).
Proof.
  intros Hw. unfold swrap. f_equal.
  replace ((x + 2 ^ (w - 1)) mod 2 ^ w - 2 ^ (w - 1) + y + 2 ^ (w - 1))
    with ((x + 2 ^ (w - 1)) mod 2 ^ w + y) by lia.
  rewrite Z.add_mod_idemp_l by lia. f_equal. lia.
Qed.

(** Shifts and masks of the sources, as quotient and remainder. *)

Lemma land_mask z n : 0 <= n -> Z.land z (2 ^ n - 1) = z mod 2 ^ n.
Proof.
  intros Hn. replace (2 ^ n - 1) with (Z.ones n) by (rewrite Z.ones_equiv; lia).
  by apply Z.land_ones.
Qed.

(** ** Little-endian memory images

    [le_bytes n z] is the image of an [n]-byte unsigned integer, as a [memcpy]
    from its address produces on the supported targets (x86-64), and [le_val]
    reads one back. *)

Fixpoint le_bytes (n : nat) (z : Z) : list Z :=
  match n with
  | O => []
  | S m => z mod 256 :: le_bytes m (z / 256)
  end.

Fixpoint le_val (bs : list Z) : Z :=
  match bs with
  | [] => 0
  | b :: bs' => b + 256 * le_val bs'
  end.

Definition is_byte (b : Z) : Prop := 0 <= b < 256.

#[global] Instance is_byte_dec b : Decision (is_byte b).
Proof. unfold is_byte. apply _. Defined.

Lemma length_le_bytes n z : length (le_bytes n z) = n.
Proof. revert z; induction n as [|n IH]; intros z; simpl; [done|]. by rewrite IH. Qed.

Lemma le_bytes_is_byte n z : Forall is_byte (le_bytes n z).
Proof.
  revert z; induction n as [|n IH]; intros z; simpl; constructor; [|done].
  by apply Z.mod_pos_bound.
Qed.

Lemma pow256_succ n : 256 ^ Z.of_nat (S n) = 256 * 256 ^ Z.of_nat n.
Proof. rewrite Nat2Z.inj_succ, Z.pow_succ_r; lia. Qed.

Lemma le_val_le_bytes n z : le_val (le_bytes n z) = z mod 256 ^ Z.of_nat n.
Proof.
  revert z; induction n as [|n IH]; intros z; simpl le_bytes; simpl le_val.
  { by rewrite Z.mod_1_r. }
  rewrite IH, pow256_succ, Z.rem_mul_r by lia. done.
Qed.

Lemma le_val_bound bs : Forall is_byte bs -> 0 <= le_val bs < 256 ^ Z.of_nat (length bs).
Proof.
  induction 1 as [|b bs [Hb1 Hb2] Hbs IH]; simpl le_val; simpl length; [lia|].
  rewrite pow256_succ. nia.
Qed.

Lemma le_bytes_le_val bs : Forall is_byte bs -> le_bytes (length bs) (le_val bs) = bs.
Proof.
  induction 1 as [|b bs Hb Hbs IH]; simpl; [done|]. unfold is_byte in Hb.
  rewrite (Z.mul_comm 256), Z.mod_add, Z.div_add by lia.
  rewrite Z.mod_small, Z.div_small, Z.add_0_l by lia. by rewrite IH.
Qed.

(** ** Lists *)

Lemma take_app_drop_eq {A} (l1 l2 : list A) n :
  n = length l1 -> take n (l1 ++ l2) = l1 /\ drop n (l1 ++ l2) = l2.
Proof. intros ->. by rewrite take_app_length, drop_app_length. Qed.

(** [sub_list i n l] is the [n] elements of [l] from index [i]; [splice i xs l]
    is [l] after a [memcpy]/[memmove] of [xs] to index [i]. *)

Definition sub_list {A} (i n : nat) (l : list A) : list A := take n (drop i l).

Definition splice {A} (i : nat) (xs l : list A) : list A :=
  take i l ++ xs ++ drop (i + length xs) l.

Lemma length_sub_list {A} i n (l : list A) :
  (i + n <= length l)%nat -> length (sub_list i n l) = n.
Proof. intros ?. unfold sub_list. rewrite length_take, length_drop. lia. Qed.

Lemma length_splice {A} i (xs l : list A) :
  (i + length xs <= length l)%nat -> length (splice i xs l) = length l.
Proof.
  intros ?. unfold splice. rewrite !length_app, length_take, length_drop. lia.
Qed.

Lemma sub_list_splice_eq {A} i (xs l : list A) :
  (i <= length l)%nat -> sub_list i (length xs) (splice i xs l) = xs.
Proof.
  intros ?. unfold sub_list, splice.
  rewrite drop_app_length' by (rewrite length_take; lia).
  by rewrite take_app_length.
Qed.

Lemma sub_list_app {A} i n m (l : list A) :
  sub_list i (n + m) l = sub_list i n l ++ sub_list (i + n) m l.
Proof. unfold sub_list. rewrite <- drop_drop. symmetry. apply take_take_drop. Qed.

Lemma sub_list_splice_before {A} i n j (xs l : list A) :
  (i + n <= j)%nat -> (j <= length l)%nat ->
  sub_list i n (splice j xs l) = sub_list i n l.
Proof.
  intros ? ?. unfold sub_list, splice.
  rewrite drop_app_le by (rewrite length_take; lia).
  rewrite take_app_le by (rewrite length_drop, length_take; lia).
  apply list_eq; intros k. destruct (decide (k < n)%nat).
  - rewrite !lookup_take_lt, !lookup_drop, lookup_take_lt by lia. done.
  - rewrite !lookup_take_ge by lia. done.
Qed.

Lemma drop_sub_list {A} i n k (l : list A) :
  drop k (sub_list i n l) = sub_list (i + k) (n - k) l.
Proof. unfold sub_list. by rewrite skipn_firstn_comm, drop_drop. Qed.

Lemma splice_app {A} i (xs ys l : list A) :
  (i + length xs <= length l)%nat ->
  splice (i + length xs) ys (splice i xs l) = splice i (xs ++ ys) l.
Proof.
  intros H. unfold splice. rewrite (app_assoc (take i l) xs (drop _ l)).
  rewrite take_app_length' by (rewrite length_app, length_take; lia).
  rewrite drop_app_ge by (rewrite length_app, length_take; lia).
  rewrite drop_drop, <- !app_assoc. do 4 f_equal. rewrite !length_app, length_take. lia.
Qed.

Lemma splice_all {A} (xs l : list A) : length xs = length l -> splice 0 xs l = xs.
Proof. intros H. unfold splice. simpl. rewrite drop_ge by lia. apply app_nil_r. Qed.

Lemma Forall2_impl_elem {A B} (P R : A -> B -> Prop) l k :
  Forall2 P l k -> (forall x y, x ∈ l -> P x y -> R x y) -> Forall2 R l k.
Proof.
  induction 1 as [|x y l k Hxy H IH]; intros HR; constructor.
  - apply HR; [left|done].
  - apply IH. intros x' y' Hx. apply HR. by right.
Qed.

(** ** Automation *)

Create HintDb toy.
#[export] Hint Resolve wrap_bound le_bytes_is_byte : toy.
Create Rewrite HintDb toy_rw.
#[export] Hint Rewrite length_le_bytes @length_app @length_take @length_drop
  @length_replicate : toy_rw.

(** Case analysis on the boolean tests and options of an unfolded body. *)
Ltac split_tests :=
  repeat match goal with
  | |- context [if ?b then _ else _] => destruct b eqn:?
  | |- context [match ?o with Some _ => _ | None => _ end] => destruct o eqn:?
  end.

(** Boolean comparisons on [Z] in the context, as propositions. *)
Ltac bool_to_prop :=
  repeat match goal with
  | H : (_ =? _)%Z = true |- _ => apply Z.eqb_eq in H
  | H : (_ =? _)%Z = false |- _ => apply Z.eqb_neq in H
  | H : (_ <? _)%Z = true |- _ => apply Z.ltb_lt in H
  | H : (_ <? _)%Z = false |- _ => apply Z.ltb_ge in H
  | H : (_ <=? _)%Z = true |- _ => apply Z.leb_le in H
  | H : (_ <=? _)%Z = false |- _ => apply Z.leb_gt in H
  | H : (_ && _)%bool = true |- _ => apply andb_prop in H as [? ?]
  | H : negb _ = true |- _ => apply negb_true_iff in H
  | H : negb _ = false |- _ => apply negb_false_iff in H
  end.
