(* ===== verification/Text.v ===== *)
(** * Text: words and numbers in lines of text

    What the program uses of the Standard Library of C++ to read commands and settings:
    [std::istringstream >> std::string] splits a line at white space, [std::stoi] reads a
    decimal number and throws if there is none or if it does not fit an [int].  The
    second part shows that what was written is read back. *)

From Stdlib Require Import Ascii.
From stdpp Require Import base strings pretty option list.
From S2P Require Import Prelude.

(** ** Lines and numbers *)

(** [isspace] of the C locale: space and the characters 9 to 13. *)
Definition isspace (a : ascii) : bool :=
  let n := N_of_ascii a in (n =? 32)%N || ((9 <=? n)%N && (n <=? 13)%N).

(** A word continues. *)
Definition in_word (s : string) : bool := match s with String a _ => negb (isspace a) | EmptyString => false end.

(** [while (iss >> word)]. *)
Fixpoint words (s : string) : list string :=
  match s with
  | EmptyString => []
  | String a s =>
      if isspace a then words s
      else if in_word s
      then match words s with w :: l => String a w :: l | [] => [String a EmptyString] end
      else String a EmptyString :: words s
  end.

Definition digit (a : ascii) : option Z :=
  let n := Z.of_N (N_of_ascii a) in if (48 <=? n) && (n <=? 57) then Some (n - 48) else None.

(** The digits in front. *)
Fixpoint digits (acc : Z) (s : string) : Z :=
  match s with
  | EmptyString => acc
  | String a s => match digit a with Some d => digits (10 * acc + d) s | None => acc end
  end.

Fixpoint skip_spaces (s : string) : string :=
  match s with
  | String a s' => if isspace a then skip_spaces s' else s
  | EmptyString => s
  end.

Definition split_sign (s : string) : bool * string :=
  match s with
  | String a r => if Ascii.eqb a "-" then (true, r) else if Ascii.eqb a "+" then (false, r) else (false, s)
  | EmptyString => (false, s)
  end.

(** [std::stoi]: [None] where it throws ([invalid_argument] without a digit,
    [out_of_range] outside of [int]). *)
Definition stoi (s : string) : option Z :=
  let '(negative, rest) := split_sign (skip_spaces s) in
  match rest with
  | String a _ =>
      match digit a with
      | Some _ =>
          let v := if negative : bool then - digits 0 rest else digits 0 rest in
          if (- 2 ^ 31 <=? v) && (v <? 2 ^ 31) then Some v else None
      | None => None
      end
  | EmptyString => None
  end.

(** The words on one line again, with a space in front of each but the first. *)
Definition join_args (cmd : string) (args : list string) : string := foldl (fun line arg => line +:+ " " +:+ arg) cmd args.

(** ** Lines are read back *)

(** A word: not empty and without white space. *)
Definition is_word (w : string) : Prop := w <> EmptyString /\ Forall (fun a => isspace a = false) (String.list_ascii_of_string w).

(** What follows a word on a line. *)
Definition tail_of (args : list string) : string := foldr (fun arg line => " " +:+ arg +:+ line) EmptyString args.

Lemma words_cons a s : isspace a = false ->
  words (String a s) = if in_word s then match words s with w :: l => String a w :: l | [] => [String a EmptyString] end
                       else String a EmptyString :: words s.
Proof. intros Ha. cbn [words]. by rewrite Ha. Qed.

Lemma words_word w rest : is_word w -> in_word rest = false -> words (w +:+ rest) = w :: words rest.
Proof.
  intros [Hne Hw] Hr. induction w as [|a w IH]; [done|]. clear Hne. cbn [String.list_ascii_of_string] in Hw.
  apply Forall_cons in Hw as [Ha Hw]. change (String a w +:+ rest) with (String a (w +:+ rest)). rewrite words_cons by done.
  destruct w as [|b w]; [change (EmptyString +:+ rest) with rest; by rewrite Hr|].
  rewrite IH by done. change (in_word (String b w +:+ rest)) with (negb (isspace b)). cbn [String.list_ascii_of_string] in Hw.
  apply Forall_cons in Hw as [-> _]. done.
Qed.

(** What a line is split into are words. *)
Lemma words_are_words s : Forall is_word (words s).
Proof.
  induction s as [|a s IH]; [constructor|]. cbn [words]. destruct (isspace a) eqn:Ea; [done|].
  assert (forall w, Forall (fun b => isspace b = false) (String.list_ascii_of_string w) -> is_word (String a w)) as Hw
    by (intros w Hw; split; [done|by constructor]).
  destruct (in_word s); [destruct (words s) as [|w l]|].
  - constructor; [by apply Hw|done].
  - apply Forall_cons in IH as [[_ Hws] IH]. constructor; [by apply Hw|done].
  - constructor; [by apply Hw|done].
Qed.

Lemma words_tail args : Forall is_word args -> words (tail_of args) = args.
Proof.
  induction 1 as [|w args Hw _ IH]; [done|]. change (words (w +:+ tail_of args) = w :: args).
  rewrite words_word; [by rewrite IH|done|by destruct args].
Qed.

Lemma string_app_empty s : s +:+ EmptyString = s.
Proof. induction s as [|a s IH]; [done|]. exact (f_equal (String a) IH). Qed.

Lemma string_app_assoc s t u : (s +:+ t) +:+ u = s +:+ (t +:+ u).
Proof. induction s as [|a s IH]; [done|]. exact (f_equal (String a) IH). Qed.

Lemma join_tail args : forall cmd, join_args cmd args = cmd +:+ tail_of args.
Proof.
  induction args as [|w args IH]; intros cmd.
  - symmetry. apply string_app_empty.
  - change (join_args (cmd +:+ " " +:+ w) args = cmd +:+ (" " +:+ w +:+ tail_of args)). rewrite IH.
    by rewrite !string_app_assoc.
Qed.

(** The decimal representation, digit by digit. *)
Definition all_digits (s : string) : Prop := Forall (fun a => is_Some (digit a)) (String.list_ascii_of_string s).

Lemma digit_char n : (n < 10)%N -> digit (pretty_N_char n) = Some (Z.of_N n).
Proof.
  intros Hn. destruct n as [|p]; [done|]. do 4 (destruct p as [p|p|]; try done; try lia).
Qed.

Lemma digits_go x : forall s, digits 0 (pretty_N_go x s) = digits (Z.of_N x) s.
Proof.
  induction (N.lt_wf_0 x) as [x _ IH]; intros s. destruct (decide (x = 0)%N) as [->|Hx]; [done|].
  rewrite pretty_N_go_step by lia. rewrite IH by (apply N.div_lt; lia). cbn [digits].
  rewrite digit_char by (by apply N.mod_lt). f_equal. pose proof (N.div_mod x 10). lia.
Qed.

Lemma all_digits_go x : forall s, all_digits s -> all_digits (pretty_N_go x s).
Proof.
  induction (N.lt_wf_0 x) as [x _ IH]; intros s Hs. destruct (decide (x = 0)%N) as [->|Hx]; [done|].
  rewrite pretty_N_go_step by lia. apply IH; [apply N.div_lt; lia|]. apply Forall_cons. split; [|done].
  rewrite digit_char by (by apply N.mod_lt). eauto.
Qed.

Lemma go_not_empty x s : (0 < x)%N \/ s <> EmptyString -> pretty_N_go x s <> EmptyString.
Proof.
  revert s. induction (N.lt_wf_0 x) as [x _ IH]; intros s Hx. destruct (decide (x = 0)%N) as [->|Hn]; [by destruct Hx; [lia|]|].
  rewrite pretty_N_go_step by lia. apply IH; [apply N.div_lt; lia|]. by right.
Qed.

Lemma pretty_N_digits x : digits 0 (pretty x) = Z.of_N x /\ all_digits (pretty x) /\ (pretty x : string) <> EmptyString.
Proof.
  unfold pretty, pretty_N. case_decide as E; [subst; split_and!; [done| |done]; repeat constructor; eauto|].
  split_and!; [by rewrite digits_go|by apply all_digits_go; constructor|apply go_not_empty; left; lia].
Qed.

Lemma digit_not_space a : is_Some (digit a) -> isspace a = false /\ a <> "-"%char /\ a <> "+"%char.
Proof.
  unfold digit, isspace. cbv zeta. intros Hd. assert (48 <= Z.of_N (N_of_ascii a) /\ Z.of_N (N_of_ascii a) <= 57) as [H1 H2].
  { destruct ((48 <=? _) && (_ <=? 57)) eqn:E; [lia|by destruct Hd]. }
  split_and!; [|intros ->; cbn in *; lia..].
  apply orb_false_iff. split; [apply N.eqb_neq; lia|]. apply andb_false_iff. right. apply N.leb_gt. lia.
Qed.

Lemma skip_digits a s : is_Some (digit a) -> split_sign (skip_spaces (String a s)) = (false, String a s).
Proof.
  intros Ha. destruct (digit_not_space a Ha) as (Hs & Hm & Hp). cbn [skip_spaces]. rewrite Hs. cbn [split_sign].
  apply Ascii.eqb_neq in Hm, Hp. by rewrite Hm, Hp.
Qed.

Lemma pretty_pos p : exists a s, (pretty (Z.pos p) : string) = String a s /\ is_Some (digit a) /\ digits 0 (String a s) = Z.pos p /\
  all_digits (String a s).
Proof.
  change (pretty (Z.pos p)) with (pretty (N.pos p)). destruct (pretty_N_digits (N.pos p)) as (Hd & Ha & Hne).
  destruct (pretty (N.pos p)) as [|a s]; [done|]. exists a, s. split_and!; try done. by apply Forall_cons in Ha as [? _].
Qed.

(** A number as it is written is read back. *)
Lemma stoi_pretty (z : Z) : - 2 ^ 31 <= z < 2 ^ 31 -> stoi (pretty z) = Some z.
Proof.
  intros Hz. unfold stoi. destruct z as [|p|p]; [done| |].
  - destruct (pretty_pos p) as (a & s & -> & Ha & Hd & _). rewrite skip_digits by done. destruct Ha as [d ->]. rewrite Hd.
    by rewrite (proj2 (andb_true_iff _ _)) by lia.
  - destruct (pretty_pos p) as (a & s & E & Ha & Hd & _). change (pretty (Z.neg p)) with ("-" +:+ (pretty (Z.pos p) : string)).
    rewrite E. change (split_sign (skip_spaces ("-" +:+ String a s))) with (true, String a s). cbv beta iota. destruct Ha as [d ->].
    rewrite Hd. by rewrite (proj2 (andb_true_iff _ _)) by lia.
Qed.

Lemma digits_word s : all_digits s -> s <> EmptyString -> is_word s.
Proof. intros Hd Hne. split; [done|]. eapply Forall_impl; [exact Hd|]. intros a Ha. by apply digit_not_space. Qed.

Lemma pretty_word (z : Z) : is_word (pretty z).
Proof.
  destruct z as [|p|p].
  - split; [done|]. by repeat constructor.
  - destruct (pretty_pos p) as (a & s & -> & _ & _ & Hd). by apply digits_word.
  - destruct (pretty_pos p) as (a & s & E & _ & _ & Hd). change (pretty (Z.neg p)) with ("-" +:+ (pretty (Z.pos p) : string)).
    rewrite E. split; [done|]. apply Forall_cons. split; [done|]. by destruct (digits_word (String a s) Hd ltac:(done)).
Qed.
