(* ===== verification/Arq.v ===== *)
(** * Arq: the minimal ARQ wrapper

    Models src/System/Session/UDP/KCPWrapper.cpp and KCPWrapper.h: sequence numbers, a
    send window of 32 slots, a receive queue of at most 64 packets.  A buffer is the
    list of its bytes; a result [None] is an access outside it.  Sequence numbers are 32
    bits wide.  The allocation of a packet's bytes does not fail. *)

From stdpp Require Import base numbers list relations.
From S2P Require Import Prelude.

Record Packet := mkPacket { sequence : Z; data : list Z }.

Record KCPWrapper := mkWrapper {
  _localSequence : Z;
  _remoteSequence : Z;
  _conv : Z;
  _sendWindow : list Packet;
  _receiveQueue : list Packet;
  _lastUpdate : Z
}.

Definition SEND_WINDOW_SIZE : Z := 32.
Definition RECEIVE_BUFFER_SIZE : nat := 64.
Definition UPDATE_INTERVAL : Z := 10.

Definition Initialize (conv : Z) (k : KCPWrapper) : KCPWrapper :=
  mkWrapper 0 0 conv (map (fun _ => mkPacket 0 []) (_sendWindow k)) [] 0.

(** A constructed and initialised wrapper. *)
Definition start (conv : Z) : KCPWrapper :=
  Initialize conv (mkWrapper 0 0 0 (replicate 32 (mkPacket 0 [])) [] 0).

Definition set_queue (seq : Z) (q : list Packet) (k : KCPWrapper) : KCPWrapper :=
  mkWrapper (_localSequence k) seq (_conv k) (_sendWindow k) q (_lastUpdate k).

(** The sequence number of the packet is the old counter, its slot comes from the new. *)
Definition Send (buffer : list Z) (len : Z) (k : KCPWrapper) : option (Z * KCPWrapper) :=
  if (len <=? 0) || (1024 <? len) then Some (-1, k)
  else if Z.of_nat (length buffer) <? len then None
  else
    let pkt := mkPacket (_localSequence k) (take (Z.to_nat len) buffer) in
    let local := u32 (_localSequence k + 1) in
    let slot := Z.to_nat (local mod SEND_WINDOW_SIZE) in
    Some (len, mkWrapper local (_remoteSequence k) (_conv k) (<[slot := pkt]> (_sendWindow k)) (_receiveQueue k) (_lastUpdate k)).

(** [while (_receiveQueue.size() > RECEIVE_BUFFER_SIZE) pop_front()] *)
Definition trim (q : list Packet) : list Packet := drop (length q - RECEIVE_BUFFER_SIZE) q.

Definition Input (buffer : list Z) (len : Z) (k : KCPWrapper) : option (Z * KCPWrapper) :=
  if len <? 4 then Some (-1, k)
  else if Z.of_nat (length buffer) <? len then None
  else
    let bytes := take (Z.to_nat len) buffer in
    let seq := le_val (take 4 bytes) in
    let pkt := mkPacket seq (drop 4 bytes) in
    let k :=
      if seq =? _remoteSequence k then set_queue (u32 (_remoteSequence k + 1)) (_receiveQueue k ++ [pkt]) k
      else if _remoteSequence k <? seq then set_queue (_remoteSequence k) (_receiveQueue k ++ [pkt]) k
      else k in
    Some (len, set_queue (_remoteSequence k) (trim (_receiveQueue k)) k).

Definition Update (current : Z) (k : KCPWrapper) : KCPWrapper :=
  if UPDATE_INTERVAL <=? u32 (current - _lastUpdate k)
  then mkWrapper (_localSequence k) (_remoteSequence k) (_conv k) (_sendWindow k) (_receiveQueue k) current
  else k.

(** [memcpy(buffer + i, bytes)] *)
Definition write (i : nat) (bytes buffer : list Z) : option (list Z) :=
  if (i + length bytes <=? length buffer)%nat then Some (splice i bytes buffer) else None.

(** [maxSize] limits the payload alone; the header comes on top of it.  A negative
    [maxSize] becomes the largest size in the comparison. *)
Definition Recv (buffer : list Z) (maxSize : Z) (k : KCPWrapper) : option (Z * list Z * KCPWrapper) :=
  match _receiveQueue k with
  | [] => Some (0, buffer, k)
  | pkt :: q =>
      let k := set_queue (_remoteSequence k) q k in
      let size := Z.of_nat (length (data pkt)) in
      if size =? 0 then Some (0, buffer, k) else
      let copySize := if size <? u64 maxSize then size else maxSize in
      buffer ← write 0 (le_bytes 4 (sequence pkt) ++ take (Z.to_nat copySize) (data pkt)) buffer;
      Some (4 + copySize, buffer, k)
  end.

Definition pending (k : KCPWrapper) (pkt : Packet) : bool :=
  negb ((sequence pkt =? 0) || (Z.of_nat (length (data pkt)) =? 0)) && (_remoteSequence k <? sequence pkt).

(** The loop of [Output]: what is written, in the order of the slots, up to the first
    pending packet that does not fit. *)
Fixpoint output_loop (k : KCPWrapper) (maxSize total : Z) (window : list Packet) : list Z :=
  match window with
  | [] => []
  | pkt :: window =>
      if pending k pkt then
        let packetSize := 4 + Z.of_nat (length (data pkt)) in
        if maxSize <? total + packetSize then []
        else le_bytes 4 (sequence pkt) ++ data pkt ++ output_loop k maxSize (total + packetSize) window
      else output_loop k maxSize total window
  end.

Definition Output (buffer : list Z) (maxSize : Z) (k : KCPWrapper) : option (Z * list Z) :=
  let out := output_loop k maxSize 0 (_sendWindow k) in
  buffer ← write 0 out buffer;
  Some (Z.of_nat (length out), buffer).

(** ** Invariant *)

Record arq_ok (k : KCPWrapper) : Prop := mk_arq_ok {
  ak_local : in_u 32 (_localSequence k);
  ak_remote : in_u 32 (_remoteSequence k);
  ak_window : length (_sendWindow k) = 32%nat;
  ak_packets : Forall (fun p => in_u 32 (sequence p) /\ (length (data p) <= 1024)%nat) (_sendWindow k);
  ak_queue : (length (_receiveQueue k) <= RECEIVE_BUFFER_SIZE)%nat
}.

Lemma arq_ok_start conv : arq_ok (start conv).
Proof. split; cbn; try done; try lia. repeat constructor; cbn; unfold in_u; lia. Qed.

Lemma length_trim q : (length (trim q) <= RECEIVE_BUFFER_SIZE)%nat.
Proof. unfold trim, RECEIVE_BUFFER_SIZE. rewrite length_drop. lia. Qed.

Lemma trim_short q : (length q <= RECEIVE_BUFFER_SIZE)%nat -> trim q = q.
Proof. intros H. unfold trim. by replace (length q - _)%nat with 0%nat by lia. Qed.

Lemma arq_ok_queue k seq q : arq_ok k -> in_u 32 seq -> (length q <= RECEIVE_BUFFER_SIZE)%nat -> arq_ok (set_queue seq q k).
Proof. by intros [] ? ?. Qed.

(** What the loop writes stays within [maxSize]. *)
Lemma output_loop_fits k maxSize total window :
  total <= maxSize -> total + Z.of_nat (length (output_loop k maxSize total window)) <= maxSize.
Proof.
  revert total. induction window as [|pkt window IH]; intros total Ht; cbn [output_loop]; [cbn; lia|].
  destruct (pending k pkt); [|by apply IH]. destruct (maxSize <? _) eqn:E; [cbn; lia|]. bool_to_prop.
  specialize (IH (total + (4 + Z.of_nat (length (data pkt)))) E).
  rewrite !length_app, length_le_bytes. lia.
Qed.

(** ** Two endpoints

    Each sends through a network that loses, duplicates and reorders datagrams: what
    was once sent to an endpoint may arrive any time. *)

Record Link := mkLink { left_end : KCPWrapper; right_end : KCPWrapper; to_right : list (list Z); to_left : list (list Z) }.

(** An operation of the application on an endpoint. *)
Inductive local_step (k k' : KCPWrapper) : Prop :=
| ls_send buffer len n : Send buffer len k = Some (n, k') -> local_step k k'
| ls_recv buffer buffer' m n : Recv buffer m k = Some (n, buffer', k') -> local_step k k'
| ls_update t : k' = Update t k -> local_step k k'.

(** The datagram that [Output] makes of a buffer of [maxSize] bytes. *)
Definition datagram (maxSize : Z) (k : KCPWrapper) : list Z := output_loop k maxSize 0 (_sendWindow k).

Inductive link_step : Link -> Link -> Prop :=
| lk_left l l' r a b : local_step l l' -> link_step (mkLink l r a b) (mkLink l' r a b)
| lk_right l r r' a b : local_step r r' -> link_step (mkLink l r a b) (mkLink l r' a b)
| lk_out_left m l r a b : link_step (mkLink l r a b) (mkLink l r (datagram m l :: a) b)
| lk_out_right m l r a b : link_step (mkLink l r a b) (mkLink l r a (datagram m r :: b))
| lk_in_right l r r' a b d n : d ∈ a -> Input d (Z.of_nat (length d)) r = Some (n, r') -> link_step (mkLink l r a b) (mkLink l r' a b)
| lk_in_left l l' r a b d n : d ∈ b -> Input d (Z.of_nat (length d)) l = Some (n, l') -> link_step (mkLink l r a b) (mkLink l' r a b).

(** The packets a run of the protocol can deliver. *)
Definition not_first (k : KCPWrapper) : Prop :=
  _remoteSequence k = 0 /\ Forall (fun p => in_u 32 (sequence p)) (_sendWindow k) /\ in_u 32 (_localSequence k).
Definition not_first_datagram (d : list Z) : Prop := d = [] \/ 4 <= Z.of_nat (length d) /\ 0 < le_val (take 4 d).

Lemma local_step_not_first k k' : not_first k -> local_step k k' -> not_first k'.
Proof.
  intros (Hr & Hw & Hl) Hs. destruct Hs as [buffer len n Hs|buffer buffer' m n Hs|t ->].
  - unfold Send in Hs. destruct (_ || _); [by simplify_eq|]. destruct (_ <? _); [done|]. simplify_eq.
    split; [done|]. split; cbn; [|by apply wrap_bound]. apply Forall_insert; [done|]. exact Hl.
  - unfold Recv in Hs. destruct (_receiveQueue k); [by simplify_eq|]. destruct (_ =? 0); [by simplify_eq|].
    destruct (write _ _ _); [|done]. cbn in Hs. by simplify_eq.
  - unfold Update. by destruct (_ <=? _).
Qed.

Lemma output_not_first k maxSize total window :
  _remoteSequence k = 0 -> Forall (fun p => in_u 32 (sequence p)) window -> not_first_datagram (output_loop k maxSize total window).
Proof.
  intros Hr. revert total. induction window as [|pkt window IH]; intros total Hw; cbn [output_loop]; [by left|].
  inversion Hw as [|? ? Hp Hw']; subst. destruct (pending k pkt) eqn:E; [|by apply IH].
  destruct (maxSize <? _); [by left|]. right. unfold pending in E. rewrite Hr in E. bool_to_prop.
  rewrite length_app, take_app_length' by (by rewrite length_le_bytes). rewrite length_le_bytes, le_val_le_bytes.
  split; [lia|]. rewrite Z.mod_small; [lia|]. unfold in_u in Hp. change (256 ^ Z.of_nat 4) with (2 ^ 32). lia.
Qed.

Lemma input_not_first d n k k' : not_first k -> not_first_datagram d ->
  Input d (Z.of_nat (length d)) k = Some (n, k') -> not_first k'.
Proof.
  intros (Hr & Hw & Hl) Hd Hi. unfold Input in Hi. rewrite Z.ltb_irrefl in Hi.
  destruct (_ <? _) eqn:El; [by simplify_eq|]. destruct Hd as [->|[_ Hd]]; [done|].
  rewrite (take_ge d) in Hi by lia. rewrite Hr in Hi. destruct (_ =? 0) eqn:E0; [bool_to_prop; lia|].
  simplify_eq. by destruct (0 <? _).
Qed.

Definition link_inv (s : Link) : Prop :=
  not_first (left_end s) /\ not_first (right_end s) /\
  Forall not_first_datagram (to_right s) /\ Forall not_first_datagram (to_left s).

Lemma link_inv_step s s' : link_inv s -> link_step s s' -> link_inv s'.
Proof.
  intros (Hl & Hr & Ha & Hb) Hs. destruct Hs as [l l' r a b Hs|l r r' a b Hs|m l r a b|m l r a b|l r r' a b d n Hd Hi|l l' r a b d n Hd Hi];
    unfold link_inv; cbn in *; refine (conj _ (conj _ (conj _ _))); try done; try (by eapply local_step_not_first; [|exact Hs]).
  1,2: constructor; [|done]; apply output_not_first; [apply Hl || apply Hr|apply Hl || apply Hr].
  all: rewrite Forall_forall in Ha, Hb; eapply input_not_first; [| |exact Hi]; by auto.
Qed.

(** ** Properties *)

(** Two endpoints that talk through any network never advance: the packet with
    sequence number 0 is never put out (0 marks an empty slot), so after any run of
    sends, outputs, losses, duplications and deliveries both still expect number 0 and
    accept everything that arrives as a packet from the future, as often as it comes. *)
Theorem arq_never_advances conv1 conv2 s (Hr : rtc link_step (mkLink (start conv1) (start conv2) [] []) s) :
  _remoteSequence (left_end s) = 0 /\ _remoteSequence (right_end s) = 0.
Proof.
  assert (link_inv s) as [[? _] [[? _] _]]; [|done].
  assert (link_inv (mkLink (start conv1) (start conv2) [] [])) as H0.
  { assert (forall conv, not_first (start conv)) as H.
    { intros conv. split; [done|]. destruct (arq_ok_start conv) as [? ? ? Hp _]. split; [|done].
      eapply Forall_impl; [exact Hp|]. by intros ? []. }
    repeat split; by apply H || constructor. }
  clear -H0 Hr. induction Hr as [s|s s1 s2 Hs Hr IH]; [done|]. apply IH. by eapply link_inv_step.
Qed.

(** [bufs] are datagrams that carry [payloads] from sequence number [n] on. *)
Definition wire (n : Z) (payload : list Z) : list Z := le_bytes 4 n ++ payload.

Fixpoint feed (n : Z) (payloads : list (list Z)) (k : KCPWrapper) : option KCPWrapper :=
  match payloads with
  | [] => Some k
  | p :: ps => '(_, k) ← Input (wire n p) (Z.of_nat (length (wire n p))) k; feed (n + 1) ps k
  end.

Fixpoint receive (fuel : nat) (buffer : list Z) (maxSize : Z) (k : KCPWrapper) : option (list (list Z)) :=
  match fuel with
  | O => Some []
  | S fuel =>
      '(n, b, k) ← Recv buffer maxSize k;
      l ← receive fuel buffer maxSize k;
      Some (take (Z.to_nat n) b :: l)
  end.

Lemma Input_expected n p k : 0 <= n -> n + 1 < 2 ^ 32 -> _remoteSequence k = n -> (length (_receiveQueue k) < RECEIVE_BUFFER_SIZE)%nat ->
  Input (wire n p) (Z.of_nat (length (wire n p))) k =
  Some (Z.of_nat (length (wire n p)), set_queue (n + 1) (_receiveQueue k ++ [mkPacket n p]) k).
Proof.
  intros Hn Hn' Hr Hq. unfold Input. assert (length (wire n p) = (4 + length p)%nat) as El.
  { unfold wire. by rewrite length_app, length_le_bytes. }
  rewrite Z.ltb_irrefl. destruct (_ <? 4) eqn:E4; [bool_to_prop; lia|].
  rewrite (take_ge (wire n p)) by lia.
  destruct (take_app_drop_eq (le_bytes 4 n) p 4 (eq_sym (length_le_bytes 4 n))) as [E1 E2].
  fold (wire n p) in E1, E2. rewrite E1, E2.
  rewrite le_val_le_bytes, Z.mod_small by (change (256 ^ Z.of_nat 4) with (2 ^ 32); lia).
  rewrite Hr, Z.eqb_refl. cbn [_receiveQueue _remoteSequence set_queue].
  rewrite trim_short by (rewrite length_app; cbn; lia). rewrite wrap_small by (unfold in_u; lia). done.
Qed.

Lemma feed_expected n ps k : 0 <= n -> n + Z.of_nat (length ps) < 2 ^ 32 -> _remoteSequence k = n ->
  (length (_receiveQueue k) + length ps <= RECEIVE_BUFFER_SIZE)%nat ->
  feed n ps k = Some (set_queue (n + Z.of_nat (length ps)) (_receiveQueue k ++ imap (fun i p => mkPacket (n + Z.of_nat i) p) ps) k).
Proof.
  revert n k. induction ps as [|p ps IH]; intros n k Hn Hb Hr Hq; cbn [feed length] in *.
  - rewrite app_nil_r, Z.add_0_r, <- Hr. by destruct k.
  - rewrite Input_expected by (done || lia). cbn [mbind option_bind]. rewrite IH by (cbn; rewrite ?length_app; cbn; lia || done).
    cbn [_receiveQueue set_queue _remoteSequence _localSequence _conv _sendWindow _lastUpdate imap]. f_equal.
    unfold set_queue. cbn. rewrite <- app_assoc. cbn. rewrite Z.add_0_r. f_equal; [lia|]. do 2 f_equal.
    apply imap_ext. intros i x _. cbn. f_equal. lia.
Qed.

Lemma receive_queue buffer maxSize k : maxSize < 2 ^ 31 ->
  Forall (fun p => 0 < Z.of_nat (length (data p)) <= maxSize /\ (4 + length (data p) <= length buffer)%nat) (_receiveQueue k) ->
  receive (length (_receiveQueue k)) buffer maxSize k = Some (map (fun p => wire (sequence p) (data p)) (_receiveQueue k)).
Proof.
  intros Hm. remember (_receiveQueue k) as q eqn:E. revert k E. induction q as [|p q IH]; intros k E Hq; [done|].
  inversion Hq as [|? ? [Hp Hb] Hq']; subst. cbn [receive length map]. unfold Recv. rewrite <- E.
  destruct (_ =? 0) eqn:E0; [bool_to_prop; lia|].
  assert ((if Z.of_nat (length (data p)) <? u64 maxSize then Z.of_nat (length (data p)) else maxSize) = Z.of_nat (length (data p))) as ->.
  { rewrite wrap_small by (unfold in_u; lia). destruct (_ <? _) eqn:E1; bool_to_prop; lia. }
  rewrite Nat2Z.id, take_ge by lia. unfold write. cbn [Nat.add]. rewrite length_app, length_le_bytes.
  rewrite (proj2 (Nat.leb_le _ _)) by lia. cbn [mbind option_bind].
  rewrite (IH (set_queue (_remoteSequence k) q k)) by done. cbn. f_equal. f_equal.
  unfold splice. cbn [take app]. replace (Z.to_nat (4 + Z.of_nat (length (data p)))) with (length (wire (sequence p) (data p)))
    by (unfold wire; rewrite length_app, length_le_bytes; lia).
  exact (take_app_length (wire _ _) _).
Qed.

(** Packets that arrive in order come out in order: up to 64 non-empty payloads fed
    with consecutive sequence numbers from the expected one are received one by one,
    each with its number, unchanged, by a reader whose buffer has room for the header
    beyond [maxSize]. *)
Theorem arq_in_order_roundtrip n ps buffer maxSize k
  (Hn : 0 <= n) (Hb : n + Z.of_nat (length ps) < 2 ^ 32) (Hr : _remoteSequence k = n) (Hq : _receiveQueue k = [])
  (Hl : (length ps <= RECEIVE_BUFFER_SIZE)%nat) (Hm : maxSize < 2 ^ 31)
  (Hp : Forall (fun p => 0 < Z.of_nat (length p) <= maxSize /\ (4 + length p <= length buffer)%nat) ps) :
  exists k', feed n ps k = Some k' /\ _remoteSequence k' = n + Z.of_nat (length ps) /\
    receive (length ps) buffer maxSize k' = Some (imap (fun i p => wire (n + Z.of_nat i) p) ps).
Proof.
  eexists. split; [apply feed_expected; rewrite ?Hq; done|]. split; [done|]. rewrite Hq. cbn [app].
  set (q := imap _ ps). set (k' := set_queue _ _ _).
  assert (length ps = length (_receiveQueue k')) as -> by (by cbn; unfold q; rewrite length_imap).
  rewrite receive_queue; [|done|].
  - f_equal. cbn. unfold q. rewrite (fmap_imap _ _ ps : map _ _ = _). by apply imap_ext.
  - cbn. unfold q. apply Forall_lookup. intros i p. rewrite list_lookup_imap, fmap_Some. intros (x & Hx & ->). cbn.
    rewrite Forall_lookup in Hp. by apply (Hp i).
Qed.

(** [Recv] writes four bytes more than it is told there is room for: with a buffer of
    exactly [maxSize] bytes it stays inside exactly when the payload leaves them. *)
Theorem recv_overruns_its_buffer buffer pkt q k
  (Hq : _receiveQueue k = pkt :: q) (Hd : data pkt <> []) (Hb : Z.of_nat (length buffer) < 2 ^ 31) :
  Recv buffer (Z.of_nat (length buffer)) k = None <-> Z.of_nat (length buffer) < 4 + Z.of_nat (length (data pkt)).
Proof.
  unfold Recv. rewrite Hq. assert (0 < Z.of_nat (length (data pkt))) as Hpos by (destruct (data pkt); [done|cbn; lia]).
  destruct (_ =? 0) eqn:E0; [bool_to_prop; lia|]. rewrite wrap_small by (unfold in_u; lia). unfold write.
  rewrite length_app, length_le_bytes, length_take. cbn [Nat.add]. destruct (_ <? _) eqn:E1; bool_to_prop.
  - rewrite Nat2Z.id. destruct (_ <=? _)%nat eqn:E2; cbn; [apply Nat.leb_le in E2|apply Nat.leb_gt in E2]; split; try done; lia.
  - rewrite Nat2Z.id. destruct (_ <=? _)%nat eqn:E2; cbn; [apply Nat.leb_le in E2|apply Nat.leb_gt in E2]; split; try done; lia.
Qed.

(** [Output] stays within the buffer it is given. *)
Theorem output_stays_in_buffer buffer maxSize k (Hm : 0 <= maxSize <= Z.of_nat (length buffer)) :
  exists n buffer', Output buffer maxSize k = Some (n, buffer') /\ n <= maxSize /\ length buffer' = length buffer.
Proof.
  pose proof (output_loop_fits k maxSize 0 (_sendWindow k) (proj1 Hm)) as Hf.
  unfold Output, write. rewrite (proj2 (Nat.leb_le _ _)) by lia. cbn.
  do 2 eexists. split; [done|]. split; [lia|]. apply length_splice. lia.
Qed.

(** Two pending packets make one datagram, which the other side takes for one packet. *)
Example datagram_merges_packets :
  let k1 := default (start 1) (snd <$> Send [10] 1 (start 1)) in
  let k2 := default (start 1) (snd <$> Send [11] 1 k1) in
  let k3 := default (start 1) (snd <$> Send [12] 1 k2) in
  let d := datagram 1400 k3 in
  d = wire 1 [11] ++ wire 2 [12] /\
  (_receiveQueue ∘ snd) <$> Input d (Z.of_nat (length d)) (start 1) = Some [mkPacket 1 ([11] ++ wire 2 [12])].
Proof. by vm_compute. Qed.

(** The operations keep the invariant. *)
Theorem arq_ok_step k k' : arq_ok k ->
  local_step k k' \/ (exists d n, Forall is_byte d /\ Input d (Z.of_nat (length d)) k = Some (n, k')) -> arq_ok k'.
Proof.
  intros Hok [Hs|(d & n & Hd & Hi)].
  - pose proof Hok as [Hl Hr Hw Hp Hq]. destruct Hs as [buffer len n Hs|buffer buffer' m n Hs|t ->].
    + unfold Send in Hs. destruct (_ || _) eqn:E; [by simplify_eq|]. destruct (Z.of_nat _ <? len); [done|]. simplify_eq.
      apply orb_false_elim in E as [E1 E2]. bool_to_prop.
      split; cbn; rewrite ?length_insert; try done; [by apply wrap_bound|].
      apply Forall_insert; [done|]. cbn. split; [done|]. rewrite length_take. lia.
    + unfold Recv in Hs. destruct (_receiveQueue k) as [|p q] eqn:Eq; [by simplify_eq|].
      assert (arq_ok (set_queue (_remoteSequence k) q k)) as Hk by (by split; cbn in *; try done; lia).
      destruct (_ =? 0); [by simplify_eq|]. destruct (write _ _ _); [|done]. cbn in Hs. by simplify_eq.
    + unfold Update. by destruct (_ <=? _).
  - unfold Input in Hi. rewrite Z.ltb_irrefl in Hi. destruct (_ <? 4) eqn:E4; [by simplify_eq|].
    injection Hi as <- <-. destruct Hok as [Hl Hr Hw Hp Hq].
    destruct (_ =? _); [|destruct (_remoteSequence k <? _)]; split; cbn; try done; try apply length_trim. by apply wrap_bound.
Qed.

(** ** Witnesses *)

(** A sends two packets and puts them out; B takes what arrives twice. *)
Definition demo_sender : KCPWrapper :=
  let k := default (start 1) (snd <$> Send [10] 1 (start 1)) in default (start 1) (snd <$> Send [11] 1 k).
Definition demo_receiver (n : nat) : KCPWrapper := set_queue 0 (replicate n (mkPacket 1 [11])) (start 1).

Lemma arq_never_advances_witness :
  exists s, rtc link_step (mkLink (start 1) (start 1) [] []) s /\
    _receiveQueue (right_end s) = [mkPacket 1 [11]; mkPacket 1 [11]] /\ _remoteSequence (right_end s) = 0.
Proof.
  assert (rtc link_step (mkLink (start 1) (start 1) [] []) (mkLink demo_sender (demo_receiver 2) [wire 1 [11]] [])) as H.
  { eapply rtc_l; [apply lk_left; by apply (ls_send _ _ [10] 1 1)|].
    eapply rtc_l; [apply lk_left; by apply (ls_send _ _ [11] 1 1)|].
    eapply rtc_l; [apply (lk_out_left 1400)|].
    eapply rtc_l; [apply (lk_in_right _ _ (demo_receiver 1) _ _ (wire 1 [11]) 5); [by left|by vm_compute]|].
    apply rtc_once. apply (lk_in_right _ _ (demo_receiver 2) _ _ (wire 1 [11]) 5); [by left|by vm_compute]. }
  eexists. split; [exact H|]. split; [done|]. exact (proj2 (arq_never_advances 1 1 _ H)).
Defined.

Lemma arq_in_order_roundtrip_witness :
  exists k', feed 0 [[7]; [8; 9]] (start 1) = Some k' /\ _remoteSequence k' = 2 /\
    receive 2 (replicate 6 0) 2 k' = Some [wire 0 [7]; wire 1 [8; 9]].
Proof.
  apply (arq_in_order_roundtrip 0 [[7]; [8; 9]] (replicate 6 0) 2 (start 1)); try done; try (cbn; lia).
  - unfold RECEIVE_BUFFER_SIZE. cbn. lia.
  - repeat (apply Forall_cons; split); try (cbn; lia). by apply Forall_nil.
Defined.

Lemma recv_overruns_its_buffer_witness :
  Recv [0; 0; 0] 3 (set_queue 0 [mkPacket 1 [5; 6]] (start 1)) = None.
Proof.
  apply (recv_overruns_its_buffer [0; 0; 0] (mkPacket 1 [5; 6]) []); [done|done|cbn; lia|cbn; lia].
Defined.

Lemma output_stays_in_buffer_witness :
  exists n buffer', Output (replicate 5 0) 5 demo_sender = Some (n, buffer') /\ n <= 5 /\ length buffer' = 5%nat.
Proof. apply (output_stays_in_buffer (replicate 5 0) 5 demo_sender). cbn. lia. Defined.

Lemma arq_ok_step_witness : arq_ok (default (start 1) (snd <$> Send [10] 1 (start 1))).
Proof.
  apply (arq_ok_step (start 1)); [apply arq_ok_start|]. left. by apply (ls_send _ _ [10] 1 1).
Defined.
