(* ===== verification/RecvBuffer.v ===== *)
(** * RecvBuffer: the linear receive buffer of the TCP sessions

    Models [System::RecvBuffer] (src/System/Network/RecvBuffer.h and .cpp).
    The cursors are [int32_t] fields, kept as [Z]; [recv_inv] bounds them by the
    capacity, so no signed overflow is possible.  The abstract view of a buffer
    is the byte sequence [unread], and every operation is related to it. *)

From stdpp Require Import base list numbers.
From S2P Require Import Prelude.

Record RecvBuffer := mkRecvBuffer {
  _capacity : Z;
  _readPos : Z;
  _writePos : Z;
  _buffer : list Z
}.

Definition DEFAULT_CAPACITY : Z := 64 * 1024.

Definition COMPACT_THRESHOLD : Z := 10 * 1024.

Definition RecvBuffer_new (bufferSize : Z) : RecvBuffer :=
  mkRecvBuffer bufferSize 0 0 (replicate (Z.to_nat bufferSize) 0).

Definition DataSize (b : RecvBuffer) : Z := _writePos b - _readPos b.

Definition FreeSize (b : RecvBuffer) : Z := _capacity b - _writePos b.

Definition RecvBuffer_Reset (b : RecvBuffer) : RecvBuffer :=
  mkRecvBuffer (_capacity b) 0 0 (_buffer b).

Definition Clean (b : RecvBuffer) : RecvBuffer :=
  let dataSize := DataSize b in
  if dataSize =? 0 then mkRecvBuffer (_capacity b) 0 0 (_buffer b)
  else if FreeSize b <? COMPACT_THRESHOLD then
    mkRecvBuffer (_capacity b) 0 dataSize
      (splice 0 (sub_list (Z.to_nat (_readPos b)) (Z.to_nat dataSize) (_buffer b)) (_buffer b))
  else b.

Definition MoveReadPos (numOfBytes : Z) (b : RecvBuffer) : bool * RecvBuffer :=
  if DataSize b <? numOfBytes then (false, b)
  else (true, mkRecvBuffer (_capacity b) (_readPos b + numOfBytes) (_writePos b) (_buffer b)).

Definition MoveWritePos (numOfBytes : Z) (b : RecvBuffer) : bool * RecvBuffer :=
  if FreeSize b <? numOfBytes then (false, b)
  else (true, mkRecvBuffer (_capacity b) (_readPos b) (_writePos b + numOfBytes) (_buffer b)).

(** [ReadBytes n b] is what a [memcpy] of [n] bytes from [ReadPos()] copies. *)
Definition ReadBytes (n : nat) (b : RecvBuffer) : list Z :=
  sub_list (Z.to_nat (_readPos b)) n (_buffer b).

(** The kernel storing received bytes at [WritePos()] (the buffer handed to
    [async_read_some]); at most [FreeSize] bytes are delivered. *)
Definition WriteBytes (bs : list Z) (b : RecvBuffer) : RecvBuffer :=
  mkRecvBuffer (_capacity b) (_readPos b) (_writePos b)
    (splice (Z.to_nat (_writePos b)) bs (_buffer b)).

(** ** Invariant and abstraction *)

Record recv_inv (b : RecvBuffer) : Prop := mk_recv_inv {
  ri_read : 0 <= _readPos b;
  ri_data : _readPos b <= _writePos b;
  ri_cap : _writePos b <= _capacity b;
  ri_len : Z.of_nat (length (_buffer b)) = _capacity b
}.

Definition unread (b : RecvBuffer) : list Z := ReadBytes (Z.to_nat (DataSize b)) b.

Ltac recv_unfold :=
  unfold unread, ReadBytes, WriteBytes, DataSize, FreeSize, RecvBuffer_Reset in *;
  simpl in *.

Lemma length_unread b : recv_inv b -> Z.of_nat (length (unread b)) = DataSize b.
Proof. intros []. recv_unfold. rewrite length_sub_list; lia. Qed.

Lemma FreeSize_nonneg b : recv_inv b -> 0 <= FreeSize b.
Proof. intros []. recv_unfold. lia. Qed.

Lemma new_inv n : 0 <= n -> recv_inv (RecvBuffer_new n).
Proof. split; simpl; rewrite ?length_replicate; lia. Qed.

Lemma new_unread n : unread (RecvBuffer_new n) = [].
Proof. done. Qed.

Lemma Reset_inv b : recv_inv b -> recv_inv (RecvBuffer_Reset b).
Proof. intros []; split; simpl; lia. Qed.

Lemma Clean_inv b : recv_inv b -> recv_inv (Clean b).
Proof.
  intros [? ? ? ?]. unfold Clean. split_tests; bool_to_prop; [by split; simpl; lia| |done].
  recv_unfold. split; simpl; try lia.
  rewrite length_splice; rewrite ?length_sub_list; lia.
Qed.

Lemma Clean_unread b : recv_inv b -> unread (Clean b) = unread b.
Proof.
  intros [? ? ? ?]. unfold Clean. split_tests; bool_to_prop; [| |done]; recv_unfold.
  - by replace (_writePos b - _readPos b) with 0 by lia.
  - rewrite Z.sub_0_r, <- (length_sub_list (Z.to_nat (_readPos b))
      (Z.to_nat (_writePos b - _readPos b)) (_buffer b)) at 1 by lia.
    apply sub_list_splice_eq. lia.
Qed.

Lemma Clean_DataSize b : DataSize (Clean b) = DataSize b.
Proof. unfold Clean. split_tests; bool_to_prop; recv_unfold; lia. Qed.

Lemma Clean_capacity b : _capacity (Clean b) = _capacity b.
Proof. unfold Clean. by split_tests. Qed.

Lemma MoveReadPos_inv n b :
  0 <= n -> recv_inv b -> recv_inv (MoveReadPos n b).2.
Proof.
  intros ? [? ? ? ?]. unfold MoveReadPos.
  split_tests; bool_to_prop; recv_unfold; split; simpl; lia.
Qed.

Lemma MoveReadPos_ok n b :
  0 <= n <= DataSize b -> recv_inv b ->
  (MoveReadPos n b).1 = true /\
  unread (MoveReadPos n b).2 = drop (Z.to_nat n) (unread b).
Proof.
  intros ? [? ? ? ?]. unfold MoveReadPos.
  split_tests; bool_to_prop; [lia|]. split; [done|]. recv_unfold.
  rewrite drop_sub_list. f_equal; lia.
Qed.

Lemma MoveWritePos_inv n b :
  0 <= n -> recv_inv b -> recv_inv (MoveWritePos n b).2.
Proof.
  intros ? [? ? ? ?]. unfold MoveWritePos.
  split_tests; bool_to_prop; recv_unfold; split; simpl; lia.
Qed.

Lemma WriteBytes_inv bs b :
  Z.of_nat (length bs) <= FreeSize b -> recv_inv b -> recv_inv (WriteBytes bs b).
Proof.
  intros ? [? ? ? ?]. recv_unfold. split; simpl; try lia.
  rewrite length_splice; lia.
Qed.

(** A completed socket read of [bs] into the free area. *)
Definition Received (bs : list Z) (b : RecvBuffer) : bool * RecvBuffer :=
  MoveWritePos (Z.of_nat (length bs)) (WriteBytes bs b).

Lemma Received_ok bs b :
  Z.of_nat (length bs) <= FreeSize b -> recv_inv b ->
  (Received bs b).1 = true /\ recv_inv (Received bs b).2 /\
  unread (Received bs b).2 = unread b ++ bs.
Proof.
  intros Hfit Hinv. pose proof (WriteBytes_inv bs b Hfit Hinv) as Hw.
  destruct Hinv as [? ? ? ?]. split; [|split].
  - unfold Received, MoveWritePos. recv_unfold. split_tests; bool_to_prop; [lia|done].
  - apply MoveWritePos_inv; [lia|done].
  - unfold Received, MoveWritePos. recv_unfold. split_tests; bool_to_prop; [lia|]. simpl.
    replace (Z.to_nat (_writePos b + Z.of_nat (length bs) - _readPos b))
      with (Z.to_nat (_writePos b - _readPos b) + length bs)%nat by lia.
    rewrite sub_list_app. f_equal.
    + apply sub_list_splice_before; lia.
    + replace (Z.to_nat (_readPos b) + Z.to_nat (_writePos b - _readPos b))%nat
        with (Z.to_nat (_writePos b)) by lia.
      apply sub_list_splice_eq. lia.
Qed.

#[export] Hint Resolve new_inv Reset_inv Clean_inv MoveReadPos_inv MoveWritePos_inv
  WriteBytes_inv : toy.

(** [Clean] leaves room unless the buffer is full of unread data. *)
Lemma Clean_makes_room b (Hinv : recv_inv b) (Hfull : DataSize b < _capacity b) :
  unread (Clean b) = unread b /\ 0 < FreeSize (Clean b).
Proof.
  split; [by apply Clean_unread|]. destruct Hinv as [? ? ? ?].
  unfold Clean, COMPACT_THRESHOLD. split_tests; bool_to_prop; recv_unfold; lia.
Qed.

(** ** Properties *)

(** The buffer as a byte queue: a reachable buffer is one produced from the
    constructor by the operations the sessions call, in any order. *)
Inductive recv_op :=
  | OpClean
  | OpReset
  | OpReceive (bs : list Z)
  | OpConsume (n : nat).

Definition recv_exec (o : recv_op) (b : RecvBuffer) : RecvBuffer :=
  match o with
  | OpClean => Clean b
  | OpReset => RecvBuffer_Reset b
  | OpReceive bs => (Received (take (Z.to_nat (FreeSize b)) bs) b).2
  | OpConsume n => (MoveReadPos (Z.of_nat n) b).2
  end.

(** The specification: a plain byte list with the same operations. *)
Definition queue_exec (cap_left : nat) (o : recv_op) (q : list Z) : list Z :=
  match o with
  | OpClean => q
  | OpReset => []
  | OpReceive bs => q ++ take cap_left bs
  | OpConsume n => if decide (n <= length q)%nat then drop n q else q
  end.

Lemma recv_exec_inv o b : recv_inv b -> recv_inv (recv_exec o b).
Proof.
  intros Hi. destruct o as [| |bs|n]; simpl; auto with toy.
  - apply Received_ok; [|done]. rewrite length_take. pose proof (FreeSize_nonneg b Hi). lia.
  - apply MoveReadPos_inv; [lia|done].
Qed.


