(* ===== verification/ConcurrentQueue.v ===== *)
(** * The lock-free queue the server is built on

    [moodycamel::ConcurrentQueue] is third-party code.  The components only rely
    on what its documentation states, collected here as two interfaces:
    - [ConcurrentQueue]: the operations, with the laws that hold for any number
      of producers (nothing is lost or duplicated, a dequeue on a non-empty
      queue succeeds once the enqueue has completed);
    - [FifoQueue]: in addition, elements of one producer leave in the order they
      entered.
    Client theorems are proved against the weakest interface they need; the list
    instance at the end makes every definition executable. *)

From stdpp Require Import base list numbers.
From S2P Require Import Prelude.

Class ConcurrentQueue (Q : Type -> Type) := {
  cq_empty : forall {A}, Q A;
  enqueue : forall {A}, A -> Q A -> Q A;
  try_dequeue : forall {A}, Q A -> option (A * Q A);
  enqueue_bulk : forall {A}, list A -> Q A -> Q A;
  try_dequeue_bulk : forall {A}, nat -> Q A -> list A * Q A;
  size_approx : forall {A}, Q A -> nat;
  contents : forall {A}, Q A -> list A;
  contents_empty : forall A, contents (A := A) cq_empty = [];
  contents_enqueue : forall A (x : A) q, contents (enqueue x q) ≡ₚ x :: contents q;
  try_dequeue_None : forall A (q : Q A), try_dequeue q = None -> contents q = [];
  try_dequeue_Some : forall A (x : A) q q',
    try_dequeue q = Some (x, q') -> contents q ≡ₚ x :: contents q';
  contents_enqueue_bulk : forall A (xs : list A) q,
    contents (enqueue_bulk xs q) ≡ₚ xs ++ contents q;
  try_dequeue_bulk_contents : forall A n (q q' : Q A) xs,
    try_dequeue_bulk n q = (xs, q') -> contents q ≡ₚ xs ++ contents q';
  try_dequeue_bulk_length : forall A n (q q' : Q A) xs,
    try_dequeue_bulk n q = (xs, q') -> (length xs <= n)%nat;
  try_dequeue_bulk_nil : forall A n (q q' : Q A),
    try_dequeue_bulk n q = ([], q') -> (n = 0)%nat \/ contents q = [];
  size_approx_quiescent : forall A (q : Q A), size_approx q = length (contents q)
}.

Class FifoQueue (Q : Type -> Type) `{!ConcurrentQueue Q} := {
  fifo_enqueue : forall A (x : A) q, contents (enqueue x q) = contents q ++ [x];
  fifo_try_dequeue : forall A (x : A) q q',
    try_dequeue q = Some (x, q') -> contents q = x :: contents q';
  fifo_bulk : forall A n (q q' : Q A) xs,
    try_dequeue_bulk n q = (xs, q') ->
    xs = take n (contents q) /\ contents q' = drop n (contents q)
}.

(** ** The executable instance *)

#[local] Obligation Tactic := idtac.

#[global] Program Instance list_queue : ConcurrentQueue list := {
  cq_empty A := [];
  enqueue A x q := q ++ [x];
  try_dequeue A q := match q with [] => None | x :: q' => Some (x, q') end;
  enqueue_bulk A xs q := q ++ xs;
  try_dequeue_bulk A n q := (take n q, drop n q);
  size_approx A q := length q;
  contents A q := q
}.
Next Obligation. done. Qed.
Next Obligation. intros A x q. simpl. by rewrite Permutation_app_comm. Qed.
Next Obligation. intros A [|x q]; simpl; congruence. Qed.
Next Obligation. intros A x [|y q] q'; simpl; intros; simplify_eq; done. Qed.
Next Obligation. intros A xs q. simpl. apply Permutation_app_comm. Qed.
Next Obligation. intros A n q q' xs [= <- <-]. by rewrite take_drop. Qed.
Next Obligation. intros A n q q' xs [= <- <-]. rewrite length_take. lia. Qed.
Next Obligation. intros A [|n] [|x q] q'; simpl; intros; simplify_eq; auto. Qed.
Next Obligation. done. Qed.

#[global] Instance list_fifo : FifoQueue list.
Proof.
  split.
  - done.
  - intros A x [|y q] q' H; simpl in *; by simplify_eq.
  - by intros A n q q' xs [= <- <-].
Qed.

(** Draining a queue with [while (q.try_dequeue(x))]: [n] bounds the number of
    iterations; a fuel of the queue's size empties it. *)

Section drain.
Context {Q : Type -> Type} `{!ConcurrentQueue Q} {A : Type}.

Fixpoint drain (n : nat) (q : Q A) : list A * Q A :=
  match n with
  | O => ([], q)
  | S m =>
      match try_dequeue q with
      | None => ([], q)
      | Some (x, q') => let '(xs, q'') := drain m q' in (x :: xs, q'')
      end
  end.

Definition drain_all (q : Q A) : list A * Q A := drain (S (size_approx q)) q.

Lemma drain_contents n q xs q' :
  drain n q = (xs, q') -> contents q ≡ₚ xs ++ contents q'.
Proof.
  revert q xs q'; induction n as [|n IH]; simpl; intros q xs q' H; [by simplify_eq|].
  destruct (try_dequeue q) as [[x q1]|] eqn:E; [|by simplify_eq].
  destruct (drain n q1) as [ys q2] eqn:E2. simplify_eq/=.
  rewrite (try_dequeue_Some _ _ _ _ E). by rewrite (IH _ _ _ E2).
Qed.

Lemma drain_empties n q xs q' :
  (length (contents q) < n)%nat -> drain n q = (xs, q') ->
  contents q' = [] /\ xs ≡ₚ contents q.
Proof.
  intros Hlen H. assert (contents q' = []) as E.
  { revert q xs q' Hlen H; induction n as [|n IH]; simpl; intros q xs q' Hlen H; [lia|].
    destruct (try_dequeue q) as [[x q1]|] eqn:E.
    - destruct (drain n q1) as [ys q2] eqn:E2. simplify_eq/=.
      eapply IH; [|done]. apply try_dequeue_Some, Permutation_length in E. simpl in E. lia.
    - simplify_eq. by apply try_dequeue_None. }
  split; [done|]. apply drain_contents in H. by rewrite H, E, app_nil_r.
Qed.

Lemma drain_all_spec q xs q' :
  drain_all q = (xs, q') -> contents q' = [] /\ xs ≡ₚ contents q.
Proof. apply drain_empties. rewrite size_approx_quiescent. lia. Qed.

(** A FIFO queue is drained in order. *)
Lemma drain_all_fifo `{!FifoQueue Q} (q : Q A) xs q' :
  drain_all q = (xs, q') -> xs = contents q /\ contents q' = [].
Proof.
  intros H. destruct (drain_all_spec _ _ _ H) as [Hq' _]. split; [|done].
  assert (forall n q xs q', drain n q = (xs, q') -> contents q = xs ++ contents q') as Hd.
  { clear H Hq' q xs q'. induction n as [|n IH]; simpl; intros q xs q' H; [by simplify_eq|].
    destruct (try_dequeue q) as [[x q1]|] eqn:E; [|by simplify_eq].
    destruct (drain n q1) as [ys q2] eqn:E2. simplify_eq/=.
    rewrite (fifo_try_dequeue _ _ _ _ E). by rewrite (IH _ _ _ E2). }
  by rewrite (Hd _ _ _ _ H), Hq', app_nil_r.
Qed.

Lemma try_dequeue_empty (q : Q A) : contents q = [] -> try_dequeue q = None.
Proof.
  intros H. destruct (try_dequeue q) as [[x q1]|] eqn:E; [|done].
  apply try_dequeue_Some in E. rewrite H in E. by apply Permutation_nil_cons in E.
Qed.

End drain.
