(* ===== verification/Messages.v ===== *)
(** * Messages: the objects that travel through the dispatcher

    Models src/System/Dispatcher/IMessage.h, SystemMessages.h and the wire header
    of src/System/Packet/PacketHeader.h.  A C++ pointer is an address ([Z]); a
    nullable pointer is an [option Z].  [std::function<void()>] values are
    elements of an arbitrary type [T] of tasks. *)

From stdpp Require Import base list numbers.
From S2P Require Import Prelude.

Inductive MessageType :=
  | NETWORK_CONNECT
  | NETWORK_DISCONNECT
  | NETWORK_DATA
  | LOGIC_JOB
  | LAMBDA_JOB
  | LOGIC_TIMER_EXPIRED
  | LOGIC_TIMER_ADD
  | LOGIC_TIMER_CANCEL
  | LOGIC_TIMER_TICK
  | PACKET.

#[global] Instance MessageType_eq_dec : EqDecision MessageType.
Proof. solve_decision. Defined.

(** [std::weak_ptr<ITimerListener>]: [None] is the empty weak pointer. *)
Record TimerAddMessage := mkTimerAdd {
  ta_timerId : Z;
  ta_logicTimerId : Z;
  ta_intervalMs : Z;
  ta_isInterval : bool;
  ta_listener : option Z;
  ta_weakListener : option Z;
  ta_pParam : option Z
}.

Record TimerCancelMessage := mkTimerCancel {
  tc_timerId : Z;
  tc_listener : option Z
}.

(** The derived classes of [IMessage].  A [PacketMessage] carries its [length]
    and the bytes written to its payload area. *)
Inductive Body (T : Type) :=
  | BEvent
  | BLambda (task : option T)
  | BPacket (length : Z) (data : list Z)
  | BTimerExpired (timerId : Z)
  | BTimerAdd (m : TimerAddMessage)
  | BTimerCancel (m : TimerCancelMessage)
  | BTimerTick (tickCount : option Z).
Arguments BEvent {T}.
Arguments BLambda {T} task.
Arguments BPacket {T} length data.
Arguments BTimerExpired {T} timerId.
Arguments BTimerAdd {T} m.
Arguments BTimerCancel {T} m.
Arguments BTimerTick {T} tickCount.

(** [IMessage]: [sessionId] has no initialiser, so it is [None] until assigned. *)
Record Message (T : Type) := mkMessage {
  refCount : Z;
  mtype : MessageType;
  sessionId : option Z;
  session : option Z;
  isPooled : bool;
  body : Body T
}.
Arguments mkMessage {T} _ _ _ _ _ _.
Arguments refCount {T} _.
Arguments mtype {T} _.
Arguments sessionId {T} _.
Arguments session {T} _.
Arguments isPooled {T} _.
Arguments body {T} _.

Section Messages.
Context {T : Type}.
Implicit Types m : Message T.

(** Constructors: [refCount{1}], [session = nullptr], [isPooled = true]. *)
Definition EventMessage_new : Message T := mkMessage 1 LOGIC_JOB None None true BEvent.

Definition LambdaMessage_new (task : option T) : Message T :=
  mkMessage 1 LAMBDA_JOB None None false (BLambda task).

Definition PacketMessage_new (len : Z) : Message T :=
  mkMessage 1 PACKET None None true (BPacket len []).

Definition TimerExpiredMessage_new (tid : Z) : Message T :=
  mkMessage 1 LOGIC_TIMER_EXPIRED None None true (BTimerExpired tid).

Definition TimerAddMessage_new (a : TimerAddMessage) : Message T :=
  mkMessage 1 LOGIC_TIMER_ADD None None true (BTimerAdd a).

Definition TimerCancelMessage_new (c : TimerCancelMessage) : Message T :=
  mkMessage 1 LOGIC_TIMER_CANCEL None None true (BTimerCancel c).

Definition TimerTickMessage_new : Message T :=
  mkMessage 1 LOGIC_TIMER_TICK None None true (BTimerTick None).

(** Field assignments of the form [msg->f = v]. *)
Definition set_refCount (r : Z) m : Message T :=
  mkMessage r (mtype m) (sessionId m) (session m) (isPooled m) (body m).

Definition set_type (t : MessageType) m : Message T :=
  mkMessage (refCount m) t (sessionId m) (session m) (isPooled m) (body m).

Definition set_pooled (b : bool) m : Message T :=
  mkMessage (refCount m) (mtype m) (sessionId m) (session m) b (body m).

(** The three assignments the sessions make before [Post]:
    [type], [sessionId] and [session]. *)
Definition tag_message (t : MessageType) (sid ptr : Z) m : Message T :=
  mkMessage (refCount m) t (Some sid) (Some ptr) (isPooled m) (body m).

(** [memcpy(msg->Payload(), src, n)] over the whole payload. *)
Definition set_payload (bs : list Z) m : Message T :=
  mkMessage (refCount m) (mtype m) (sessionId m) (session m) (isPooled m)
    (match body m with BPacket len _ => BPacket len bs | b => b end).

Definition AddRef m : Message T := set_refCount (refCount m + 1) m.

(** Returns [true] when the count reaches 0. *)
Definition DecRef m : bool * Message T :=
  (refCount m =? 1, set_refCount (refCount m - 1) m).

Definition msg_length m : Z := match body m with BPacket len _ => len | _ => 0 end.

Definition msg_payload m : list Z := match body m with BPacket _ d => d | _ => [] end.

End Messages.

(** ** The packet header

    [#pragma pack(1)] struct of two [uint16_t]: total size, then packet id. *)

Record PacketHeader := mkPacketHeader { ph_size : Z; ph_id : Z }.

Definition PacketHeader_SIZE : Z := 4.

Definition encode_header (h : PacketHeader) : list Z :=
  le_bytes 2 (ph_size h) ++ le_bytes 2 (ph_id h).

(** Reading the struct at the start of a byte area. *)
Definition decode_header (bs : list Z) : PacketHeader :=
  mkPacketHeader (le_val (sub_list 0 2 bs)) (le_val (sub_list 2 2 bs)).

Lemma length_encode_header h : length (encode_header h) = 4%nat.
Proof. done. Qed.

Lemma decode_encode_header h rest :
  in_u 16 (ph_size h) -> in_u 16 (ph_id h) ->
  decode_header (encode_header h ++ rest) = h.
Proof.
  intros Hs Hi. unfold decode_header, encode_header, sub_list. destruct h as [s i].
  cbn [ph_size ph_id] in *.
  change (take 2 (drop 0 ((le_bytes 2 s ++ le_bytes 2 i) ++ rest))) with (le_bytes 2 s).
  change (take 2 (drop 2 ((le_bytes 2 s ++ le_bytes 2 i) ++ rest))) with (le_bytes 2 i).
  rewrite !le_val_le_bytes. unfold in_u in *. simpl in *.
  by rewrite !Z.mod_small by (cbn; lia).
Qed.

Lemma decode_header_bound bs :
  Forall is_byte bs ->
  in_u 16 (ph_size (decode_header bs)) /\ in_u 16 (ph_id (decode_header bs)).
Proof.
  assert (forall l : list Z, (length l <= 2)%nat -> Forall is_byte l -> in_u 16 (le_val l)) as Hv.
  { intros l Hl Hf. pose proof (le_val_bound l Hf) as Hb. unfold in_u.
    assert (256 ^ Z.of_nat (length l) <= 256 ^ 2) by (apply Z.pow_le_mono_r; lia).
    change (2 ^ 16) with (256 ^ 2). lia. }
  intros Hf. unfold decode_header, sub_list; simpl.
  split; (apply Hv; [rewrite length_take; lia|]); by apply Forall_take, Forall_drop.
Qed.
