(* ===== verification/MessagePool.v ===== *)
(** * MessagePool: the three-level block allocator of the dispatcher

    Models src/System/Dispatcher/MessagePool.h and .cpp: three shared lock-free
    pools of blocks (1KB, 4KB and 16KB bodies), a thread-local cache in front of
    each, and the construction and release of reference-counted messages in
    those blocks.

    [Mem] is the state: the pools, the caches of every thread, the process heap
    (address to allocated size), the live message objects and the metric
    counters.  Dereferencing an address that holds no live message is undefined
    behaviour in C++ and yields [None] here, so a theorem that an operation
    returns [Some _] includes the absence of use-after-free. *)

From stdpp Require Import base numbers gmap strings functions list.
From S2P Require Import Prelude ConcurrentQueue Messages.

Inductive SizeLevel := Small | Medium | Large.

#[global] Instance SizeLevel_eq_dec : EqDecision SizeLevel.
Proof. solve_decision. Defined.

Definition SMALL_BODY_SIZE : Z := 1024.

Definition MEDIUM_BODY_SIZE : Z := 4096.

Definition LARGE_BODY_SIZE : Z := 16384.

Definition L1_CACHE_SIZE : nat := 1000.

Definition BULK_TRANSFER_COUNT : nat := 500.

Definition body_size (l : SizeLevel) : Z :=
  match l with Small => SMALL_BODY_SIZE | Medium => MEDIUM_BODY_SIZE | Large => LARGE_BODY_SIZE end.

(** The level [Free] derives from [pkt->length]: no upper bound on the last one. *)
Definition level_of_length (len : Z) : SizeLevel :=
  if len <=? SMALL_BODY_SIZE then Small
  else if len <=? MEDIUM_BODY_SIZE then Medium
  else Large.

(** The size-distribution counter [AllocatePacket] increments. *)
Definition size_metric (bodySize : Z) : string :=
  if bodySize <=? 64 then "msgpool_alloc_64b"
  else if bodySize <=? 128 then "msgpool_alloc_128b"
  else if bodySize <=? 256 then "msgpool_alloc_256b"
  else if bodySize <=? 512 then "msgpool_alloc_512b"
  else if bodySize <=? 1024 then "msgpool_alloc_1kb"
  else if bodySize <=? 2048 then "msgpool_alloc_2kb"
  else if bodySize <=? 4096 then "msgpool_alloc_4kb"
  else if bodySize <=? 8192 then "msgpool_alloc_8kb"
  else if bodySize <=? 16384 then "msgpool_alloc_16kb"
  else "msgpool_alloc_over16kb".

(** Where a free block can be: a shared pool, or one thread's cache. *)
Inductive Loc := LPool (l : SizeLevel) | LCache (tid : nat) (l : SizeLevel).

#[global] Instance Loc_eq_dec : EqDecision Loc.
Proof. solve_decision. Defined.

Abbreviation L1Cache := (SizeLevel -> list Z).

Record Mem (Q : Type -> Type) (T : Type) := mkMem {
  pools : SizeLevel -> Q Z;
  t_l1 : nat -> L1Cache;
  poolSize : Z;
  heap : gmap Z Z;
  nextAddr : Z;
  objs : gmap Z (Message T);
  counters : gmap string Z
}.
Arguments mkMem {Q T} _ _ _ _ _ _ _.
Arguments pools {Q T} _ _.
Arguments t_l1 {Q T} _ _ _.
Arguments poolSize {Q T} _.
Arguments heap {Q T} _.
Arguments nextAddr {Q T} _.
Arguments objs {Q T} _.
Arguments counters {Q T} _.

Section MessagePool.
Context {Q : Type -> Type} `{!ConcurrentQueue Q} {T : Type}.

(** [sizeof(PacketMessage)], fixed by the compiler's class layout. *)
Context (sizeofPM : Z).

Implicit Types m : Mem Q T.
Implicit Types l : SizeLevel.
Implicit Types tid : nat.
Implicit Types a : Z.

Definition block_size l : Z := sizeofPM + body_size l.

Definition CalculateAllocSize (bodySize : Z) : Z := sizeofPM + bodySize.

(** ** State updates *)

Definition set_pool l (q : Q Z) m : Mem Q T :=
  mkMem (<[l := q]> (pools m)) (t_l1 m) (poolSize m) (heap m) (nextAddr m) (objs m) (counters m).

Definition set_cache tid l (c : list Z) m : Mem Q T :=
  mkMem (pools m) (<[tid := <[l := c]> (t_l1 m tid)]> (t_l1 m)) (poolSize m) (heap m)
    (nextAddr m) (objs m) (counters m).

Definition add_poolSize (n : Z) m : Mem Q T :=
  mkMem (pools m) (t_l1 m) (i32 (poolSize m + n)) (heap m) (nextAddr m) (objs m) (counters m).

Definition set_objs (o : gmap Z (Message T)) m : Mem Q T :=
  mkMem (pools m) (t_l1 m) (poolSize m) (heap m) (nextAddr m) o (counters m).

Definition put_obj a (o : Message T) m : Mem Q T := set_objs (<[a := o]> (objs m)) m.

Definition metric_inc (name : string) (v : Z) m : Mem Q T :=
  mkMem (pools m) (t_l1 m) (poolSize m) (heap m) (nextAddr m) (objs m)
    (<[name := u64 (default 0 (counters m !! name) + v)]> (counters m)).

(** [::operator new(size)] returns the address of a fresh block. *)
Definition operator_new (size : Z) m : Z * Mem Q T :=
  (nextAddr m,
   mkMem (pools m) (t_l1 m) (poolSize m) (<[nextAddr m := size]> (heap m)) (nextAddr m + 1)
     (objs m) (counters m)).

Definition operator_delete a m : Mem Q T :=
  mkMem (pools m) (t_l1 m) (poolSize m) (delete a (heap m)) (nextAddr m) (objs m) (counters m).

(** The static initialisers: empty pools and caches, a zero counter. *)
Definition Mem_new : Mem Q T :=
  mkMem (fun _ => cq_empty) (fun _ _ => []) 0 ∅ 1 ∅ ∅.

(** ** PopBlock and PushBlock *)

Definition PopBlock tid l m : Z * Mem Q T :=
  let cache := t_l1 m tid l in
  match last cache with
  | Some ptr => (ptr, set_cache tid l (removelast cache) m)
  | None =>
      match try_dequeue_bulk BULK_TRANSFER_COUNT (pools m l) with
      | (b0 :: rest, q') =>
          (b0, set_cache tid l (cache ++ rest)
                 (add_poolSize (- Z.of_nat (length (b0 :: rest))) (set_pool l q' m)))
      | ([], q') => operator_new (block_size l) (set_pool l q' m)
      end
  end.

(** The loop moving [n] blocks from the back of the cache to [bulkBuffer]. *)
Fixpoint pop_backs (n : nat) (cache : list Z) : list Z * list Z :=
  match n with
  | O => ([], cache)
  | S k =>
      match last cache with
      | None => ([], cache)
      | Some x => let '(xs, c) := pop_backs k (removelast cache) in (x :: xs, c)
      end
  end.

Definition PushBlock tid (block : Z) l m : Mem Q T :=
  let cache := t_l1 m tid l in
  if decide (length cache < L1_CACHE_SIZE)%nat then set_cache tid l (cache ++ [block]) m
  else
    let '(bulk, cache') := pop_backs BULK_TRANSFER_COUNT cache in
    set_cache tid l (cache' ++ [block])
      (add_poolSize (Z.of_nat BULK_TRANSFER_COUNT)
        (set_pool l (enqueue_bulk bulk (pools m l)) m)).

(** ** Allocation *)

Definition AllocatePacket tid (bodySize : Z) m : Z * Mem Q T :=
  let m := metric_inc (size_metric bodySize) 1 m in
  if LARGE_BODY_SIZE <? bodySize then
    let m := metric_inc "msgpool_alloc_heap" 1 m in
    let m := metric_inc "msgpool_heap_bytes" bodySize m in
    let '(block, m) := operator_new (CalculateAllocSize bodySize) m in
    (block, put_obj block (set_pooled false (PacketMessage_new bodySize)) m)
  else
    let '(block, m) := PopBlock tid (level_of_length bodySize) m in
    (block, put_obj block (PacketMessage_new bodySize) m).

(** [AllocateEvent], [AllocateTimerExpired], [AllocateTimerAdd],
    [AllocateTimerCancel] and [AllocateTimerTick] all take a small block and
    construct the message in it; the caller's assignments to the fields of the
    new message are part of [o]. *)
Definition AllocateSmall tid (o : Message T) m : Z * Mem Q T :=
  let '(block, m) := PopBlock tid Small m in (block, put_obj block o m).

Definition AllocateEvent tid m : Z * Mem Q T := AllocateSmall tid EventMessage_new m.

Definition AllocateTimerExpired tid (i : Z) m : Z * Mem Q T :=
  AllocateSmall tid (TimerExpiredMessage_new i) m.

Definition AllocateTimerAdd tid (b : TimerAddMessage) m : Z * Mem Q T :=
  AllocateSmall tid (TimerAddMessage_new b) m.

Definition AllocateTimerCancel tid (b : TimerCancelMessage) m : Z * Mem Q T :=
  AllocateSmall tid (TimerCancelMessage_new b) m.

Definition AllocateTimerTick tid m : Z * Mem Q T := AllocateSmall tid TimerTickMessage_new m.

(** [new LambdaMessage()] in [DispatcherImpl::Push]: an unpooled object.  Its
    size is that of a [LambdaMessage], of no interest here. *)
Definition new_lambda (sizeofLambda : Z) (task : option T) m : Z * Mem Q T :=
  let '(block, m) := operator_new sizeofLambda m in
  (block, put_obj block (LambdaMessage_new task) m).

(** ** Release *)

Definition free_level (o : Message T) : SizeLevel :=
  if decide (mtype o = PACKET) then level_of_length (msg_length o) else Small.

Definition Free tid (p : option Z) m : option (Mem Q T) :=
  match p with
  | None => Some m
  | Some a =>
      o ← objs m !! a;
      let '(last_ref, o') := DecRef o in
      if last_ref then
        if negb (isPooled o) then
          Some (operator_delete a (set_objs (delete a (objs m)) m))
        else Some (PushBlock tid a (free_level o) (set_objs (delete a (objs m)) m))
      else Some (put_obj a o' m)
  end.

Definition FreeRaw tid (p : option Z) m : Mem Q T :=
  match p with Some block => PushBlock tid block Medium m | None => m end.

(** ** Management *)

(** [prepareLevel]: [n] iterations left, [bulk] the blocks gathered so far. *)
Fixpoint prepare_loop l (n : nat) (bulk : list Z) m : Mem Q T :=
  match n with
  | O =>
      match bulk with
      | [] => m
      | _ => add_poolSize (Z.of_nat (length bulk))
               (set_pool l (enqueue_bulk bulk (pools m l)) m)
      end
  | S k =>
      let '(b, m) := operator_new (block_size l) m in
      let bulk := bulk ++ [b] in
      if decide (length bulk = BULK_TRANSFER_COUNT) then
        prepare_loop l k []
          (add_poolSize (Z.of_nat (length bulk))
            (set_pool l (enqueue_bulk bulk (pools m l)) m))
      else prepare_loop l k bulk m
  end.

Definition Prepare (smallCount mediumCount largeCount : nat) m : Mem Q T :=
  prepare_loop Large largeCount []
    (prepare_loop Medium mediumCount [] (prepare_loop Small smallCount [] m)).

Definition clearPool l m : Mem Q T :=
  let '(ptrs, q') := drain_all (pools m l) in
  foldl (fun m p => operator_delete p m) (set_pool l q' m) ptrs.

Definition Clear m : Mem Q T := clearPool Large (clearPool Medium (clearPool Small m)).

Definition GetPoolSize m : Z := poolSize m.

(** ** PacketUtils and PacketBuilder

    src/System/Network/PacketUtils.cpp and src/System/Packet/PacketBuilder.h. *)

Definition CreatePacket tid (size : Z) m : Z * Mem Q T := AllocatePacket tid size m.

Definition CreatePacket_copy tid (src : option Z) m : option (option Z * Mem Q T) :=
  match src with
  | None => Some (None, m)
  | Some s =>
      o ← objs m !! s;
      let '(pkt, m1) := AllocatePacket tid (msg_length o) m in
      p ← objs m1 !! pkt;
      Some (Some pkt, put_obj pkt (set_payload (msg_payload o) p) m1)
  end.

Definition ReleasePacket tid (p : option Z) m : option (Mem Q T) :=
  match p with Some _ => Free tid p m | None => Some m end.

(** ** Invariant

    Every block cached in a pool or in a thread's cache is in exactly one place,
    is allocated with at least the size its level promises, and holds no live
    message; every live message sits in a block large enough for its payload. *)

Definition bucket m (k : Loc) : list Z :=
  match k with LPool l => contents (pools m l) | LCache t l => t_l1 m t l end.

Definition loc_level (k : Loc) : SizeLevel := match k with LPool l | LCache _ l => l end.

Definition obj_fits (o : Message T) (s : Z) : Prop :=
  1 <= refCount o /\ sizeofPM + msg_length o <= s /\
  (isPooled o = true -> block_size (free_level o) <= s).

Record mem_inv m : Prop := mk_mem_inv {
  mi_fresh : forall a s, heap m !! a = Some s -> a < nextAddr m;
  mi_nodup : forall k, NoDup (bucket m k);
  mi_disj : forall k1 k2 a, a ∈ bucket m k1 -> a ∈ bucket m k2 -> k1 = k2;
  mi_size : forall k a, a ∈ bucket m k ->
    exists s, heap m !! a = Some s /\ block_size (loc_level k) <= s;
  mi_free : forall k a, a ∈ bucket m k -> objs m !! a = None;
  mi_objs : forall a o, objs m !! a = Some o -> exists s, heap m !! a = Some s /\ obj_fits o s;
  mi_l1 : forall t l, (length (t_l1 m t l) <= L1_CACHE_SIZE)%nat
}.

Definition no_bucket m a : Prop := forall k, a ∉ bucket m k.

Lemma Mem_new_inv : mem_inv Mem_new.
Proof.
  assert (forall k, bucket Mem_new k = []) as Hb.
  { intros [l|t l]; [apply contents_empty|done]. }
  split.
  - intros a s Hs. simpl in Hs. by rewrite lookup_empty in Hs.
  - intros k. rewrite Hb. apply NoDup_nil_2.
  - intros k1 k2 a. rewrite Hb. by intros ?%elem_of_nil.
  - intros k a. rewrite Hb. by intros ?%elem_of_nil.
  - intros k a. rewrite Hb. by intros ?%elem_of_nil.
  - intros a o Ho. simpl in Ho. by rewrite lookup_empty in Ho.
  - intros t l. simpl. lia.
Qed.

(** What the pair (shared pool, one thread's cache) of a level holds. *)
Definition pair_list m tid l : list Z := bucket m (LPool l) ++ bucket m (LCache tid l).

Lemma pair_nodup m tid l : mem_inv m -> NoDup (pair_list m tid l).
Proof.
  intros Hi. apply NoDup_app. split_and!; try apply (mi_nodup _ Hi).
  intros a H1 H2. pose proof (mi_disj _ Hi _ _ _ H1 H2). done.
Qed.

Lemma set_pool_bucket l q m k :
  bucket (set_pool l q m) k = if decide (k = LPool l) then contents q else bucket m k.
Proof.
  destruct k as [l'|t l']; case_decide; simplify_eq; try done; cbn [bucket pools set_pool].
  - by rewrite fn_lookup_insert.
  - rewrite fn_lookup_insert_ne; [done|congruence].
Qed.

Lemma set_cache_at tid l c m : t_l1 (set_cache tid l c m) tid l = c.
Proof. cbn [t_l1 set_cache]. by rewrite !fn_lookup_insert. Qed.

Lemma set_cache_ne tid l c m t l' :
  (t, l') <> (tid, l) -> t_l1 (set_cache tid l c m) t l' = t_l1 m t l'.
Proof.
  intros Hne. cbn [t_l1 set_cache]. destruct (decide (t = tid)) as [->|].
  - rewrite fn_lookup_insert, fn_lookup_insert_ne; [done|congruence].
  - by rewrite fn_lookup_insert_ne.
Qed.

Lemma set_cache_bucket tid l c m k :
  bucket (set_cache tid l c m) k = if decide (k = LCache tid l) then c else bucket m k.
Proof.
  destruct k as [l'|t l']; case_decide; simplify_eq; try done; [apply set_cache_at|].
  apply set_cache_ne. congruence.
Qed.

(** The one transfer lemma: a state whose pair at [(tid, l)] holds blocks of the
    old pair or new unowned ones is again well-formed. *)
Lemma inv_change m m' tid l (new : list Z) :
  mem_inv m ->
  (forall k, k <> LPool l -> k <> LCache tid l -> bucket m' k = bucket m k) ->
  (forall a, a ∈ pair_list m' tid l -> a ∈ pair_list m tid l \/ a ∈ new) ->
  NoDup (pair_list m' tid l) ->
  (forall a, a ∈ new -> no_bucket m a /\ objs m' !! a = None /\
     exists s, heap m' !! a = Some s /\ block_size l <= s) ->
  (forall a s, heap m !! a = Some s -> heap m' !! a = Some s) ->
  (forall a, objs m !! a = None -> objs m' !! a = None) ->
  (forall a s, heap m' !! a = Some s -> a < nextAddr m') ->
  (forall a o, objs m' !! a = Some o -> exists s, heap m' !! a = Some s /\ obj_fits o s) ->
  (length (t_l1 m' tid l) <= L1_CACHE_SIZE)%nat ->
  mem_inv m'.
Proof.
  intros Hi Hout Hin Hnd Hnew Hheap Hobj Hfresh Hobjs Hl1.
  apply NoDup_app in Hnd as (Hnd1 & Hsep & Hnd2).
  assert (forall k a, a ∈ bucket m' k -> k = LPool l \/ k = LCache tid l ->
    (exists k0, (k0 = LPool l \/ k0 = LCache tid l) /\ a ∈ bucket m k0) \/ a ∈ new) as Hsrc.
  { intros k a Ha Hk. destruct (Hin a) as [Hp|]; [| |by right].
    - apply elem_of_app. destruct Hk as [->| ->]; auto.
    - left. apply elem_of_app in Hp as [Hp|Hp]; eauto. }
  assert (forall k, (k = LPool l \/ k = LCache tid l) \/ bucket m' k = bucket m k) as Hk.
  { intros k. destruct (decide (k = LPool l)); [by auto|].
    destruct (decide (k = LCache tid l)); [by auto|]. right. by apply Hout. }
  assert (forall k1 k2 a, a ∈ bucket m' k1 -> a ∈ bucket m' k2 ->
    (k1 = LPool l \/ k1 = LCache tid l) -> k1 = k2) as Hone.
  { intros k1 k2 a H1 H2 H3. destruct (Hk k2) as [H4|H4].
    - destruct H3 as [->| ->], H4 as [->| ->]; try done;
        exfalso; [by apply (Hsep a)|by apply (Hsep a)].
    - rewrite H4 in H2. destruct (Hsrc k1 a H1 H3) as [(k0 & Hk0 & Ha)|Ha].
      + pose proof (mi_disj _ Hi _ _ _ Ha H2) as ->.
        destruct H3 as [->| ->], Hk0 as [->| ->]; try done.
        all: rewrite <- H4 in H2; exfalso; by apply (Hsep a).
      + by destruct (proj1 (Hnew a Ha) k2). }
  split; try done.
  - intros k. destruct (Hk k) as [[->| ->]| ->]; [done|done|apply (mi_nodup _ Hi)].
  - intros k1 k2 a H1 H2. destruct (Hk k1) as [E1|E1]; [by eapply Hone|].
    destruct (Hk k2) as [E2|E2]; [symmetry; by eapply Hone|].
    rewrite E1 in H1. rewrite E2 in H2. by eapply (mi_disj _ Hi).
  - intros k a Ha. destruct (Hk k) as [E|E].
    + destruct (Hsrc k a Ha E) as [(k0 & Hk0 & Ha0)|Hn].
      * destruct (mi_size _ Hi _ _ Ha0) as (s & Hs & ?). exists s. split; [by apply Hheap|].
        destruct E as [->| ->], Hk0 as [->| ->]; done.
      * destruct (Hnew a Hn) as (_ & _ & s & ?). exists s. by destruct E as [->| ->].
    + rewrite E in Ha. destruct (mi_size _ Hi _ _ Ha) as (s & Hs & ?). eauto.
  - intros k a Ha. destruct (Hk k) as [E|E].
    + destruct (Hsrc k a Ha E) as [(k0 & Hk0 & Ha0)|Hn]; [|by apply Hnew].
      by eapply Hobj, (mi_free _ Hi).
    + rewrite E in Ha. by eapply Hobj, (mi_free _ Hi).
  - intros t l'. destruct (decide ((t, l') = (tid, l))) as [[= -> ->]|Hne]; [done|].
    specialize (Hout (LCache t l') ltac:(done) ltac:(congruence)). simpl in Hout.
    rewrite Hout. apply (mi_l1 _ Hi).
Qed.

Lemma pop_backs_perm n c xs c' : pop_backs n c = (xs, c') -> c ≡ₚ xs ++ c'.
Proof.
  revert c xs c'; induction n as [|n IH]; simpl; intros c xs c' H; [by simplify_eq|].
  destruct (last c) as [x|] eqn:E; [|by simplify_eq].
  apply last_Some in E as [c0 ->]. rewrite removelast_last in H.
  destruct (pop_backs n c0) as [ys c1] eqn:E2. simplify_eq/=.
  rewrite (IH _ _ _ E2) at 1. rewrite Permutation_app_comm. done.
Qed.

Lemma pop_backs_length n c xs c' :
  pop_backs n c = (xs, c') -> (n <= length c)%nat -> length xs = n.
Proof.
  revert c xs c'; induction n as [|n IH]; simpl; intros c xs c' H Hn; [by simplify_eq|].
  destruct (last c) as [x|] eqn:E; [|apply last_None in E as ->; simpl in Hn; lia].
  apply last_Some in E as [c0 ->]. rewrite removelast_last in H.
  destruct (pop_backs n c0) as [ys c1] eqn:E2. simplify_eq/=.
  f_equal. eapply IH; [done|]. rewrite length_app in Hn. simpl in Hn. lia.
Qed.

(** A block just popped: unowned, unused, and large enough for its level. *)
Definition popped l a m : Prop :=
  no_bucket m a /\ objs m !! a = None /\
  exists s, heap m !! a = Some s /\ block_size l <= s.

Lemma operator_new_unowned size m a m' :
  mem_inv m -> operator_new size m = (a, m') ->
  mem_inv m' /\ no_bucket m' a /\ objs m' !! a = None /\ heap m' !! a = Some size /\
  objs m' = objs m.
Proof.
  intros Hi [= <- <-].
  assert (heap m !! nextAddr m = None) as Hn.
  { destruct (heap m !! nextAddr m) eqn:E; [|done]. apply (mi_fresh _ Hi) in E. lia. }
  assert (no_bucket m (nextAddr m)) as Hno.
  { intros k Hk. apply (mi_size _ Hi) in Hk as (s & Hs & _). congruence. }
  assert (objs m !! nextAddr m = None) as Ho.
  { destruct (objs m !! nextAddr m) eqn:E; [|done].
    apply (mi_objs _ Hi) in E as (s & Hs & _). congruence. }
  assert (forall a s, heap m !! a = Some s -> <[nextAddr m:=size]> (heap m) !! a = Some s) as Hmono.
  { intros a s Hs. rewrite lookup_insert_ne; [done|]. intros <-. congruence. }
  split_and!; simpl; [|exact Hno|done|by rewrite lookup_insert_eq|done].
  split; simpl; try apply Hi.
  - intros a s. rewrite lookup_insert. case_decide; [lia|].
    intros Hs%(mi_fresh _ Hi). lia.
  - intros k a Ha. destruct (mi_size _ Hi k a Ha) as (s & Hs & ?). eauto.
  - intros a o Ha. destruct (mi_objs _ Hi a o Ha) as (s & Hs & ?). eauto.
Qed.

(** Shrinking a pair: the blocks that left it are unowned. *)
Lemma shrink_spec m m' tid l (xs : list Z) :
  mem_inv m -> heap m' = heap m -> objs m' = objs m -> nextAddr m' = nextAddr m ->
  (forall k, k <> LPool l -> k <> LCache tid l -> bucket m' k = bucket m k) ->
  pair_list m tid l ≡ₚ xs ++ pair_list m' tid l ->
  (length (t_l1 m' tid l) <= L1_CACHE_SIZE)%nat ->
  mem_inv m' /\ forall a, a ∈ xs -> popped l a m'.
Proof.
  intros Hi Hh Ho Hn Hout Hp Hl.
  pose proof (pair_nodup m tid l Hi) as Hnd. rewrite Hp in Hnd.
  apply NoDup_app in Hnd as (_ & Hsep & Hnd).
  assert (mem_inv m') as Hi'.
  { eapply (inv_change m m' tid l []); rewrite ?Hh, ?Ho, ?Hn; try done; try apply Hi.
    - intros b Hb. left. rewrite Hp. apply elem_of_app. by right.
    - by intros ? ?%elem_of_nil. }
  split; [done|]. intros a Hax.
  assert (a ∈ pair_list m tid l) as Hin by (rewrite Hp; apply elem_of_app; by left).
  assert (exists k, (k = LPool l \/ k = LCache tid l) /\ a ∈ bucket m k) as (k & Hk & Hak).
  { apply elem_of_app in Hin as [?|?]; eauto. }
  split_and!.
  - intros k' Hk'. apply (Hsep a Hax), elem_of_app.
    destruct (decide (k' = LPool l)) as [->|]; [by left|].
    destruct (decide (k' = LCache tid l)) as [->|]; [by right|].
    rewrite Hout in Hk' by done. pose proof (mi_disj _ Hi _ _ _ Hak Hk') as ->.
    by destruct Hk.
  - rewrite Ho. by eapply (mi_free _ Hi).
  - rewrite Hh. destruct (mi_size _ Hi _ _ Hak) as (s & ? & ?). exists s.
    by destruct Hk as [->| ->].
Qed.

Lemma set_pool_drained l q m :
  contents q = contents (pools m l) -> mem_inv m -> mem_inv (set_pool l q m).
Proof.
  intros Hq Hi. assert (forall k, bucket (set_pool l q m) k = bucket m k) as Hb.
  { intros k. rewrite set_pool_bucket. case_decide; by subst. }
  split; try apply Hi; intros k; rewrite Hb.
  - apply (mi_nodup _ Hi).
  - intros k2. rewrite Hb. apply (mi_disj _ Hi).
  - apply (mi_size _ Hi).
  - apply (mi_free _ Hi).
Qed.

Lemma PopBlock_spec tid l m a m' :
  mem_inv m -> PopBlock tid l m = (a, m') ->
  mem_inv m' /\ popped l a m' /\ objs m' = objs m.
Proof.
  unfold PopBlock. intros Hi H. destruct (last (t_l1 m tid l)) as [ptr|] eqn:E.
  - simplify_eq. apply last_Some in E as [c E]. pose proof (mi_l1 _ Hi tid l) as Hl.
    rewrite E, length_app in Hl. simpl in Hl.
    assert (mem_inv (set_cache tid l c m) /\
      forall b, b ∈ [a] -> popped l b (set_cache tid l c m)) as [? Hpop].
    { apply (shrink_spec m _ tid l [a]); try done.
      - intros k ? ?. rewrite set_cache_bucket. by case_decide.
      - unfold pair_list. rewrite !set_cache_bucket, decide_False, decide_True by done.
        simpl. rewrite E. by rewrite (app_assoc _ c), Permutation_app_comm.
      - rewrite set_cache_at. lia. }
    rewrite E, removelast_last. split_and!; [done|apply Hpop; by left|done].
  - apply last_None in E.
    destruct (try_dequeue_bulk BULK_TRANSFER_COUNT (pools m l)) as [[|b0 rest] q'] eqn:Eq.
    + assert (contents (pools m l) = []) as Hc.
      { destruct (try_dequeue_bulk_nil _ _ _ _ Eq) as [Hz|]; [by unfold BULK_TRANSFER_COUNT in Hz|done]. }
      assert (contents q' = []) as Hq'.
      { apply try_dequeue_bulk_contents in Eq. simpl in Eq. rewrite Hc in Eq.
        by apply Permutation_nil. }
      apply (operator_new_unowned (block_size l) (set_pool l q' m)) in H as (? & ? & ? & ? & Ho);
        [|apply set_pool_drained; [congruence|done]].
      split_and!; [done| |done]. split_and!; try done. eexists. by split; [done|].
    + simplify_eq. rewrite E. simpl app. set (m1 := add_poolSize _ _).
      pose proof (try_dequeue_bulk_length _ _ _ _ _ Eq) as Hlen. simpl in Hlen.
      assert (mem_inv (set_cache tid l rest m1) /\
        forall b, b ∈ [a] -> popped l b (set_cache tid l rest m1)) as [? Hpop];
        [|split_and!; [done|apply Hpop; by left|done]].
      apply (shrink_spec m _ tid l [a]); try done.
      * intros k ? ?. rewrite set_cache_bucket, decide_False by done.
        change (bucket m1 k) with (bucket (set_pool l q' m) k).
        by rewrite set_pool_bucket, decide_False.
      * unfold pair_list. rewrite !set_cache_bucket, decide_False, decide_True by done.
        change (bucket m1 (LPool l)) with (bucket (set_pool l q' m) (LPool l)).
        rewrite set_pool_bucket, decide_True by done. simpl. rewrite E, app_nil_r.
        rewrite (try_dequeue_bulk_contents _ _ _ _ _ Eq). simpl. by rewrite Permutation_app_comm.
      * rewrite set_cache_at. unfold BULK_TRANSFER_COUNT, L1_CACHE_SIZE in *. lia.
Qed.

Lemma metric_inc_inv name v m : mem_inv m -> mem_inv (metric_inc name v m).
Proof. intros []. by split. Qed.

Lemma put_obj_inv a o s m :
  mem_inv m -> no_bucket m a -> heap m !! a = Some s -> obj_fits o s ->
  mem_inv (put_obj a o m).
Proof.
  intros Hi Hno Hh Ho. split; try apply Hi; simpl.
  - intros k b Hb. rewrite lookup_insert_ne; [by apply (mi_free _ Hi k)|].
    intros ->. by apply (Hno k).
  - intros b o'. rewrite lookup_insert. case_decide; [intros; simplify_eq; eauto|].
    apply (mi_objs _ Hi).
Qed.

Lemma live_no_bucket m a o : mem_inv m -> objs m !! a = Some o -> no_bucket m a.
Proof. intros Hi Ho k Hk. apply (mi_free _ Hi) in Hk. congruence. Qed.

Lemma put_live_inv a o o' m :
  mem_inv m -> objs m !! a = Some o ->
  (forall s, obj_fits o s -> obj_fits o' s) -> mem_inv (put_obj a o' m).
Proof.
  intros Hi Ho Hf. destruct (mi_objs _ Hi _ _ Ho) as (s & Hs & ?).
  eapply put_obj_inv; eauto using live_no_bucket.
Qed.

Lemma drop_obj_inv a m : mem_inv m -> mem_inv (set_objs (delete a (objs m)) m).
Proof.
  intros Hi. split; try apply Hi; simpl.
  - intros k b Hb. rewrite lookup_delete. case_decide; [done|]. by apply (mi_free _ Hi k).
  - intros b o. rewrite lookup_delete. case_decide; [done|]. apply (mi_objs _ Hi).
Qed.

Lemma block_size_level len : len <= LARGE_BODY_SIZE ->
  sizeofPM + len <= block_size (level_of_length len).
Proof.
  unfold block_size, level_of_length, LARGE_BODY_SIZE, MEDIUM_BODY_SIZE, SMALL_BODY_SIZE.
  intros. split_tests; bool_to_prop; simpl; unfold SMALL_BODY_SIZE, MEDIUM_BODY_SIZE,
    LARGE_BODY_SIZE; lia.
Qed.

Lemma block_size_small l : block_size Small <= block_size l.
Proof.
  destruct l; unfold block_size; simpl; unfold SMALL_BODY_SIZE, MEDIUM_BODY_SIZE,
    LARGE_BODY_SIZE; lia.
Qed.

(** Growing a pair by unowned blocks. *)
Lemma grow_spec m m' tid l (xs : list Z) :
  mem_inv m -> NoDup xs -> (forall a, a ∈ xs -> popped l a m) ->
  heap m' = heap m -> objs m' = objs m -> nextAddr m' = nextAddr m ->
  (forall k, k <> LPool l -> k <> LCache tid l -> bucket m' k = bucket m k) ->
  pair_list m' tid l ≡ₚ xs ++ pair_list m tid l ->
  (length (t_l1 m' tid l) <= L1_CACHE_SIZE)%nat ->
  mem_inv m'.
Proof.
  intros Hi Hnd Hxs Eh Eo En Hout Hp Hl.
  eapply (inv_change m m' tid l xs); rewrite ?Eh, ?Eo, ?En; try done; try apply Hi.
  - intros b. rewrite Hp, elem_of_app. tauto.
  - rewrite Hp. apply NoDup_app. split_and!; [done| |by apply pair_nodup].
    intros a Ha. destruct (Hxs a Ha) as (Hno & _ & _).
    intros [?|?]%elem_of_app; [by apply (Hno (LPool l))|by apply (Hno (LCache tid l))].
Qed.

Lemma PushBlock_spec tid a l m :
  mem_inv m -> popped l a m ->
  mem_inv (PushBlock tid a l m) /\ objs (PushBlock tid a l m) = objs m /\
  last (t_l1 (PushBlock tid a l m) tid l) = Some a.
Proof.
  intros Hi Ha. unfold PushBlock.
  pose proof (mi_l1 _ Hi tid l) as Hl. case_decide as Hc.
  - split_and!; [|done|by rewrite set_cache_at, last_snoc].
    eapply (grow_spec m _ tid l [a]); try done.
    { apply NoDup_singleton. }
    { by intros b ->%list_elem_of_singleton. }
    + intros k ? ?. rewrite set_cache_bucket. by case_decide.
    + unfold pair_list. rewrite !set_cache_bucket, decide_False, decide_True by done.
      by rewrite app_assoc, Permutation_app_comm.
    + rewrite set_cache_at, length_app. simpl. lia.
  - destruct (pop_backs BULK_TRANSFER_COUNT (t_l1 m tid l)) as [xs c] eqn:Eb.
    set (m1 := add_poolSize _ _).
    split_and!; [|done|by rewrite set_cache_at, last_snoc].
    assert (forall k, bucket m1 k = bucket (set_pool l (enqueue_bulk xs (pools m l)) m) k)
      as Hm1 by (by intros []).
    eapply (grow_spec m _ tid l [a]); try done.
    { apply NoDup_singleton. }
    { by intros b ->%list_elem_of_singleton. }
    + intros k ? ?. by rewrite set_cache_bucket, decide_False, Hm1, set_pool_bucket, decide_False.
    + unfold pair_list. rewrite !set_cache_bucket, decide_False, decide_True by done.
      rewrite Hm1, set_pool_bucket, decide_True, contents_enqueue_bulk by done. simpl.
      rewrite (pop_backs_perm _ _ _ _ Eb), (app_assoc _ c), Permutation_app_comm. simpl.
      f_equiv. rewrite (Permutation_app_comm xs), <- app_assoc. done.
    + pose proof (pop_backs_length _ _ _ _ Eb) as Hlx.
      pose proof (pop_backs_perm _ _ _ _ Eb) as Hpx. apply Permutation_length in Hpx.
      rewrite length_app in Hpx. rewrite set_cache_at, length_app. simpl.
      unfold L1_CACHE_SIZE, BULK_TRANSFER_COUNT in *. lia.
Qed.

Lemma operator_delete_inv a m :
  mem_inv m -> no_bucket m a -> objs m !! a = None -> mem_inv (operator_delete a m).
Proof.
  intros Hi Hno Ho.
  assert (forall b s, b <> a -> heap m !! b = Some s -> delete a (heap m) !! b = Some s) as Hd.
  { intros b s ? ?. by rewrite lookup_delete_ne. }
  split; try apply Hi; simpl.
  - intros b s. rewrite lookup_delete. case_decide; [done|]. apply (mi_fresh _ Hi).
  - intros k b Hb. destruct (mi_size _ Hi k b Hb) as (s & ? & ?). exists s. split; [|done].
    apply Hd; [|done]. intros ->. by apply (Hno k).
  - intros b o Hb. destruct (mi_objs _ Hi b o Hb) as (s & ? & ?). exists s. split; [|done].
    apply Hd; [|done]. congruence.
Qed.

Lemma AllocateSmall_spec tid o m a m' :
  mem_inv m -> refCount o = 1 -> mtype o <> PACKET -> msg_length o <= 0 ->
  AllocateSmall tid o m = (a, m') ->
  mem_inv m' /\ objs m !! a = None /\ objs m' = <[a := o]> (objs m).
Proof.
  intros Hi Hr Ht Hb H. unfold AllocateSmall in H.
  destruct (PopBlock tid Small m) as [b m1] eqn:E. simplify_eq.
  destruct (PopBlock_spec _ _ _ _ _ Hi E) as (Hi1 & (Hno & Hn & s & Hs & Hsz) & Ho).
  split_and!; [|by rewrite <- Ho|simpl; by rewrite Ho].
  eapply put_obj_inv; try done. split_and!; [lia| |].
  - unfold block_size, body_size, SMALL_BODY_SIZE in Hsz. lia.
  - intros _. unfold free_level. by rewrite decide_False.
Qed.

Lemma AllocatePacket_spec tid bodySize m a m' :
  mem_inv m -> AllocatePacket tid bodySize m = (a, m') ->
  exists o, objs m' = <[a := o]> (objs m) /\ mem_inv m' /\ objs m !! a = None /\
    refCount o = 1 /\ mtype o = PACKET /\ body o = BPacket bodySize [] /\
    session o = None /\
    isPooled o = (bodySize <=? LARGE_BODY_SIZE) /\
    exists s, heap m' !! a = Some s /\ sizeofPM + bodySize <= s /\
      (bodySize <= LARGE_BODY_SIZE -> block_size (level_of_length bodySize) <= s).
Proof.
  intros Hi H. unfold AllocatePacket in H. set (m0 := metric_inc _ _ m) in H.
  assert (mem_inv m0) as Hi0 by by apply metric_inc_inv.
  destruct (LARGE_BODY_SIZE <? bodySize) eqn:Eb; bool_to_prop.
  - set (m1 := metric_inc "msgpool_heap_bytes" _ _) in H.
    destruct (operator_new (CalculateAllocSize bodySize) m1) as [b m2] eqn:E. simplify_eq.
    assert (mem_inv m1) as Hi1 by by apply metric_inc_inv, metric_inc_inv.
    destruct (operator_new_unowned _ _ _ _ Hi1 E) as (Hi2 & Hno & Hn & Hs & Ho).
    eexists. split; [simpl; by rewrite Ho|].
    split_and!; try done.
    + by eapply put_obj_inv.
    + by rewrite Ho in Hn.
    + symmetry. apply Z.leb_gt. lia.
    + eexists. split_and!; [done|unfold CalculateAllocSize; lia|lia].
  - destruct (PopBlock tid (level_of_length bodySize) m0) as [b m1] eqn:E. simplify_eq.
    destruct (PopBlock_spec _ _ _ _ _ Hi0 E) as (Hi1 & (Hno & Hn & s & Hs & Hsz) & Ho).
    pose proof (block_size_level bodySize ltac:(lia)).
    eexists. split; [simpl; by rewrite Ho|]. split_and!; try done.
    + eapply put_obj_inv; try done. split_and!; [done|unfold msg_length; simpl; lia|]. intros _.
      unfold free_level. by rewrite decide_True.
    + by rewrite Ho in Hn.
    + symmetry. by apply Z.leb_le.
    + exists s. split_and!; [done|lia|done].
Qed.

Lemma Free_spec tid a o m :
  mem_inv m -> objs m !! a = Some o ->
  exists m', Free tid (Some a) m = Some m' /\ mem_inv m' /\
    (if refCount o =? 1 then
       objs m' = delete a (objs m) /\
       (isPooled o = true -> last (t_l1 m' tid (free_level o)) = Some a) /\
       (isPooled o = false -> heap m' !! a = None)
     else objs m' = <[a := set_refCount (refCount o - 1) o]> (objs m)).
Proof.
  intros Hi Ho. destruct (mi_objs _ Hi _ _ Ho) as (s & Hs & Hr & Hl & Hsz).
  pose proof (live_no_bucket _ _ _ Hi Ho) as Hno.
  unfold Free. rewrite Ho. simpl. destruct (refCount o =? 1) eqn:Er; bool_to_prop.
  - set (m0 := set_objs (delete a (objs m)) m).
    assert (mem_inv m0) as Hi0 by by apply drop_obj_inv.
    assert (objs m0 !! a = None) as Hn by (simpl; by rewrite lookup_delete_eq).
    destruct (isPooled o) eqn:Ep; simpl.
    + destruct (PushBlock_spec tid a (free_level o) m0 Hi0) as (? & Hob & ?).
      { split_and!; [exact Hno|done|]. exists s. auto. }
      eexists. split; [done|]. split; [done|]. by split_and!.
    + eexists. split; [done|]. split; [by apply operator_delete_inv|]. split_and!; try done.
      intros _. simpl. by rewrite lookup_delete_eq.
  - eexists. split; [done|]. split; [|done].
    eapply put_live_inv; try done. intros s' (? & ? & ?). split_and!; simpl; try done. lia.
Qed.

(** *** Prepare and Clear *)

Lemma enqueue_bulk_inv l xs n m :
  mem_inv m -> NoDup xs -> (forall a, a ∈ xs -> popped l a m) ->
  mem_inv (add_poolSize n (set_pool l (enqueue_bulk xs (pools m l)) m)).
Proof.
  intros Hi Hnd Hxs. set (m1 := add_poolSize _ _).
  assert (forall k, bucket m1 k = bucket (set_pool l (enqueue_bulk xs (pools m l)) m) k)
    as Hm1 by (by intros []).
  eapply (grow_spec m _ 0%nat l xs); try done.
  - intros k ? ?. by rewrite Hm1, set_pool_bucket, decide_False.
  - unfold pair_list. rewrite !Hm1, !set_pool_bucket, decide_True, decide_False by done.
    by rewrite contents_enqueue_bulk, <- app_assoc.
  - apply (mi_l1 _ Hi).
Qed.

Lemma popped_new l b size m a m' :
  mem_inv m -> operator_new size m = (a, m') -> popped l b m -> popped l b m' /\ b <> a.
Proof.
  intros Hi [= <- <-] (Hno & Ho & s & Hs & Hsz).
  assert (b <> nextAddr m) as Hne.
  { intros ->. apply (mi_fresh _ Hi) in Hs. lia. }
  split; [|done]. split_and!; try done. exists s. simpl. by rewrite lookup_insert_ne.
Qed.

Lemma prepare_loop_inv l n bulk m :
  mem_inv m -> NoDup bulk -> (forall a, a ∈ bulk -> popped l a m) ->
  mem_inv (prepare_loop l n bulk m) /\ objs (prepare_loop l n bulk m) = objs m.
Proof.
  revert bulk m; induction n as [|n IH]; intros bulk m Hi Hnd Hb.
  - simpl. destruct bulk as [|b bulk]; [done|]. split; [by apply enqueue_bulk_inv|done].
  - cbn [prepare_loop]. destruct (operator_new (block_size l) m) as [b m1] eqn:E.
    destruct (operator_new_unowned _ _ _ _ Hi E) as (Hi1 & Hno & Hn & Hs & Ho).
    assert (forall a, a ∈ bulk ++ [b] -> popped l a m1) as Hb1.
    { intros a [Ha| ->%list_elem_of_singleton]%elem_of_app.
      - by apply (popped_new l a _ _ _ _ Hi E (Hb a Ha)).
      - split_and!; try done. by exists (block_size l). }
    assert (NoDup (bulk ++ [b])) as Hnd1.
    { apply NoDup_app. split_and!; [done| |apply NoDup_singleton].
      intros a Ha ->%list_elem_of_singleton.
      by destruct (popped_new l b _ _ _ _ Hi E (Hb b Ha)). }
    case_decide.
    + destruct (IH [] (add_poolSize (Z.of_nat (length (bulk ++ [b])))
        (set_pool l (enqueue_bulk (bulk ++ [b]) (pools m1 l)) m1))) as [? Ho2].
      * by apply enqueue_bulk_inv.
      * apply NoDup_nil_2.
      * by intros a ?%elem_of_nil.
      * split; [done|]. rewrite Ho2. done.
    + destruct (IH (bulk ++ [b]) m1 Hi1 Hnd1 Hb1) as [? Ho2]. split; [done|]. by rewrite Ho2.
Qed.

Definition pool_len m l : Z := Z.of_nat (length (contents (pools m l))).

Definition pooled_count m : Z := pool_len m Small + pool_len m Medium + pool_len m Large.

(** [_poolSize] as an [int]: the number of blocks in the shared pools. *)
Definition accounted m : Prop := poolSize m = i32 (pooled_count m).

Lemma pool_len_set l q m l' :
  pool_len (set_pool l q m) l' =
  if decide (l' = l) then Z.of_nat (length (contents q)) else pool_len m l'.
Proof.
  unfold pool_len. change (contents (pools (set_pool l q m) l')) with
    (bucket (set_pool l q m) (LPool l')). rewrite set_pool_bucket.
  destruct (decide (l' = l)) as [->|]; [by rewrite decide_True|].
  by rewrite decide_False by congruence.
Qed.

Lemma pooled_count_set l q m :
  pooled_count (set_pool l q m) = pooled_count m + (Z.of_nat (length (contents q)) - pool_len m l).
Proof.
  unfold pooled_count. rewrite !pool_len_set. destruct l; simpl; lia.
Qed.

Lemma accounted_set l q d m :
  accounted m -> Z.of_nat (length (contents q)) = pool_len m l + d ->
  accounted (add_poolSize d (set_pool l q m)).
Proof.
  unfold accounted. intros Ha Hd. cbn [poolSize add_poolSize set_pool].
  rewrite Ha, swrap_add by lia.
  change (pooled_count (add_poolSize d (set_pool l q m))) with (pooled_count (set_pool l q m)).
  rewrite pooled_count_set. f_equal. lia.
Qed.

Lemma prepare_loop_count l n bulk m :
  accounted m ->
  accounted (prepare_loop l n bulk m) /\
  forall l', pool_len (prepare_loop l n bulk m) l' =
    pool_len m l' + if decide (l' = l) then Z.of_nat n + Z.of_nat (length bulk) else 0.
Proof.
  assert (forall xs m, accounted m ->
    accounted (add_poolSize (Z.of_nat (length xs)) (set_pool l (enqueue_bulk xs (pools m l)) m)) /\
    forall l', pool_len (add_poolSize (Z.of_nat (length xs))
        (set_pool l (enqueue_bulk xs (pools m l)) m)) l' =
      pool_len m l' + if decide (l' = l) then Z.of_nat (length xs) else 0) as Hput.
  { intros xs m0 Ha. assert (Z.of_nat (length (contents (enqueue_bulk xs (pools m0 l)))) =
      pool_len m0 l + Z.of_nat (length xs)) as El.
    { rewrite contents_enqueue_bulk, length_app. unfold pool_len. lia. }
    split; [by apply accounted_set|]. intros l'.
    change (pool_len (add_poolSize ?d ?x) l') with (pool_len x l').
    rewrite pool_len_set. case_decide; subst; lia. }
  revert bulk m; induction n as [|n IH]; intros bulk m Ha.
  - simpl. destruct bulk as [|b bulk]; [|by apply (Hput (b :: bulk))].
    split; [done|]. intros l'. case_decide; simpl; lia.
  - cbn [prepare_loop]. destruct (operator_new (block_size l) m) as [b m1] eqn:E.
    injection E as <- <-. set (m1 := mkMem _ _ _ _ _ _ _) in *.
    assert (accounted m1) as Ha1 by done.
    case_decide as Hlen.
    + destruct (Hput (bulk ++ [nextAddr m]) m1 Ha1) as [Hp1 Hp2].
      destruct (IH [] _ Hp1) as [? Hc]. split; [done|]. intros l'. rewrite Hc, Hp2.
      change (pool_len m1 l') with (pool_len m l').
      rewrite length_app. simpl length. case_decide; lia.
    + destruct (IH (bulk ++ [nextAddr m]) m1 Ha1) as [? Hc]. split; [done|].
      intros l'. rewrite Hc. change (pool_len m1 l') with (pool_len m l').
      rewrite length_app. simpl length. case_decide; lia.
Qed.

Lemma PopBlock_accounted tid l m : accounted m -> accounted (PopBlock tid l m).2.
Proof.
  intros Ha. unfold PopBlock. destruct (last (t_l1 m tid l)); [done|].
  destruct (try_dequeue_bulk BULK_TRANSFER_COUNT (pools m l)) as [[|b0 rest] q'] eqn:E.
  - apply try_dequeue_bulk_contents, Permutation_length in E. simpl in E.
    unfold accounted. change (pooled_count (operator_new _ ?x).2) with (pooled_count x).
    rewrite pooled_count_set. unfold pool_len. rewrite E. simpl. rewrite Ha. f_equal. lia.
  - apply try_dequeue_bulk_contents, Permutation_length in E. rewrite length_app in E.
    apply (accounted_set l q' (- Z.of_nat (length (b0 :: rest))) m Ha). unfold pool_len. lia.
Qed.

Lemma PushBlock_accounted tid a l m : accounted m -> accounted (PushBlock tid a l m).
Proof.
  intros Ha. unfold PushBlock. case_decide as Hc; [done|].
  destruct (pop_backs BULK_TRANSFER_COUNT (t_l1 m tid l)) as [xs c] eqn:Eb.
  apply (accounted_set l (enqueue_bulk xs (pools m l)) (Z.of_nat BULK_TRANSFER_COUNT) m Ha).
  rewrite contents_enqueue_bulk, length_app, (pop_backs_length _ _ _ _ Eb); [unfold pool_len; lia|].
  unfold L1_CACHE_SIZE, BULK_TRANSFER_COUNT in *. lia.
Qed.

Lemma fold_delete_inv (ptrs : list Z) m :
  mem_inv m -> (forall a, a ∈ ptrs -> no_bucket m a /\ objs m !! a = None) ->
  let m' := foldl (fun m p => operator_delete p m) m ptrs in
  mem_inv m' /\ pools m' = pools m /\ objs m' = objs m /\ poolSize m' = poolSize m.
Proof.
  revert m; induction ptrs as [|p ptrs IH]; intros m Hi Hp; simpl; [done|].
  destruct (Hp p ltac:(left)) as [Hno Ho].
  destruct (IH (operator_delete p m)) as (? & -> & -> & ->); [by apply operator_delete_inv| |done].
  intros a Ha. by apply (Hp a); right.
Qed.

Lemma clearPool_spec l m :
  mem_inv m ->
  mem_inv (clearPool l m) /\ objs (clearPool l m) = objs m /\
  poolSize (clearPool l m) = poolSize m /\ contents (pools (clearPool l m) l) = [] /\
  forall l', contents (pools m l') = [] -> contents (pools (clearPool l m) l') = [].
Proof.
  intros Hi. unfold clearPool. destruct (drain_all (pools m l)) as [ptrs q'] eqn:E.
  apply drain_all_spec in E as [Hq Hp].
  assert (forall l', contents (pools (set_pool l q' m) l') =
    if decide (l' = l) then [] else contents (pools m l')) as Hc.
  { intros l'. change (contents (pools (set_pool l q' m) l')) with
      (bucket (set_pool l q' m) (LPool l')). rewrite set_pool_bucket.
    destruct (decide (l' = l)) as [->|]; [by rewrite decide_True|].
    by rewrite decide_False by congruence. }
  destruct (shrink_spec m (set_pool l q' m) 0%nat l ptrs) as [Hi1 Hpop]; try done.
  { intros k ? ?. by rewrite set_pool_bucket, decide_False. }
  { unfold pair_list. rewrite !set_pool_bucket, decide_True, decide_False by done.
    rewrite Hq. simpl. by rewrite Hp. }
  { apply (mi_l1 _ Hi). }
  destruct (fold_delete_inv ptrs _ Hi1) as (? & Hpo & ? & ?).
  { intros a Ha. by destruct (Hpop a Ha) as (? & ? & _). }
  split_and!; try done.
  - by rewrite Hpo, Hc, decide_True.
  - intros l' Hl'. rewrite Hpo, Hc. by case_decide.
Qed.

(** ** Properties *)

(** C4: AllocatePacket hands out a block that no live message and no cache
    holds, constructs in it a packet message with reference count one and the
    requested length, and the block is large enough for the message header plus
    the body, whichever level (or the heap) it came from; the pool invariant is
    preserved. *)
Theorem AllocatePacket_correct tid bodySize m a m'
  (Hinv : mem_inv m) (Halloc : AllocatePacket tid bodySize m = (a, m')) :
  mem_inv m' /\ no_bucket m' a /\ objs m !! a = None /\
  exists o s, objs m' = <[a := o]> (objs m) /\
    refCount o = 1 /\ mtype o = PACKET /\ msg_length o = bodySize /\
    isPooled o = (bodySize <=? LARGE_BODY_SIZE) /\
    heap m' !! a = Some s /\ CalculateAllocSize bodySize <= s.
Proof.
  destruct (AllocatePacket_spec _ _ _ _ _ Hinv Halloc)
    as (o & Ho & Hi & Hn & Hr & Ht & Hb & _ & Hp & s & Hs & Hsz & _).
  split_and!; try done.
  - apply (live_no_bucket m' a o Hi). by rewrite Ho, lookup_insert_eq.
  - exists o, s. split_and!; try done. unfold msg_length. by rewrite Hb.
Qed.

(** C5: Free on a live message never fails: a shared message only loses one
    reference, the last reference destroys the object and either returns the
    block to the releasing thread's cache or, for an unpooled message, to the
    heap.  The pool invariant is preserved. *)
Theorem Free_correct tid a o m (Hinv : mem_inv m) (Hlive : objs m !! a = Some o) :
  exists m', Free tid (Some a) m = Some m' /\ mem_inv m' /\
    (1 < refCount o -> objs m' = <[a := set_refCount (refCount o - 1) o]> (objs m)) /\
    (refCount o = 1 -> objs m' = delete a (objs m) /\
       (isPooled o = true -> last (t_l1 m' tid (free_level o)) = Some a) /\
       (isPooled o = false -> heap m' !! a = None)).
Proof.
  destruct (Free_spec tid a o m Hinv Hlive) as (m' & Hf & Hi & Hcase).
  exists m'. split_and!; try done; intros Hr.
  - by rewrite (proj2 (Z.eqb_neq _ _)) in Hcase by lia.
  - by rewrite (proj2 (Z.eqb_eq _ _)) in Hcase by lia.
Qed.

(** Releasing the last reference to a pooled packet of at most 16KB and
    allocating a packet of the same size class on the same thread recycles that
    very block. *)
Theorem free_then_allocate_recycles tid a o m m1 len a2 m2
  (Hinv : mem_inv m) (Hlive : objs m !! a = Some o)
  (Hlast : refCount o = 1) (Hpool : isPooled o = true) (Hpkt : mtype o = PACKET)
  (Hfree : Free tid (Some a) m = Some m1)
  (Hlen : len <= LARGE_BODY_SIZE) (Hlvl : level_of_length len = level_of_length (msg_length o))
  (Halloc : AllocatePacket tid len m1 = (a2, m2)) :
  a2 = a.
Proof.
  destruct (Free_spec tid a o m Hinv Hlive) as (m' & Hf & Hi & Hcase).
  rewrite Hf in Hfree. simplify_eq. rewrite Hlast in Hcase. simpl in Hcase.
  destruct Hcase as (_ & Hc & _). specialize (Hc Hpool).
  unfold free_level in Hc. rewrite decide_True in Hc by done.
  unfold AllocatePacket in Halloc. rewrite (proj2 (Z.ltb_ge _ _)) in Halloc by lia.
  unfold PopBlock in Halloc. cbn [t_l1 metric_inc] in Halloc. rewrite Hlvl, Hc in Halloc.
  by simplify_eq.
Qed.

(** Size classes degrade: a pooled packet whose type was set to NETWORK_DATA
    (as every receiving session does before posting it) goes back to the small
    cache when it is released, although its block was taken from the medium or
    large pool. *)
Theorem network_data_block_returns_to_small tid len m a m1 o sid sptr
  (Hinv : mem_inv m) (Hlen : SMALL_BODY_SIZE < len <= LARGE_BODY_SIZE)
  (Halloc : AllocatePacket tid len m = (a, m1)) (Ho : objs m1 !! a = Some o) :
  exists m2, Free tid (Some a) (put_obj a (tag_message NETWORK_DATA sid sptr o) m1) = Some m2 /\
    last (t_l1 m2 tid Small) = Some a /\ level_of_length len <> Small /\
    exists s, heap m1 !! a = Some s /\ block_size (level_of_length len) <= s.
Proof.
  destruct (AllocatePacket_spec _ _ _ _ _ Hinv Halloc)
    as (o' & Ho' & Hi & Hn & Hr & Ht & Hb & _ & Hp & s & Hs & Hsz & Hbl).
  rewrite Ho', lookup_insert_eq in Ho. simplify_eq.
  set (o1 := tag_message NETWORK_DATA sid sptr o).
  assert (isPooled o = true) as Hpo by (rewrite Hp; apply Z.leb_le; lia).
  assert (mem_inv (put_obj a o1 m1)) as Hi1.
  { eapply put_obj_inv; try done.
    - apply (live_no_bucket m1 a o Hi). by rewrite Ho', lookup_insert_eq.
    - split_and!; [by simpl; lia|unfold msg_length; simpl; rewrite Hb; lia|]. intros _.
      pose proof (block_size_small (level_of_length len)). specialize (Hbl ltac:(lia)).
      unfold free_level. simpl. lia. }
  destruct (Free_spec tid a o1 _ Hi1) as (m2 & Hf & _ & Hcase).
  { simpl. by rewrite lookup_insert_eq. }
  exists m2. simpl in Hcase. rewrite Hr in Hcase. simpl in Hcase.
  split_and!; [done|by apply Hcase| |exists s; split; [done|apply Hbl; lia]].
  unfold level_of_length. rewrite (proj2 (Z.leb_gt _ _)) by lia. by case_match.
Qed.

(** The pool counter: Prepare adds the requested number of blocks to each
    shared pool, keeps every block in exactly one place, and leaves [_poolSize]
    equal to the number of pooled blocks. *)
Theorem Prepare_correct (sc mc lc : nat) m (Hinv : mem_inv m) (Hacc : accounted m) :
  let m' := Prepare sc mc lc m in
  mem_inv m' /\ accounted m' /\ objs m' = objs m /\
  pool_len m' Small = pool_len m Small + Z.of_nat sc /\
  pool_len m' Medium = pool_len m Medium + Z.of_nat mc /\
  pool_len m' Large = pool_len m Large + Z.of_nat lc.
Proof.
  assert (forall l n m, mem_inv m -> mem_inv (prepare_loop l n [] m) /\
    objs (prepare_loop l n [] m) = objs m) as Hp.
  { intros. apply prepare_loop_inv; [done|apply NoDup_nil_2|by intros a ?%elem_of_nil]. }
  unfold Prepare. set (m1 := prepare_loop Small sc [] m). set (m2 := prepare_loop Medium mc [] m1).
  destruct (Hp Small sc m Hinv) as [Hi1 Ho1]. destruct (Hp Medium mc m1 Hi1) as [Hi2 Ho2].
  destruct (Hp Large lc m2 Hi2) as [Hi3 Ho3].
  destruct (prepare_loop_count Small sc [] m Hacc) as [Ha1 Hc1].
  destruct (prepare_loop_count Medium mc [] m1 Ha1) as [Ha2 Hc2].
  destruct (prepare_loop_count Large lc [] m2 Ha2) as [Ha3 Hc3].
  split_and!; try done; [by rewrite Ho3; unfold m2; rewrite Ho2; unfold m1|..];
    rewrite Hc3; unfold m2; rewrite Hc2; unfold m1; rewrite Hc1; simpl; lia.
Qed.

(** Clear empties the three shared pools and frees their blocks, but leaves
    [_poolSize] at its old value, so the counter no longer tells the number of
    pooled blocks. *)
Theorem Clear_empties_but_keeps_count m (Hinv : mem_inv m) :
  mem_inv (Clear m) /\ objs (Clear m) = objs m /\ pooled_count (Clear m) = 0 /\
  GetPoolSize (Clear m) = GetPoolSize m.
Proof.
  unfold Clear, GetPoolSize. set (m1 := clearPool Small m). set (m2 := clearPool Medium m1).
  destruct (clearPool_spec Small m Hinv) as (Hi1 & Ho1 & Hs1 & Hc1 & _).
  destruct (clearPool_spec Medium m1 Hi1) as (Hi2 & Ho2 & Hs2 & Hc2 & Hk2).
  destruct (clearPool_spec Large m2 Hi2) as (Hi3 & Ho3 & Hs3 & Hc3 & Hk3).
  split_and!; [done|by rewrite Ho3; unfold m2; rewrite Ho2; unfold m1| |
    by rewrite Hs3; unfold m2; rewrite Hs2; unfold m1].
  unfold pooled_count, pool_len. by rewrite (Hk3 _ (Hk2 _ Hc1)), (Hk3 _ Hc2), Hc3.
Qed.

End MessagePool.

(** ** Witnesses: the theorems at concrete states *)

Abbreviation mem0 := (Mem_new (Q := list) (T := unit)).

(** The state after allocating one packet of [len] bytes on thread 0. *)
Definition mem1 (len : Z) : Mem list unit := (AllocatePacket 40 0 len mem0).2.

Lemma mem1_alloc len : AllocatePacket 40 0 len mem0 = (1, mem1 len).
Proof. unfold mem1, AllocatePacket, PopBlock. simpl. by case_match. Qed.

Lemma mem1_inv len : mem_inv 40 (mem1 len).
Proof. by destruct (AllocatePacket_spec 40 _ _ _ _ _ (Mem_new_inv 40) (mem1_alloc len)) as (? & ? & ? & _). Qed.

Lemma AllocatePacket_correct_witness :
  no_bucket (mem1 2000) 1 /\ heap (mem1 2000) !! 1 = Some 4136.
Proof.
  split; [|reflexivity].
  apply (AllocatePacket_correct 40 0 2000 mem0 1 (mem1 2000) (Mem_new_inv 40) (mem1_alloc 2000)).
Defined.

Lemma Free_correct_witness :
  exists m', Free 0 (Some 1) (mem1 2000) = Some m' /\ objs m' = ∅ /\
    last (t_l1 m' 0%nat Medium) = Some 1.
Proof.
  destruct (Free_correct 40 0 1 (PacketMessage_new 2000) (mem1 2000) (mem1_inv 2000) eq_refl)
    as (m' & Hf & _ & _ & Hlast).
  exists m'. destruct (Hlast eq_refl) as (Ho & Hp & _). split_and!; [done| |by apply Hp].
  rewrite Ho. reflexivity.
Defined.

Lemma free_then_allocate_recycles_witness :
  exists m1 m2, Free 0 (Some 1) (mem1 2000) = Some m1 /\ AllocatePacket 40 0 3000 m1 = (1, m2).
Proof.
  destruct (Free 0 (Some 1) (mem1 2000)) as [m1|] eqn:Hf; [|discriminate Hf].
  destruct (AllocatePacket 40 0 3000 m1) as [a m2] eqn:Ha.
  exists m1, m2. split; [reflexivity|].
  rewrite (free_then_allocate_recycles 40 0 1 (PacketMessage_new 2000) (mem1 2000) m1 3000 a m2
    (mem1_inv 2000) eq_refl eq_refl eq_refl eq_refl Hf ltac:(vm_compute; discriminate) eq_refl Ha)
    in Ha.
  exact Ha.
Defined.

Lemma network_data_block_returns_to_small_witness :
  exists m2, Free 0 (Some 1)
      (put_obj 1 (tag_message NETWORK_DATA 7 9 (PacketMessage_new 2000)) (mem1 2000)) = Some m2 /\
    last (t_l1 m2 0%nat Small) = Some 1 /\ heap m2 !! 1 = Some 4136.
Proof.
  destruct (network_data_block_returns_to_small 40 0 2000 mem0 1 (mem1 2000)
    (PacketMessage_new 2000) 7 9 (Mem_new_inv 40) ltac:(vm_compute; split; [reflexivity|discriminate])
    (mem1_alloc 2000) eq_refl) as (m2 & Hf & Hl & _ & _).
  exists m2. split; [exact Hf|]. split; [exact Hl|].
  vm_compute in Hf. injection Hf as <-. reflexivity.
Defined.

Lemma mem0_accounted : accounted mem0.
Proof. vm_compute. reflexivity. Qed.

Lemma Prepare_correct_witness :
  pool_len (Prepare 40 3 2 1 mem0) Small = 3 /\ GetPoolSize (Prepare 40 3 2 1 mem0) = 6.
Proof.
  pose proof (Prepare_correct 40 3 2 1 mem0 (Mem_new_inv 40) mem0_accounted) as H.
  cbv zeta in H. split; [exact (proj1 (proj2 (proj2 (proj2 H))))|]. vm_compute. reflexivity.
Defined.

Lemma Clear_empties_but_keeps_count_witness :
  pooled_count (Clear (Prepare 40 3 2 1 mem0)) = 0 /\
  GetPoolSize (Clear (Prepare 40 3 2 1 mem0)) = 6.
Proof.
  destruct (Clear_empties_but_keeps_count 40 (Prepare 40 3 2 1 mem0)) as (_ & _ & Hc & Hs).
  - unfold Prepare. do 3 (apply prepare_loop_inv; [|apply NoDup_nil_2|by intros a ?%elem_of_nil]).
    apply Mem_new_inv.
  - split; [exact Hc|]. rewrite Hs. vm_compute. reflexivity.
Defined.
