(* ===== verification/TimingWheel.v ===== *)
(** * TimingWheel: the hierarchical timer wheel

    Models src/System/Timer/TimingWheel.h.  Timer nodes are shared objects
    ([std::shared_ptr<Node>] held by the wheel, by the timer map and by the list
    of expired nodes), so they live in a store [gmap Z Node] and the buckets hold
    references.  Ticks are [uint32_t] and wrap around.

    The theorems relate the five-level wheel to the set of pending nodes: one
    [Advance] removes exactly the pending nodes whose [expiryTick] is the new
    tick, so a node added with a delay of [d] ticks is delivered by the [d]-th
    [Advance], neither earlier nor later, also across the 32-bit wrap. *)

From stdpp Require Import base numbers gmap functions list.
From S2P Require Import Prelude.

Definition TVR_BITS : Z := 8.
Definition TVN_BITS : Z := 6.
Definition TVR_SIZE : Z := Z.shiftl 1 TVR_BITS.
Definition TVN_SIZE : Z := Z.shiftl 1 TVN_BITS.
Definition TVR_MASK : Z := TVR_SIZE - 1.
Definition TVN_MASK : Z := TVN_SIZE - 1.

Record Node := mkNode {
  id : Z;
  logicTimerId : Z;
  pParam : option Z;
  expiryTick : Z;
  intervalTick : Z;
  rawListener : option Z;
  weakListener : option Z;
  useWeak : bool;
  cancelled : bool
}.

#[global] Instance Node_inhabited : Inhabited Node :=
  populate (mkNode 0 0 None 0 0 None None false false).

(** [_tv k] is the array [_tvk], for [k] from 1 to 5; the indices are masked by
    the array sizes before every access. *)
Record TimingWheel := mkWheel {
  _currentTick : Z;
  _tv : nat -> Z -> list Z
}.

Definition TimingWheel_new : TimingWheel := mkWheel 0 (fun _ _ => []).

Definition set_slot (k : nat) (i : Z) (l : list Z) (w : TimingWheel) : TimingWheel :=
  mkWheel (_currentTick w) (<[k := <[i := l]> (_tv w k)]> (_tv w)).

Definition push_back (k : nat) (i : Z) (n : Z) (w : TimingWheel) : TimingWheel :=
  set_slot k i (_tv w k i ++ [n]) w.

Definition Add (st : gmap Z Node) (n : Z) (w : TimingWheel) : TimingWheel :=
  let expires := expiryTick (st !!! n) in
  let idx := expires -32 _currentTick w in
  if idx <? TVR_SIZE then push_back 1 (Z.land expires TVR_MASK) n w
  else if idx <? Z.shiftl 1 (TVR_BITS + TVN_BITS) then
    push_back 2 (Z.land (Z.shiftr expires TVR_BITS) TVN_MASK) n w
  else if idx <? Z.shiftl 1 (TVR_BITS + 2 * TVN_BITS) then
    push_back 3 (Z.land (Z.shiftr expires (TVR_BITS + TVN_BITS)) TVN_MASK) n w
  else if idx <? Z.shiftl 1 (TVR_BITS + 3 * TVN_BITS) then
    push_back 4 (Z.land (Z.shiftr expires (TVR_BITS + 2 * TVN_BITS)) TVN_MASK) n w
  else if i64 idx <? 0 then push_back 1 (Z.land (_currentTick w +32 1) TVR_MASK) n w
  else push_back 5 (Z.land (Z.shiftr expires (TVR_BITS + 3 * TVN_BITS)) TVN_MASK) n w.

(** The loop of [Cascade]: the current element is always the head of the list,
    it is re-added and then erased.  [fuel] bounds the iterations. *)
Fixpoint Cascade_loop (fuel : nat) (st : gmap Z Node) (k : nat) (i : Z) (w : TimingWheel) :
    TimingWheel :=
  match fuel with
  | O => w
  | S fuel' =>
      match _tv w k i with
      | [] => w
      | n :: _ =>
          let w1 := Add st n w in
          Cascade_loop fuel' st k i (set_slot k i (tail (_tv w1 k i)) w1)
      end
  end.

Definition Cascade (st : gmap Z Node) (k : nat) (i : Z) (w : TimingWheel) : TimingWheel :=
  Cascade_loop (length (_tv w k i)) st k i w.

(** The cascades of [Advance], for the tick already stored in [_currentTick]. *)
Definition cascades (st : gmap Z Node) (w : TimingWheel) : TimingWheel :=
  let t := _currentTick w in
  if Z.land t TVR_MASK =? 0 then
    let i2 := Z.land (Z.shiftr t TVR_BITS) TVN_MASK in
    let w := Cascade st 2 i2 w in
    if i2 =? 0 then
      let i3 := Z.land (Z.shiftr t (TVR_BITS + TVN_BITS)) TVN_MASK in
      let w := Cascade st 3 i3 w in
      if i3 =? 0 then
        let i4 := Z.land (Z.shiftr t (TVR_BITS + 2 * TVN_BITS)) TVN_MASK in
        let w := Cascade st 4 i4 w in
        if i4 =? 0 then
          let i5 := Z.land (Z.shiftr t (TVR_BITS + 3 * TVN_BITS)) TVN_MASK in
          Cascade st 5 i5 w
        else w
      else w
    else w
  else w.

Definition Advance (st : gmap Z Node) (currentTick : Z) (w : TimingWheel) :
    list Z * TimingWheel :=
  let w := cascades st (mkWheel currentTick (_tv w)) in
  let index := Z.land currentTick TVR_MASK in
  (filter (fun n => cancelled (st !!! n) = false) (_tv w 1%nat index), set_slot 1 index [] w).

(** [Remove] only marks the node. *)
Definition cancel_node (nd : Node) : Node :=
  mkNode (id nd) (logicTimerId nd) (pParam nd) (expiryTick nd) (intervalTick nd)
    (rawListener nd) (weakListener nd) (useWeak nd) true.

Definition Remove (n : Z) (st : gmap Z Node) : gmap Z Node := alter cancel_node n st.

(** ** Slots and due times *)

Definition pending (w : TimingWheel) (n : Z) : Prop := exists k i, n ∈ _tv w k i.

Definition lvl_bits (k : nat) : Z :=
  match k with 2%nat => 8 | 3%nat => 14 | 4%nat => 20 | 5%nat => 26 | _ => 0 end.

(** The first tick after [A] (a logical, unbounded tick count) congruent to the
    32-bit expiry [e]. *)
Definition due (A e : Z) : Z := A + 1 + (e - A - 1) mod 2 ^ 32.

(** Start of the block of [2^(lvl_bits k)] ticks that contains [D]: the tick at
    which a node of level [k] due at [D] is cascaded. *)
Definition block_start (k : nat) (D : Z) : Z := D - D mod 2 ^ lvl_bits k.

Definition upper_level (k : nat) : Prop := (2 <= k <= 5)%nat.

Definition slot_ok (A : Z) (k : nat) (i D : Z) : Prop :=
  (k = 1%nat /\ i = D mod 256 /\ A < D <= A + 256) \/
  (upper_level k /\ i = (D / 2 ^ lvl_bits k) mod 64 /\
   A < block_start k D <= A + 2 ^ (lvl_bits k + 6)).

Record wheel_inv (st : gmap Z Node) (A : Z) (w : TimingWheel) : Prop := mk_wheel_inv {
  wi_slot : forall k i n, n ∈ _tv w k i -> slot_ok A k i (due A (expiryTick (st !!! n)));
  wi_nodup : forall k i, NoDup (_tv w k i);
  wi_uniq : forall k i k' i' n, n ∈ _tv w k i -> n ∈ _tv w k' i' -> k = k' /\ i = i'
}.

(** The states inside [Advance]: levels 2 to [L] have been cascaded for tick [T]. *)
Definition mid_inv (st : gmap Z Node) (T : Z) (L : nat) (w : TimingWheel) : Prop :=
  wheel_inv st (T - 1) w /\
  forall k i n, n ∈ _tv w k i -> (2 <= k <= L)%nat ->
    T < block_start k (due (T - 1) (expiryTick (st !!! n))).

Ltac wheel_consts :=
  change (Z.shiftl 1 (TVR_BITS + TVN_BITS)) with 16384 in *;
  change (Z.shiftl 1 (TVR_BITS + 2 * TVN_BITS)) with 1048576 in *;
  change (Z.shiftl 1 (TVR_BITS + 3 * TVN_BITS)) with 67108864 in *;
  change (TVR_BITS + TVN_BITS) with 14 in *;
  change (TVR_BITS + 2 * TVN_BITS) with 20 in *;
  change (TVR_BITS + 3 * TVN_BITS) with 26 in *;
  change TVR_SIZE with 256 in *; change TVR_MASK with 255 in *;
  change TVN_MASK with 63 in *; change TVR_BITS with 8 in *.

#[local] Ltac Zify.zify_post_hook ::= Z.div_mod_to_equations.

Lemma land_255 x : Z.land x 255 = x mod 256.
Proof. exact (land_mask x 8 ltac:(lia)). Qed.

Lemma land_63 x : Z.land x 63 = x mod 64.
Proof. exact (land_mask x 6 ltac:(lia)). Qed.

Lemma shiftr_bits x n : 0 <= n -> Z.shiftr x n = x / 2 ^ n.
Proof. apply Z.shiftr_div_pow2. Qed.

(** Residues of the due time are those of the 32-bit expiry. *)
Lemma due_mod A e : due A e mod 2 ^ 32 = e mod 2 ^ 32.
Proof. unfold due. lia. Qed.

Lemma mod_pow_of_mod32 x y n : 0 <= n <= 32 ->
  x mod 2 ^ 32 = y mod 2 ^ 32 -> x mod 2 ^ n = y mod 2 ^ n.
Proof.
  intros Hn H. rewrite <- (Z.mod_mod_divide x (2 ^ 32)), <- (Z.mod_mod_divide y (2 ^ 32));
    [by rewrite H|exists (2 ^ (32 - n))..]; rewrite <- Z.pow_add_r by lia; f_equal; lia.
Qed.

Lemma due_range A e : A < due A e <= A + 2 ^ 32.
Proof. unfold due. lia. Qed.

Lemma due_unique A e D : A < D <= A + 2 ^ 32 -> D mod 2 ^ 32 = e mod 2 ^ 32 -> due A e = D.
Proof. unfold due. intros. lia. Qed.

Lemma set_slot_at k i l w : _tv (set_slot k i l w) k i = l.
Proof. cbn [_tv set_slot]. by rewrite !fn_lookup_insert. Qed.

Lemma set_slot_ne k i l w k' i' : (k', i') <> (k, i) -> _tv (set_slot k i l w) k' i' = _tv w k' i'.
Proof.
  intros Hne. cbn [_tv set_slot]. destruct (decide (k' = k)) as [->|].
  - rewrite fn_lookup_insert, fn_lookup_insert_ne; [done|congruence].
  - by rewrite fn_lookup_insert_ne.
Qed.

Lemma elem_set_slot k i l w k' i' n :
  n ∈ _tv (set_slot k i l w) k' i' <->
  ((k', i') = (k, i) /\ n ∈ l) \/ ((k', i') <> (k, i) /\ n ∈ _tv w k' i').
Proof.
  destruct (decide ((k', i') = (k, i))) as [[= -> ->]|Hne].
  - rewrite set_slot_at. tauto.
  - rewrite set_slot_ne by done. tauto.
Qed.

Lemma slot_index_cong b x y : 0 <= b <= 26 -> x mod 2 ^ 32 = y mod 2 ^ 32 ->
  (x / 2 ^ b) mod 64 = (y / 2 ^ b) mod 64.
Proof.
  intros Hb H. assert (forall z, (z / 2 ^ b) mod 64 = (z mod 2 ^ (b + 6)) / 2 ^ b) as E.
  { intros z. rewrite Z.pow_add_r, Z.rem_mul_r by lia. change (2 ^ 6) with 64.
    rewrite Z.add_comm, Z.mul_comm, Z.div_add_l by lia.
    rewrite (Z.div_small (z mod 2 ^ b)) by (apply Z.mod_pos_bound; lia). lia. }
  rewrite !E. f_equal. apply mod_pow_of_mod32; [lia|done].
Qed.

(** Where [Add] puts a node, in terms of the due time [D]. *)
Definition placed (T : Z) (k : nat) (i D : Z) : Prop :=
  (k = 1%nat /\ i = D mod 256 /\ D - T < 256) \/
  (upper_level k /\ i = (D / 2 ^ lvl_bits k) mod 64 /\
   2 ^ lvl_bits k <= D - T < 2 ^ (lvl_bits k + 6)).

Lemma Add_place st n w T :
  _currentTick w = T mod 2 ^ 32 ->
  exists k i, Add st n w = push_back k i n w /\
    placed T k i (due (T - 1) (expiryTick (st !!! n))).
Proof.
  intros Ht. set (e := expiryTick (st !!! n)). set (D := due (T - 1) e).
  assert (D mod 2 ^ 32 = e mod 2 ^ 32) as HD by apply due_mod.
  assert (0 <= D - T < 2 ^ 32) as HR by (unfold D, due; lia).
  assert (wrap 32 (e - _currentTick w) = D - T) as Hidx by (unfold wrap; lia).
  assert (forall b, 0 <= b <= 26 -> Z.land (Z.shiftr e b) 63 = (D / 2 ^ b) mod 64) as Hs.
  { intros b Hb. rewrite land_63, shiftr_bits by lia. symmetry. by apply slot_index_cong. }
  unfold Add. fold e. rewrite Hidx. wheel_consts.
  destruct (D - T <? 256) eqn:E1; bool_to_prop.
  { exists 1%nat, (Z.land e 255). split; [done|]. left. split_and!; [done| |lia].
    rewrite land_255. symmetry. by apply (mod_pow_of_mod32 D e 8). }
  destruct (D - T <? 16384) eqn:E2; bool_to_prop.
  { exists 2%nat, (Z.land (Z.shiftr e 8) 63). split; [done|]. right.
    split_and!; [unfold upper_level; lia|by apply Hs|simpl; lia|simpl; lia]. }
  destruct (D - T <? 1048576) eqn:E3; bool_to_prop.
  { exists 3%nat, (Z.land (Z.shiftr e 14) 63). split; [done|]. right.
    split_and!; [unfold upper_level; lia|by apply Hs|simpl; lia|simpl; lia]. }
  destruct (D - T <? 67108864) eqn:E4; bool_to_prop.
  { exists 4%nat, (Z.land (Z.shiftr e 20) 63). split; [done|]. right.
    split_and!; [unfold upper_level; lia|by apply Hs|simpl; lia|simpl; lia]. }
  rewrite swrap_small by lia. rewrite (proj2 (Z.ltb_ge _ _)) by lia.
  exists 5%nat, (Z.land (Z.shiftr e 26) 63). split; [done|]. right.
  split_and!; [unfold upper_level; lia|by apply Hs|simpl; lia|simpl; lia].
Qed.

Ltac lvl := unfold upper_level; lia.

Ltac level_cases Hk :=
  unfold upper_level in Hk;
  match type of Hk with (2 <= ?k <= 5)%nat =>
    assert (k = 2 \/ k = 3 \/ k = 4 \/ k = 5)%nat as [->|[->|[->| ->]]] by lia
  end; cbn [lvl_bits] in *.

Lemma block_start_bound k D : upper_level k -> D - 2 ^ lvl_bits k < block_start k D <= D.
Proof. intros Hk. unfold block_start. level_cases Hk; lia. Qed.

Lemma placed_slot_ok A T k i D :
  placed T k i D -> A < D -> T - 1 <= A <= T -> slot_ok A k i D.
Proof.
  intros [(-> & -> & Hd)|(Hk & -> & Hd)] HA HT; [left; lia|right].
  pose proof (block_start_bound k D Hk). split_and!; [done|done|lia|lia].
Qed.

Lemma placed_after k i T D : placed T k i D -> upper_level k -> T < block_start k D.
Proof.
  intros [(-> & _)|(Hk & _ & Hd)] Hk'; [unfold upper_level in *; lia|].
  pose proof (block_start_bound k D Hk). lia.
Qed.

Lemma push_back_inv st A k i n w :
  wheel_inv st A w -> ~ pending w n ->
  slot_ok A k i (due A (expiryTick (st !!! n))) -> wheel_inv st A (push_back k i n w).
Proof.
  intros Hi Hn Hs. unfold push_back. split.
  - intros k' i' x [[[= -> ->] Hx]|[_ Hx]]%elem_set_slot; [|by apply (wi_slot _ _ _ Hi)].
    apply elem_of_app in Hx as [Hx| ->%list_elem_of_singleton]; [by apply (wi_slot _ _ _ Hi)|done].
  - intros k' i'. destruct (decide ((k', i') = (k, i))) as [[= -> ->]|Hne].
    + rewrite set_slot_at. apply NoDup_app. split_and!; [apply (wi_nodup _ _ _ Hi)| |apply NoDup_singleton].
      intros x Hx ->%list_elem_of_singleton. apply Hn. by exists k, i.
    + rewrite set_slot_ne by done. apply (wi_nodup _ _ _ Hi).
  - assert (forall k' i' x, x ∈ _tv (push_back k i n w) k' i' ->
      (x = n /\ (k', i') = (k, i)) \/ (x <> n /\ x ∈ _tv w k' i')) as Hel.
    { intros k' i' x [[[= -> ->] Hx]|[_ Hx]]%elem_set_slot.
      - apply elem_of_app in Hx as [Hx| ->%list_elem_of_singleton]; [right|by left].
        split; [|done]. intros ->. apply Hn. by exists k, i.
      - right. split; [|done]. intros ->. apply Hn. by exists k', i'. }
    intros k1 i1 k2 i2 x H1%Hel H2%Hel.
    destruct H1 as [[-> H1]|[? H1]], H2 as [[H2' H2]|[? H2]]; try done; [by simplify_eq|].
    by eapply (wi_uniq _ _ _ Hi).
Qed.

Lemma pending_push_back k i n w x : pending (push_back k i n w) x <-> x = n \/ pending w x.
Proof.
  unfold pending, push_back. split.
  - intros (k' & i' & [[[= -> ->] Hx]|[_ Hx]]%elem_set_slot); [|by right; eauto].
    apply elem_of_app in Hx as [Hx| ->%list_elem_of_singleton]; [by right; eauto|by left].
  - intros [->|(k' & i' & Hx)].
    + exists k, i. rewrite set_slot_at. apply elem_of_app. right. by left.
    + exists k', i'. apply elem_set_slot. destruct (decide ((k', i') = (k, i))) as [[= -> ->]|].
      * left. split; [done|]. apply elem_of_app. by left.
      * by right.
Qed.

(** Two wheels with the same tick and the same buckets behave the same. *)
#[global] Instance wheel_equiv : Equiv TimingWheel := fun w w' =>
  _currentTick w = _currentTick w' /\ forall k i, _tv w k i = _tv w' k i.

#[global] Instance wheel_equivalence : Equivalence (≡@{TimingWheel}).
Proof.
  split.
  - by intros w.
  - by intros w w' [? ?].
  - intros w1 w2 w3 [E1 H1] [E2 H2]. split; [congruence|]. intros. by rewrite H1.
Qed.

#[global] Instance wheel_inv_proper st A : Proper ((≡) ==> iff) (wheel_inv st A).
Proof.
  assert (forall w w', w ≡ w' -> wheel_inv st A w -> wheel_inv st A w') as H.
  { intros w w' [_ E] [H1 H2 H3]. split; intros *; rewrite <- !E; [apply H1|apply H2|apply H3]. }
  intros w w' E. split; by apply H.
Qed.

#[global] Instance pending_proper : Proper ((≡) ==> (=) ==> iff) pending.
Proof. intros w w' [_ E] n ? <-. unfold pending. by setoid_rewrite E. Qed.

#[global] Instance mid_inv_proper st T L : Proper ((≡) ==> iff) (mid_inv st T L).
Proof.
  intros w w' E. unfold mid_inv. rewrite E. destruct E as [_ E]. by setoid_rewrite E.
Qed.

(** Emptying or trimming a bucket. *)
Lemma shrink_slot_inv st A k i l w :
  wheel_inv st A w -> NoDup l -> l ⊆ _tv w k i -> wheel_inv st A (set_slot k i l w).
Proof.
  intros Hi Hnd Hl.
  assert (forall k' i' x, x ∈ _tv (set_slot k i l w) k' i' -> x ∈ _tv w k' i') as Hel.
  { intros k' i' x [[[= -> ->] Hx]|[_ Hx]]%elem_set_slot; [by apply Hl|done]. }
  split.
  - intros k' i' x Hx. by apply (wi_slot _ _ _ Hi), Hel.
  - intros k' i'. destruct (decide ((k', i') = (k, i))) as [[= -> ->]|].
    + by rewrite set_slot_at.
    + rewrite set_slot_ne by done. apply (wi_nodup _ _ _ Hi).
  - intros k1 i1 k2 i2 x H1 H2. eapply (wi_uniq _ _ _ Hi); by apply Hel.
Qed.

Lemma cascaded_block T k D i :
  upper_level k -> T mod 2 ^ lvl_bits k = 0 ->
  i = (T / 2 ^ lvl_bits k) mod 64 -> slot_ok (T - 1) k i D -> block_start k D = T.
Proof.
  intros Hk HT -> [(-> & _)|(_ & Hi & HB)]; [unfold upper_level in Hk; lia|].
  unfold block_start in *. level_cases Hk; simpl in HB; lia.
Qed.

(** Appending to another slot and removing the first of this one commute. *)
Lemma push_then_erase k i k' i' n rest w : k' <> k -> _tv w k i = n :: rest ->
  let w1 := push_back k' i' n w in set_slot k i (tail (_tv w1 k i)) w1 ≡ push_back k' i' n (set_slot k i rest w).
Proof.
  intros Hk Hslot. cbv zeta. split; [done|]. intros k1 i1. unfold push_back.
  rewrite (set_slot_ne k' i') by (intros [= ? ?]; lia). rewrite Hslot. cbn [tail].
  destruct (decide ((k1, i1) = (k, i))) as [[= -> ->]|Hne].
  - by rewrite set_slot_at, set_slot_ne, set_slot_at by (intros [= ? ?]; lia).
  - rewrite (set_slot_ne k i) by done.
    destruct (decide ((k1, i1) = (k', i'))) as [[= -> ->]|Hne'].
    + by rewrite !set_slot_at, set_slot_ne by (intros [= ? ?]; lia).
    + by rewrite !set_slot_ne.
Qed.

(** Moving the first node of a slot elsewhere keeps what is pending. *)
Lemma pending_moved k i k' i' n rest w x : _tv w k i = n :: rest ->
  pending (push_back k' i' n (set_slot k i rest w)) x <-> pending w x.
Proof.
  intros Hslot. rewrite pending_push_back. unfold pending. split.
  - intros [->|(k1 & i1 & [[[= -> ->] Hx]|[_ Hx]]%elem_set_slot)]; [|exists k, i; rewrite Hslot; by right|by eauto].
    exists k, i. rewrite Hslot. by left.
  - intros (k1 & i1 & Hx). destruct (decide ((k1, i1) = (k, i))) as [[= -> ->]|Hne].
    + rewrite Hslot in Hx. apply elem_of_cons in Hx as [->|Hx]; [by left|right].
      exists k, i. rewrite set_slot_at. done.
    + right. exists k1, i1. by rewrite set_slot_ne.
Qed.

Lemma Add_then_erase st T k i n rest w :
  upper_level k -> T mod 2 ^ lvl_bits k = 0 -> i = (T / 2 ^ lvl_bits k) mod 64 ->
  _currentTick w = T mod 2 ^ 32 -> mid_inv st T (k - 1) w -> _tv w k i = n :: rest ->
  let w1 := Add st n w in
  let w2 := set_slot k i (tail (_tv w1 k i)) w1 in
  mid_inv st T (k - 1) w2 /\ _currentTick w2 = T mod 2 ^ 32 /\ _tv w2 k i = rest /\
  forall x, pending w2 x <-> pending w x.
Proof.
  intros Hk HT Hi Hc [Hinv Hlow] Hslot w1 w2.
  assert (n ∈ _tv w k i) as Hn by (rewrite Hslot; left).
  destruct (Add_place st n w T Hc) as (k' & i' & HA & Hp).
  pose proof (cascaded_block T k _ i Hk HT Hi (wi_slot _ _ _ Hinv _ _ _ Hn)) as HB.
  assert (k' < k)%nat as Hlt.
  { destruct Hp as [(-> & _)|(Hk' & _ & Hd)]; [unfold upper_level in Hk; lia|].
    pose proof (block_start_bound k (due (T - 1) (expiryTick (st !!! n))) Hk).
    level_cases Hk; level_cases Hk'; lia. }
  pose proof (wi_nodup _ _ _ Hinv k i) as Hnd. rewrite Hslot in Hnd.
  apply NoDup_cons in Hnd as [Hnr Hnd].
  set (w0 := set_slot k i rest w).
  assert (w2 ≡ push_back k' i' n w0) as E.
  { unfold w2, w1. rewrite HA. apply push_then_erase; [lia|done]. }
  assert (wheel_inv st (T - 1) w0) as Hw0.
  { apply shrink_slot_inv; [done|done|]. rewrite Hslot. by intros x ?; right. }
  assert (~ pending w0 n) as Hnp.
  { intros (k1 & i1 & [[_ Hx]|[Hne Hx]]%elem_set_slot); [done|].
    destruct (wi_uniq _ _ _ Hinv _ _ _ _ _ Hx Hn). congruence. }
  split_and!.
  - rewrite E. split.
    + apply push_back_inv; [done|done|]. eapply placed_slot_ok; [done| |lia].
      pose proof (due_range (T - 1) (expiryTick (st !!! n))). lia.
    + intros k1 i1 x [[[= -> ->] Hx]|[_ Hx]]%elem_set_slot Hk1.
      * apply elem_of_app in Hx as [Hx| ->%list_elem_of_singleton].
        -- apply elem_set_slot in Hx as [[[= -> ->] _]|[_ Hx]]; [lia|]. by eapply Hlow.
        -- eapply placed_after; [done|]. unfold upper_level in *. lia.
      * apply elem_set_slot in Hx as [[[= -> ->] _]|[_ Hx]]; [lia|]. by eapply Hlow.
  - unfold w2, w1. rewrite HA. done.
  - unfold w2. rewrite set_slot_at. unfold w1. rewrite HA. unfold push_back.
    rewrite set_slot_ne by (intros [= ? ?]; lia). by rewrite Hslot.
  - intros x. rewrite E. by apply pending_moved.
Qed.

Lemma Cascade_loop_spec st T k i m w :
  upper_level k -> T mod 2 ^ lvl_bits k = 0 -> i = (T / 2 ^ lvl_bits k) mod 64 ->
  _currentTick w = T mod 2 ^ 32 -> mid_inv st T (k - 1) w -> length (_tv w k i) = m ->
  let w' := Cascade_loop m st k i w in
  mid_inv st T (k - 1) w' /\ _currentTick w' = T mod 2 ^ 32 /\ _tv w' k i = [] /\
  forall x, pending w' x <-> pending w x.
Proof.
  intros Hk HT Hi. revert w. induction m as [|m IH]; intros w Hc Hm Hlen; simpl.
  { apply nil_length_inv in Hlen. by split_and!. }
  destruct (_tv w k i) as [|n rest] eqn:Hslot; [done|]. injection Hlen as Hlen.
  destruct (Add_then_erase st T k i n rest w Hk HT Hi Hc Hm Hslot) as (H1 & H2 & H3 & H4).
  destruct (IH _ H2 H1 ltac:(by rewrite H3)) as (H5 & H6 & H7 & H8).
  split_and!; try done. intros x. by rewrite H8.
Qed.

Lemma Cascade_spec st T k w :
  upper_level k -> T mod 2 ^ lvl_bits k = 0 -> _currentTick w = T mod 2 ^ 32 ->
  mid_inv st T (k - 1) w ->
  let w' := Cascade st k ((T / 2 ^ lvl_bits k) mod 64) w in
  mid_inv st T k w' /\ _currentTick w' = T mod 2 ^ 32 /\ (forall x, pending w' x <-> pending w x).
Proof.
  intros Hk HT Hc Hm. set (i := (T / 2 ^ lvl_bits k) mod 64).
  destruct (Cascade_loop_spec st T k i _ w Hk HT eq_refl Hc Hm eq_refl) as ([Hw Hl] & ? & Hs & ?).
  unfold Cascade. split_and!; try done. split; [done|].
  intros k1 i1 x Hx Hk1. destruct (decide (k1 = k)) as [->|]; [|eapply Hl; [done|lia]].
  assert (i1 <> i) as Hne by (intros ->; rewrite Hs in Hx; by apply elem_of_nil in Hx).
  destruct (wi_slot _ _ _ Hw _ _ _ Hx) as [(-> & _)|(_ & Hi1 & HB)]; [unfold upper_level in Hk; lia|].
  set (D := due _ _) in *. clearbody D.
  destruct (decide (block_start k D = T)) as [E|]; [|lia].
  exfalso. apply Hne. rewrite Hi1. unfold i, block_start in *. clear - E Hk.
  level_cases Hk; lia.
Qed.

(** A level whose block boundary is not at [T] has nothing to cascade at [T]. *)
Lemma no_cascade st T k w :
  upper_level k -> T mod 2 ^ lvl_bits k <> 0 -> mid_inv st T (k - 1) w -> mid_inv st T 5 w.
Proof.
  intros Hk HT [Hw Hl]. split; [done|]. intros k1 i1 x Hx Hk1.
  destruct (decide (k1 <= k - 1)%nat); [eapply Hl; [done|lia]|].
  destruct (wi_slot _ _ _ Hw _ _ _ Hx) as [(-> & _)|(_ & _ & HB)]; [lia|].
  unfold block_start in *. set (D := due _ _) in *. clearbody D.
  level_cases Hk; assert (upper_level k1) as Hk1' by (unfold upper_level; lia);
    level_cases Hk1'; lia.
Qed.

Lemma cascades_spec st T w :
  _currentTick w = T mod 2 ^ 32 -> mid_inv st T 1 w ->
  mid_inv st T 5 (cascades st w) /\ _currentTick (cascades st w) = T mod 2 ^ 32 /\
  forall x, pending (cascades st w) x <-> pending w x.
Proof.
  intros Hc Hm. unfold cascades. rewrite Hc. wheel_consts.
  assert (forall b, 0 <= b <= 26 -> Z.land (Z.shiftr (T mod 2 ^ 32) b) 63 = (T / 2 ^ b) mod 64) as Hi.
  { intros b Hb. rewrite land_63, shiftr_bits by lia. apply slot_index_cong; [lia|].
    apply Z.mod_mod. lia. }
  rewrite land_255, !Hi by lia.
  replace ((T mod 2 ^ 32) mod 256) with (T mod 256) by lia.
  destruct (T mod 256 =? 0) eqn:E2; bool_to_prop;
    [|split_and!; [apply (no_cascade st T 2); [lvl|done|done]|done|done]].
  destruct (Cascade_spec st T 2 w) as (Hm2 & Hc2 & Hp2); [lvl|done|done|done|].
  change (lvl_bits 2) with 8 in *. set (w2 := Cascade st 2 _ w) in *.
  destruct ((T / 2 ^ 8) mod 64 =? 0) eqn:E3; bool_to_prop;
    [|split_and!; try done; apply (no_cascade st T 3); [lvl|simpl; lia|done]].
  destruct (Cascade_spec st T 3 w2) as (Hm3 & Hc3 & Hp3); [lvl|simpl; lia|done|done|].
  change (lvl_bits 3) with 14 in *. set (w3 := Cascade st 3 _ w2) in *.
  destruct ((T / 2 ^ 14) mod 64 =? 0) eqn:E4; bool_to_prop;
    [|split_and!; [apply (no_cascade st T 4); [lvl|simpl; lia|done]|done|
      intros x; by rewrite Hp3]].
  destruct (Cascade_spec st T 4 w3) as (Hm4 & Hc4 & Hp4); [lvl|simpl; lia|done|done|].
  change (lvl_bits 4) with 20 in *. set (w4 := Cascade st 4 _ w3) in *.
  destruct ((T / 2 ^ 20) mod 64 =? 0) eqn:E5; bool_to_prop;
    [|split_and!; [apply (no_cascade st T 5); [lvl|simpl; lia|done]|done|
      intros x; by rewrite Hp4, Hp3]].
  destruct (Cascade_spec st T 5 w4) as (Hm5 & Hc5 & Hp5); [lvl|simpl; lia|done|done|].
  split_and!; try done. intros x. by rewrite Hp5, Hp4, Hp3.
Qed.

Lemma due_step T e : due (T - 1) e <> T -> due T e = due (T - 1) e.
Proof. unfold due. lia. Qed.

Lemma due_now T e : 0 <= e < 2 ^ 32 -> due (T - 1) e = T <-> e = T mod 2 ^ 32.
Proof. unfold due. lia. Qed.

Lemma slot_ok_next T k i D :
  slot_ok (T - 1) k i D -> (k = 1%nat -> D <> T) -> (upper_level k -> T < block_start k D) ->
  slot_ok T k i D.
Proof.
  intros [(-> & Hi & Hd)|(Hk & Hi & Hd)] H1 H2.
  - specialize (H1 eq_refl). left. lia.
  - specialize (H2 Hk). right. split_and!; try done; lia.
Qed.

(** ** Main lemmas on one operation *)

Lemma Add_spec st A n w :
  _currentTick w = A mod 2 ^ 32 -> wheel_inv st A w -> ~ pending w n ->
  expiryTick (st !!! n) mod 2 ^ 32 <> A mod 2 ^ 32 ->
  wheel_inv st A (Add st n w) /\ _currentTick (Add st n w) = _currentTick w /\
  forall x, pending (Add st n w) x <-> x = n \/ pending w x.
Proof.
  intros Hc Hi Hn He. destruct (Add_place st n w A Hc) as (k & i & -> & Hp).
  assert (due (A - 1) (expiryTick (st !!! n)) <> A) as Hd.
  { intros E. apply He. rewrite <- (due_mod (A - 1)), E. done. }
  split_and!; [|done|apply pending_push_back].
  apply push_back_inv; [done|done|]. rewrite due_step by done.
  eapply placed_slot_ok; [done| |lia].
  pose proof (due_range (A - 1) (expiryTick (st !!! n))). lia.
Qed.

Lemma Advance_spec st A w :
  wheel_inv st A w -> (forall n, 0 <= expiryTick (st !!! n) < 2 ^ 32) ->
  let r := Advance st ((A + 1) mod 2 ^ 32) w in
  wheel_inv st (A + 1) r.2 /\ _currentTick r.2 = (A + 1) mod 2 ^ 32 /\ NoDup r.1 /\
  (forall n, n ∈ r.1 <-> pending w n /\ expiryTick (st !!! n) = (A + 1) mod 2 ^ 32 /\
     cancelled (st !!! n) = false) /\
  (forall n, pending r.2 n <-> pending w n /\ expiryTick (st !!! n) <> (A + 1) mod 2 ^ 32).
Proof.
  intros Hi He r. set (T := A + 1) in *. replace A with (T - 1) in Hi by lia.
  set (w0 := mkWheel (T mod 2 ^ 32) (_tv w)).
  destruct (cascades_spec st T w0) as ([Hw Hl] & Hc & Hp); [done|split; [|lia]|].
  { by destruct Hi as [? ? ?]. }
  assert (Z.land (T mod 2 ^ 32) TVR_MASK = T mod 256) as Hix.
  { wheel_consts. rewrite land_255. lia. }
  unfold r, Advance. fold w0. rewrite Hix. cbn [fst snd]. set (w5 := cascades st w0) in *.
  assert (forall k i n, n ∈ _tv w5 k i ->
    ((k, i) = (1%nat, T mod 256) <-> expiryTick (st !!! n) = T mod 2 ^ 32)) as Hhere.
  { intros k i n Hn. rewrite <- (due_now T) by apply He. pose proof (wi_slot _ _ _ Hw _ _ _ Hn) as Hs.
    split.
    - intros [= -> ->]. destruct Hs as [(_ & ? & ?)|(Hk & _)]; [lia|unfold upper_level in Hk; lia].
    - intros E. destruct Hs as [(-> & -> & ?)|(Hk & _ & _)]; [by rewrite E|].
      pose proof (block_start_bound k (due (T - 1) (expiryTick (st !!! n))) Hk).
      unfold upper_level in Hk. specialize (Hl k i n Hn ltac:(lia)). lia. }
  split_and!.
  - assert (wheel_inv st (T - 1) (set_slot 1 (T mod 256) [] w5)) as Hs.
    { apply shrink_slot_inv; [done|apply NoDup_nil_2|]. by intros x ?%elem_of_nil. }
    split; [|apply Hs|apply Hs]. intros k i n Hn.
    pose proof (wi_slot _ _ _ Hs _ _ _ Hn) as Hok.
    apply elem_set_slot in Hn as [[_ Hn]|[Hne Hn]]; [by apply elem_of_nil in Hn|].
    assert (due (T - 1) (expiryTick (st !!! n)) <> T) as Hd.
    { rewrite (due_now T) by apply He. intros E. by apply Hne, (Hhere k i n Hn). }
    rewrite due_step by done. apply slot_ok_next; [done|done|].
    intros Hk. eapply Hl; [done|]. unfold upper_level in Hk. lia.
  - done.
  - apply NoDup_filter, (wi_nodup _ _ _ Hw).
  - intros n. rewrite list_elem_of_filter. split.
    + intros [Hcn Hn]. split_and!; [|by apply (Hhere _ _ _ Hn)|done].
      assert (pending w5 n) as Hpn by (by exists 1%nat, (T mod 256)). by apply Hp in Hpn.
    + intros (Hpn & E & Hcn). split; [done|].
      assert (pending w5 n) as (k & i & Hn) by by apply Hp.
      by apply (Hhere k i n Hn) in E as [= -> ->].
  - intros n. split.
    + intros (k & i & [[_ Hn]|[Hne Hn]]%elem_set_slot); [by apply elem_of_nil in Hn|].
      split; [|intros E; by apply Hne, (Hhere k i n Hn)].
      assert (pending w5 n) as Hpn by (by exists k, i). by apply Hp in Hpn.
    + intros [Hpn E]. assert (pending w5 n) as (k & i & Hn) by by apply Hp.
      exists k, i. apply elem_set_slot. right. split; [|done].
      intros Hk. by apply E, (Hhere k i n Hn).
Qed.

Lemma new_wheel_inv st : wheel_inv st 0 TimingWheel_new.
Proof.
  split.
  - by intros k i n ?%elem_of_nil.
  - intros k i. apply NoDup_nil_2.
  - by intros k i k' i' n ?%elem_of_nil.
Qed.

Lemma Cascade_loop_nil fuel st k i w : _tv w k i = [] -> Cascade_loop fuel st k i w = w.
Proof. intros E. destruct fuel; simpl; [done|]. by rewrite E. Qed.

Lemma Cascade_loop_more st k i m w extra :
  _tv (Cascade_loop m st k i w) k i = [] ->
  Cascade_loop (m + extra) st k i w = Cascade_loop m st k i w.
Proof.
  revert w; induction m as [|m IH]; intros w; simpl.
  - apply Cascade_loop_nil.
  - destruct (_tv w k i); [done|]. apply IH.
Qed.

(** [ticks st j A w]: the wheel after [j] consecutive [Advance] calls, the first
    one for tick [A + 1]. *)
Fixpoint ticks (st : gmap Z Node) (j : nat) (A : Z) (w : TimingWheel) : TimingWheel :=
  match j with
  | O => w
  | S j' => (Advance st ((A + Z.of_nat j) mod 2 ^ 32) (ticks st j' A w)).2
  end.

(** What the [j]-th of those calls ([j >= 1]) delivers. *)
Definition delivered (st : gmap Z Node) (j : nat) (A : Z) (w : TimingWheel) : list Z :=
  (Advance st ((A + Z.of_nat j) mod 2 ^ 32) (ticks st (pred j) A w)).1.

Lemma ticks_inv st j A w :
  wheel_inv st A w -> (forall n, 0 <= expiryTick (st !!! n) < 2 ^ 32) ->
  wheel_inv st (A + Z.of_nat j) (ticks st j A w).
Proof.
  intros Hi He. induction j as [|j IH]; [by rewrite Z.add_0_r|].
  destruct (Advance_spec st (A + Z.of_nat j) _ IH He) as (H & _).
  replace (A + Z.of_nat j + 1) with (A + Z.of_nat (S j)) in H by lia. exact H.
Qed.

Lemma ticks_pending st j A w n :
  wheel_inv st A w -> (forall n, 0 <= expiryTick (st !!! n) < 2 ^ 32) ->
  pending (ticks st j A w) n <->
  pending w n /\ A + Z.of_nat j < due A (expiryTick (st !!! n)).
Proof.
  intros Hi He. induction j as [|j IH].
  { simpl. pose proof (due_range A (expiryTick (st !!! n))). split; [|tauto]. intros. split; [done|lia]. }
  destruct (Advance_spec st (A + Z.of_nat j) _ (ticks_inv st j A w Hi He) He) as (_ & _ & _ & _ & H).
  replace (A + Z.of_nat j + 1) with (A + Z.of_nat (S j)) in H by lia.
  cbn [ticks]. rewrite H, IH. specialize (He n). set (e := expiryTick (st !!! n)) in *.
  pose proof (due_mod A e) as Hm. rewrite (Z.mod_small e) in Hm by lia.
  pose proof (due_range A e) as Hr. set (D := due A e) in *. clearbody D e. split.
  - intros [[Hp Hlt] Hne]. split; [done|]. lia.
  - intros [Hp Hlt]. split_and!; [done|lia|lia].
Qed.

(** ** Properties *)

(** C6: One Advance implements the abstract pending set: it delivers exactly the
    pending, not cancelled nodes whose expiry is the new tick, each once, drops
    exactly the nodes due now from the wheel, and keeps all others, whatever
    level they are stored in and across the 32-bit wrap of the tick counter. *)
Theorem Advance_delivers_exactly_due st A w
  (Hinv : wheel_inv st A w) (Hexp : forall n, 0 <= expiryTick (st !!! n) < 2 ^ 32) :
  let r := Advance st ((A + 1) mod 2 ^ 32) w in
  wheel_inv st (A + 1) r.2 /\ NoDup r.1 /\
  (forall n, n ∈ r.1 <-> pending w n /\ expiryTick (st !!! n) = (A + 1) mod 2 ^ 32 /\
     cancelled (st !!! n) = false) /\
  (forall n, pending r.2 n <-> pending w n /\ expiryTick (st !!! n) <> (A + 1) mod 2 ^ 32).
Proof.
  destruct (Advance_spec st A w Hinv Hexp) as (H1 & _ & H2 & H3 & H4). by split_and!.
Qed.

(** A timer node added with a delay of [d] ticks, [0 < d < 2^32], is
    delivered by the [d]-th following Advance and by none of the earlier ones. *)
Theorem node_fires_exactly_on_time st A w n (d : nat)
  (Htick : _currentTick w = A mod 2 ^ 32) (Hinv : wheel_inv st A w)
  (Hexp : forall n, 0 <= expiryTick (st !!! n) < 2 ^ 32)
  (Hnew : ~ pending w n) (Hd : 0 < Z.of_nat d < 2 ^ 32)
  (Hn : expiryTick (st !!! n) = (A + Z.of_nat d) mod 2 ^ 32)
  (Hlive : cancelled (st !!! n) = false) :
  forall j, (1 <= j <= d)%nat -> (n ∈ delivered st j A (Add st n w) <-> j = d).
Proof.
  intros j Hj.
  assert (expiryTick (st !!! n) mod 2 ^ 32 <> A mod 2 ^ 32) as Hne by (rewrite Hn; lia).
  destruct (Add_spec st A n w Htick Hinv Hnew Hne) as (Hi1 & _ & Hp).
  assert (due A (expiryTick (st !!! n)) = A + Z.of_nat d) as Hdue.
  { apply due_unique; [lia|]. rewrite Hn. rewrite Z.mod_mod by lia. done. }
  destruct j as [|j]; [lia|]. unfold delivered. cbn [pred].
  destruct (Advance_spec st (A + Z.of_nat j) _ (ticks_inv st j A _ Hi1 Hexp) Hexp)
    as (_ & _ & _ & H & _).
  replace (A + Z.of_nat j + 1) with (A + Z.of_nat (S j)) in H by lia.
  rewrite H, ticks_pending, Hp, Hdue, Hn by done. split.
  - intros (_ & E & _). lia.
  - intros <-. split_and!; [by left|lia|done|done].
Qed.

(** Cascading a bucket terminates: at a block boundary, as many iterations
    as the bucket has nodes empty it (no node is put back into the bucket being
    walked), further iterations change nothing, and no node is lost. *)
Theorem Cascade_terminates st T k w
  (Hk : upper_level k) (HT : T mod 2 ^ lvl_bits k = 0)
  (Htick : _currentTick w = T mod 2 ^ 32) (Hinv : wheel_inv st (T - 1) w)
  (Hlow : forall k' i n, n ∈ _tv w k' i -> (2 <= k' < k)%nat ->
     T < block_start k' (due (T - 1) (expiryTick (st !!! n)))) :
  let i := (T / 2 ^ lvl_bits k) mod 64 in
  _tv (Cascade st k i w) k i = [] /\
  (forall extra, Cascade_loop (length (_tv w k i) + extra) st k i w = Cascade st k i w) /\
  forall n, pending (Cascade st k i w) n <-> pending w n.
Proof.
  intros i. assert (mid_inv st T (k - 1) w) as Hm.
  { split; [done|]. intros k' i' n Hn ?. eapply Hlow; [done|]. lia. }
  destruct (Cascade_loop_spec st T k i _ w Hk HT eq_refl Htick Hm eq_refl) as (_ & _ & Hs & Hp).
  unfold Cascade. split_and!; [done| |done]. intros extra. by apply Cascade_loop_more.
Qed.

(** The branch of Add for already expired nodes is dead: a node whose expiry
    lies just behind the current tick is filed in the topmost level, never in the
    next slot. *)
Theorem Add_expired_goes_to_level5 st n w (late : Z)
  (Htick : 0 <= _currentTick w < 2 ^ 32) (Hlate : 1 <= late <= 2 ^ 31)
  (Hn : expiryTick (st !!! n) = (_currentTick w - late) mod 2 ^ 32) :
  exists i, Add st n w = push_back 5 i n w.
Proof.
  unfold Add. assert (wrap 32 (expiryTick (st !!! n) - _currentTick w) = 2 ^ 32 - late) as ->.
  { rewrite Hn. unfold wrap. lia. }
  wheel_consts. rewrite !(proj2 (Z.ltb_ge _ _)) by lia. rewrite swrap_small by lia.
  rewrite (proj2 (Z.ltb_ge _ _)) by lia. eauto.
Qed.

(** ** Witnesses *)

(** A store with one node of expiry 300 (and the default node elsewhere). *)
Definition store1 : gmap Z Node :=
  {[ 5 := mkNode 5 1 None 300 0 (Some 9) None false false ]}.

Lemma store1_exp n : 0 <= expiryTick (store1 !!! n) < 2 ^ 32.
Proof.
  unfold store1. rewrite lookup_total_alt, lookup_singleton. case_decide; simpl; lia.
Qed.

Lemma store1_not_pending n : ~ pending TimingWheel_new n.
Proof. by intros (k & i & ?%elem_of_nil). Qed.

Lemma Advance_delivers_exactly_due_witness :
  wheel_inv store1 1 (Advance store1 1 (Add store1 5 TimingWheel_new)).2 /\
  pending (Advance store1 1 (Add store1 5 TimingWheel_new)).2 5.
Proof.
  destruct (Add_spec store1 0 5 TimingWheel_new) as (Hi & _ & Hp);
    [reflexivity|apply new_wheel_inv|apply store1_not_pending|vm_compute; discriminate|].
  destruct (Advance_delivers_exactly_due store1 0 (Add store1 5 TimingWheel_new) Hi store1_exp)
    as (H1 & _ & _ & H2).
  split; [exact H1|]. apply (H2 5). split; [apply Hp; by left|]. vm_compute. discriminate.
Defined.

Lemma node_fires_exactly_on_time_witness :
  5 ∈ delivered store1 300 0 (Add store1 5 TimingWheel_new).
Proof.
  apply (node_fires_exactly_on_time store1 0 TimingWheel_new 5 300); try done.
  - apply new_wheel_inv.
  - apply store1_exp.
  - apply store1_not_pending.
  - lia.
Defined.

Lemma Cascade_terminates_witness :
  let w := mkWheel 256 (_tv (Add store1 5 TimingWheel_new)) in
  _tv w 2%nat 1 = [5] /\ _tv (Cascade store1 2 1 w) 2%nat 1 = [].
Proof.
  intros w. split; [reflexivity|].
  destruct (Add_spec store1 0 5 TimingWheel_new) as (Hi & _ & Hp);
    [reflexivity|apply new_wheel_inv|apply store1_not_pending|vm_compute; discriminate|].
  refine (proj1 (Cascade_terminates store1 256 2 w _ _ _ _ _)).
  - unfold upper_level. lia.
  - reflexivity.
  - reflexivity.
  - split; [|apply (wi_nodup _ _ _ Hi)|apply (wi_uniq _ _ _ Hi)].
    intros k i n Hn. destruct (wi_slot _ _ _ Hi k i n Hn) as [(-> & _)|(Hk & Hix & HB)].
    + exfalso. unfold w in Hn. cbn [_tv] in Hn. assert (_tv (Add store1 5 TimingWheel_new) 1%nat i = []) as E by reflexivity.
      rewrite E in Hn. by apply elem_of_nil in Hn.
    + right. assert (n = 5) as -> by (destruct (proj1 (Hp n)) as [->|[? [? ?%elem_of_nil]]]; [by exists k, i|done|done]).
      change (due (256 - 1) (expiryTick (store1 !!! 5))) with 300.
      change (due 0 (expiryTick (store1 !!! 5))) with 300 in *. unfold block_start in *.
      level_cases Hk; split_and!; try done; try lvl; simpl in *; lia.
  - intros k' i n Hn Hk'. lia.
Defined.

Lemma Add_expired_goes_to_level5_witness :
  exists i, Add (<[5 := mkNode 5 1 None 99 0 None None false false]> store1) 5
    (mkWheel 100 (fun _ _ => [])) = push_back 5 i 5 (mkWheel 100 (fun _ _ => [])).
Proof.
  apply (Add_expired_goes_to_level5 _ 5 (mkWheel 100 (fun _ _ => [])) 1); simpl; [lia|lia|reflexivity].
Defined.
