(* ===== verification/Timer.v ===== *)
(** * Timer: the timer service on top of the wheel

    Models src/System/Timer/TimerImpl.h and TimerImpl.cpp.  The thread-safe half
    ([SetTimer], [SetInterval], [CancelTimer], [Unregister]) allocates a message
    and posts it through the [IDispatcher] interface; the logic-thread half
    ([OnTimerAdd], [OnTimerCancel], [OnTimerExpired], [OnTick]) owns the maps, the
    node store and the wheel.

    A listener is an object identity ([Z]); which listeners are still alive when
    a [weak_ptr] is inspected is given by a predicate [alive].  Calls of
    [ITimerListener::OnTimer] are recorded, in order, as [TimerCall] events; a
    listener can only react by posting further messages, which the logic thread
    handles after the current tick. *)

From stdpp Require Import base numbers gmap functions list.
From S2P Require Import Prelude ConcurrentQueue Messages MessagePool TimingWheel.

(** [IDispatcher::Post], as far as the timer uses the dispatcher. *)
Class IDispatcher (W : Type) := Post : Z -> W -> W.

Definition TICK_INTERVAL_MS : Z := 10.

Record TimerImpl := mkTimer {
  _nextTimerId : Z;
  _timers : gmap Z Z;
  _listenerMap : list (option Z * Z);
  _wheel : TimingWheel;
  _tick : Z;
  nodes : gmap Z Node;
  nextNode : Z
}.

Definition TimerImpl_new : TimerImpl := mkTimer 1 ∅ [] TimingWheel_new 0 ∅ 1.

(** [listener->OnTimer(logicTimerId, pParam)] for the timer [tc_timer], through
    the weak pointer or through the raw one. *)
Record TimerCall := mkCall {
  call_timer : Z;
  call_listener : Z;
  call_weak : bool;
  call_logicId : Z;
  call_param : option Z
}.

(** ** Producers (any thread) *)

Section Producers.
Context {Q : Type -> Type} `{!ConcurrentQueue Q} {T : Type} {W : Type} `{!IDispatcher W}.
Context (sizeofPM : Z).

Definition take_id (s : TimerImpl) : Z * TimerImpl :=
  (_nextTimerId s,
   mkTimer (u64 (_nextTimerId s + 1)) (_timers s) (_listenerMap s) (_wheel s) (_tick s)
     (nodes s) (nextNode s)).

(** The common body of the four overloads: take an id, allocate the message,
    fill it, post it, return the id. *)
Definition post_add (tid : nat) (mk : Z -> TimerAddMessage)
    (st : TimerImpl * Mem Q T * W) : Z * (TimerImpl * Mem Q T * W) :=
  let '(s, m, w) := st in
  let '(i, s) := take_id s in
  let '(msg, m) := AllocateTimerAdd sizeofPM tid (mk i) m in
  (i, (s, m, Post msg w)).

Definition SetTimer (tid : nat) (timerId delayMs : Z) (listener pParam : option Z) :=
  post_add tid (fun i => mkTimerAdd i timerId delayMs false listener None pParam).

(** The weak overloads also store the raw pointer obtained by locking. *)
Definition lock (alive : Z -> bool) (weak : option Z) : option Z :=
  match weak with Some l => if alive l then Some l else None | None => None end.

Definition SetTimer_weak (alive : Z -> bool) (tid : nat) (timerId delayMs : Z)
    (listener pParam : option Z) :=
  post_add tid (fun i => mkTimerAdd i timerId delayMs false (lock alive listener) listener pParam).

Definition SetInterval (tid : nat) (timerId intervalMs : Z) (listener pParam : option Z) :=
  post_add tid (fun i => mkTimerAdd i timerId intervalMs true listener None pParam).

Definition SetInterval_weak (alive : Z -> bool) (tid : nat) (timerId intervalMs : Z)
    (listener pParam : option Z) :=
  post_add tid (fun i => mkTimerAdd i timerId intervalMs true (lock alive listener) listener pParam).

Definition post_cancel (tid : nat) (c : TimerCancelMessage) (st : TimerImpl * Mem Q T * W) :
    TimerImpl * Mem Q T * W :=
  let '(s, m, w) := st in
  let '(msg, m) := AllocateTimerCancel sizeofPM tid c m in
  (s, m, Post msg w).

Definition CancelTimer (tid : nat) (handle : Z) := post_cancel tid (mkTimerCancel handle None).

Definition Unregister (tid : nat) (listener : option Z) := post_cancel tid (mkTimerCancel 0 listener).

End Producers.

(** ** Consumers (logic thread) *)

Definition set_nodes (st : gmap Z Node) (s : TimerImpl) : TimerImpl :=
  mkTimer (_nextTimerId s) (_timers s) (_listenerMap s) (_wheel s) (_tick s) st (nextNode s).

Definition set_wheel (w : TimingWheel) (s : TimerImpl) : TimerImpl :=
  mkTimer (_nextTimerId s) (_timers s) (_listenerMap s) w (_tick s) (nodes s) (nextNode s).

Definition OnTimerAdd (alive : Z -> bool) (msg : TimerAddMessage) (s : TimerImpl) : TimerImpl :=
  let t := ta_intervalMs msg / TICK_INTERVAL_MS in
  let ticks := if t =? 0 then 1 else t in
  let weak := lock alive (ta_weakListener msg) in
  let node := mkNode (ta_timerId msg) (ta_logicTimerId msg) (ta_pParam msg)
    (_tick s +32 ticks) (if ta_isInterval msg then ticks else 0)
    (ta_listener msg) weak (match weak with Some _ => true | None => false end) false in
  let n := nextNode s in
  let st := <[n := node]> (nodes s) in
  mkTimer (_nextTimerId s) (<[id node := n]> (_timers s))
    (_listenerMap s ++ [(rawListener node, id node)]) (Add st n (_wheel s)) (_tick s) st (n + 1).

(** Erasing the entry [(listener, timerId)] from the multimap, and the timer from
    the map: the cleanup loop that appears in every removal path. *)
Definition clean_maps (listener : option Z) (timerId : Z) (s : TimerImpl) : TimerImpl :=
  mkTimer (_nextTimerId s) (delete timerId (_timers s))
    (filter (fun e => ~ (e.1 = listener /\ e.2 = timerId)) (_listenerMap s))
    (_wheel s) (_tick s) (nodes s) (nextNode s).

Definition OnTimerCancel (msg : TimerCancelMessage) (s : TimerImpl) : TimerImpl :=
  if negb (tc_timerId msg =? 0) then
    match _timers s !! tc_timerId msg with
    | None => s
    | Some n =>
        clean_maps (rawListener (nodes s !!! n)) (tc_timerId msg)
          (set_nodes (alter cancel_node n (nodes s)) s)
    end
  else
    match tc_listener msg with
    | None => s
    | Some _ =>
        let idsToRemove := (filter (fun e => e.1 = tc_listener msg) (_listenerMap s)).*2 in
        mkTimer (_nextTimerId s) (foldl (fun t i => delete i t) (_timers s) idsToRemove)
          (filter (fun e => ~ e.1 = tc_listener msg) (_listenerMap s))
          (_wheel s) (_tick s) (nodes s) (nextNode s)
    end.

Definition bump_expiry (nd : Node) : Node :=
  mkNode (id nd) (logicTimerId nd) (pParam nd) (expiryTick nd +32 intervalTick nd)
    (intervalTick nd) (rawListener nd) (weakListener nd) (useWeak nd) (cancelled nd).

(** The tail of [OnTimerExpired]: reschedule an interval or drop a one-shot. *)
Definition finish_timer (timerId n : Z) (s : TimerImpl) : TimerImpl :=
  let node := nodes s !!! n in
  if 0 <? intervalTick node then
    let st := alter bump_expiry n (nodes s) in
    set_wheel (Add st n (_wheel s)) (set_nodes st s)
  else clean_maps (rawListener node) timerId s.

Definition OnTimerExpired (alive : Z -> bool) (timerId : Z) (s : TimerImpl) :
    list TimerCall * TimerImpl :=
  match _timers s !! timerId with
  | None => ([], s)
  | Some n =>
      let node := nodes s !!! n in
      if cancelled node then ([], clean_maps (rawListener node) timerId s)
      else if useWeak node then
        match lock alive (weakListener node) with
        | Some ptr =>
            ([mkCall timerId ptr true (logicTimerId node) (pParam node)], finish_timer timerId n s)
        | None =>
            ([], clean_maps (rawListener node) timerId (set_nodes (Remove n (nodes s)) s))
        end
      else
        (match rawListener node with
         | Some l => [mkCall timerId l false (logicTimerId node) (pParam node)]
         | None => []
         end, finish_timer timerId n s)
  end.

(** The loop over the expired nodes. *)
Fixpoint expire_all (alive : Z -> bool) (expired : list Z) (s : TimerImpl) :
    list TimerCall * TimerImpl :=
  match expired with
  | [] => ([], s)
  | n :: rest =>
      let '(c1, s1) := OnTimerExpired alive (id (nodes s !!! n)) s in
      let '(c2, s2) := expire_all alive rest s1 in
      (c1 ++ c2, s2)
  end.

Definition OnTick (alive : Z -> bool) (s : TimerImpl) : list TimerCall * TimerImpl :=
  let t := _tick s +32 1 in
  let '(expired, w) := Advance (nodes s) t (_wheel s) in
  expire_all alive expired
    (mkTimer (_nextTimerId s) (_timers s) (_listenerMap s) w t (nodes s) (nextNode s)).

(** [ScheduleTick]: the next expiry of the asio timer, in milliseconds on the
    steady clock. *)
Definition ScheduleTick (now expiry : Z) : Z :=
  if expiry <? now - 60 * 60 * 1000 then now + TICK_INTERVAL_MS else expiry + TICK_INTERVAL_MS.

(** ** Abstract view and invariant *)

#[local] Ltac Zify.zify_post_hook ::= Z.div_mod_to_equations.

(** The registered timers, by id. *)
Definition view (s : TimerImpl) (i : Z) : option Node := n ← _timers s !! i; nodes s !! n.

(** What becomes of a due timer, and the listener call it makes. *)
Definition weak_dead (alive : Z -> bool) (nd : Node) : bool :=
  useWeak nd && match lock alive (weakListener nd) with Some _ => false | None => true end.

Definition fire_result (alive : Z -> bool) (nd : Node) : option Node :=
  if weak_dead alive nd then None
  else if 0 <? intervalTick nd then Some (bump_expiry nd) else None.

Definition fire_calls (alive : Z -> bool) (nd : Node) : list TimerCall :=
  if useWeak nd then
    match lock alive (weakListener nd) with
    | Some p => [mkCall (id nd) p true (logicTimerId nd) (pParam nd)]
    | None => []
    end
  else
    match rawListener nd with
    | Some l => [mkCall (id nd) l false (logicTimerId nd) (pParam nd)]
    | None => []
    end.

(** [core A rest s]: the service at logical tick [A], with the expired nodes
    [rest] still to be processed. *)
Record core (A : Z) (rest : list Z) (s : TimerImpl) : Prop := mk_core {
  co_tick : _tick s = A mod 2 ^ 32;
  co_wtick : _currentTick (_wheel s) = A mod 2 ^ 32;
  co_wheel : wheel_inv (nodes s) A (_wheel s);
  co_exp : forall n, 0 <= expiryTick (nodes s !!! n) < 2 ^ 32;
  co_dom : forall n, pending (_wheel s) n \/ n ∈ rest -> is_Some (nodes s !! n);
  co_alloc : forall n nd, nodes s !! n = Some nd -> n < nextNode s /\ 0 <= intervalTick nd < 2 ^ 32;
  co_ids : forall n1 n2 d1 d2, nodes s !! n1 = Some d1 -> nodes s !! n2 = Some d2 ->
    id d1 = id d2 -> n1 = n2;
  co_timers : forall i n, _timers s !! i = Some n -> exists nd, nodes s !! n = Some nd /\
    id nd = i /\ cancelled nd = false /\ (rawListener nd, i) ∈ _listenerMap s /\
    (pending (_wheel s) n \/ n ∈ rest);
  co_lmap : forall l i, (l, i) ∈ _listenerMap s -> exists n nd, _timers s !! i = Some n /\
    nodes s !! n = Some nd /\ rawListener nd = l;
  co_rest : NoDup rest /\ forall n, n ∈ rest ->
    ~ pending (_wheel s) n /\ expiryTick (nodes s !!! n) = A mod 2 ^ 32
}.

Definition timer_inv (A : Z) (s : TimerImpl) : Prop := core A [] s.

Lemma nodes_total (st : gmap Z Node) n nd : st !! n = Some nd -> st !!! n = nd.
Proof. intros H. by rewrite lookup_total_alt, H. Qed.

Lemma lookup_total_alter_ne (st : gmap Z Node) f n n' : n <> n' -> alter f n st !!! n' = st !!! n'.
Proof. intros H. by rewrite !lookup_total_alt, lookup_alter_ne. Qed.

(** The wheel only looks at the expiry of the nodes it holds. *)
Lemma wheel_inv_store st st' A w :
  wheel_inv st A w ->
  (forall n, pending w n -> expiryTick (st' !!! n) = expiryTick (st !!! n)) -> wheel_inv st' A w.
Proof.
  intros Hi H. split; [|apply Hi|apply Hi]. intros k i n Hn.
  rewrite H by (by exists k, i). by apply (wi_slot _ _ _ Hi).
Qed.

Lemma view_Some s i nd : view s i = Some nd <-> exists n, _timers s !! i = Some n /\ nodes s !! n = Some nd.
Proof. unfold view. rewrite bind_Some. done. Qed.

Lemma elem_clean l i (lm : list (option Z * Z)) e :
  e ∈ filter (fun e => ~ (e.1 = l /\ e.2 = i)) lm <-> e ∈ lm /\ ~ (e.1 = l /\ e.2 = i).
Proof. rewrite list_elem_of_filter. tauto. Qed.

(** Dropping a registered timer from the maps. *)
Lemma clean_core A rest s i n nd :
  core A rest s -> _timers s !! i = Some n -> nodes s !! n = Some nd ->
  core A rest (clean_maps (rawListener nd) i s) /\
  forall j, _timers (clean_maps (rawListener nd) i s) !! j <> Some n.
Proof.
  intros Hc Hi Hn. split; [split; simpl; try apply Hc|].
  - intros j x [Hij Hj]%lookup_delete_Some.
    destruct (co_timers _ _ _ Hc j x Hj) as (d & H1 & H2 & H3 & H4 & H5).
    exists d. split_and!; try done. apply elem_clean. split; [done|]. simpl. intros [_ ->]. done.
  - intros l j [Hlj Hne]%elem_clean. simpl in Hne.
    destruct (co_lmap _ _ _ Hc l j Hlj) as (x & d & H1 & H2 & H3).
    exists x, d. split_and!; try done. apply lookup_delete_Some. split; [|done].
    intros ->. rewrite Hi in H1. simplify_eq. tauto.
  - intros j. simpl. intros [Hij Hj]%lookup_delete_Some.
    destruct (co_timers _ _ _ Hc i n Hi) as (d1 & ? & ? & _).
    destruct (co_timers _ _ _ Hc j n Hj) as (d2 & ? & ? & _). congruence.
Qed.

(** An expired node that is not registered needs no processing. *)
Lemma core_skip A n rest s : core A (n :: rest) s ->
  (forall i, _timers s !! i <> Some n) -> core A rest s.
Proof.
  intros Hc Hno. pose proof (co_rest _ _ _ Hc) as [Hnd Hr]. apply NoDup_cons in Hnd as [Hnr Hnd].
  split; try apply Hc.
  - intros x [?|?]; apply (co_dom _ _ _ Hc); [by left|right; by right].
  - intros j x Hj. destruct (co_timers _ _ _ Hc j x Hj) as (d & H1 & H2 & H3 & H4 & H5).
    exists d. split_and!; try done. destruct H5 as [?|H5]; [by left|right].
    apply elem_of_cons in H5 as [->|]; [|done]. by apply Hno in Hj.
  - split; [done|]. intros x Hx. apply Hr. by right.
Qed.

(** Marking a node that is not registered. *)
Lemma mark_core A rest s n :
  core A rest s -> (forall i, _timers s !! i <> Some n) ->
  core A rest (set_nodes (alter cancel_node n (nodes s)) s).
Proof.
  intros Hc Hno.
  assert (forall x nd, alter cancel_node n (nodes s) !! x = Some nd -> exists nd0,
    nodes s !! x = Some nd0 /\ id nd = id nd0 /\ intervalTick nd = intervalTick nd0) as Hold.
  { intros x nd. rewrite lookup_alter. case_decide; [subst|by eauto].
    destruct (nodes s !! x); simpl; [|done]. intros [= <-]. by eauto. }
  assert (forall x, expiryTick (alter cancel_node n (nodes s) !!! x) = expiryTick (nodes s !!! x)) as He.
  { intros x. rewrite !lookup_total_alt, lookup_alter. case_decide; [subst|done].
    by destruct (nodes s !! x). }
  split; simpl; try apply Hc.
  - eapply wheel_inv_store; [apply Hc|]. intros x _. apply He.
  - intros x. rewrite He. apply Hc.
  - intros x Hx. apply (co_dom _ _ _ Hc) in Hx as [nd Hx]. rewrite lookup_alter.
    case_decide; [subst|by eauto]. rewrite Hx. by eexists.
  - intros x nd (nd0 & H1 & _ & ->)%Hold. by apply (co_alloc _ _ _ Hc x).
  - intros n1 n2 d1 d2 (? & ? & E1 & _)%Hold (? & ? & E2 & _)%Hold E.
    eapply (co_ids _ _ _ Hc); [done|done|congruence].
  - intros i x Hx. destruct (co_timers _ _ _ Hc i x Hx) as (nd & ? & ?). exists nd.
    split; [|done]. rewrite lookup_alter_ne; [done|]. intros ->. by apply Hno in Hx.
  - intros l i (x & nd & H1 & H2 & H3)%(co_lmap _ _ _ Hc). exists x, nd. split_and!; try done.
    rewrite lookup_alter_ne; [done|]. intros ->. by apply Hno in H1.
  - split; [apply Hc|]. intros x Hx. rewrite He. by apply Hc.
Qed.

(** Rescheduling an expired interval timer. *)
Lemma reschedule_core A n rest s i nd :
  core A (n :: rest) s -> _timers s !! i = Some n -> nodes s !! n = Some nd ->
  0 < intervalTick nd ->
  core A rest (set_wheel (Add (alter bump_expiry n (nodes s)) n (_wheel s))
    (set_nodes (alter bump_expiry n (nodes s)) s)).
Proof.
  intros Hc Hi Hn Hint. pose proof (co_rest _ _ _ Hc) as [Hnd Hr]. apply NoDup_cons in Hnd as [Hnr Hnd].
  destruct (Hr n ltac:(left)) as [Hnp Hex]. rewrite (nodes_total _ _ _ Hn) in Hex.
  destruct (co_alloc _ _ _ Hc n nd Hn) as [Hlt Hrange].
  set (st := alter bump_expiry n (nodes s)).
  assert (st !! n = Some (bump_expiry nd)) as Hstn by (unfold st; rewrite lookup_alter_eq, Hn; done).
  assert (forall x, x <> n -> st !! x = nodes s !! x) as Hst by (intros; by apply lookup_alter_ne).
  assert (forall x, x <> n -> st !!! x = nodes s !!! x) as Hstt
    by (intros; by rewrite !lookup_total_alt, Hst).
  assert (wheel_inv st A (_wheel s)) as Hw.
  { eapply wheel_inv_store; [apply Hc|]. intros x Hx. rewrite Hstt; [done|]. by intros ->. }
  destruct (Add_spec st A n (_wheel s) (co_wtick _ _ _ Hc) Hw Hnp) as (Hw1 & Ht1 & Hp1).
  { rewrite (nodes_total _ _ _ Hstn). simpl. rewrite Hex. unfold wrap. lia. }
  assert (forall x nd', st !! x = Some nd' -> exists nd0,
    nodes s !! x = Some nd0 /\ id nd' = id nd0 /\ intervalTick nd' = intervalTick nd0) as Hold.
  { intros x nd'. destruct (decide (x = n)) as [->|]; [|rewrite Hst by done; by eauto].
    rewrite Hstn. intros [= <-]. by eauto. }
  split; simpl; try apply Hc.
  - by rewrite Ht1, (co_wtick _ _ _ Hc).
  - done.
  - intros x. destruct (decide (x = n)) as [->|]; [|rewrite Hstt by done; apply Hc].
    rewrite (nodes_total _ _ _ Hstn). simpl. unfold wrap. lia.
  - intros x Hx. destruct (decide (x = n)) as [->|]; [by eexists|]. rewrite Hst by done.
    apply (co_dom _ _ _ Hc). destruct Hx as [[|]%Hp1|]; [done|by left|right; by right].
  - intros x nd' (nd0 & H1 & _ & ->)%Hold. by apply (co_alloc _ _ _ Hc x).
  - intros n1 n2 d1 d2 (? & ? & E1 & _)%Hold (? & ? & E2 & _)%Hold E.
    eapply (co_ids _ _ _ Hc); [done|done|congruence].
  - intros j x Hx. destruct (co_timers _ _ _ Hc j x Hx) as (d & H1 & H2 & H3 & H4 & H5).
    destruct (decide (x = n)) as [->|Hne].
    + rewrite Hn in H1. simplify_eq. exists (bump_expiry d). split_and!; try done.
      left. apply Hp1. by left.
    + exists d. rewrite Hst by done. split_and!; try done.
      destruct H5 as [?|H5]; [left; apply Hp1; by right|right].
      by apply elem_of_cons in H5 as [->|].
  - intros l j (x & d & H1 & H2 & H3)%(co_lmap _ _ _ Hc).
    destruct (decide (x = n)) as [->|Hne].
    + rewrite Hn in H2. simplify_eq. by exists n, (bump_expiry d).
    + exists x, d. by rewrite Hst.
  - split; [done|]. intros x Hx. assert (x <> n) by (by intros ->). rewrite Hstt by done.
    destruct (Hr x ltac:(by right)) as [Hnx ?]. split; [|done]. by intros [|]%Hp1.
Qed.

(** What processing the node of timer [i0] does to the registry, when it leaves the state [s']
    and the timer [v]. *)
Definition processed (A : Z) (n : Z) (rest : list Z) (s s' : TimerImpl) (i0 : Z) (v : option Node) : Prop :=
  core A rest s' /\ (forall i, i <> i0 -> _timers s' !! i = _timers s !! i) /\
  (forall x, x <> n -> nodes s' !! x = nodes s !! x) /\ id (nodes s' !!! n) = i0 /\ view s' i0 = v.

(** Both firing branches end in [finish_timer]. *)
Lemma finish_timer_step alive A n rest s nd : core A (n :: rest) s -> nodes s !! n = Some nd ->
  _timers s !! id nd = Some n -> cancelled nd = false -> weak_dead alive nd = false ->
  processed A n rest s (finish_timer (id nd) n s) (id nd) (fire_result alive nd).
Proof.
  intros Hc Hn Ht Hcan Hwd. pose proof (nodes_total _ _ _ Hn) as Hnt.
  destruct (clean_core A _ s (id nd) n nd Hc Ht Hn) as [Hcl Hclno].
  unfold processed, finish_timer, fire_result. rewrite Hnt, Hwd.
  destruct (0 <? intervalTick nd) eqn:Hint; bool_to_prop; simpl.
  - split_and!; [by eapply reschedule_core|done| | |].
    + intros x Hx. by apply lookup_alter_ne.
    + rewrite lookup_total_alt, lookup_alter_eq, Hn. simpl. done.
    + apply view_Some. exists n. split; [done|]. simpl. by rewrite lookup_alter_eq, Hn.
  - split_and!; [by apply (core_skip A n)| |done|by rewrite Hnt|].
    + intros i Hi. simpl. by rewrite lookup_delete_ne.
    + unfold view. simpl. by rewrite lookup_delete_eq.
Qed.

(** A listener that is gone. *)
Lemma dead_listener_step alive A n rest s nd : core A (n :: rest) s -> nodes s !! n = Some nd ->
  _timers s !! id nd = Some n -> useWeak nd = true -> lock alive (weakListener nd) = None ->
  processed A n rest s (clean_maps (rawListener nd) (id nd) (set_nodes (Remove n (nodes s)) s)) (id nd) (fire_result alive nd).
Proof.
  intros Hc Hn Ht Hu Hl. destruct (clean_core A _ s (id nd) n nd Hc Ht Hn) as [Hcl Hclno].
  unfold processed, fire_result, weak_dead. rewrite Hu, Hl. simpl. split_and!.
  - apply (core_skip A n); [|apply Hclno]. exact (mark_core A _ _ n Hcl Hclno).
  - intros i Hi. by rewrite lookup_delete_ne.
  - intros x Hx. by apply lookup_alter_ne.
  - unfold Remove. rewrite lookup_total_alt, lookup_alter_eq, Hn. done.
  - unfold view. simpl. by rewrite lookup_delete_eq.
Qed.

(** One expired node: it is dropped from [rest]; the other timers do not change;
    its own timer, if still registered, goes through [fire_result]. *)
Lemma OnTimerExpired_step alive A n rest s :
  core A (n :: rest) s ->
  let i0 := id (nodes s !!! n) in
  let r := OnTimerExpired alive i0 s in
  core A rest r.2 /\
  (forall i, i <> i0 -> _timers r.2 !! i = _timers s !! i) /\
  (forall x, x <> n -> nodes r.2 !! x = nodes s !! x) /\
  id (nodes r.2 !!! n) = i0 /\
  view r.2 i0 = (nd ← view s i0; fire_result alive nd) /\
  r.1 = match view s i0 with Some nd => fire_calls alive nd | None => [] end.
Proof.
  intros Hc i0 r. destruct (co_dom _ _ _ Hc n) as [nd Hn]; [right; left|].
  pose proof (nodes_total _ _ _ Hn) as Hnt.
  unfold r, OnTimerExpired. destruct (_timers s !! i0) as [n'|] eqn:Ht.
  2: { simpl. assert (view s i0 = None) as -> by (unfold view; by rewrite Ht).
       split_and!; try done. apply (core_skip A n); [done|]. intros j Hj.
       destruct (co_timers _ _ _ Hc j n Hj) as (d & H1 & H2 & _).
       unfold i0 in Ht. rewrite Hnt in Ht. by simplify_eq. }
  destruct (co_timers _ _ _ Hc i0 n' Ht) as (d & Hd & Hid & Hcan & _ & _).
  assert (n' = n) as ->.
  { eapply (co_ids _ _ _ Hc); [done|done|]. rewrite Hid. unfold i0. by rewrite Hnt. }
  rewrite Hn in Hd. injection Hd as <-.
  assert (view s i0 = Some nd) as Hv by (apply view_Some; eauto).
  rewrite Hnt, Hcan, Hv. simpl.
  assert (i0 = id nd) as Hi0 by (unfold i0; by rewrite Hnt). rewrite Hi0 in *.
  unfold fire_calls. destruct (useWeak nd) eqn:Hu.
  - destruct (lock alive (weakListener nd)) as [p|] eqn:Hl; simpl.
    + destruct (finish_timer_step alive A n rest s nd) as (? & ? & ? & ? & ?); [done..|unfold weak_dead; by rewrite Hu, Hl|].
      by split_and!.
    + destruct (dead_listener_step alive A n rest s nd) as (? & ? & ? & ? & ?); [done..|by split_and!].
  - destruct (finish_timer_step alive A n rest s nd) as (? & ? & ? & ? & ?); [done..|unfold weak_dead; by rewrite Hu|].
    destruct (rawListener nd); by split_and!.
Qed.

Definition calls_for (i : Z) (cs : list TimerCall) : list TimerCall :=
  filter (fun c => call_timer c = i) cs.

Lemma calls_for_app i c1 c2 : calls_for i (c1 ++ c2) = calls_for i c1 ++ calls_for i c2.
Proof. apply filter_app. Qed.

Lemma calls_for_fire alive nd i :
  calls_for i (fire_calls alive nd) = if decide (id nd = i) then fire_calls alive nd else [].
Proof.
  unfold calls_for, fire_calls. repeat (case_match; simpl); try done;
    rewrite ?filter_cons, ?filter_nil; simpl; repeat case_decide; done.
Qed.

(** Is timer [i] registered with one of the nodes [rest]? *)
Definition among (rest : list Z) (s : TimerImpl) (i : Z) : bool :=
  match _timers s !! i with Some n => bool_decide (n ∈ rest) | None => false end.

(** No step but [OnTimerAdd] creates a node, and none changes the id of one. *)
Definition ids_from (s s' : TimerImpl) : Prop :=
  forall n nd, nodes s' !! n = Some nd -> exists nd0, nodes s !! n = Some nd0 /\ id nd = id nd0.

#[export] Instance ids_from_preorder : PreOrder ids_from.
Proof.
  split.
  - intros s n nd H. by exists nd.
  - intros s1 s2 s3 H12 H23 n nd (nd2 & H2 & ->)%H23. by apply H12.
Qed.

(** The other timers do not notice that a node was processed. *)
Lemma other_timer A n rest s s1 i : core A (n :: rest) s -> i <> id (nodes s !!! n) ->
  (forall j, j <> id (nodes s !!! n) -> _timers s1 !! j = _timers s !! j) ->
  (forall x, x <> n -> nodes s1 !! x = nodes s !! x) ->
  view s1 i = view s i /\ among (n :: rest) s i = among rest s1 i.
Proof.
  intros Hc Hne Ht Hn. unfold view, among. rewrite Ht by done. destruct (_timers s !! i) as [x|] eqn:Ex; [|done].
  assert (x <> n) as Hx.
  { intros ->. destruct (co_timers _ _ _ Hc i n Ex) as (d & H1 & H2 & _). apply Hne. by rewrite (nodes_total _ _ _ H1). }
  split; [by apply Hn|]. apply bool_decide_ext. rewrite elem_of_cons. split; [by intros [?|?]|by right].
Qed.

(** The timer of the processed node is not to be processed again. *)
Lemma processed_timer A n rest s s1 nd : core A (n :: rest) s -> core A rest s1 -> nodes s !! n = Some nd ->
  (forall x, x <> n -> nodes s1 !! x = nodes s !! x) -> among rest s1 (id nd) = false.
Proof.
  intros Hc Hc1 Hnd Hn. unfold among. destruct (_timers s1 !! id nd) as [x|] eqn:Ex; [|done]. apply bool_decide_false.
  assert (x = n) as ->; [|by pose proof (co_rest _ _ _ Hc) as [[? _]%NoDup_cons _]].
  destruct (co_timers _ _ _ Hc1 _ x Ex) as (d & H1 & H2 & _). destruct (decide (x = n)) as [|Hxn]; [done|].
  rewrite Hn in H1 by done. by eapply (co_ids _ _ _ Hc).
Qed.

(** The whole loop, timer by timer. *)
Lemma expire_all_spec alive A rest s :
  core A rest s ->
  let r := expire_all alive rest s in
  core A [] r.2 /\ ids_from s r.2 /\
  forall i,
    view r.2 i = (nd ← view s i; if among rest s i then fire_result alive nd else Some nd) /\
    calls_for i r.1 =
      match view s i with Some nd => if among rest s i then fire_calls alive nd else [] | None => [] end.
Proof.
  revert s; induction rest as [|n rest IH]; intros s Hc; simpl.
  { split; [done|]. split; [done|]. intros i. unfold among. destruct (_timers s !! i) as [x|] eqn:E.
    - rewrite bool_decide_false by apply not_elem_of_nil. destruct (view s i); done.
    - unfold view. rewrite E. done. }
  destruct (OnTimerExpired_step alive A n rest s Hc) as (Hc1 & Ht & Hn & Hid & Hv & Hcalls).
  destruct (co_dom _ _ _ Hc n) as [nd Hnd]; [right; left|]. pose proof (nodes_total _ _ _ Hnd) as Hnt.
  set (i0 := id (nodes s !!! n)) in *. assert (i0 = id nd) as Hi0 by (unfold i0; by rewrite Hnt).
  destruct (OnTimerExpired alive i0 s) as [c1 s1] eqn:E1. simpl in *.
  destruct (IH s1 Hc1) as (Hc2 & Hfrom & Hspec).
  destruct (expire_all alive rest s1) as [c2 s2] eqn:E2. simpl in *.
  split; [done|]. split.
  { transitivity s1; [|done]. intros x d Hd. destruct (decide (x = n)) as [->|Hx]; [|exists d; by rewrite <- Hn].
    exists nd. split; [done|]. rewrite (nodes_total _ _ _ Hd) in Hid. by rewrite Hid. }
  intros i. destruct (Hspec i) as [Hvi Hci].
  rewrite Hvi, calls_for_app, Hci, Hcalls. clear Hvi Hci Hspec.
  assert (forall d, view s i0 = Some d -> id d = i0 /\ among (n :: rest) s i0 = true) as Hreg.
  { intros d (x & Hx & Hdx)%view_Some. destruct (co_timers _ _ _ Hc i0 x Hx) as (d' & H1 & H2 & _).
    split; [congruence|]. unfold among. rewrite Hx. apply bool_decide_true.
    assert (x = n) as -> by (eapply (co_ids _ _ _ Hc); [done|done|congruence]). by left. }
  destruct (decide (i = i0)) as [->|Hne].
  - pose proof (processed_timer A n rest s s1 nd Hc Hc1 Hnd Hn) as Hp. rewrite <- Hi0 in Hp. rewrite Hv, Hp.
    destruct (view s i0) as [d|] eqn:Evs; simpl; [|done]. destruct (Hreg d eq_refl) as [Hd ->].
    rewrite calls_for_fire, decide_True by done. destruct (fire_result alive d); simpl; by rewrite ?app_nil_r.
  - destruct (other_timer A n rest s s1 i Hc Hne Ht Hn) as [-> ->].
    split; [done|]. destruct (view s i0) as [d|] eqn:Evs; [|done].
    rewrite calls_for_fire, decide_False by (destruct (Hreg d eq_refl); congruence). done.
Qed.

(** The node a [TimerAddMessage] becomes, at tick [t]. *)
Definition added_node (alive : Z -> bool) (t : Z) (msg : TimerAddMessage) : Node :=
  let ticks := Z.max 1 (ta_intervalMs msg / TICK_INTERVAL_MS) in
  let weak := lock alive (ta_weakListener msg) in
  mkNode (ta_timerId msg) (ta_logicTimerId msg) (ta_pParam msg) ((t + ticks) mod 2 ^ 32)
    (if ta_isInterval msg then ticks else 0) (ta_listener msg) weak
    (match weak with Some _ => true | None => false end) false.

Definition msg_ok (msg : TimerAddMessage) (s : TimerImpl) : Prop :=
  0 <= ta_intervalMs msg < 2 ^ 32 /\
  forall n nd, nodes s !! n = Some nd -> id nd <> ta_timerId msg.

Lemma OnTimerAdd_eq alive msg s :
  0 <= ta_intervalMs msg ->
  let node := added_node alive (_tick s) msg in
  let st := <[nextNode s := node]> (nodes s) in
  OnTimerAdd alive msg s =
  mkTimer (_nextTimerId s) (<[ta_timerId msg := nextNode s]> (_timers s))
    (_listenerMap s ++ [(ta_listener msg, ta_timerId msg)]) (Add st (nextNode s) (_wheel s))
    (_tick s) st (nextNode s + 1).
Proof.
  intros H. unfold OnTimerAdd, added_node, TICK_INTERVAL_MS, wrap. simpl.
  assert ((if ta_intervalMs msg / 10 =? 0 then 1 else ta_intervalMs msg / 10) =
          Z.max 1 (ta_intervalMs msg / 10)) as -> by (destruct (_ =? _) eqn:E; bool_to_prop; lia).
  done.
Qed.

Lemma added_node_facts alive A t msg :
  t = A mod 2 ^ 32 -> 0 <= ta_intervalMs msg < 2 ^ 32 ->
  0 <= expiryTick (added_node alive t msg) < 2 ^ 32 /\
  expiryTick (added_node alive t msg) <> A mod 2 ^ 32 /\
  0 <= intervalTick (added_node alive t msg) < 2 ^ 32.
Proof.
  intros -> H. simpl. unfold TICK_INTERVAL_MS. destruct (ta_isInterval msg); lia.
Qed.

(** The next node is new. *)
Lemma fresh_node A s : timer_inv A s ->
  (forall x nd, nodes s !! x = Some nd -> x <> nextNode s) /\ ~ pending (_wheel s) (nextNode s).
Proof.
  intros Hi. assert (forall x nd, nodes s !! x = Some nd -> x <> nextNode s) as H.
  { intros x nd Hx ->. apply (co_alloc _ _ _ Hi) in Hx. lia. }
  split; [done|]. intros Hp. destruct (co_dom _ _ _ Hi _ (or_introl Hp)) as [d Hd]. by apply (H _ _ Hd).
Qed.

(** A new node in the registry and in the wheel. *)
Lemma register_core A s node w' : timer_inv A s ->
  let n := nextNode s in let st := <[n := node]> (nodes s) in
  0 <= expiryTick node < 2 ^ 32 -> 0 <= intervalTick node < 2 ^ 32 -> cancelled node = false ->
  (forall x d, nodes s !! x = Some d -> id d <> id node) ->
  wheel_inv st A w' -> _currentTick w' = A mod 2 ^ 32 -> (forall x, pending w' x <-> x = n \/ pending (_wheel s) x) ->
  timer_inv A (mkTimer (_nextTimerId s) (<[id node := n]> (_timers s)) (_listenerMap s ++ [(rawListener node, id node)]) w' (_tick s) st (n + 1)).
Proof.
  intros Hi n st He Hint Hcan Hfresh Hw1 Ht1 Hp1. destruct (fresh_node A s Hi) as [Hxn _]. fold n in Hxn.
  split; simpl; try apply Hi; try done.
  - intros x. destruct (decide (x = n)) as [->|]; unfold st; [by rewrite lookup_total_insert_eq|rewrite lookup_total_insert_ne by done; apply Hi].
  - intros x [[->|Hx]%Hp1|Hx%elem_of_nil]; [|..|done]; unfold st.
    + rewrite lookup_insert_eq. by eexists.
    + destruct (co_dom _ _ _ Hi x (or_introl Hx)) as [d Hd]. rewrite lookup_insert_ne by (symmetry; by eapply Hxn). by eexists.
  - intros x nd [[<- <-]|[Hx Hnd]]%lookup_insert_Some; [split; [lia|done]|].
    apply (co_alloc _ _ _ Hi) in Hnd. lia.
  - intros n1 n2 d1 d2 [[<- <-]|[Hx1 H1]]%lookup_insert_Some
      [[<- <-]|[Hx2 H2]]%lookup_insert_Some E; try done.
    + exfalso. by apply (Hfresh _ _ H2).
    + exfalso. by apply (Hfresh _ _ H1).
    + by eapply (co_ids _ _ _ Hi).
  - intros i x [[<- <-]|[Hx Hix]]%lookup_insert_Some.
    + exists node. unfold st. rewrite lookup_insert_eq. split_and!; try done.
      { apply elem_of_app. right. by left. } { left. apply Hp1. by left. }
    + destruct (co_timers _ _ _ Hi i x Hix) as (d & H1 & H2 & H3 & H4 & H5).
      exists d. unfold st. rewrite lookup_insert_ne by (symmetry; by eapply Hxn).
      split_and!; try done; [apply elem_of_app; by left|].
      destruct H5 as [H5|H5]; [left; apply Hp1; by right|by apply elem_of_nil in H5].
  - intros l i [H|H]%elem_of_app.
    + destruct (co_lmap _ _ _ Hi l i H) as (x & d & H1 & H2 & H3). exists x, d.
      destruct (co_timers _ _ _ Hi i x H1) as (d' & E1 & E2 & _).
      unfold st. rewrite !lookup_insert_ne; [done| |].
      { symmetry. by eapply Hxn. } { intros <-. apply (Hfresh x d H2). congruence. }
    + apply list_elem_of_singleton in H. injection H as -> ->. exists n, node.
      unfold st. by rewrite !lookup_insert_eq.
  - split; [constructor|]. intros x Hx. by apply elem_of_nil in Hx.
Qed.

Lemma OnTimerAdd_spec alive A msg s :
  timer_inv A s -> msg_ok msg s ->
  let s' := OnTimerAdd alive msg s in
  timer_inv A s' /\
  forall i, view s' i = if decide (i = ta_timerId msg) then Some (added_node alive (A mod 2 ^ 32) msg)
                        else view s i.
Proof.
  intros Hi [Hr Hfresh]. cbv zeta. rewrite OnTimerAdd_eq by lia.
  rewrite <- (co_tick _ _ _ Hi).
  destruct (added_node_facts alive A (_tick s) msg (co_tick _ _ _ Hi) Hr) as (He & Hne & Hint).
  destruct (fresh_node A s Hi) as [Hxn Hnp].
  set (node := added_node alive (_tick s) msg) in *. set (n := nextNode s) in *.
  assert (wheel_inv (<[n := node]> (nodes s)) A (_wheel s)) as Hw.
  { eapply wheel_inv_store; [apply Hi|]. intros x Hx. rewrite lookup_total_insert_ne; [done|]. by intros <-. }
  destruct (Add_spec (<[n := node]> (nodes s)) A n (_wheel s) (co_wtick _ _ _ Hi) Hw Hnp) as (Hw1 & Ht1 & Hp1).
  { rewrite lookup_total_insert_eq. by rewrite Z.mod_small. }
  rewrite (co_wtick _ _ _ Hi) in Ht1.
  split; [by apply (register_core A s node)|].
  intros i. unfold view. simpl. case_decide as Hd.
  - subst i. rewrite lookup_insert_eq. simpl. apply lookup_insert_eq.
  - rewrite lookup_insert_ne by done. destruct (_timers s !! i) as [x|] eqn:E; [|done]. simpl.
    destruct (co_timers _ _ _ Hi i x E) as (d & H1 & _).
    rewrite lookup_insert_ne; [done|]. symmetry. by eapply Hxn.
Qed.

Lemma delete_all_lookup {V} (ids : list Z) (t : gmap Z V) i :
  foldl (fun t i => delete i t) t ids !! i = if decide (i ∈ ids) then None else t !! i.
Proof.
  revert t; induction ids as [|x ids IH]; intros t; simpl; [done|].
  rewrite IH. destruct (decide (i = x)) as [->|Hne].
  - rewrite lookup_delete_eq, (decide_True (P := x ∈ x :: ids)) by left. by case_decide.
  - rewrite lookup_delete_ne by done.
    by rewrite (decide_ext (i ∈ x :: ids) (i ∈ ids)) by (rewrite elem_of_cons; tauto).
Qed.

Lemma OnTimerCancel_spec A msg s :
  timer_inv A s ->
  let s' := OnTimerCancel msg s in
  timer_inv A s' /\
  ids_from s s' /\
  forall i, view s' i =
    (nd ← view s i;
     if negb (tc_timerId msg =? 0) then if i =? tc_timerId msg then None else Some nd
     else match tc_listener msg with
          | None => Some nd
          | Some l => if decide (rawListener nd = Some l) then None else Some nd
          end).
Proof.
  intros Hi. cbv zeta. unfold OnTimerCancel. destruct (negb (tc_timerId msg =? 0)) eqn:Hz.
  - destruct (_timers s !! tc_timerId msg) as [n|] eqn:Ht.
    + destruct (co_timers _ _ _ Hi _ _ Ht) as (nd & Hn & Hid & _).
      rewrite (nodes_total _ _ _ Hn).
      destruct (clean_core A [] s _ n nd Hi Ht Hn) as [Hcl Hno].
      split_and!.
      * exact (mark_core A [] _ n Hcl Hno).
      * intros x d. simpl. rewrite lookup_alter. case_decide; [subst|by eauto].
        rewrite Hn. simpl. intros [= <-]. by exists nd.
      * intros i. unfold view. simpl. destruct (i =? tc_timerId msg) eqn:E; bool_to_prop.
        { subst i. rewrite lookup_delete_eq, Ht. simpl. by rewrite Hn. }
        rewrite lookup_delete_ne by done. destruct (_timers s !! i) as [x|] eqn:Ex; [|done]. simpl.
        rewrite lookup_alter_ne; [by destruct (nodes s !! x)|]. intros ->.
        apply (Hno i). simpl. by rewrite lookup_delete_ne.
    + split_and!; [done|done|]. intros i. destruct (view s i) as [nd|] eqn:Ev; [|done]. simpl.
      destruct (i =? tc_timerId msg) eqn:E; [|done]. bool_to_prop. subst.
      apply view_Some in Ev as (? & ? & ?). congruence.
  - destruct (tc_listener msg) as [l|]; [|split_and!; [done|done|intros i; by destruct (view s i)]].
    set (ids := (filter _ (_listenerMap s)).*2).
    assert (forall i n nd, _timers s !! i = Some n -> nodes s !! n = Some nd ->
      (i ∈ ids <-> rawListener nd = Some l)) as Hids.
    { intros i n nd Hn Hnd. unfold ids. rewrite list_elem_of_fmap. split.
      - intros ([l' i'] & -> & [Hf Hin]%list_elem_of_filter). simpl in *. subst l'.
        destruct (co_lmap _ _ _ Hi _ _ Hin) as (x & d & ? & ? & ?). congruence.
      - intros Hr. exists (Some l, i). split; [done|]. apply list_elem_of_filter. split; [done|].
        destruct (co_timers _ _ _ Hi i n Hn) as (d & H1 & _ & _ & H4 & _). congruence. }
    split_and!; [|intros n nd H; by exists nd|].
    + split; simpl; try apply Hi.
      * intros i n. rewrite delete_all_lookup. case_decide as Hin; [done|]. intros Hn.
        destruct (co_timers _ _ _ Hi i n Hn) as (d & H1 & H2 & H3 & H4 & H5).
        exists d. split_and!; try done. apply list_elem_of_filter. split; [|done]. simpl.
        rewrite <- (Hids i n d Hn H1). done.
      * intros l' i [Hl Hin]%list_elem_of_filter. simpl in Hl.
        destruct (co_lmap _ _ _ Hi l' i Hin) as (n & d & H1 & H2 & H3). exists n, d.
        split_and!; try done. rewrite delete_all_lookup, decide_False; [done|].
        rewrite (Hids i n d H1 H2). congruence.
    + intros i. unfold view at 1. simpl. rewrite delete_all_lookup. unfold view.
      destruct (_timers s !! i) as [n|] eqn:Hn; simpl; [|by case_decide].
      destruct (co_timers _ _ _ Hi i n Hn) as (d & H1 & _). rewrite H1. simpl.
      pose proof (Hids i n d Hn H1). repeat case_decide; simpl; try done; tauto.
Qed.

Lemma TimerImpl_new_inv : timer_inv 0 TimerImpl_new.
Proof.
  split; try done.
  - apply new_wheel_inv.
  - intros n [(k & i & H)|H]; by apply elem_of_nil in H.
  - intros l i H. by apply elem_of_nil in H.
  - split; [constructor|]. intros n H. by apply elem_of_nil in H.
Qed.

(** One tick, timer by timer. *)
Lemma OnTick_spec alive A s (Hinv : timer_inv A s) :
  let r := OnTick alive s in
  timer_inv (A + 1) r.2 /\ ids_from s r.2 /\
  forall i,
    view r.2 i =
      (nd ← view s i;
       if expiryTick nd =? (A + 1) mod 2 ^ 32 then fire_result alive nd else Some nd) /\
    calls_for i r.1 =
      match view s i with
      | Some nd => if expiryTick nd =? (A + 1) mod 2 ^ 32 then fire_calls alive nd else []
      | None => []
      end.
Proof.
  intros r. unfold r, OnTick. rewrite (co_tick _ _ _ Hinv).
  assert (wrap 32 (A mod 2 ^ 32 + 1) = (A + 1) mod 2 ^ 32) as -> by (unfold wrap; lia).
  destruct (Advance_spec (nodes s) A (_wheel s) (co_wheel _ _ _ Hinv) (co_exp _ _ _ Hinv))
    as (Hw & Htk & Hnd & Hout & Hpend).
  destruct (Advance (nodes s) ((A + 1) mod 2 ^ 32) (_wheel s)) as [expired w] eqn:EA. simpl in *.
  set (s1 := mkTimer _ _ _ w _ _ _).
  assert (core (A + 1) expired s1) as Hc1.
  { split; simpl; try done; try apply Hinv.
    - intros n [[Hp _]%Hpend|[Hp _]%Hout]; apply (co_dom _ _ _ Hinv); by left.
    - intros i n Hi. destruct (co_timers _ _ _ Hinv i n Hi) as (nd & H1 & H2 & H3 & H4 & [H5|H5]);
        [|by apply elem_of_nil in H5].
      exists nd. split_and!; try done.
      destruct (decide (expiryTick (nodes s !!! n) = (A + 1) mod 2 ^ 32)).
      + right. apply Hout. by rewrite (nodes_total _ _ _ H1) in *.
      + left. by apply Hpend.
    - split; [done|]. intros n (Hp & He & _)%Hout. split; [|done]. by intros [_ ?]%Hpend. }
  destruct (expire_all_spec alive (A + 1) expired s1 Hc1) as (Hc2 & Hfrom & Hspec).
  split; [done|]. split; [exact Hfrom|]. intros i. destruct (Hspec i) as [Hv Hcl].
  change (view s1 i) with (view s i) in *. rewrite Hv, Hcl. clear Hv Hcl Hspec.
  destruct (view s i) as [nd|] eqn:Ev; [|done]. simpl.
  apply view_Some in Ev as (n & Hn & Hnd').
  assert (among expired s1 i = (expiryTick nd =? (A + 1) mod 2 ^ 32)) as ->; [|done].
  unfold among. simpl. rewrite Hn.
  destruct (co_timers _ _ _ Hinv i n Hn) as (d & H1 & _ & H3 & _ & [H5|H5]);
    [|by apply elem_of_nil in H5].
  rewrite H1 in Hnd'. simplify_eq. destruct (expiryTick nd =? _) eqn:E; bool_to_prop.
  - apply bool_decide_true, Hout. by rewrite (nodes_total _ _ _ H1).
  - apply bool_decide_false. intros (_ & He & _)%Hout. by rewrite (nodes_total _ _ _ H1) in He.
Qed.

(** ** Sequences of timer messages

    The logic thread handles timer messages one at a time, in the order they were
    posted; which listeners are alive may differ at each. *)

Inductive TimerCmd :=
| CmdAdd (alive : Z -> bool) (msg : TimerAddMessage)
| CmdCancel (msg : TimerCancelMessage)
| CmdTick (alive : Z -> bool).

Definition run_cmd (c : TimerCmd) (s : TimerImpl) : list TimerCall * TimerImpl :=
  match c with
  | CmdAdd alive msg => ([], OnTimerAdd alive msg s)
  | CmdCancel msg => ([], OnTimerCancel msg s)
  | CmdTick alive => OnTick alive s
  end.

(** The calls of each command, and the final state. *)
Fixpoint run_cmds (cs : list TimerCmd) (s : TimerImpl) : list (list TimerCall) * TimerImpl :=
  match cs with
  | [] => ([], s)
  | c :: cs =>
      let '(o, s) := run_cmd c s in
      let '(os, s) := run_cmds cs s in
      (o :: os, s)
  end.

(** The specification: each timer on its own is at most one [Node], and a command
    acts on it without reference to any other timer or to the wheel. *)

Definition spec_time (c : TimerCmd) (A : Z) : Z :=
  match c with CmdTick _ => A + 1 | _ => A end.

Definition spec_step (i : Z) (c : TimerCmd) (A : Z) (o : option Node) : option Node :=
  match c with
  | CmdAdd alive msg =>
      if decide (i = ta_timerId msg) then Some (added_node alive (A mod 2 ^ 32) msg) else o
  | CmdCancel msg =>
      nd ← o;
      if negb (tc_timerId msg =? 0) then if i =? tc_timerId msg then None else Some nd
      else match tc_listener msg with
           | None => Some nd
           | Some l => if decide (rawListener nd = Some l) then None else Some nd
           end
  | CmdTick alive =>
      nd ← o;
      if expiryTick nd =? (A + 1) mod 2 ^ 32 then fire_result alive nd else Some nd
  end.

Definition spec_calls (c : TimerCmd) (A : Z) (o : option Node) : list TimerCall :=
  match c, o with
  | CmdTick alive, Some nd =>
      if expiryTick nd =? (A + 1) mod 2 ^ 32 then fire_calls alive nd else []
  | _, _ => []
  end.

Fixpoint spec_run (i : Z) (cs : list TimerCmd) (A : Z) (o : option Node) :
    list (list TimerCall) * option Node :=
  match cs with
  | [] => ([], o)
  | c :: cs =>
      let '(os, o') := spec_run i cs (spec_time c A) (spec_step i c A o) in
      (spec_calls c A o :: os, o')
  end.

(** Ids come from an atomic counter: the adds of a sequence carry distinct ids,
    none of them used before. *)
Definition add_msg (c : TimerCmd) : option TimerAddMessage :=
  match c with CmdAdd _ msg => Some msg | _ => None end.

Definition add_ids (cs : list TimerCmd) : list Z := ta_timerId <$> omap add_msg cs.

Definition cmds_ok (cs : list TimerCmd) (s : TimerImpl) : Prop :=
  NoDup (add_ids cs) /\
  Forall (fun m => 0 <= ta_intervalMs m < 2 ^ 32) (omap add_msg cs) /\
  forall n nd, nodes s !! n = Some nd -> id nd ∉ add_ids cs.

Lemma cmds_ok_from c cs s s' :
  cmds_ok (c :: cs) s -> add_msg c = None -> ids_from s s' -> cmds_ok cs s'.
Proof.
  intros Hok E Hf. revert Hok. unfold cmds_ok, add_ids. simpl. rewrite E.
  intros (H1 & H2 & H3). split_and!; try done.
  intros n nd (nd0 & Hn & ->)%Hf. by apply (H3 n).
Qed.

Lemma cmds_ok_add alive msg cs s :
  cmds_ok (CmdAdd alive msg :: cs) s -> msg_ok msg s /\ cmds_ok cs (OnTimerAdd alive msg s).
Proof.
  unfold cmds_ok, add_ids. simpl. rewrite NoDup_cons, Forall_cons.
  intros ([Hn1 Hn2] & [Hr1 Hr2] & H3). split; [split; [done|]|split_and!; try done].
  - intros n nd Hn E. apply (H3 n nd Hn). rewrite E. by left.
  - intros n nd [[<- <-]|[_ Hn]]%lookup_insert_Some; [done|].
    intros Hin. apply (H3 n nd Hn). by right.
Qed.

Lemma run_cmd_spec c cs A s :
  timer_inv A s -> cmds_ok (c :: cs) s ->
  let r := run_cmd c s in
  timer_inv (spec_time c A) r.2 /\ cmds_ok cs r.2 /\
  forall i, view r.2 i = spec_step i c A (view s i) /\ calls_for i r.1 = spec_calls c A (view s i).
Proof.
  intros Hi Hok. destruct c as [alive msg|msg|alive]; simpl.
  - apply cmds_ok_add in Hok as [Hm Hok].
    destruct (OnTimerAdd_spec alive A msg s Hi Hm) as [Hi' Hv]. split_and!; try done.
  - destruct (OnTimerCancel_spec A msg s Hi) as (Hi' & Hf & Hv).
    split_and!; [done|by eapply cmds_ok_from|done].
  - destruct (OnTick_spec alive A s Hi) as (Hi' & Hf & Hv).
    split_and!; [done|by eapply cmds_ok_from|]. intros i. destruct (Hv i) as [-> ->].
    by destruct (view s i).
Qed.

Lemma run_cmds_spec cs A s :
  timer_inv A s -> cmds_ok cs s ->
  forall i, view (run_cmds cs s).2 i = (spec_run i cs A (view s i)).2 /\
    calls_for i <$> (run_cmds cs s).1 = (spec_run i cs A (view s i)).1.
Proof.
  revert A s; induction cs as [|c cs IH]; intros A s Hi Hok i; simpl; [done|].
  destruct (run_cmd_spec c cs A s Hi Hok) as (Hi' & Hok' & Hv).
  destruct (run_cmd c s) as [o s'] eqn:E. simpl in *. destruct (Hv i) as [Hv1 Hv2].
  destruct (IH _ s' Hi' Hok' i) as [IH1 IH2].
  destruct (run_cmds cs s') as [os s''] eqn:E'. simpl in *. rewrite Hv1 in IH1, IH2.
  destruct (spec_run i cs _ _) as [os' o'] eqn:E''. simpl in *. split; [done|]. rewrite Hv2. f_equal. exact IH2.
Qed.

(** A timer that is absent and not added again stays absent and silent. *)
Lemma spec_run_absent i cs A :
  i ∉ add_ids cs -> (spec_run i cs A None).2 = None /\ Forall (fun o => o = []) (spec_run i cs A None).1.
Proof.
  revert A; induction cs as [|c cs IH]; intros A Hn; simpl; [by split|].
  assert (spec_step i c A None = None) as ->.
  { destruct c as [alive msg| |]; simpl; [|done..]. rewrite decide_False; [done|].
    intros ->. apply Hn. unfold add_ids. simpl. by left. }
  assert (i ∉ add_ids cs) as Hn'.
  { intros H. apply Hn. unfold add_ids. simpl. destruct (add_msg c); [by right|done]. }
  destruct (IH (spec_time c A) Hn') as [IH1 IH2].
  destruct (spec_run i cs _ _) as [os o]. simpl in *. split; [done|].
  constructor; [by destruct c|done].
Qed.

(** How many ticks a sequence has, and the commands that leave timer [i] with raw
    listener [l] alone. *)
Definition is_tick (c : TimerCmd) : bool := match c with CmdTick _ => true | _ => false end.

Definition num_ticks (cs : list TimerCmd) : Z := Z.of_nat (length (filter is_tick cs)).

Definition leaves (i : Z) (l : option Z) (c : TimerCmd) : Prop :=
  match c with
  | CmdAdd _ msg => ta_timerId msg <> i
  | CmdCancel msg => tc_timerId msg <> i /\ (tc_timerId msg = 0 -> tc_listener msg = None \/ tc_listener msg <> l)
  | CmdTick _ => True
  end.

Lemma num_ticks_cons c cs : num_ticks (c :: cs) = (if is_tick c then 1 else 0) + num_ticks cs.
Proof.
  unfold num_ticks. rewrite filter_cons. destruct (is_tick c); simpl; lia.
Qed.

Lemma spec_step_leaves i c A nd :
  leaves i (rawListener nd) c -> is_tick c = false -> spec_step i c A (Some nd) = Some nd.
Proof.
  destruct c as [alive msg|msg|]; simpl; intros Hl Ht; [| |done].
  - by rewrite decide_False.
  - destruct Hl as [H1 H2]. destruct (negb (tc_timerId msg =? 0)) eqn:E; bool_to_prop.
    + destruct (i =? tc_timerId msg) eqn:E'; bool_to_prop; [by subst|done].
    + destruct (H2 E) as [->|H3]; [done|]. destruct (tc_listener msg); [|done].
      by rewrite decide_False.
Qed.

(** Until its expiry a pending timer is untouched and silent. *)
Lemma spec_run_waits i nd cs A :
  Forall (leaves i (rawListener nd)) cs ->
  num_ticks cs < (expiryTick nd - A - 1) mod 2 ^ 32 + 1 ->
  (spec_run i cs A (Some nd)).2 = Some nd /\ Forall (fun o => o = []) (spec_run i cs A (Some nd)).1.
Proof.
  revert A; induction cs as [|c cs IH]; intros A Hl Hn; [by split|].
  apply Forall_cons in Hl as [Hc Hl]. rewrite num_ticks_cons in Hn.
  assert (0 <= num_ticks cs) by (unfold num_ticks; lia).
  cut (spec_step i c A (Some nd) = Some nd /\ spec_calls c A (Some nd) = [] /\
       num_ticks cs < (expiryTick nd - spec_time c A - 1) mod 2 ^ 32 + 1).
  { intros (Hs & Hcl & Hn'). destruct (IH _ Hl Hn') as [IH1 IH2]. simpl.
    rewrite Hs, Hcl. destruct (spec_run i cs _ _) as [os o]. simpl in *. split; [done|]. by constructor. }
  destruct (is_tick c) eqn:Ht; [destruct c as [| |alive]; try done|].
  - assert (expiryTick nd <> (A + 1) mod 2 ^ 32) as He by lia.
    apply Z.eqb_neq in He. cbn [spec_step spec_calls spec_time]. simpl.
    rewrite He. split_and!; try done. lia.
  - split_and!; [by apply spec_step_leaves|by destruct c|]. destruct c; simpl; done || lia.
Qed.

Lemma spec_run_cons i c cs A o :
  spec_run i (c :: cs) A o =
  (spec_calls c A o :: (spec_run i cs (spec_time c A) (spec_step i c A o)).1,
   (spec_run i cs (spec_time c A) (spec_step i c A o)).2).
Proof. simpl. by destruct (spec_run i cs _ _). Qed.

Definition spec_end (cs : list TimerCmd) (A : Z) : Z := foldl (fun a c => spec_time c a) A cs.

Lemma spec_end_eq cs A : spec_end cs A = A + num_ticks cs.
Proof.
  revert A; induction cs as [|c cs IH]; intros A; [unfold num_ticks; simpl; lia|].
  rewrite num_ticks_cons. simpl. rewrite IH. destruct c; simpl; lia.
Qed.

Lemma spec_run_app i cs1 cs2 A o :
  spec_run i (cs1 ++ cs2) A o =
  let r1 := spec_run i cs1 A o in
  let r2 := spec_run i cs2 (spec_end cs1 A) r1.2 in
  (r1.1 ++ r2.1, r2.2).
Proof.
  revert A o; induction cs1 as [|c cs1 IH]; intros A o.
  - simpl. by destruct (spec_run i cs2 A o).
  - change ((c :: cs1) ++ cs2) with (c :: (cs1 ++ cs2)).
    rewrite !spec_run_cons, IH. done.
Qed.

Lemma length_spec_run i cs A o : length (spec_run i cs A o).1 = length cs.
Proof.
  revert A o; induction cs as [|c cs IH]; intros A o; [done|]. rewrite spec_run_cons. simpl. by rewrite IH.
Qed.

(** A periodic timer whose listener never dies: it fires at the ticks congruent
    to its first expiry [E] modulo its period, and nowhere else. *)
Definition tick_fires (alive : Z -> bool) (nd : Node) : Prop := weak_dead alive nd = false.

Definition keeps_alive (nd : Node) (c : TimerCmd) : Prop :=
  match c with CmdTick alive => tick_fires alive nd | _ => True end.

Definition periodic_calls (nd : Node) (E T : Z) (c : TimerCmd) : list TimerCall :=
  match c with
  | CmdTick alive => if (T - E) mod intervalTick nd =? 0 then fire_calls alive nd else []
  | _ => []
  end.

Lemma spec_run_periodic i nd E cs A k c :
  0 < intervalTick nd < 2 ^ 32 -> A < E <= A + intervalTick nd ->
  expiryTick nd = E mod 2 ^ 32 ->
  Forall (leaves i (rawListener nd)) cs -> Forall (keeps_alive nd) cs -> cs !! k = Some c ->
  (spec_run i cs A (Some nd)).1 !! k =
    Some (periodic_calls nd E (A + num_ticks (take (S k) cs)) c).
Proof.
  revert nd E A k; induction cs as [|c0 cs IH]; intros nd E A k Hp HE He Hl Hk Hc; [done|].
  apply Forall_cons in Hl as [Hl0 Hl]. apply Forall_cons in Hk as [Hk0 Hk].
  change (take (S k) (c0 :: cs)) with (c0 :: take k cs). rewrite num_ticks_cons. cbn [spec_run].
  destruct (is_tick c0) eqn:Ht; [destruct c0 as [| |alive]; try done|].
  - destruct (expiryTick nd =? (A + 1) mod 2 ^ 32) eqn:Hx; bool_to_prop.
    + assert (E = A + 1) as -> by lia.
      assert (spec_step i (CmdTick alive) A (Some nd) = Some (bump_expiry nd)) as ->.
      { cbn [spec_step]. simpl. unfold fire_result. simpl in Hk0. unfold tick_fires in Hk0.
        rewrite (proj2 (Z.eqb_eq _ _) Hx), Hk0.
        by rewrite (proj2 (Z.ltb_lt _ _)) by lia. }
      destruct k as [|k].
      * simpl in Hc. simplify_eq. destruct (spec_run _ _ _ _). simpl.
        rewrite (proj2 (Z.eqb_eq _ _) Hx). change (num_ticks (take 0 cs)) with 0.
        replace (A + (1 + 0) - (A + 1)) with 0 by lia. by rewrite Z.mod_0_l by lia.
      * pose proof (IH (bump_expiry nd) (A + 1 + intervalTick nd) (A + 1) k) as IHk.
        simpl in IHk. specialize (IHk Hp ltac:(lia) ltac:(unfold wrap; rewrite He; lia) Hl Hk Hc).
        destruct (spec_run _ _ _ _) as [os o]. simpl in *. rewrite IHk. f_equal.
        destruct c as [| |alive']; simpl; try done.
        replace (A + 1 + num_ticks (take (S k) cs) - (A + 1 + intervalTick nd)) with
          (A + (1 + num_ticks (take (S k) cs)) - (A + 1) + (-1) * intervalTick nd) by lia.
        by rewrite Z.mod_add by lia.
    + assert (E <> A + 1) by (intros ->; lia).
      assert (spec_step i (CmdTick alive) A (Some nd) = Some nd) as ->.
      { cbn [spec_step]. simpl. by rewrite (proj2 (Z.eqb_neq _ _) Hx). }
      destruct k as [|k].
      * simpl in Hc. simplify_eq. destruct (spec_run _ _ _ _). simpl.
        rewrite (proj2 (Z.eqb_neq _ _) Hx). change (num_ticks (take 0 cs)) with 0.
        rewrite (proj2 (Z.eqb_neq _ _)); [done|].
        replace (A + (1 + 0) - E) with (intervalTick nd - (E - A - 1) + (-1) * intervalTick nd) by lia.
        rewrite Z.mod_add by lia. rewrite Z.mod_small; lia.
      * pose proof (IH nd E (A + 1) k Hp ltac:(lia) He Hl Hk Hc) as IHk.
        simpl. destruct (spec_run _ _ _ _) as [os o]. simpl in *. rewrite IHk. do 2 f_equal; lia.
  - rewrite (spec_step_leaves i c0 A nd Hl0 Ht).
    assert (spec_time c0 A = A) as -> by (by destruct c0).
    destruct k as [|k].
    + simpl in Hc. simplify_eq. destruct (spec_run _ _ _ _). simpl. by destruct c.
    + pose proof (IH nd E A k Hp HE He Hl Hk Hc) as IHk.
      simpl. destruct (spec_run _ _ _ _) as [os o]. simpl in *. rewrite IHk. do 2 f_equal; lia.
Qed.

(** ** Properties *)

(** C2: The timer service (maps, node store and five-level wheel) refines a
    per-timer specification that knows neither wheel nor maps: for every sequence
    of add, cancel and tick messages with fresh ids, handled from the initial
    state, each timer is registered with exactly the data the specification
    gives it, and at each message makes exactly the listener calls the
    specification makes. *)
Theorem timer_service_refines_spec cs (Hok : cmds_ok cs TimerImpl_new) :
  forall i,
    view (run_cmds cs TimerImpl_new).2 i = (spec_run i cs 0 None).2 /\
    calls_for i <$> (run_cmds cs TimerImpl_new).1 = (spec_run i cs 0 None).1.
Proof. exact (run_cmds_spec cs 0 TimerImpl_new TimerImpl_new_inv Hok). Qed.

(** A one-shot timer fires exactly once, after max(1, delay / 10 ms) ticks: in
    a sequence that adds it and does not cancel it, no earlier command makes a
    call for it, the tick at the delay makes the calls of its listener, and no
    later command makes one; it is unregistered afterwards. *)
Theorem one_shot_fires_exactly_once A s alive0 msg pre alive post
  (Hinv : timer_inv A s)
  (Hok : cmds_ok (CmdAdd alive0 msg :: pre ++ CmdTick alive :: post) s)
  (Hone : ta_isInterval msg = false)
  (Hpre : Forall (leaves (ta_timerId msg) (ta_listener msg)) pre)
  (Hdelay : num_ticks pre + 1 = Z.max 1 (ta_intervalMs msg / TICK_INTERVAL_MS)) :
  let i := ta_timerId msg in
  let r := run_cmds (CmdAdd alive0 msg :: pre ++ CmdTick alive :: post) s in
  (exists silent1 silent2,
    calls_for i <$> r.1 =
      silent1 ++ fire_calls alive (added_node alive0 (A mod 2 ^ 32) msg) :: silent2 /\
    length silent1 = S (length pre) /\
    Forall (fun o => o = []) silent1 /\ Forall (fun o => o = []) silent2) /\
  view r.2 i = None.
Proof.
  intros i r. destruct (run_cmds_spec _ A s Hinv Hok i) as [Hv Hc].
  assert (i ∉ add_ids post) as Hpost.
  { destruct Hok as [Hnd _]. unfold add_ids in Hnd. simpl in Hnd.
    apply NoDup_cons in Hnd as [Hnd _]. intros Hin. apply Hnd.
    rewrite omap_app, fmap_app. apply elem_of_app. by right. }
  pose proof (proj1 (proj2 Hok)) as Hr. simpl in Hr. apply Forall_cons in Hr as [Hr _].
  set (nd := added_node alive0 (A mod 2 ^ 32) msg).
  assert (spec_step i (CmdAdd alive0 msg) A (view s i) = Some nd) as Hadd
    by (simpl; by rewrite decide_True).
  assert (expiryTick nd = (A + num_ticks pre + 1) mod 2 ^ 32) as He.
  { simpl. rewrite <- Hdelay. lia. }
  assert (num_ticks pre < 2 ^ 32) as Hlt by (unfold TICK_INTERVAL_MS in *; lia).
  assert (0 <= num_ticks pre) by (unfold num_ticks; lia).
  destruct (spec_run_waits i nd pre A Hpre) as [Hw1 Hw2]; [rewrite He; lia|].
  rewrite spec_run_cons, Hadd in Hv, Hc. simpl spec_calls in Hc. simpl spec_time in Hv, Hc.
  rewrite spec_run_app in Hv, Hc. cbv zeta in Hv, Hc. rewrite Hw1, spec_run_cons in Hv, Hc.
  assert (spec_step i (CmdTick alive) (spec_end pre A) (Some nd) = None /\
          spec_calls (CmdTick alive) (spec_end pre A) (Some nd) = fire_calls alive nd) as [Hs Hf].
  { rewrite spec_end_eq. cbn [spec_step spec_calls mbind option_bind].
    rewrite (proj2 (Z.eqb_eq _ _) He). split; [|done].
    assert (intervalTick nd = 0) as Hz by (simpl; by rewrite Hone).
    unfold fire_result. rewrite Hz. by destruct (weak_dead alive nd). }
  rewrite Hs in Hv, Hc. rewrite Hf in Hc.
  destruct (spec_run_absent i post (spec_time (CmdTick alive) (spec_end pre A)) Hpost) as [Ha1 Ha2].
  unfold r. split; [|by rewrite Hv]. rewrite Hc.
  eexists (_ :: _), _. split_and!; [done| |by constructor|done].
  simpl. f_equal. apply length_spec_run.
Qed.

(** An interval timer is periodic without drift: after it is added, and as
    long as it is not cancelled and its listener lives, the k-th tick makes the
    listener calls exactly when k is a multiple of max(1, interval / 10 ms), and
    no other command makes one. *)
Theorem interval_fires_periodically A s alive0 msg cs k c
  (Hinv : timer_inv A s)
  (Hok : cmds_ok (CmdAdd alive0 msg :: cs) s)
  (Hint : ta_isInterval msg = true)
  (Hkeep : Forall (leaves (ta_timerId msg) (ta_listener msg)) cs)
  (Halive : Forall (keeps_alive (added_node alive0 (A mod 2 ^ 32) msg)) cs)
  (Hk : cs !! k = Some c) :
  let nd := added_node alive0 (A mod 2 ^ 32) msg in
  let p := Z.max 1 (ta_intervalMs msg / TICK_INTERVAL_MS) in
  (calls_for (ta_timerId msg) <$> (run_cmds (CmdAdd alive0 msg :: cs) s).1) !! S k =
    Some (match c with
          | CmdTick alive => if num_ticks (take (S k) cs) mod p =? 0 then fire_calls alive nd else []
          | _ => []
          end).
Proof.
  intros nd p. set (i := ta_timerId msg) in *.
  pose proof (proj1 (proj2 Hok)) as Hr. simpl in Hr. apply Forall_cons in Hr as [Hr _].
  destruct (run_cmds_spec _ A s Hinv Hok i) as [_ ->].
  rewrite spec_run_cons. simpl spec_time.
  assert (spec_step i (CmdAdd alive0 msg) A (view s i) = Some nd) as ->
    by (simpl; by rewrite decide_True).
  assert (intervalTick nd = p) as Hp by (simpl; by rewrite Hint).
  assert (0 < p < 2 ^ 32) as Hpr by (unfold p, TICK_INTERVAL_MS; lia).
  change ((spec_run i cs A (Some nd)).1 !! k = Some (match c with
    | CmdTick alive => if num_ticks (take (S k) cs) mod p =? 0 then fire_calls alive nd else []
    | _ => [] end)).
  rewrite (spec_run_periodic i nd (A + p) cs A k c); try done; rewrite ?Hp; try lia.
  - destruct c; simpl; try done. fold p. rewrite Hint.
    replace (A + num_ticks (take (S k) cs) - (A + p)) with (num_ticks (take (S k) cs) + (-1) * p) by lia.
    by rewrite Z.mod_add by lia.
  - simpl. fold p. lia.
Qed.

(** A cancelled timer never fires again: once [CancelTimer]'s message has been
    handled the timer is unregistered, and no later command makes a call for it. *)
Theorem cancelled_timer_never_fires A s i l cs
  (Hinv : timer_inv A s) (Hi : i <> 0)
  (Hok : cmds_ok (CmdCancel (mkTimerCancel i l) :: cs) s) (Hnew : i ∉ add_ids cs) :
  let r := run_cmds (CmdCancel (mkTimerCancel i l) :: cs) s in
  view r.2 i = None /\ Forall (fun o => o = []) (calls_for i <$> r.1).
Proof.
  intros r. destruct (run_cmds_spec _ A s Hinv Hok i) as [Hv Hc].
  unfold r. rewrite Hv, Hc, spec_run_cons. simpl spec_time.
  assert (spec_step i (CmdCancel (mkTimerCancel i l)) A (view s i) = None) as ->.
  { simpl. rewrite Z.eqb_refl, (proj2 (Z.eqb_neq i 0) Hi). by destruct (view s i). }
  destruct (spec_run_absent i cs A Hnew) as [Ha1 Ha2]. split; [done|]. by constructor.
Qed.

(** [Unregister] removes all the timers of a listener and no other: after its
    message has been handled every timer registered with that raw listener is
    gone and stays silent in any later sequence that does not add it again, and
    every other timer is registered as before. *)
Theorem unregister_removes_exactly_the_listener A s l cs i nd
  (Hinv : timer_inv A s)
  (Hok : cmds_ok (CmdCancel (mkTimerCancel 0 (Some l)) :: cs) s) (Hnew : i ∉ add_ids cs)
  (Hreg : view s i = Some nd) :
  (rawListener nd = Some l ->
     Forall (fun o => o = []) (calls_for i <$> (run_cmds (CmdCancel (mkTimerCancel 0 (Some l)) :: cs) s).1)) /\
  (rawListener nd <> Some l -> view (OnTimerCancel (mkTimerCancel 0 (Some l)) s) i = Some nd).
Proof.
  split; intros Hl.
  - destruct (run_cmds_spec _ A s Hinv Hok i) as [_ ->]. rewrite spec_run_cons. simpl spec_time.
    assert (spec_step i (CmdCancel (mkTimerCancel 0 (Some l))) A (view s i) = None) as ->.
    { rewrite Hreg. simpl. by rewrite decide_True. }
    destruct (spec_run_absent i cs A Hnew) as [_ Ha]. by constructor.
  - destruct (OnTimerCancel_spec A (mkTimerCancel 0 (Some l)) s Hinv) as (_ & _ & ->).
    rewrite Hreg. simpl. by rewrite decide_False.
Qed.

(** A weak timer whose listener dies before the logic thread handles the add
    message is demoted to a raw timer: the node keeps the raw pointer obtained at
    [SetTimer], has [useWeak] false, and on expiry makes a raw call to the dead
    listener, whatever is alive by then. *)
Theorem weak_timer_degrades_to_raw s alive0 alive msg l
  (Hweak : ta_weakListener msg = Some l) (Hraw : ta_listener msg = Some l)
  (Hdead : alive0 l = false) :
  (OnTimerExpired alive (ta_timerId msg) (OnTimerAdd alive0 msg s)).1 =
    [mkCall (ta_timerId msg) l false (ta_logicTimerId msg) (ta_pParam msg)].
Proof.
  unfold OnTimerExpired, OnTimerAdd. rewrite Hweak. simpl. rewrite Hdead. simpl.
  rewrite lookup_insert_eq. simpl. rewrite lookup_total_insert_eq. simpl. by rewrite Hraw.
Qed.

(** [ScheduleTick] does not drift: once initialised, the n-th next expiry is
    exactly n tick intervals after the present one however late each callback
    runs, as long as it is less than an hour late. *)
Theorem ScheduleTick_no_drift nows expiry
  (Hlate : forall k now, nows !! k = Some now -> now <= expiry + 10 * Z.of_nat k + 60 * 60 * 1000) :
  foldl (fun e now => ScheduleTick now e) expiry nows =
    expiry + TICK_INTERVAL_MS * Z.of_nat (length nows).
Proof.
  revert expiry Hlate; induction nows as [|now nows IH]; intros e Hl; simpl.
  { lia. }
  assert (ScheduleTick now e = e + TICK_INTERVAL_MS) as ->.
  { specialize (Hl 0%nat now eq_refl). unfold ScheduleTick.
    destruct (_ <? _) eqn:E; bool_to_prop; [lia|done]. }
  rewrite IH; [unfold TICK_INTERVAL_MS; lia|]. intros k x Hk.
  specialize (Hl (S k) x Hk). unfold TICK_INTERVAL_MS. lia.
Qed.

(** ** Witnesses *)

(** Two timers with the same listener 7: timer 1 once after 25 ms, timer 2 every
    10 ms. *)
Definition demo_add1 : TimerAddMessage := mkTimerAdd 1 100 25 false (Some 7) None None.
Definition demo_add2 : TimerAddMessage := mkTimerAdd 2 200 10 true (Some 7) None None.
Definition everyone (_ : Z) : bool := true.

Lemma no_nodes n nd : nodes TimerImpl_new !! n <> Some nd.
Proof. unfold TimerImpl_new. simpl. by rewrite lookup_empty. Qed.

Lemma cmds_ok_new cs :
  NoDup (add_ids cs) -> Forall (fun m => 0 <= ta_intervalMs m < 2 ^ 32) (omap add_msg cs) ->
  cmds_ok cs TimerImpl_new.
Proof. intros H1 H2. split; [done|]. split; [done|]. intros n nd H. by apply no_nodes in H. Qed.

Lemma demo_ok : cmds_ok [CmdAdd everyone demo_add1; CmdAdd everyone demo_add2;
  CmdTick everyone; CmdTick everyone; CmdTick everyone] TimerImpl_new.
Proof.
  apply cmds_ok_new.
  - change (NoDup [1; 2]). by apply (bool_decide_unpack _).
  - repeat constructor; simpl; lia.
Qed.

Lemma timer_service_refines_spec_witness :
  calls_for 2 <$> (run_cmds [CmdAdd everyone demo_add1; CmdAdd everyone demo_add2;
     CmdTick everyone; CmdTick everyone; CmdTick everyone] TimerImpl_new).1 =
  [[]; []; [mkCall 2 7 false 200 None]; [mkCall 2 7 false 200 None]; [mkCall 2 7 false 200 None]].
Proof.
  pose proof (timer_service_refines_spec _ demo_ok 2) as [_ H]. rewrite H. vm_compute. reflexivity.
Defined.

Lemma one_shot_fires_exactly_once_witness :
  view (run_cmds [CmdAdd everyone demo_add1; CmdTick everyone; CmdTick everyone] TimerImpl_new).2 1 = None.
Proof.
  pose proof (one_shot_fires_exactly_once 0 TimerImpl_new everyone demo_add1
    [CmdTick everyone] everyone [] TimerImpl_new_inv) as H.
  apply H.
  - apply cmds_ok_new.
    + apply NoDup_singleton.
    + repeat constructor; simpl; lia.
  - reflexivity.
  - repeat constructor.
  - reflexivity.
Defined.

Lemma interval_fires_periodically_witness :
  (calls_for 2 <$> (run_cmds [CmdAdd everyone demo_add2; CmdTick everyone; CmdTick everyone]
     TimerImpl_new).1) !! 2%nat = Some [mkCall 2 7 false 200 None].
Proof.
  pose proof (interval_fires_periodically 0 TimerImpl_new everyone demo_add2
    [CmdTick everyone; CmdTick everyone] 1 (CmdTick everyone) TimerImpl_new_inv) as H.
  apply H.
  - apply cmds_ok_new.
    + apply NoDup_singleton.
    + repeat constructor; simpl; lia.
  - reflexivity.
  - repeat constructor.
  - repeat constructor.
  - reflexivity.
Defined.

Lemma cmds_ok_no_adds cs s : add_ids cs = [] -> omap add_msg cs = [] -> cmds_ok cs s.
Proof.
  unfold cmds_ok. intros -> ->. split_and!; [constructor..|]. intros. apply not_elem_of_nil.
Qed.

Lemma demo_inv : timer_inv 0 (OnTimerAdd everyone demo_add1 TimerImpl_new).
Proof.
  apply OnTimerAdd_spec; [apply TimerImpl_new_inv|]. split; [simpl; lia|].
  intros n nd Hn. by apply no_nodes in Hn.
Qed.

Lemma cancelled_timer_never_fires_witness :
  view (run_cmds [CmdCancel (mkTimerCancel 1 None); CmdTick everyone]
    (OnTimerAdd everyone demo_add1 TimerImpl_new)).2 1 = None.
Proof.
  pose proof (cancelled_timer_never_fires 0 (OnTimerAdd everyone demo_add1 TimerImpl_new) 1 None
    [CmdTick everyone] demo_inv) as H.
  apply H; [lia|by apply cmds_ok_no_adds|apply not_elem_of_nil].
Defined.

Lemma unregister_removes_exactly_the_listener_witness :
  Forall (fun o => o = []) (calls_for 1 <$> (run_cmds
    [CmdCancel (mkTimerCancel 0 (Some 7)); CmdTick everyone; CmdTick everyone]
    (OnTimerAdd everyone demo_add1 TimerImpl_new)).1).
Proof.
  pose proof (unregister_removes_exactly_the_listener 0 (OnTimerAdd everyone demo_add1 TimerImpl_new)
    7 [CmdTick everyone; CmdTick everyone] 1 (added_node everyone 0 demo_add1) demo_inv) as H.
  apply H; [by apply cmds_ok_no_adds|apply not_elem_of_nil|reflexivity|reflexivity].
Defined.

Lemma weak_timer_degrades_to_raw_witness :
  (OnTimerExpired (fun _ => false) 3 (OnTimerAdd (fun _ => false)
    (mkTimerAdd 3 300 10 false (Some 9) (Some 9) None) TimerImpl_new)).1 = [mkCall 3 9 false 300 None].
Proof.
  apply (weak_timer_degrades_to_raw TimerImpl_new (fun _ => false) (fun _ => false)
    (mkTimerAdd 3 300 10 false (Some 9) (Some 9) None) 9); reflexivity.
Defined.

Lemma ScheduleTick_no_drift_witness :
  foldl (fun e now => ScheduleTick now e) 1000 [1003; 1900; 1901] = 1030.
Proof.
  apply (ScheduleTick_no_drift [1003; 1900; 1901] 1000).
  intros [|[|[|k]]] now H; simpl in H; inversion H; lia.
Defined.
