(* ===== verification/Session.v ===== *)
(** * Session: the base class of all sessions

    Models src/System/Session/Session.h and Session.cpp: identity, connection
    flag, the I/O reference count that keeps a session alive while operations
    are in flight, and the send path ([SendPacket], [SendPreSerialized],
    [EnqueueSend]) that ends in the virtual [Flush].

    A session method reads and writes the session itself, the message pool, the
    dispatcher (through [Post]) and the socket.  These four are the fields of
    [World], and a method is a computation of the monad [M]: state passing with
    [None] for undefined behaviour (dereferencing a message that was freed), so
    "the method returns [Some]" includes memory safety.  [impl] is the state the
    derived class adds. *)

From stdpp Require Import base numbers gmap functions list.
From S2P Require Import Prelude ConcurrentQueue Messages MessagePool.

Record Session (Q : Type -> Type) := mkSession {
  _id : Z;
  _dispatcher : bool;
  _connected : bool;
  _ioRef : Z;
  _sendQueue : Q Z;
  _isSending : bool
}.
Arguments mkSession {Q} _ _ _ _ _ _.
Arguments _id {Q} _.
Arguments _dispatcher {Q} _.
Arguments _connected {Q} _.
Arguments _ioRef {Q} _.
Arguments _sendQueue {Q} _.
Arguments _isSending {Q} _.

(** What a session asks of the I/O layer, in order. *)
Inductive IoOp :=
| AsyncRead (room : Z)
| AsyncWrite (data : list Z)
| AsyncWait (ms : Z)
| SetNoDelay
| SocketShutdown
| SocketClose
| PingCalled.

Record World (Q : Type -> Type) (T X : Type) := mkWorld {
  ses : Session Q;
  impl : X;
  mem : Mem Q T;
  posted : list Z;
  io : list IoOp
}.
Arguments mkWorld {Q T X} _ _ _ _ _.
Arguments ses {Q T X} _.
Arguments impl {Q T X} _.
Arguments mem {Q T X} _.
Arguments posted {Q T X} _.
Arguments io {Q T X} _.

(** ** The method monad *)

Definition M (Q : Type -> Type) (T X A : Type) : Type := World Q T X -> option (A * World Q T X).

#[global] Instance M_ret {Q T X} : MRet (M Q T X) := fun A a w => Some (a, w).

#[global] Instance M_bind {Q T X} : MBind (M Q T X) :=
  fun A B k m w => match m w with Some (a, w') => k a w' | None => None end.

(** [IPacket]: the size a packet announces and the bytes it serialises to. *)
Record IPacket := mkPacket {
  GetTotalSize : Z;
  SerializeTo : list Z
}.

Section Session.
Context {Q : Type -> Type} `{!ConcurrentQueue Q} {T X : Type}.
Context (sizeofPM : Z).

(** The thread the method runs on (it selects the pool's cache), and the address
    of the session object. *)
Context (tid : nat) (this : Z).

Implicit Types s : Session Q.
Implicit Types w : World Q T X.

(** Primitive actions. *)
Definition gets {A} (f : World Q T X -> A) : M Q T X A := fun w => Some (f w, w).

Definition modify_ses (f : Session Q -> Session Q) : M Q T X unit :=
  fun w => Some (tt, mkWorld (f (ses w)) (impl w) (mem w) (posted w) (io w)).

Definition modify_impl (f : X -> X) : M Q T X unit :=
  fun w => Some (tt, mkWorld (ses w) (f (impl w)) (mem w) (posted w) (io w)).

(** A call into the message pool. *)
Definition pool_call {A} (f : Mem Q T -> A * Mem Q T) : M Q T X A :=
  fun w => let '(a, m) := f (mem w) in
           Some (a, mkWorld (ses w) (impl w) m (posted w) (io w)).

Definition pool_free (p : option Z) : M Q T X unit :=
  fun w => m ← Free tid p (mem w);
           Some (tt, mkWorld (ses w) (impl w) m (posted w) (io w)).

(** [*p], and assignments through [p]. *)
Definition deref (p : Z) : M Q T X (Message T) :=
  fun w => o ← objs (mem w) !! p; Some (o, w).

Definition store (p : Z) (f : Message T -> Message T) : M Q T X unit :=
  fun w => o ← objs (mem w) !! p;
           Some (tt, mkWorld (ses w) (impl w) (put_obj p (f o) (mem w)) (posted w) (io w)).

Definition post (p : Z) : M Q T X unit :=
  fun w => Some (tt, mkWorld (ses w) (impl w) (mem w) (posted w ++ [p]) (io w)).

Definition emit (o : IoOp) : M Q T X unit :=
  fun w => Some (tt, mkWorld (ses w) (impl w) (mem w) (posted w) (io w ++ [o])).

(** Field assignments. *)
Definition set_id (i : Z) s : Session Q :=
  mkSession i (_dispatcher s) (_connected s) (_ioRef s) (_sendQueue s) (_isSending s).
Definition set_dispatcher (d : bool) s : Session Q :=
  mkSession (_id s) d (_connected s) (_ioRef s) (_sendQueue s) (_isSending s).
Definition set_connected (c : bool) s : Session Q :=
  mkSession (_id s) (_dispatcher s) c (_ioRef s) (_sendQueue s) (_isSending s).
Definition set_ioRef (r : Z) s : Session Q :=
  mkSession (_id s) (_dispatcher s) (_connected s) r (_sendQueue s) (_isSending s).
Definition set_sendQueue (q : Q Z) s : Session Q :=
  mkSession (_id s) (_dispatcher s) (_connected s) (_ioRef s) q (_isSending s).
Definition set_isSending (b : bool) s : Session Q :=
  mkSession (_id s) (_dispatcher s) (_connected s) (_ioRef s) (_sendQueue s) b.

(** ** Methods *)

Definition Session_new : Session Q := mkSession 0 false false 0 cq_empty false.

Definition GetId : M Q T X Z := gets (fun w => _id (ses w)).

Definition IsConnected : M Q T X bool := gets (fun w => _connected (ses w)).

Definition CanDestroy : M Q T X bool :=
  gets (fun w => negb (_connected (ses w)) && (_ioRef (ses w) =? 0)).

Definition IncRef : M Q T X unit := modify_ses (fun s => set_ioRef (i32 (_ioRef s + 1)) s).

Definition DecRef : M Q T X unit := modify_ses (fun s => set_ioRef (i32 (_ioRef s - 1)) s).

Fixpoint free_all (ps : list Z) : M Q T X unit :=
  match ps with
  | [] => mret ()
  | p :: ps => pool_free (Some p);; free_all ps
  end.

Definition Session_Reset : M Q T X unit :=
  modify_ses (set_connected false);;
  modify_ses (set_ioRef 0);;
  modify_ses (set_isSending false);;
  q ← gets (fun w => _sendQueue (ses w));
  let '(ps, q') := drain_all q in
  modify_ses (set_sendQueue q');;
  free_all ps.

(** The virtual hook of the derived class. *)
Context (Flush : M Q T X unit).

Definition EnqueueSend (msg : Z) : M Q T X unit :=
  modify_ses (fun s => set_sendQueue (enqueue msg (_sendQueue s)) s);;
  was ← gets (fun w => _isSending (ses w));
  modify_ses (set_isSending true);;
  if negb was then Flush else mret ().

Definition SendPacket (pkt : IPacket) : M Q T X unit :=
  c ← IsConnected;
  if negb c then mret () else
  let size := u16 (GetTotalSize pkt) in
  msg ← pool_call (AllocatePacket sizeofPM tid size);
  store msg (set_payload (SerializeTo pkt));;
  EnqueueSend msg.

(** [SendPacket(PacketPtr)]: on the early return the smart pointer's destructor
    drops the reference. *)
Definition SendPacket_ptr (msg : option Z) : M Q T X unit :=
  c ← IsConnected;
  match msg with
  | None => mret ()
  | Some p => if negb c then pool_free (Some p) else EnqueueSend p
  end.

Definition SendPreSerialized (msg : option Z) : M Q T X unit :=
  c ← IsConnected;
  match msg with
  | None => mret ()
  | Some p => if negb c then mret () else store p AddRef;; EnqueueSend p
  end.

Definition SendReliable (pkt : IPacket) : M Q T X unit := SendPacket pkt.

Definition SendUnreliable (pkt : IPacket) : M Q T X unit := SendPacket pkt.

(** ** SessionContext

    src/System/Session/SessionContext.cpp: a null-checked view of a session.
    [None] is a null [_session]. *)

Context (Close OnPong : M Q T X unit).

Definition SessionContext_Id (c : option unit) : M Q T X Z :=
  match c with Some _ => GetId | None => mret 0 end.

Definition SessionContext_IsConnected (c : option unit) : M Q T X bool :=
  match c with Some _ => IsConnected | None => mret false end.

Definition SessionContext_Send (c : option unit) (pkt : IPacket) : M Q T X unit :=
  ok ← SessionContext_IsConnected c;
  if ok : bool then SendPacket pkt else mret ().

(** [Send(PacketPtr msg)] passes a copy ([AddRef]) to the session, then destroys
    its own [msg] ([Free]). *)
Definition SessionContext_Send_ptr (c : option unit) (msg : option Z) : M Q T X unit :=
  ok ← SessionContext_IsConnected c;
  (if ok : bool then
     match msg with Some p => store p AddRef;; SendPacket_ptr (Some p) | None => SendPacket_ptr None end
   else mret ());;
  pool_free msg.

Definition SessionContext_Close (c : option unit) : M Q T X unit :=
  match c with Some _ => Close | None => mret () end.

Definition SessionContext_OnPong (c : option unit) : M Q T X unit :=
  match c with Some _ => OnPong | None => mret () end.

End Session.

(** ** Ownership

    [refs_ok m l]: every message named in [l] (with multiplicity: a broadcast
    packet sits in many queues) is live and has at least as many references as
    [l] has occurrences of it.  It is what makes releasing them all safe. *)

Section Ownership.
Context {Q : Type -> Type} `{!ConcurrentQueue Q} {T : Type}.
Context (sizeofPM : Z).
Implicit Types m : Mem Q T.

Definition occurrences (a : Z) (l : list Z) : Z := Z.of_nat (count_occ Z.eq_dec l a).

Definition refs_ok m (l : list Z) : Prop :=
  forall a, a ∈ l -> exists o, objs m !! a = Some o /\ occurrences a l <= refCount o.

Lemma occurrences_perm a l l' : l ≡ₚ l' -> occurrences a l = occurrences a l'.
Proof.
  intros H. unfold occurrences. f_equal. by apply (proj1 (Permutation_count_occ Z.eq_dec l l') H).
Qed.

Lemma occurrences_cons a b l : occurrences a (b :: l) = (if decide (a = b) then 1 else 0) + occurrences a l.
Proof.
  unfold occurrences. simpl. destruct (Z.eq_dec b a), (decide (a = b)); subst; try done; lia.
Qed.

Lemma occurrences_pos a l : a ∈ l <-> 0 < occurrences a l.
Proof.
  unfold occurrences. rewrite list_elem_of_In, (count_occ_In Z.eq_dec). lia.
Qed.

#[export] Instance refs_ok_proper m : Proper (Permutation ==> iff) (refs_ok m).
Proof.
  intros l l' H. unfold refs_ok. split; intros Hr a Ha.
  - rewrite <- H in Ha. destruct (Hr a Ha) as (o & ? & ?). exists o. split; [done|].
    by rewrite <- (occurrences_perm _ _ _ H).
  - rewrite H in Ha. destruct (Hr a Ha) as (o & ? & ?). exists o. split; [done|].
    by rewrite (occurrences_perm _ _ _ H).
Qed.

Lemma refs_ok_nil m : refs_ok m [].
Proof. intros a Ha. by apply elem_of_nil in Ha. Qed.

(** A state whose messages have no fewer references keeps its owners safe. *)
Lemma refs_ok_mono m m' l :
  refs_ok m l ->
  (forall a o, a ∈ l -> objs m !! a = Some o -> exists o', objs m' !! a = Some o' /\ refCount o <= refCount o') ->
  refs_ok m' l.
Proof.
  intros Hr Hm a Ha. destruct (Hr a Ha) as (o & Ho & Hc).
  destruct (Hm a o Ha Ho) as (o' & ? & ?). exists o'. split; [done|lia].
Qed.

Lemma refs_ok_tail m a l : refs_ok m (a :: l) -> refs_ok m l.
Proof.
  intros Hr b Hb. destruct (Hr b ltac:(by right)) as (o & ? & Hc). exists o. split; [done|].
  rewrite occurrences_cons in Hc. destruct (decide (b = a)); lia.
Qed.

(** Releasing one owned reference. *)
Lemma Free_refs tid a l m :
  mem_inv sizeofPM m -> refs_ok m (a :: l) ->
  exists m', Free tid (Some a) m = Some m' /\ mem_inv sizeofPM m' /\ refs_ok m' l /\
    (forall b, b <> a -> objs m' !! b = objs m !! b) /\
    (forall b o', objs m' !! b = Some o' -> exists o, objs m !! b = Some o /\ body o' = body o).
Proof.
  intros Hi Hr. destruct (Hr a ltac:(left)) as (o & Ho & Hc).
  rewrite occurrences_cons, decide_True in Hc by done.
  destruct (Free_spec sizeofPM tid a o m Hi Ho) as (m' & Hf & Hi' & Hcase).
  exists m'. split; [done|]. split; [done|].
  destruct (refCount o =? 1) eqn:E; bool_to_prop.
  - destruct Hcase as [Hob _]. assert (occurrences a l <= 0) as Hz by lia.
    split_and!.
    + intros b Hb. assert (b <> a) as Hne by (intros ->; apply occurrences_pos in Hb; lia).
      destruct (refs_ok_tail _ _ _ Hr b Hb) as (ob & ? & ?). exists ob.
      by rewrite Hob, lookup_delete_ne.
    + intros b Hb. by rewrite Hob, lookup_delete_ne.
    + intros b o'. rewrite Hob. intros [_ ?]%lookup_delete_Some. by exists o'.
  - split_and!.
    + intros b Hb. destruct (decide (b = a)) as [->|Hne].
      * exists (set_refCount (refCount o - 1) o). rewrite Hcase, lookup_insert_eq. split; [done|]. simpl. lia.
      * destruct (refs_ok_tail _ _ _ Hr b Hb) as (ob & ? & ?). exists ob.
        by rewrite Hcase, lookup_insert_ne.
    + intros b Hb. by rewrite Hcase, lookup_insert_ne.
    + intros b o'. rewrite Hcase. intros [[<- <-]|[_ ?]]%lookup_insert_Some; [by exists o|by exists o'].
Qed.

Context {X : Type}.
Implicit Types w : World Q T X.

Definition with_mem m w : World Q T X := mkWorld (ses w) (impl w) m (posted w) (io w).

Lemma free_all_ok tid ps l w :
  mem_inv sizeofPM (mem w) -> refs_ok (mem w) (ps ++ l) ->
  exists m', free_all tid ps w = Some (tt, with_mem m' w) /\ mem_inv sizeofPM m' /\ refs_ok m' l /\
    forall b, b ∉ ps -> objs m' !! b = objs (mem w) !! b.
Proof.
  revert w; induction ps as [|p ps IH]; intros w Hi Hr.
  - exists (mem w). split_and!; try done. by destruct w.
  - destruct (Free_refs tid p (ps ++ l) (mem w) Hi Hr) as (m1 & Hf & Hi1 & Hr1 & Ho1 & _).
    destruct (IH (with_mem m1 w) Hi1 Hr1) as (m2 & Hf2 & Hi2 & Hr2 & Ho2).
    exists m2. split_and!; try done.
    + simpl. unfold mbind, M_bind, pool_free. rewrite Hf. simpl. exact Hf2.
    + intros b Hb. rewrite not_elem_of_cons in Hb. rewrite Ho2 by tauto. simpl. apply Ho1. tauto.
Qed.

End Ownership.

(** ** Running a method: one equation per primitive *)

Section Run.
Context {Q : Type -> Type} `{!ConcurrentQueue Q} {T X : Type}.
Implicit Types w : World Q T X.

Lemma run_gets {A B} (f : World Q T X -> A) (k : A -> M Q T X B) w :
  (gets f ≫= k) w = k (f w) w.
Proof. done. Qed.

Lemma run_modify_ses {B} f (k : unit -> M Q T X B) w :
  (modify_ses f ≫= k) w = k () (mkWorld (f (ses w)) (impl w) (mem w) (posted w) (io w)).
Proof. done. Qed.

Lemma run_modify_impl {B} f (k : unit -> M Q T X B) w :
  (modify_impl f ≫= k) w = k () (mkWorld (ses w) (f (impl w)) (mem w) (posted w) (io w)).
Proof. done. Qed.

Lemma run_emit {B} o (k : unit -> M Q T X B) w :
  (emit o ≫= k) w = k () (mkWorld (ses w) (impl w) (mem w) (posted w) (io w ++ [o])).
Proof. done. Qed.

Lemma run_post {B} p (k : unit -> M Q T X B) w :
  (post p ≫= k) w = k () (mkWorld (ses w) (impl w) (mem w) (posted w ++ [p]) (io w)).
Proof. done. Qed.

Lemma run_ret {A B} (a : A) (k : A -> M Q T X B) w : (mret a ≫= k) w = k a w.
Proof. done. Qed.

Lemma run_deref {B} p (k : Message T -> M Q T X B) w o :
  objs (mem w) !! p = Some o -> (deref p ≫= k) w = k o w.
Proof. intros H. unfold mbind, M_bind, deref. by rewrite H. Qed.

Lemma run_store {B} p f (k : unit -> M Q T X B) w o :
  objs (mem w) !! p = Some o ->
  (store p f ≫= k) w = k () (with_mem (put_obj p (f o) (mem w)) w).
Proof. intros H. unfold mbind, M_bind, store. by rewrite H. Qed.

Lemma run_pool_call {A B} f (k : A -> M Q T X B) w a m :
  f (mem w) = (a, m) -> (pool_call f ≫= k) w = k a (with_mem m w).
Proof. intros H. unfold mbind, M_bind, pool_call. by rewrite H. Qed.

Lemma run_pool_free {B} tid p (k : unit -> M Q T X B) w m :
  Free tid p (mem w) = Some m -> (pool_free tid p ≫= k) w = k () (with_mem m w).
Proof. intros H. unfold mbind, M_bind, pool_free. by rewrite H. Qed.

Lemma run_step {A B} (m : M Q T X A) (k : A -> M Q T X B) w a w' :
  m w = Some (a, w') -> (m ≫= k) w = k a w'.
Proof. intros H. unfold mbind, M_bind. by rewrite H. Qed.

Lemma run_assoc {A B C} (m : M Q T X A) (k : A -> M Q T X B) (k' : B -> M Q T X C) w :
  ((m ≫= k) ≫= k') w = (m ≫= (fun a => k a ≫= k')) w.
Proof. unfold mbind, M_bind. by destruct (m w) as [[a w']|]. Qed.

End Run.
