(* ===== verification/Cipher.v ===== *)
(** * Cipher: packet payload encryption

    Models src/System/Network/IPacketEncryption.h (the interface the sessions
    call), XorEncryption.h and AesEncryption.h/.cpp (AES-128 in CBC mode, written
    out in the repository).

    [Encrypt(src, dest, length)] is a function of the [length] bytes at [src]; it
    returns [None] when the implementation would touch bytes outside
    [src[0..length)] or [dest[0..length)].  Bytes are [Z] in [0, 256). *)

From stdpp Require Import base numbers list.
From S2P Require Import Prelude.

(** The interface: an object with two virtual methods. *)
Record IPacketEncryption := mkCipher {
  Encrypt : list Z -> option (list Z);
  Decrypt : list Z -> option (list Z)
}.

(** What a session needs of the object installed by [SetEncryption], for the
    payload lengths in [ok]: the length is unchanged, and the peer's [Decrypt]
    recovers the payload. *)
Class LawfulCipher (c : IPacketEncryption) (ok : nat -> Prop) := {
  cipher_roundtrip : forall bs, Forall is_byte bs -> ok (length bs) ->
    exists cs, Encrypt c bs = Some cs /\ length cs = length bs /\ Forall is_byte cs /\
      Decrypt c cs = Some bs
}.

(** ** Bytes and exclusive or *)

Lemma lxor_byte a b : is_byte a -> is_byte b -> is_byte (Z.lxor a b).
Proof.
  unfold is_byte. intros Ha Hb. split; [apply Z.lxor_nonneg; lia|].
  change 256 with (2 ^ 8). destruct (decide (Z.lxor a b = 0)) as [->|Hne]; [lia|].
  apply Z.log2_lt_pow2; [pose proof (proj2 (Z.lxor_nonneg a b)); lia|].
  eapply Z.le_lt_trans; [apply Z.log2_lxor; lia|]. apply Z.max_lub_lt.
  - destruct (decide (a = 0)) as [->|]; [simpl; lia|]. apply Z.log2_lt_pow2; lia.
  - destruct (decide (b = 0)) as [->|]; [simpl; lia|]. apply Z.log2_lt_pow2; lia.
Qed.

Lemma lxor_cancel a b : Z.lxor (Z.lxor a b) b = a.
Proof. by rewrite Z.lxor_assoc, Z.lxor_nilpotent, Z.lxor_0_r. Qed.

Lemma u8_byte z : is_byte (u8 z).
Proof. unfold is_byte, wrap. change (2 ^ 8) with 256. by apply Z.mod_pos_bound. Qed.

(** ** XorEncryption *)

Module Xor.

(** The loop of [Encrypt]: the key becomes the last cipher byte. *)
Fixpoint encrypt_loop (key : Z) (src : list Z) : list Z :=
  match src with
  | [] => []
  | plain :: src' =>
      let cipher := Z.lxor plain key in cipher :: encrypt_loop cipher src'
  end.

Fixpoint decrypt_loop (key : Z) (src : list Z) : list Z :=
  match src with
  | [] => []
  | cipher :: src' =>
      let plain := Z.lxor cipher key in plain :: decrypt_loop cipher src'
  end.

Definition XorEncryption (key : Z) : IPacketEncryption :=
  mkCipher (fun src => Some (encrypt_loop key src)) (fun src => Some (decrypt_loop key src)).

Lemma decrypt_encrypt key src : decrypt_loop key (encrypt_loop key src) = src.
Proof.
  revert key; induction src as [|p src IH]; intros key; simpl; [done|].
  by rewrite lxor_cancel, IH.
Qed.

Lemma encrypt_bytes key src : is_byte key -> Forall is_byte src -> Forall is_byte (encrypt_loop key src).
Proof.
  intros Hk Hs; revert key Hk; induction Hs as [|p src Hp Hs IH]; intros key Hk; simpl; [done|].
  assert (is_byte (Z.lxor p key)) by by apply lxor_byte. constructor; [done|by apply IH].
Qed.

Lemma length_encrypt key src : length (encrypt_loop key src) = length src.
Proof. revert key; induction src as [|p src IH]; intros key; simpl; by rewrite ?IH. Qed.

End Xor.

#[export] Instance XorEncryption_lawful key (Hk : is_byte key) :
  LawfulCipher (Xor.XorEncryption key) (fun _ => True).
Proof.
  split. intros bs Hb _. exists (Xor.encrypt_loop key bs). simpl. split_and!; try done.
  - apply Xor.length_encrypt.
  - by apply Xor.encrypt_bytes.
  - by rewrite Xor.decrypt_encrypt.
Qed.

(** ** AesEncryption *)

Module Aes.

Definition sbox : list Z :=
  [99; 124; 119; 123; 242; 107; 111; 197; 48; 1; 103; 43; 254; 215; 171; 118;
   202; 130; 201; 125; 250; 89; 71; 240; 173; 212; 162; 175; 156; 164; 114; 192;
   183; 253; 147; 38; 54; 63; 247; 204; 52; 165; 229; 241; 113; 216; 49; 21;
   4; 199; 35; 195; 24; 150; 5; 154; 7; 18; 128; 226; 235; 39; 178; 117;
   9; 131; 44; 26; 27; 110; 90; 160; 82; 59; 214; 179; 41; 227; 47; 132;
   83; 209; 0; 237; 32; 252; 177; 91; 106; 203; 190; 57; 74; 76; 88; 207;
   208; 239; 170; 251; 67; 77; 51; 133; 69; 249; 2; 127; 80; 60; 159; 168;
   81; 163; 64; 143; 146; 157; 56; 245; 188; 182; 218; 33; 16; 255; 243; 210;
   205; 12; 19; 236; 95; 151; 68; 23; 196; 167; 126; 61; 100; 93; 25; 115;
   96; 129; 79; 220; 34; 42; 144; 136; 70; 238; 184; 20; 222; 94; 11; 219;
   224; 50; 58; 10; 73; 6; 36; 92; 194; 211; 172; 98; 145; 149; 228; 121;
   231; 200; 55; 109; 141; 213; 78; 169; 108; 86; 244; 234; 101; 122; 174; 8;
   186; 120; 37; 46; 28; 166; 180; 198; 232; 221; 116; 31; 75; 189; 139; 138;
   112; 62; 181; 102; 72; 3; 246; 14; 97; 53; 87; 185; 134; 193; 29; 158;
   225; 248; 152; 17; 105; 217; 142; 148; 155; 30; 135; 233; 206; 85; 40; 223;
   140; 161; 137; 13; 191; 230; 66; 104; 65; 153; 45; 15; 176; 84; 187; 22].

Definition rsbox : list Z :=
  [82; 9; 106; 213; 48; 54; 165; 56; 191; 64; 163; 158; 129; 243; 215; 251;
   124; 227; 57; 130; 155; 47; 255; 135; 52; 142; 67; 68; 196; 222; 233; 203;
   84; 123; 148; 50; 166; 194; 35; 61; 238; 76; 149; 11; 66; 250; 195; 78;
   8; 46; 161; 102; 40; 217; 36; 178; 118; 91; 162; 73; 109; 139; 209; 37;
   114; 248; 246; 100; 134; 104; 152; 22; 212; 164; 92; 204; 93; 101; 182; 146;
   108; 112; 72; 80; 253; 237; 185; 218; 94; 21; 70; 87; 167; 141; 157; 132;
   144; 216; 171; 0; 140; 188; 211; 10; 247; 228; 88; 5; 184; 179; 69; 6;
   208; 44; 30; 143; 202; 63; 15; 2; 193; 175; 189; 3; 1; 19; 138; 107;
   58; 145; 17; 65; 79; 103; 220; 234; 151; 242; 207; 206; 240; 180; 230; 115;
   150; 172; 116; 34; 231; 173; 53; 133; 226; 249; 55; 232; 28; 117; 223; 110;
   71; 241; 26; 113; 29; 41; 197; 137; 111; 183; 98; 14; 170; 24; 190; 27;
   252; 86; 62; 75; 198; 210; 121; 32; 154; 219; 192; 254; 120; 205; 90; 244;
   31; 221; 168; 51; 136; 7; 199; 49; 177; 18; 16; 89; 39; 128; 236; 95;
   96; 81; 127; 169; 25; 181; 74; 13; 45; 229; 122; 159; 147; 201; 156; 239;
   160; 224; 59; 77; 174; 42; 245; 176; 200; 235; 187; 60; 131; 83; 153; 97;
   23; 43; 4; 126; 186; 119; 214; 38; 225; 105; 20; 99; 85; 33; 12; 125].

Definition Rcon : list Z := [141; 1; 2; 4; 8; 16; 32; 64; 128; 27; 54].

(** Array reads; every index below is in range. *)
Definition at_ (l : list Z) (i : nat) : Z := nth i l 0.
Definition sub_byte (x : Z) : Z := nth (Z.to_nat x) sbox 0.
Definition rsub_byte (x : Z) : Z := nth (Z.to_nat x) rsbox 0.

(** The loop [dst[i] = a[i] ^ b[i]]. *)
Definition xor_list (a b : list Z) : list Z := zip_with Z.lxor a b.

(** *** Key schedule *)

(** One iteration of the loop of [KeyExpansion]: round key [i] from [i - 1]. *)
Definition next_round_key (i : nat) (prev : list Z) : list Z :=
  let temp := [Z.lxor (sub_byte (at_ prev 13)) (at_ Rcon i); sub_byte (at_ prev 14);
               sub_byte (at_ prev 15); sub_byte (at_ prev 12)] in
  let k0 := xor_list (take 4 prev) temp in
  let k1 := xor_list (sub_list 4 4 prev) k0 in
  let k2 := xor_list (sub_list 8 4 prev) k1 in
  let k3 := xor_list (sub_list 12 4 prev) k2 in
  k0 ++ k1 ++ k2 ++ k3.

Definition KeyExpansion (key : list Z) : list (list Z) :=
  foldl (fun ks i => ks ++ [next_round_key i (List.last ks [])]) [key] (seq 1 10).

(** *** Blocks *)

(** The macro, on [int] operands: the shift is not truncated. *)
Definition XTIME (x : Z) : Z :=
  Z.lxor (Z.shiftl x 1) (Z.land (Z.shiftr x 7) 1 * 27).

Definition xors (l : list Z) : Z := foldr Z.lxor 0 l.

(** SubBytes and ShiftRows. *)
Definition sub_shift (state : list Z) : list Z :=
  map (fun k => sub_byte (at_ state k))
    [0; 5; 10; 15; 4; 9; 14; 3; 8; 13; 2; 7; 12; 1; 6; 11]%nat.

Definition mix_column (s0 s1 s2 s3 : Z) : list Z :=
  [u8 (xors [XTIME s0; XTIME s1; s1; s2; s3]);
   u8 (xors [s0; XTIME s1; XTIME s2; s2; s3]);
   u8 (xors [s0; s1; XTIME s2; XTIME s3; s3]);
   u8 (xors [XTIME s0; s0; s1; s2; XTIME s3])].

(** The loop [for (i = 0; i < 16; i += 4)] over the columns. *)
Definition columns (f : Z -> Z -> Z -> Z -> list Z) (t : list Z) : list Z :=
  flat_map (fun i => f (at_ t i) (at_ t (i + 1)) (at_ t (i + 2)) (at_ t (i + 3)))
    [0; 4; 8; 12]%nat.

Definition MixColumns (t : list Z) : list Z := columns mix_column t.

Definition round_key (rk : list (list Z)) (r : nat) : list Z := nth r rk [].

Definition EncryptBlock (rk : list (list Z)) (inp : list Z) : list Z :=
  let state := xor_list inp (round_key rk 0) in
  let state := foldl (fun state round =>
    xor_list (MixColumns (sub_shift state)) (round_key rk round)) state (seq 1 9) in
  xor_list (sub_shift state) (round_key rk 10).

(** InvShiftRows and InvSubBytes. *)
Definition inv_sub_shift (state : list Z) : list Z :=
  map (fun k => rsub_byte (at_ state k))
    [0; 13; 10; 7; 4; 1; 14; 11; 8; 5; 2; 15; 12; 9; 6; 3]%nat.

(** The four products of InvMixColumns, as sums of the terms of each source line. *)
Definition mul0e (s : Z) : list Z := [XTIME (XTIME (XTIME s)); XTIME (XTIME s); XTIME s].
Definition mul0b (s : Z) : list Z := [XTIME (XTIME (XTIME s)); XTIME s; s].
Definition mul0d (s : Z) : list Z := [XTIME (XTIME (XTIME s)); XTIME (XTIME s); s].
Definition mul09 (s : Z) : list Z := [XTIME (XTIME (XTIME s)); s].

Definition inv_mix_column (s0 s1 s2 s3 : Z) : list Z :=
  [u8 (xors (mul0e s0 ++ mul0b s1 ++ mul0d s2 ++ mul09 s3));
   u8 (xors (mul0e s1 ++ mul0b s2 ++ mul0d s3 ++ mul09 s0));
   u8 (xors (mul0e s2 ++ mul0b s3 ++ mul0d s0 ++ mul09 s1));
   u8 (xors (mul0e s3 ++ mul0b s0 ++ mul0d s1 ++ mul09 s2))].

Definition InvMixColumns (t : list Z) : list Z := columns inv_mix_column t.

Definition DecryptBlock (rk : list (list Z)) (inp : list Z) : list Z :=
  let state := xor_list inp (round_key rk 10) in
  let state := foldl (fun state round =>
    InvMixColumns (xor_list (inv_sub_shift state) (round_key rk round))) state
    (rev (seq 1 9)) in
  xor_list (inv_sub_shift state) (round_key rk 0).

(** *** CBC mode

    [n] is the number of iterations of [for (i = 0; i < length; i += 16)]; an
    iteration on fewer than 16 remaining bytes is an out-of-bounds access. *)

Fixpoint cbc_encrypt (rk : list (list Z)) (n : nat) (iv src : list Z) : option (list Z) :=
  match n with
  | O => Some []
  | S n' =>
      if decide (length src < 16)%nat then None
      else
        let block := EncryptBlock rk (xor_list (take 16 src) iv) in
        rest ← cbc_encrypt rk n' block (drop 16 src);
        Some (block ++ rest)
  end.

Fixpoint cbc_decrypt (rk : list (list Z)) (n : nat) (iv src : list Z) : option (list Z) :=
  match n with
  | O => Some []
  | S n' =>
      if decide (length src < 16)%nat then None
      else
        let output := DecryptBlock rk (take 16 src) in
        rest ← cbc_decrypt rk n' (take 16 src) (drop 16 src);
        Some (xor_list output iv ++ rest)
  end.

Definition iterations (length : nat) : nat := (length + 15) / 16.

(** The constructor throws [std::invalid_argument] on a wrong key or IV size. *)
Definition AesEncryption (key iv : list Z) : option IPacketEncryption :=
  if decide (length key <> 16%nat) then None
  else if decide (length iv <> 16%nat) then None
  else
    let rk := KeyExpansion key in
    Some (mkCipher (fun src => cbc_encrypt rk (iterations (length src)) iv src)
                   (fun src => cbc_decrypt rk (iterations (length src)) iv src)).

(** *** MixColumns is inverted by InvMixColumns

    Both are linear for exclusive or, so it is enough to evaluate their
    composition on the columns with one nonzero byte. *)

Lemma land_lxor a b c : Z.land (Z.lxor a b) c = Z.lxor (Z.land a c) (Z.land b c).
Proof.
  apply Z.bits_inj'. intros n Hn. rewrite !Z.land_spec, !Z.lxor_spec, !Z.land_spec.
  by destruct (Z.testbit a n), (Z.testbit b n), (Z.testbit c n).
Qed.

Lemma u8_lxor a b : u8 (Z.lxor a b) = Z.lxor (u8 a) (u8 b).
Proof. unfold wrap. rewrite <- !land_mask by lia. apply land_lxor. Qed.

Lemma XTIME_lxor a b : XTIME (Z.lxor a b) = Z.lxor (XTIME a) (XTIME b).
Proof.
  unfold XTIME. rewrite Z.shiftl_lxor, Z.shiftr_lxor, land_lxor.
  assert (forall z, Z.land z 1 = 0 \/ Z.land z 1 = 1) as Hbit.
  { intros z. pose proof (land_mask z 1 ltac:(lia)) as E. change (2 ^ 1 - 1) with 1 in E.
    rewrite E. pose proof (Z.mod_pos_bound z (2 ^ 1)). lia. }
  assert (forall x y, x = 0 \/ x = 1 -> y = 0 \/ y = 1 ->
    Z.lxor x y * 27 = Z.lxor (x * 27) (y * 27)) as Hm.
  { by intros x y [->| ->] [->| ->]. }
  rewrite (Hm _ _ (Hbit _) (Hbit _)), !Z.lxor_assoc. f_equal.
  rewrite <- !Z.lxor_assoc. f_equal. apply Z.lxor_comm.
Qed.

Lemma xors_zip l1 l2 : length l1 = length l2 ->
  xors (zip_with Z.lxor l1 l2) = Z.lxor (xors l1) (xors l2).
Proof.
  revert l2; induction l1 as [|a l1 IH]; intros [|b l2] H; try done.
  unfold xors in *. cbn [zip_with foldr]. rewrite IH by (simpl in H; lia).
  rewrite !Z.lxor_assoc. f_equal. rewrite <- !Z.lxor_assoc. f_equal. apply Z.lxor_comm.
Qed.

Definition linear4 (f : Z -> Z -> Z -> Z -> list Z) : Prop :=
  forall a0 a1 a2 a3 b0 b1 b2 b3,
    f (Z.lxor a0 b0) (Z.lxor a1 b1) (Z.lxor a2 b2) (Z.lxor a3 b3) =
    zip_with Z.lxor (f a0 a1 a2 a3) (f b0 b1 b2 b3).

(** One component: its terms are linear one by one. *)
Ltac linear_component :=
  match goal with
  | |- u8 (xors ?l) = Z.lxor (u8 (xors ?l1)) (u8 (xors ?l2)) =>
      transitivity (u8 (xors (zip_with Z.lxor l1 l2)));
      [cbn [zip_with app mul0e mul0b mul0d mul09]; by rewrite !XTIME_lxor|];
      rewrite xors_zip by done; apply u8_lxor
  end.

Lemma mix_column_linear : linear4 mix_column.
Proof.
  intros a0 a1 a2 a3 b0 b1 b2 b3. unfold mix_column. cbn [zip_with].
  repeat f_equal; linear_component.
Qed.

Lemma inv_mix_column_linear : linear4 inv_mix_column.
Proof.
  intros a0 a1 a2 a3 b0 b1 b2 b3. unfold inv_mix_column, mul0e, mul0b, mul0d, mul09. cbn [zip_with].
  repeat f_equal; linear_component.
Qed.

Definition apply4 (f : Z -> Z -> Z -> Z -> list Z) (l : list Z) : list Z :=
  f (at_ l 0) (at_ l 1) (at_ l 2) (at_ l 3).

Definition mix_roundtrip (s0 s1 s2 s3 : Z) : list Z := apply4 inv_mix_column (mix_column s0 s1 s2 s3).

Lemma mix_roundtrip_linear : linear4 mix_roundtrip.
Proof.
  intros a0 a1 a2 a3 b0 b1 b2 b3. unfold mix_roundtrip. rewrite mix_column_linear.
  apply inv_mix_column_linear.
Qed.

Definition all_bytes : list Z := map Z.of_nat (seq 0 256).

Lemma all_bytes_In x : is_byte x -> In x all_bytes.
Proof.
  intros [? ?]. unfold all_bytes. apply in_map_iff. exists (Z.to_nat x). split; [lia|].
  apply in_seq. lia.
Qed.

Lemma by_all_bytes (P : Z -> Prop) `{!forall x, Decision (P x)} x :
  forallb (fun x => bool_decide (P x)) all_bytes = true -> is_byte x -> P x.
Proof.
  intros Hall Hx. eapply bool_decide_eq_true_1, (proj1 (forallb_forall _ all_bytes) Hall).
  by apply all_bytes_In.
Qed.

Lemma mix_roundtrip_one x : is_byte x ->
  mix_roundtrip x 0 0 0 = [x; 0; 0; 0] /\ mix_roundtrip 0 x 0 0 = [0; x; 0; 0] /\
  mix_roundtrip 0 0 x 0 = [0; 0; x; 0] /\ mix_roundtrip 0 0 0 x = [0; 0; 0; x].
Proof.
  apply (by_all_bytes (fun x =>
    mix_roundtrip x 0 0 0 = [x; 0; 0; 0] /\ mix_roundtrip 0 x 0 0 = [0; x; 0; 0] /\
    mix_roundtrip 0 0 x 0 = [0; 0; x; 0] /\ mix_roundtrip 0 0 0 x = [0; 0; 0; x])).
  by vm_compute.
Qed.

Lemma mix_roundtrip_id s0 s1 s2 s3 :
  is_byte s0 -> is_byte s1 -> is_byte s2 -> is_byte s3 -> mix_roundtrip s0 s1 s2 s3 = [s0; s1; s2; s3].
Proof.
  intros H0 H1 H2 H3.
  pose proof (mix_roundtrip_linear s0 s1 0 0 0 0 s2 s3) as E.
  rewrite !Z.lxor_0_l, !Z.lxor_0_r in E. rewrite E.
  pose proof (mix_roundtrip_linear s0 0 0 0 0 s1 0 0) as E1.
  pose proof (mix_roundtrip_linear 0 0 s2 0 0 0 0 s3) as E2.
  rewrite !Z.lxor_0_l, !Z.lxor_0_r in E1, E2. rewrite E1, E2.
  destruct (mix_roundtrip_one s0 H0) as (-> & _). destruct (mix_roundtrip_one s1 H1) as (_ & -> & _).
  destruct (mix_roundtrip_one s2 H2) as (_ & _ & -> & _).
  destruct (mix_roundtrip_one s3 H3) as (_ & _ & _ & ->).
  cbn [zip_with]. by rewrite !Z.lxor_0_l, !Z.lxor_0_r.
Qed.

Lemma rsub_sub x : is_byte x -> rsub_byte (sub_byte x) = x /\ is_byte (sub_byte x).
Proof.
  apply (by_all_bytes (fun x => rsub_byte (sub_byte x) = x /\ is_byte (sub_byte x))).
  by vm_compute.
Qed.

(** *** States *)

Definition is_block (l : list Z) : Prop := length l = 16%nat /\ Forall is_byte l.

Lemma block_cases l : is_block l -> exists a0 a1 a2 a3 a4 a5 a6 a7 a8 a9 a10 a11 a12 a13 a14 a15,
  l = [a0; a1; a2; a3; a4; a5; a6; a7; a8; a9; a10; a11; a12; a13; a14; a15].
Proof. intros [Hl _]. do 16 (destruct l as [|? l]; [done|]). destruct l; [|done]. by repeat eexists. Qed.

Lemma at_byte l i : Forall is_byte l -> is_byte (at_ l i).
Proof.
  intros Hl. unfold at_. destruct (nth_in_or_default i l 0) as [Hin| ->]; [|done].
  by eapply (proj1 (List.Forall_forall _ _) Hl).
Qed.

Lemma xor_list_block a b : is_block a -> is_block b -> is_block (xor_list a b).
Proof.
  intros [Ha Ba] [Hb Bb]. split; [unfold xor_list; rewrite length_zip_with; lia|].
  clear Ha Hb. unfold xor_list. revert b Bb.
  induction Ba as [|x a Hx Ba IH]; intros [|y b] Bb; simpl; try constructor.
  - apply Forall_cons in Bb as [Hy _]. by apply lxor_byte.
  - apply Forall_cons in Bb as [_ Bb]. by apply IH.
Qed.

Lemma xor_list_cancel a b : length a = length b -> xor_list (xor_list a b) b = a.
Proof.
  unfold xor_list. revert b; induction a as [|x a IH]; intros [|y b] H; try done.
  simpl. rewrite lxor_cancel, IH by (simpl in H; lia). done.
Qed.

Lemma sub_shift_block s : is_block s -> is_block (sub_shift s).
Proof.
  intros [Hl Hb]. split; [done|]. apply Forall_map, List.Forall_forall. intros k _.
  by apply rsub_sub, at_byte.
Qed.

Lemma inv_sub_shift_sub_shift s : is_block s -> inv_sub_shift (sub_shift s) = s.
Proof.
  intros Hs. pose proof (proj2 Hs) as Hb.
  destruct (block_cases s Hs) as (?&?&?&?&?&?&?&?&?&?&?&?&?&?&?&?& ->).
  repeat match goal with H : Forall is_byte (_ :: _) |- _ => apply Forall_cons in H as [? H] end.
  unfold inv_sub_shift, sub_shift, at_. cbn [map nth].
  by repeat rewrite (fun x H => proj1 (rsub_sub x H)) by done.
Qed.

Lemma MixColumns_block t : is_block (MixColumns t).
Proof. split; [done|]. repeat constructor; apply u8_byte. Qed.

Lemma InvMixColumns_MixColumns t : is_block t -> InvMixColumns (MixColumns t) = t.
Proof.
  intros Ht. pose proof (proj2 Ht) as Hb.
  destruct (block_cases t Ht) as (?&?&?&?&?&?&?&?&?&?&?&?&?&?&?&?& ->).
  repeat match goal with H : Forall is_byte (_ :: _) |- _ => apply Forall_cons in H as [? H] end.
  match goal with |- _ = [?a; ?b; ?c; ?d; ?e; ?f; ?g; ?h; ?i; ?j; ?k; ?l; ?m; ?n; ?o; ?p] =>
    transitivity (mix_roundtrip a b c d ++ mix_roundtrip e f g h ++
                  mix_roundtrip i j k l ++ mix_roundtrip m n o p ++ [])
  end.
  - reflexivity.
  - by rewrite !mix_roundtrip_id.
Qed.

(** *** Blocks and CBC *)

Definition keys_ok (rk : list (list Z)) : Prop := length rk = 11%nat /\ Forall is_block rk.

Lemma round_key_block rk r : keys_ok rk -> (r <= 10)%nat -> is_block (round_key rk r).
Proof.
  intros [Hl Hk] Hr. unfold round_key.
  apply (proj1 (List.Forall_forall _ _) Hk), nth_In. lia.
Qed.

Definition enc_round (rk : list (list Z)) (state : list Z) (round : nat) : list Z :=
  xor_list (MixColumns (sub_shift state)) (round_key rk round).

Definition dec_round (rk : list (list Z)) (state : list Z) (round : nat) : list Z :=
  InvMixColumns (xor_list (inv_sub_shift state) (round_key rk round)).

Lemma rounds_inverse rk rs s :
  keys_ok rk -> Forall (fun r => r <= 10)%nat rs -> is_block s ->
  is_block (foldl (enc_round rk) s rs) /\
  foldl (dec_round rk) (sub_shift (foldl (enc_round rk) s rs)) (rev rs) = sub_shift s.
Proof.
  intros Hk Hrs. revert s; induction Hrs as [|r rs Hr Hrs IH]; intros s Hs; [done|]. simpl.
  pose proof (round_key_block rk r Hk Hr) as Hkr.
  assert (is_block (enc_round rk s r)) as Hs1 by (apply xor_list_block; [apply MixColumns_block|done]).
  destruct (IH _ Hs1) as [H1 H2]. split; [done|].
  rewrite foldl_app, H2. simpl. unfold dec_round. rewrite inv_sub_shift_sub_shift by done.
  unfold enc_round. rewrite xor_list_cancel.
  - apply InvMixColumns_MixColumns. by apply sub_shift_block.
  - rewrite (proj1 (MixColumns_block _)). symmetry. apply Hkr.
Qed.

Lemma EncryptBlock_block rk inp : keys_ok rk -> is_block inp -> is_block (EncryptBlock rk inp).
Proof.
  intros Hk Hi. apply xor_list_block; [|by apply round_key_block]. apply sub_shift_block.
  apply (rounds_inverse rk (seq 1 9)); [done|repeat constructor; lia|].
  apply xor_list_block; [done|]. apply round_key_block; [done|lia].
Qed.

Lemma DecryptBlock_EncryptBlock rk inp :
  keys_ok rk -> is_block inp -> DecryptBlock rk (EncryptBlock rk inp) = inp.
Proof.
  intros Hk Hi. pose proof (round_key_block rk 0 Hk ltac:(lia)) as H0.
  pose proof (round_key_block rk 10 Hk ltac:(lia)) as H10.
  assert (is_block (xor_list inp (round_key rk 0))) as Hs by by apply xor_list_block.
  destruct (rounds_inverse rk (seq 1 9) _ Hk ltac:(repeat constructor; lia) Hs) as [Hb Hd].
  unfold DecryptBlock, EncryptBlock. fold (enc_round rk) (dec_round rk).
  rewrite xor_list_cancel by (rewrite (proj1 H10); apply sub_shift_block, Hb).
  change (foldl (fun state round => dec_round rk state round)) with (foldl (dec_round rk)).
  change (foldl (fun state round => enc_round rk state round)) with (foldl (enc_round rk)).
  rewrite Hd, inv_sub_shift_sub_shift by done. apply xor_list_cancel.
  rewrite (proj1 Hi). symmetry. apply H0.
Qed.

Lemma next_round_key_block i prev : (i <= 10)%nat -> is_block prev -> is_block (next_round_key i prev).
Proof.
  intros Hi Hp. pose proof (proj2 Hp) as Hb.
  assert (is_byte (at_ Rcon i)) as Hr.
  { apply at_byte. unfold Rcon. repeat constructor; lia. }
  destruct (block_cases prev Hp) as (?&?&?&?&?&?&?&?&?&?&?&?&?&?&?&?& ->).
  repeat match goal with H : Forall is_byte (_ :: _) |- _ => apply Forall_cons in H as [? H] end.
  split; [done|]. unfold next_round_key, sub_list. cbn [at_ nth drop take xor_list zip_with app].
  assert (forall v, is_byte v -> is_byte (sub_byte v)) by (intros v Hv; by apply rsub_sub).
  repeat apply Forall_cons_2; try apply Forall_nil_2; auto 8 using lxor_byte.
Qed.

Lemma KeyExpansion_ok key : is_block key -> keys_ok (KeyExpansion key).
Proof.
  intros Hk. unfold KeyExpansion.
  cut (forall n, (n <= 10)%nat -> let ks := foldl (fun ks i => ks ++ [next_round_key i (List.last ks [])])
        [key] (seq 1 n) in length ks = S n /\ Forall is_block ks).
  { intros H. exact (H 10%nat ltac:(lia)). }
  induction n as [|n IH]; intros Hn; [split; [done|by apply Forall_singleton]|].
  destruct (IH ltac:(lia)) as [IH1 IH2]. cbv zeta in *. rewrite seq_S, foldl_app.
  cbn [foldl]. set (ks := foldl _ _ _) in *. split; [rewrite length_app; simpl; lia|].
  apply Forall_app. split; [done|]. constructor; [|done]. apply next_round_key_block; [lia|].
  destruct (exists_last (l := ks)) as (ks' & x & E); [by intros E; rewrite E in IH1|].
  rewrite E in IH2 |- *. rewrite List.last_last. by apply Forall_app in IH2 as [_ [? _]%Forall_cons].
Qed.

Lemma cbc_roundtrip rk n iv src :
  keys_ok rk -> is_block iv -> length src = (16 * n)%nat -> Forall is_byte src ->
  exists cs, cbc_encrypt rk n iv src = Some cs /\ length cs = length src /\ Forall is_byte cs /\
    cbc_decrypt rk n iv cs = Some src.
Proof.
  intros Hk. revert iv src; induction n as [|n IH]; intros iv src Hiv Hlen Hb.
  { destruct src; [|simpl in Hlen; lia]. exists []. by repeat constructor. }
  cbn [cbc_encrypt]. rewrite decide_False by lia.
  assert (is_block (take 16 src)) as Ht by (split; [rewrite length_take; lia|by apply Forall_take]).
  assert (is_block (xor_list (take 16 src) iv)) as Hx by by apply xor_list_block.
  set (blk := EncryptBlock rk _).
  assert (is_block blk) as Hblk by by apply EncryptBlock_block.
  destruct (IH blk (drop 16 src) Hblk) as (cs & He & Hl & Hc & Hd).
  { rewrite length_drop. lia. } { by apply Forall_drop. }
  exists (blk ++ cs). rewrite He. split_and!.
  - done.
  - rewrite length_app, Hl, length_drop, (proj1 Hblk). lia.
  - apply Forall_app. split; [apply Hblk|done].
  - cbn [cbc_decrypt]. rewrite decide_False by (rewrite length_app, (proj1 Hblk); lia).
    destruct (take_app_drop_eq blk cs 16 (eq_sym (proj1 Hblk))) as [-> ->]. rewrite Hd. simpl.
    unfold blk. rewrite DecryptBlock_EncryptBlock by done.
    rewrite xor_list_cancel by (rewrite (proj1 Ht), (proj1 Hiv); done). by rewrite take_drop.
Qed.

(** A last partial block makes the loop leave the payload. *)
Lemma cbc_encrypt_partial rk n iv src :
  (length src < 16 * n)%nat -> cbc_encrypt rk n iv src = None.
Proof.
  revert iv src; induction n as [|n IH]; intros iv src H; [lia|]. cbn [cbc_encrypt].
  case_decide; [done|]. rewrite IH; [done|]. rewrite length_drop. lia.
Qed.

End Aes.

(** ** Properties *)

(** AES-CBC round trip: with a 16-byte key and IV, [Decrypt] recovers every
    payload whose length is a multiple of 16 from what [Encrypt] produced, for
    both the constructor's key schedule and the hand-written block functions;
    the ciphertext has the payload's length.  ([LawfulCipher] is what the
    sessions rely on.) *)
Theorem AesEncryption_lawful key iv c
  (Hkey : Forall is_byte key) (Hiv : Forall is_byte iv)
  (Hnew : Aes.AesEncryption key iv = Some c) :
  LawfulCipher c (fun n => n mod 16 = 0)%nat.
Proof.
  unfold Aes.AesEncryption in Hnew.
  destruct (decide (length key <> 16%nat)) as [|Hk]; [done|]. apply dec_stable in Hk.
  destruct (decide (length iv <> 16%nat)) as [|Hi]; [done|]. apply dec_stable in Hi.
  injection Hnew as <-. split. intros bs Hb Hn. cbn [Encrypt Decrypt].
  assert (16 * Aes.iterations (length bs) = length bs)%nat as Hit.
  { unfold Aes.iterations. pose proof (Nat.div_mod_eq (length bs) 16) as E. rewrite Hn in E.
    replace (length bs + 15)%nat with (15 + (length bs / 16) * 16)%nat by lia.
    rewrite Nat.div_add by lia. change (15 / 16)%nat with 0%nat. lia. }
  destruct (Aes.cbc_roundtrip (Aes.KeyExpansion key) (Aes.iterations (length bs)) iv bs)
    as (cs & He & Hl & Hc & Hd); try done.
  - by apply Aes.KeyExpansion_ok.
  - exists cs. rewrite Hl. by split_and!.
Qed.

(** On a payload whose length is not a multiple of 16 the AES cipher touches
    bytes outside the payload: [Encrypt] has no defined result. *)
Theorem AesEncryption_partial_block_out_of_bounds key iv c src
  (Hnew : Aes.AesEncryption key iv = Some c) (Hlen : (length src mod 16 <> 0)%nat) :
  Encrypt c src = None.
Proof.
  unfold Aes.AesEncryption in Hnew. repeat (case_decide; [done|]). injection Hnew as <-. simpl.
  apply Aes.cbc_encrypt_partial. unfold Aes.iterations.
  pose proof (Nat.div_mod_eq (length src) 16). pose proof (Nat.mod_upper_bound (length src) 16).
  pose proof (Nat.div_mod_eq (length src + 15) 16).
  pose proof (Nat.mod_upper_bound (length src + 15) 16). lia.
Qed.

(** The block functions are AES-128: the FIPS-197 example vector encrypts to
    the ciphertext of the standard and decrypts back. *)
Theorem EncryptBlock_fips197 :
  let key := [0; 1; 2; 3; 4; 5; 6; 7; 8; 9; 10; 11; 12; 13; 14; 15] in
  let plain := [0; 17; 34; 51; 68; 85; 102; 119; 136; 153; 170; 187; 204; 221; 238; 255] in
  let cipher := [105; 196; 224; 216; 106; 123; 4; 48; 216; 205; 183; 128; 112; 180; 197; 90] in
  Aes.EncryptBlock (Aes.KeyExpansion key) plain = cipher /\
  Aes.DecryptBlock (Aes.KeyExpansion key) cipher = plain.
Proof. by vm_compute. Qed.

(** ** Witnesses *)

Lemma AesEncryption_lawful_witness :
  exists c, Aes.AesEncryption (replicate 16 7) (replicate 16 9) = Some c /\
    LawfulCipher c (fun n => n mod 16 = 0)%nat.
Proof.
  eexists. split; [reflexivity|].
  apply (AesEncryption_lawful (replicate 16 7) (replicate 16 9)); [repeat constructor; lia..|reflexivity].
Defined.

Lemma AesEncryption_partial_block_out_of_bounds_witness :
  exists c, Aes.AesEncryption (replicate 16 7) (replicate 16 9) = Some c /\
    Encrypt c [1; 2; 3] = None.
Proof.
  eexists. split; [reflexivity|].
  eapply (AesEncryption_partial_block_out_of_bounds (replicate 16 7) (replicate 16 9));
    [reflexivity|]. simpl. lia.
Defined.
