(* ===== verification/TcpSession.v ===== *)
(** * TcpSession: GatewaySession and BackendSession

    Models src/System/Session/GatewaySession.cpp and BackendSession.cpp.  The two
    classes have the same life cycle, heartbeat and receive loop and differ in
    encryption, in the accepted packet size and in how [Flush] hands data to the
    socket; the shared bodies are written once, in [Section Tcp], and the modules
    [Gateway] and [Backend] hold the rest and the instances.

    An asynchronous operation started on the socket is an [IoOp] of the trace;
    its completion handler is a method of its own ([read_handler],
    [write_handler], [heartbeat_handler]) run later by the I/O layer with an
    error flag and a byte count. *)

From stdpp Require Import base numbers gmap functions list.
From S2P Require Import Prelude RecvBuffer ConcurrentQueue Messages MessagePool Session Cipher.

(** [GatewaySessionImpl] and [BackendSessionImpl].  [_socket] is [None] when null
    and [Some is_open] otherwise; [_encryption] and [_linearBuffer] are the
    gateway's, [_gatherBuffers] and [_sendingPackets] the backend's. *)
Record TcpImpl := mkTcp {
  _socket : option bool;
  _encryption : option IPacketEncryption;
  _recvBuffer : RecvBuffer;
  _linearBuffer : list Z;
  _gatherBuffers : list Z;
  _sendingPackets : list Z;
  _flowControlTimer : bool;
  _heartbeatTimer : bool;
  _lastRecvTime : Z;
  _lastPingTime : Z;
  _hbInterval : Z;
  _hbTimeout : Z;
  _hbPingFunc : bool;
  _readPaused : bool
}.

Definition TcpImpl_new : TcpImpl :=
  mkTcp None None (RecvBuffer_new DEFAULT_CAPACITY) [] [] [] false false 0 0 0 0 false false.

Section setters.
Implicit Types i : TcpImpl.

Definition set_socket (s : option bool) i : TcpImpl :=
  mkTcp s (_encryption i) (_recvBuffer i) (_linearBuffer i) (_gatherBuffers i) (_sendingPackets i)
    (_flowControlTimer i) (_heartbeatTimer i) (_lastRecvTime i) (_lastPingTime i) (_hbInterval i)
    (_hbTimeout i) (_hbPingFunc i) (_readPaused i).

Definition set_encryption (e : option IPacketEncryption) i : TcpImpl :=
  mkTcp (_socket i) e (_recvBuffer i) (_linearBuffer i) (_gatherBuffers i) (_sendingPackets i)
    (_flowControlTimer i) (_heartbeatTimer i) (_lastRecvTime i) (_lastPingTime i) (_hbInterval i)
    (_hbTimeout i) (_hbPingFunc i) (_readPaused i).

Definition set_recvBuffer (b : RecvBuffer) i : TcpImpl :=
  mkTcp (_socket i) (_encryption i) b (_linearBuffer i) (_gatherBuffers i) (_sendingPackets i)
    (_flowControlTimer i) (_heartbeatTimer i) (_lastRecvTime i) (_lastPingTime i) (_hbInterval i)
    (_hbTimeout i) (_hbPingFunc i) (_readPaused i).

Definition set_linearBuffer (l : list Z) i : TcpImpl :=
  mkTcp (_socket i) (_encryption i) (_recvBuffer i) l (_gatherBuffers i) (_sendingPackets i)
    (_flowControlTimer i) (_heartbeatTimer i) (_lastRecvTime i) (_lastPingTime i) (_hbInterval i)
    (_hbTimeout i) (_hbPingFunc i) (_readPaused i).

(** [_gatherBuffers] views the payloads of the messages [_sendingPackets] owns. *)
Definition set_sending (g ps : list Z) i : TcpImpl :=
  mkTcp (_socket i) (_encryption i) (_recvBuffer i) (_linearBuffer i) g ps
    (_flowControlTimer i) (_heartbeatTimer i) (_lastRecvTime i) (_lastPingTime i) (_hbInterval i)
    (_hbTimeout i) (_hbPingFunc i) (_readPaused i).

Definition set_timers (b : bool) i : TcpImpl :=
  mkTcp (_socket i) (_encryption i) (_recvBuffer i) (_linearBuffer i) (_gatherBuffers i)
    (_sendingPackets i) b b (_lastRecvTime i) (_lastPingTime i) (_hbInterval i)
    (_hbTimeout i) (_hbPingFunc i) (_readPaused i).

Definition set_lastRecvTime (t : Z) i : TcpImpl :=
  mkTcp (_socket i) (_encryption i) (_recvBuffer i) (_linearBuffer i) (_gatherBuffers i)
    (_sendingPackets i) (_flowControlTimer i) (_heartbeatTimer i) t (_lastPingTime i) (_hbInterval i)
    (_hbTimeout i) (_hbPingFunc i) (_readPaused i).

Definition set_lastPingTime (t : Z) i : TcpImpl :=
  mkTcp (_socket i) (_encryption i) (_recvBuffer i) (_linearBuffer i) (_gatherBuffers i)
    (_sendingPackets i) (_flowControlTimer i) (_heartbeatTimer i) (_lastRecvTime i) t (_hbInterval i)
    (_hbTimeout i) (_hbPingFunc i) (_readPaused i).

Definition set_heartbeat (interval timeout : Z) (ping : bool) i : TcpImpl :=
  mkTcp (_socket i) (_encryption i) (_recvBuffer i) (_linearBuffer i) (_gatherBuffers i)
    (_sendingPackets i) (_flowControlTimer i) (_heartbeatTimer i) (_lastRecvTime i) (_lastPingTime i)
    interval timeout ping (_readPaused i).

Definition set_readPaused (b : bool) i : TcpImpl :=
  mkTcp (_socket i) (_encryption i) (_recvBuffer i) (_linearBuffer i) (_gatherBuffers i)
    (_sendingPackets i) (_flowControlTimer i) (_heartbeatTimer i) (_lastRecvTime i) (_lastPingTime i)
    (_hbInterval i) (_hbTimeout i) (_hbPingFunc i) b.

End setters.

(** [_socket && _socket->is_open()] *)
Definition is_open (i : TcpImpl) : bool := match _socket i with Some true => true | _ => false end.

(** Out-of-bounds accesses and exhausted loop fuel. *)
Definition undefined {Q T X A} : M Q T X A := fun _ => None.

Definition lift_opt {Q T X A} (o : option A) : M Q T X A :=
  match o with Some a => mret a | None => undefined end.

Section Tcp.
Context {Q : Type -> Type} `{!ConcurrentQueue Q} {T : Type}.
Context (sizeofPM : Z) (tid : nat) (this : Z).

Abbreviation MT := (M Q T TcpImpl).

(** ** Connection life cycle *)

(** [if (_dispatcher) { IncRef(); _dispatcher->Post(msg); } else Free(msg);] *)
Definition post_or_free (msg : Z) : MT unit :=
  d ← gets (fun w => _dispatcher (ses w));
  if d : bool then IncRef;; post msg else pool_free tid (Some msg).

(** [AllocateEvent], the three assignments, and [Post] or [Free]: the common part
    of [OnConnect] and [OnDisconnect]. *)
Definition post_event (t : MessageType) : MT unit :=
  msg ← pool_call (AllocateEvent sizeofPM tid);
  sid ← GetId;
  store msg (tag_message t sid this);;
  post_or_free msg.

Definition OnDisconnect : MT unit :=
  was ← IsConnected;
  modify_ses (set_connected false);;
  if was : bool then post_event NETWORK_DISCONNECT else mret ().

Definition Close : MT unit :=
  o ← gets (fun w => is_open (impl w));
  (if o : bool then
     emit SocketShutdown;; emit SocketClose;; modify_impl (set_socket (Some false))
   else mret ());;
  OnDisconnect.

Definition StartRead : MT unit :=
  o ← gets (fun w => is_open (impl w));
  if negb o then mret () else
  modify_impl (fun i => set_recvBuffer (Clean (_recvBuffer i)) i);;
  IncRef;;
  free ← gets (fun w => FreeSize (_recvBuffer (impl w)));
  emit (AsyncRead free).

Definition OnConnect : MT unit :=
  modify_ses (set_connected true);;
  post_event NETWORK_CONNECT;;
  StartRead.

Definition OnPong (now : Z) : MT unit := modify_impl (set_lastRecvTime now).

Definition OnError : MT unit := Close.

(** ** Heartbeat *)

(** [guarded]: the gateway checks [_heartbeatTimer], the backend dereferences it. *)
Definition StartHeartbeat (guarded : bool) : MT unit :=
  h ← gets (fun w => _heartbeatTimer (impl w));
  if negb h then (if guarded then mret () else undefined) else
  IncRef;; emit (AsyncWait 1000).

Definition ConfigHeartbeat (guarded : bool) (intervalMs timeoutMs : Z) (pingFunc : bool) : MT unit :=
  modify_impl (set_heartbeat intervalMs timeoutMs pingFunc);;
  h ← gets (fun w => _heartbeatTimer (impl w));
  if (0 <? intervalMs) && h then StartHeartbeat guarded else mret ().

Definition OnHeartbeatTimer (guarded : bool) (ec : bool) (now : Z) : MT unit :=
  c ← IsConnected;
  if ec || negb c then mret () else
  i ← gets impl;
  if _hbTimeout i <? now - _lastRecvTime i then Close else
  (if (_hbInterval i <=? now - _lastPingTime i) && _hbPingFunc i
   then emit PingCalled;; modify_impl (set_lastPingTime now) else mret ());;
  StartHeartbeat guarded.

Definition heartbeat_handler (guarded : bool) (ec : bool) (now : Z) : MT unit :=
  OnHeartbeatTimer guarded ec now;; DecRef.

(** ** Receiving *)

(** [reject size]: the size check of the class; [fill e size b]: the bytes that
    end up in the payload of the new message. *)
Context (reject : Z -> bool).
Context (fill : option IPacketEncryption -> Z -> RecvBuffer -> option (list Z)).

(** One complete packet of [size] bytes at the read position: build the message,
    hand it to the dispatcher, consume the bytes. *)
Definition receive_packet (size : Z) : MT unit :=
  msg ← pool_call (AllocatePacket sizeofPM tid size);
  sid ← GetId;
  store msg (tag_message NETWORK_DATA sid this);;
  i ← gets impl;
  data ← lift_opt (fill (_encryption i) size (_recvBuffer i));
  store msg (set_payload data);;
  post_or_free msg;;
  modify_impl (fun i => set_recvBuffer (MoveReadPos size (_recvBuffer i)).2 i).

(** The loop of [OnRecv]; [true] when it ends by [break], [false] when it closed
    the session and returned. *)
Fixpoint recv_loop (fuel : nat) : MT bool :=
  match fuel with
  | O => undefined
  | S fuel =>
      b ← gets (fun w => _recvBuffer (impl w));
      let dataSize := DataSize b in
      if dataSize <? PacketHeader_SIZE then mret true else
      let size := ph_size (decode_header (ReadBytes 4 b)) in
      if reject size then Close;; mret false else
      if dataSize <? size then mret true else
      receive_packet size;;
      recv_loop fuel
  end.

Definition OnRecv (bytesTransferred : Z) : MT unit :=
  i ← gets impl;
  let '(ok, b) := MoveWritePos bytesTransferred (_recvBuffer i) in
  if negb ok then Close else
  modify_impl (set_recvBuffer b);;
  r ← recv_loop (S (Z.to_nat (DataSize b)));
  if r : bool then StartRead else mret ().

Definition OnReadComplete (ec : bool) (bytesTransferred : Z) : MT unit :=
  if ec then Close else OnRecv bytesTransferred.

Definition read_handler (ec : bool) (bytesTransferred : Z) : MT unit :=
  OnReadComplete ec bytesTransferred;; DecRef.

(** ** Sending *)

Definition MAX_BATCH_SIZE : nat := 1000.

(** The [length] bytes at [Payload()]; bytes never written read as zero. *)
Definition wire_bytes (o : Message T) : list Z :=
  let n := Z.to_nat (msg_length o) in take n (msg_payload o ++ replicate n 0).

(** The branch [count == 0] of [Flush]: clear the flag, look once more, and
    recurse if a straggler shows up and nobody else claimed the flag. *)
Definition flush_idle (again : MT unit) : MT unit :=
  modify_ses (set_isSending false);;
  q ← gets (fun w => _sendQueue (ses w));
  match try_dequeue q with
  | None => mret ()
  | Some (straggler, q') =>
      modify_ses (set_sendQueue q');;
      was ← gets (fun w => _isSending (ses w));
      modify_ses (set_isSending true);;
      modify_ses (fun s => set_sendQueue (enqueue straggler (_sendQueue s)) s);;
      if negb was then again else mret ()
  end.

(** [send_batch]: what the class does with the dequeued messages. *)
Context (send_batch : list Z -> MT unit).

Fixpoint Flush_fuel (fuel : nat) : MT unit :=
  match fuel with
  | O => undefined
  | S fuel =>
      o ← gets (fun w => is_open (impl w));
      if negb o then modify_ses (set_isSending false) else
      q ← gets (fun w => _sendQueue (ses w));
      let '(items, q') := try_dequeue_bulk MAX_BATCH_SIZE q in
      modify_ses (set_sendQueue q');;
      match items with
      | [] => flush_idle (Flush_fuel fuel)
      | _ => send_batch items
      end
  end.

(** On one thread a second look never finds a straggler: two levels suffice. *)
Definition Flush : MT unit := Flush_fuel 2.

Definition OnWriteComplete (ec : bool) : MT unit := if ec then Close else Flush.

End Tcp.

(** ** GatewaySession *)

Module Gateway.
Section Gateway.
Context {Q : Type -> Type} `{!ConcurrentQueue Q} {T : Type}.
Context (sizeofPM : Z) (tid : nat) (this : Z).
Abbreviation MT := (M Q T TcpImpl).

Definition reject (size : Z) : bool := (65535 <? size) || (size =? 0).

Definition fill (e : option IPacketEncryption) (size : Z) (b : RecvBuffer) : option (list Z) :=
  match e with
  | Some c =>
      let header := ReadBytes 4 b in
      if PacketHeader_SIZE <? size then
        plain ← Decrypt c (drop 4 (ReadBytes (Z.to_nat size) b));
        Some (header ++ plain)
      else Some header
  | None => Some (ReadBytes (Z.to_nat size) b)
  end.

(** A [memcpy] to [destPtr], which must stay inside the linear buffer. *)
Definition write_at (pos : nat) (bs buf : list Z) : option (list Z) :=
  if decide (pos + length bs <= length buf)%nat then Some (splice pos bs buf) else None.

(** One message of the linearisation loop, at offset [pos]. *)
Definition linear_write (e : option IPacketEncryption) (o : Message T) (pos : nat) (buf : list Z) :
    option (list Z) :=
  match e with
  | Some c =>
      buf1 ← write_at pos (take 4 (wire_bytes o ++ replicate 4 0)) buf;
      if PacketHeader_SIZE <? msg_length o then
        ct ← Encrypt c (drop 4 (wire_bytes o)); write_at (pos + 4) ct buf1
      else Some buf1
  | None => write_at pos (wire_bytes o) buf
  end.

Fixpoint linearize (items : list Z) (pos : nat) (buf : list Z) : MT (list Z) :=
  match items with
  | [] => mret buf
  | p :: items =>
      o ← deref p;
      i ← gets impl;
      buf ← lift_opt (linear_write (_encryption i) o pos buf);
      pool_free tid (Some p);;
      linearize items (pos + Z.to_nat (msg_length o)) buf
  end.

Fixpoint total_size (items : list Z) : MT Z :=
  match items with
  | [] => mret 0
  | p :: items => o ← deref p; n ← total_size items; mret (msg_length o + n)
  end.

Definition send_batch (items : list Z) : MT unit :=
  totalSize ← total_size items;
  buf ← linearize items 0 (replicate (Z.to_nat totalSize) 0);
  modify_impl (set_linearBuffer buf);;
  IncRef;;
  emit (AsyncWrite buf).

Definition GFlush : MT unit := Flush send_batch.

Definition write_handler (ec : bool) : MT unit :=
  OnWriteComplete sizeofPM tid this send_batch ec;; DecRef.

Definition GOnRecv : Z -> MT unit := OnRecv sizeofPM tid this reject fill.

Definition Reset : MT unit :=
  Session_Reset tid;;
  modify_impl (set_socket None);;
  modify_impl (set_encryption None);;
  modify_impl (fun i => set_recvBuffer (RecvBuffer_Reset (_recvBuffer i)) i);;
  modify_impl (set_readPaused false);;
  modify_impl (set_timers false).

Definition Reset_socket (socket : option bool) (sessionId : Z) (dispatcher : bool) (now : Z) : MT unit :=
  Session_Reset tid;;
  modify_ses (set_id sessionId);;
  modify_ses (set_dispatcher dispatcher);;
  modify_impl (set_socket socket);;
  (if is_open (set_socket socket TcpImpl_new) then
     emit SetNoDelay;; modify_impl (set_timers true)
   else mret ());;
  modify_impl (fun i => set_recvBuffer (RecvBuffer_Reset (_recvBuffer i)) i);;
  modify_impl (set_lastRecvTime now).

Definition OnRecycle : MT unit :=
  o ← gets (fun w => is_open (impl w));
  (if o : bool then Close sizeofPM tid this else mret ());;
  modify_impl (set_socket None);;
  modify_impl (set_encryption None).

Definition SetEncryption (e : option IPacketEncryption) : MT unit := modify_impl (set_encryption e).

End Gateway.
End Gateway.

(** ** BackendSession *)

Module Backend.
Section Backend.
Context {Q : Type -> Type} `{!ConcurrentQueue Q} {T : Type}.
Context (sizeofPM : Z) (tid : nat) (this : Z).
Abbreviation MT := (M Q T TcpImpl).

Definition reject (size : Z) : bool := (1024 * 10 <? size) || (size =? 0).

Definition fill (e : option IPacketEncryption) (size : Z) (b : RecvBuffer) : option (list Z) :=
  Some (ReadBytes (Z.to_nat size) b).

(** [_sendingPackets.clear()] releases the packets it owns. *)
Definition clear_sending : MT unit :=
  ps ← gets (fun w => _sendingPackets (impl w));
  modify_impl (set_sending [] []);;
  free_all tid ps.

(** The byte sequence the gather list describes. *)
Fixpoint gather (items : list Z) : MT (list Z) :=
  match items with
  | [] => mret []
  | p :: items => o ← deref p; rest ← gather items; mret (wire_bytes o ++ rest)
  end.

Definition send_batch (items : list Z) : MT unit :=
  clear_sending;;
  modify_impl (set_sending items items);;
  IncRef;;
  data ← gather items;
  emit (AsyncWrite data).

Definition BFlush : MT unit := Flush send_batch.

Definition write_handler (ec : bool) : MT unit :=
  clear_sending;;
  OnWriteComplete sizeofPM tid this send_batch ec;;
  DecRef.

Definition BOnRecv : Z -> MT unit := OnRecv sizeofPM tid this reject fill.

Definition Reset : MT unit :=
  Session_Reset tid;;
  modify_impl (set_socket None);;
  modify_impl (fun i => set_recvBuffer (RecvBuffer_Reset (_recvBuffer i)) i);;
  modify_impl (set_timers false);;
  clear_sending.

Definition Reset_socket (socket : option bool) (sessionId : Z) (dispatcher : bool) (now : Z) : MT unit :=
  Session_Reset tid;;
  clear_sending;;
  modify_ses (set_id sessionId);;
  modify_ses (set_dispatcher dispatcher);;
  modify_impl (set_socket socket);;
  (if is_open (set_socket socket TcpImpl_new) then modify_impl (set_timers true) else mret ());;
  modify_impl (fun i => set_recvBuffer (RecvBuffer_Reset (_recvBuffer i)) i);;
  modify_impl (set_lastRecvTime now).

Definition OnRecycle : MT unit :=
  o ← gets (fun w => is_open (impl w));
  (if o : bool then Close sizeofPM tid this else mret ());;
  clear_sending;;
  modify_impl (set_socket None);;
  Session_Reset tid.

(** The methods whose bodies are those of the gateway. *)

Definition StartRead : MT unit := StartRead.

Definition OnConnect : MT unit := OnConnect sizeofPM tid this.

Definition OnDisconnect : MT unit := OnDisconnect sizeofPM tid this.

Definition OnError : MT unit := OnError sizeofPM tid this.

Definition OnPong : Z -> MT unit := OnPong.

Definition StartHeartbeat : MT unit := StartHeartbeat false.

Definition ConfigHeartbeat : Z -> Z -> bool -> MT unit := ConfigHeartbeat false.

Definition OnHeartbeatTimer : bool -> Z -> MT unit := OnHeartbeatTimer sizeofPM tid this false.

Definition OnReadComplete : bool -> Z -> MT unit := OnReadComplete sizeofPM tid this reject fill.

Definition OnWriteComplete : bool -> MT unit := OnWriteComplete sizeofPM tid this send_batch.

Definition Close : MT unit := Close sizeofPM tid this.

End Backend.
End Backend.

(** ** Invariant

    The session's share of the message pool: every message it has posted, queued
    or handed to a gather write is live and has a reference for each of these
    places.  The receive buffer keeps its shape and holds bytes. *)

Section Invariant.
Context {Q : Type -> Type} `{!ConcurrentQueue Q} {T : Type}.
Context (sizeofPM : Z) (tid : nat) (this : Z).
Implicit Types w : World Q T TcpImpl.

Definition owned w : list Z :=
  posted w ++ contents (_sendQueue (ses w)) ++ _sendingPackets (impl w).

Record buf_inv (b : RecvBuffer) : Prop := mk_buf_inv {
  bi_inv : recv_inv b;
  bi_cap : _capacity b = DEFAULT_CAPACITY;
  bi_bytes : Forall is_byte (_buffer b)
}.

Record tcp_inv w : Prop := mk_tcp_inv {
  ti_mem : mem_inv sizeofPM (mem w);
  ti_refs : refs_ok (mem w) (owned w);
  ti_buf : buf_inv (_recvBuffer (impl w))
}.

Lemma refs_ok_fresh (m m' : Mem Q T) l p o :
  refs_ok m l -> objs m !! p = None -> objs m' = <[p := o]> (objs m) -> 1 <= refCount o ->
  refs_ok m' (p :: l).
Proof.
  intros Hr Hn Ho Hc. assert (p ∉ l) as Hpl.
  { intros Hp. destruct (Hr p Hp) as (? & ? & _). congruence. }
  intros a Ha. destruct (decide (a = p)) as [->|Hne].
  - exists o. rewrite Ho, lookup_insert_eq. split; [done|]. rewrite occurrences_cons, decide_True by done.
    pose proof (proj1 (not_iff_compat (occurrences_pos p l)) Hpl). lia.
  - apply elem_of_cons in Ha as [->|Ha]; [done|]. destruct (Hr a Ha) as (oa & ? & ?).
    exists oa. rewrite Ho, lookup_insert_ne by done. split; [done|].
    rewrite occurrences_cons, decide_False by done. lia.
Qed.

(** A message just built, delivered or dropped. *)
Lemma post_or_free_spec (m0 : Mem Q T) p o w :
  mem_inv sizeofPM (mem w) -> objs m0 !! p = None -> objs (mem w) = <[p := o]> (objs m0) ->
  refCount o = 1 -> refs_ok m0 (owned w) ->
  exists w', post_or_free tid p w = Some (tt, w') /\ mem_inv sizeofPM (mem w') /\
    refs_ok (mem w') (owned w') /\ impl w' = impl w /\ io w' = io w /\
    if _dispatcher (ses w) then
      ses w' = set_ioRef (i32 (_ioRef (ses w) + 1)) (ses w) /\ posted w' = posted w ++ [p] /\ mem w' = mem w
    else ses w' = ses w /\ posted w' = posted w /\ objs (mem w') = objs m0.
Proof.
  intros Hi Hn Ho Hc Hr. pose proof (refs_ok_fresh m0 (mem w) _ p o Hr Hn Ho ltac:(lia)) as Hrp.
  unfold post_or_free. rewrite run_gets. destruct (_dispatcher (ses w)) eqn:Hd.
  - eexists. split; [reflexivity|]. simpl. split_and!; try done.
    unfold owned. simpl. rewrite <- app_assoc. simpl.
    change (refs_ok (mem w) (posted w ++ p :: contents (_sendQueue (ses w)) ++ _sendingPackets (impl w))).
    by rewrite <- Permutation_middle.
  - assert (objs (mem w) !! p = Some o) as Hp by by rewrite Ho, lookup_insert_eq.
    destruct (Free_spec sizeofPM tid p o (mem w) Hi Hp) as (m' & Hf & Hi' & Hcase).
    rewrite Hc in Hcase. simpl in Hcase. destruct Hcase as [Hob _].
    assert (objs m' = objs m0) as Hback.
    { rewrite Hob, Ho. rewrite delete_insert_eq. by apply delete_id. }
    exists (with_mem m' w). split; [unfold pool_free; rewrite Hf; reflexivity|].
    split_and!; try done. intros a Ha. simpl. rewrite Hback. by apply Hr.
Qed.

Lemma post_event_spec t w :
  tcp_inv w -> t <> PACKET ->
  exists w', post_event sizeofPM tid this t w = Some (tt, w') /\ tcp_inv w' /\
    impl w' = impl w /\ io w' = io w /\ objs (mem w) ⊆ objs (mem w') /\
    if _dispatcher (ses w) then
      ses w' = set_ioRef (i32 (_ioRef (ses w) + 1)) (ses w) /\
      exists p, posted w' = posted w ++ [p] /\
        objs (mem w') !! p = Some (tag_message t (_id (ses w)) this EventMessage_new)
    else ses w' = ses w /\ posted w' = posted w.
Proof.
  intros [Hi Hr Hb] Ht. unfold post_event.
  destruct (AllocateEvent sizeofPM tid (mem w)) as [p m1] eqn:Ea. rewrite (run_pool_call _ _ _ _ _ Ea).
  destruct (AllocateSmall_spec sizeofPM tid EventMessage_new (mem w) p m1 Hi) as (Hi1 & Hn & Ho); try done.
  unfold GetId. rewrite run_gets.
  assert (objs (mem (with_mem m1 w)) !! p = Some EventMessage_new) as Hp
    by (simpl; by rewrite Ho, lookup_insert_eq).
  rewrite (run_store _ _ _ _ _ Hp). set (o := tag_message t _ this EventMessage_new).
  set (w1 := with_mem _ _).
  assert (mem_inv sizeofPM (mem w1)) as Hi2.
  { simpl. eapply put_live_inv; [done|exact Hp|]. intros s (Hs1 & Hs2 & Hs3). split_and!; try done.
    simpl. intros _. unfold free_level. simpl. rewrite decide_False by done. by apply Hs3. }
  assert (objs (mem w1) = <[p := o]> (objs (mem w))) as Ho1
    by (simpl; rewrite Ho; apply insert_insert_eq).
  destruct (post_or_free_spec (mem w) p o w1 Hi2 Hn Ho1 eq_refl Hr) as (w' & -> & Hi' & Hr' & Him & Hio & Hd).
  exists w'. split; [done|]. split; [split; [done..|by rewrite Him]|].
  split; [done|]. split; [done|].
  change (_dispatcher (ses w1)) with (_dispatcher (ses w)) in Hd.
  destruct (_dispatcher (ses w)).
  - destruct Hd as (Hs & Hpo & Hm). split; [|split; [done|]].
    + rewrite Hm, Ho1. by apply insert_subseteq.
    + exists p. split; [done|]. by rewrite Hm, Ho1, lookup_insert_eq.
  - destruct Hd as (Hs & Hpo & Hm). by rewrite Hm.
Qed.

(** What a delivered packet looks like. *)
Definition delivers w (sid size : Z) (data : list Z) (p : Z) : Prop :=
  exists o, objs (mem w) !! p = Some o /\ mtype o = NETWORK_DATA /\ sessionId o = Some sid /\
    session o = Some this /\ body o = BPacket size data.

Lemma delivers_mono w w' sid size data p :
  objs (mem w) ⊆ objs (mem w') -> delivers w sid size data p -> delivers w' sid size data p.
Proof. intros Hs (o & Ho & ?). exists o. split; [by eapply lookup_weaken|done]. Qed.

Definition is_event w (t : MessageType) (sid p : Z) : Prop :=
  objs (mem w) !! p = Some (tag_message t sid this EventMessage_new).

(** [Close]: the socket is closed, and the disconnect event is posted if and only
    if the session was connected (and has a dispatcher). *)
Lemma Close_spec w :
  tcp_inv w ->
  exists w', Close sizeofPM tid this w = Some (tt, w') /\ tcp_inv w' /\
    objs (mem w) ⊆ objs (mem w') /\
    _connected (ses w') = false /\ is_open (impl w') = false /\
    _recvBuffer (impl w') = _recvBuffer (impl w) /\
    _dispatcher (ses w') = _dispatcher (ses w) /\ _id (ses w') = _id (ses w) /\
    if _connected (ses w) && _dispatcher (ses w)
    then exists p, posted w' = posted w ++ [p] /\ is_event w' NETWORK_DISCONNECT (_id (ses w)) p
    else posted w' = posted w.
Proof.
  intros Hi. unfold Close. rewrite run_gets.
  set (w1 := if is_open (impl w) then mkWorld (ses w) (set_socket (Some false) (impl w)) (mem w) (posted w)
               ((io w ++ [SocketShutdown]) ++ [SocketClose]) else w).
  assert (((if is_open (impl w) then emit SocketShutdown;; emit SocketClose;;
              modify_impl (set_socket (Some false)) else mret ()) : M Q T TcpImpl unit) w = Some (tt, w1)) as E.
  { unfold w1. by destruct (is_open (impl w)). }
  rewrite (run_step _ _ _ _ _ E).
  assert (ses w1 = ses w /\ mem w1 = mem w /\ posted w1 = posted w /\ is_open (impl w1) = false /\
    _recvBuffer (impl w1) = _recvBuffer (impl w) /\ _sendingPackets (impl w1) = _sendingPackets (impl w))
    as (Es & Em & Ep & Eo & Eb & Ek).
  { unfold w1. by destruct (is_open (impl w)) eqn:Eo. }
  unfold OnDisconnect, IsConnected. rewrite run_gets, run_modify_ses. cbv beta. rewrite Es.
  set (w2 := mkWorld _ _ _ _ _).
  assert (tcp_inv w2) as Hi2.
  { split; cbn [mem impl w2]; rewrite ?Em, ?Eb; try apply Hi.
    unfold owned. cbn [posted ses impl w2 set_connected _sendQueue]. rewrite Ep, Ek. apply Hi. }
  destruct (_connected (ses w)) eqn:Hc; simpl andb.
  - destruct (post_event_spec NETWORK_DISCONNECT w2 Hi2 ltac:(done)) as (w' & -> & Hi' & Him & Hio & Hsub & Hd).
    exists w'. cbn [w2 ses mem posted impl _dispatcher _id set_connected] in *.
    rewrite Him, Em, Ep in *.
    destruct (_dispatcher (ses w)) eqn:Edis.
    + destruct Hd as (Hs & p & Hpo & Hob). rewrite Hs. cbn.
      split_and!; try done. exists p. by split.
    + destruct Hd as (Hs & Hpo). rewrite Hs, Hpo. cbn. by split_and!.
  - exists w2. cbn [w2 ses mem posted impl]. rewrite Em, Ep. by split_and!.
Qed.

Context (reject : Z -> bool).
Context (fill : option IPacketEncryption -> Z -> RecvBuffer -> option (list Z)).

Lemma MoveReadPos_buf n b : 0 <= n <= DataSize b -> buf_inv b -> buf_inv (MoveReadPos n b).2.
Proof.
  intros Hn [H1 H2 H3]. split; [apply MoveReadPos_inv; [lia|done]|..];
    unfold MoveReadPos; by destruct (_ <? _).
Qed.

Lemma receive_packet_spec size data w :
  tcp_inv w -> 0 < size <= DataSize (_recvBuffer (impl w)) ->
  fill (_encryption (impl w)) size (_recvBuffer (impl w)) = Some data ->
  exists w', receive_packet sizeofPM tid this fill size w = Some (tt, w') /\ tcp_inv w' /\
    objs (mem w) ⊆ objs (mem w') /\
    impl w' = set_recvBuffer (MoveReadPos size (_recvBuffer (impl w))).2 (impl w) /\
    io w' = io w /\ _dispatcher (ses w') = _dispatcher (ses w) /\ _id (ses w') = _id (ses w) /\
    _connected (ses w') = _connected (ses w) /\
    if _dispatcher (ses w)
    then exists p, posted w' = posted w ++ [p] /\ delivers w' (_id (ses w)) size data p
    else posted w' = posted w.
Proof.
  intros [Hi Hr Hb] Hsz Hfill. unfold receive_packet.
  destruct (AllocatePacket sizeofPM tid size (mem w)) as [p m1] eqn:Ea.
  rewrite (run_pool_call _ _ _ _ _ Ea).
  destruct (AllocatePacket_spec sizeofPM tid size (mem w) p m1 Hi Ea)
    as (o & Ho & Hi1 & Hn & Hrc & Hty & Hbody & _ & Hpo & _).
  unfold GetId. rewrite run_gets. cbn [ses with_mem].
  assert (objs (mem (with_mem m1 w)) !! p = Some o) as Hp by (simpl; by rewrite Ho, lookup_insert_eq).
  rewrite (run_store _ _ _ _ _ Hp). set (o1 := tag_message _ _ this o).
  rewrite run_gets. cbn [impl with_mem]. rewrite Hfill. cbn [lift_opt]. rewrite run_ret.
  set (w2 := with_mem _ (with_mem m1 w)).
  assert (objs (mem w2) !! p = Some o1) as Hp2 by (simpl; by rewrite lookup_insert_eq).
  rewrite (run_store _ _ _ _ _ Hp2). set (o2 := set_payload data o1). set (w3 := with_mem _ w2).
  assert (mem_inv sizeofPM (mem w2)) as Hi2.
  { simpl. eapply put_live_inv; [done|exact Hp|]. intros s (Hs1 & Hs2 & Hs3). split_and!; try done.
    intros Hpool. change (block_size sizeofPM Small <= s).
    etransitivity; [apply block_size_small|by apply Hs3]. }
  assert (mem_inv sizeofPM (mem w3)) as Hi3.
  { simpl. eapply (put_live_inv sizeofPM p o1); [done|exact Hp2|].
    intros s (Hs1 & Hs2 & Hs3). split_and!; [done| |done].
    unfold o2, msg_length, set_payload. simpl. unfold o1, msg_length in Hs2. simpl in Hs2.
    by rewrite Hbody in *. }
  assert (objs (mem w3) = <[p := o2]> (objs (mem w))) as Ho3.
  { simpl. by rewrite insert_insert_eq, Ho, insert_insert_eq. }
  destruct (post_or_free_spec (mem w) p o2 w3 Hi3 Hn Ho3 Hrc Hr)
    as (w' & Hrun & Hi' & Hr' & Him & Hio & Hd).
  rewrite (run_step _ _ _ _ _ Hrun). unfold modify_impl.
  eexists. split; [reflexivity|]. cbn [impl mem ses posted io]. rewrite Him. cbn [w3 w2 with_mem impl].
  split.
  { split; cbn [mem impl]; [done| |cbn; by apply MoveReadPos_buf; [lia|]].
    unfold owned in *. cbn [posted ses impl _sendingPackets set_recvBuffer]. by rewrite Him in Hr'. }
  change (_dispatcher (ses w3)) with (_dispatcher (ses w)) in Hd.
  change (ses w3) with (ses w) in Hd. change (posted w3) with (posted w) in Hd.
  assert (delivers w3 (_id (ses w)) size data p) as Hdel.
  { exists o2. rewrite Ho3, lookup_insert_eq. split_and!; try done.
    unfold o2. simpl. by rewrite Hbody. }
  destruct (_dispatcher (ses w)) eqn:Ed.
  - destruct Hd as (Hs & Hpos & Hm). rewrite Hs, Hm. cbn. split_and!; try done.
    + change (objs (mem w) ⊆ objs (mem w3)). rewrite Ho3. by apply insert_subseteq.
    + exists p. split; [done|exact Hdel].
  - destruct Hd as (Hs & Hpos & Hm). rewrite Hs, Hpos, Hm. by split_and!.
Qed.

(** *** Framing, as a function of the unread bytes

    [frames dec fuel bytes] is the list of (size, payload) pairs at the head of
    the byte sequence, what is left, and whether the stream is still valid. *)

Fixpoint frames (dec : Z -> list Z -> option (list Z)) (fuel : nat) (bytes : list Z) :
    option (list (Z * list Z) * list Z * bool) :=
  match fuel with
  | O => None
  | S fuel =>
      if Z.of_nat (length bytes) <? PacketHeader_SIZE then Some ([], bytes, true) else
      let size := ph_size (decode_header bytes) in
      if reject size then Some ([], bytes, false) else
      if Z.of_nat (length bytes) <? size then Some ([], bytes, true) else
      data ← dec size bytes;
      r ← frames dec fuel (drop (Z.to_nat size) bytes);
      let '(fs, rest, ok) := r in Some ((size, data) :: fs, rest, ok)
  end.

(** What the class provides: [reject] rules out empty packets, and [fill] is a
    function of the unread bytes. *)
Class Framing (dec : option IPacketEncryption -> Z -> list Z -> option (list Z)) := {
  reject_zero : reject 0 = true;
  fill_dec : forall e size b, recv_inv b -> 4 <= DataSize b -> 0 < size <= DataSize b ->
    fill e size b = dec e size (unread b)
}.

Context `{!Framing dec}.

Lemma ReadBytes_unread n b : recv_inv b -> Z.of_nat n <= DataSize b -> ReadBytes n b = take n (unread b).
Proof.
  intros Hb Hn. unfold unread, ReadBytes, sub_list. rewrite take_take. f_equal. lia.
Qed.

Lemma header_unread b : recv_inv b -> 4 <= DataSize b ->
  decode_header (ReadBytes 4 b) = decode_header (unread b).
Proof.
  intros Hb Hd. rewrite ReadBytes_unread by (done || lia).
  pose proof (length_unread b Hb) as Hl.
  destruct (unread b) as [|b0 [|b1 [|b2 [|b3 l]]]]; simpl in Hl; try lia. done.
Qed.

Lemma unread_bytes b : buf_inv b -> Forall is_byte (unread b).
Proof. intros [_ _ H]. unfold unread, ReadBytes, sub_list. by apply Forall_take, Forall_drop. Qed.

Lemma recv_loop_spec fuel fs rest ok w :
  tcp_inv w -> frames (dec (_encryption (impl w))) fuel (unread (_recvBuffer (impl w))) = Some (fs, rest, ok) ->
  exists w', recv_loop sizeofPM tid this reject fill fuel w = Some (ok, w') /\ tcp_inv w' /\
    objs (mem w) ⊆ objs (mem w') /\ _dispatcher (ses w') = _dispatcher (ses w) /\
    _id (ses w') = _id (ses w) /\ unread (_recvBuffer (impl w')) = rest /\
    (exists ps tl, posted w' = posted w ++ ps ++ tl /\
      (_dispatcher (ses w) = true ->
         Forall2 (fun f p => delivers w' (_id (ses w)) f.1 f.2 p) fs ps) /\
      (if ok || negb (_connected (ses w) && _dispatcher (ses w)) then tl = []
       else exists p, tl = [p] /\ is_event w' NETWORK_DISCONNECT (_id (ses w)) p)) /\
    if ok then _connected (ses w') = _connected (ses w) /\ io w' = io w /\
      exists b, impl w' = set_recvBuffer b (impl w)
    else _connected (ses w') = false /\ is_open (impl w') = false.
Proof.
  revert fs rest ok w; induction fuel as [|fuel IH]; intros fs rest ok w Hi Hf; [done|].
  set (b := _recvBuffer (impl w)) in *. pose proof (ti_buf _ Hi) as Hb. fold b in Hb.
  pose proof (bi_inv _ Hb) as Hri. pose proof (length_unread b Hri) as Hlen.
  assert (exists b, impl w = set_recvBuffer b (impl w)) as Hself by (exists b; by destruct (impl w)).
  cbn [recv_loop frames] in *. rewrite run_gets. fold b. rewrite Hlen in Hf.
  destruct (DataSize b <? PacketHeader_SIZE) eqn:E1.
  { simplify_eq. exists w. split_and!; try done. exists [], []. by rewrite app_nil_r. }
  bool_to_prop. unfold PacketHeader_SIZE in E1. rewrite header_unread by (done || lia).
  set (size := ph_size (decode_header (unread b))) in *.
  pose proof (decode_header_bound (unread b) (unread_bytes b Hb)) as [[Hs0 _] _]. fold size in Hs0.
  destruct (reject size) eqn:E2.
  { simplify_eq. destruct (Close_spec w Hi) as (w' & Hrun & Hi' & Hsub & Hc & Hop & Hbuf & Hd & Hid & Hpo).
    exists w'. rewrite (run_step _ _ _ _ _ Hrun). split; [done|]. rewrite Hbuf. split_and!; try done.
    destruct (_connected (ses w) && _dispatcher (ses w)).
    - destruct Hpo as (p & Hpo & Hev). exists [], [p]. split_and!; try done. by exists p.
    - exists [], []. rewrite Hpo, app_nil_r. by split_and!. }
  destruct (DataSize b <? size) eqn:E3.
  { simplify_eq. exists w. split_and!; try done. exists [], []. by rewrite app_nil_r. }
  bool_to_prop.
  assert (0 < size) as Hpos.
  { destruct (decide (size = 0)) as [Ez|]; [|lia]. rewrite Ez, reject_zero in E2. done. }
  apply bind_Some in Hf as (data & Hdec & Hf). apply bind_Some in Hf as ([[fs' rest'] ok'] & Hfr & Hf).
  simplify_eq. rewrite <- fill_dec in Hdec by (done || lia).
  destruct (receive_packet_spec size data w Hi ltac:(fold b; lia) Hdec)
    as (w1 & Hrun & Hi1 & Hsub1 & Him1 & Hio1 & Hd1 & Hid1 & Hc1 & Hpo1).
  rewrite (run_step _ _ _ _ _ Hrun).
  assert (_recvBuffer (impl w1) = (MoveReadPos size b).2 /\ _encryption (impl w1) = _encryption (impl w))
    as [Eb Ee] by by rewrite Him1.
  destruct (IH fs' rest ok w1 Hi1) as (w2 & Hrun2 & Hi2 & Hsub2 & Hd2 & Hid2 & Hu2 & Hpo2 & Hok2).
  { rewrite Eb, Ee. destruct (MoveReadPos_ok size b ltac:(lia) Hri) as [_ ->]. done. }
  exists w2. split; [done|]. split; [done|]. split; [by etransitivity|].
  split; [congruence|]. split; [congruence|]. split; [done|]. split.
  - destruct Hpo2 as (ps & tl & Hp2 & Hall & Htl). rewrite Hc1, Hd1, Hid1 in Htl.
    destruct (_dispatcher (ses w)) eqn:Ed.
    + destruct Hpo1 as (p & Hp1 & Hdel). exists (p :: ps), tl.
      rewrite Hp2, Hp1. split; [by rewrite <- !app_assoc|]. split; [|done]. intros _.
      constructor; [by eapply delivers_mono|]. rewrite <- Hid1. apply Hall. congruence.
    + exists ps, tl. rewrite Hp2, Hpo1. by split_and!.
  - destruct ok; [|done]. destruct Hok2 as (H1 & H2 & b' & H3). split; [congruence|].
    split; [congruence|]. exists b'. rewrite H3, Him1. by destruct (impl w).
Qed.

(** *** Reassembly of a packet stream *)

(** A packet on the wire and the payload it decodes to. *)
Definition wire_ok (e : option IPacketEncryption) (raw payload : list Z) : Prop :=
  Forall is_byte raw /\ (4 <= length raw)%nat /\
  ph_size (decode_header raw) = Z.of_nat (length raw) /\
  reject (Z.of_nat (length raw)) = false /\
  forall tail, dec e (Z.of_nat (length raw)) (raw ++ tail) = Some payload.

Definition frame_of (f : list Z * list Z) : Z * list Z := (Z.of_nat (length f.1), f.2).

Lemma decode_header_prefix l1 l2 : (4 <= length l1)%nat -> decode_header (l1 ++ l2) = decode_header l1.
Proof. intros H. destruct l1 as [|b0 [|b1 [|b2 [|b3 l]]]]; simpl in H; try lia. done. Qed.

Lemma app_eq_split (l1 l2 k1 k2 : list Z) : l1 ++ l2 = k1 ++ k2 -> (length k1 <= length l1)%nat ->
  exists m, l1 = k1 ++ m /\ m ++ l2 = k2.
Proof.
  revert l1; induction k1 as [|x k1 IH]; intros l1 H Hl; [by exists l1|].
  destruct l1 as [|y l1]; simpl in *; [lia|]. simplify_eq.
  destruct (IH l1) as (m & -> & ?); [done|lia|]. by exists m.
Qed.

Lemma frames_prefix e pkts fuel bytes tail :
  Forall (fun f => wire_ok e f.1 f.2) pkts -> bytes ++ tail = concat pkts.*1 ->
  (length bytes < fuel)%nat ->
  exists done_ todo rest, pkts = done_ ++ todo /\
    frames (dec e) fuel bytes = Some (map frame_of done_, rest, true) /\
    rest ++ tail = concat todo.*1 /\
    match todo with [] => rest = [] | f :: _ => (length rest < length f.1)%nat end.
Proof.
  revert fuel bytes; induction pkts as [|[raw pay] pkts IH]; intros fuel bytes Hok Heq Hfuel;
    (destruct fuel as [|fuel]; [lia|]); cbn [frames].
  { simpl in Heq. apply app_eq_nil in Heq as [-> ->]. by exists [], [], []. }
  apply Forall_cons in Hok as [(Hby & H4 & Hsz & Hrej & Hdec) Hok].
  cbn [fmap list_fmap concat fst snd] in *.
  destruct (decide (length bytes < length raw)%nat) as [Hlt|Hge].
  - exists [], ((raw, pay) :: pkts), bytes. split; [done|]. split; [|done].
    destruct (app_eq_split raw (concat pkts.*1) bytes tail) as (m & -> & _); [done|lia|].
    destruct (Z.of_nat (length bytes) <? PacketHeader_SIZE) eqn:E; [done|]. bool_to_prop.
    unfold PacketHeader_SIZE in E. rewrite decode_header_prefix in Hsz by lia. rewrite Hsz, Hrej.
    by rewrite (proj2 (Z.ltb_lt _ _)) by lia.
  - destruct (app_eq_split bytes tail raw (concat pkts.*1)) as (m & -> & Hm); [done|lia|].
    rewrite length_app in *. rewrite (proj2 (Z.ltb_ge _ _)) by (unfold PacketHeader_SIZE; lia).
    rewrite decode_header_prefix, Hsz, Hrej by lia.
    rewrite (proj2 (Z.ltb_ge _ _)), Hdec by lia. cbn [mbind option_bind].
    rewrite Nat2Z.id, drop_app_length.
    destruct (IH fuel m Hok Hm ltac:(lia)) as (dn & todo & rest & -> & -> & Hrest & Hlast).
    by exists ((raw, pay) :: dn), todo, rest.
Qed.

(** The kernel stores [chunk] in the buffer given to [async_read_some] and runs
    the completion handler. *)
Definition deliver_chunk (chunk : list Z) : M Q T TcpImpl unit :=
  modify_impl (fun i => set_recvBuffer (WriteBytes chunk (_recvBuffer i)) i);;
  read_handler sizeofPM tid this reject fill false (Z.of_nat (length chunk)).

(** One read at a time, each at most as large as the room offered. *)
Inductive reads : World Q T TcpImpl -> list Z -> World Q T TcpImpl -> Prop :=
| reads_done w : reads w [] w
| reads_step w chunk w1 bytes w2 :
    chunk <> [] -> Z.of_nat (length chunk) <= FreeSize (_recvBuffer (impl w)) ->
    deliver_chunk chunk w = Some (tt, w1) -> reads w1 bytes w2 -> reads w (chunk ++ bytes) w2.

(** The same as a function of how much the kernel has ready at each read, at least one
    byte; a read gets no more than the room. *)
Fixpoint read_all (fuel : nat) (ready : nat -> nat) (stream : list Z) (w : World Q T TcpImpl) : option (World Q T TcpImpl) :=
  match stream with
  | [] => Some w
  | _ =>
      match fuel with
      | O => None
      | S fuel =>
          let n := Nat.min (S (ready fuel)) (Z.to_nat (FreeSize (_recvBuffer (impl w)))) in
          '(_, w) ← deliver_chunk (take n stream) w; read_all fuel ready (drop n stream) w
      end
  end.

Lemma WriteBytes_buf chunk b :
  buf_inv b -> Forall is_byte chunk -> Z.of_nat (length chunk) <= FreeSize b ->
  exists b', MoveWritePos (Z.of_nat (length chunk)) (WriteBytes chunk b) = (true, b') /\
    buf_inv b' /\ unread b' = unread b ++ chunk.
Proof.
  intros [Hi Hc Hb] Hch Hf. destruct (Received_ok chunk b Hf Hi) as (H1 & H2 & H3).
  unfold Received in *. destruct (MoveWritePos _ _) as [ok b'] eqn:E. simpl in *. subst ok.
  exists b'. split; [done|]. split; [|done]. unfold MoveWritePos in E.
  destruct (_ <? _); [done|]. simplify_eq. split; simpl; [done|done|].
  unfold splice. apply Forall_app. split; [by apply Forall_take|].
  apply Forall_app. split; [done|]. by apply Forall_drop.
Qed.

Lemma Clean_buf b : buf_inv b -> buf_inv (Clean b).
Proof.
  intros [Hi Hc Hb]. split; [by apply Clean_inv|by rewrite Clean_capacity|].
  unfold Clean. repeat case_match; try done. simpl. unfold splice, sub_list.
  apply Forall_app. split; [by apply Forall_take|].
  apply Forall_app. split; [by apply Forall_take, Forall_drop|by apply Forall_drop].
Qed.

Lemma deliver_chunk_spec e chunk fs rest w :
  tcp_inv w -> is_open (impl w) = true -> _encryption (impl w) = e ->
  Forall is_byte chunk -> Z.of_nat (length chunk) <= FreeSize (_recvBuffer (impl w)) ->
  frames (dec e) (S (length (unread (_recvBuffer (impl w)) ++ chunk)))
    (unread (_recvBuffer (impl w)) ++ chunk) = Some (fs, rest, true) ->
  exists w', deliver_chunk chunk w = Some (tt, w') /\ tcp_inv w' /\
    objs (mem w) ⊆ objs (mem w') /\ is_open (impl w') = true /\ _encryption (impl w') = e /\
    _dispatcher (ses w') = _dispatcher (ses w) /\ _id (ses w') = _id (ses w) /\
    _connected (ses w') = _connected (ses w) /\
    unread (_recvBuffer (impl w')) = rest /\
    (exists room, io w' = io w ++ [AsyncRead room] /\ room = FreeSize (_recvBuffer (impl w')) /\
       (Z.of_nat (length rest) < DEFAULT_CAPACITY -> 0 < room)) /\
    exists ps, posted w' = posted w ++ ps /\
      (_dispatcher (ses w) = true ->
         Forall2 (fun f p => delivers w' (_id (ses w)) f.1 f.2 p) fs ps).
Proof.
  intros Hi Hop He Hch Hfit Hfr. unfold deliver_chunk. rewrite run_modify_impl.
  destruct (WriteBytes_buf chunk _ (ti_buf _ Hi) Hch Hfit) as (b & Hmv & Hb & Hu).
  unfold read_handler, OnReadComplete, OnRecv. rewrite run_assoc, run_gets.
  cbn [impl set_recvBuffer _recvBuffer]. rewrite Hmv. cbn [negb].
  rewrite run_assoc, run_modify_impl. cbn [impl ses mem posted io].
  set (w1 := mkWorld _ _ _ _ _).
  assert (tcp_inv w1) as Hi1 by (split; [apply Hi|apply Hi|done]).
  assert (length (unread (_recvBuffer (impl w)) ++ chunk) = Z.to_nat (DataSize b)) as Hl.
  { rewrite <- Hu. pose proof (length_unread b (bi_inv _ Hb)). lia. }
  rewrite Hl, <- Hu, <- He in Hfr.
  destruct (recv_loop_spec _ fs rest true w1 Hi1 Hfr)
    as (w2 & Hrun & Hi2 & Hsub & Hd & Hid & Hun & Hpo & Hc & Hio & b2 & Him).
  rewrite run_assoc, (run_step _ _ _ _ _ Hrun). cbv beta iota.
  assert (is_open (impl w2) = true) as Hop2 by by rewrite Him.
  unfold StartRead. rewrite run_assoc, run_gets, Hop2. cbn [negb].
  rewrite run_assoc, run_modify_impl. unfold IncRef. rewrite run_assoc, run_modify_ses.
  rewrite run_assoc, run_gets, run_emit. unfold DecRef, modify_ses.
  pose proof (ti_buf _ Hi2) as Hb2. rewrite Him in Hb2. cbn [set_recvBuffer _recvBuffer] in Hb2.
  eexists. split; [reflexivity|]. cbn [impl ses mem posted io _recvBuffer set_recvBuffer].
  rewrite Him. cbn [_recvBuffer set_recvBuffer _sendingPackets is_open _socket _encryption].
  rewrite Him in Hun. cbn [_recvBuffer set_recvBuffer] in Hun.
  split.
  { split; cbn [mem impl _recvBuffer set_recvBuffer]; [apply Hi2| |by apply Clean_buf].
    pose proof (ti_refs _ Hi2) as Hr. unfold owned in *. rewrite Him in Hr. exact Hr. }
  split_and!; try done.
  - rewrite Clean_unread by apply Hb2. done.
  - exists (FreeSize (Clean b2)). rewrite Hio. split_and!; [done|done|]. intros Hlt.
    apply Clean_makes_room; [apply Hb2|].
    rewrite (bi_cap _ Hb2). pose proof (length_unread b2 (bi_inv _ Hb2)) as HL. rewrite Hun in HL. lia.
  - destruct Hpo as (ps & tl & Hp & Hall & Htl). simpl in Htl. rewrite Htl, app_nil_r in Hp.
    exists ps. by split.
Qed.

(** A state inside a run over a valid stream: the buffer holds the beginning of the
    packets still to come. *)
Definition mid_stream e w (bytes : list Z) (todo : list (list Z * list Z)) : Prop :=
  tcp_inv w /\ is_open (impl w) = true /\ _encryption (impl w) = e /\ _dispatcher (ses w) = true /\
  Forall (fun f => wire_ok e f.1 f.2) todo /\
  unread (_recvBuffer (impl w)) ++ bytes = concat todo.*1 /\
  match todo with
  | [] => unread (_recvBuffer (impl w)) = []
  | f :: _ => (length (unread (_recvBuffer (impl w))) < length f.1)%nat
  end.

Lemma wire_concat_bytes e todo : Forall (fun f => wire_ok e f.1 f.2) todo -> Forall is_byte (concat todo.*1).
Proof.
  induction 1 as [|f todo Hf Hok IH]; simpl; [done|]. apply Forall_app. split; [apply Hf|done].
Qed.

Lemma wire_length e f : wire_ok e f.1 f.2 -> Z.of_nat (length f.1) < 65536.
Proof.
  intros (Hb & _ & Hsz & _). pose proof (decode_header_bound _ Hb) as [[_ H] _].
  rewrite Hsz in H. change (2 ^ 16) with 65536 in H. lia.
Qed.

Lemma stream_step e w chunk bytes todo :
  mid_stream e w (chunk ++ bytes) todo -> Z.of_nat (length chunk) <= FreeSize (_recvBuffer (impl w)) ->
  exists w' now later ps, deliver_chunk chunk w = Some (tt, w') /\ todo = now ++ later /\
    mid_stream e w' bytes later /\ objs (mem w) ⊆ objs (mem w') /\
    _id (ses w') = _id (ses w) /\ _connected (ses w') = _connected (ses w) /\
    0 < FreeSize (_recvBuffer (impl w')) /\
    posted w' = posted w ++ ps /\
    Forall2 (fun f p => delivers w' (_id (ses w)) (Z.of_nat (length f.1)) f.2 p) now ps.
Proof.
  intros (Hi & Hop & He & Hd & Hok & Heq & _) Hfit.
  assert (Forall is_byte chunk) as Hch.
  { apply wire_concat_bytes in Hok. rewrite <- Heq in Hok.
    by apply Forall_app in Hok as [_ [? _]%Forall_app]. }
  rewrite app_assoc in Heq.
  destruct (frames_prefix e todo (S (length (unread (_recvBuffer (impl w)) ++ chunk))) _ bytes Hok Heq ltac:(lia))
    as (now & later & rest & -> & Hfr & Hrest & Hlast).
  destruct (deliver_chunk_spec e chunk _ _ w Hi Hop He Hch Hfit Hfr)
    as (w' & Hrun & Hi' & Hsub & Hop' & He' & Hd' & Hid & Hc & Hun & (room & _ & -> & Hroom) & ps & Hpo & Hall).
  exists w', now, later, ps. apply Forall_app in Hok as [Hok1 Hok2].
  split_and!; try done.
  - unfold mid_stream. rewrite Hun. split_and!; try done. congruence.
  - apply Hroom. unfold DEFAULT_CAPACITY. destruct later as [|f later]; [by subst rest|].
    apply Forall_cons in Hok2 as [Hf _]. apply wire_length in Hf. simpl in *. lia.
  - specialize (Hall Hd). change (map frame_of now) with (frame_of <$> now) in Hall.
    by apply Forall2_fmap_l in Hall.
Qed.

Lemma reads_nil w w' : reads w [] w' -> w = w'.
Proof.
  intros H. remember [] as l eqn:El. destruct H as [|w chunk w1 bytes w2 Hne]; [done|].
  by apply app_eq_nil in El as [-> _].
Qed.

Lemma stream_run e w bytes w' :
  reads w bytes w' -> forall post todo, mid_stream e w (bytes ++ post) todo ->
  exists now later ps, todo = now ++ later /\ mid_stream e w' post later /\
    objs (mem w) ⊆ objs (mem w') /\ _id (ses w') = _id (ses w) /\
    _connected (ses w') = _connected (ses w) /\
    (bytes <> [] -> 0 < FreeSize (_recvBuffer (impl w'))) /\
    posted w' = posted w ++ ps /\
    Forall2 (fun f p => delivers w' (_id (ses w)) (Z.of_nat (length f.1)) f.2 p) now ps.
Proof.
  induction 1 as [w|w chunk w1 bytes w2 Hne Hfit Hrun Hreads IH]; intros post todo Hm.
  - exists [], todo, []. split_and!; try done. by rewrite app_nil_r.
  - rewrite <- app_assoc in Hm.
    destruct (stream_step e w chunk (bytes ++ post) todo Hm Hfit)
      as (w1' & now & later & ps & Hrun' & -> & Hm1 & Hsub & Hid & Hc & Hroom & Hpo & Hall).
    rewrite Hrun in Hrun'. injection Hrun' as <-.
    destruct (IH post later Hm1) as (now2 & later2 & ps2 & -> & Hm2 & Hsub2 & Hid2 & Hc2 & Hroom2 & Hpo2 & Hall2).
    exists (now ++ now2), later2, (ps ++ ps2).
    split_and!; [by rewrite app_assoc|done|by etransitivity|congruence|congruence| |by rewrite Hpo2, Hpo, app_assoc|].
    + intros _. destruct bytes as [|b0 bytes]; [|by apply Hroom2].
      by rewrite <- (reads_nil _ _ Hreads).
    + apply Forall2_app; [|by rewrite <- Hid]. eapply Forall2_impl; [exact Hall|].
      intros f p. by apply delivers_mono.
Qed.

(** The whole stream can be read, however it is cut: no read is left without room, and no
    completion handler fails. *)
Lemma stream_completes e ready bytes : forall fuel todo w, (length bytes <= fuel)%nat -> mid_stream e w bytes todo ->
  (bytes <> [] -> 0 < FreeSize (_recvBuffer (impl w))) ->
  exists w', read_all fuel ready bytes w = Some w' /\ reads w bytes w'.
Proof.
  remember (length bytes) as k eqn:Ek. revert bytes Ek. induction (lt_wf k) as [k _ IH].
  intros [|b bytes] -> fuel todo w Hf Hm Hroom; [exists w; split; [by destruct fuel|apply reads_done]|].
  destruct fuel as [|fuel]; [cbn in Hf; lia|]. specialize (Hroom ltac:(done)). cbn [read_all].
  set (n := Nat.min _ _). assert (0 < n)%nat as Hn by (unfold n; lia).
  rewrite <- (take_drop n (b :: bytes)) in Hm.
  assert (Z.of_nat (length (take n (b :: bytes))) <= FreeSize (_recvBuffer (impl w))) as Hfit
    by (rewrite length_take; unfold n; lia).
  destruct (stream_step e w _ _ todo Hm Hfit) as (w1 & now & later & ps & Hrun & _ & Hm1 & _ & _ & _ & Hroom1 & _).
  rewrite Hrun. cbn [mbind option_bind].
  assert (length (drop n (b :: bytes)) < length (b :: bytes))%nat as Hlt by (rewrite length_drop; simpl; lia).
  destruct (IH _ Hlt (drop n (b :: bytes)) eq_refl fuel later w1) as (w' & Hw & Hr); [simpl in *; lia|done|done|].
  exists w'. split; [done|]. rewrite <- (take_drop n (b :: bytes)). eapply reads_step; [|exact Hfit|exact Hrun|exact Hr].
  destruct n; [lia|done].
Qed.

Lemma mid_stream_end e w todo : mid_stream e w [] todo -> todo = [] /\ unread (_recvBuffer (impl w)) = [].
Proof.
  intros (_ & _ & _ & _ & _ & Heq & Hlast). rewrite app_nil_r in Heq.
  destruct todo as [|f todo]; [done|]. exfalso. rewrite Heq in Hlast. simpl in Hlast.
  rewrite length_app in Hlast. lia.
Qed.

(** A fresh connection about to receive [pkts]. *)
Lemma mid_stream_start e w pkts :
  tcp_inv w -> is_open (impl w) = true -> _encryption (impl w) = e -> _dispatcher (ses w) = true ->
  unread (_recvBuffer (impl w)) = [] -> Forall (fun f => wire_ok e f.1 f.2) pkts ->
  mid_stream e w (concat pkts.*1) pkts.
Proof.
  intros Hi Ho He Hd Hu Hok. unfold mid_stream. rewrite Hu. split_and!; try done.
  destruct pkts as [|f pkts]; [done|]. apply Forall_cons in Hok as [(_ & H4 & _) _]. simpl. lia.
Qed.

End Invariant.

(** ** The framing of the two classes *)

Definition gateway_dec (e : option IPacketEncryption) (size : Z) (bytes : list Z) : option (list Z) :=
  match e with
  | Some c =>
      if PacketHeader_SIZE <? size then
        plain ← Decrypt c (drop 4 (take (Z.to_nat size) bytes)); Some (take 4 bytes ++ plain)
      else Some (take 4 bytes)
  | None => Some (take (Z.to_nat size) bytes)
  end.

Definition backend_dec (e : option IPacketEncryption) (size : Z) (bytes : list Z) : option (list Z) :=
  Some (take (Z.to_nat size) bytes).

#[export] Instance gateway_framing : Framing Gateway.reject Gateway.fill gateway_dec.
Proof.
  split; [done|]. intros e size b Hb H4 Hs. unfold Gateway.fill, gateway_dec.
  by rewrite !ReadBytes_unread by (done || lia).
Qed.

#[export] Instance backend_framing : Framing Backend.reject Backend.fill backend_dec.
Proof.
  split; [done|]. intros e size b Hb H4 Hs. unfold Backend.fill, backend_dec.
  by rewrite ReadBytes_unread by (done || lia).
Qed.

(** ** Sending *)

Section Sending.
Context {Q : Type -> Type} `{!ConcurrentQueue Q} {T : Type}.
Context (sizeofPM : Z) (tid : nat) (this : Z).
Implicit Types w : World Q T TcpImpl.

(** The message at [p] is a packet of at least a header's size whose bytes go on
    the wire as [enc]. *)
Definition encodes (e : option IPacketEncryption) (m : Mem Q T) (p : Z) (enc : list Z) : Prop :=
  exists o, objs m !! p = Some o /\ 4 <= msg_length o /\ Z.of_nat (length enc) = msg_length o /\
  match e with
  | Some c => exists ct, enc = take 4 (wire_bytes o) ++ ct /\
      (if PacketHeader_SIZE <? msg_length o then Encrypt c (drop 4 (wire_bytes o)) = Some ct else ct = [])
  | None => enc = wire_bytes o
  end.

Lemma length_wire_bytes (o : Message T) : length (wire_bytes o) = Z.to_nat (msg_length o).
Proof. unfold wire_bytes. rewrite length_take, length_app, length_replicate. lia. Qed.

Lemma encodes_body e m m' p enc :
  encodes e m p enc ->
  (forall o, objs m !! p = Some o -> exists o', objs m' !! p = Some o' /\ body o' = body o) ->
  encodes e m' p enc.
Proof.
  intros (o & Ho & H) Hb. destruct (Hb o Ho) as (o' & Ho' & E). exists o'. split; [done|].
  unfold msg_length, wire_bytes, msg_payload, msg_length in *. by rewrite E.
Qed.

Lemma write_at_ok pos bs buf :
  (pos + length bs <= length buf)%nat -> Gateway.write_at pos bs buf = Some (splice pos bs buf).
Proof. intros H. unfold Gateway.write_at. by rewrite decide_True. Qed.

Lemma linear_write_spec e m p enc o pos buf :
  encodes e m p enc -> objs m !! p = Some o -> (pos + length enc <= length buf)%nat ->
  Gateway.linear_write e o pos buf = Some (splice pos enc buf).
Proof.
  intros (o' & Ho' & H4 & Hl & He) Ho Hfit. rewrite Ho in Ho'. injection Ho' as <-.
  unfold Gateway.linear_write.
  pose proof (length_wire_bytes o) as Hw. destruct e as [c|].
  - destruct He as (ct & -> & Hct). rewrite length_app, length_take in Hfit, Hl.
    rewrite take_app_le by (rewrite Hw; lia).
    rewrite write_at_ok by (rewrite length_take; lia). cbn [mbind option_bind].
    destruct (PacketHeader_SIZE <? msg_length o).
    + rewrite Hct. cbn [mbind option_bind].
      replace (pos + 4)%nat with (pos + length (take 4 (wire_bytes o)))%nat by (rewrite length_take; lia).
      rewrite write_at_ok by (rewrite length_splice; rewrite length_take; lia).
      by rewrite splice_app by (rewrite length_take; lia).
    + subst ct. by rewrite app_nil_r.
  - subst enc. by rewrite write_at_ok.
Qed.

(** Nothing but the memory and the read-only encryption matter to the loop. *)
Lemma linearize_spec e items encs l pos buf w :
  mem_inv sizeofPM (mem w) -> refs_ok (mem w) (items ++ l) -> _encryption (impl w) = e ->
  Forall2 (encodes e (mem w)) items encs -> (pos + length (concat encs) <= length buf)%nat ->
  exists m', Gateway.linearize tid items pos buf w = Some (splice pos (concat encs) buf, with_mem m' w) /\
    mem_inv sizeofPM m' /\ refs_ok m' l.
Proof.
  revert encs pos buf w; induction items as [|p items IH]; intros encs pos buf w Hi Hr He Henc Hfit.
  - apply Forall2_nil_inv_l in Henc as ->. exists (mem w). split_and!; try done.
    unfold splice. simpl. rewrite Nat.add_0_r, take_drop. by destruct w.
  - apply Forall2_cons_inv_l in Henc as (enc & encs' & Hp & Hrest & ->).
    simpl concat in *. rewrite length_app in Hfit.
    destruct Hp as (o & Ho & Hpo). assert (encodes e (mem w) p enc) as Hp by (by exists o).
    cbn [Gateway.linearize]. rewrite (run_deref _ _ _ _ Ho), run_gets, He.
    rewrite (linear_write_spec e (mem w) p enc o pos buf Hp Ho ltac:(lia)). cbn [lift_opt]. rewrite run_ret.
    destruct (Free_refs sizeofPM tid p (items ++ l) (mem w) Hi Hr) as (m1 & Hf & Hi1 & Hr1 & Hob1 & Hbody1).
    rewrite (run_pool_free _ _ _ _ _ Hf).
    assert (Z.to_nat (msg_length o) = length enc) as -> by (destruct Hpo as (_ & ? & _); lia).
    destruct (IH encs' (pos + length enc)%nat (splice pos enc buf) (with_mem m1 w)) as (m2 & Hrun & Hi2 & Hr2);
      try done.
    + eapply Forall2_impl_elem; [exact Hrest|]. intros q enc' Hq Henc'.
      eapply encodes_body; [exact Henc'|]. intros o0 Ho0.
      destruct (Hr1 q ltac:(apply elem_of_app; by left)) as (o1 & Ho1 & _). exists o1.
      split; [done|]. destruct (Hbody1 q o1 Ho1) as (o2 & ? & ?). congruence.
    + rewrite length_splice; lia.
    + exists m2. split_and!; try done. rewrite Hrun. by rewrite splice_app by lia.
Qed.

Lemma total_size_spec e items encs w :
  Forall2 (encodes e (mem w)) items encs ->
  Gateway.total_size items w = Some (Z.of_nat (length (concat encs)), w).
Proof.
  induction 1 as [|p enc items encs (o & Ho & H4 & Hl & _) Hrest IH]; [done|].
  cbn [Gateway.total_size]. rewrite (run_deref _ _ _ _ Ho), (run_step _ _ _ _ _ IH).
  unfold mret, M_ret. simpl. rewrite length_app. do 2 f_equal. lia.
Qed.

Context `{!FifoQueue Q}.

Lemma no_dequeue (q : Q Z) : contents q = [] -> try_dequeue q = None.
Proof.
  intros H. destruct (try_dequeue q) as [[x q']|] eqn:E; [|done].
  apply try_dequeue_Some in E. rewrite H in E. by apply Permutation_nil_cons in E.
Qed.

(** [Flush] up to the batch: closed socket, empty queue, or a batch to send. *)
Lemma Flush_cases send_batch w :
  Flush send_batch w =
    if negb (is_open (impl w)) then modify_ses (set_isSending false) w
    else
      let '(items, q') := try_dequeue_bulk MAX_BATCH_SIZE (_sendQueue (ses w)) in
      let w1 := mkWorld (set_sendQueue q' (ses w)) (impl w) (mem w) (posted w) (io w) in
      match items with
      | [] => modify_ses (set_isSending false) w1
      | _ => send_batch items w1
      end.
Proof.
  unfold Flush. cbn [Flush_fuel]. rewrite run_gets. destruct (is_open (impl w)); [|done]. cbn [negb].
  rewrite run_gets. destruct (try_dequeue_bulk _ _) as [items q'] eqn:E. rewrite run_modify_ses.
  destruct items as [|p items]; [|done].
  unfold flush_idle. rewrite run_modify_ses, run_gets. cbn [ses set_isSending _sendQueue set_sendQueue].
  rewrite no_dequeue; [done|].
  pose proof (try_dequeue_bulk_nil _ _ _ _ E) as [|Hn]; [done|].
  apply try_dequeue_bulk_contents in E. rewrite Hn in E. simpl in E. by apply Permutation_nil in E.
Qed.

Lemma gateway_batch_spec e items encs w :
  mem_inv sizeofPM (mem w) -> refs_ok (mem w) (items ++ owned w) -> buf_inv (_recvBuffer (impl w)) ->
  _encryption (impl w) = e -> Forall2 (encodes e (mem w)) items encs ->
  exists w', Gateway.send_batch tid items w = Some (tt, w') /\ tcp_inv sizeofPM w' /\
    io w' = io w ++ [AsyncWrite (concat encs)] /\ posted w' = posted w /\
    ses w' = set_ioRef (i32 (_ioRef (ses w) + 1)) (ses w).
Proof.
  intros Hi Hr Hb He Henc. unfold Gateway.send_batch.
  rewrite (run_step _ _ _ _ _ (total_size_spec e items encs w Henc)).
  rewrite Nat2Z.id.
  destruct (linearize_spec e items encs (owned w) 0 (replicate (length (concat encs)) 0) w Hi Hr He Henc)
    as (m' & Hrun & Hi' & Hr'); [rewrite length_replicate; lia|].
  rewrite (run_step _ _ _ _ _ Hrun), run_modify_impl. unfold IncRef. rewrite run_modify_ses.
  rewrite splice_all by (by rewrite length_replicate).
  eexists. split; [reflexivity|]. cbn. by split_and!.
Qed.

(** *** Backend *)

Lemma gather_spec items encs w :
  Forall2 (encodes None (mem w)) items encs ->
  Backend.gather items w = Some (concat encs, w).
Proof.
  induction 1 as [|p enc items encs (o & Ho & _ & _ & ->) Hrest IH]; [done|].
  cbn [Backend.gather]. by rewrite (run_deref _ _ _ _ Ho), (run_step _ _ _ _ _ IH).
Qed.

Lemma clear_sending_spec w l :
  mem_inv sizeofPM (mem w) -> refs_ok (mem w) (_sendingPackets (impl w) ++ l) ->
  exists m', Backend.clear_sending tid w =
      Some (tt, mkWorld (ses w) (set_sending [] [] (impl w)) m' (posted w) (io w)) /\
    mem_inv sizeofPM m' /\ refs_ok m' l /\
    forall b, b ∉ _sendingPackets (impl w) -> objs m' !! b = objs (mem w) !! b.
Proof.
  intros Hi Hr. unfold Backend.clear_sending. rewrite run_gets, run_modify_impl.
  set (w1 := mkWorld _ _ _ _ _).
  destruct (free_all_ok sizeofPM tid (_sendingPackets (impl w)) l w1 Hi Hr) as (m' & Hrun & Hi' & Hr' & Ho).
  exists m'. split_and!; try done.
Qed.

(** With no gather write in flight, the batch becomes the one in flight. *)
Lemma backend_batch_spec items encs w :
  mem_inv sizeofPM (mem w) -> refs_ok (mem w) (items ++ owned w) -> buf_inv (_recvBuffer (impl w)) ->
  _sendingPackets (impl w) = [] -> Forall2 (encodes None (mem w)) items encs ->
  exists w', Backend.send_batch tid items w = Some (tt, w') /\ tcp_inv sizeofPM w' /\
    io w' = io w ++ [AsyncWrite (concat encs)] /\ posted w' = posted w /\
    ses w' = set_ioRef (i32 (_ioRef (ses w) + 1)) (ses w) /\ _sendingPackets (impl w') = items.
Proof.
  intros Hi Hr Hb Hnone Henc. unfold Backend.send_batch, Backend.clear_sending.
  rewrite run_assoc, run_gets, run_assoc, run_modify_impl, Hnone. cbn [free_all]. rewrite run_ret.
  rewrite run_modify_impl. unfold IncRef. rewrite run_modify_ses. cbn [ses impl mem posted io].
  set (w1 := mkWorld _ _ _ _ _).
  rewrite (run_step _ _ _ _ _ (gather_spec items encs w1 Henc)).
  eexists. split; [reflexivity|]. cbn. split_and!; try done. split; cbn; try done.
  unfold owned in *. cbn in *. rewrite Hnone, app_nil_r in Hr.
  eapply refs_ok_proper; [|exact Hr]. rewrite app_assoc. apply Permutation_app_comm.
Qed.

End Sending.

(** ** Properties *)

Section Properties.
Context {Q : Type -> Type} `{!ConcurrentQueue Q, !FifoQueue Q} {T : Type}.
Context (sizeofPM : Z) (tid : nat) (this : Z).
Implicit Types w : World Q T TcpImpl.

(** A serialised packet: bytes, with a header that announces its length, and a
    payload length the cipher supports. *)
Definition good_packet (ok : nat -> Prop) (data : list Z) : Prop :=
  Forall is_byte data /\ (4 <= length data)%nat /\
  ph_size (decode_header data) = Z.of_nat (length data) /\ ok (length data - 4)%nat.

Definition lawful (e : option IPacketEncryption) (ok : nat -> Prop) : Prop :=
  match e with Some c => LawfulCipher c ok | None => True end.

(** The message at [p] carries the packet [data]. *)
Definition carries (m : Mem Q T) (p : Z) (data : list Z) : Prop :=
  exists o, objs m !! p = Some o /\ body o = BPacket (Z.of_nat (length data)) data.

Lemma carries_wire m p data :
  carries m p data -> exists o, objs m !! p = Some o /\ msg_length o = Z.of_nat (length data) /\ wire_bytes o = data.
Proof.
  intros (o & Ho & Hb). exists o. unfold wire_bytes, msg_length, msg_payload. rewrite Hb.
  split_and!; try done. by rewrite Nat2Z.id, take_app_length.
Qed.

(** Every good packet has a wire form, and the receiver decodes it. *)
Lemma wire_form e ok m p data :
  lawful e ok -> good_packet ok data -> carries m p data ->
  exists enc, encodes e m p enc /\ wire_ok Gateway.reject e enc data (dec := gateway_dec).
Proof.
  intros Hl (Hby & H4 & Hsz & Hok) Hc. destruct (carries_wire m p data Hc) as (o & Ho & Hlen & Hw).
  pose proof (decode_header_bound data Hby) as [[_ Hmax] _]. rewrite Hsz in Hmax. change (2 ^ 16) with 65536 in Hmax.
  assert (Gateway.reject (Z.of_nat (length data)) = false) as Hrej.
  { unfold Gateway.reject. rewrite (proj2 (Z.ltb_ge _ _)), (proj2 (Z.eqb_neq _ _)) by lia. done. }
  destruct e as [c|]; simpl in Hl.
  - set (hd := take 4 data).
    assert (exists ct, length ct = (length data - 4)%nat /\ Forall is_byte ct /\
      (if PacketHeader_SIZE <? Z.of_nat (length data) then Encrypt c (drop 4 data) = Some ct else ct = []) /\
      (PacketHeader_SIZE < Z.of_nat (length data) -> Decrypt c ct = Some (drop 4 data)))
      as (ct & Hct & Hcb & Henc & Hdec).
    { destruct (PacketHeader_SIZE <? Z.of_nat (length data)) eqn:E; bool_to_prop; unfold PacketHeader_SIZE in E.
      - destruct (cipher_roundtrip (drop 4 data)) as (ct & H1 & H2 & H3 & H5);
          [by apply Forall_drop|by rewrite length_drop|]. exists ct. rewrite length_drop in H2. by split_and!.
      - exists []. split_and!; try done; unfold PacketHeader_SIZE; simpl; lia. }
    exists (hd ++ ct).
    assert (length hd = 4%nat) as Hhd by (unfold hd; rewrite length_take; lia).
    assert (length (hd ++ ct) = length data) as Hle by (rewrite length_app; lia).
    split.
    + exists o. rewrite Hw, Hlen, Hle. split_and!; try done; [lia|]. by exists ct.
    + split; [apply Forall_app; split; [by apply Forall_take|done]|]. rewrite Hle.
      split; [lia|]. split.
      { rewrite (decode_header_prefix hd ct) by lia.
        pose proof (decode_header_prefix hd (drop 4 data) ltac:(lia)) as E.
        unfold hd in E at 1. rewrite take_drop in E. by rewrite <- E. }
      split; [done|]. intros tail. unfold gateway_dec.
      destruct (PacketHeader_SIZE <? Z.of_nat (length data)) eqn:E; bool_to_prop.
      * rewrite Nat2Z.id, (take_app_length' (hd ++ ct) tail (length data)) by done.
        rewrite (drop_app_length' hd ct) by done.
        rewrite Hdec by done. cbn [mbind option_bind].
        rewrite <- app_assoc, (take_app_length' hd) by done. unfold hd. by rewrite take_drop.
      * unfold PacketHeader_SIZE in E. subst ct. rewrite app_nil_r, (take_app_length' hd) by done.
        f_equal. unfold hd. apply take_ge. lia.
  - exists data. split.
    + exists o. rewrite Hw, Hlen. by split_and!; [done|lia|..].
    + split_and!; try done. intros tail. unfold gateway_dec. by rewrite Nat2Z.id, take_app_length.
Qed.

(** TCP reassembly: however the kernel cuts the byte stream of a sequence of
    valid packets into reads, a gateway session posts to the dispatcher exactly
    one NETWORK_DATA message per packet, in order, with the session's id, the
    packet's size and its decrypted payload, and ends with an empty buffer, open
    and still connected. *)
Theorem gateway_reassembles_stream e pkts w w'
  (Hinv : tcp_inv sizeofPM w) (Hopen : is_open (impl w) = true) (Henc : _encryption (impl w) = e)
  (Hdisp : _dispatcher (ses w) = true) (Hstart : unread (_recvBuffer (impl w)) = [])
  (Hpkts : Forall (fun f => wire_ok Gateway.reject e f.1 f.2 (dec := gateway_dec)) pkts)
  (Hreads : reads sizeofPM tid this Gateway.reject Gateway.fill w (concat pkts.*1) w') :
  tcp_inv sizeofPM w' /\ is_open (impl w') = true /\ _connected (ses w') = _connected (ses w) /\
  unread (_recvBuffer (impl w')) = [] /\
  exists ps, posted w' = posted w ++ ps /\
    Forall2 (fun f p => delivers this w' (_id (ses w)) (Z.of_nat (length f.1)) f.2 p) pkts ps.
Proof.
  pose proof (mid_stream_start sizeofPM Gateway.reject e w pkts Hinv Hopen Henc Hdisp Hstart Hpkts) as Hm.
  rewrite <- (app_nil_r (concat pkts.*1)) in Hm.
  destruct (stream_run sizeofPM tid this Gateway.reject Gateway.fill e w _ w' Hreads [] pkts Hm)
    as (now & later & ps & -> & Hm' & _ & _ & Hc & _ & Hpo & Hall).
  destruct (mid_stream_end _ _ _ _ _ Hm') as [-> Hu]. rewrite app_nil_r.
  destruct Hm' as (Hi' & Ho' & _). split_and!; try done. by exists ps.
Qed.

(** The receive path never stalls or fails on a valid stream: after any reads
    that consumed a prefix of it, the session offers the kernel a nonempty
    buffer, and the completion handler of any further read that fits returns. *)
Theorem gateway_stream_progress e pkts w w' pre chunk post
  (Hinv : tcp_inv sizeofPM w) (Hopen : is_open (impl w) = true) (Henc : _encryption (impl w) = e)
  (Hdisp : _dispatcher (ses w) = true) (Hstart : unread (_recvBuffer (impl w)) = [])
  (Hpkts : Forall (fun f => wire_ok Gateway.reject e f.1 f.2 (dec := gateway_dec)) pkts)
  (Hpre : pre <> []) (Hstream : pre ++ chunk ++ post = concat pkts.*1)
  (Hreads : reads sizeofPM tid this Gateway.reject Gateway.fill w pre w') :
  0 < FreeSize (_recvBuffer (impl w')) /\
  (Z.of_nat (length chunk) <= FreeSize (_recvBuffer (impl w')) ->
   exists w'', deliver_chunk sizeofPM tid this Gateway.reject Gateway.fill chunk w' = Some (tt, w'')).
Proof.
  pose proof (mid_stream_start sizeofPM Gateway.reject e w pkts Hinv Hopen Henc Hdisp Hstart Hpkts) as Hm.
  rewrite <- Hstream in Hm.
  destruct (stream_run sizeofPM tid this Gateway.reject Gateway.fill e w pre w' Hreads _ pkts Hm)
    as (now & later & ps & -> & Hm' & _ & _ & _ & Hroom & _).
  split; [by apply Hroom|]. intros Hfit.
  destruct (stream_step sizeofPM tid this Gateway.reject Gateway.fill e w' chunk post later Hm' Hfit)
    as (w'' & _ & _ & _ & Hrun & _). by exists w''.
Qed.

(** The world after [Flush] took its batch from the queue. *)
Lemma dequeued_refs w items q' :
  tcp_inv sizeofPM w -> try_dequeue_bulk MAX_BATCH_SIZE (_sendQueue (ses w)) = (items, q') ->
  refs_ok (mem w) (items ++ owned (mkWorld (set_sendQueue q' (ses w)) (impl w) (mem w) (posted w) (io w))).
Proof.
  intros Hi E. eapply refs_ok_proper; [|apply (ti_refs _ _ Hi)].
  unfold owned. cbn. apply try_dequeue_bulk_contents in E. rewrite E.
  rewrite <- !app_assoc. apply Permutation_app_swap_app.
Qed.

(** [GatewaySession::Flush] with work to do starts exactly one write, of the
    wire forms (plain header, encrypted payload) of the first 1000 queued
    packets in queue order; the packets written are released, the rest stay
    queued, and the sending flag stays set for the completion handler. *)
Theorem gateway_flush_writes_batch_in_order e w encs
  (Hinv : tcp_inv sizeofPM w) (Hopen : is_open (impl w) = true) (He : _encryption (impl w) = e)
  (Hwork : contents (_sendQueue (ses w)) <> [])
  (Henc : Forall2 (encodes e (mem w)) (take MAX_BATCH_SIZE (contents (_sendQueue (ses w)))) encs) :
  exists w', Gateway.GFlush tid w = Some (tt, w') /\ tcp_inv sizeofPM w' /\
    io w' = io w ++ [AsyncWrite (concat encs)] /\ posted w' = posted w /\
    contents (_sendQueue (ses w')) = drop MAX_BATCH_SIZE (contents (_sendQueue (ses w))) /\
    _isSending (ses w') = _isSending (ses w) /\
    _ioRef (ses w') = i32 (_ioRef (ses w) + 1).
Proof.
  unfold Gateway.GFlush. rewrite Flush_cases, Hopen. cbn [negb].
  destruct (try_dequeue_bulk _ _) as [items q'] eqn:E.
  pose proof (dequeued_refs w items q' Hinv E) as Hr.
  apply fifo_bulk in E as [-> Hq]. set (w1 := mkWorld _ _ _ _ _) in *.
  destruct (gateway_batch_spec sizeofPM tid e _ encs w1 (ti_mem _ _ Hinv) Hr (ti_buf _ _ Hinv) He Henc)
    as (w' & Hrun & Hi' & Hio & Hpo & Hs).
  exists w'. rewrite Hs. split_and!; try done. cbv zeta. rewrite <- Hrun.
  destruct (contents (_sendQueue (ses w))); [done|reflexivity].
Qed.

(** [BackendSession::Flush] gathers the payloads of the first 1000 queued
    packets into one write, in queue order, and keeps a reference to each until
    the completion handler runs, which releases them all. *)
Theorem backend_flush_owns_batch_until_complete w encs
  (Hinv : tcp_inv sizeofPM w) (Hopen : is_open (impl w) = true)
  (Hidle : _sendingPackets (impl w) = [])
  (Hwork : contents (_sendQueue (ses w)) <> [])
  (Henc : Forall2 (encodes None (mem w)) (take MAX_BATCH_SIZE (contents (_sendQueue (ses w)))) encs) :
  exists w', Backend.BFlush tid w = Some (tt, w') /\ tcp_inv sizeofPM w' /\
    io w' = io w ++ [AsyncWrite (concat encs)] /\
    contents (_sendQueue (ses w')) = drop MAX_BATCH_SIZE (contents (_sendQueue (ses w))) /\
    _sendingPackets (impl w') = take MAX_BATCH_SIZE (contents (_sendQueue (ses w))) /\
    exists w'', Backend.clear_sending tid w' = Some (tt, w'') /\ tcp_inv sizeofPM w'' /\
      _sendingPackets (impl w'') = [].
Proof.
  unfold Backend.BFlush. rewrite Flush_cases, Hopen. cbn [negb].
  destruct (try_dequeue_bulk _ _) as [items q'] eqn:E.
  pose proof (dequeued_refs w items q' Hinv E) as Hr.
  apply fifo_bulk in E as [-> Hq]. set (w1 := mkWorld _ _ _ _ _) in *.
  destruct (backend_batch_spec sizeofPM tid _ encs w1 (ti_mem _ _ Hinv) Hr (ti_buf _ _ Hinv) Hidle Henc)
    as (w' & Hrun & Hi' & Hio & Hpo & Hs & Hsp).
  exists w'. rewrite Hs. split_and!; try done.
  - cbv zeta. rewrite <- Hrun. destruct (contents (_sendQueue (ses w))); [done|reflexivity].
  - destruct (clear_sending_spec sizeofPM tid w' (posted w' ++ contents (_sendQueue (ses w'))) (ti_mem _ _ Hi'))
      as (m' & Hc & Hm & Hrf & _).
    { eapply refs_ok_proper; [|apply (ti_refs _ _ Hi')]. unfold owned.
      rewrite (app_assoc (posted w')). apply Permutation_app_comm. }
    eexists. split; [exact Hc|]. split; [|done]. split; [done| |apply Hi'].
    unfold owned. cbn. by rewrite app_nil_r.
Qed.

(** C1: End to end: what one gateway session flushes, cut into reads in any way, is
    taken in completely by the gateway session at the other end (with the same cipher, or
    none): no read is without room, every completion handler returns, and exactly the
    queued packets are posted, in order, byte for byte. *)
Theorem gateway_end_to_end e ok (ws wr : World Q T TcpImpl) datas
  (Hlaw : lawful e ok)
  (Hs : tcp_inv sizeofPM ws) (Hso : is_open (impl ws) = true) (Hse : _encryption (impl ws) = e)
  (Hwork : contents (_sendQueue (ses ws)) <> [])
  (Hbatch : (length (contents (_sendQueue (ses ws))) <= MAX_BATCH_SIZE)%nat)
  (Hgood : Forall (good_packet ok) datas)
  (Hcarry : Forall2 (carries (mem ws)) (contents (_sendQueue (ses ws))) datas)
  (Hr : tcp_inv sizeofPM wr) (Hro : is_open (impl wr) = true) (Hre : _encryption (impl wr) = e)
  (Hrd : _dispatcher (ses wr) = true) (Hru : unread (_recvBuffer (impl wr)) = [])
  (Hroom : 0 < FreeSize (_recvBuffer (impl wr))) :
  exists ws' stream, Gateway.GFlush tid ws = Some (tt, ws') /\
    io ws' = io ws ++ [AsyncWrite stream] /\
    forall ready, exists wr' ps,
      read_all sizeofPM tid this Gateway.reject Gateway.fill (length stream) ready stream wr = Some wr' /\
      unread (_recvBuffer (impl wr')) = [] /\ posted wr' = posted wr ++ ps /\
      Forall2 (fun data p => delivers this wr' (_id (ses wr)) (Z.of_nat (length data)) data p) datas ps.
Proof.
  assert (exists pkts, Forall2 (encodes e (mem ws)) (contents (_sendQueue (ses ws))) pkts.*1 /\
    pkts.*2 = datas /\ Forall (fun f => wire_ok Gateway.reject e f.1 f.2 (dec := gateway_dec)) pkts /\
    Forall (fun f => length f.1 = length f.2) pkts)
    as (pkts & Henc & Hd & Hok & Hlen).
  { clear -Hlaw Hgood Hcarry. induction Hcarry as [|p data ps datas Hp Hrest IH]; [by exists []|].
    apply Forall_cons in Hgood as [Hg Hgood]. destruct (IH Hgood) as (pkts & H1 & H2 & H3 & H5).
    destruct (wire_form e ok (mem ws) p data Hlaw Hg Hp) as (enc & He & Hw).
    exists ((enc, data) :: pkts). split_and!.
    - by constructor.
    - cbn. f_equal. exact H2.
    - by constructor.
    - constructor; [|done]. simpl. destruct (carries_wire _ _ _ Hp) as (o & Ho & Hl & _).
      destruct He as (o' & Ho' & _ & Hl' & _). rewrite Ho in Ho'. injection Ho' as <-. lia. }
  destruct (try_dequeue_bulk MAX_BATCH_SIZE (_sendQueue (ses ws))) as [items q'] eqn:E.
  pose proof (dequeued_refs ws items q' Hs E) as Hrf.
  pose proof E as [Hit _]%fifo_bulk. rewrite take_ge in Hit by done. subst items.
  set (w1 := mkWorld _ _ _ _ _) in *.
  destruct (gateway_batch_spec sizeofPM tid e _ pkts.*1 w1 (ti_mem _ _ Hs) Hrf (ti_buf _ _ Hs) Hse Henc)
    as (ws' & Hrun & _ & Hio & _).
  exists ws', (concat pkts.*1). split_and!; [|done|].
  { unfold Gateway.GFlush. rewrite Flush_cases, Hso, E. cbn [negb]. rewrite <- Hrun. fold w1. cbv zeta.
    destruct (contents (_sendQueue (ses ws))); [done|reflexivity]. }
  intros ready.
  pose proof (mid_stream_start sizeofPM Gateway.reject e wr pkts Hr Hro Hre Hrd Hru Hok) as Hm.
  destruct (stream_completes sizeofPM tid this Gateway.reject Gateway.fill e ready (concat pkts.*1) _ pkts wr (le_n _) Hm ltac:(done))
    as (wr' & Hall' & Hreads). exists wr'.
  rewrite <- (app_nil_r (concat pkts.*1)) in Hm.
  destruct (stream_run sizeofPM tid this Gateway.reject Gateway.fill e wr _ wr' Hreads [] pkts Hm)
    as (now & later & ps & -> & Hm' & _ & _ & _ & _ & Hpo & Hall).
  destruct (mid_stream_end _ _ _ _ _ Hm') as [-> Hu]. exists ps. split_and!; [exact Hall'|done|done|].
  rewrite app_nil_r in *. rewrite <- Hd. apply Forall2_fmap_l. eapply Forall2_impl_elem; [exact Hall|].
  intros f p Hf Hdel. simpl. assert (length f.1 = length f.2) as <-; [|exact Hdel].
  apply (proj1 (List.Forall_forall _ _) Hlen f). by apply list_elem_of_In.
Qed.

(** A header that announces size 0 (or, for the backend, more than 10240) is a
    protocol error: the session closes its socket, becomes disconnected, posts the
    disconnect event and no data message, and leaves the bad bytes unread. *)
Theorem bad_header_closes_session (backend : bool) w bytes size
  (reject := if backend then Backend.reject else Gateway.reject)
  (fill := if backend then Backend.fill else Gateway.fill)
  (Hinv : tcp_inv sizeofPM w) (Hempty : unread (_recvBuffer (impl w)) = [])
  (Hconn : _connected (ses w) = true) (Hdisp : _dispatcher (ses w) = true)
  (Hbytes : Forall is_byte bytes) (Hfit : Z.of_nat (length bytes) <= FreeSize (_recvBuffer (impl w)))
  (Hlen : (4 <= length bytes)%nat) (Hsize : ph_size (decode_header bytes) = size)
  (Hbad : size = 0 \/ (backend = true /\ 10240 < size)) :
  exists w' p, deliver_chunk sizeofPM tid this reject fill bytes w = Some (tt, w') /\
    _connected (ses w') = false /\ is_open (impl w') = false /\
    posted w' = posted w ++ [p] /\ is_event this w' NETWORK_DISCONNECT (_id (ses w)) p /\
    unread (_recvBuffer (impl w')) = bytes.
Proof.
  assert (reject size = true) as Hrej.
  { unfold reject. destruct Hbad as [->|[-> Hs]]; [by destruct backend|].
    unfold Backend.reject. by rewrite (proj2 (Z.ltb_lt _ _)) by lia. }
  set (dec := if backend then backend_dec else gateway_dec).
  assert (Framing reject fill dec) as Hfr
    by (unfold reject, fill, dec; destruct backend; apply _).
  unfold deliver_chunk. rewrite run_modify_impl.
  destruct (WriteBytes_buf bytes _ (ti_buf _ _ Hinv) Hbytes Hfit) as (b & Hmv & Hb & Hu).
  rewrite Hempty in Hu. simpl in Hu.
  unfold read_handler, OnReadComplete, OnRecv. rewrite run_assoc, run_gets.
  cbn [impl set_recvBuffer _recvBuffer]. rewrite Hmv. cbn [negb].
  rewrite run_assoc, run_modify_impl. cbn [impl ses mem posted io]. set (w1 := mkWorld _ _ _ _ _).
  assert (tcp_inv sizeofPM w1) as Hi1 by (split; [apply Hinv|apply Hinv|done]).
  pose proof (length_unread b (bi_inv _ Hb)) as Hl. rewrite Hu in Hl.
  destruct (recv_loop_spec sizeofPM tid this reject fill (S (Z.to_nat (DataSize b))) [] bytes false w1 Hi1)
    as (w2 & Hrun & _ & _ & _ & Hid & Hun & (ps & tl & Hpo & Hall & Htl) & Hc & Hop).
  { change (_recvBuffer (impl w1)) with b. rewrite Hu. cbn [frames].
    rewrite (proj2 (Z.ltb_ge _ _)) by (unfold PacketHeader_SIZE; lia). by rewrite Hsize, Hrej. }
  change (ses w1) with (ses w) in *. rewrite Hconn, Hdisp in *. simpl in Htl.
  destruct Htl as (p & -> & Hev). specialize (Hall eq_refl). apply Forall2_nil_inv_l in Hall as ->.
  rewrite run_assoc, (run_step _ _ _ _ _ Hrun). cbv beta iota. rewrite run_ret.
  unfold DecRef, modify_ses. eexists _, p. split; [reflexivity|]. by cbn.
Qed.

(** [Close] is idempotent: closing a connected session any number of times
    posts exactly one disconnect event, and every call returns. *)
Theorem close_posts_one_disconnect n w
  (Hinv : tcp_inv sizeofPM w) (Hconn : _connected (ses w) = true) (Hdisp : _dispatcher (ses w) = true) :
  exists w' p, Nat.iter (S n) (fun m => Close sizeofPM tid this;; m) (mret ()) w = Some (tt, w') /\
    tcp_inv sizeofPM w' /\ _connected (ses w') = false /\ is_open (impl w') = false /\
    posted w' = posted w ++ [p] /\ is_event this w' NETWORK_DISCONNECT (_id (ses w)) p.
Proof.
  destruct (Close_spec sizeofPM tid this w Hinv)
    as (w1 & Hrun & Hi1 & _ & Hc1 & Ho1 & _ & _ & _ & Hpo). rewrite Hconn, Hdisp in Hpo. simpl in Hpo.
  destruct Hpo as (p & Hp & Hev). cbn [Nat.iter nat_rect]. rewrite (run_step _ _ _ _ _ Hrun).
  assert (forall w0, tcp_inv sizeofPM w0 -> _connected (ses w0) = false -> is_open (impl w0) = false ->
    exists w', Nat.iter n (fun m => Close sizeofPM tid this;; m) (mret ()) w0 = Some (tt, w') /\
      tcp_inv sizeofPM w' /\ _connected (ses w') = false /\ is_open (impl w') = false /\
      posted w' = posted w0 /\ objs (mem w0) ⊆ objs (mem w')) as Hagain.
  { clear. induction n as [|n IH]; intros w0 Hi Hc Ho; [by exists w0|]. cbn [Nat.iter nat_rect].
    destruct (Close_spec sizeofPM tid this w0 Hi) as (w1 & Hrun & Hi1 & Hsub & Hc1 & Ho1 & _ & _ & _ & Hpo).
    rewrite Hc in Hpo. simpl in Hpo. rewrite (run_step _ _ _ _ _ Hrun).
    destruct (IH w1 Hi1 Hc1 Ho1) as (w' & Hr & ? & ? & ? & Hp & Hs). exists w'.
    split_and!; try done; [by rewrite Hp|by etransitivity]. }
  destruct (Hagain w1 Hi1 Hc1 Ho1) as (w' & Hr & Hi' & Hc' & Ho' & Hp' & Hsub).
  exists w', p. split_and!; try done; [by rewrite Hp'|]. unfold is_event in *. by eapply lookup_weaken.
Qed.

(** Heartbeat supervision: when its timer fires without error on a connected
    session, silence longer than the timeout closes the session; otherwise the
    session stays connected and the timer is armed again. *)
Theorem heartbeat_closes_only_on_timeout now w
  (Hinv : tcp_inv sizeofPM w) (Hconn : _connected (ses w) = true)
  (Htimer : _heartbeatTimer (impl w) = true) :
  exists w', OnHeartbeatTimer sizeofPM tid this true false now w = Some (tt, w') /\
    (_hbTimeout (impl w) < now - _lastRecvTime (impl w) ->
       _connected (ses w') = false /\ is_open (impl w') = false) /\
    (now - _lastRecvTime (impl w) <= _hbTimeout (impl w) ->
       _connected (ses w') = true /\ last (io w') = Some (AsyncWait 1000)).
Proof.
  unfold OnHeartbeatTimer, IsConnected. rewrite run_gets, Hconn. cbn [orb negb]. rewrite run_gets.
  destruct (_hbTimeout (impl w) <? now - _lastRecvTime (impl w)) eqn:E; bool_to_prop.
  - destruct (Close_spec sizeofPM tid this w Hinv) as (w' & Hrun & _ & _ & Hc & Ho & _).
    exists w'. split; [done|]. split; [done|lia].
  - set (w1 := if (_hbInterval (impl w) <=? now - _lastPingTime (impl w)) && _hbPingFunc (impl w)
               then mkWorld (ses w) (set_lastPingTime now (impl w)) (mem w) (posted w) (io w ++ [PingCalled])
               else w).
    assert (((if (_hbInterval (impl w) <=? now - _lastPingTime (impl w)) && _hbPingFunc (impl w)
              then emit PingCalled;; modify_impl (set_lastPingTime now) else mret ()) : M Q T TcpImpl unit) w
            = Some (tt, w1)) as Hstep by (unfold w1; by destruct (_ && _)).
    rewrite (run_step _ _ _ _ _ Hstep).
    assert (_heartbeatTimer (impl w1) = true /\ _connected (ses w1) = true) as [Ht1 Hc1]
      by (unfold w1; by destruct (_ && _)).
    unfold StartHeartbeat. rewrite run_gets, Ht1. cbn [negb]. unfold IncRef. rewrite run_modify_ses.
    eexists. split; [reflexivity|]. split; [lia|]. intros _. cbn. split; [done|]. apply last_snoc.
Qed.

End Properties.

(** ** Witnesses *)

(** A connected gateway session with an empty buffer, and one 5-byte packet. *)
Definition demo_ses : Session list := mkSession 7 true true 1 [] false.

Definition demo_impl (e : option IPacketEncryption) : TcpImpl :=
  set_heartbeat 1000 5000 true (set_timers true (set_encryption e (set_socket (Some true) TcpImpl_new))).

Definition demo_world (e : option IPacketEncryption) : World list unit TcpImpl :=
  mkWorld demo_ses (demo_impl e) Mem_new [] [].

Definition demo_packet : list Z := [5; 0; 1; 0; 42].

Lemma demo_buf : buf_inv (RecvBuffer_new DEFAULT_CAPACITY).
Proof.
  split; [apply new_inv; unfold DEFAULT_CAPACITY; lia|done|]. apply Forall_replicate. done.
Qed.

Lemma demo_tcp_inv e : tcp_inv 40 (demo_world e).
Proof. split; [apply Mem_new_inv|apply refs_ok_nil|apply demo_buf]. Qed.

Lemma demo_wire : wire_ok Gateway.reject None demo_packet demo_packet (dec := gateway_dec).
Proof.
  split_and!; [repeat constructor; lia|simpl; lia|done|done|]. intros tail. done.
Qed.

Lemma demo_room : FreeSize (_recvBuffer (impl (demo_world None))) = 65536.
Proof. done. Qed.

Lemma demo_mid : mid_stream 40 Gateway.reject None (demo_world None) (demo_packet ++ [])
  [(demo_packet, demo_packet)] (dec := gateway_dec).
Proof.
  apply (mid_stream_start 40 Gateway.reject None (demo_world None) [(demo_packet, demo_packet)]);
    try done; [apply demo_tcp_inv|]. constructor; [apply demo_wire|done].
Qed.

Lemma demo_reads :
  exists w', reads 40 0 9 Gateway.reject Gateway.fill (demo_world None) demo_packet w'.
Proof.
  destruct (stream_step 40 0 9 Gateway.reject Gateway.fill None (demo_world None) demo_packet []
    _ demo_mid ltac:(rewrite demo_room; simpl; lia)) as (w1 & _ & _ & _ & Hrun & _).
  exists w1. rewrite <- (app_nil_r demo_packet). eapply reads_step; [done| |exact Hrun|apply reads_done].
  rewrite demo_room. simpl. lia.
Qed.

Lemma gateway_reassembles_stream_witness :
  exists w', reads 40 0 9 Gateway.reject Gateway.fill (demo_world None) demo_packet w' /\
    exists ps, posted w' = [] ++ ps /\
      Forall2 (fun f p => delivers 9 w' 7 (Z.of_nat (length f.1)) f.2 p) [(demo_packet, demo_packet)] ps.
Proof.
  destruct demo_reads as [w' Hr]. exists w'. split; [exact Hr|].
  pose proof (gateway_reassembles_stream 40 0 9 None [(demo_packet, demo_packet)] (demo_world None) w'
    (demo_tcp_inv None) eq_refl eq_refl eq_refl eq_refl) as H.
  apply H; [constructor; [exact demo_wire|constructor]|exact Hr].
Defined.

Lemma gateway_stream_progress_witness :
  exists w', reads 40 0 9 Gateway.reject Gateway.fill (demo_world None) demo_packet w' /\
    0 < FreeSize (_recvBuffer (impl w')).
Proof.
  destruct demo_reads as [w' Hr]. exists w'. split; [exact Hr|].
  pose proof (gateway_stream_progress 40 0 9 None [(demo_packet, demo_packet)] (demo_world None) w'
    demo_packet [] [] (demo_tcp_inv None) eq_refl eq_refl eq_refl eq_refl) as H.
  apply H; [constructor; [exact demo_wire|constructor]|discriminate|reflexivity|exact Hr].
Defined.

(** A session with one queued packet, at address 1. *)
Definition demo_mem : Mem list unit :=
  put_obj 1 (set_payload demo_packet (PacketMessage_new 5)) (mem1 5).

Definition demo_sender (e : option IPacketEncryption) : World list unit TcpImpl :=
  mkWorld (set_sendQueue [1] demo_ses) (demo_impl e) demo_mem [] [].

Lemma demo_carries : carries demo_mem 1 demo_packet.
Proof. eexists. split; reflexivity. Qed.

Lemma demo_sender_inv e : tcp_inv 40 (demo_sender e).
Proof.
  split; [|intros a Ha|apply demo_buf].
  - eapply (put_live_inv 40 1 (PacketMessage_new 5)); [exact (mem1_inv 5)|reflexivity|].
    intros s Hs. exact Hs.
  - apply list_elem_of_singleton in Ha as ->. eexists. split; [reflexivity|]. done.
Qed.

Lemma demo_encodes : Forall2 (encodes None (mem (demo_sender None)))
  (take MAX_BATCH_SIZE (contents (_sendQueue (ses (demo_sender None))))) [demo_packet].
Proof. constructor; [|constructor]. eexists. split; [reflexivity|]. by split_and!. Qed.

Lemma gateway_flush_writes_batch_in_order_witness :
  exists w', Gateway.GFlush 0 (demo_sender None) = Some (tt, w') /\ io w' = [AsyncWrite demo_packet].
Proof.
  destruct (gateway_flush_writes_batch_in_order 40 0 None (demo_sender None) [demo_packet]
    (demo_sender_inv None) eq_refl eq_refl ltac:(discriminate) demo_encodes) as (w' & H1 & _ & H2 & _).
  exists w'. split; [exact H1|exact H2].
Defined.

Lemma backend_flush_owns_batch_until_complete_witness :
  exists w', Backend.BFlush 0 (demo_sender None) = Some (tt, w') /\ _sendingPackets (impl w') = [1].
Proof.
  destruct (backend_flush_owns_batch_until_complete 40 0 (demo_sender None) [demo_packet]
    (demo_sender_inv None) eq_refl eq_refl ltac:(discriminate) demo_encodes) as (w' & H1 & _ & _ & _ & H2 & _).
  exists w'. split; [exact H1|exact H2].
Defined.

Lemma demo_key : is_byte 165.
Proof. done. Qed.

Lemma gateway_end_to_end_witness :
  exists ws' stream, Gateway.GFlush 0 (demo_sender (Some (Xor.XorEncryption 165))) = Some (tt, ws') /\
    io ws' = [AsyncWrite stream] /\
    exists wr' p, read_all 40 0 9 Gateway.reject Gateway.fill (length stream) (fun _ => 1%nat) stream
        (demo_world (Some (Xor.XorEncryption 165))) = Some wr' /\
      posted wr' = [p] /\ delivers 9 wr' 7 5 demo_packet p.
Proof.
  destruct (gateway_end_to_end 40 0 9 (Some (Xor.XorEncryption 165)) (fun _ => True)
    (demo_sender (Some (Xor.XorEncryption 165))) (demo_world (Some (Xor.XorEncryption 165))) [demo_packet])
    as (ws' & stream & H1 & H2 & H3).
  - exact (XorEncryption_lawful 165 demo_key).
  - apply demo_sender_inv.
  - reflexivity.
  - reflexivity.
  - discriminate.
  - cbn. unfold MAX_BATCH_SIZE. lia.
  - constructor; [|constructor]. unfold good_packet. split; [repeat constructor; lia|]. split; [cbn; lia|done].
  - constructor; [exact demo_carries|constructor].
  - apply demo_tcp_inv.
  - reflexivity.
  - reflexivity.
  - reflexivity.
  - reflexivity.
  - reflexivity.
  - exists ws', stream. split; [exact H1|]. split; [exact H2|].
    destruct (H3 (fun _ => 1%nat)) as (wr' & ps & Hrun & _ & Hpo & Hall). inversion Hall as [|data p datas ps' Hdel Hnil]; subst.
    inversion Hnil; subst. exists wr', p. split; [exact Hrun|]. split; [exact Hpo|exact Hdel].
Defined.

Lemma bad_header_closes_session_witness :
  exists w' p, deliver_chunk 40 0 9 Gateway.reject Gateway.fill [0; 0; 1; 0] (demo_world None) = Some (tt, w') /\
    _connected (ses w') = false /\ posted w' = [p].
Proof.
  destruct (bad_header_closes_session 40 0 9 false (demo_world None) [0; 0; 1; 0] 0
    (demo_tcp_inv None) eq_refl eq_refl eq_refl) as (w' & p & H1 & H2 & _ & H3 & _).
  - repeat constructor; lia.
  - rewrite demo_room. cbn. lia.
  - cbn. lia.
  - reflexivity.
  - left. reflexivity.
  - exists w', p. split; [exact H1|]. split; [exact H2|exact H3].
Defined.

Lemma close_posts_one_disconnect_witness :
  exists w' p, Nat.iter 3 (fun m => Close 40 0 9;; m) (mret ()) (demo_world None) = Some (tt, w') /\
    posted w' = [p].
Proof.
  destruct (close_posts_one_disconnect 40 0 9 2 (demo_world None) (demo_tcp_inv None) eq_refl eq_refl)
    as (w' & p & H1 & _ & _ & _ & H2 & _).
  exists w', p. split; [exact H1|exact H2].
Defined.

Lemma heartbeat_closes_only_on_timeout_witness :
  exists w', OnHeartbeatTimer 40 0 9 true false 6000 (demo_world None) = Some (tt, w') /\
    _connected (ses w') = false.
Proof.
  destruct (heartbeat_closes_only_on_timeout 40 0 9 6000 (demo_world None) (demo_tcp_inv None) eq_refl eq_refl)
    as (w' & H1 & H2 & _).
  exists w'. split; [exact H1|]. apply H2. cbn. lia.
Defined.

(** The same, run: the receiver takes two bytes at a time and posts one message. *)
Example reads_in_pieces :
  (w ← read_all 40 0 9 Gateway.reject Gateway.fill 5 (fun _ => 1%nat) demo_packet (demo_world None);
   Some (length (posted w), unread (_recvBuffer (impl w)))) = Some (1%nat, []).
Proof. vm_compute. reflexivity. Qed.
