(* ===== verification/Dispatcher.v ===== *)
(** * Dispatcher: the logic thread's message loop

    Models src/System/Dispatcher/DISPATCHER/DispatcherImpl.h and .cpp: a queue of
    messages filled by any thread, [Process] that handles up to 64 of them and
    then recycles the sessions that are disconnected and unreferenced, the
    session registry, [Push] and [WithSession].

    The dispatcher sees a session only as [ISession]: whether it is connected and
    how many I/O references it has, and its id ([SessRef]); [d_sess] holds the
    sessions in use, and [Destroy] takes one out of it when it goes back to its
    pool.  A task is the application's ([AppTask]) or the lambda [WithSession]
    pushes ([SessionTask], with the id and the callback it captures).  The
    application's packet handler, tasks and callbacks are functions on the
    dispatcher's world ([App]); the timer service is a state with the
    [ITimerHandler] operations.
    [None] is undefined behaviour: a message that is not live, a session pointer
    that is not a session, a [static_cast] to the wrong message class. *)

From stdpp Require Import base numbers gmap functions list.
From S2P Require Import Prelude ConcurrentQueue Messages MessagePool Session Timer.

Record PacketView := mkView { pv_id : Z; pv_payload : list Z; pv_length : Z }.

(** What the dispatcher sees of a session. *)
Record SessRef := mkSess { sr_connected : bool; sr_ioRef : Z; sr_id : Z }.

Definition sr_CanDestroy (s : SessRef) : bool := negb (sr_connected s) && (sr_ioRef s =? 0).

Definition sr_DecRef (s : SessRef) : SessRef := mkSess (sr_connected s) (i32 (sr_ioRef s - 1)) (sr_id s).

(** The timer service as the dispatcher calls it. *)
Class ITimerHandler (TS : Type) := {
  th_OnTimerExpired : Z -> TS -> TS;
  th_OnTimerAdd : TimerAddMessage -> TS -> TS;
  th_OnTimerCancel : TimerCancelMessage -> TS -> TS;
  th_OnTick : TS -> TS
}.

(** [TimerImpl] implements it; the listener calls are appended to a trace. *)
#[export] Instance TimerImpl_handler (alive : Z -> bool) : ITimerHandler (TimerImpl * list TimerCall) := {
  th_OnTimerExpired i st :=
    let '(c, s) := OnTimerExpired alive i st.1 in (s, st.2 ++ c);
  th_OnTimerAdd msg st := (OnTimerAdd alive msg st.1, st.2);
  th_OnTimerCancel msg st := (OnTimerCancel msg st.1, st.2);
  th_OnTick st := let '(c, s) := OnTick alive st.1 in (s, st.2 ++ c)
}.

Record DWorld (Q : Type -> Type) (T TS : Type) := mkD {
  _messageQueue : Q Z;
  _sessions : gmap Z Z;
  _pendingDestroy : list Z;
  _ownerThreadId : option nat;
  _timerHandler : option TS;
  _packetHandler : bool;
  _waitingCount : Z;
  notifications : nat;
  d_mem : Mem Q T;
  d_sess : gmap Z SessRef;
  d_destroyed : list Z
}.
Arguments mkD {Q T TS} _ _ _ _ _ _ _ _ _ _ _.
Arguments _messageQueue {Q T TS} _.
Arguments _sessions {Q T TS} _.
Arguments _pendingDestroy {Q T TS} _.
Arguments _ownerThreadId {Q T TS} _.
Arguments _timerHandler {Q T TS} _.
Arguments _packetHandler {Q T TS} _.
Arguments _waitingCount {Q T TS} _.
Arguments notifications {Q T TS} _.
Arguments d_mem {Q T TS} _.
Arguments d_sess {Q T TS} _.
Arguments d_destroyed {Q T TS} _.

(** A [std::function<void()>] given to [Push]: the application's own, or the lambda
    of [WithSession] with what it captures. *)
Inductive Task (U C : Type) := AppTask (u : U) | SessionTask (sessionId : Z) (callback : C).
Arguments AppTask {U C} _.
Arguments SessionTask {U C} _ _.

(** The code the dispatcher calls back: the packet handler, the application's
    tasks, and the callbacks given to [WithSession]. *)
Record App (W U C : Type) := mkApp {
  HandlePacket : Z -> PacketView -> W -> W;
  OnSessionDisconnect : Z -> W -> W;
  run_task : U -> W -> W;
  run_callback : C -> Z -> W -> W
}.
Arguments mkApp {W U C} _ _ _ _.
Arguments HandlePacket {W U C} _ _ _ _.
Arguments OnSessionDisconnect {W U C} _ _ _.
Arguments run_task {W U C} _ _ _.
Arguments run_callback {W U C} _ _ _ _.

Definition HIGH_WATER : nat := 5000.
Definition LOW_WATER : nat := 3000.
Definition BATCH_SIZE : nat := 64.

Section Dispatcher.
Context {Q : Type -> Type} `{!ConcurrentQueue Q} {U C TS : Type} `{!ITimerHandler TS}.
Abbreviation T := (Task U C).
Abbreviation W := (DWorld Q T TS).
Implicit Types w : W.
Context (app : App W U C).

(** ** Field assignments *)

Definition set_queue (q : Q Z) w : W :=
  mkD q (_sessions w) (_pendingDestroy w) (_ownerThreadId w) (_timerHandler w) (_packetHandler w)
    (_waitingCount w) (notifications w) (d_mem w) (d_sess w) (d_destroyed w).
Definition set_sessions (s : gmap Z Z) w : W :=
  mkD (_messageQueue w) s (_pendingDestroy w) (_ownerThreadId w) (_timerHandler w) (_packetHandler w)
    (_waitingCount w) (notifications w) (d_mem w) (d_sess w) (d_destroyed w).
Definition set_pending (l : list Z) w : W :=
  mkD (_messageQueue w) (_sessions w) l (_ownerThreadId w) (_timerHandler w) (_packetHandler w)
    (_waitingCount w) (notifications w) (d_mem w) (d_sess w) (d_destroyed w).
Definition set_owner (o : option nat) w : W :=
  mkD (_messageQueue w) (_sessions w) (_pendingDestroy w) o (_timerHandler w) (_packetHandler w)
    (_waitingCount w) (notifications w) (d_mem w) (d_sess w) (d_destroyed w).
Definition set_timer (t : option TS) w : W :=
  mkD (_messageQueue w) (_sessions w) (_pendingDestroy w) (_ownerThreadId w) t (_packetHandler w)
    (_waitingCount w) (notifications w) (d_mem w) (d_sess w) (d_destroyed w).
Definition set_waiting (n : Z) w : W :=
  mkD (_messageQueue w) (_sessions w) (_pendingDestroy w) (_ownerThreadId w) (_timerHandler w)
    (_packetHandler w) n (notifications w) (d_mem w) (d_sess w) (d_destroyed w).
Definition notify w : W :=
  mkD (_messageQueue w) (_sessions w) (_pendingDestroy w) (_ownerThreadId w) (_timerHandler w)
    (_packetHandler w) (_waitingCount w) (S (notifications w)) (d_mem w) (d_sess w) (d_destroyed w).
Definition set_dmem (m : Mem Q T) w : W :=
  mkD (_messageQueue w) (_sessions w) (_pendingDestroy w) (_ownerThreadId w) (_timerHandler w)
    (_packetHandler w) (_waitingCount w) (notifications w) m (d_sess w) (d_destroyed w).
Definition set_sess (s : gmap Z SessRef) w : W :=
  mkD (_messageQueue w) (_sessions w) (_pendingDestroy w) (_ownerThreadId w) (_timerHandler w)
    (_packetHandler w) (_waitingCount w) (notifications w) (d_mem w) s (d_destroyed w).

(** [SessionFactory::Destroy(session)]: the session goes back to its pool; from here
    on its address is no session in use. *)
Definition Destroy (p : Z) w : W :=
  mkD (_messageQueue w) (_sessions w) (_pendingDestroy w) (_ownerThreadId w) (_timerHandler w)
    (_packetHandler w) (_waitingCount w) (notifications w) (d_mem w) (delete p (d_sess w)) (d_destroyed w ++ [p]).

(** ** Producers *)

Definition Post (msg : Z) w : W :=
  let w := set_queue (enqueue msg (_messageQueue w)) w in
  if 0 <? _waitingCount w then notify w else w.

(** [new LambdaMessage()], the task, [Post]. *)
Definition Push (sizeofLambda : Z) (task : option T) w : W :=
  let '(msg, m) := new_lambda sizeofLambda task (d_mem w) in Post msg (set_dmem m w).

Definition GetQueueSize w : nat := size_approx (_messageQueue w).

Definition IsOverloaded w : bool := (HIGH_WATER <? GetQueueSize w)%nat.

Definition IsRecovered w : bool := (GetQueueSize w <? LOW_WATER)%nat.

Definition RegisterTimerHandler (t : option TS) w : W := set_timer t w.

(** [Wait]: on entry and on return; the predicate decides whether it sleeps. *)
Definition Wait_enter w : W * bool :=
  let w := set_waiting (i32 (_waitingCount w + 1)) w in (w, (GetQueueSize w =? 0)%nat).

Definition Wait_leave w : W := set_waiting (i32 (_waitingCount w - 1)) w.

(** ** Handlers *)

Definition HandlePacketMessage (o : Message T) w : option W :=
  match session o with
  | None => Some w
  | Some p =>
      s ← d_sess w !! p;
      if sr_connected s then
        match body o with
        | BPacket len data =>
            if PacketHeader_SIZE <=? len then
              if _packetHandler w then
                Some (HandlePacket app p
                  (mkView (ph_id (decode_header data)) (drop 4 (take (Z.to_nat len) data)) (len - PacketHeader_SIZE)) w)
              else Some w
            else Some w
        | _ => None
        end
      else Some w
  end.

(** The four timer handlers: nothing without a registered handler. *)
Definition with_timer (f : TS -> TS) w : W :=
  match _timerHandler w with Some ts => set_timer (Some (f ts)) w | None => w end.

Definition HandleTimerExpiredMessage (o : Message T) w : option W :=
  match body o with BTimerExpired i => Some (with_timer (th_OnTimerExpired i) w) | _ => None end.

Definition HandleTimerAddMessage (o : Message T) w : option W :=
  match body o with BTimerAdd m => Some (with_timer (th_OnTimerAdd m) w) | _ => None end.

Definition HandleTimerCancelMessage (o : Message T) w : option W :=
  match body o with BTimerCancel m => Some (with_timer (th_OnTimerCancel m) w) | _ => None end.

Definition HandleTimerTickMessage (o : Message T) w : option W :=
  match body o with BTimerTick _ => Some (with_timer th_OnTick w) | _ => None end.

(** [if (msg->session != nullptr) msg->session->DecRef();] *)
Definition release_session (o : Message T) w : option W :=
  match session o with
  | None => Some w
  | Some p => s ← d_sess w !! p; Some (set_sess (<[p := sr_DecRef s]> (d_sess w)) w)
  end.

(** [delete lMsg] *)
Definition delete_msg (a : Z) w : W :=
  set_dmem (operator_delete a (set_objs (delete a (objs (d_mem w))) (d_mem w))) w.

(** [lMsg->task()]; the second case is the body of the lambda [WithSession] pushes. *)
Definition run_lambda (t : T) w : option W :=
  match t with
  | AppTask u => Some (run_task app u w)
  | SessionTask i callback =>
      match _sessions w !! i with
      | None => Some w
      | Some p => s ← d_sess w !! p; Some (if sr_connected s then run_callback app callback p w else w)
      end
  end.

Definition HandleLambdaMessage (a : Z) (o : Message T) w : option W :=
  match body o with
  | BLambda task =>
      w ← match task with Some t => run_lambda t w | None => Some w end;
      w ← release_session o w;
      Some (delete_msg a w)
  | _ => None
  end.

Definition HandleConnect (o : Message T) w : option W :=
  match session o with
  | None => Some w
  | Some p => i ← sessionId o; Some (set_sessions (<[i := p]> (_sessions w)) w)
  end.

Definition HandleDisconnect (o : Message T) w : option W :=
  match session o with
  | None => Some w
  | Some p =>
      i ← sessionId o;
      let w := set_sessions (delete i (_sessions w)) w in
      let w := if _packetHandler w then OnSessionDisconnect app p w else w in
      Some (set_pending (_pendingDestroy w ++ [p]) w)
  end.

(** The [switch] of [Process], without the lambda case that skips the release. *)
Definition handle (o : Message T) w : option W :=
  match mtype o with
  | LOGIC_JOB => Some w
  | NETWORK_DATA | PACKET => HandlePacketMessage o w
  | NETWORK_CONNECT => HandleConnect o w
  | NETWORK_DISCONNECT => HandleDisconnect o w
  | LOGIC_TIMER_EXPIRED => HandleTimerExpiredMessage o w
  | LOGIC_TIMER_ADD => HandleTimerAddMessage o w
  | LOGIC_TIMER_CANCEL => HandleTimerCancelMessage o w
  | LOGIC_TIMER_TICK => HandleTimerTickMessage o w
  | LAMBDA_JOB => Some w
  end.

(** One iteration of the loop. *)
Definition process_one (tid : nat) (a : Z) w : option W :=
  o ← objs (d_mem w) !! a;
  match mtype o with
  | LAMBDA_JOB => HandleLambdaMessage a o w
  | _ =>
      w ← handle o w;
      w ← release_session o w;
      m ← Free tid (Some a) (d_mem w);
      Some (set_dmem m w)
  end.

Fixpoint process_all (tid : nat) (msgs : list Z) w : option W :=
  match msgs with
  | [] => Some w
  | a :: rest => w ← process_one tid a w; process_all tid rest w
  end.

(** The swap-and-pop loop at index [i]; [None] when the fuel runs out. *)
Fixpoint destroy_loop (fuel : nat) (i : nat) w : option W :=
  match fuel with
  | O => None
  | S fuel =>
      match _pendingDestroy w !! i with
      | None => Some w
      | Some p =>
          s ← d_sess w !! p;
          if sr_CanDestroy s then
            let w := Destroy p w in
            match last (_pendingDestroy w) with
            | Some b => destroy_loop fuel i (set_pending (removelast (<[i := b]> (_pendingDestroy w))) w)
            | None => None
            end
          else destroy_loop fuel (S i) w
      end
  end.

Definition ProcessPendingDestroys w : option W :=
  match _pendingDestroy w with
  | [] => Some w
  | _ => destroy_loop (S (length (_pendingDestroy w))) 0 w
  end.

Definition Process (tid : nat) w : option (bool * W) :=
  let '(msgs, q) := try_dequeue_bulk BATCH_SIZE (_messageQueue w) in
  let w := set_queue q w in
  let w := match _ownerThreadId w with None => set_owner (Some tid) w | Some _ => w end in
  w ← process_all tid msgs w;
  w ← ProcessPendingDestroys w;
  Some (negb (bool_decide (msgs = [])), w).

(** ** WithSession *)

Definition IsInDispatcherThread (tid : nat) w : bool := bool_decide (_ownerThreadId w = Some tid).

Definition WithSession (tid : nat) (sizeofLambda : Z) (i : Z) (callback : C) w : option W :=
  if IsInDispatcherThread tid w then
    match _sessions w !! i with
    | Some p =>
        s ← d_sess w !! p;
        if sr_connected s then Some (run_callback app callback p w) else Some w
    | None => Some w
    end
  else Some (Push sizeofLambda (Some (SessionTask i callback)) w).

End Dispatcher.

(** ** Swap-and-pop *)

Lemma swap_pop {A} (l : list A) i p b :
  l !! i = Some p -> last l = Some b ->
  let l' := removelast (<[i := b]> l) in
  take i l' = take i l /\ drop i l ≡ₚ p :: drop i l' /\ length l = S (length l').
Proof.
  intros Hp Hb. cbv zeta. pose proof (lookup_lt_Some _ _ _ Hp) as Hi.
  rewrite <- (take_drop_middle l i p Hp) in Hb |- *. set (l1 := take i l) in *.
  assert (length l1 = i) as Hl1 by (unfold l1; rewrite length_take; lia).
  set (l2 := drop (S i) l) in *. clearbody l1 l2.
  rewrite (insert_app_r_alt l1 (p :: l2)) by lia. replace (i - length l1)%nat with 0%nat by lia. simpl.
  destruct (last l2) as [b'|] eqn:E.
  - apply last_Some in E as [l3 ->].
    assert (b = b') as ->.
    { replace (l1 ++ p :: l3 ++ [b']) with ((l1 ++ p :: l3) ++ [b']) in Hb by by rewrite <- app_assoc.
      rewrite last_snoc in Hb. by simplify_eq. }
    replace (l1 ++ b' :: l3 ++ [b']) with ((l1 ++ b' :: l3) ++ [b']) by by rewrite <- app_assoc.
    rewrite removelast_last, !take_app_length', !drop_app_length' by done.
    split_and!; [done| |].
    + by rewrite (Permutation_app_comm l3 [b']).
    + rewrite !length_app. simpl. rewrite !length_app. simpl. lia.
  - apply last_None in E as ->. rewrite removelast_last.
    rewrite take_app_length', drop_app_length' by done.
    rewrite take_ge, drop_ge by lia. split_and!; [done|done|]. rewrite length_app. simpl. lia.
Qed.

(** ** Invariant

    [fl] are the messages already dequeued but not yet processed.  [dinv]: every
    message in [fl] or in the queue is live, owns a reference, has the class its
    type announces, and accounts for one I/O reference of the session it points
    to; sessions waiting for destruction exist.  [rinv], the life of a session:
    it is disconnected once, is not connected after that, its event messages
    carry its id, and the registry maps ids to sessions in use that are not
    waiting for destruction. *)

Section Invariant.
Context {Q : Type -> Type} `{!ConcurrentQueue Q} {U C TS : Type} `{!ITimerHandler TS}.
Context (sizeofPM : Z).
Abbreviation T := (Task U C).
Abbreviation W := (DWorld Q T TS).
Implicit Types w : W.
Implicit Types m : Mem Q T.

Definition well_typed (o : Message T) : Prop :=
  match mtype o with
  | NETWORK_CONNECT | NETWORK_DISCONNECT => session o = None \/ is_Some (sessionId o)
  | NETWORK_DATA | PACKET => exists n d, body o = BPacket n d
  | LOGIC_JOB => True
  | LAMBDA_JOB => (exists t, body o = BLambda t) /\ refCount o = 1 /\ isPooled o = false
  | LOGIC_TIMER_EXPIRED => exists i, body o = BTimerExpired i
  | LOGIC_TIMER_ADD => exists b, body o = BTimerAdd b
  | LOGIC_TIMER_CANCEL => exists b, body o = BTimerCancel b
  | LOGIC_TIMER_TICK => exists t, body o = BTimerTick t
  end.

Definition points_to m (p a : Z) : bool :=
  match objs m !! a with Some o => bool_decide (session o = Some p) | None => false end.

(** How many of the messages [l] refer to session [p]. *)
Definition refs_to m (l : list Z) (p : Z) : Z := Z.of_nat (length (filter (fun a => points_to m p a) l)).

Definition flight (fl : list Z) w : list Z := fl ++ contents (_messageQueue w).

Record dinv (fl : list Z) w : Prop := mk_dinv {
  di_mem : mem_inv sizeofPM (d_mem w);
  di_refs : refs_ok (d_mem w) (flight fl w);
  di_typed : forall a o, a ∈ flight fl w -> objs (d_mem w) !! a = Some o -> well_typed o;
  di_sess : forall p, 0 < refs_to (d_mem w) (flight fl w) p ->
    exists s, d_sess w !! p = Some s /\ refs_to (d_mem w) (flight fl w) p <= sr_ioRef s < 2 ^ 31;
  di_pend : forall p, p ∈ _pendingDestroy w -> is_Some (d_sess w !! p)
}.

(** What a message says of the life of session [p]. *)
Inductive LifeEvent := Opens | Closes.

Definition event m (p a : Z) : option LifeEvent :=
  match objs m !! a with
  | Some o =>
      if bool_decide (session o = Some p) then
        match mtype o with NETWORK_CONNECT => Some Opens | NETWORK_DISCONNECT => Some Closes | _ => None end
      else None
  | None => None
  end.

(** The messages [l], in the order they are processed, tell one life of [p], of
    which [closed] says whether it is over: one disconnect and no connect after it. *)
Fixpoint life m (p : Z) (closed : bool) (l : list Z) : bool :=
  match l with
  | [] => true
  | a :: l =>
      match event m p a with
      | Some Opens => negb closed && life m p closed l
      | Some Closes => negb closed && life m p true l
      | None => life m p closed l
      end
  end.

Definition closed w (p : Z) : bool := bool_decide (p ∈ _pendingDestroy w).

Record rinv (fl : list Z) w : Prop := mk_rinv {
  ri_nodup : NoDup (_pendingDestroy w);
  ri_life : forall p, life (d_mem w) p (closed w p) (flight fl w) = true;
  ri_ids : forall a o p, a ∈ flight fl w -> objs (d_mem w) !! a = Some o -> event (d_mem w) p a <> None ->
    exists s, d_sess w !! p = Some s /\ sessionId o = Some (sr_id s);
  ri_reg : forall i p, _sessions w !! i = Some p ->
    p ∉ _pendingDestroy w /\ exists s, d_sess w !! p = Some s /\ sr_id s = i
}.

(** What application code may do: keep the invariant, leave the messages in
    flight as they are, and not remove sessions or reach into the private fields
    of the dispatcher. *)
Definition app_step_ok (f : W -> W) : Prop :=
  forall fl w, dinv fl w -> rinv fl w ->
    dinv fl (f w) /\ rinv fl (f w) /\
    (forall a o, a ∈ fl -> objs (d_mem w) !! a = Some o -> objs (d_mem (f w)) !! a = Some o) /\
    (forall p s, d_sess w !! p = Some s -> exists s', d_sess (f w) !! p = Some s' /\ sr_id s' = sr_id s) /\
    _sessions (f w) = _sessions w /\
    _pendingDestroy (f w) = _pendingDestroy w /\ d_destroyed (f w) = d_destroyed w.

Class AppOk (app : App W U C) : Prop := {
  app_packet : forall p v, app_step_ok (HandlePacket app p v);
  app_disconnect : forall p, app_step_ok (OnSessionDisconnect app p);
  app_task : forall t, app_step_ok (run_task app t);
  app_callback : forall c p, app_step_ok (run_callback app c p)
}.

(** Session [q] is referred to by the messages in flight and [k] times from elsewhere
    (its reads and writes under way). *)
Definition counted (q k : Z) (fl : list Z) w : Prop :=
  forall s, d_sess w !! q = Some s -> sr_ioRef s = refs_to (d_mem w) (flight fl w) q + k.

Definition keeps_count (q k : Z) (f : W -> W) : Prop :=
  forall fl w, dinv fl w -> counted q k fl w -> counted q k fl (f w).

(** Application code that takes and gives back no reference to [q] but with messages. *)
Record app_counts (q k : Z) (app : App W U C) : Prop := mk_app_counts {
  ac_packet : forall p v, keeps_count q k (HandlePacket app p v);
  ac_disconnect : forall p, keeps_count q k (OnSessionDisconnect app p);
  ac_task : forall t, keeps_count q k (run_task app t);
  ac_callback : forall c p, keeps_count q k (run_callback app c p)
}.

(** *** Destruction *)

Definition can_destroy w (p : Z) : bool :=
  match d_sess w !! p with Some s => sr_CanDestroy s | None => false end.

Definition forget (ds : list Z) (sess : gmap Z SessRef) : gmap Z SessRef :=
  foldl (fun ss p => delete p ss) sess ds.

Lemma forget_lookup ds sess p : forget ds sess !! p = if bool_decide (p ∈ ds) then None else sess !! p.
Proof.
  revert sess; induction ds as [|q ds IH]; intros sess; [done|].
  change (forget (q :: ds) sess) with (forget ds (delete q sess)). rewrite IH.
  destruct (decide (p = q)) as [->|Hne].
  - rewrite lookup_delete_eq, (bool_decide_true (q ∈ q :: ds)) by left. by case_bool_decide.
  - rewrite lookup_delete_ne by done. do 2 case_bool_decide; try done.
    + exfalso. by match goal with H : _ ∉ _ |- _ => apply H; right end.
    + exfalso. by match goal with H : _ ∈ _ :: _ |- _ => apply elem_of_cons in H as [|] end.
Qed.

Definition after_destroy w (ds l : list Z) : W :=
  mkD (_messageQueue w) (_sessions w) l (_ownerThreadId w) (_timerHandler w) (_packetHandler w)
    (_waitingCount w) (notifications w) (d_mem w) (forget ds (d_sess w)) (d_destroyed w ++ ds).

(** What popping slot [i] leaves of the pending list. *)
Lemma popped_pending i p b (l : list Z) :
  NoDup l -> l !! i = Some p -> last l = Some b ->
  let l' := removelast (<[i := b]> l) in NoDup l' /\ p ∉ l' /\ l ≡ₚ p :: l'.
Proof.
  intros Hnd Hp Hb. cbv zeta. destruct (swap_pop l i p b Hp Hb) as (Ht & Hd & _).
  set (l' := removelast _) in *.
  assert (l ≡ₚ p :: l') as Hperm.
  { rewrite <- (take_drop i l), Hd, <- Ht, <- Permutation_middle. by rewrite take_drop. }
  rewrite Hperm in Hnd. apply NoDup_cons in Hnd as [? ?]. by split_and!.
Qed.

Lemma destroy_loop_spec fuel i w :
  (forall p, p ∈ _pendingDestroy w -> is_Some (d_sess w !! p)) -> NoDup (_pendingDestroy w) ->
  (length (_pendingDestroy w) - i < fuel)%nat ->
  exists ds l, destroy_loop fuel i w = Some (after_destroy w ds l) /\
    take i l = take i (_pendingDestroy w) /\ drop i (_pendingDestroy w) ≡ₚ ds ++ drop i l /\
    Forall (fun p => can_destroy w p = true) ds /\
    Forall (fun p => can_destroy w p = false) (drop i l).
Proof.
  revert i w; induction fuel as [|fuel IH]; intros i w Hs Hnd Hf; [lia|]. cbn [destroy_loop].
  destruct (_pendingDestroy w !! i) as [p|] eqn:Ep.
  2: { apply lookup_ge_None in Ep. exists [], (_pendingDestroy w).
       rewrite drop_ge by lia. split_and!; try done. unfold after_destroy. rewrite app_nil_r. by destruct w. }
  destruct (Hs p) as [s Hps]; [by eapply list_elem_of_lookup_2|]. rewrite Hps. cbn [mbind option_bind].
  pose proof (lookup_lt_Some _ _ _ Ep) as Hlt.
  assert (can_destroy w p = sr_CanDestroy s) as Hcan by (unfold can_destroy; by rewrite Hps).
  destruct (sr_CanDestroy s) eqn:Ec.
  - cbn [Destroy _pendingDestroy].
    destruct (last (_pendingDestroy w)) as [b|] eqn:Eb.
    2: { apply last_None in Eb. rewrite Eb in Hlt. simpl in Hlt. lia. }
    destruct (swap_pop _ i p b Ep Eb) as (Ht & Hd & Hlen).
    destruct (popped_pending i p b _ Hnd Ep Eb) as (Hnd' & Hout & Hperm).
    set (l' := removelast _) in *. set (w1 := set_pending l' (Destroy p w)).
    assert (forall q, q ∈ l' -> d_sess w1 !! q = d_sess w !! q) as Hsame.
    { intros q Hq. cbn. apply lookup_delete_ne. congruence. }
    destruct (IH i w1) as (ds & l & Hrun & Htk & Hdr & Hds & Hkeep); cbn; [..|done|lia|].
    { intros q Hq. specialize (Hsame q Hq). cbn in Hsame. rewrite Hsame. apply Hs. rewrite Hperm. by right. }
    cbn in Hdr. exists (p :: ds), l. split_and!.
    + rewrite Hrun. unfold after_destroy, w1. cbn. by rewrite <- app_assoc.
    + rewrite Htk. exact Ht.
    + rewrite Hd. by rewrite Hdr.
    + constructor; [done|]. eapply Forall_impl; [exact Hds|]. intros q. unfold can_destroy, w1. cbn.
      destruct (decide (q = p)) as [->|Hne]; [by rewrite lookup_delete_eq|by rewrite lookup_delete_ne].
    + apply Forall_forall. intros q Hq. rewrite Forall_forall in Hkeep. specialize (Hkeep q Hq).
      unfold can_destroy in *. rewrite (Hsame q) in Hkeep; [done|]. rewrite <- (take_drop i l'), Hdr.
      apply elem_of_app. right. apply elem_of_app. by right.
  - destruct (IH (S i) w Hs Hnd ltac:(lia)) as (ds & l & Hrun & Htk & Hdr & Hds & Hkeep).
    exists ds, l.
    assert (l !! i = Some p) as Hl.
    { rewrite <- (lookup_take_lt l (S i)) by lia. rewrite Htk. by rewrite lookup_take_lt by lia. }
    split_and!; try done.
    + assert (take i (take (S i) l) = take i (take (S i) (_pendingDestroy w))) as E by by rewrite Htk.
      rewrite !take_take in E. by replace (i `min` S i)%nat with i in E by lia.
    + rewrite (drop_S _ _ _ Ep), (drop_S _ _ _ Hl), Hdr. by rewrite Permutation_middle.
    + rewrite (drop_S _ _ _ Hl). constructor; [congruence|done].
Qed.

Lemma ProcessPendingDestroys_spec w :
  (forall p, p ∈ _pendingDestroy w -> is_Some (d_sess w !! p)) -> NoDup (_pendingDestroy w) ->
  exists ds l, ProcessPendingDestroys w = Some (after_destroy w ds l) /\
    _pendingDestroy w ≡ₚ ds ++ l /\
    Forall (fun p => can_destroy w p = true) ds /\ Forall (fun p => can_destroy w p = false) l.
Proof.
  intros Hs Hnd. unfold ProcessPendingDestroys. destruct (_pendingDestroy w) as [|p0 l0] eqn:E.
  - exists [], []. split_and!; try done. destruct w. cbn in E. subst. unfold after_destroy. by rewrite app_nil_r.
  - rewrite <- E. rewrite <- E in Hs, Hnd.
    destruct (destroy_loop_spec (S (length (_pendingDestroy w))) 0 w Hs Hnd)
      as (ds & l & Hrun & _ & Hd & H1 & H2); [lia|]. exists ds, l. by split_and!.
Qed.

(** *** One message *)

Lemma refs_to_cons m a l p :
  refs_to m (a :: l) p = (if points_to m p a then 1 else 0) + refs_to m l p.
Proof. unfold refs_to. rewrite filter_cons. destruct (points_to m p a); simpl; lia. Qed.

Lemma refs_to_ext m m' l p :
  (forall b, b ∈ l -> points_to m p b = points_to m' p b) -> refs_to m l p = refs_to m' l p.
Proof.
  induction l as [|a l IH]; intros H; [done|]. rewrite !refs_to_cons, (H a) by left.
  rewrite IH; [done|]. intros b Hb. apply H. by right.
Qed.

Lemma refs_to_nonneg m l p : 0 <= refs_to m l p.
Proof. unfold refs_to. lia. Qed.

Lemma current_session fl a o p w :
  dinv (a :: fl) w -> objs (d_mem w) !! a = Some o -> session o = Some p ->
  exists s, d_sess w !! p = Some s /\ 1 + refs_to (d_mem w) (flight fl w) p <= sr_ioRef s < 2 ^ 31.
Proof.
  intros Hd Ho Hs. pose proof (di_sess _ _ Hd p) as H.
  assert (points_to (d_mem w) p a = true) as Hp.
  { unfold points_to. rewrite Ho. by apply bool_decide_true. }
  change (flight (a :: fl) w) with (a :: flight fl w) in H. rewrite refs_to_cons, Hp in H.
  pose proof (refs_to_nonneg (d_mem w) (flight fl w) p). apply H. lia.
Qed.

(** *** The life of a session *)

Lemma event_same m m' p a o o' :
  objs m !! a = Some o -> objs m' !! a = Some o' -> session o' = session o -> mtype o' = mtype o ->
  event m' p a = event m p a.
Proof. intros Ho Ho' Hs Ht. unfold event. by rewrite Ho, Ho', Hs, Ht. Qed.

Lemma event_quiet m p a o :
  objs m !! a = Some o -> (mtype o <> NETWORK_CONNECT /\ mtype o <> NETWORK_DISCONNECT) \/ session o = None ->
  event m p a = None.
Proof.
  intros Ho Hq. unfold event. rewrite Ho. case_bool_decide as Hs; [|done].
  destruct Hq as [[H1 H2]|Hn]; [by destruct (mtype o)|congruence].
Qed.

Lemma event_other m p q a o :
  objs m !! a = Some o -> session o = Some q -> p <> q -> event m p a = None.
Proof. intros Ho Hs Hne. unfold event. rewrite Ho, bool_decide_false; [done|congruence]. Qed.

Lemma event_points m p a : event m p a <> None -> points_to m p a = true.
Proof. unfold event, points_to. destruct (objs m !! a); [|done]. by case_bool_decide. Qed.

Lemma life_ext m m' p c l :
  (forall a, a ∈ l -> event m' p a = event m p a) -> life m' p c l = life m p c l.
Proof.
  revert c; induction l as [|a l IH]; intros c H; [done|]. cbn [life]. rewrite (H a) by left.
  rewrite !IH by (intros b Hb; apply H; by right). done.
Qed.

Lemma life_closed m p c l : life m p true l = true -> life m p c l = true.
Proof. induction l as [|a l IH]; [done|]. cbn [life]. by destruct (event m p a) as [[]|]. Qed.

Lemma points_refs m p a l : a ∈ l -> points_to m p a = true -> 0 < refs_to m l p.
Proof.
  induction 1 as [x l|x b l Hin IH]; intros Hp; rewrite refs_to_cons.
  - rewrite Hp. pose proof (refs_to_nonneg m l p). lia.
  - specialize (IH Hp). destruct (points_to m p b); lia.
Qed.

(** A message that ends no life leaves the invariant of the messages after it. *)
Lemma rinv_tail fl a w :
  rinv (a :: fl) w -> (forall p, event (d_mem w) p a <> Some Closes) -> rinv fl w.
Proof.
  intros Hr He. split; try apply Hr.
  - intros p. pose proof (ri_life _ _ Hr p) as Hl. cbn [flight app life] in Hl.
    specialize (He p). destruct (event (d_mem w) p a) as [[]|]; try done.
    by apply andb_prop in Hl as [_ Hl].
  - intros b o p Hb. apply (ri_ids _ _ Hr). by right.
Qed.

(** ... and so does the erasure of a registry entry. *)
Lemma rinv_erase fl i w : rinv fl w -> rinv fl (set_sessions (delete i (_sessions w)) w).
Proof. intros Hr. split; try apply Hr. cbn. intros j p [_ Hj]%lookup_delete_Some. by apply (ri_reg _ _ Hr). Qed.

(** Registering the session of a connect message under the id it carries. *)
Lemma rinv_register fl a o i p w :
  rinv (a :: fl) w -> objs (d_mem w) !! a = Some o -> mtype o = NETWORK_CONNECT -> session o = Some p ->
  sessionId o = Some i -> rinv fl (set_sessions (<[i := p]> (_sessions w)) w).
Proof.
  intros Hr Ho Ht Hs Hi.
  assert (event (d_mem w) p a = Some Opens) as He.
  { unfold event. rewrite Ho, bool_decide_true by done. by rewrite Ht. }
  assert (rinv fl w) as Hr1.
  { apply (rinv_tail fl a); [done|]. intros q. destruct (decide (q = p)) as [->|Hne]; [by rewrite He|].
    by rewrite (event_other _ q p a o). }
  split; try apply Hr1. cbn. intros j q [[<- <-]|[_ Hq]]%lookup_insert_Some; [|by apply (ri_reg _ _ Hr1)].
  pose proof (ri_life _ _ Hr p) as Hl. cbn [flight app life] in Hl. rewrite He in Hl.
  apply andb_prop in Hl as [Hc%negb_true_iff%bool_decide_eq_false _]. split; [done|].
  destruct (ri_ids _ _ Hr a o p ltac:(left) Ho) as (s & Hps & Hid); [congruence|].
  exists s. split; [done|]. congruence.
Qed.

(** A disconnect message is the end of its session: once its registry entry is erased
    the session can wait for its destruction. *)
Lemma rinv_retire fl a o i p w :
  rinv (a :: fl) w -> objs (d_mem w) !! a = Some o -> mtype o = NETWORK_DISCONNECT -> session o = Some p ->
  sessionId o = Some i -> _sessions w !! i = None -> rinv fl (set_pending (_pendingDestroy w ++ [p]) w).
Proof.
  intros Hr Ho Ht Hs Hi Herased.
  assert (event (d_mem w) p a = Some Closes) as He.
  { unfold event. rewrite Ho, bool_decide_true by done. by rewrite Ht. }
  pose proof (ri_life _ _ Hr p) as Hlp. cbn [flight app life] in Hlp. rewrite He in Hlp.
  apply andb_prop in Hlp as [Hc%negb_true_iff%bool_decide_eq_false Hlp].
  split; cbn.
  - apply NoDup_app. split; [apply Hr|]. split; [|apply NoDup_singleton].
    intros q Hq ->%list_elem_of_singleton. done.
  - intros q. unfold closed. cbn. destruct (decide (q = p)) as [->|Hne].
    + rewrite bool_decide_true; [exact Hlp|]. apply elem_of_app. right. left.
    + rewrite (bool_decide_ext _ (q ∈ _pendingDestroy w)).
      * pose proof (ri_life _ _ Hr q) as Hlq. cbn [flight app life] in Hlq.
        by rewrite (event_other _ q p a o) in Hlq.
      * rewrite elem_of_app, list_elem_of_singleton. tauto.
  - intros b ob q Hb. apply (ri_ids _ _ Hr). by right.
  - intros j q Hj. destruct (ri_reg _ _ Hr j q Hj) as (Hq & s & Hqs & Hid). split; [|by exists s].
    intros [?|Hqp%list_elem_of_singleton]%elem_of_app; [done|subst q].
    destruct (ri_ids _ _ Hr a o p ltac:(left) Ho) as (s' & Hps & Hid'); [congruence|]. congruence.
Qed.

Lemma well_typed_refCount r o : mtype o <> LAMBDA_JOB -> well_typed o -> well_typed (set_refCount r o).
Proof. intros Hne Hw. unfold well_typed in *. simpl. by destruct (mtype o). Qed.

(** Releasing one reference of a message leaves the others what they were. *)
Lemma free_keeps fl a o tid w m :
  dinv (a :: fl) w -> objs (d_mem w) !! a = Some o -> (mtype o = LAMBDA_JOB -> refCount o = 1) ->
  Free tid (Some a) (d_mem w) = Some m ->
  forall b ob, b ∈ flight fl w -> objs m !! b = Some ob ->
    exists ob0, objs (d_mem w) !! b = Some ob0 /\ session ob = session ob0 /\ mtype ob = mtype ob0 /\
      sessionId ob = sessionId ob0 /\ (well_typed ob0 -> well_typed ob).
Proof.
  intros Hd Ho Hlam Hf b ob Hb Hob.
  destruct (Free_refs sizeofPM tid a (flight fl w) (d_mem w) (di_mem _ _ Hd) (di_refs _ _ Hd)) as (m1 & Hf1 & _ & _ & Hother & _).
  destruct (Free_spec sizeofPM tid a o (d_mem w) (di_mem _ _ Hd) Ho) as (m2 & Hf2 & _ & Hcase).
  rewrite Hf in Hf1, Hf2. injection Hf1 as <-. injection Hf2 as <-.
  destruct (decide (b = a)) as [->|Hne]; [|exists ob; by rewrite <- Hother].
  exists o. split; [done|]. destruct (refCount o =? 1) eqn:E.
  - destruct Hcase as [Hc _]. by rewrite Hc, lookup_delete_eq in Hob.
  - rewrite Hcase, lookup_insert_eq in Hob. injection Hob as <-. split_and!; try done.
    intros Ht. apply well_typed_refCount; [|done]. intros Hl. bool_to_prop. by apply Hlam in Hl.
Qed.

(** ... and so the references of the other messages. *)
Lemma freed_refs fl a o tid w m p :
  dinv (a :: fl) w -> objs (d_mem w) !! a = Some o -> (mtype o = LAMBDA_JOB -> refCount o = 1) ->
  Free tid (Some a) (d_mem w) = Some m -> refs_to m (flight fl w) p = refs_to (d_mem w) (flight fl w) p.
Proof.
  intros Hd Ho Hlam Hf. pose proof (free_keeps fl a o tid w m Hd Ho Hlam Hf) as Hsame.
  destruct (Free_refs sizeofPM tid a (flight fl w) (d_mem w) (di_mem _ _ Hd) (di_refs _ _ Hd)) as (m1 & Hf1 & Hi & Hr & _).
  rewrite Hf in Hf1. injection Hf1 as <-. apply refs_to_ext. intros b Hb. unfold points_to.
  destruct (Hr b Hb) as (ob & Hob & _). rewrite Hob. by destruct (Hsame b ob Hb Hob) as (ob0 & -> & -> & _).
Qed.

(** The invariant after a message is released, whatever became of the sessions, if they
    are still referred to as the remaining messages say. *)
Lemma freed_dinv fl a o tid w w1 m :
  dinv (a :: fl) w -> objs (d_mem w) !! a = Some o -> (mtype o = LAMBDA_JOB -> refCount o = 1) ->
  Free tid (Some a) (d_mem w) = Some m -> d_mem w1 = d_mem w -> _messageQueue w1 = _messageQueue w ->
  (forall p, 0 < refs_to (d_mem w) (flight fl w) p -> exists s, d_sess w1 !! p = Some s /\
     refs_to (d_mem w) (flight fl w) p <= sr_ioRef s < 2 ^ 31) ->
  (forall p, p ∈ _pendingDestroy w1 -> is_Some (d_sess w1 !! p)) -> dinv fl (set_dmem m w1).
Proof.
  intros Hd Ho Hlam Hf Em Eq Hs Hp. pose proof (free_keeps fl a o tid w m Hd Ho Hlam Hf) as Hsame.
  destruct (Free_refs sizeofPM tid a (flight fl w) (d_mem w) (di_mem _ _ Hd) (di_refs _ _ Hd)) as (m1 & Hf1 & Hi & Hr & _).
  rewrite Hf in Hf1. injection Hf1 as <-.
  assert (forall p, refs_to m (flight fl w) p = refs_to (d_mem w) (flight fl w) p) as Hrefs.
  { intros p. by apply (freed_refs fl a o tid w m p). }
  assert (flight fl (set_dmem m w1) = flight fl w) as Efl by (unfold flight; cbn; by rewrite Eq).
  split; rewrite ?Efl; cbn; try done.
  - intros b ob Hb Hob. destruct (Hsame b ob Hb Hob) as (ob0 & Hob0 & _ & _ & _ & Ht). apply Ht.
    eapply (di_typed _ _ Hd); [|done]. unfold flight. simpl. by right.
  - intros p. rewrite Hrefs. apply Hs.
Qed.

Lemma freed_rinv fl a o tid w w1 m :
  dinv (a :: fl) w -> rinv fl w -> objs (d_mem w) !! a = Some o -> (mtype o = LAMBDA_JOB -> refCount o = 1) ->
  Free tid (Some a) (d_mem w) = Some m -> _messageQueue w1 = _messageQueue w -> _sessions w1 = _sessions w ->
  _pendingDestroy w1 = _pendingDestroy w ->
  (forall p s, d_sess w !! p = Some s -> exists s', d_sess w1 !! p = Some s' /\ sr_id s' = sr_id s) ->
  rinv fl (set_dmem m w1).
Proof.
  intros Hd Hr Ho Hlam Hf Eq Er Ep Hs. pose proof (free_keeps fl a o tid w m Hd Ho Hlam Hf) as Hsame.
  destruct (Free_refs sizeofPM tid a (flight fl w) (d_mem w) (di_mem _ _ Hd) (di_refs _ _ Hd)) as (m1 & Hf1 & _ & Hlive & _).
  rewrite Hf in Hf1. injection Hf1 as <-.
  assert (forall p b, b ∈ flight fl w -> event m p b = event (d_mem w) p b) as Hev.
  { intros p b Hb. destruct (Hlive b Hb) as (ob & Hob & _).
    destruct (Hsame b ob Hb Hob) as (ob0 & Hob0 & H1 & H2 & _). by apply (event_same _ _ _ _ ob0 ob). }
  assert (flight fl (set_dmem m w1) = flight fl w) as Efl by (unfold flight; cbn; by rewrite Eq).
  split; rewrite ?Efl; cbn; rewrite ?Ep, ?Er; try apply Hr.
  - intros p. unfold closed. cbn. rewrite Ep. rewrite (life_ext _ _ _ _ _ (Hev p)). apply (ri_life _ _ Hr).
  - intros b ob p Hb Hob. rewrite Hev by done. intros He.
    destruct (Hsame b ob Hb Hob) as (ob0 & Hob0 & _ & _ & -> & _).
    destruct (ri_ids _ _ Hr b ob0 p Hb Hob0 He) as (s & Hps & ->).
    destruct (Hs p s Hps) as (s' & Hs' & <-). by exists s'.
  - intros i p Hi. destruct (ri_reg _ _ Hr i p Hi) as (Hp & s & Hps & <-). split; [done|].
    by apply Hs.
Qed.

(** Releasing the current message and its session reference. *)
Lemma finish_ok fl a o tid w :
  dinv (a :: fl) w -> rinv fl w -> objs (d_mem w) !! a = Some o -> (mtype o = LAMBDA_JOB -> refCount o = 1) ->
  exists w1 m, release_session o w = Some w1 /\ Free tid (Some a) (d_mem w1) = Some m /\
    dinv fl (set_dmem m w1) /\ rinv fl (set_dmem m w1) /\ d_destroyed w1 = d_destroyed w /\
    (forall q k, counted q k (a :: fl) w -> counted q k fl (set_dmem m w1)).
Proof.
  intros Hd Hr Ho Hlam.
  destruct (Free_refs sizeofPM tid a (flight fl w) (d_mem w) (di_mem _ _ Hd) (di_refs _ _ Hd)) as (m & Hf & _).
  pose proof (fun p => freed_refs fl a o tid w m p Hd Ho Hlam Hf) as Hrefs.
  assert (forall q, refs_to (d_mem w) (flight (a :: fl) w) q =
    (if bool_decide (session o = Some q) then 1 else 0) + refs_to (d_mem w) (flight fl w) q) as Hcur.
  { intros q. change (flight (a :: fl) w) with (a :: flight fl w). rewrite refs_to_cons. unfold points_to. by rewrite Ho. }
  assert (forall p, 0 < refs_to (d_mem w) (flight fl w) p -> session o <> Some p -> exists s,
    d_sess w !! p = Some s /\ refs_to (d_mem w) (flight fl w) p <= sr_ioRef s < 2 ^ 31) as Hothers.
  { intros p Hp Hne. pose proof (di_sess _ _ Hd p) as H.
    change (flight (a :: fl) w) with (a :: flight fl w) in H. rewrite refs_to_cons in H.
    assert (points_to (d_mem w) p a = false) as E by (unfold points_to; rewrite Ho; by apply bool_decide_false).
    rewrite E in H. apply H. lia. }
  unfold release_session. destruct (session o) as [p|] eqn:Es.
  - destruct (current_session fl a o p w Hd Ho Es) as (s & Hs & Hb). rewrite Hs. cbn [mbind option_bind].
    eexists _, m. split; [reflexivity|]. split; [exact Hf|]. split; [|split; [|split; [done|]]].
    3: { intros q k Hq. unfold counted in *. rewrite Hcur in Hq.
         change (flight fl (set_dmem m (set_sess (<[p:=sr_DecRef s]> (d_sess w)) w))) with (flight fl w). cbn. rewrite Hrefs.
         intros s'. destruct (decide (q = p)) as [->|Hne].
         - rewrite lookup_insert_eq. intros [= <-]. specialize (Hq s Hs). rewrite bool_decide_true in Hq by done. cbn.
           pose proof (refs_to_nonneg (d_mem w) (flight fl w) p). rewrite swrap_small by lia. lia.
         - rewrite lookup_insert_ne by done. intros Hs'. specialize (Hq s' Hs'). rewrite bool_decide_false in Hq by congruence. lia. }
    2: { apply (freed_rinv fl a o tid w); try done. cbn. intros q s' Hq.
         destruct (decide (q = p)) as [->|Hne]; [|exists s'; by rewrite lookup_insert_ne].
         exists (sr_DecRef s). rewrite lookup_insert_eq. split; [done|]. cbn. congruence. }
    apply (freed_dinv fl a o tid w); try done.
    + intros p' Hp'. cbn. destruct (decide (p' = p)) as [->|Hne].
      * exists (sr_DecRef s). rewrite lookup_insert_eq. split; [done|]. cbn.
        pose proof (refs_to_nonneg (d_mem w) (flight fl w) p).
        rewrite swrap_small by lia. lia.
      * rewrite lookup_insert_ne by done. apply Hothers; [done|congruence].
    + intros p'. cbn. intros Hp'%(di_pend _ _ Hd). destruct (decide (p' = p)) as [->|Hne].
      * rewrite lookup_insert_eq. by eexists.
      * by rewrite lookup_insert_ne.
  - exists w, m. split_and!; try done.
    + apply (freed_dinv fl a o tid w); try done; [|apply (di_pend _ _ Hd)]. intros p Hp. by apply Hothers.
    + apply (freed_rinv fl a o tid w); try done. intros p s Hp. by exists s.
    + intros q k Hq s Hqs. specialize (Hq s Hqs). rewrite Hcur, bool_decide_false in Hq by congruence.
      change (flight fl (set_dmem m w)) with (flight fl w). cbn. rewrite Hrefs. lia.
Qed.

Context (app : App W U C) `{!AppOk app}.

(** The invariant does not look at the registry, the timer or the owner. *)
Lemma dinv_sessions fl r w : dinv fl w -> dinv fl (set_sessions r w).
Proof. intros Hd. split; apply Hd. Qed.

Lemma dinv_timer fl t w : dinv fl w -> dinv fl (set_timer t w).
Proof. intros Hd. split; apply Hd. Qed.

Lemma rinv_timer fl t w : rinv fl w -> rinv fl (set_timer t w).
Proof. intros Hr. split; apply Hr. Qed.

Lemma dinv_pending fl l w :
  dinv fl w -> (forall p, p ∈ l -> is_Some (d_sess w !! p)) -> dinv fl (set_pending l w).
Proof. intros Hd Hl. split; try apply Hd. exact Hl. Qed.

(** What a handler leaves behind while [a] is being processed. *)
Definition handled fl a (o : Message T) w w1 : Prop :=
  dinv (a :: fl) w1 /\ rinv fl w1 /\ objs (d_mem w1) !! a = Some o /\ d_destroyed w1 = d_destroyed w /\
  forall q k, app_counts q k app -> counted q k (a :: fl) w -> counted q k (a :: fl) w1.

Lemma handled_refl fl a o w :
  dinv (a :: fl) w -> rinv fl w -> objs (d_mem w) !! a = Some o -> handled fl a o w w.
Proof. intros. unfold handled. by split_and!. Qed.

Lemma handled_app fl a o w f :
  app_step_ok f -> (forall q k, app_counts q k app -> keeps_count q k f) -> dinv (a :: fl) w -> rinv (a :: fl) w -> objs (d_mem w) !! a = Some o ->
  (mtype o <> NETWORK_CONNECT /\ mtype o <> NETWORK_DISCONNECT) -> handled fl a o w (f w).
Proof.
  intros Hf Hk Hd Hr Ho Hq. destruct (Hf (a :: fl) w Hd Hr) as (H1 & H2 & H3 & _ & _ & _ & H6).
  assert (objs (d_mem (f w)) !! a = Some o) as Ho1 by (apply H3; [left|done]).
  split; [done|]. split; [|split; [done|split; [done|intros q k Ha; by apply (Hk q k Ha)]]]. apply (rinv_tail fl a); [done|]. intros p.
  by rewrite (event_quiet _ p a o) by auto.
Qed.

(** A disconnect message: the registry entry goes, the application is told, the session waits. *)
Lemma disconnect_ok fl a o w :
  dinv (a :: fl) w -> rinv (a :: fl) w -> objs (d_mem w) !! a = Some o -> mtype o = NETWORK_DISCONNECT ->
  well_typed o -> exists w1, HandleDisconnect app o w = Some w1 /\ handled fl a o w w1.
Proof.
  intros Hd Hr Ho Emt Ht. unfold HandleDisconnect, well_typed in *. rewrite Emt in Ht.
  destruct (session o) as [p|] eqn:Es.
  2: { eexists. split; [done|]. apply handled_refl; [done| |done]. apply (rinv_tail fl a); [done|].
       intros p. by rewrite (event_quiet _ p a o) by auto. }
  destruct Ht as [|[i Hi]]; [done|]. rewrite Hi. cbn [mbind option_bind].
  set (w1 := set_sessions _ w). eexists. split; [reflexivity|].
  assert (dinv (a :: fl) w1) as Hd1 by by apply dinv_sessions.
  assert (rinv (a :: fl) w1) as Hr1 by by apply rinv_erase.
  assert (_sessions w1 !! i = None) as Hno by apply lookup_delete_eq.
  destruct (current_session fl a o p w1 Hd1 Ho Es) as (s & Hs & _).
  change (_packetHandler w1) with (_packetHandler w). destruct (_packetHandler w).
  - destruct (app_disconnect p (a :: fl) w1 Hd1 Hr1) as (H1 & H2 & H3 & H4 & H5 & H6 & H7).
    assert (objs (d_mem (OnSessionDisconnect app p w1)) !! a = Some o) as Ho1 by (apply H3; [left|done]).
    split; [|split; [|split; [done|split; [done|intros q k Ha Hq s0 Hs0; exact (ac_disconnect _ _ _ Ha p _ w1 Hd1 Hq s0 Hs0)]]]].
    + apply dinv_pending; [done|]. intros q [Hq|Hq]%elem_of_app; [by apply (di_pend _ _ H1)|].
      apply list_elem_of_singleton in Hq as ->. destruct (H4 p s Hs) as (s' & -> & _). by eexists.
    + apply (rinv_retire fl a o i); try done. by rewrite H5.
  - split; [|split; [|done]].
    + apply dinv_pending; [done|]. intros q [Hq|Hq]%elem_of_app; [by apply (di_pend _ _ Hd1)|].
      apply list_elem_of_singleton in Hq as ->. by eexists.
    + by apply (rinv_retire fl a o i).
Qed.

Lemma handle_ok fl a o w :
  dinv (a :: fl) w -> rinv (a :: fl) w -> objs (d_mem w) !! a = Some o ->
  exists w1, handle app o w = Some w1 /\ handled fl a o w w1.
Proof.
  intros Hd Hr Ho. assert (well_typed o) as Ht by (eapply (di_typed _ _ Hd); [left|done]).
  assert ((mtype o <> NETWORK_CONNECT /\ mtype o <> NETWORK_DISCONNECT) \/ session o = None -> rinv fl w) as Htail.
  { intros Hq. apply (rinv_tail fl a); [done|]. intros p. by rewrite (event_quiet _ p a o). }
  assert (rinv fl w -> forall f, handled fl a o w (with_timer f w)) as Htm.
  { intros Hr1 f. unfold with_timer. destruct (_timerHandler w); [|by apply handled_refl].
    split; [by apply dinv_timer|split; [by apply rinv_timer|done]]. }
  assert ((mtype o <> NETWORK_CONNECT /\ mtype o <> NETWORK_DISCONNECT) -> (exists n d, body o = BPacket n d) ->
    exists w1, HandlePacketMessage app o w = Some w1 /\ handled fl a o w w1) as Hpkt.
  { intros Hq (n & d & Hb). unfold HandlePacketMessage. rewrite Hb.
    destruct (session o) as [p|] eqn:Es; [|by eexists; split; [done|apply handled_refl; auto]].
    destruct (current_session fl a o p w Hd Ho Es) as (s & -> & _). cbn [mbind option_bind].
    destruct (sr_connected s), (PacketHeader_SIZE <=? n), (_packetHandler w);
      (eexists; split; [reflexivity|]; [..]);
      try (by apply handled_refl; auto). apply handled_app; [apply app_packet|intros q k Ha; apply Ha|done..]. }
  unfold handle. pose proof Ht as Ht0. unfold well_typed in Ht. destruct (mtype o) eqn:Emt;
    unfold HandleTimerExpiredMessage, HandleTimerAddMessage, HandleTimerCancelMessage, HandleTimerTickMessage;
    try (by apply Hpkt); try (eexists; split; [done|apply handled_refl; auto; fail]);
    try (destruct Ht as [? ->]; eexists; split; [done|apply Htm, Htail; by left]);
    try (eexists; split; [done|apply handled_refl; [done|apply Htail; by left|done]]).
  - unfold HandleConnect. destruct (session o) as [p|] eqn:Es.
    2: { eexists. split; [done|]. apply handled_refl; auto. }
    destruct Ht as [|[i Hi]]; [done|]. rewrite Hi. cbn [mbind option_bind]. eexists. split; [done|].
    split; [by apply dinv_sessions|]. split; [by apply (rinv_register fl a o)|done].
  - by apply disconnect_ok.
Qed.

(** A task runs: the registry entry the lambda of [WithSession] finds is a session in use. *)
Lemma run_lambda_ok fl a o t w :
  dinv (a :: fl) w -> rinv (a :: fl) w -> objs (d_mem w) !! a = Some o -> mtype o = LAMBDA_JOB ->
  exists w1, run_lambda app t w = Some w1 /\ handled fl a o w w1.
Proof.
  intros Hd Hr Ho Hm.
  assert (rinv fl w) as Hr1.
  { apply (rinv_tail fl a); [done|]. intros p. rewrite (event_quiet _ p a o); [done|done|]. left. by rewrite Hm. }
  destruct t as [u|i c]; cbn [run_lambda].
  - eexists. split; [done|]. apply handled_app; try done; [apply app_task|intros q k Ha; apply Ha|by rewrite Hm].
  - destruct (_sessions w !! i) as [p|] eqn:Ei; [|by eexists; split; [done|apply handled_refl]].
    destruct (ri_reg _ _ Hr i p Ei) as (_ & s & -> & _). cbn [mbind option_bind].
    eexists. split; [done|]. destruct (sr_connected s); [|by apply handled_refl].
    apply handled_app; try done; [apply app_callback|intros q k Ha; apply Ha|by rewrite Hm].
Qed.

Lemma process_one_ok tid fl a w :
  dinv (a :: fl) w -> rinv (a :: fl) w ->
  exists w', process_one app tid a w = Some w' /\ dinv fl w' /\ rinv fl w' /\ d_destroyed w' = d_destroyed w /\
    forall q k, app_counts q k app -> counted q k (a :: fl) w -> counted q k fl w'.
Proof.
  intros Hd Hr. destruct (di_refs _ _ Hd a ltac:(left)) as (o & Ho & Hrc).
  assert (well_typed o) as Ht by (eapply (di_typed _ _ Hd); [left|done]).
  unfold process_one. rewrite Ho. cbn [mbind option_bind].
  assert (mtype o <> LAMBDA_JOB -> exists w', (w1 ← handle app o w; w2 ← release_session o w1;
      m ← Free tid (Some a) (d_mem w2); Some (set_dmem m w2)) = Some w' /\ dinv fl w' /\ rinv fl w' /\
      d_destroyed w' = d_destroyed w /\ forall q k, app_counts q k app -> counted q k (a :: fl) w -> counted q k fl w') as Hplain.
  { intros Hne. destruct (handle_ok fl a o w Hd Hr Ho) as (w1 & -> & Hd1 & Hr1 & Ho1 & He1 & Hk1). cbn [mbind option_bind].
    destruct (finish_ok fl a o tid w1 Hd1 Hr1 Ho1 ltac:(done)) as (w2 & m & -> & Hf & Hd2 & Hr2 & He2 & Hk2).
    cbn [mbind option_bind]. rewrite Hf. cbn [mbind option_bind]. eexists. split; [done|].
    split_and!; [done|done|cbn; congruence|]. intros q k Ha Hq. by apply Hk2, Hk1. }
  destruct (mtype o) eqn:Emt; try (apply Hplain; done).
  unfold well_typed in Ht. rewrite Emt in Ht. destruct Ht as ([t Hb] & Hr1 & Hnp).
  unfold HandleLambdaMessage. rewrite Hb.
  assert (exists w1, (match t with Some t => run_lambda app t w | None => Some w end) = Some w1 /\ handled fl a o w w1)
    as (w1 & -> & Hd1 & Hq1 & Ho1 & He1 & Hk1).
  { destruct t as [t|]; [by apply run_lambda_ok|]. eexists. split; [done|]. apply handled_refl; [done| |done].
    apply (rinv_tail fl a); [done|]. intros p. rewrite (event_quiet _ p a o); [done|done|]. left. by rewrite Emt. }
  cbn [mbind option_bind].
  destruct (finish_ok fl a o tid w1 Hd1 Hq1 Ho1 ltac:(done)) as (w2 & m & Hrs & Hf & Hd2 & Hr2 & He2 & Hk2).
  rewrite Hrs. cbn [mbind option_bind]. eexists. split; [done|].
  assert (delete_msg a w2 = set_dmem m w2) as ->.
  { unfold delete_msg. f_equal. unfold Free in Hf.
    assert (objs (d_mem w2) !! a = Some o) as Ho2.
    { unfold release_session in Hrs. destruct (session o) as [p|]; [|by simplify_eq].
      apply bind_Some in Hrs as (s & _ & [= <-]). exact Ho1. }
    rewrite Ho2 in Hf. cbn in Hf. rewrite Hr1, Hnp in Hf. cbn in Hf. by simplify_eq. }
  split_and!; [done|done|cbn; congruence|]. intros q k Ha Hq. by apply Hk2, Hk1.
Qed.

Lemma process_all_ok tid msgs w :
  dinv msgs w -> rinv msgs w ->
  exists w', process_all app tid msgs w = Some w' /\ dinv [] w' /\ rinv [] w' /\ d_destroyed w' = d_destroyed w /\
    forall q k, app_counts q k app -> counted q k msgs w -> counted q k [] w'.
Proof.
  revert w; induction msgs as [|a msgs IH]; intros w Hd Hr; [by exists w|]. cbn [process_all].
  destruct (process_one_ok tid msgs a w Hd Hr) as (w1 & -> & Hd1 & Hr1 & He1 & Hk1). cbn [mbind option_bind].
  destruct (IH w1 Hd1 Hr1) as (w2 & -> & Hd2 & Hr2 & He2 & Hk2). exists w2. split_and!; try done; [congruence|].
  intros q k Ha Hq. by apply Hk2, Hk1.
Qed.

(** *** The destruction pass *)

(** A session that can be destroyed is referred to by no message. *)
Lemma destroyable_unreferenced w p :
  dinv [] w -> can_destroy w p = true -> refs_to (d_mem w) (flight [] w) p = 0.
Proof.
  intros Hd Hc. pose proof (refs_to_nonneg (d_mem w) (flight [] w) p) as Hn.
  destruct (decide (0 < refs_to (d_mem w) (flight [] w) p)) as [Hpos|]; [|lia].
  destruct (di_sess _ _ Hd p Hpos) as (s & Hs & Hb & _). unfold can_destroy in Hc. rewrite Hs in Hc.
  unfold sr_CanDestroy in Hc. apply andb_prop in Hc as [_ Hz]. bool_to_prop. lia.
Qed.

Lemma destroyed_inv w ds l :
  dinv [] w -> rinv [] w -> _pendingDestroy w ≡ₚ ds ++ l -> Forall (fun p => can_destroy w p = true) ds ->
  dinv [] (after_destroy w ds l) /\ rinv [] (after_destroy w ds l).
Proof.
  intros Hd Hr Hp Hds. rewrite Forall_forall in Hds.
  pose proof (ri_nodup _ _ Hr) as Hnd. rewrite Hp in Hnd. apply NoDup_app in Hnd as (_ & Hdisj & Hndl).
  assert (forall p, 0 < refs_to (d_mem w) (flight [] w) p -> forget ds (d_sess w) !! p = d_sess w !! p) as Hrefd.
  { intros p Hpos. rewrite forget_lookup, bool_decide_false; [done|]. intros Hin.
    pose proof (destroyable_unreferenced w p Hd (Hds p Hin)). lia. }
  split; (split; [try apply Hd; try done..]); try done; cbn.
  - intros p Hpos. rewrite Hrefd by done. by apply (di_sess _ _ Hd).
  - intros p Hpl. rewrite forget_lookup, bool_decide_false by (intros ?; by apply (Hdisj p)).
    apply (di_pend _ _ Hd). rewrite Hp. apply elem_of_app. by right.
  - intros p. pose proof (ri_life _ _ Hr p) as Hl. change (flight [] (after_destroy w ds l)) with (flight [] w).
    unfold closed in *. cbn. destruct (decide (p ∈ _pendingDestroy w)) as [Hin|Hout].
    + rewrite bool_decide_true in Hl by done. case_bool_decide; [done|].
      by apply life_closed.
    + rewrite bool_decide_false in Hl by done. rewrite bool_decide_false; [done|].
      rewrite Hp in Hout. intros ?. apply Hout, elem_of_app. by right.
  - intros a o p Ha Ho He. destruct (ri_ids _ _ Hr a o p Ha Ho He) as (s & Hs & Hi). exists s.
    split; [|done]. rewrite Hrefd; [done|]. by apply (points_refs _ _ a), event_points.
  - intros i p Hi. destruct (ri_reg _ _ Hr i p Hi) as (Hnp & s & Hs & Hid). rewrite Hp in Hnp.
    split; [|exists s; split; [|done]].
    + intros ?. apply Hnp, elem_of_app. by right.
    + rewrite forget_lookup, bool_decide_false; [done|]. intros ?. apply Hnp, elem_of_app. by left.
Qed.

(** *** Dequeuing *)

(** The messages taken from the head of the queue are those processed first. *)
Lemma dequeued_inv `{!FifoQueue Q} tid w msgs q :
  dinv [] w -> rinv [] w -> try_dequeue_bulk BATCH_SIZE (_messageQueue w) = (msgs, q) ->
  let w1 := match _ownerThreadId (set_queue q w) with None => set_owner (Some tid) (set_queue q w) | Some _ => set_queue q w end in
  dinv msgs w1 /\ rinv msgs w1 /\ forall q k, counted q k [] w -> counted q k msgs w1.
Proof.
  intros Hd Hr E. cbv zeta.
  assert (flight msgs (set_queue q w) = flight [] w) as Hfl.
  { unfold flight. cbn. destruct (fifo_bulk _ _ _ _ _ E) as [-> ->]. by rewrite take_drop. }
  assert (dinv msgs (set_queue q w) /\ rinv msgs (set_queue q w)) as [Hd0 Hr0].
  { split; (split; rewrite ?Hfl; [try apply Hd; try apply Hr..]). }
  assert (forall p k, counted p k [] w -> counted p k msgs (set_queue q w)) as Hk0.
  { intros p k Hk s Hs. rewrite Hfl. by apply Hk. }
  destruct (_ownerThreadId (set_queue q w)); [done|]. split; [split; apply Hd0|split; [split; apply Hr0|exact Hk0]].
Qed.

Lemma dequeued_nothing w msgs q :
  try_dequeue_bulk BATCH_SIZE (_messageQueue w) = (msgs, q) ->
  bool_decide (msgs = []) = bool_decide (contents (_messageQueue w) = []).
Proof.
  intros E. apply bool_decide_ext. split.
  - intros ->. by apply try_dequeue_bulk_nil in E as [|].
  - intros Hn. apply try_dequeue_bulk_contents in E. rewrite Hn in E.
    apply Permutation_nil_l in E. symmetry in E. by apply app_eq_nil in E as [-> _].
Qed.

(** A new lambda message is at an address where there was no message. *)
Lemma new_lambda_fresh szl (t : T) m a m' :
  mem_inv sizeofPM m -> new_lambda szl (Some t) m = (a, m') ->
  objs m' = <[a := LambdaMessage_new (Some t)]> (objs m) /\ objs m !! a = None.
Proof.
  intros Hm E. unfold new_lambda in E. destruct (operator_new szl m) as [b m1] eqn:En.
  injection E as <- <-.
  destruct (operator_new_unowned sizeofPM szl m b m1 Hm En) as (_ & _ & Hb & _ & Ho).
  cbn. rewrite Ho in *. done.
Qed.

(** ** Properties *)

(** C3: [Process] is memory-safe, makes progress and destroys exactly what it may: from
    any state in which queued messages are live, well typed, covered by session
    references and in the order of their sessions' lives, it returns (no use after
    free, no recycled session, no wrong cast), re-establishes that state, and
    reports whether there was work.  The sessions it gives back to their pools
    are in use no more: no message still queued and no registry entry refers to
    one; every session still waiting is connected or referenced.  No reference is
    leaked: where the application's code takes and drops none but with messages, a
    session's count stays what the queued messages and its [k] other references
    make it. *)
Theorem Process_safe `{!FifoQueue Q} tid w (Hd : dinv [] w) (Hr : rinv [] w) :
  exists w' ds, Process app tid w = Some (negb (bool_decide (contents (_messageQueue w) = [])), w') /\
    dinv [] w' /\ rinv [] w' /\ d_destroyed w' = d_destroyed w ++ ds /\ NoDup ds /\
    (forall p, p ∈ ds -> d_sess w' !! p = None /\ p ∉ _pendingDestroy w' /\
       refs_to (d_mem w') (contents (_messageQueue w')) p = 0 /\ forall i, _sessions w' !! i <> Some p) /\
    (forall p, p ∈ _pendingDestroy w' -> exists s, d_sess w' !! p = Some s /\
       (sr_connected s = true \/ sr_ioRef s <> 0)) /\
    (forall p k, app_counts p k app -> counted p k [] w -> counted p k [] w').
Proof.
  unfold Process. destruct (try_dequeue_bulk BATCH_SIZE (_messageQueue w)) as [msgs q] eqn:E.
  set (w1 := match _ownerThreadId (set_queue q w) with None => _ | Some _ => _ end).
  destruct (dequeued_inv tid w msgs q Hd Hr E) as (Hd1 & Hr1 & Hk1). fold w1 in Hd1, Hr1, Hk1.
  assert (d_destroyed w1 = d_destroyed w) as E1 by (unfold w1; by destruct (_ownerThreadId _)).
  destruct (process_all_ok tid msgs w1 Hd1 Hr1) as (w2 & -> & Hd2 & Hr2 & E2 & Hk2). cbn [mbind option_bind].
  destruct (ProcessPendingDestroys_spec w2 (di_pend _ _ Hd2) (ri_nodup _ _ Hr2)) as (ds & l & -> & Hp & Hds & Hl).
  cbn [mbind option_bind]. destruct (destroyed_inv w2 ds l Hd2 Hr2 Hp Hds) as [Hd3 Hr3].
  exists (after_destroy w2 ds l), ds.
  pose proof (ri_nodup _ _ Hr2) as Hnd. rewrite Hp in Hnd. apply NoDup_app in Hnd as (Hnds & Hdisj & _).
  rewrite Forall_forall in Hds, Hl.
  split; [by rewrite (dequeued_nothing w msgs q E)|]. split_and!; try done.
  - cbn. congruence.
  - intros p Hin. cbn. rewrite forget_lookup, bool_decide_true by done. split_and!; [done|auto| |].
    + apply (destroyable_unreferenced w2 p Hd2). by apply Hds.
    + intros i Hi. destruct (ri_reg _ _ Hr2 i p Hi) as [Hnp _]. apply Hnp. rewrite Hp. apply elem_of_app. by left.
  - cbn. intros p Hin. specialize (Hl p Hin). destruct (di_pend _ _ Hd3 p Hin) as [s Hs]. exists s.
    split; [exact Hs|]. cbn in Hs. rewrite forget_lookup, bool_decide_false in Hs by (intros ?; by apply (Hdisj p)).
    unfold can_destroy in Hl. rewrite Hs in Hl. unfold sr_CanDestroy in Hl.
    destruct (sr_connected s); [by left|right]. simpl in Hl. bool_to_prop. done.
  - intros p k Ha Hk s. cbn. rewrite forget_lookup. case_bool_decide; [done|]. apply (Hk2 p k Ha (Hk1 p k Hk)).
Qed.

(** Deferred destruction respects lifetimes: the sessions recycled by a pass
    are exactly the pending ones that are disconnected with no I/O reference, none
    of them is referred to by a message still in the queue, the others stay
    pending, and nothing else changes (the swap-and-pop loop is a filter). *)
Theorem pending_destroys_are_unreferenced w (Hd : dinv [] w) (Hr : rinv [] w) :
  exists ds l, ProcessPendingDestroys w = Some (after_destroy w ds l) /\
    ds ≡ₚ filter (fun p => can_destroy w p) (_pendingDestroy w) /\
    l ≡ₚ filter (fun p => negb (can_destroy w p)) (_pendingDestroy w) /\
    Forall (fun p => refs_to (d_mem w) (contents (_messageQueue w)) p = 0) ds.
Proof.
  destruct (ProcessPendingDestroys_spec w (di_pend _ _ Hd) (ri_nodup _ _ Hr)) as (ds & l & Hrun & Hp & Hds & Hl).
  exists ds, l. split; [done|].
  assert (forall (P : Z -> bool) k, Forall (fun p => P p = true) k -> filter P k = k) as Hall.
  { intros P k. induction 1 as [|x k Hx Hk IH]; [done|]. rewrite filter_cons, IH. by rewrite Hx. }
  assert (forall (P : Z -> bool) k, Forall (fun p => P p = false) k -> filter P k = []) as Hnone.
  { intros P k. induction 1 as [|x k Hx Hk IH]; [done|]. rewrite filter_cons, IH. by rewrite Hx. }
  split; [|split].
  - rewrite Hp, filter_app, Hall, Hnone, app_nil_r by done. done.
  - rewrite Hp, filter_app, (Hnone _ ds), (Hall _ l); [done|..].
    + eapply Forall_impl; [exact Hl|]. by intros x ->.
    + eapply Forall_impl; [exact Hds|]. by intros x ->.
  - eapply Forall_impl; [exact Hds|]. intros p Hc. exact (destroyable_unreferenced w p Hd Hc).
Qed.

(** C26: [WithSession] means the same on and off the dispatcher thread.  Called from
    another thread it queues one live message, and when the dispatcher thread
    processes that message, whatever the world has become, it does what a call
    made there and then on the dispatcher thread does (the callback runs on the
    session registered under the id at that moment if it is connected, and not
    otherwise), and releases the message. *)
Theorem WithSession_deferred_equals_direct t szl i callback w
  (Hoff : IsInDispatcherThread t w = false) (Hm : mem_inv sizeofPM (d_mem w)) :
  exists a posted, WithSession app t szl i callback w = Some posted /\
    contents (_messageQueue posted) ≡ₚ a :: contents (_messageQueue w) /\
    objs (d_mem posted) = <[a := LambdaMessage_new (Some (SessionTask i callback))]> (objs (d_mem w)) /\
    objs (d_mem w) !! a = None /\ d_sess posted = d_sess w /\ _sessions posted = _sessions w /\
    forall tid w', IsInDispatcherThread tid w' = true -> objs (d_mem w') !! a = objs (d_mem posted) !! a ->
      process_one app tid a w' = (w'' ← WithSession app tid szl i callback w'; Some (delete_msg a w'')).
Proof.
  unfold WithSession at 1. rewrite Hoff. unfold Push.
  destruct (new_lambda szl (Some (SessionTask i callback)) (d_mem w)) as [a m] eqn:En.
  destruct (new_lambda_fresh szl (SessionTask i callback) (d_mem w) a m Hm En) as [Hobjs Hnew].
  exists a. eexists. split; [done|].
  assert (forall w0 : W, d_mem (Post a w0) = d_mem w0 /\ d_sess (Post a w0) = d_sess w0 /\ _sessions (Post a w0) = _sessions w0
    /\ _messageQueue (Post a w0) = enqueue a (_messageQueue w0)) as HP.
  { intros w0. unfold Post. by destruct (0 <? _). }
  destruct (HP (set_dmem m w)) as (H1 & H2 & H3 & H4). rewrite H1, H2, H3, H4. cbn. rewrite Hobjs.
  split_and!; try done; [apply contents_enqueue|].
  intros tid w' Hon. rewrite lookup_insert_eq. intros Hlive. unfold process_one, WithSession. rewrite Hlive, Hon.
  cbn. destruct (_sessions w' !! i) as [p|]; cbn; [|done].
  destruct (d_sess w' !! p) as [s|]; cbn; [|done]. by destruct (sr_connected s).
Qed.

End Invariant.

(** ** Witnesses *)

Abbreviation DW := (DWorld list (Task unit unit) (TimerImpl * list TimerCall)).

Definition null_app : App DW unit unit := mkApp (fun _ _ w => w) (fun _ w => w) (fun _ w => w) (fun _ _ w => w).

#[export] Instance null_handler : ITimerHandler (TimerImpl * list TimerCall) := TimerImpl_handler everyone.

Lemma null_app_ok : AppOk 40 null_app.
Proof.
  assert (app_step_ok 40 (fun w : DW => w)) as H.
  { intros fl w Hd Hr. split_and!; try done. intros p s Hs. by exists s. }
  by split.
Qed.

(** Session 9 (id 7) is disconnected; its disconnect event, at address 1, is queued. *)
Definition demo_event : Message (Task unit unit) := tag_message NETWORK_DISCONNECT 7 9 EventMessage_new.

Definition dmem0 : Mem list (Task unit unit) := Mem_new.

Definition demo_dmem : Mem list (Task unit unit) := put_obj 1 demo_event (AllocateEvent 40 0 dmem0).2.

Definition demo_disp : DW :=
  mkD [1] {[7 := 9]} [] None None true 0 0 demo_dmem {[9 := mkSess false 1 7]} [].

Lemma demo_points p a : p <> 9 -> points_to demo_dmem p a = false.
Proof.
  intros Hne. unfold points_to, demo_dmem. cbn [put_obj set_objs objs].
  destruct (decide (a = 1)) as [->|Ha]; [rewrite lookup_insert_eq|rewrite lookup_insert_ne by done].
  - apply bool_decide_false. cbn. congruence.
  - change (objs (AllocateEvent 40 0 dmem0).2) with (<[1 := EventMessage_new (T := Task unit unit)]> (∅ : gmap Z (Message (Task unit unit)))).
    by rewrite lookup_insert_ne, lookup_empty.
Qed.

Lemma demo_mem_inv : mem_inv 40 demo_dmem.
Proof.
  destruct (AllocateSmall_spec 40 0 EventMessage_new dmem0 1 (AllocateEvent 40 0 dmem0).2 (Mem_new_inv 40))
    as (Hi & _ & Ho); try done.
  eapply (put_live_inv 40 1 EventMessage_new); [exact Hi|reflexivity|]. intros s Hs. exact Hs.
Qed.

Lemma demo_dinv : dinv 40 [] demo_disp.
Proof.
  split; unfold flight; cbn [demo_disp _messageQueue contents list_queue app d_mem d_sess _pendingDestroy].
  - exact demo_mem_inv.
  - intros a Ha%list_elem_of_singleton. subst a. exists demo_event. split; [reflexivity|]. done.
  - intros a o Ha%list_elem_of_singleton Ho. subst a. injection Ho as <-. right. by eexists.
  - intros p Hp. destruct (decide (p = 9)) as [->|Hne].
    + exists (mkSess false 1 7). split; [reflexivity|].
      assert (refs_to demo_dmem [1] 9 = 1) as -> by reflexivity. simpl. lia.
    + exfalso. revert Hp. rewrite refs_to_cons, demo_points by done. unfold refs_to. simpl. lia.
  - intros p Hp. by apply elem_of_nil in Hp.
Qed.

Lemma demo_rinv : rinv [] demo_disp.
Proof.
  split; unfold flight; cbn [demo_disp _messageQueue contents list_queue app d_mem d_sess _pendingDestroy _sessions].
  - apply NoDup_nil_2.
  - intros p. cbn [life]. destruct (event demo_dmem p 1) as [[]|]; reflexivity.
  - intros a o p Ha%list_elem_of_singleton Ho He. subst a. injection Ho as <-.
    destruct (decide (p = 9)) as [->|Hne]; [by exists (mkSess false 1 7)|].
    apply event_points in He. by rewrite demo_points in He.
  - intros i p [<- <-]%lookup_singleton_Some. split; [by intros ?%elem_of_nil|]. by exists (mkSess false 1 7).
Qed.

(** The pass ends the session's life: its last reference is the message's, so it is destroyed. *)
Lemma Process_safe_witness :
  exists w', Process null_app 0 demo_disp = Some (true, w') /\ dinv 40 [] w' /\ rinv [] w' /\
    d_destroyed w' = [9] /\ d_sess w' !! 9 = None.
Proof.
  destruct (Process_safe 40 null_app (AppOk0 := null_app_ok) 0 demo_disp demo_dinv demo_rinv)
    as (w' & ds & Hrun & Hd & Hr & Hds & _ & Hgone & _).
  exists w'. assert (ds = [9]) as ->.
  { assert (option_map (fun r => d_destroyed r.2) (Process null_app 0 demo_disp) = Some [9]) as E by reflexivity.
    rewrite Hrun in E. cbn [option_map fmap option_fmap snd] in E. rewrite Hds in E. by injection E. }
  destruct (Hgone 9) as [H9 _]; [left|]. by split_and!.
Defined.

Lemma pending_destroys_are_unreferenced_witness :
  exists ds l, ProcessPendingDestroys demo_disp = Some (after_destroy demo_disp ds l) /\ ds = [] /\ l = [].
Proof.
  destruct (pending_destroys_are_unreferenced 40 demo_disp demo_dinv demo_rinv) as (ds & l & H1 & H2 & H3 & _).
  exists ds, l. split; [exact H1|]. split; [by apply Permutation_nil_r|by apply Permutation_nil_r].
Defined.

(** A disconnected session with an I/O reference left waits. *)
Example referenced_session_waits :
  option_map (fun w => (_pendingDestroy w, d_destroyed w))
    (ProcessPendingDestroys (mkD [] ∅ [9; 10; 11] None None true 0 0 demo_dmem
       {[9 := mkSess false 1 7; 10 := mkSess false 0 8; 11 := mkSess true 0 6]} [] : DW))
  = Some ([9; 11], [10]).
Proof. reflexivity. Qed.

(** A thread other than the dispatcher's asks for session 7: the world in which the
    dispatcher serves the request, and what it then does. *)
Definition mark_app : App DW unit unit :=
  mkApp (fun _ _ w => w) (fun _ w => w) (fun _ w => w) (fun _ p w => set_waiting p w).

Definition demo_posted : DW := default demo_disp (WithSession mark_app 5 64 7 tt demo_disp).

Definition demo_later : DW := set_owner (Some 0%nat) (set_sess {[9 := mkSess true 1 7]} demo_posted).

Lemma WithSession_deferred_equals_direct_witness :
  objs (d_mem demo_disp) !! 2 = None /\
  process_one mark_app 0 2 demo_later =
    (w'' ← WithSession mark_app 0 64 7 tt demo_later; Some (delete_msg 2 w'')).
Proof.
  destruct (WithSession_deferred_equals_direct 40 mark_app 5 64 7 tt demo_disp eq_refl demo_mem_inv)
    as (a & posted & Hrun & Hq & Hobjs & Hnew & _ & _ & Hserve).
  assert (posted = demo_posted) as -> by (unfold demo_posted; by rewrite Hrun).
  assert (a = 2) as ->.
  { change (contents (_messageQueue demo_posted)) with [1; 2] in Hq.
    change (contents (_messageQueue demo_disp)) with [1] in Hq.
    rewrite (Permutation_app_comm [1] [2]) in Hq. simpl in Hq.
    assert (2 ∈ [a; 1]) as Hin by (rewrite <- Hq; left).
    by apply elem_of_cons in Hin as [|?%list_elem_of_singleton]. }
  split; [exact Hnew|]. apply Hserve; reflexivity.
Defined.

(** The callback did run, on session 9. *)
Example deferred_callback_runs :
  option_map (fun w => _waitingCount w) (process_one mark_app 0 2 demo_later) = Some 9.
Proof. reflexivity. Qed.

(** Why the order of a session's events is a hypothesis: its connect and disconnect
    messages may come from different threads, for which the queue promises no
    order.  If the disconnect is served first, the session is destroyed while the
    registry still names it, and the next request for it reads a recycled session. *)
Definition late_connect : DW :=
  let '(a, m) := AllocateEvent 40 0 demo_dmem in
  mkD [1; a] ∅ [] None None true 0 0
    (put_obj a (tag_message NETWORK_CONNECT 7 9 EventMessage_new) m) {[9 := mkSess false 2 7]} [].

Example connect_after_disconnect_dangles :
  match Process null_app 0 late_connect with
  | Some (_, w) =>
      (_sessions w !! 7, d_sess w !! 9, WithSession null_app 0 64 7 tt w) = (Some 9, None, None)
  | None => False
  end.
Proof. reflexivity. Qed.
