(* ===== verification/Interleave.v ===== *)
(** * Interleave: threads that share memory

    A small-step semantics for the lock-free components: the threads are a list
    of program counters, a step moves one of them by an atomic action on the
    shared state, and invariants are proved by induction on reachability. *)

From stdpp Require Import base numbers list.
From S2P Require Import Prelude.

Section Interleaving.
Context {Sh PC : Type} (act : Sh -> PC -> Sh -> PC -> Prop).

Inductive step : Sh * list PC -> Sh * list PC -> Prop :=
| step_thread sh pc sh' pc' pre post :
    act sh pc sh' pc' -> step (sh, pre ++ pc :: post) (sh', pre ++ pc' :: post).

Lemma step_at sh ts i pc sh' pc' :
  ts !! i = Some pc -> act sh pc sh' pc' -> step (sh, ts) (sh', <[i := pc']> ts).
Proof.
  intros Hi Ha. pose proof (lookup_lt_Some _ _ _ Hi) as Hlt.
  rewrite <- (take_drop_middle ts i pc Hi) at 1. rewrite (insert_take_drop ts i pc') by done.
  by constructor.
Qed.

Inductive reachable (init : Sh * list PC) : Sh * list PC -> Prop :=
| reach_init : reachable init init
| reach_step s s' : reachable init s -> step s s' -> reachable init s'.

(** Rule induction: an invariant of the initial state and of every step. *)
Lemma reachable_ind' init (I : Sh * list PC -> Prop) s :
  I init -> (forall s s', I s -> step s s' -> I s') -> reachable init s -> I s.
Proof. intros H0 Hs. induction 1; eauto. Qed.

(** Running a schedule forwards. *)
Lemma reach_cons s s' t : step s s' -> reachable s' t -> reachable s t.
Proof.
  intros Hs. induction 1 as [|u u' Hu IH Hstep]; eapply reach_step; [apply reach_init|done|done|done].
Qed.

Lemma run_thread i sh ts pc sh' pc' t :
  ts !! i = Some pc -> act sh pc sh' pc' ->
  reachable (sh', <[i := pc']> ts) t -> reachable (sh, ts) t.
Proof. intros Hi Ha. apply reach_cons. by eapply step_at. Qed.

(** How many threads satisfy [P]. *)
Definition count (P : PC -> bool) (ts : list PC) : nat := length (filter P ts).

Lemma count_split P pre pc post :
  count P (pre ++ pc :: post) = (count P (pre ++ post) + if P pc then 1 else 0)%nat.
Proof.
  unfold count. rewrite !filter_app, filter_cons, !length_app.
  destruct (P pc); simpl; lia.
Qed.

(** Messages in the hands of the threads. *)
Context {A : Type} (held : PC -> list A).

Definition in_hands (ts : list PC) : list A := concat (held <$> ts).

(** Messages in the shared state. *)
Context (stored : Sh -> list A).

Lemma in_hands_split pre pc post :
  in_hands (pre ++ pc :: post) ≡ₚ held pc ++ in_hands (pre ++ post).
Proof.
  unfold in_hands. rewrite !fmap_app, fmap_cons, !concat_app. simpl.
  by rewrite Permutation_app_swap_app.
Qed.

(** Nothing is lost and nothing is duplicated, if each step of one thread keeps
    its messages together with the stored ones. *)
Lemma conserved init s :
  (forall sh pc sh' pc', act sh pc sh' pc' ->
     held pc' ++ stored sh' ≡ₚ held pc ++ stored sh) ->
  reachable init s ->
  in_hands s.2 ++ stored s.1 ≡ₚ in_hands init.2 ++ stored init.1.
Proof.
  intros Hact. apply (reachable_ind' init (fun s => in_hands s.2 ++ stored s.1 ≡ₚ
    in_hands init.2 ++ stored init.1)); [done|].
  clear s. intros s s' HI Hstep. rewrite <- HI. clear HI.
  destruct Hstep as [sh pc sh' pc' pre post Ha]. cbn [fst snd]. rewrite !in_hands_split.
  pose proof (Hact _ _ _ _ Ha) as H.
  rewrite <- !app_assoc, !(Permutation_app_swap_app (held _) (in_hands _)).
  by apply Permutation_app_head.
Qed.

(** The flag is a lock: if every step keeps the balance between the flag and the
    thread's being a holder, there is one holder when it is set and none
    otherwise. *)
Context (flag : Sh -> bool) (holder : PC -> bool).

Definition balanced (s : Sh * list PC) : Prop :=
  count holder s.2 = if flag s.1 then 1%nat else 0%nat.

Lemma balanced_reachable init s :
  (forall sh pc sh' pc', act sh pc sh' pc' ->
     (holder pc = true -> flag sh = true) ->
     ((if flag sh then 1 else 0) + (if holder pc' then 1 else 0) =
      (if flag sh' then 1 else 0) + (if holder pc then 1 else 0))%nat) ->
  balanced init -> reachable init s -> balanced s.
Proof.
  intros Hact H0. apply (reachable_ind' init balanced); [done|]. clear s. intros s s' HI Hstep.
  destruct Hstep as [sh pc sh' pc' pre post Ha]. unfold balanced in *. cbn [fst snd] in *.
  rewrite count_split in HI |- *. specialize (Hact _ _ _ _ Ha).
  destruct (holder pc) eqn:E1, (flag sh) eqn:E2; try (specialize (Hact ltac:(done)));
    destruct (holder pc'), (flag sh'); simpl in *; lia.
Qed.

End Interleaving.
