(* ===== verification/Events.v ===== *)
(** * Events: the event bus

    Models src/System/Events/EventBus.h.  Subscribers copy the map of listeners, change
    the copy and store it, under a mutex; publishers load the map once, without a lock,
    and give the event to every listener of its type: as a task in the queue of the
    listener's dispatcher, or by a call if it has none.  The threads are interleaved at
    the accesses to the mutex and to the pointer ([std::atomic<std::shared_ptr>]), which
    makes the map a value: nobody changes a map that was stored.

    Event types, dispatchers, callbacks and events are numbers.  [Reset], which the
    source has for its tests, is not among the operations. *)

From stdpp Require Import base gmap list.
From S2P Require Import Prelude Interleave.

Record Listener := mkListener { target : option Z; func : Z }.

(** [history]: the subscriptions in the order of their stores; [returned]: those that
    have returned; [delivered]: what was pushed to a dispatcher or called, in order. *)
Record Bus := mkBus {
  _writeMutex : bool;
  _listeners : gmap Z (list Listener);
  history : list (Z * Listener);
  returned : list (Z * Listener);
  delivered : list (Listener * Z)
}.

Inductive PC :=
| Subscribe (ty : Z) (l : Listener)
| CopyMap (ty : Z) (l : Listener)
| StoreMap (ty : Z) (l : Listener) (newMap : gmap Z (list Listener))
| Unlock (ty : Z) (l : Listener)
| Subscribed
| Publish (ty event : Z)
(* [before]: the subscriptions that had returned when Publish was called *)
| LoadMap (ty event : Z) (before : list (Z * Listener))
| Dispatch (ty event : Z) (before : list (Z * Listener)) (seen todo : list Listener).

Definition listeners_of (ty : Z) (m : gmap Z (list Listener)) : list Listener := default [] (m !! ty).

Inductive act : Bus -> PC -> Bus -> PC -> Prop :=
| act_lock m h r d ty l :
    act (mkBus false m h r d) (Subscribe ty l) (mkBus true m h r d) (CopyMap ty l)
| act_copy x m h r d ty l :
    act (mkBus x m h r d) (CopyMap ty l) (mkBus x m h r d) (StoreMap ty l (<[ty := listeners_of ty m ++ [l]]> m))
| act_store x m h r d ty l newMap :
    act (mkBus x m h r d) (StoreMap ty l newMap) (mkBus x newMap (h ++ [(ty, l)]) r d) (Unlock ty l)
| act_unlock x m h r d ty l :
    act (mkBus x m h r d) (Unlock ty l) (mkBus false m h (r ++ [(ty, l)]) d) Subscribed
| act_call s ty event :
    act s (Publish ty event) s (LoadMap ty event (returned s))
| act_load s ty event before :
    act s (LoadMap ty event before) s (Dispatch ty event before [] (listeners_of ty (_listeners s)))
| act_dispatch x m h r d ty event before seen l todo :
    act (mkBus x m h r d) (Dispatch ty event before seen (l :: todo))
        (mkBus x m h r (d ++ [(l, event)])) (Dispatch ty event before (seen ++ [l]) todo).

Definition init (subs : list (Z * Listener)) (pubs : list (Z * Z)) : Bus * list PC :=
  (mkBus false ∅ [] [] [], (uncurry Subscribe <$> subs) ++ (uncurry Publish <$> pubs)).

(** ** The invariant *)

(** The listeners of a type in a list of subscriptions. *)
Definition of_type (ty : Z) (h : list (Z * Listener)) : list Listener := (filter (fun x => x.1 = ty) h).*2.

(** To whom an event was given. *)
Definition given (event : Z) (d : list (Listener * Z)) : list Listener := (filter (fun x => x.2 = event) d).*1.

Definition holds_mutex (pc : PC) : bool := match pc with CopyMap _ _ | StoreMap _ _ _ | Unlock _ _ => true | _ => false end.
Definition to_subscribe (pc : PC) : list (Z * Listener) :=
  match pc with Subscribe ty l | CopyMap ty l | StoreMap ty l _ => [(ty, l)] | _ => [] end.
Definition to_return (pc : PC) : list (Z * Listener) := match pc with Unlock ty l => [(ty, l)] | _ => [] end.
Definition event_of (pc : PC) : option Z :=
  match pc with Publish _ e | LoadMap _ e _ | Dispatch _ e _ _ _ => Some e | _ => None end.

(** What holds of a thread. *)
Definition thread_ok (s : Bus) (pc : PC) : Prop :=
  match pc with
  | StoreMap ty l newMap => newMap = <[ty := listeners_of ty (_listeners s) ++ [l]]> (_listeners s)
  | Publish ty e => given e (delivered s) = []
  | LoadMap ty e before => given e (delivered s) = [] /\ before ⊆ history s
  | Dispatch ty e before seen todo =>
      given e (delivered s) = seen /\
      exists old, old `prefix_of` history s /\ seen ++ todo = of_type ty old /\ before ⊆ old
  | _ => True
  end.

Record bus_inv (subs : list (Z * Listener)) (pubs : list (Z * Z)) (s : Bus * list PC) : Prop := mk_bus_inv {
  bi_map : forall ty, listeners_of ty (_listeners s.1) = of_type ty (history s.1);
  bi_mutex : count holds_mutex s.2 = if _writeMutex s.1 then 1%nat else 0%nat;
  bi_subs : history s.1 ++ in_hands to_subscribe s.2 ≡ₚ subs;
  bi_returned : returned s.1 ++ in_hands to_return s.2 ≡ₚ history s.1;
  bi_events : omap event_of s.2 = pubs.*2;
  bi_foreign : forall e, e ∉ pubs.*2 -> given e (delivered s.1) = [];
  bi_threads : Forall (thread_ok s.1) s.2
}.

Lemma of_type_app ty h h' : of_type ty (h ++ h') = of_type ty h ++ of_type ty h'.
Proof. unfold of_type. by rewrite filter_app, fmap_app. Qed.

Lemma given_snoc e d l e' : given e (d ++ [(l, e')]) = given e d ++ (if decide (e' = e) then [l] else []).
Proof.
  unfold given. rewrite filter_app, fmap_app. f_equal. rewrite filter_cons. cbn [snd]. by destruct (decide (e' = e)).
Qed.

(** A step of another thread keeps what holds of a thread. *)
Definition grows (s s' : Bus) : Prop := history s `prefix_of` history s'.

Lemma thread_ok_keep s s' pc :
  grows s s' -> (forall e, event_of pc = Some e -> given e (delivered s') = given e (delivered s)) ->
  (holds_mutex pc = true -> _listeners s' = _listeners s) -> thread_ok s pc -> thread_ok s' pc.
Proof.
  intros Hg Hd Hm. destruct pc as [ty l|ty l|ty l m|ty l| |ty e|ty e before|ty e before seen todo]; cbn in *; try done.
  - by rewrite Hm.
  - by rewrite (Hd e).
  - rewrite (Hd e) by done. intros [-> Hb]. split; [done|]. intros x Hx%Hb. destruct Hg as [k ->]. apply elem_of_app. by left.
  - rewrite (Hd e) by done. intros (E & old & Hp & Ho). split; [done|]. exists old. split; [by etrans|done].
Qed.

Lemma listeners_insert ty ty' ls m : listeners_of ty (<[ty' := ls]> m) = if decide (ty' = ty) then ls else listeners_of ty m.
Proof.
  unfold listeners_of. destruct (decide (ty' = ty)) as [->|Hne]; [by rewrite lookup_insert_eq|by rewrite lookup_insert_ne].
Qed.

Lemma one_holder s pre pc post : count holds_mutex (pre ++ pc :: post) = (if _writeMutex s then 1 else 0)%nat ->
  holds_mutex pc = true -> Forall (fun pc => holds_mutex pc = false) (pre ++ post).
Proof.
  rewrite count_split. intros Hc Hp. rewrite Hp in Hc. assert (count holds_mutex (pre ++ post) = 0%nat) as H0 by (destruct (_writeMutex s); lia).
  unfold count in H0. apply length_zero_iff_nil in H0. apply Forall_forall. intros x Hx.
  destruct (holds_mutex x) eqn:E; [|done]. exfalso.
  assert (x ∈ filter holds_mutex (pre ++ post)) as Hin by (apply list_elem_of_filter; by rewrite E). rewrite H0 in Hin. by apply not_elem_of_nil in Hin.
Qed.

(** The events of the publishers are distinct. *)
Lemma other_event e pre pc post : NoDup (omap event_of (pre ++ pc :: post)) -> event_of pc = Some e ->
  Forall (fun pc' => event_of pc' <> Some e) (pre ++ post).
Proof.
  intros Hnd He. rewrite omap_app in Hnd. cbn [omap list_omap] in Hnd. rewrite He in Hnd.
  apply NoDup_app in Hnd as (_ & Hpre & [Hpost _]%NoDup_cons). apply Forall_forall. intros x [Hx|Hx]%elem_of_app Ee.
  - apply (Hpre e); [|by left]. apply list_elem_of_omap. eauto.
  - apply Hpost. apply list_elem_of_omap. eauto.
Qed.

(** A step of a thread, as the others see it. *)
Lemma act_grows sh pc sh' pc' : act sh pc sh' pc' ->
  grows sh sh' /\ (forall e, event_of pc <> Some e -> given e (delivered sh') = given e (delivered sh)) /\
  (holds_mutex pc = false -> _listeners sh' = _listeners sh) /\ event_of pc' = event_of pc.
Proof.
  destruct 1; (split; [|split; [|split]]); unfold grows; cbn [history delivered _listeners event_of holds_mutex]; try done.
  - by eexists.
  - intros e He. rewrite given_snoc, decide_False by congruence. by rewrite app_nil_r.
Qed.

(** A step of a thread, as it sees it itself. *)
Lemma act_thread_ok sh pc sh' pc' : act sh pc sh' pc' ->
  (forall ty, listeners_of ty (_listeners sh) = of_type ty (history sh)) -> returned sh ⊆ history sh ->
  thread_ok sh pc -> thread_ok sh' pc' /\ (forall ty, listeners_of ty (_listeners sh') = of_type ty (history sh')).
Proof.
  intros Ha Hm Hr. destruct Ha as [m h r d ty l|x m h r d ty l|x m h r d ty l newMap|x m h r d ty l|s ty e|s ty e before|x m h r d ty e before seen l todo];
    cbn [thread_ok history delivered _listeners returned] in *; try done.
  - intros ->. split; [done|]. intros ty'. rewrite listeners_insert, of_type_app, Hm. unfold of_type at 3. rewrite filter_cons. cbn [fst].
    destruct (decide (ty = ty')) as [->|Hne]; [done|by rewrite Hm, app_nil_r].
  - intros [Hg Hb]. split; [|done]. split; [done|]. exists (history s). rewrite Hm. split; [done|]. by split.
  - intros [Hg (old & Hp & Ho & Hb)]. split; [|done]. split; [by rewrite given_snoc, decide_True, Hg|]. exists old.
    split; [done|]. split; [by rewrite <- Ho, <- app_assoc|done].
Qed.

Lemma act_conserves sh pc sh' pc' : act sh pc sh' pc' ->
  (forall l l1, history sh ++ to_subscribe pc ++ l ≡ₚ l1 -> history sh' ++ to_subscribe pc' ++ l ≡ₚ l1) /\
  (forall l, returned sh ++ to_return pc ++ l ≡ₚ history sh -> returned sh' ++ to_return pc' ++ l ≡ₚ history sh').
Proof.
  destruct 1; split; cbn [history returned to_subscribe to_return app]; try done; intros l2.
  - intros l1 <-. solve_Permutation.
  - intros <-. solve_Permutation.
  - intros <-. solve_Permutation.
Qed.

Lemma act_mutex sh pc sh' pc' : act sh pc sh' pc' -> (holds_mutex pc = true -> _writeMutex sh = true) ->
  ((if _writeMutex sh then 1 else 0) + (if holds_mutex pc' then 1 else 0) =
   (if _writeMutex sh' then 1 else 0) + (if holds_mutex pc then 1 else 0))%nat.
Proof. destruct 1; cbn; try done; intros Hx; rewrite ?Hx by done; try lia; by destruct (_writeMutex s). Qed.

Lemma bus_inv_step subs pubs s s' : NoDup pubs.*2 -> bus_inv subs pubs s -> step act s s' -> bus_inv subs pubs s'.
Proof.
  intros Hnd [Hm Hx Hs Hr He Hf Ht] Hst. destruct Hst as [sh pc sh' pc' pre post Ha]. cbn [fst snd] in *.
  destruct (act_grows _ _ _ _ Ha) as (Hg & Hd & Hl & Eev). destruct (act_conserves _ _ _ _ Ha) as [Hcs Hcr].
  rewrite in_hands_split in Hs, Hr. rewrite <- He in Hnd.
  apply Forall_app in Ht as [Hpre Ht]. apply Forall_cons in Ht as [Hpc Hpost].
  assert (returned sh ⊆ history sh) as Hsub by (intros y Hy; rewrite <- Hr; apply elem_of_app; by left).
  destruct (act_thread_ok _ _ _ _ Ha Hm Hsub Hpc) as [Hpc' Hm'].
  pose proof (act_mutex _ _ _ _ Ha) as Hmu. rewrite count_split in Hx.
  split; cbn [fst snd].
  - done.
  - rewrite count_split. destruct (holds_mutex pc), (_writeMutex sh); try specialize (Hmu ltac:(done));
      destruct (holds_mutex pc'), (_writeMutex sh'); simpl in *; lia.
  - rewrite in_hands_split. by apply Hcs.
  - rewrite in_hands_split. by apply Hcr.
  - rewrite <- He, !omap_app. cbn [omap list_omap]. by rewrite Eev.
  - intros e Hne. rewrite Hd; [by apply Hf|]. intros Ee. apply Hne. rewrite <- He, omap_app. cbn [omap list_omap]. rewrite Ee.
    apply elem_of_app. right. by left.
  - assert (Forall (thread_ok sh') (pre ++ post)) as Hrest.
    { apply Forall_forall. intros x Hin. assert (thread_ok sh x) as Hok.
      { assert (Forall (thread_ok sh) (pre ++ post)) as Hall by (by apply Forall_app). rewrite Forall_forall in Hall. by apply Hall. }
      eapply thread_ok_keep; [exact Hg| | |exact Hok].
      - intros e Ee. apply Hd. intros Epc. pose proof (other_event e pre pc post Hnd Epc) as Ho. rewrite Forall_forall in Ho.
        by apply (Ho x Hin).
      - intros Hh. apply Hl. destruct (holds_mutex pc) eqn:Eh; [|done]. exfalso.
        pose proof (one_holder sh pre pc post) as Hone. rewrite count_split, Eh in Hone. specialize (Hone Hx eq_refl).
        rewrite Forall_forall in Hone. by rewrite (Hone x Hin) in Hh. }
    apply Forall_app in Hrest as [? ?]. apply Forall_app. split; [done|]. by constructor.
Qed.

Lemma bus_inv_init subs pubs : bus_inv subs pubs (init subs pubs).
Proof.
  assert (forall {A} (f : PC -> list A) , (forall ty e, f (Publish ty e) = []) -> (forall l, in_hands f (uncurry Publish <$> l) = [])) as Hpub.
  { intros A f Hf l. induction l as [|[ty e] l IH]; [done|]. unfold in_hands in *. cbn. by rewrite Hf. }
  split; cbn [init fst snd _listeners history returned delivered _writeMutex].
  - done.
  - unfold count. induction subs as [|[ty l] subs IH]; [|done]. cbn. by induction pubs as [|[ty e] pubs IH].
  - unfold in_hands. rewrite fmap_app, concat_app. fold (in_hands to_subscribe (uncurry Publish <$> pubs)).
    rewrite Hpub by done. rewrite app_nil_r. cbn. induction subs as [|[ty l] subs IH]; [done|]. cbn. by rewrite IH.
  - unfold in_hands. rewrite fmap_app, concat_app. fold (in_hands to_return (uncurry Publish <$> pubs)).
    rewrite Hpub by done. rewrite app_nil_r. cbn. by induction subs as [|[ty l] subs IH].
  - rewrite omap_app. replace (omap event_of (uncurry Subscribe <$> subs)) with (@nil Z) by (by induction subs as [|[ty l] subs IH]).
    cbn. induction pubs as [|[ty e] pubs IH]; [done|]. cbn. by rewrite IH.
  - done.
  - apply Forall_app. split; apply Forall_fmap, Forall_forall; by intros [].
Qed.

(** C24: with any number of threads subscribing and publishing at once, and the lock-free
    publishers in between of the subscribers' copies: no subscription is lost or
    doubled, the map always has the listeners of each type in the order of their stores,
    and once all subscribers have returned it has all of them.  A publisher that has
    finished gave its event exactly once, in order, to every listener of the event's type
    that the map had at one moment during its call, and so to every one whose subscription
    had returned before the call, and to nobody else. *)
Theorem event_bus_delivers_exactly subs pubs s :
  NoDup pubs.*2 -> reachable act (init subs pubs) s ->
  (forall ty, listeners_of ty (_listeners s.1) = of_type ty (history s.1)) /\
  (history s.1 ++ in_hands to_subscribe s.2 ≡ₚ subs) /\
  (Forall (fun pc => to_subscribe pc = []) s.2 -> forall ty, listeners_of ty (_listeners s.1) ≡ₚ of_type ty subs) /\
  (forall ty event before seen, Dispatch ty event before seen [] ∈ s.2 ->
     given event (delivered s.1) = seen /\
     exists old, old `prefix_of` history s.1 /\ seen = of_type ty old /\ before ⊆ old) /\
  (forall event, event ∉ pubs.*2 -> given event (delivered s.1) = []).
Proof.
  intros Hnd Hr. assert (bus_inv subs pubs s) as [Hm _ Hs _ He Hf Ht].
  { apply (reachable_ind' act (init subs pubs) (bus_inv subs pubs)); [apply bus_inv_init| |done].
    intros s1 s2 HI Hst. by eapply bus_inv_step. }
  split; [done|]. split; [done|]. split; [|split].
  - intros Hall ty. assert (in_hands to_subscribe s.2 = []) as Hnone.
    { clear -Hall. unfold in_hands. induction Hall as [|pc ts Hpc _ IH]; [done|]. cbn. by rewrite Hpc, IH. }
    rewrite Hnone, app_nil_r in Hs. unfold of_type. by rewrite Hm, <- Hs.
  - intros ty event before seen Hin. rewrite Forall_forall in Ht. destruct (Ht _ Hin) as (E & old & Hp & Ho & Hb).
    split; [done|]. exists old. rewrite app_nil_r in Ho. by split.
  - done.
Qed.

(** ** A run *)

Definition demo_subs : list (Z * Listener) := [(1, mkListener (Some 5) 50); (1, mkListener None 51)].

(** Both subscribe, the second while an event is published, which it misses. *)
Definition demo_final : Bus * list PC :=
  (mkBus false {[1 := [mkListener (Some 5) 50; mkListener None 51]]} demo_subs demo_subs [(mkListener (Some 5) 50, 100)],
   [Subscribed; Subscribed; Dispatch 1 100 [(1, mkListener (Some 5) 50)] [mkListener (Some 5) 50] []]).

Ltac thread i := eapply (run_thread act i); [reflexivity|econstructor|]; cbn.

Lemma demo_run : reachable act (init demo_subs [(1, 100)]) demo_final.
Proof.
  unfold init, demo_subs. cbn. do 4 thread 0%nat. do 2 thread 1%nat. do 2 thread 2%nat. do 2 thread 1%nat. thread 2%nat.
  apply reach_init.
Qed.

Lemma event_bus_delivers_exactly_witness :
  NoDup [(1, 100)].*2 /\ given 100 (delivered demo_final.1) = [mkListener (Some 5) 50] /\
  forall ty, listeners_of ty (_listeners demo_final.1) ≡ₚ of_type ty demo_subs.
Proof.
  assert (NoDup [(1, 100)].*2) as Hnd by (repeat constructor; apply not_elem_of_nil).
  destruct (event_bus_delivers_exactly demo_subs [(1, 100)] demo_final Hnd demo_run) as (_ & _ & H1 & H2 & _).
  split; [exact Hnd|]. split; [|apply H1; repeat constructor].
  apply (H2 1 100 [(1, mkListener (Some 5) 50)] [mkListener (Some 5) 50]). right. right. left.
Defined.
