(* ===== verification/ThreadPool.v ===== *)
(** * ThreadPool: workers, Enqueue, Start, Stop and Join

    Models src/System/Thread/ThreadPool.cpp and ThreadPool.h.  Any thread enqueues
    tasks; one thread, the owner, starts, stops and joins the pool, any number of
    times; the workers wait on a counting semaphore, look at the stop flag and take a
    task from the lock-free queue.  Each atomic access, each semaphore operation and
    each queue operation is a step, and so is the running of a task (an exception ends
    the task, not the worker).

    [permits] is the semaphore's counter, [unborn] the threads created that have not
    begun, [running] the created ones that have not returned.  The queue gives back any
    of its elements, as the order between producers is not specified. *)

From stdpp Require Import base numbers list relations.
From S2P Require Import Prelude Interleave.

Inductive Command := Start | Stop | Join.

Record Pool := mkPool {
  _threads : nat;
  running : nat;
  unborn : nat;
  _stop : bool;
  permits : nat;
  _tasks : list Z;
  accepted : list Z;
  executed : list Z
}.

Inductive PC :=
(* the owner, with the calls it is going to make *)
| Owner (l : list Command)
| StopRelease (l : list Command)
(* a caller of Enqueue *)
| Enqueue (x : Z)
| EnqueueTask (x : Z)
| EnqueueRelease
| Returned (valid : bool)
(* a worker *)
| NoThread
| Acquire
| CheckStop
| Dequeue
| Exec (x : Z).

Section ThreadPool.
Context (_threadCount : nat).

Inductive act : Pool -> PC -> Pool -> PC -> Prop :=
| act_start_again n r u st p q a e l : n <> 0%nat ->
    act (mkPool n r u st p q a e) (Owner (Start :: l)) (mkPool n r u st p q a e) (Owner l)
| act_start r u st p q a e l :
    act (mkPool 0 r u st p q a e) (Owner (Start :: l))
        (mkPool _threadCount (r + _threadCount) (u + _threadCount) false p q a e) (Owner l)
| act_stop_again n r u p q a e l :
    act (mkPool n r u true p q a e) (Owner (Stop :: l)) (mkPool n r u true p q a e) (Owner l)
| act_stop n r u p q a e l :
    act (mkPool n r u false p q a e) (Owner (Stop :: l)) (mkPool n r u true p q a e) (StopRelease l)
| act_stop_release n r u st p q a e l :
    act (mkPool n r u st p q a e) (StopRelease l) (mkPool n r u st (p + _threadCount) q a e) (Owner l)
| act_join n u st p q a e l :
    act (mkPool n 0 u st p q a e) (Owner (Join :: l)) (mkPool 0 0 u st p q a e) (Owner l)
| act_enqueue_stopped n r u p q a e x :
    act (mkPool n r u true p q a e) (Enqueue x) (mkPool n r u true p q a e) (Returned false)
| act_enqueue n r u p q a e x :
    act (mkPool n r u false p q a e) (Enqueue x) (mkPool n r u false p q a e) (EnqueueTask x)
| act_enqueue_task n r u st p q a e x :
    act (mkPool n r u st p q a e) (EnqueueTask x) (mkPool n r u st p (q ++ [x]) (a ++ [x]) e) EnqueueRelease
| act_enqueue_release n r u st p q a e :
    act (mkPool n r u st p q a e) EnqueueRelease (mkPool n r u st (S p) q a e) (Returned true)
| act_begin n r u st p q a e :
    act (mkPool n r (S u) st p q a e) NoThread (mkPool n r u st p q a e) Acquire
| act_acquire n r u st p q a e :
    act (mkPool n r u st (S p) q a e) Acquire (mkPool n r u st p q a e) CheckStop
| act_exit n r u p q a e :
    act (mkPool n r u true p q a e) CheckStop (mkPool n (r - 1) u true p q a e) NoThread
| act_go_on n r u p q a e :
    act (mkPool n r u false p q a e) CheckStop (mkPool n r u false p q a e) Dequeue
| act_dequeue n r u st p q1 x q2 a e :
    act (mkPool n r u st p (q1 ++ x :: q2) a e) Dequeue (mkPool n r u st p (q1 ++ q2) a e) (Exec x)
| act_dequeue_empty n r u st p a e :
    act (mkPool n r u st p [] a e) Dequeue (mkPool n r u st p [] a e) Acquire
| act_exec n r u st p q a e x :
    act (mkPool n r u st p q a e) (Exec x) (mkPool n r u st p q a (e ++ [x])) Acquire.

Definition is_owner (pc : PC) : bool := match pc with Owner _ | StopRelease _ => true | _ => false end.
Definition releasing (pc : PC) : bool := match pc with StopRelease _ => true | _ => false end.
Definition waking (pc : PC) : bool := match pc with EnqueueRelease => true | _ => false end.
(** Awake, with a permit in hand. *)
Definition awake (pc : PC) : bool := match pc with CheckStop | Dequeue => true | _ => false end.
(** A worker that will wait for a permit before it looks at the flag again. *)
Definition needs_permit (pc : PC) : bool := match pc with Acquire | Dequeue | Exec _ => true | _ => false end.
Definition checking (pc : PC) : bool := match pc with CheckStop => true | _ => false end.
Definition is_worker (pc : PC) : bool := (needs_permit pc || checking pc || match pc with NoThread => true | _ => false end).
Definition task_of (pc : PC) : list Z := match pc with Exec x => [x] | _ => [] end.

Definition init (tasks : list Z) (program : list Command) (slots : nat) : Pool * list PC :=
  (mkPool 0 0 0 false 0 [] [] [], Owner program :: (Enqueue <$> tasks) ++ replicate slots NoThread).

Record pool_inv (s : Pool * list PC) : Prop := mk_pool_inv {
  pi_owner : count is_owner s.2 = 1%nat;
  pi_release : (count releasing s.2 <= if _stop s.1 then 1 else 0)%nat;
  pi_running : running s.1 = (unborn s.1 + count needs_permit s.2 + count checking s.2)%nat;
  pi_threads : (running s.1 <= _threads s.1)%nat /\ (_threads s.1 <= _threadCount)%nat;
  pi_wake : (length (_tasks s.1) + (if _stop s.1 then running s.1 else 0) <=
             permits s.1 + count awake s.2 + count waking s.2 + _threadCount * count releasing s.2)%nat;
  pi_exit : _stop s.1 = true ->
            (unborn s.1 + count needs_permit s.2 <= permits s.1 + _threadCount * count releasing s.2)%nat;
  pi_tasks : executed s.1 ++ in_hands task_of s.2 ++ _tasks s.1 ≡ₚ accepted s.1
}.

Lemma count_mono (P Q : PC -> bool) ts : (forall pc, P pc = true -> Q pc = true) -> (count P ts <= count Q ts)%nat.
Proof.
  intros H. unfold count. induction ts as [|pc ts IH]; [done|]. rewrite !filter_cons. specialize (H pc).
  destruct (P pc), (Q pc); simpl; try lia; by specialize (H eq_refl).
Qed.

Lemma tasks_inv_step s s' : pool_inv s -> step act s s' -> pool_inv s'.
Proof.
  intros [Ho Hr Hn Ht Hw He Hc] Hs. destruct Hs as [sh pc sh' pc' pre post Ha].
  cbn [fst snd] in *. pose proof (count_mono releasing is_owner (pre ++ post) ltac:(by intros [])) as Hle.
  pose proof (count_mono checking awake (pre ++ post) ltac:(by intros [])) as Hle2.
  repeat rewrite count_split in *. rewrite in_hands_split in Hc.
  destruct Ha; cbn [_threads running unborn _stop permits _tasks accepted executed
    is_owner releasing waking awake needs_permit checking task_of app] in *;
    try specialize (He eq_refl);
    split; cbn [fst snd _threads running unborn _stop permits _tasks accepted executed];
    repeat rewrite count_split; rewrite ?in_hands_split; cbn [is_owner releasing waking awake needs_permit checking task_of app];
    try (destruct st); rewrite ?length_app in *; cbn [length] in *; try (intros ?); try specialize (He eq_refl);
    rewrite ?Nat.mul_add_distr_l, ?Nat.mul_1_r, ?Nat.mul_0_r in *; try lia; try done.
  all: rewrite <- Hc, ?app_assoc; try done; solve_Permutation.
Qed.

Lemma count_init (P : PC -> bool) tasks program slots : (forall x, P (Enqueue x) = false) ->
  count P (init tasks program slots).2 = ((if P (Owner program) then 1 else 0) + (if P NoThread then slots else 0))%nat.
Proof.
  intros H. unfold init. cbn [snd]. rewrite (count_split P [] (Owner program) (_ ++ _) : count P (_ :: _) = _), Nat.add_comm. f_equal.
  unfold count. cbn [app]. rewrite filter_app, length_app.
  assert (filter P (Enqueue <$> tasks) = []) as ->.
  { induction tasks as [|x l IH]; [done|]. rewrite fmap_cons, filter_cons, H. done. }
  induction slots as [|n IH]; [by destruct (P _)|]. simpl in *. rewrite filter_cons. destruct (P NoThread); simpl in *; lia.
Qed.

Lemma tasks_inv_init tasks program slots : pool_inv (init tasks program slots).
Proof.
  split; rewrite ?count_init by done; try (cbn; done); try (cbn; lia).
  assert (forall l : list PC, (forall pc, pc ∈ l -> task_of pc = []) -> in_hands task_of l = []) as Hh.
  { unfold in_hands. induction l as [|pc l IH]; intros H; [done|]. cbn. rewrite (H pc) by left. apply IH.
    intros pc' ?. apply H. by right. }
  cbn [init fst snd executed _tasks accepted]. rewrite Hh; [done|]. intros pc. rewrite elem_of_cons, elem_of_app, list_elem_of_fmap.
  intros [->|[(x & -> & _)|[-> _]%elem_of_replicate]]; done.
Qed.

Lemma tasks_inv_reachable tasks program slots s : reachable act (init tasks program slots) s -> pool_inv s.
Proof. apply (reachable_ind' act _ pool_inv); [apply tasks_inv_init|apply tasks_inv_step]. Qed.

(** The places for threads stay. *)
Lemma slots_reachable tasks program slots s :
  reachable act (init tasks program slots) s -> count is_worker s.2 = slots.
Proof.
  apply (reachable_ind' act _ (fun s => count is_worker s.2 = slots)).
  - by rewrite count_init.
  - clear s. intros s s' H Hs. destruct Hs as [sh pc sh' pc' pre post Ha]. cbn [snd] in *.
    rewrite count_split in *. by destruct Ha.
Qed.

(** ** The end of the pool *)

(** The steps of all threads but the owner. *)
Definition others (sh : Pool) (pc : PC) (sh' : Pool) (pc' : PC) : Prop := is_owner pc = false /\ act sh pc sh' pc'.

(** How many steps a thread can still make once the flag is set. *)
Definition weight (pc : PC) : nat :=
  match pc with
  | Enqueue _ | Exec _ => 3 | EnqueueTask _ | Acquire => 2 | EnqueueRelease | CheckStop => 1 | Dequeue => 4 | _ => 0
  end.

Definition steps_left (s : Pool * list PC) : nat := (3 * unborn s.1 + sum_list_with weight s.2)%nat.

Lemma others_step s s' : step others s s' -> step act s s'.
Proof. destruct 1 as [sh pc sh' pc' pre post [_ Ha]]. by constructor. Qed.

Lemma others_count s s' (P : PC -> bool) : step others s s' -> (forall pc, P pc = true -> is_owner pc = true) ->
  count P s'.2 = count P s.2.
Proof.
  destruct 1 as [sh pc sh' pc' pre post [Hn Ha]]. intros HP. cbn [snd]. rewrite !count_split.
  assert (P pc = false) as -> by (destruct (P pc) eqn:E; [apply HP in E; congruence|done]).
  assert (is_owner pc' = false) as Hn' by (by destruct Ha).
  by assert (P pc' = false) as -> by (destruct (P pc') eqn:E; [apply HP in E; congruence|done]).
Qed.

Lemma others_decrease s s' : _stop s.1 = true -> step others s s' ->
  _stop s'.1 = true /\ (steps_left s' < steps_left s)%nat.
Proof.
  intros Hst Hs. destruct Hs as [sh pc sh' pc' pre post [Hn Ha]]. unfold steps_left. cbn [fst snd] in *.
  rewrite !sum_list_with_app. cbn.
  destruct Ha; cbn in *; try discriminate; split; try done; lia.
Qed.

Lemma exists_count (P : PC -> bool) ts : (0 < count P ts)%nat -> exists i pc, ts !! i = Some pc /\ P pc = true.
Proof.
  unfold count. induction ts as [|pc ts IH]; [cbn; lia|]. rewrite filter_cons. destruct (P pc) eqn:E; simpl.
  - intros _. by exists 0%nat, pc.
  - intros (i & pc' & ? & ?)%IH. by exists (S i), pc'.
Qed.

Lemma count_workers ts : count is_worker ts = (count needs_permit ts + count checking ts +
  count (fun pc => match pc with NoThread => true | _ => false end) ts)%nat.
Proof. unfold count. induction ts as [|pc ts IH]; [done|]. rewrite !filter_cons. destruct pc; simpl; lia. Qed.

(** As long as a worker has not returned, some worker can go on. *)
Lemma worker_can_go_on slots s : pool_inv s -> count is_worker s.2 = slots -> (_threadCount <= slots)%nat ->
  _stop s.1 = true -> count releasing s.2 = 0%nat -> (0 < running s.1)%nat -> exists s', step others s s'.
Proof.
  intros [_ _ Hn Ht _ He _] Hs Hsl Hst Hr Hrun. specialize (He Hst). rewrite Hr in He. rewrite count_workers in Hs.
  destruct s as [[n r u st p q a e] ts]. cbn [fst snd running unborn _stop permits _threads] in *. subst st.
  assert (forall i pc sh' pc', ts !! i = Some pc -> is_owner pc = false -> act (mkPool n r u true p q a e) pc sh' pc' ->
            exists s', step others (mkPool n r u true p q a e, ts) s') as Hgo.
  { intros i pc sh' pc' Hi Hno Ha. eexists. by eapply step_at; [exact Hi|split; [done|exact Ha]]. }
  destruct u as [|u].
  - destruct (decide (count checking ts = 0%nat)) as [E|E].
    + destruct (exists_count needs_permit ts ltac:(lia)) as (i & pc & Hi & Hpc). destruct p as [|p]; [lia|].
      destruct pc; try discriminate Hpc.
      * eapply Hgo; [exact Hi|done|apply act_acquire].
      * destruct q as [|x q]; (eapply Hgo; [exact Hi|done|]); [apply act_dequeue_empty|].
        exact (act_dequeue n r 0 true (S p) [] x q a e).
      * eapply Hgo; [exact Hi|done|apply act_exec].
    + destruct (exists_count checking ts ltac:(lia)) as (i & pc & Hi & Hpc). destruct pc; try discriminate Hpc.
      eapply Hgo; [exact Hi|done|apply act_exit].
  - destruct (exists_count (fun pc => match pc with NoThread => true | _ => false end) ts ltac:(lia)) as (i & pc & Hi & Hpc).
    destruct pc; try discriminate Hpc. eapply Hgo; [exact Hi|done|apply act_begin].
Qed.

(** ** Properties *)

(** A running pool loses no task and no wake-up: in any interleaving of callers and
    workers, when nobody is between two steps of [Enqueue] and the workers are all
    waiting for permits of which there are none, every accepted task has been executed,
    exactly once. *)
Theorem pool_runs_every_task tasks program slots s
  (Hr : reachable act (init tasks program slots) s)
  (Hrun : _stop s.1 = false) (Hp : permits s.1 = 0%nat)
  (Hq : Forall (fun pc => match pc with Owner _ | Enqueue _ | Returned _ | NoThread | Acquire => True | _ => False end) s.2) :
  _tasks s.1 = [] /\ executed s.1 ≡ₚ accepted s.1.
Proof.
  destruct (tasks_inv_reachable _ _ _ _ Hr) as [Ho Hrel _ _ Hw _ Hc]. rewrite Hrun, Hp in *.
  assert (forall P : PC -> bool, (forall pc, match pc with Owner _ | Enqueue _ | Returned _ | NoThread | Acquire => P pc = false | _ => True end) ->
            count P s.2 = 0%nat) as H0.
  { intros P HP. unfold count. clear -Hq HP. induction Hq as [|pc ts Hpc Hq IH]; [done|]. rewrite filter_cons.
    specialize (HP pc). destruct pc; try done; by rewrite HP. }
  rewrite !H0 in Hw by (by intros []). assert (_tasks s.1 = []) as Ht by (apply nil_length_inv; lia). split; [done|].
  assert (in_hands task_of s.2 = []) as Hh.
  { unfold in_hands. clear -Hq. induction Hq as [|pc ts Hpc Hq IH]; [done|]. cbn. rewrite IH. by destruct pc. }
  rewrite <- Hc, Hh, Ht. by rewrite app_nil_r.
Qed.

(** C23: [Stop] lets [Join] return: in a pool with the stop flag set and its wake-ups
    given, every run of the other threads is finite ([steps_left] bounds it), and it
    cannot end before every worker has returned, however many tasks are left and in
    whatever state [Stop] found the workers. *)
Theorem stop_lets_join_return tasks program slots s k s'
  (Hr : reachable act (init tasks program slots) s) (Hsl : (_threadCount <= slots)%nat)
  (Hst : _stop s.1 = true) (Hrel : count releasing s.2 = 0%nat)
  (Hk : nsteps (step others) k s s') :
  (k <= steps_left s)%nat /\ (running s'.1 = 0%nat \/ exists s'', step others s' s'').
Proof.
  assert (reachable act (init tasks program slots) s' /\ _stop s'.1 = true /\ count releasing s'.2 = 0%nat /\
          (k + steps_left s' <= steps_left s)%nat) as (Hr' & Hst' & Hrel' & Hle).
  { induction Hk as [s|k s s1 s2 Hs Hk IH]; [by repeat split; auto|].
    destruct (others_decrease _ _ Hst Hs) as [Hst1 Hlt].
    destruct IH as (? & ? & ? & ?); [|done| |by repeat split; auto; lia].
    - eapply reach_step; [exact Hr|by apply others_step].
    - rewrite (others_count _ _ releasing Hs); [done|by intros []]. }
  split; [lia|]. destruct (decide (running s'.1 = 0%nat)) as [|Hne]; [by left|right].
  eapply worker_can_go_on; [by eapply tasks_inv_reachable|by eapply slots_reachable|done|done|done|lia].
Qed.

End ThreadPool.

(** Tasks that [Stop] finds in the queue stay there: the workers leave without them, and
    whoever waits for the future of an accepted task waits for ever. *)
Theorem stop_discards_tasks x :
  exists s, reachable (act 1) (init [x] [Start; Stop; Join] 1) s /\
    s = (mkPool 0 0 0 true 1 [x] [x] [], [Owner []; Returned true; NoThread]).
Proof.
  eexists. split; [|reflexivity]. unfold init. cbn [fmap list_fmap app replicate].
  eapply (run_thread _ 0); [reflexivity|apply act_start|cbn].
  eapply (run_thread _ 1); [reflexivity|apply act_enqueue|cbn].
  eapply (run_thread _ 1); [reflexivity|apply act_enqueue_task|cbn].
  eapply (run_thread _ 1); [reflexivity|apply act_enqueue_release|cbn].
  eapply (run_thread _ 2); [reflexivity|apply act_begin|cbn].
  eapply (run_thread _ 2); [reflexivity|apply act_acquire|cbn].
  eapply (run_thread _ 0); [reflexivity|apply act_stop|cbn].
  eapply (run_thread _ 2); [reflexivity|apply act_exit|cbn].
  eapply (run_thread _ 0); [reflexivity|apply act_stop_release|cbn].
  eapply (run_thread _ 0); [reflexivity|apply act_join|cbn].
  apply reach_init.
Qed.

(** ** Witnesses *)

(** One task on one worker, up to the worker's second wait. *)
Lemma demo_pool_run l t :
  reachable (act 1) (mkPool 1 1 0 false 0 [] [4] [4], [Owner l; Returned true; Acquire]) t ->
  reachable (act 1) (init [4] (Start :: l) 1) t.
Proof.
  intros Ht. unfold init. cbn [fmap list_fmap app replicate].
  eapply (run_thread _ 0); [reflexivity|apply act_start|cbn].
  eapply (run_thread _ 1); [reflexivity|apply act_enqueue|cbn].
  eapply (run_thread _ 1); [reflexivity|apply act_enqueue_task|cbn].
  eapply (run_thread _ 1); [reflexivity|apply act_enqueue_release|cbn].
  eapply (run_thread _ 2); [reflexivity|apply act_begin|cbn].
  eapply (run_thread _ 2); [reflexivity|apply act_acquire|cbn].
  eapply (run_thread _ 2); [reflexivity|apply act_go_on|cbn].
  eapply (run_thread _ 2); [reflexivity|exact (act_dequeue 1 1 1 0 false 0 [] 4 [] [4] [])|cbn].
  eapply (run_thread _ 2); [reflexivity|apply act_exec|cbn].
  exact Ht.
Qed.

(** [Stop] while the worker waits. *)
Lemma demo_pool_stop :
  reachable (act 1) (init [4] [Start; Stop; Join] 1) (mkPool 1 1 0 true 1 [] [4] [4], [Owner [Join]; Returned true; Acquire]).
Proof.
  apply demo_pool_run.
  eapply (run_thread _ 0); [reflexivity|apply act_stop|cbn].
  eapply (run_thread _ 0); [reflexivity|apply act_stop_release|cbn].
  apply reach_init.
Qed.

Lemma pool_runs_every_task_witness :
  executed (mkPool 1 1 0 false 0 [] [4] [4]) ≡ₚ accepted (mkPool 1 1 0 false 0 [] [4] [4]).
Proof.
  refine (proj2 (pool_runs_every_task 1 [4%Z] [Start] 1 _ (demo_pool_run [] _ (reach_init _ _)) eq_refl eq_refl _)). by repeat constructor.
Defined.

Lemma stop_lets_join_return_witness :
  (2 <= steps_left (mkPool 1 1 0 true 1 [] [4%Z] [4%Z], [Owner [Join]; Returned true; Acquire]))%nat.
Proof.
  refine (proj1 (stop_lets_join_return 1 [4%Z] [Start; Stop; Join] 1 _ 2 _ demo_pool_stop (le_n 1) eq_refl eq_refl _)).
  eapply nsteps_l; [eapply (step_at _ _ _ 2); [reflexivity|split; [reflexivity|apply act_acquire]]|].
  cbn. eapply nsteps_l; [eapply (step_at _ _ _ 2); [reflexivity|split; [reflexivity|apply act_exit]]|]. apply nsteps_O.
Defined.
