(* ===== verification/SendLoop.v ===== *)
(** * SendLoop: the lock-free send path under concurrency

    [Session::EnqueueSend] and the three [Flush] implementations share the queue
    [_sendQueue] and the flag [_isSending] between any number of threads.  Here
    each atomic access is a step, threads interleave arbitrarily, and the state of
    a thread is its program counter in the source:
    - [Tcp]: EnqueueSend with GatewaySession::Flush (BackendSession::Flush has the
      same control flow), including the write completion that re-enters [Flush];
    - [Udp]: EnqueueSend with UDPSession::Flush.
    The socket is open and the network set, as in normal operation.  A message is
    a [Z]; [sent] collects what was handed to the socket, in order. *)

From stdpp Require Import base numbers list.
From S2P Require Import Prelude Interleave.

Record Shared := mkShared { queue : list Z; isSending : bool; sent : list Z }.

Definition stored (sh : Shared) : list Z := queue sh ++ sent sh.

(** ** GatewaySession and BackendSession *)

Module Tcp.

Inductive PC :=
| Enqueue (x : Z)
| Exchange
| FlushEntry
| Clear
| Recheck
| Straggler (x : Z)
| Reenqueue (x : Z) (claimed : bool)
| Writing
| Done.

Definition MAX_BATCH_SIZE : nat := 1000.

Inductive act : Shared -> PC -> Shared -> PC -> Prop :=
(* EnqueueSend: _sendQueue.enqueue(msg) *)
| act_enqueue q b s x :
    act (mkShared q b s) (Enqueue x) (mkShared (q ++ [x]) b s) Exchange
(* if (_isSending.exchange(true) == false) Flush(); *)
| act_exchange_won q s :
    act (mkShared q false s) Exchange (mkShared q true s) FlushEntry
| act_exchange_lost q s :
    act (mkShared q true s) Exchange (mkShared q true s) Done
(* Flush: try_dequeue_bulk finds nothing, or a batch that goes to async_write *)
| act_flush_empty b s :
    act (mkShared [] b s) FlushEntry (mkShared [] b s) Clear
| act_flush_batch q b s :
    q <> [] ->
    act (mkShared q b s) FlushEntry
        (mkShared (drop MAX_BATCH_SIZE q) b (s ++ take MAX_BATCH_SIZE q)) Writing
(* the completion handler calls Flush again *)
| act_written q b s :
    act (mkShared q b s) Writing (mkShared q b s) FlushEntry
(* _isSending.store(false) *)
| act_clear q b s :
    act (mkShared q b s) Clear (mkShared q false s) Recheck
(* if (_sendQueue.try_dequeue(straggler)) *)
| act_recheck_none b s :
    act (mkShared [] b s) Recheck (mkShared [] b s) Done
| act_recheck_some x q b s :
    act (mkShared (x :: q) b s) Recheck (mkShared q b s) (Straggler x)
(* if (!_isSending.exchange(true)) ... else ... *)
| act_straggler q b s x :
    act (mkShared q b s) (Straggler x) (mkShared q true s) (Reenqueue x (negb b))
(* _sendQueue.enqueue(straggler), then Flush() if the flag was claimed *)
| act_reenqueue q b s x claimed :
    act (mkShared q b s) (Reenqueue x claimed) (mkShared (q ++ [x]) b s)
        (if claimed then FlushEntry else Done).

(** The program counters at which a thread owns [_isSending]. *)
Definition holder (pc : PC) : bool :=
  match pc with FlushEntry | Clear | Writing | Reenqueue _ true => true | _ => false end.

Definition writing (pc : PC) : bool := match pc with Writing => true | _ => false end.

Definition held (pc : PC) : list Z :=
  match pc with Enqueue x | Straggler x | Reenqueue x _ => [x] | _ => [] end.

Definition init (msgs : list Z) : Shared * list PC := (mkShared [] false [], Enqueue <$> msgs).

Lemma tcp_act_conserves sh pc sh' pc' : act sh pc sh' pc' ->
  held pc' ++ stored sh' ≡ₚ held pc ++ stored sh.
Proof.
  unfold stored. destruct 1; simpl; try done.
  - rewrite <- app_assoc. simpl. by rewrite <- Permutation_middle.
  - rewrite (Permutation_app_comm s), app_assoc, (Permutation_app_comm (drop _ _)).
    by rewrite take_drop.
  - destruct claimed; simpl; rewrite <- app_assoc; simpl; by rewrite <- Permutation_middle.
Qed.

Lemma tcp_in_hands_init msgs : in_hands held (init msgs).2 = msgs.
Proof.
  unfold in_hands, init. cbn [snd]. induction msgs as [|x msgs IH]; [done|]. cbn. f_equal. exact IH.
Qed.

End Tcp.

(** ** UDPSession *)

Module Udp.

Inductive PC :=
| Enqueue (x : Z)
| Exchange
| Drain
| Clear
| Recheck
| Reenqueue (x : Z)
| Cas
| Done.

Inductive act : Shared -> PC -> Shared -> PC -> Prop :=
| act_enqueue q b s x :
    act (mkShared q b s) (Enqueue x) (mkShared (q ++ [x]) b s) Exchange
| act_exchange_won q s :
    act (mkShared q false s) Exchange (mkShared q true s) Drain
| act_exchange_lost q s :
    act (mkShared q true s) Exchange (mkShared q true s) Done
(* while (_sendQueue.try_dequeue(msg)) AsyncSend(...) *)
| act_drain_some x q b s :
    act (mkShared (x :: q) b s) Drain (mkShared q b (s ++ [x])) Drain
| act_drain_none b s :
    act (mkShared [] b s) Drain (mkShared [] b s) Clear
(* _isSending.store(false) *)
| act_clear q b s :
    act (mkShared q b s) Clear (mkShared q false s) Recheck
(* if (_sendQueue.try_dequeue(msg)) *)
| act_recheck_none b s :
    act (mkShared [] b s) Recheck (mkShared [] b s) Done
| act_recheck_some x q b s :
    act (mkShared (x :: q) b s) Recheck (mkShared q b s) (Reenqueue x)
(* _sendQueue.enqueue(msg) before the compare_exchange *)
| act_reenqueue q b s x :
    act (mkShared q b s) (Reenqueue x) (mkShared (q ++ [x]) b s) Cas
| act_cas_won q s :
    act (mkShared q false s) Cas (mkShared q true s) Drain
| act_cas_lost q s :
    act (mkShared q true s) Cas (mkShared q true s) Done.

Definition holder (pc : PC) : bool := match pc with Drain | Clear => true | _ => false end.

(** The program counters after which the queue will be looked at again. *)
Definition responsible (pc : PC) : bool :=
  match pc with Enqueue _ | Done => false | _ => true end.

Definition held (pc : PC) : list Z :=
  match pc with Enqueue x | Reenqueue x => [x] | _ => [] end.

Definition init (msgs : list Z) : Shared * list PC := (mkShared [] false [], Enqueue <$> msgs).

Lemma udp_act_conserves sh pc sh' pc' : act sh pc sh' pc' ->
  held pc' ++ stored sh' ≡ₚ held pc ++ stored sh.
Proof.
  unfold stored. destruct 1; simpl; try done.
  - rewrite <- app_assoc. simpl. by rewrite <- Permutation_middle.
  - rewrite app_assoc, Permutation_app_comm. simpl. by rewrite Permutation_app_comm.
  - rewrite <- app_assoc. simpl. by rewrite <- Permutation_middle.
Qed.

Lemma udp_in_hands_init msgs : in_hands held (init msgs).2 = msgs.
Proof.
  unfold in_hands, init. cbn [snd]. induction msgs as [|x msgs IH]; [done|]. cbn. f_equal. exact IH.
Qed.

(** If the queue is not empty, somebody will look at it. *)
Definition watched (s : Shared * list PC) : Prop :=
  queue s.1 <> [] -> (0 < count responsible s.2)%nat.

Lemma init_count P msgs : (forall x, P (Enqueue x) = false) -> count P (init msgs).2 = 0%nat.
Proof.
  intros HP. unfold count, init. simpl. induction msgs as [|x msgs IH]; [done|]. simpl.
  rewrite filter_cons, HP. simpl. done.
Qed.

Lemma balanced_step sh pc sh' pc' : act sh pc sh' pc' ->
  (holder pc = true -> isSending sh = true) ->
  ((if isSending sh then 1 else 0) + (if holder pc' then 1 else 0) =
   (if isSending sh' then 1 else 0) + (if holder pc then 1 else 0))%nat.
Proof. destruct 1; simpl; intros H; try (rewrite (H eq_refl)); lia. Qed.

Lemma watched_reachable msgs s : reachable act (init msgs) s -> watched s.
Proof.
  intros Hr. cut (balanced isSending holder s /\ watched s); [by intros [_ ?]|]. revert Hr.
  apply (reachable_ind' act (init msgs) (fun s => balanced isSending holder s /\ watched s)).
  - split; [unfold balanced; by rewrite init_count|]. by intros H.
  - intros s0 s1 [Hb Hw] Hstep. split.
    + eapply (balanced_reachable act isSending holder s0); [apply balanced_step|done|].
      eapply reach_step; [apply reach_init|done].
    + destruct Hstep as [sh pc sh' pc' pre post Ha]. unfold watched, balanced in *. cbn [fst snd] in *.
      rewrite count_split in Hw, Hb |- *. destruct Ha; simpl in *; intros Hq; try lia; try done.
      all: assert (0 < count responsible (pre ++ post))%nat as ?; [|lia].
      all: assert (0 < count holder (pre ++ post))%nat as Hh by lia.
      all: eapply Nat.lt_le_trans; [exact Hh|].
      all: unfold count; clear; induction (pre ++ post) as [|pc ts IH]; [done|]; rewrite !filter_cons.
      all: destruct pc; simpl; lia.
Qed.

End Udp.

(** ** Properties *)

Lemma tcp_balanced_step sh pc sh' pc' : Tcp.act sh pc sh' pc' ->
  (Tcp.holder pc = true -> isSending sh = true) ->
  ((if isSending sh then 1 else 0) + (if Tcp.holder pc' then 1 else 0) =
   (if isSending sh' then 1 else 0) + (if Tcp.holder pc then 1 else 0))%nat.
Proof.
  destruct 1; simpl; intros Hh; try (rewrite (Hh eq_refl)); try lia.
  - destruct b; simpl; lia.
  - destruct claimed; simpl; lia.
Qed.

Lemma tcp_init_count P msgs : (forall x, P (Tcp.Enqueue x) = false) -> count P (Tcp.init msgs).2 = 0%nat.
Proof.
  intros HP. unfold count, Tcp.init. simpl. induction msgs as [|x msgs IH]; [done|]. simpl.
  rewrite filter_cons, HP. simpl. done.
Qed.

(** A TCP session never has two writes in flight: for any number of threads
    sending concurrently, in every reachable state at most one thread is between
    starting an [async_write] and its completion, and it owns [_isSending]. *)
Theorem tcp_single_writer msgs s (Hr : reachable Tcp.act (Tcp.init msgs) s) :
  (count Tcp.writing s.2 <= 1)%nat /\ ((0 < count Tcp.writing s.2)%nat -> isSending s.1 = true).
Proof.
  assert (balanced isSending Tcp.holder s) as Hb.
  { eapply balanced_reachable; [apply tcp_balanced_step| |exact Hr]. unfold balanced. by rewrite tcp_init_count. }
  assert (count Tcp.writing s.2 <= count Tcp.holder s.2)%nat as Hle.
  { unfold count. clear. induction s.2 as [|pc ts IH]; [done|]. rewrite !filter_cons.
    destruct pc as [| | | | | |? []| |]; simpl; lia. }
  unfold balanced in Hb. destruct (isSending s.1); [|lia]. split; [lia|done].
Qed.

(** C11: The send paths neither lose nor duplicate a message: in every reachable
    state of any interleaving, the messages still to be enqueued, held as
    stragglers, queued and handed to the socket are together exactly the messages
    submitted, for TCP and for UDP sessions. *)
Theorem send_loop_conserves_messages msgs s u
  (Hs : reachable Tcp.act (Tcp.init msgs) s) (Hu : reachable Udp.act (Udp.init msgs) u) :
  in_hands Tcp.held s.2 ++ queue s.1 ++ sent s.1 ≡ₚ msgs /\
  in_hands Udp.held u.2 ++ queue u.1 ++ sent u.1 ≡ₚ msgs.
Proof.
  split.
  - rewrite (conserved Tcp.act Tcp.held stored _ s Tcp.tcp_act_conserves Hs). rewrite Tcp.tcp_in_hands_init. simpl.
    by rewrite app_nil_r.
  - rewrite (conserved Udp.act Udp.held stored _ u Udp.udp_act_conserves Hu). rewrite Udp.udp_in_hands_init. simpl.
    by rewrite app_nil_r.
Qed.

(** The UDP send loop has no lost wake-up: in any interleaving of any number of
    senders, once every call has returned the queue is empty and every submitted
    message has been handed to the socket exactly once. *)
Theorem udp_no_lost_wakeup msgs sh ts
  (Hr : reachable Udp.act (Udp.init msgs) (sh, ts)) (Hdone : Forall (fun pc => pc = Udp.Done) ts) :
  queue sh = [] /\ sent sh ≡ₚ msgs.
Proof.
  assert (queue sh = []) as Hq.
  { destruct (decide (queue sh = [])) as [|Hne]; [done|]. exfalso.
    pose proof (Udp.watched_reachable msgs _ Hr Hne) as Hc. simpl in Hc.
    assert (count Udp.responsible ts = 0%nat) as Hz; [|lia]. clear -Hdone. unfold count.
    induction Hdone as [|pc ts -> Hts IH]; [done|]. by rewrite filter_cons. }
  split; [done|].
  pose proof (conserved Udp.act Udp.held stored _ _ Udp.udp_act_conserves Hr) as H.
  rewrite Udp.udp_in_hands_init in H. unfold stored in H. simpl in H. rewrite app_nil_r, Hq in H. simpl in H.
  assert (in_hands Udp.held ts = []) as Hz.
  { unfold in_hands. clear -Hdone. induction Hdone as [|pc ts -> Hts IH]; [done|]. exact IH. }
  by rewrite Hz in H.
Qed.

(** The TCP send loop can lose a wake-up: two threads sending one message each
    can reach a state in which both calls have returned, no write is in flight and
    [_isSending] is false, yet a message is still queued (thread 1 takes it as a
    straggler, finds the flag set by thread 2, and puts it back after thread 2
    found the queue empty and cleared the flag). *)
Theorem tcp_flush_can_lose_wakeup x y :
  reachable Tcp.act (Tcp.init [x; y]) (mkShared [y] false [x], [Tcp.Done; Tcp.Done]).
Proof.
  unfold Tcp.init. cbn [fmap list_fmap].
  (* thread 0 sends x and gets to the re-check; thread 1 enqueues y *)
  eapply (run_thread _ 0); [reflexivity|apply Tcp.act_enqueue|cbn].
  eapply (run_thread _ 0); [reflexivity|apply Tcp.act_exchange_won|cbn].
  eapply (run_thread _ 0); [reflexivity|by apply Tcp.act_flush_batch|cbn].
  eapply (run_thread _ 0); [reflexivity|apply Tcp.act_written|cbn].
  eapply (run_thread _ 0); [reflexivity|apply Tcp.act_flush_empty|cbn].
  eapply (run_thread _ 0); [reflexivity|apply Tcp.act_clear|cbn].
  eapply (run_thread _ 1); [reflexivity|apply Tcp.act_enqueue|cbn].
  (* thread 0 takes y; thread 1 claims the flag and finds the queue empty *)
  eapply (run_thread _ 0); [reflexivity|apply Tcp.act_recheck_some|cbn].
  eapply (run_thread _ 1); [reflexivity|apply Tcp.act_exchange_won|cbn].
  eapply (run_thread _ 1); [reflexivity|apply Tcp.act_flush_empty|cbn].
  eapply (run_thread _ 0); [reflexivity|apply Tcp.act_straggler|cbn].
  eapply (run_thread _ 1); [reflexivity|apply Tcp.act_clear|cbn].
  eapply (run_thread _ 1); [reflexivity|apply Tcp.act_recheck_none|cbn].
  eapply (run_thread _ 0); [reflexivity|apply Tcp.act_reenqueue|cbn].
  apply reach_init.
Qed.

(** ** Witnesses *)

Lemma demo_tcp_run : reachable Tcp.act (Tcp.init [5]) (mkShared [] true [5], [Tcp.Writing]).
Proof.
  unfold Tcp.init. cbn [fmap list_fmap].
  eapply (run_thread _ 0); [reflexivity|apply Tcp.act_enqueue|cbn].
  eapply (run_thread _ 0); [reflexivity|apply Tcp.act_exchange_won|cbn].
  eapply (run_thread _ 0); [reflexivity|by apply Tcp.act_flush_batch|cbn].
  apply reach_init.
Qed.

Lemma demo_udp_run : reachable Udp.act (Udp.init [5]) (mkShared [] false [5], [Udp.Done]).
Proof.
  unfold Udp.init. cbn [fmap list_fmap].
  eapply (run_thread _ 0); [reflexivity|apply Udp.act_enqueue|cbn].
  eapply (run_thread _ 0); [reflexivity|apply Udp.act_exchange_won|cbn].
  eapply (run_thread _ 0); [reflexivity|apply Udp.act_drain_some|cbn].
  eapply (run_thread _ 0); [reflexivity|apply Udp.act_drain_none|cbn].
  eapply (run_thread _ 0); [reflexivity|apply Udp.act_clear|cbn].
  eapply (run_thread _ 0); [reflexivity|apply Udp.act_recheck_none|cbn].
  apply reach_init.
Qed.

Lemma tcp_single_writer_witness : (count Tcp.writing [Tcp.Writing] <= 1)%nat.
Proof. exact (proj1 (tcp_single_writer [5] _ demo_tcp_run)). Defined.

Lemma send_loop_conserves_messages_witness :
  in_hands Tcp.held [Tcp.Writing] ++ [] ++ [5] ≡ₚ [5] /\ in_hands Udp.held [Udp.Done] ++ [] ++ [5] ≡ₚ [5].
Proof. exact (send_loop_conserves_messages [5] _ _ demo_tcp_run demo_udp_run). Defined.

Lemma udp_no_lost_wakeup_witness : queue (mkShared [] false [5]) = [] /\ [5] ≡ₚ [5].
Proof.
  apply (udp_no_lost_wakeup [5] (mkShared [] false [5]) [Udp.Done] demo_udp_run).
  constructor; [reflexivity|constructor].
Defined.
