(* ===== verification/Strand.v ===== *)
(** * Strand: serial execution on a thread pool

    Models src/System/Thread/Strand.h with [Enqueue], [Stop] and the worker loop of
    ThreadPool.h and .cpp as far as the strand's jobs are concerned: any thread posts a
    task under the mutex and then tries to become the scheduler by a compare-exchange on
    [_isScheduled]; the winner submits one [Run] job to the pool, which drops it when it
    has been stopped; a worker running it takes tasks one by one until the queue is empty,
    clearing the flag inside the critical section.  Each critical section and each atomic
    access is one step.  One more thread may stop the pool at any moment.

    [alive]: the pool the [weak_ptr] refers to still exists.  [throws x]: the task
    [x] ends with an exception, which the worker catches.  The semaphore the workers wait
    on is left out (a worker may wake at any time): it is in [ThreadPool]. *)

From stdpp Require Import base numbers list.
From S2P Require Import Prelude Interleave.

(** [_stop] and [jobs] are the pool's: the flag, and how many [Run] jobs of this strand
    are in its queue. *)
Record StrandState := mkStrand {
  pushed : list Z;
  _queue : list Z;
  _isScheduled : bool;
  _stop : bool;
  jobs : nat;
  executed : list Z
}.

Inductive PC :=
(* a caller of Post *)
| Push (x : Z)
| Schedule
| EnqueueRun
| EnqueueTask
| Posted
(* a worker of the pool *)
| Idle
| CheckStop
| Dequeue
| Run
| Exec (x : Z)
| Left
(* who stops the pool *)
| Stop
| StopReturned.

Section Strand.
Context (alive : bool) (throws : Z -> bool).

Inductive act : StrandState -> PC -> StrandState -> PC -> Prop :=
| act_push p q b st j e x :
    act (mkStrand p q b st j e) (Push x) (mkStrand (p ++ [x]) (q ++ [x]) b st j e) Schedule
| act_schedule_won p q st j e :
    act (mkStrand p q false st j e) Schedule (mkStrand p q true st j e) EnqueueRun
| act_schedule_lost p q st j e :
    act (mkStrand p q true st j e) Schedule (mkStrand p q true st j e) Posted
| act_enqueue_dropped p q b st j e : alive && negb st = false ->
    act (mkStrand p q b st j e) EnqueueRun (mkStrand p q b st j e) Posted
| act_enqueue p q b j e : alive = true ->
    act (mkStrand p q b false j e) EnqueueRun (mkStrand p q b false j e) EnqueueTask
| act_enqueue_task p q b st j e :
    act (mkStrand p q b st j e) EnqueueTask (mkStrand p q b st (S j) e) Posted
| act_wake p q b st j e :
    act (mkStrand p q b st j e) Idle (mkStrand p q b st j e) CheckStop
| act_leave p q b j e :
    act (mkStrand p q b true j e) CheckStop (mkStrand p q b true j e) Left
| act_go_on p q b j e :
    act (mkStrand p q b false j e) CheckStop (mkStrand p q b false j e) Dequeue
| act_take p q b st j e :
    act (mkStrand p q b st (S j) e) Dequeue (mkStrand p q b st j e) Run
| act_no_job p q b st e :
    act (mkStrand p q b st 0 e) Dequeue (mkStrand p q b st 0 e) Idle
| act_fetch p x q b st j e :
    act (mkStrand p (x :: q) b st j e) Run (mkStrand p q b st j e) (Exec x)
| act_release p b st j e :
    act (mkStrand p [] b st j e) Run (mkStrand p [] false st j e) Idle
| act_exec p q b st j e x :
    act (mkStrand p q b st j e) (Exec x) (mkStrand p q b st j (e ++ [x])) (if throws x then Idle else Run)
| act_stop p q b st j e :
    act (mkStrand p q b st j e) Stop (mkStrand p q b true j e) StopReturned.

(** The places where the right to run the strand can be. *)
Definition holder (pc : PC) : bool :=
  match pc with EnqueueRun | EnqueueTask | Run | Exec _ => true | _ => false end.

Definition running (pc : PC) : list Z := match pc with Exec x => [x] | _ => [] end.

Definition scheduling (pc : PC) : bool := match pc with Schedule => true | _ => false end.

(** A poster for each task, [workers] workers, and the thread that may stop the pool. *)
Definition init (tasks : list Z) (workers : nat) : StrandState * list PC :=
  (mkStrand [] [] false false 0 [], (Push <$> tasks) ++ replicate workers Idle ++ [Stop]).

(** The right to run the strand is in one place at most; it is lost only by a task that
    throws or a pool that is gone or stopped. *)
Record strand_inv (s : StrandState * list PC) : Prop := mk_strand_inv {
  si_lock : (jobs s.1 + count holder s.2 <= if _isScheduled s.1 then 1 else 0)%nat;
  si_kept : alive = true -> (forall x, throws x = false) -> _stop s.1 = false ->
    (jobs s.1 + count holder s.2 = if _isScheduled s.1 then 1 else 0)%nat;
  si_fifo : executed s.1 ++ in_hands running s.2 ++ _queue s.1 = pushed s.1;
  si_wake : _queue s.1 <> [] -> _isScheduled s.1 = true \/ (0 < count scheduling s.2)%nat
}.

Lemma not_running ts : count holder ts = 0%nat -> in_hands running ts = [].
Proof.
  unfold count, in_hands. induction ts as [|pc ts IH]; [done|]. rewrite filter_cons, fmap_cons.
  destruct pc; simpl; try done; intros H; by apply IH.
Qed.

Lemma in_hands_app ts1 ts2 : in_hands running (ts1 ++ ts2) = in_hands running ts1 ++ in_hands running ts2.
Proof. unfold in_hands. by rewrite fmap_app, concat_app. Qed.

Lemma count_app (P : PC -> bool) ts1 ts2 : count P (ts1 ++ ts2) = (count P ts1 + count P ts2)%nat.
Proof. unfold count. by rewrite filter_app, length_app. Qed.

(** The thread that holds the strand is the only one executing. *)
Lemma in_hands_holder pre pc post n :
  (n + count holder (pre ++ pc :: post) <= 1)%nat -> holder pc = true ->
  in_hands running (pre ++ pc :: post) = running pc /\
  forall pc', in_hands running (pre ++ pc' :: post) = running pc'.
Proof.
  intros Hc Hh. rewrite count_split, Hh, count_app in Hc.
  assert (in_hands running pre = [] /\ in_hands running post = []) as [E1 E2]
    by (split; apply not_running; lia).
  assert (forall pc', in_hands running (pre ++ pc' :: post) = running pc') as H; [|by split].
  intros pc'. rewrite in_hands_app, E1. simpl. unfold in_hands in *. rewrite fmap_cons. simpl.
  by rewrite E2, app_nil_r.
Qed.

Lemma in_hands_same pre pc pc' post :
  running pc = running pc' -> in_hands running (pre ++ pc :: post) = in_hands running (pre ++ pc' :: post).
Proof. intros H. unfold in_hands. rewrite !fmap_app, !fmap_cons. by rewrite H. Qed.

(** A step of a thread that neither pushes, fetches nor executes a task moves no task. *)
Lemma fifo_step sh pc sh' pc' pre post :
  act sh pc sh' pc' -> (jobs sh + count holder (pre ++ pc :: post) <= 1)%nat ->
  executed sh ++ in_hands running (pre ++ pc :: post) ++ _queue sh = pushed sh ->
  executed sh' ++ in_hands running (pre ++ pc' :: post) ++ _queue sh' = pushed sh'.
Proof.
  intros Ha Hle Hf. destruct Ha; cbn [_queue executed pushed jobs] in *;
    try (match goal with
         | |- context [in_hands running (pre ++ ?pc1 :: post)] =>
             match type of Hf with
             | context [in_hands running (pre ++ ?pc0 :: post)] =>
                 by rewrite <- (in_hands_same pre pc0 pc1 post)
             end
         end).
  - rewrite <- (in_hands_same pre (Push x)) by done. rewrite <- Hf, <- !app_assoc. done.
  - destruct (in_hands_holder pre Run post j Hle eq_refl) as [E1 E2]. rewrite E1 in Hf. by rewrite E2.
  - destruct (in_hands_holder pre (Exec x) post j Hle eq_refl) as [E1 E2]. rewrite E1 in Hf. rewrite E2.
    destruct (throws x); by rewrite <- app_assoc.
Qed.

Lemma strand_inv_step s s' : strand_inv s -> step act s s' -> strand_inv s'.
Proof.
  intros [Hl Hk Hf Hw] Hs. destruct Hs as [sh pc sh' pc' pre post Ha].
  assert (jobs sh + count holder (pre ++ pc :: post) <= 1)%nat as Hle
    by (cbn [fst snd] in Hl; destruct (_isScheduled sh); lia).
  cbn [fst snd] in *. pose proof (fifo_step sh pc sh' pc' pre post Ha Hle Hf) as Hf'.
  split; cbn [fst snd]; [| |exact Hf'|]; clear Hf Hf' Hle;
    destruct Ha; cbn [_queue _isScheduled _stop jobs executed pushed] in *;
    repeat rewrite count_split in *; cbn [holder scheduling] in *;
    try (destruct (throws x) eqn:Et; cbn [holder scheduling] in *); try lia; try done.
  all: try (intros Hal Hth Hst; specialize (Hk Hal Hth); try specialize (Hk Hst); try congruence; lia).
  - destruct b; lia.
  - intros -> Hth ->. done.
  - intros Hal Hth Hst. specialize (Hk Hal Hth Hst). destruct b; lia.
  - intros _. left. destruct b; [done|lia].
  - intros _. left. destruct b; [done|lia].
Qed.

Lemma strand_inv_init tasks n : strand_inv (init tasks n).
Proof.
  assert (forall P : PC -> bool, (forall x, P (Push x) = false) -> P Idle = false -> P Stop = false ->
    count P ((Push <$> tasks) ++ replicate n Idle ++ [Stop]) = 0%nat) as Hc.
  { intros P H1 H2 H3. rewrite !count_app. unfold count.
    assert (filter P (Push <$> tasks) = []) as ->.
    { induction tasks as [|x l IH]; [done|]. rewrite fmap_cons, filter_cons, H1. done. }
    assert (filter P (replicate n Idle) = []) as ->; [|by rewrite filter_cons, H3].
    induction n as [|n IH]; [done|]. simpl. rewrite filter_cons, H2. done. }
  split; unfold init; cbn [fst snd jobs _isScheduled _stop _queue executed pushed];
    [by rewrite Hc|by rewrite Hc| |done].
  by rewrite not_running by (by rewrite Hc).
Qed.

Lemma strand_inv_reachable tasks n s : reachable act (init tasks n) s -> strand_inv s.
Proof.
  apply (reachable_ind' act (init tasks n) strand_inv); [apply strand_inv_init|apply strand_inv_step].
Qed.

End Strand.

(** ** Properties *)

(** Nothing is going on: no job is left, posters have returned, workers wait, and the
    pool has not been stopped or its stop has returned. *)
Definition quiescent (s : StrandState * list PC) : Prop :=
  jobs s.1 = 0%nat /\
  Forall (fun pc => match pc with Posted | Idle | Left | Stop | StopReturned => True | _ => False end) s.2.

Definition executing (pc : PC) : bool := match pc with Exec _ => true | _ => false end.

(** C21: A strand runs its tasks one at a time and in the order they were posted: in
    every reachable state of any interleaving of posters, workers and the pool's being
    stopped, whatever tasks throw, at most one worker is executing a task, and the
    executed tasks, the one executing and the queued ones are, in this order, the tasks
    pushed so far. *)
Theorem strand_is_serial_and_fifo alive throws tasks n s
  (Hr : reachable (act alive throws) (init tasks n) s) :
  (count executing s.2 <= 1)%nat /\
  executed s.1 ++ in_hands running s.2 ++ _queue s.1 = pushed s.1.
Proof.
  pose proof (strand_inv_reachable alive throws tasks n s Hr) as [Hl _ Hf _]. split; [|done].
  assert (count executing s.2 <= count holder s.2)%nat as H.
  { unfold count. clear. induction s.2 as [|pc ts IH]; [done|]. rewrite !filter_cons.
    destruct pc; simpl; lia. }
  destruct (_isScheduled s.1); lia.
Qed.

(** C22: A strand loses no wake-up while its pool exists and has not been stopped and no
    task throws: when all posters have returned, all workers are idle and the pool has
    no job left, every pushed task has been executed, in posting order, and the strand
    is ready to be scheduled again.  (Without one of the three it does lose them:
    [strand_throwing_task_wedges], [strand_stopped_pool_wedges].) *)
Theorem strand_no_lost_wakeup throws tasks n s
  (Hok : forall x, throws x = false) (Hr : reachable (act true throws) (init tasks n) s)
  (Hstop : _stop s.1 = false) (Hq : quiescent s) :
  _queue s.1 = [] /\ executed s.1 = pushed s.1 /\ _isScheduled s.1 = false.
Proof.
  pose proof (strand_inv_reachable true throws tasks n s Hr) as [_ Hl Hf Hw].
  specialize (Hl eq_refl Hok Hstop). destruct Hq as [Hj Hts].
  assert (forall P : PC -> bool, P Posted = false -> P Idle = false -> P Left = false -> P Stop = false ->
    P StopReturned = false -> count P s.2 = 0%nat) as Hc.
  { intros P H1 H2 H3 H4 H5. unfold count. clear -Hts H1 H2 H3 H4 H5.
    induction Hts as [|pc ts Hpc Hts IH]; [done|]. rewrite filter_cons. destruct pc; try done;
      by rewrite ?H1, ?H2, ?H3, ?H4, ?H5. }
  rewrite Hj, (Hc holder) in Hl by done.
  assert (_isScheduled s.1 = false) as Hs by (destruct (_isScheduled s.1); [done|done]).
  assert (_queue s.1 = []) as Hqe.
  { destruct (decide (_queue s.1 = [])) as [|Hne]; [done|].
    destruct (Hw Hne) as [H|H]; [congruence|]. rewrite Hc in H by done. lia. }
  split_and!; try done. rewrite Hqe, not_running in Hf by (by apply Hc). by rewrite app_nil_r in Hf.
Qed.

(** A task that throws wedges its strand: the exception leaves [Run] before the
    flag is cleared, so the remaining tasks are never executed although every
    poster has returned, every worker is idle and no job is left. *)
Theorem strand_throwing_task_wedges throws x y (Hx : throws x = true) :
  exists s, reachable (act true throws) (init [x; y] 1) s /\ quiescent s /\ _stop s.1 = false /\
    _isScheduled s.1 = true /\ _queue s.1 = [y] /\ pushed s.1 = [x; y].
Proof.
  eexists. split.
  - unfold init. cbn [fmap list_fmap app replicate].
    eapply (run_thread _ 0); [reflexivity|apply act_push|cbn].
    eapply (run_thread _ 0); [reflexivity|apply act_schedule_won|cbn].
    eapply (run_thread _ 0); [reflexivity|by apply act_enqueue|cbn].
    eapply (run_thread _ 0); [reflexivity|apply act_enqueue_task|cbn].
    eapply (run_thread _ 1); [reflexivity|apply act_push|cbn].
    eapply (run_thread _ 1); [reflexivity|apply act_schedule_lost|cbn].
    eapply (run_thread _ 2); [reflexivity|apply act_wake|cbn].
    eapply (run_thread _ 2); [reflexivity|apply act_go_on|cbn].
    eapply (run_thread _ 2); [reflexivity|apply act_take|cbn].
    eapply (run_thread _ 2); [reflexivity|apply act_fetch|cbn].
    eapply (run_thread _ 2); [reflexivity|apply act_exec|cbn].
    apply reach_init.
  - rewrite Hx. cbn. split; [|done]. split; [done|]. cbn. by repeat constructor.
Qed.

(** A pool that is stopped between a poster's winning the flag and its [Enqueue] drops
    the job: the task is pushed, the flag stays set, and nothing will run the strand. *)
Theorem strand_stopped_pool_wedges throws x :
  exists s, reachable (act true throws) (init [x] 1) s /\ quiescent s /\ _stop s.1 = true /\
    _isScheduled s.1 = true /\ _queue s.1 = [x] /\ executed s.1 = [].
Proof.
  eexists. split.
  - unfold init. cbn [fmap list_fmap app replicate].
    eapply (run_thread _ 0); [reflexivity|apply act_push|cbn].
    eapply (run_thread _ 0); [reflexivity|apply act_schedule_won|cbn].
    eapply (run_thread _ 2); [reflexivity|apply act_stop|cbn].
    eapply (run_thread _ 0); [reflexivity|by apply act_enqueue_dropped|cbn].
    apply reach_init.
  - cbn. split; [|done]. split; [done|]. cbn. by repeat constructor.
Qed.

(** ** Witnesses *)

Definition no_throw (_ : Z) : bool := false.

Lemma demo_strand_run :
  reachable (act true no_throw) (init [4] 1) (mkStrand [4] [] false false 0 [4], [Posted; Idle; Stop]).
Proof.
  unfold init. cbn [fmap list_fmap app replicate].
  eapply (run_thread _ 0); [reflexivity|apply act_push|cbn].
  eapply (run_thread _ 0); [reflexivity|apply act_schedule_won|cbn].
  eapply (run_thread _ 0); [reflexivity|by apply act_enqueue|cbn].
  eapply (run_thread _ 0); [reflexivity|apply act_enqueue_task|cbn].
  eapply (run_thread _ 1); [reflexivity|apply act_wake|cbn].
  eapply (run_thread _ 1); [reflexivity|apply act_go_on|cbn].
  eapply (run_thread _ 1); [reflexivity|apply act_take|cbn].
  eapply (run_thread _ 1); [reflexivity|apply act_fetch|cbn].
  eapply (run_thread _ 1); [reflexivity|apply act_exec|cbn].
  eapply (run_thread _ 1); [reflexivity|apply act_release|cbn].
  apply reach_init.
Qed.

Lemma strand_is_serial_and_fifo_witness : (count executing [Posted; Idle; Stop] <= 1)%nat.
Proof. exact (proj1 (strand_is_serial_and_fifo true no_throw [4] 1 _ demo_strand_run)). Defined.

Lemma strand_no_lost_wakeup_witness :
  executed (mkStrand [4] [] false false 0 [4]) = pushed (mkStrand [4] [] false false 0 [4]).
Proof.
  apply (strand_no_lost_wakeup no_throw [4] 1 (mkStrand [4] [] false false 0 [4], [Posted; Idle; Stop])
    (fun _ => eq_refl) demo_strand_run eq_refl).
  split; [reflexivity|]. by repeat constructor.
Defined.

Lemma strand_throwing_task_wedges_witness :
  exists s, reachable (act true (fun x => x =? 3)) (init [3; 4] 1) s /\ _queue s.1 = [4].
Proof.
  destruct (strand_throwing_task_wedges (fun x => x =? 3) 3 4 eq_refl) as (s & H1 & _ & _ & _ & H2 & _).
  exists s. split; [exact H1|exact H2].
Defined.
