(* ===== verification/UdpRegistry.v ===== *)
(** * UdpRegistry: the UDP transport header and the endpoint registry

    Models src/System/Types/UInt128.h, src/System/Network/UDPTransportHeader.h,
    UDPLimits.h and UDPEndpointRegistry.cpp.  An endpoint is an opaque key
    ([Z]); a time point is a number of nanoseconds; every operation that reads the
    clock takes its value as [now]. *)

From stdpp Require Import base numbers gmap list.
From S2P Require Import Prelude.

Record uint128_t := mkU128 { high : Z; low : Z }.

#[global] Instance uint128_eq_dec : EqDecision uint128_t.
Proof. solve_decision. Defined.

#[global] Instance uint128_countable : Countable uint128_t :=
  inj_countable' (fun x => (high x, low x)) (fun p => mkU128 p.1 p.2) ltac:(by intros []).

(** The constructor from one 64-bit value. *)
Definition u128_of (l : Z) : uint128_t := mkU128 0 l.

Definition uint128_eqb (a b : uint128_t) : bool := (high a =? high b) && (low a =? low b).

Lemma uint128_eqb_eq a b : uint128_eqb a b = true <-> a = b.
Proof.
  unfold uint128_eqb. rewrite andb_true_iff, !Z.eqb_eq. destruct a, b; simpl.
  split; [by intros [-> ->]|by intros [= -> ->]].
Qed.

(** ** UDPTransportHeader

    A packed struct of 1 + 8 + 16 bytes; the 128-bit token is stored high word
    first, each word little-endian. *)

Record UDPTransportHeader := mkUdpHeader {
  tag : Z;
  h_sessionId : Z;
  h_udpToken : uint128_t
}.

Definition UDPTransportHeader_SIZE : nat := 25.
Definition TAG_RAW_UDP : Z := 0.
Definition TAG_KCP : Z := 1.

Definition UDP_MAX_DATAGRAM_BYTES : Z := 1200.
Definition UDP_MAX_APP_BYTES : Z := UDP_MAX_DATAGRAM_BYTES - Z.of_nat UDPTransportHeader_SIZE.

Definition IsValid (h : UDPTransportHeader) : bool := (tag h =? TAG_RAW_UDP) || (tag h =? TAG_KCP).

Definition IsKCP (h : UDPTransportHeader) : bool := tag h =? TAG_KCP.

(** The three [memcpy]s of [AsyncSend], and the [reinterpret_cast] of
    [HandleReceive]. *)
Definition encode_udp_header (h : UDPTransportHeader) : list Z :=
  le_bytes 1 (tag h) ++ le_bytes 8 (h_sessionId h) ++
  le_bytes 8 (high (h_udpToken h)) ++ le_bytes 8 (low (h_udpToken h)).

Definition decode_udp_header (bs : list Z) : UDPTransportHeader :=
  mkUdpHeader (le_val (sub_list 0 1 bs)) (le_val (sub_list 1 8 bs))
    (mkU128 (le_val (sub_list 9 8 bs)) (le_val (sub_list 17 8 bs))).

Definition header_ok (h : UDPTransportHeader) : Prop :=
  in_u 8 (tag h) /\ in_u 64 (h_sessionId h) /\ in_u 64 (high (h_udpToken h)) /\ in_u 64 (low (h_udpToken h)).

Lemma length_encode_udp_header h : length (encode_udp_header h) = UDPTransportHeader_SIZE.
Proof. unfold encode_udp_header. by rewrite !length_app, !length_le_bytes. Qed.

Lemma le_val_le_bytes_small n w z : 256 ^ Z.of_nat n = 2 ^ w -> in_u w z -> le_val (le_bytes n z) = z.
Proof. intros E Hz. rewrite le_val_le_bytes, E. by apply Z.mod_small. Qed.

Lemma decode_encode_udp_header h rest :
  header_ok h -> decode_udp_header (encode_udp_header h ++ rest) = h.
Proof.
  intros (Ht & Hs & Hh & Hl). unfold decode_udp_header. set (bs := encode_udp_header h ++ rest).
  change (sub_list 0 1 bs) with (le_bytes 1 (tag h)).
  change (sub_list 1 8 bs) with (le_bytes 8 (h_sessionId h)).
  change (sub_list 9 8 bs) with (le_bytes 8 (high (h_udpToken h))).
  change (sub_list 17 8 bs) with (le_bytes 8 (low (h_udpToken h))).
  rewrite (le_val_le_bytes_small 1 8), !(le_val_le_bytes_small 8 64) by done. by destruct h as [? ? []].
Qed.

(** ** UDPEndpointRegistry *)

Module Registry.

Record SessionInfo := mkInfo {
  session : Z;
  lastActivity : Z;
  udpToken : uint128_t
}.

Record UDPEndpointRegistry := mkRegistry {
  _sessions : gmap Z SessionInfo;
  _tokens : gmap uint128_t Z
}.

Definition Registry_new : UDPEndpointRegistry := mkRegistry ∅ ∅.

Section Operations.
Implicit Types r : UDPEndpointRegistry.

(** An existing entry keeps its token; a new one has token 0. *)
Definition Register (now endpoint sess : Z) r : UDPEndpointRegistry :=
  match _sessions r !! endpoint with
  | Some info => mkRegistry (<[endpoint := mkInfo sess now (udpToken info)]> (_sessions r)) (_tokens r)
  | None => mkRegistry (<[endpoint := mkInfo sess now (u128_of 0)]> (_sessions r)) (_tokens r)
  end.

Definition Find (endpoint : Z) r : option Z := session <$> _sessions r !! endpoint.

Definition Remove (endpoint : Z) r : UDPEndpointRegistry :=
  mkRegistry (delete endpoint (_sessions r)) (_tokens r).

Definition UpdateActivity (now endpoint : Z) r : UDPEndpointRegistry :=
  match _sessions r !! endpoint with
  | Some info => mkRegistry (<[endpoint := mkInfo (session info) now (udpToken info)]> (_sessions r)) (_tokens r)
  | None => r
  end.

Definition RegisterWithToken (now endpoint sess : Z) (token : uint128_t) r : UDPEndpointRegistry :=
  mkRegistry (<[endpoint := mkInfo sess now token]> (_sessions r)) (<[token := endpoint]> (_tokens r)).

Definition GetEndpointByToken (token : uint128_t) r : option Z :=
  endpoint ← _tokens r !! token; session <$> _sessions r !! endpoint.

(** [duration_cast<milliseconds>] truncates. *)
Definition elapsedMs (now : Z) (info : SessionInfo) : Z := Z.quot (now - lastActivity info) 1000000.

Definition expired (now timeoutMs : Z) (info : SessionInfo) : bool := timeoutMs <? elapsedMs now info.

(** One iteration of the sweep, at the entry [e] of the map. *)
Definition cleanup_step (now timeoutMs : Z) (acc : Z * UDPEndpointRegistry) (e : Z * SessionInfo) :
    Z * UDPEndpointRegistry :=
  let '(removed, r) := acc in
  if expired now timeoutMs e.2 then
    (removed + 1, mkRegistry (delete e.1 (_sessions r)) (delete (udpToken e.2) (_tokens r)))
  else (removed, r).

(** The sweep visits the entries in the map's iteration order [order]. *)
Definition cleanup_in (now timeoutMs : Z) (order : list (Z * SessionInfo)) r : Z * UDPEndpointRegistry :=
  foldl (cleanup_step now timeoutMs) (0, r) order.

Definition CleanupTimeouts (now timeoutMs : Z) r : Z * UDPEndpointRegistry :=
  cleanup_in now timeoutMs (map_to_list (_sessions r)) r.

End Operations.
End Registry.

(** ** The sweep *)

Lemma lookup_sweep `{Countable K} {A} (m : gmap K A) k k0 (ks : list K) :
  (if decide (k ∈ ks) then None else delete k0 m !! k) = if decide (k ∈ k0 :: ks) then None else m !! k.
Proof.
  destruct (decide (k = k0)) as [->|Hne].
  - rewrite (decide_True (P := k0 ∈ k0 :: ks)) by left. rewrite lookup_delete_eq. by case_decide.
  - rewrite lookup_delete_ne by done. repeat case_decide; try done; rewrite elem_of_cons in *; tauto.
Qed.

Lemma size_filter `{Countable K} {A} (P : K * A -> Prop) `{!forall e, Decision (P e)} (m : gmap K A) :
  size (filter P m) = length (filter P (map_to_list m)).
Proof.
  rewrite <- length_map_to_list, map_filter_alt, map_to_list_to_map; [done|].
  eapply sublist_NoDup; [apply (NoDup_fst_map_to_list m)|]. apply fmap_sublist, sublist_filter.
Qed.

Section Sweep.
Context (now timeoutMs : Z).
Implicit Types r : Registry.UDPEndpointRegistry.
Implicit Types l : list (Z * Registry.SessionInfo).

Abbreviation ex := (fun e : Z * Registry.SessionInfo => Registry.expired now timeoutMs e.2).

Lemma cleanup_fold l n r :
  let '(n', r') := foldl (Registry.cleanup_step now timeoutMs) (n, r) l in
  n' = n + Z.of_nat (length (filter ex l)) /\
  (forall k, Registry._sessions r' !! k =
     if decide (k ∈ (filter ex l).*1) then None else Registry._sessions r !! k) /\
  (forall t, Registry._tokens r' !! t =
     if decide (t ∈ (fun e => Registry.udpToken e.2) <$> filter ex l) then None else Registry._tokens r !! t).
Proof.
  revert n r; induction l as [|e l IH]; intros n r; cbn [foldl].
  { split_and!; [simpl; lia|..]; intros; rewrite decide_False; try done; apply not_elem_of_nil. }
  rewrite filter_cons. unfold Registry.cleanup_step at 2. destruct (Registry.expired now timeoutMs e.2) eqn:E; simpl.
  - set (r1 := Registry.mkRegistry _ _). specialize (IH (n + 1) r1).
    destruct (foldl _ (n + 1, r1) l) as [n' r']. destruct IH as (-> & Hs & Ht).
    split_and!; [lia|..]; intros k; [rewrite Hs|rewrite Ht]; apply lookup_sweep.
  - apply IH.
Qed.

Lemma ex_keys r k l :
  l ≡ₚ map_to_list (Registry._sessions r) ->
  k ∈ (filter ex l).*1 <-> exists i, Registry._sessions r !! k = Some i /\ Registry.expired now timeoutMs i = true.
Proof.
  intros Hp. rewrite list_elem_of_fmap. split.
  - intros ([k' i] & -> & [He Hin]%list_elem_of_filter). exists i. rewrite Hp, elem_of_map_to_list in Hin.
    split; [done|]. by apply Is_true_true in He.
  - intros (i & Hi & He). exists (k, i). split; [done|]. apply list_elem_of_filter.
    split; [by apply Is_true_true|]. by rewrite Hp, elem_of_map_to_list.
Qed.

Lemma cleanup_count r l :
  l ≡ₚ map_to_list (Registry._sessions r) ->
  Z.of_nat (length (filter ex l)) +
  Z.of_nat (size (filter (fun e => Registry.elapsedMs now e.2 <= timeoutMs) (Registry._sessions r))) =
  Z.of_nat (size (Registry._sessions r)).
Proof.
  intros Hp. rewrite size_filter, <- length_map_to_list, <- Hp. clear Hp.
  induction l as [|e l IH]; [done|]. rewrite !filter_cons.
  destruct (Registry.expired now timeoutMs e.2) eqn:E; unfold Registry.expired in E; bool_to_prop.
  - rewrite (decide_False (P := _ <= _)) by lia. cbn [length]. simpl. lia.
  - rewrite (decide_True (P := _ <= _)) by lia. cbn [length]. simpl. lia.
Qed.

End Sweep.

(** ** Properties *)

(** The timeout sweep is exact, in whatever order the hash map is iterated: an
    endpoint stays registered iff it was registered and has been silent for at
    most the timeout, its entry is unchanged, the returned count is the number of
    endpoints removed, and no token leads to a session that timed out. *)
Theorem CleanupTimeouts_exact now timeoutMs r order n r'
  (Hperm : order ≡ₚ map_to_list (Registry._sessions r))
  (Hrun : Registry.cleanup_in now timeoutMs order r = (n, r')) :
  Registry._sessions r' = filter (fun e => Registry.elapsedMs now e.2 <= timeoutMs) (Registry._sessions r) /\
  n = Z.of_nat (size (Registry._sessions r)) - Z.of_nat (size (Registry._sessions r')) /\
  (forall token s, Registry.GetEndpointByToken token r' = Some s ->
     Registry.GetEndpointByToken token r = Some s /\
     exists ep i, Registry._sessions r !! ep = Some i /\ Registry.session i = s /\
       Registry.elapsedMs now i <= timeoutMs).
Proof.
  pose proof (cleanup_fold now timeoutMs order 0 r) as H. unfold Registry.cleanup_in in Hrun.
  rewrite Hrun in H. destruct H as (-> & Hs & Ht).
  assert (Registry._sessions r' = filter (fun e => Registry.elapsedMs now e.2 <= timeoutMs) (Registry._sessions r)) as Hf.
  { apply map_eq. intros k. apply option_eq. intros i. rewrite Hs, map_lookup_filter_Some. simpl.
    case_decide as Hin; rewrite (ex_keys _ _ r) in Hin by done.
    - split; [done|]. intros [Hi Hle]. destruct Hin as (i' & Hi' & He). simplify_eq.
      unfold Registry.expired in He. bool_to_prop. lia.
    - split; [|tauto]. intros Hi. split; [done|]. destruct (Registry.expired now timeoutMs i) eqn:E.
      + destruct Hin. eauto.
      + unfold Registry.expired in E. bool_to_prop. lia. }
  split_and!; [done| |].
  - rewrite Hf. rewrite <- (cleanup_count now timeoutMs r order) by done. lia.
  - intros token s. unfold Registry.GetEndpointByToken. rewrite Ht. case_decide; [done|]. 
    destruct (Registry._tokens r !! token) as [ep|]; [|done]. cbn [mbind option_bind]. rewrite Hf.
    rewrite !fmap_Some. intros (i & [Hi Hle]%map_lookup_filter_Some & ->). simpl in Hle. split; [by exists i|].
    by exists ep, i.
Qed.

(** Tokens outlive their session: after [Remove] the token of the removed
    session still names the endpoint, so it leads to whatever session registers
    there next; and registering a second session with a new token leaves the
    first token valid, for the second session. *)
Theorem stale_token_reaches_next_session now1 now2 ep s1 s2 tok1 tok2 r :
  Registry.GetEndpointByToken tok1
    (Registry.Register now2 ep s2 (Registry.Remove ep (Registry.RegisterWithToken now1 ep s1 tok1 r))) = Some s2 /\
  Registry.GetEndpointByToken tok1
    (Registry.RegisterWithToken now2 ep s2 tok2 (Registry.RegisterWithToken now1 ep s1 tok1 r)) = Some s2.
Proof.
  split.
  - unfold Registry.Register, Registry.Remove, Registry.RegisterWithToken, Registry.GetEndpointByToken.
    cbn [Registry._sessions Registry._tokens]. rewrite lookup_delete_eq. cbn [Registry._sessions Registry._tokens].
    rewrite lookup_insert_eq. cbn [mbind option_bind]. by rewrite lookup_insert_eq.
  - unfold Registry.RegisterWithToken, Registry.GetEndpointByToken. cbn [Registry._sessions Registry._tokens].
    destruct (decide (tok1 = tok2)) as [->|Hne]; [rewrite lookup_insert_eq|rewrite lookup_insert_ne, lookup_insert_eq by done];
      cbn [mbind option_bind]; by rewrite lookup_insert_eq.
Qed.

(** ** Witnesses *)

Definition demo_registry : Registry.UDPEndpointRegistry :=
  Registry.RegisterWithToken 5000000 2 20 (mkU128 0 7)
    (Registry.RegisterWithToken 0 1 10 (mkU128 0 6) Registry.Registry_new).

Lemma CleanupTimeouts_exact_witness :
  Registry.GetEndpointByToken (mkU128 0 7) (Registry.CleanupTimeouts 6000000 3 demo_registry).2 = Some 20 /\
  (Registry.CleanupTimeouts 6000000 3 demo_registry).1 = 1.
Proof.
  split; [reflexivity|].
  destruct (CleanupTimeouts_exact 6000000 3 demo_registry (map_to_list (Registry._sessions demo_registry))
    (Registry.CleanupTimeouts 6000000 3 demo_registry).1 (Registry.CleanupTimeouts 6000000 3 demo_registry).2
    (Permutation_refl _) eq_refl) as (_ & Hn & _). rewrite Hn. reflexivity.
Defined.
