(* ===== verification/UdpNetwork.v ===== *)
(** * UdpNetwork: the zero-copy UDP send path

    Models src/System/Network/UDPSendContextPool.cpp and the sending half of
    UDPNetworkImpl.cpp.  [AsyncSend] takes over one reference to a packet message
    and a send context from a fixed pool, and posts a task to the socket's strand;
    the task starts the datagram or gives both back; the completion handler gives
    both back.  The three parts run at different times, so they are three
    operations on the network's state: [AsyncSend], [strand_send] (the posted
    lambda) and [send_complete] (the completion handler).  [None] is undefined
    behaviour or a failed assertion.

    Send contexts are named by their index in [_allContexts]; [_strand] lists the
    tasks posted and not yet run, [_inflight] the datagrams whose completion
    handler has not run, [_wire] the datagrams handed to the socket. *)

From stdpp Require Import base numbers gmap functions list.
From S2P Require Import Prelude ConcurrentQueue Messages MessagePool Session UdpRegistry.

Record UDPSendContext := mkCtx {
  headerBytes : list Z;
  payload : option Z;
  payloadLen : Z;
  destination : Z
}.

Record UdpNet (Q : Type -> Type) := mkNet {
  _contexts : gmap Z UDPSendContext;
  _allContexts : list Z;
  _pool : Q Z;
  _initialized : bool;
  _socketOpen : bool;
  _isStopping : bool;
  _oversizeDrops : Z;
  _lastLogMs : Z;
  _strand : list Z;
  _inflight : list Z;
  _wire : list (Z * list Z);
  _receiving : bool
}.
Arguments mkNet {Q} _ _ _ _ _ _ _ _ _ _ _ _.
Arguments _contexts {Q} _.
Arguments _allContexts {Q} _.
Arguments _pool {Q} _.
Arguments _initialized {Q} _.
Arguments _socketOpen {Q} _.
Arguments _isStopping {Q} _.
Arguments _oversizeDrops {Q} _.
Arguments _lastLogMs {Q} _.
Arguments _strand {Q} _.
Arguments _inflight {Q} _.
Arguments _wire {Q} _.
Arguments _receiving {Q} _.

(** The network and the message pool it releases payloads to. *)
Record NetWorld (Q : Type -> Type) (T : Type) := mkNW { net : UdpNet Q; nmem : Mem Q T }.
Arguments mkNW {Q T} _ _.
Arguments net {Q T} _.
Arguments nmem {Q T} _.

Section Network.
Context {Q : Type -> Type} `{!ConcurrentQueue Q} {T : Type}.
Context (tid : nat).
Implicit Types n : UdpNet Q.
Implicit Types s : NetWorld Q T.

(** Field assignments. *)
Definition set_context (c : Z) (x : UDPSendContext) n : UdpNet Q :=
  mkNet (<[c := x]> (_contexts n)) (_allContexts n) (_pool n) (_initialized n) (_socketOpen n)
    (_isStopping n) (_oversizeDrops n) (_lastLogMs n) (_strand n) (_inflight n) (_wire n) (_receiving n).
Definition set_pool_queue (q : Q Z) n : UdpNet Q :=
  mkNet (_contexts n) (_allContexts n) q (_initialized n) (_socketOpen n)
    (_isStopping n) (_oversizeDrops n) (_lastLogMs n) (_strand n) (_inflight n) (_wire n) (_receiving n).
Definition add_context (c : Z) n : UdpNet Q :=
  mkNet (_contexts n) (_allContexts n ++ [c]) (_pool n) (_initialized n) (_socketOpen n)
    (_isStopping n) (_oversizeDrops n) (_lastLogMs n) (_strand n) (_inflight n) (_wire n) (_receiving n).
Definition set_initialized n : UdpNet Q :=
  mkNet (_contexts n) (_allContexts n) (_pool n) true (_socketOpen n)
    (_isStopping n) (_oversizeDrops n) (_lastLogMs n) (_strand n) (_inflight n) (_wire n) (_receiving n).
Definition set_drops (d logMs : Z) n : UdpNet Q :=
  mkNet (_contexts n) (_allContexts n) (_pool n) (_initialized n) (_socketOpen n)
    (_isStopping n) d logMs (_strand n) (_inflight n) (_wire n) (_receiving n).
Definition set_strand (l : list Z) n : UdpNet Q :=
  mkNet (_contexts n) (_allContexts n) (_pool n) (_initialized n) (_socketOpen n)
    (_isStopping n) (_oversizeDrops n) (_lastLogMs n) l (_inflight n) (_wire n) (_receiving n).
Definition set_inflight (l : list Z) n : UdpNet Q :=
  mkNet (_contexts n) (_allContexts n) (_pool n) (_initialized n) (_socketOpen n)
    (_isStopping n) (_oversizeDrops n) (_lastLogMs n) (_strand n) l (_wire n) (_receiving n).
Definition put_wire (d : Z * list Z) n : UdpNet Q :=
  mkNet (_contexts n) (_allContexts n) (_pool n) (_initialized n) (_socketOpen n)
    (_isStopping n) (_oversizeDrops n) (_lastLogMs n) (_strand n) (_inflight n) (_wire n ++ [d]) (_receiving n).
Definition set_socket_state (is_open stopping : bool) n : UdpNet Q :=
  mkNet (_contexts n) (_allContexts n) (_pool n) (_initialized n) is_open
    stopping (_oversizeDrops n) (_lastLogMs n) (_strand n) (_inflight n) (_wire n) (_receiving n).
Definition set_receiving (b : bool) n : UdpNet Q :=
  mkNet (_contexts n) (_allContexts n) (_pool n) (_initialized n) (_socketOpen n)
    (_isStopping n) (_oversizeDrops n) (_lastLogMs n) (_strand n) (_inflight n) (_wire n) b.

Definition on_net (f : UdpNet Q -> UdpNet Q) s : NetWorld Q T := mkNW (f (net s)) (nmem s).

(** ** UDPSendContextPool *)

Definition Net_new : UdpNet Q := mkNet ∅ [] cq_empty false false false 0 0 [] [] [] false.

(** [k] contexts still to create. *)
Fixpoint prepare_contexts (k : nat) n : UdpNet Q :=
  match k with
  | O => n
  | S k =>
      let c := Z.of_nat (length (_allContexts n)) in
      prepare_contexts k
        (set_pool_queue (enqueue c (_pool n)) (add_context c (set_context c (mkCtx [] None 0 0) n)))
  end.

Definition Prepare (poolSize : nat) n : UdpNet Q :=
  if _initialized n then n else set_initialized (prepare_contexts poolSize n).

Definition Acquire n : option Z * UdpNet Q :=
  match try_dequeue (_pool n) with
  | Some (c, q') => (Some c, set_pool_queue q' n)
  | None => (None, n)
  end.

(** The two [assert]s, then the context goes back, reset. *)
Definition Release (c : Z) n : option (UdpNet Q) :=
  x ← _contexts n !! c;
  if decide (payload x = None /\ payloadLen x = 0) then
    Some (set_pool_queue (enqueue c (_pool n)) (set_context c (mkCtx (headerBytes x) None 0 (destination x)) n))
  else None.

(** ** UDPNetworkImpl *)

Definition free_payload (p : option Z) s : option (NetWorld Q T) :=
  m ← Free tid p (nmem s); Some (mkNW (net s) m).

(** The clean-up that ends every path of the lambda and of the completion
    handler: [Free(ctx->payload)], reset, [Release(ctx)]. *)
Definition give_back (c : Z) s : option (NetWorld Q T) :=
  x ← _contexts (net s) !! c;
  s1 ← free_payload (payload x) s;
  let s2 := on_net (set_context c (mkCtx (headerBytes x) None 0 (destination x))) s1 in
  n ← Release c (net s2);
  Some (mkNW n (nmem s2)).

Definition AsyncSend (now dest tg sid : Z) (tok : uint128_t) (msg len : Z) s : option (NetWorld Q T) :=
  if UDP_MAX_APP_BYTES <? len then
    let lastMs := _lastLogMs (net s) in
    let logMs := if lastMs + 5000 <? now then now else lastMs in
    free_payload (Some msg) (on_net (set_drops (u64 (_oversizeDrops (net s) + 1)) logMs) s)
  else
    match Acquire (net s) with
    | (None, n) => free_payload (Some msg) (mkNW n (nmem s))
    | (Some c, n) =>
        let x := mkCtx (encode_udp_header (mkUdpHeader tg sid tok)) (Some msg) len dest in
        Some (mkNW (set_strand (_strand n ++ [c]) (set_context c x n)) (nmem s))
    end.

(** The bytes of the two buffers of a send. *)
Definition datagram (x : UDPSendContext) (o : Message T) : list Z :=
  headerBytes x ++ take (Z.to_nat (payloadLen x)) (msg_payload o ++ replicate (Z.to_nat (payloadLen x)) 0).

(** The lambda posted by [AsyncSend]; [throws]: [async_send_to] fails to start. *)
Definition strand_send (throws : bool) (c : Z) s : option (NetWorld Q T) :=
  if negb (_socketOpen (net s)) || _isStopping (net s) then give_back c s
  else if throws then give_back c s
  else
    x ← _contexts (net s) !! c;
    p ← payload x;
    o ← objs (nmem s) !! p;
    Some (on_net (fun n => set_inflight (_inflight n ++ [c]) (put_wire (destination x, datagram x o) n)) s).

(** The strand runs its next task. *)
Definition run_strand (throws : bool) s : option (NetWorld Q T) :=
  match _strand (net s) with
  | [] => Some s
  | c :: rest => strand_send throws c (on_net (set_strand rest) s)
  end.

(** The completion handler of the [k]-th datagram in flight. *)
Definition send_complete (k : nat) s : option (NetWorld Q T) :=
  match _inflight (net s) !! k with
  | None => Some s
  | Some c => give_back c (on_net (set_inflight (delete k (_inflight (net s)))) s)
  end.

(** The legacy [SendTo]: returns whether the send was started. *)
Definition SendTo (throws : bool) (data : list Z) (dest : Z) n : bool * UdpNet Q :=
  if negb (_socketOpen n) || _isStopping n then (false, n)
  else if throws then (false, n)
  else (true, put_wire (dest, data) n).

(** [Stop]: the flag at once, closing the socket later on the strand. *)
Definition Stop s : NetWorld Q T := on_net (fun n => set_socket_state (_socketOpen n) true n) s.

Definition Stop_strand s : NetWorld Q T := on_net (fun n => set_socket_state false (_isStopping n) n) s.

Definition StartReceive n : UdpNet Q := if _socketOpen n then set_receiving true n else n.

(** [Start] on a socket that could be opened and bound. *)
Definition Start n : UdpNet Q := StartReceive (set_socket_state true false n).

End Network.

(** ** Exact ownership

    [refs_exact m l]: the references of every live message are exactly the
    occurrences in [l], which names live messages only.  Nothing is leaked and
    nothing in [l] dangles. *)

Section Exact.
Context {Q : Type -> Type} `{!ConcurrentQueue Q} {T : Type}.
Context (sizeofPM : Z).
Implicit Types m : Mem Q T.

Definition refs_exact m (l : list Z) : Prop :=
  (forall a, a ∈ l -> is_Some (objs m !! a)) /\
  (forall a o, objs m !! a = Some o -> refCount o = occurrences a l).

#[export] Instance refs_exact_proper m : Proper (Permutation ==> iff) (refs_exact m).
Proof.
  intros l l' H. unfold refs_exact. split; intros [H1 H2]; split.
  - intros a Ha. apply H1. by rewrite H.
  - intros a o Ho. rewrite (H2 a o Ho). by apply occurrences_perm.
  - intros a Ha. apply H1. by rewrite <- H.
  - intros a o Ho. rewrite (H2 a o Ho). symmetry. by apply occurrences_perm.
Qed.

Lemma Free_exact tid a l m :
  mem_inv sizeofPM m -> refs_exact m (a :: l) ->
  exists m', Free tid (Some a) m = Some m' /\ mem_inv sizeofPM m' /\ refs_exact m' l /\
    (forall b o', objs m' !! b = Some o' -> exists o, objs m !! b = Some o /\ body o' = body o).
Proof.
  intros Hi [Hlive Hcnt]. destruct (Hlive a ltac:(left)) as [o Ho]. pose proof (Hcnt a o Ho) as Hc.
  rewrite occurrences_cons, decide_True in Hc by done.
  destruct (Free_spec sizeofPM tid a o m Hi Ho) as (m' & Hf & Hi' & Hcase).
  exists m'. split; [done|]. split; [done|].
  destruct (refCount o =? 1) eqn:E; bool_to_prop.
  - destruct Hcase as [Hob _]. unfold refs_exact. rewrite Hob. split; [split|].
    + intros b Hb. rewrite lookup_delete_ne; [apply Hlive; by right|]. intros <-.
      apply occurrences_pos in Hb. lia.
    + intros b ob [Hne Hb]%lookup_delete_Some. rewrite (Hcnt b ob Hb), occurrences_cons.
      by rewrite decide_False by done.
    + intros b ob [_ Hb]%lookup_delete_Some. by exists ob.
  - unfold refs_exact. rewrite Hcase. split; [split|].
    + intros b Hb. rewrite lookup_insert. case_decide; [done|]. apply Hlive. by right.
    + intros b ob [[<- <-]|[Hne Hb]]%lookup_insert_Some; [simpl; lia|].
      rewrite (Hcnt b ob Hb), occurrences_cons. by rewrite decide_False by done.
    + intros b ob [[<- <-]|[Hne Hb]]%lookup_insert_Some; [by exists o|by exists ob].
Qed.

(** A new message with one reference. *)
Lemma refs_exact_fresh m m' l p o :
  refs_exact m l -> objs m !! p = None -> objs m' = <[p := o]> (objs m) -> refCount o = 1 -> refs_exact m' (p :: l).
Proof.
  intros [Hl Hc] Hn Hob Hr. unfold refs_exact. rewrite Hob. split.
  - intros a Ha'. rewrite lookup_insert. case_decide; [done|]. apply Hl. rewrite elem_of_cons in Ha'.
    destruct Ha'; [congruence|done].
  - intros a oa [[<- <-]|[Hne Ho']]%lookup_insert_Some; rewrite occurrences_cons.
    + rewrite decide_True by done. assert (occurrences p l = 0) as ->; [|lia].
      destruct (decide (p ∈ l)) as [Hin|Hin]; [destruct (Hl p Hin); congruence|].
      rewrite occurrences_pos in Hin. unfold occurrences in *. lia.
    + rewrite decide_False by done. by rewrite (Hc a oa Ho').
Qed.

(** One more reference to a live message. *)
Lemma refs_exact_add m a o l :
  refs_exact m l -> objs m !! a = Some o -> refs_exact (put_obj a (AddRef o) m) (a :: l).
Proof.
  intros [Hl Hc] Ho. split; cbn.
  - intros b Hb. rewrite lookup_insert. case_decide as E; [by eexists|]. apply elem_of_cons in Hb as [Hb|Hb]; [by subst|by apply Hl].
  - intros b ob [[<- <-]|[Hne Hb]]%lookup_insert_Some; rewrite occurrences_cons.
    + rewrite decide_True by done. cbn. rewrite (Hc a o Ho). lia.
    + rewrite decide_False by done. by rewrite (Hc b ob Hb).
Qed.

Lemma add_ref_inv m a o : mem_inv sizeofPM m -> objs m !! a = Some o -> mem_inv sizeofPM (put_obj a (AddRef o) m).
Proof. intros Hi Ho. eapply (put_live_inv sizeofPM a o); [exact Hi|exact Ho|]. intros s (H1 & H2 & H3). split; [cbn; lia|]. split; [exact H2|exact H3]. Qed.

End Exact.

(** ** Invariant

    Every context is in exactly one place: the pool, the strand, in flight, or in
    the hands of a running handler ([held]).  Free contexts are reset; the others
    own one reference to their payload.  [owned] lists the references held by the
    rest of the program. *)

Section Invariant.
Context {Q : Type -> Type} `{!ConcurrentQueue Q} {T : Type}.
Context (sizeofPM : Z) (tid : nat).
Implicit Types n : UdpNet Q.
Implicit Types s : NetWorld Q T.
Implicit Types m : Mem Q T.

Definition busy (held : list Z) n : list Z := _strand n ++ _inflight n ++ held.

Definition ctx_payloads (cs : gmap Z UDPSendContext) (l : list Z) : list Z :=
  omap (fun c => cs !! c ≫= payload) l.

Definition ctx_free (x : UDPSendContext) : Prop := payload x = None /\ payloadLen x = 0.

Definition ctx_busy (x : UDPSendContext) : Prop :=
  is_Some (payload x) /\ 0 <= payloadLen x <= UDP_MAX_APP_BYTES /\
  length (headerBytes x) = UDPTransportHeader_SIZE.

Record net_inv (held owned : list Z) s : Prop := mk_net_inv {
  ni_mem : mem_inv sizeofPM (nmem s);
  ni_nodup : NoDup (_allContexts (net s));
  ni_perm : contents (_pool (net s)) ++ busy held (net s) ≡ₚ _allContexts (net s);
  ni_free : forall c, c ∈ contents (_pool (net s)) -> exists x, _contexts (net s) !! c = Some x /\ ctx_free x;
  ni_busy : forall c, c ∈ busy held (net s) -> exists x, _contexts (net s) !! c = Some x /\ ctx_busy x;
  ni_refs : refs_exact (nmem s) (ctx_payloads (_contexts (net s)) (busy held (net s)) ++ owned)
}.

#[export] Instance ctx_payloads_proper cs : Proper (Permutation ==> Permutation) (ctx_payloads cs).
Proof. intros l l' H. unfold ctx_payloads. by rewrite H. Qed.

Lemma ctx_payloads_insert_ne cs c x l : c ∉ l -> ctx_payloads (<[c := x]> cs) l = ctx_payloads cs l.
Proof.
  unfold ctx_payloads. induction l as [|c' l IH]; [done|]. rewrite not_elem_of_cons. intros [Hne Hl].
  cbn [omap list_omap]. rewrite lookup_insert_ne by done. by rewrite IH.
Qed.

Lemma ctx_payloads_cons cs c x p l :
  cs !! c = Some x -> payload x = Some p -> ctx_payloads cs (c :: l) = p :: ctx_payloads cs l.
Proof. intros H1 H2. unfold ctx_payloads. cbn [omap list_omap]. rewrite H1. cbn. by rewrite H2. Qed.

(** Moving a context between the strand, the wire and a handler changes nothing. *)
Lemma net_inv_move held held' owned s s' :
  net_inv held owned s -> nmem s' = nmem s -> _contexts (net s') = _contexts (net s) ->
  _allContexts (net s') = _allContexts (net s) -> _pool (net s') = _pool (net s) ->
  busy held' (net s') ≡ₚ busy held (net s) -> net_inv held' owned s'.
Proof.
  intros [Hm Hn Hp Hf Hb Hr] Em Ec Ea Ep Eb.
  split; rewrite ?Em, ?Ec, ?Ea, ?Ep, ?Eb; try done.
  intros c. rewrite Eb. apply Hb.
Qed.

Lemma net_inv_fresh held owned s c :
  net_inv (c :: held) owned s -> (c ∉ busy held (net s)) /\ (c ∉ contents (_pool (net s))).
Proof.
  intros H. pose proof (ni_nodup _ _ _ H) as Hn. rewrite <- (ni_perm _ _ _ H) in Hn.
  assert (busy (c :: held) (net s) ≡ₚ c :: busy held (net s)) as Eb by (unfold busy; solve_Permutation).
  rewrite Eb in Hn. apply NoDup_app in Hn as (_ & Hd & Hn). apply NoDup_cons in Hn as [Hc _].
  split; [done|]. intros Hin. apply (Hd c Hin). left.
Qed.

Lemma give_back_ok c held owned s :
  net_inv (c :: held) owned s ->
  exists s', give_back tid c s = Some s' /\ net_inv held owned s' /\
    _strand (net s') = _strand (net s) /\ _inflight (net s') = _inflight (net s) /\
    _wire (net s') = _wire (net s).
Proof.
  intros H. destruct (net_inv_fresh _ _ _ _ H) as [Hcb Hcp]. destruct H as [Hm Hn Hp Hf Hb Hr].
  assert (busy (c :: held) (net s) ≡ₚ c :: busy held (net s)) as Eb by (unfold busy; solve_Permutation).
  destruct (Hb c) as (x & Hx & [p Hpx] & Hlen & Hhd); [rewrite Eb; left|].
  rewrite Eb, (ctx_payloads_cons _ _ _ _ _ Hx Hpx) in Hr.
  destruct (Free_exact sizeofPM tid p _ _ Hm Hr) as (m' & Hfr & Hm' & Hr' & _).
  unfold give_back. rewrite Hx. cbn [mbind option_bind]. unfold free_payload. rewrite Hpx, Hfr.
  cbn [mbind option_bind]. unfold Release, on_net. cbn [net nmem set_context _contexts]. rewrite lookup_insert_eq.
  cbn [mbind option_bind payload payloadLen headerBytes destination]. rewrite decide_True by done.
  eexists. split; [reflexivity|]. split; [|done].
  split; cbn [net nmem set_context set_pool_queue _contexts _pool _allContexts]; try done.
  - rewrite contents_enqueue. change (busy held _) with (busy held (net s)). rewrite <- Hp, Eb. solve_Permutation.
  - intros c' Hc'. rewrite contents_enqueue, elem_of_cons in Hc'. rewrite insert_insert_eq.
    destruct (decide (c' = c)) as [->|Hne]; [rewrite lookup_insert_eq; by eexists|].
    rewrite lookup_insert_ne by done. apply Hf. tauto.
  - intros c' Hc'. change (busy held _) with (busy held (net s)) in Hc'. rewrite insert_insert_eq, lookup_insert_ne.
    + apply Hb. rewrite Eb. by right.
    + by intros ->.
  - rewrite insert_insert_eq. change (busy held _) with (busy held (net s)). by rewrite ctx_payloads_insert_ne.
Qed.

(** Giving up the caller's reference, at once. *)
Lemma free_payload_ok msg owned s :
  net_inv [] (msg :: owned) s ->
  exists s', free_payload tid (Some msg) s = Some s' /\ net_inv [] owned s' /\ net s' = net s.
Proof.
  intros [Hm Hn Hp Hf Hb Hr].
  rewrite <- Permutation_middle in Hr.
  destruct (Free_exact sizeofPM tid msg _ _ Hm Hr) as (m' & Hfr & Hm' & Hr' & _).
  unfold free_payload. rewrite Hfr. eexists. split; [reflexivity|]. split; [|done]. by split.
Qed.

(** What [AsyncSend] does with an admissible payload when a context is free. *)
Lemma AsyncSend_posts now dest tg sid tok msg len owned s c q :
  net_inv [] (msg :: owned) s -> 0 <= len <= UDP_MAX_APP_BYTES ->
  try_dequeue (_pool (net s)) = Some (c, q) ->
  let x := mkCtx (encode_udp_header (mkUdpHeader tg sid tok)) (Some msg) len dest in
  let s' := mkNW (set_strand (_strand (net s) ++ [c]) (set_context c x (set_pool_queue q (net s)))) (nmem s) in
  AsyncSend tid now dest tg sid tok msg len s = Some s' /\ net_inv [] owned s'.
Proof.
  intros [Hm Hn Hp Hf Hb Hr] Hlen Hq x s'. split.
  { unfold AsyncSend, Acquire. rewrite (proj2 (Z.ltb_ge _ _)) by lia. by rewrite Hq. }
  pose proof (try_dequeue_Some _ _ _ _ Hq) as Hc.
  assert (busy [] (net s') ≡ₚ c :: busy [] (net s)) as Eb.
  { unfold s', busy. cbn [net set_strand _strand _inflight set_context set_pool_queue]. solve_Permutation. }
  assert (c ∉ busy [] (net s)) as Hcb.
  { intros Hin. rewrite <- Hp, Hc in Hn. apply NoDup_app in Hn as (_ & Hd & _). apply (Hd c); [left|done]. }
  assert (c ∉ contents q) as Hcq.
  { intros Hin. rewrite <- Hp, Hc in Hn. apply NoDup_app in Hn as (Hn & _). by apply NoDup_cons in Hn as [? _]. }
  split; try done.
  - rewrite Eb. unfold s'. cbn [net set_strand set_context set_pool_queue _pool _allContexts].
    rewrite <- Hp, Hc. solve_Permutation.
  - unfold s'. cbn [net set_strand set_context set_pool_queue _pool _contexts]. intros c' Hc'.
    rewrite lookup_insert_ne by (by intros ->). apply Hf. rewrite Hc. by right.
  - intros c' Hc'. rewrite Eb in Hc'. unfold s'. cbn [net set_strand set_context set_pool_queue _contexts].
    destruct (decide (c' = c)) as [->|Hne].
    + rewrite lookup_insert_eq. exists x. split; [done|]. split; [by exists msg|]. split; [done|].
      apply length_encode_udp_header.
    + rewrite lookup_insert_ne by done. apply Hb. rewrite elem_of_cons in Hc'. tauto.
  - rewrite Eb. unfold s'. cbn [net nmem set_strand set_context set_pool_queue _contexts].
    rewrite (ctx_payloads_cons _ c x msg) by (by rewrite ?lookup_insert_eq).
    rewrite ctx_payloads_insert_ne by done. by rewrite <- Permutation_middle in Hr.
Qed.

Lemma AsyncSend_ok now dest tg sid tok msg len owned s :
  net_inv [] (msg :: owned) s -> 0 <= len ->
  exists s', AsyncSend tid now dest tg sid tok msg len s = Some s' /\ net_inv [] owned s' /\
    _wire (net s') = _wire (net s).
Proof.
  intros H Hlen. destruct (UDP_MAX_APP_BYTES <? len) eqn:El.
  - unfold AsyncSend. rewrite El.
    destruct (free_payload_ok msg owned (on_net (set_drops (u64 (_oversizeDrops (net s) + 1))
      (if _lastLogMs (net s) + 5000 <? now then now else _lastLogMs (net s))) s)) as (s' & Hs & Hi & Hn).
    { by apply (net_inv_move _ _ _ _ _ H). }
    exists s'. by rewrite Hn.
  - bool_to_prop. destruct (try_dequeue (_pool (net s))) as [[c q]|] eqn:Eq.
    + destruct (AsyncSend_posts now dest tg sid tok msg len owned s c q H ltac:(lia) Eq) as [Hs Hi].
      eexists. split; [exact Hs|]. split; [exact Hi|done].
    + unfold AsyncSend, Acquire. rewrite (proj2 (Z.ltb_ge _ _)), Eq by lia.
      destruct (free_payload_ok msg owned (mkNW (net s) (nmem s))) as (s' & Hs & Hi & Hn); [by destruct s|].
      exists s'. by rewrite Hn.
Qed.

Lemma length_datagram x (o : Message T) :
  ctx_busy x -> Z.of_nat (length (datagram x o)) <= UDP_MAX_DATAGRAM_BYTES.
Proof.
  intros (_ & Hl & Hh). unfold datagram. rewrite length_app, Hh, length_take, length_app, length_replicate.
  unfold UDP_MAX_APP_BYTES, UDP_MAX_DATAGRAM_BYTES, UDPTransportHeader_SIZE in *. lia.
Qed.

Lemma run_strand_ok throws owned s :
  net_inv [] owned s -> exists s', run_strand tid throws s = Some s' /\ net_inv [] owned s' /\
    exists ds, _wire (net s') = _wire (net s) ++ ds /\
      Forall (fun d => Z.of_nat (length d.2) <= UDP_MAX_DATAGRAM_BYTES) ds.
Proof.
  intros H. unfold run_strand. destruct (_strand (net s)) as [|c rest] eqn:Es.
  { exists s. split_and!; try done. exists []. by rewrite app_nil_r. }
  set (s1 := on_net (set_strand rest) s).
  assert (net_inv [c] owned s1) as H1.
  { apply (net_inv_move _ _ _ _ _ H); try done. unfold s1, busy. simpl. rewrite Es. solve_Permutation. }
  unfold strand_send. destruct (give_back_ok c [] owned s1 H1) as (s' & Hs & Hi & _ & _ & Hw).
  assert (exists s', give_back tid c s1 = Some s' /\ net_inv [] owned s' /\
    exists ds, _wire (net s') = _wire (net s) ++ ds /\
      Forall (fun d => Z.of_nat (length d.2) <= UDP_MAX_DATAGRAM_BYTES) ds) as Hgive.
  { exists s'. split_and!; try done. exists []. by rewrite app_nil_r. }
  destruct (negb (_socketOpen (net s1)) || _isStopping (net s1)); [done|]. destruct throws; [done|].
  destruct (ni_busy _ _ _ H1 c) as (x & Hx & Hxb).
  { unfold busy. rewrite !elem_of_app. right; right; left. }
  destruct (Hxb) as ([p Hp] & _).
  assert (is_Some (objs (nmem s1) !! p)) as [o Ho].
  { apply (ni_refs _ _ _ H1). rewrite elem_of_app. left. unfold ctx_payloads. rewrite list_elem_of_omap.
    exists c. split; [unfold busy; rewrite !elem_of_app; right; right; left|]. by rewrite Hx. }
  rewrite Hx. cbn [mbind option_bind]. rewrite Hp. cbn [mbind option_bind]. rewrite Ho. cbn [mbind option_bind].
  eexists. split; [reflexivity|]. split.
  - apply (net_inv_move _ _ _ _ _ H1); try done.
    unfold busy, on_net. cbn [net set_inflight put_wire _strand _inflight]. solve_Permutation.
  - exists [(destination x, datagram x o)]. split; [done|]. constructor; [by apply length_datagram|done].
Qed.

Lemma send_complete_ok k owned s :
  net_inv [] owned s -> exists s', send_complete tid k s = Some s' /\ net_inv [] owned s' /\
    _wire (net s') = _wire (net s).
Proof.
  intros H. unfold send_complete. destruct (_inflight (net s) !! k) as [c|] eqn:Ek; [|by exists s].
  destruct (give_back_ok c [] owned (on_net (set_inflight (delete k (_inflight (net s)))) s)) as (s' & ? & ? & _ & _ & ?);
    [|by exists s'].
  apply (net_inv_move _ _ _ _ _ H); try done. unfold busy, on_net.
  cbn [net set_inflight _strand _inflight]. rewrite (delete_Permutation _ _ _ Ek) at 2. solve_Permutation.
Qed.

Lemma prepare_contexts_ok k n m owned :
  net_inv [] owned (mkNW n m) ->
  (forall c, c ∈ _allContexts n -> 0 <= c < Z.of_nat (length (_allContexts n))) ->
  net_inv [] owned (mkNW (prepare_contexts k n) m) /\
  (length (_allContexts (prepare_contexts k n)) = k + length (_allContexts n))%nat.
Proof.
  revert n; induction k as [|k IH]; intros n H Hid; [done|]. cbn [prepare_contexts].
  set (c := Z.of_nat (length (_allContexts n))).
  set (n1 := set_pool_queue (enqueue c (_pool n)) (add_context c (set_context c (mkCtx [] None 0 0) n))).
  assert (c ∉ _allContexts n) as Hfresh by (intros Hin; specialize (Hid c Hin); lia).
  destruct H as [Hm Hn Hp Hf Hb Hr]. cbn [net nmem] in *.
  assert (forall c', c' ∈ busy [] n -> c' <> c) as Hnb.
  { intros c' Hc' ->. apply Hfresh. rewrite <- Hp, elem_of_app. by right. }
  destruct (IH n1) as [H1 H2].
  - split; unfold n1; cbn [net nmem set_pool_queue add_context set_context _contexts _allContexts _pool]; try done.
    + apply NoDup_app. split_and!; [done| |apply NoDup_singleton]. intros c' Hc' ->%list_elem_of_singleton. done.
    + rewrite contents_enqueue. change (busy [] _) with (busy [] n). rewrite <- Hp. solve_Permutation.
    + intros c'. rewrite contents_enqueue, elem_of_cons. intros Hc'. destruct (decide (c' = c)) as [->|Hne].
      * rewrite lookup_insert_eq. by eexists.
      * rewrite lookup_insert_ne by done. apply Hf. tauto.
    + intros c' Hc'. rewrite lookup_insert_ne by (symmetry; by apply Hnb). by apply Hb.
    + change (busy [] _) with (busy [] n). rewrite ctx_payloads_insert_ne; [done|]. intros Hc'. by apply (Hnb c).
  - unfold n1. cbn [set_pool_queue add_context set_context _allContexts]. intros c' Hc'. rewrite length_app. simpl.
    apply elem_of_app in Hc' as [Hc'|Hc'%list_elem_of_singleton]; [specialize (Hid c' Hc'); lia|lia].
  - split; [done|]. rewrite H2. unfold n1. cbn. rewrite length_app. simpl. lia.
Qed.

(** The state the constructor of [UDPNetworkImpl] leaves, with any message pool
    whose references are [owned]. *)
Lemma Prepare_ok k m owned :
  mem_inv sizeofPM m -> refs_exact m owned -> net_inv [] owned (mkNW (Prepare k Net_new) m).
Proof.
  intros Hm Hr. unfold Prepare. cbn [_initialized Net_new].
  destruct (prepare_contexts_ok k Net_new m owned) as [H _].
  - split; cbn; try done.
    + apply NoDup_nil_2.
    + by rewrite contents_empty.
    + intros c. rewrite contents_empty. by intros ?%elem_of_nil.
    + by intros c ?%elem_of_nil.
  - by intros c ?%elem_of_nil.
  - by apply (net_inv_move _ _ _ _ _ H).
Qed.

(** ** Runs of the send path *)

Inductive NetOp :=
| OpSend (now dest tg sid : Z) (tok : uint128_t) (msg len : Z)
| OpRun (throws : bool)
| OpComplete (k : nat)
| OpStop
| OpStopStrand.

Definition net_exec (o : NetOp) s : option (NetWorld Q T) :=
  match o with
  | OpSend now dest tg sid tok msg len => AsyncSend tid now dest tg sid tok msg len s
  | OpRun throws => run_strand tid throws s
  | OpComplete k => send_complete tid k s
  | OpStop => Some (Stop s)
  | OpStopStrand => Some (Stop_strand s)
  end.

Fixpoint net_run (ops : list NetOp) s : option (NetWorld Q T) :=
  match ops with [] => Some s | o :: ops => s1 ← net_exec o s; net_run ops s1 end.

(** The messages handed to [AsyncSend], whose lengths are those of [uint16_t]. *)
Fixpoint sends (ops : list NetOp) : list Z :=
  match ops with
  | [] => []
  | OpSend _ _ _ _ _ msg _ :: ops => msg :: sends ops
  | _ :: ops => sends ops
  end.

Definition op_ok (o : NetOp) : Prop :=
  match o with OpSend _ _ _ _ _ _ len => in_u 16 len | _ => True end.

Lemma net_exec_ok o owned s :
  net_inv [] (sends [o] ++ owned) s -> op_ok o ->
  exists s', net_exec o s = Some s' /\ net_inv [] owned s' /\
    exists ds, _wire (net s') = _wire (net s) ++ ds /\
      Forall (fun d => Z.of_nat (length d.2) <= UDP_MAX_DATAGRAM_BYTES) ds.
Proof.
  intros H Ho. destruct o as [now dest tg sid tok msg len|throws|k| |]; cbn [sends app net_exec] in *.
  - destruct (AsyncSend_ok now dest tg sid tok msg len owned s H) as (s' & Hs & Hi & Hw); [apply Ho|].
    exists s'. split_and!; try done. exists []. by rewrite app_nil_r.
  - by apply run_strand_ok.
  - destruct (send_complete_ok k owned s H) as (s' & Hs & Hi & Hw).
    exists s'. split_and!; try done. exists []. by rewrite app_nil_r.
  - eexists. split; [reflexivity|]. split; [by apply (net_inv_move _ _ _ _ _ H)|]. exists []. by rewrite app_nil_r.
  - eexists. split; [reflexivity|]. split; [by apply (net_inv_move _ _ _ _ _ H)|]. exists []. by rewrite app_nil_r.
Qed.

Lemma sends_cons o ops : sends (o :: ops) = sends [o] ++ sends ops.
Proof. by destruct o. Qed.

Lemma net_run_ok ops owned s :
  net_inv [] (sends ops ++ owned) s -> Forall op_ok ops ->
  exists s', net_run ops s = Some s' /\ net_inv [] owned s' /\
    exists ds, _wire (net s') = _wire (net s) ++ ds /\
      Forall (fun d => Z.of_nat (length d.2) <= UDP_MAX_DATAGRAM_BYTES) ds.
Proof.
  revert s; induction ops as [|o ops IH]; intros s H Ho; cbn [net_run].
  { exists s. split_and!; try done. exists []. by rewrite app_nil_r. }
  rewrite sends_cons, <- app_assoc in H. apply Forall_cons in Ho as [Ho Hos].
  destruct (net_exec_ok o _ s H Ho) as (s1 & -> & H1 & ds1 & Hw1 & Hd1). cbn [mbind option_bind].
  destruct (IH s1 H1 Hos) as (s2 & -> & H2 & ds2 & Hw2 & Hd2).
  exists s2. split_and!; try done. exists (ds1 ++ ds2). split; [by rewrite Hw2, Hw1, app_assoc|].
  by apply Forall_app.
Qed.

(** C7: The UDP send path neither leaks nor double-frees, whatever happens to a
    datagram (too large, no context left, socket closed or stopping, failure to
    start, completion with or without error) and however sends, strand tasks and
    completions interleave: every step returns, every datagram put on the wire is
    at most 1200 bytes, and once the strand and the wire are idle every context is
    back in the pool and exactly the references of the rest of the program are
    left (none: no message is live). *)
Theorem udp_send_path_conserves ops owned s
  (Hinv : net_inv [] (sends ops ++ owned) s) (Hops : Forall op_ok ops) :
  exists s', net_run ops s = Some s' /\
    (exists ds, _wire (net s') = _wire (net s) ++ ds /\
       Forall (fun d => Z.of_nat (length d.2) <= UDP_MAX_DATAGRAM_BYTES) ds) /\
    (_strand (net s') = [] -> _inflight (net s') = [] ->
       contents (_pool (net s')) ≡ₚ _allContexts (net s') /\ refs_exact (nmem s') owned /\
       (owned = [] -> objs (nmem s') = ∅)).
Proof.
  destruct (net_run_ok ops owned s Hinv Hops) as (s' & Hrun & Hi & Hw). exists s'. split; [done|]. split; [done|].
  intros Hs Hf. destruct Hi as [Hm Hn Hp _ _ Hr]. unfold busy in Hp, Hr. rewrite Hs, Hf in Hp, Hr. simpl in Hp, Hr.
  rewrite app_nil_r in Hp. split_and!; try done. intros ->. apply map_empty. intros a. apply eq_None_not_Some.
  intros [o Ho]. destruct Hr as [_ Hr]. specialize (Hr a o Ho). unfold occurrences in Hr. simpl in Hr.
  destruct (mi_objs _ _ Hm a o Ho) as (sz & _ & Hpos & _). lia.
Qed.

(** ** What the strand will send *)

(** The datagrams of the tasks waiting in the strand, in order. *)
Definition pending_datagrams s : list (Z * list Z) :=
  omap (fun c => x ← _contexts (net s) !! c; p ← payload x; o ← objs (nmem s) !! p;
                 Some (destination x, datagram x o)) (_strand (net s)).

(** The transport header of a session's datagrams in front of the bytes [d]. *)
Definition framed (dest tg sid : Z) (tok : uint128_t) (d : list Z) : Z * list Z :=
  (dest, encode_udp_header (mkUdpHeader tg sid tok) ++ d).

Definition carries_bytes m (p : Z) (d : list Z) : Prop :=
  exists o, objs m !! p = Some o /\ body o = BPacket (Z.of_nat (length d)) d.

Lemma AsyncSend_pending now dest tg sid tok msg d owned s :
  net_inv [] (msg :: owned) s -> carries_bytes (nmem s) msg d ->
  Z.of_nat (length d) <= UDP_MAX_APP_BYTES -> contents (_pool (net s)) <> [] ->
  exists s', AsyncSend tid now dest tg sid tok msg (Z.of_nat (length d)) s = Some s' /\ net_inv [] owned s' /\
    nmem s' = nmem s /\ _socketOpen (net s') = _socketOpen (net s) /\ _isStopping (net s') = _isStopping (net s) /\
    _wire (net s') = _wire (net s) /\
    length (contents (_pool (net s))) = S (length (contents (_pool (net s')))) /\
    pending_datagrams s' = pending_datagrams s ++ [framed dest tg sid tok d] /\
    length (_strand (net s')) = S (length (_strand (net s))).
Proof.
  intros H (o & Ho & Hbo) Hd Hpool. destruct (try_dequeue (_pool (net s))) as [[c q]|] eqn:Eq.
  2:{ by apply try_dequeue_None in Eq. }
  destruct (AsyncSend_posts now dest tg sid tok msg (Z.of_nat (length d)) owned s c q H ltac:(lia) Eq) as [Hs Hi].
  eexists. split; [exact Hs|]. split; [exact Hi|]. split_and!; try done.
  - cbn [net set_strand set_context set_pool_queue _pool]. by rewrite (try_dequeue_Some _ _ _ _ Eq).
  - unfold pending_datagrams. cbn [net nmem set_strand set_context set_pool_queue _strand _contexts].
    rewrite omap_app. f_equal.
    + assert (c ∉ _strand (net s)) as Hc.
      { intros Hin. pose proof (ni_nodup _ _ _ H) as Hn. rewrite <- (ni_perm _ _ _ H), (try_dequeue_Some _ _ _ _ Eq) in Hn.
        apply NoDup_app in Hn as (_ & Hn & _). apply (Hn c); [left|]. unfold busy. rewrite elem_of_app. by left. }
      clear -Hc. induction (_strand (net s)) as [|c' l IH]; [done|]. rewrite not_elem_of_cons in Hc.
      cbn [omap list_omap]. rewrite lookup_insert_ne by tauto. rewrite IH by tauto. done.
    + cbn [omap list_omap]. rewrite lookup_insert_eq. cbn [mbind option_bind payload]. rewrite Ho.
      cbn [mbind option_bind]. unfold datagram, framed, msg_payload. cbn [headerBytes payloadLen destination].
      rewrite Hbo, Nat2Z.id. by rewrite take_app_length.
  - cbn. rewrite length_app. simpl. lia.
Qed.

(** One step of the strand on a running network sends the next datagram. *)
Lemma run_strand_sends owned s d ds :
  net_inv [] owned s -> _socketOpen (net s) = true -> _isStopping (net s) = false ->
  pending_datagrams s = d :: ds ->
  exists s', run_strand tid false s = Some s' /\ net_inv [] owned s' /\
    _socketOpen (net s') = true /\ _isStopping (net s') = false /\
    _wire (net s') = _wire (net s) ++ [d] /\ pending_datagrams s' = ds.
Proof.
  intros H Hop Hst Hpd. destruct (run_strand_ok false owned s H) as (s' & Hs & Hi & _). exists s'.
  split; [done|]. split; [done|]. revert Hs. unfold run_strand. unfold pending_datagrams in Hpd.
  destruct (_strand (net s)) as [|c rest] eqn:Es; [done|]. unfold strand_send, on_net.
  cbn [net nmem set_strand _socketOpen _isStopping _contexts]. rewrite Hop, Hst. cbn [negb orb].
  destruct (ni_busy _ _ _ H c) as (x & Hx & [p Hp] & _); [unfold busy; rewrite Es; left|].
  assert (is_Some (objs (nmem s) !! p)) as [o Ho].
  { apply (ni_refs _ _ _ H). rewrite elem_of_app. left. unfold ctx_payloads. rewrite list_elem_of_omap.
    exists c. split; [unfold busy; rewrite Es; left|]. by rewrite Hx. }
  cbn [omap list_omap] in Hpd. rewrite Hx in *. cbn [mbind option_bind] in *. rewrite Hp in *.
  cbn [mbind option_bind] in *. rewrite Ho in *. cbn [mbind option_bind] in *.
  intros [= <-]. injection Hpd as <- <-. done.
Qed.

Fixpoint run_strand_n (k : nat) s : option (NetWorld Q T) :=
  match k with O => Some s | S k => s1 ← run_strand tid false s; run_strand_n k s1 end.

Lemma run_strand_n_sends owned s ds :
  net_inv [] owned s -> _socketOpen (net s) = true -> _isStopping (net s) = false ->
  pending_datagrams s = ds ->
  exists s', run_strand_n (length ds) s = Some s' /\ net_inv [] owned s' /\
    _wire (net s') = _wire (net s) ++ ds /\ pending_datagrams s' = [].
Proof.
  revert s; induction ds as [|d ds IH]; intros s H Ho Hs Hp; cbn [length run_strand_n].
  { exists s. by rewrite app_nil_r. }
  destruct (run_strand_sends owned s d ds H Ho Hs Hp) as (s1 & -> & H1 & Ho1 & Hs1 & Hw1 & Hp1).
  cbn [mbind option_bind]. destruct (IH s1 H1 Ho1 Hs1 Hp1) as (s2 & Hr & H2 & Hw2 & Hp2).
  exists s2. split_and!; try done. by rewrite Hw2, Hw1, <- app_assoc.
Qed.

End Invariant.

(** ** Witnesses *)

Lemma mem1_exact len : refs_exact (mem1 len) [1].
Proof.
  destruct (AllocatePacket_spec 40 _ _ _ _ _ (Mem_new_inv 40) (mem1_alloc len)) as (o & Ho & _ & _ & Hr & _).
  unfold refs_exact. rewrite Ho. split.
  - intros a ->%list_elem_of_singleton. rewrite lookup_insert_eq. by eexists.
  - intros a o' [[<- <-]|[_ ?]]%lookup_insert_Some; [done|done].
Qed.

(** Two contexts, a started socket and one packet of 100 bytes. *)
Definition demo_net : NetWorld list unit := mkNW (Start (Prepare 2 Net_new)) (mem1 100).

Definition demo_ops : list NetOp := [OpSend 0 5 TAG_RAW_UDP 7 (mkU128 1 2) 1 100; OpRun false; OpComplete 0].

Lemma udp_send_path_conserves_witness :
  exists s', net_run 0 demo_ops demo_net = Some s' /\ objs (nmem s') = ∅ /\ length (_wire (net s')) = 1%nat.
Proof.
  destruct (udp_send_path_conserves 40 0 demo_ops [] demo_net) as (s' & Hrun & _ & Hidle).
  - apply (net_inv_move 40 [] [] [1] (mkNW (Prepare 2 Net_new) (mem1 100))); try reflexivity.
    apply Prepare_ok; [apply mem1_inv|apply mem1_exact].
  - repeat constructor; vm_compute; congruence.
  - exists s'. split; [exact Hrun|]. vm_compute in Hrun. injection Hrun as <-. split; [|reflexivity].
    apply Hidle; reflexivity.
Defined.
