(* ===== verification/Packets.v ===== *)
(** * Packets: smart pointers, serialisation, buffers

    Models src/System/Packet/PacketPtr.h, PacketBase.h and PacketBuilder.h, and
    Network/ByteBuffer.h.

    - [Ptr]: programs of [PacketPtr] variables over the message pool.
    - [Buffer]: [ByteBuffer] refines a byte queue.
    - [Serialise]: what [PacketBase] and [ProtobufPacketBase] write; every packet built is
      one that the sessions reassemble ([good_packet] of [TcpSession]). *)

From Stdlib Require Import ZArith.
From stdpp Require Import base numbers gmap list.
From S2P Require Import Prelude ConcurrentQueue Messages MessagePool Session UdpNetwork TcpSession.

(** ** PacketPtr *)

Module Ptr.
Section Ptr.
Context {Q : Type -> Type} `{!ConcurrentQueue Q} {T : Type}.
Context (sizeofPM : Z) (tid : nat).

(** The live variables with their [_ptr], and the raw pointers that [Release] gave to
    the program. *)
Record State := mkState { vars : gmap nat (option Z); raws : list Z; pool : Mem Q T }.

Definition set_var (v : nat) (p : option Z) (s : State) : State := mkState (<[v := p]> (vars s)) (raws s) (pool s).

(** [_ptr->AddRef()], if there is a pointer. *)
Definition add_ref (p : option Z) (s : State) : option State :=
  match p with
  | None => Some s
  | Some a => o ← objs (pool s) !! a; Some (mkState (vars s) (raws s) (put_obj a (AddRef o) (pool s)))
  end.

(** [Reset]: a non-null pointer is freed and cleared. *)
Definition Reset (v : nat) (s : State) : option State :=
  match vars s !! v with
  | Some (Some a) => m ← Free tid (Some a) (pool s); Some (mkState (<[v := None]> (vars s)) (raws s) m)
  | _ => Some s
  end.

Inductive PtrOp :=
| PEmpty (v : nat)                (* PacketPtr v; *)
| PBuild (v : nat) (size : Z)     (* PacketPtr v(MessagePool::AllocatePacket(size)); *)
| PAdopt (v : nat)                (* PacketPtr v(raw); the latest released pointer *)
| PCopy (v u : nat)               (* PacketPtr v(u); *)
| PMove (v u : nat)               (* PacketPtr v(std::move(u)); *)
| PAssign (v u : nat)             (* v = u; *)
| PMoveAssign (v u : nat)         (* v = std::move(u); *)
| PReset (v : nat)
| PRelease (v : nat)
| PDestroy (v : nat).

(** [None] is undefined behaviour; a statement about variables that do not exist, or
    that declares one twice, is not a program and is skipped. *)
Definition exec (op : PtrOp) (s : State) : option State :=
  match op with
  | PEmpty v => match vars s !! v with None => Some (set_var v None s) | Some _ => Some s end
  | PBuild v size =>
      match vars s !! v with
      | None => let '(a, m) := AllocatePacket sizeofPM tid size (pool s) in
                Some (mkState (<[v := Some a]> (vars s)) (raws s) m)
      | Some _ => Some s
      end
  | PAdopt v =>
      match vars s !! v, raws s with
      | None, a :: rest => Some (mkState (<[v := Some a]> (vars s)) rest (pool s))
      | _, _ => Some s
      end
  | PCopy v u =>
      match vars s !! v, vars s !! u with
      | None, Some p => set_var v p <$> add_ref p s
      | _, _ => Some s
      end
  | PMove v u =>
      match vars s !! v, vars s !! u with
      | None, Some p => Some (set_var u None (set_var v p s))
      | _, _ => Some s
      end
  | PAssign v u =>
      match vars s !! v, vars s !! u with
      | Some _, Some p => if decide (v = u) then Some s else s ← Reset v s; set_var v p <$> add_ref p s
      | _, _ => Some s
      end
  | PMoveAssign v u =>
      match vars s !! v, vars s !! u with
      | Some _, Some p => if decide (v = u) then Some s else s ← Reset v s; Some (set_var u None (set_var v p s))
      | _, _ => Some s
      end
  | PReset v => Reset v s
  | PRelease v =>
      match vars s !! v with
      | Some (Some a) => Some (mkState (<[v := None]> (vars s)) (a :: raws s) (pool s))
      | _ => Some s
      end
  | PDestroy v => s ← Reset v s; Some (mkState (delete v (vars s)) (raws s) (pool s))
  end.

Fixpoint run (ops : list PtrOp) (s : State) : option State :=
  match ops with [] => Some s | op :: ops => s ← exec op s; run ops s end.

(** The references the variables own. *)
Definition held (m : gmap nat (option Z)) : list Z := omap id (map_to_list m).*2.

Definition opt_list (p : option Z) : list Z := match p with Some a => [a] | None => [] end.

Record ptr_inv (s : State) : Prop := mk_ptr_inv {
  pi_mem : mem_inv sizeofPM (pool s);
  pi_refs : refs_exact (pool s) (held (vars s) ++ raws s)
}.

Lemma held_insert v p m : m !! v = None -> held (<[v := p]> m) ≡ₚ opt_list p ++ held m.
Proof.
  intros Hv. unfold held. rewrite map_to_list_insert by done. rewrite fmap_cons. cbn. by destruct p.
Qed.

Lemma held_delete v p m : m !! v = Some p -> held m ≡ₚ opt_list p ++ held (delete v m).
Proof.
  intros Hv. rewrite <- held_insert by apply lookup_delete_eq. by rewrite insert_delete_eq, insert_id.
Qed.

Lemma held_overwrite v p p' m : m !! v = Some p -> opt_list p ++ held (<[v := p']> m) ≡ₚ opt_list p' ++ held m.
Proof.
  intros Hv. rewrite (held_delete v p m Hv), <- insert_delete_eq, held_insert by apply lookup_delete_eq.
  solve_Permutation.
Qed.

(** What moves from one pointer to another that holds nothing stays held. *)
Lemma held_moved v u p m : v <> u -> m !! v = None \/ m !! v = Some None -> m !! u = Some p ->
  held (<[u := None]> (<[v := p]> m)) ≡ₚ held m.
Proof.
  intros Hne Hv Hu. assert (held (<[v := p]> m) ≡ₚ opt_list p ++ held m) as H1.
  { destruct Hv as [Hv|Hv]; [by apply held_insert|exact (held_overwrite v None p m Hv)]. }
  pose proof (held_overwrite u p None (<[v := p]> m) ltac:(by rewrite lookup_insert_ne)) as H2.
  cbn in H2. rewrite H1 in H2. by apply Permutation_app_inv_l in H2.
Qed.

(** Adding a reference for a pointer that a variable holds. *)
Lemma add_ref_ok p s : ptr_inv s -> (forall a, p = Some a -> a ∈ held (vars s) ++ raws s) ->
  exists m, add_ref p s = Some (mkState (vars s) (raws s) m) /\ mem_inv sizeofPM m /\
    refs_exact m (opt_list p ++ held (vars s) ++ raws s).
Proof.
  intros [Hi Hr] Hp. destruct p as [a|]; cbn; [|exists (pool s); by destruct s].
  destruct (proj1 Hr a (Hp a eq_refl)) as [o Ho]. rewrite Ho. cbn. eexists. split; [done|].
  split; [by apply add_ref_inv|by apply refs_exact_add].
Qed.

Lemma Reset_ok v s : ptr_inv s ->
  exists s', Reset v s = Some s' /\ ptr_inv s' /\ raws s' = raws s /\
    vars s' = match vars s !! v with Some _ => <[v := None]> (vars s) | None => vars s end.
Proof.
  intros [Hi Hr]. unfold Reset. destruct (vars s !! v) as [[a|]|] eqn:Ev.
  - rewrite (held_delete v (Some a)) in Hr by done. cbn in Hr.
    destruct (Free_exact sizeofPM tid a _ (pool s) Hi Hr) as (m' & Hf & Hi' & Hr' & _). rewrite Hf. cbn.
    eexists. split; [done|]. split; [|done]. split; [done|]. cbn.
    eapply refs_exact_proper; [|exact Hr']. rewrite <- insert_delete_eq, held_insert by apply lookup_delete_eq. done.
  - exists s. split; [done|]. split; [done|]. split; [done|]. by rewrite insert_id.
  - by exists s.
Qed.

Lemma held_in v a m l : m !! v = Some (Some a) -> a ∈ held m ++ l.
Proof. intros Hv. rewrite (held_delete v _ m Hv). cbn. left. Qed.

Lemma exec_ok op s : ptr_inv s -> exists s', exec op s = Some s' /\ ptr_inv s'.
Proof.
  intros Hinv. pose proof Hinv as [Hi Hr]. destruct op as [v|v size|v|v u|v u|v u|v u|v|v|v]; cbn [exec].
  - destruct (vars s !! v) eqn:Ev; [by exists s|]. eexists. split; [done|]. split; [done|]. cbn. by rewrite held_insert.
  - destruct (vars s !! v) eqn:Ev; [by exists s|].
    destruct (AllocatePacket sizeofPM tid size (pool s)) as [a m] eqn:Ea.
    destruct (AllocatePacket_spec sizeofPM tid size (pool s) a m Hi Ea) as (o & Ho & Hi' & Hn & Hc & _).
    eexists. split; [done|]. split; [done|]. cbn. rewrite held_insert by done. cbn.
    by apply (refs_exact_fresh (pool s) m _ a o).
  - destruct (vars s !! v) eqn:Ev; [by exists s|]. destruct (raws s) as [|a rest] eqn:Er; [by exists s|].
    eexists. split; [done|]. split; [done|]. cbn. rewrite held_insert by done. cbn.
    eapply refs_exact_proper; [|exact Hr]. solve_Permutation.
  - destruct (vars s !! v) eqn:Ev; [by exists s|]. destruct (vars s !! u) as [p|] eqn:Eu; [|by exists s].
    destruct (add_ref_ok p s Hinv) as (m & Hm & Hi' & Hr'); [intros a ->; by eapply held_in|]. rewrite Hm. cbn.
    eexists. split; [done|]. split; [done|]. cbn. rewrite held_insert by done.
    eapply refs_exact_proper; [|exact Hr']. solve_Permutation.
  - destruct (vars s !! v) eqn:Ev; [by exists s|]. destruct (vars s !! u) as [p|] eqn:Eu; [|by exists s].
    eexists. split; [done|]. split; [done|]. cbn.
    eapply refs_exact_proper; [|exact Hr]. rewrite held_moved; [done|congruence|by left|done].
  - destruct (vars s !! v) as [pv|] eqn:Ev; [|by exists s]. destruct (vars s !! u) as [p|] eqn:Eu; [|by exists s].
    destruct (decide (v = u)) as [|Hne]; [by exists s|].
    destruct (Reset_ok v s Hinv) as (s1 & Hs1 & Hinv1 & Er1 & Ev1). rewrite Hs1. cbn [mbind option_bind]. rewrite Ev in Ev1.
    destruct (add_ref_ok p s1 Hinv1) as (m & Hm & Hi' & Hr').
    { intros a ->. eapply held_in. rewrite Ev1, lookup_insert_ne by done. exact Eu. }
    rewrite Hm. cbn. eexists. split; [done|]. split; [done|]. cbn. eapply refs_exact_proper; [|exact Hr'].
    rewrite app_assoc. f_equiv. apply (held_overwrite v None p). rewrite Ev1. apply lookup_insert_eq.
  - destruct (vars s !! v) as [pv|] eqn:Ev; [|by exists s]. destruct (vars s !! u) as [p|] eqn:Eu; [|by exists s].
    destruct (decide (v = u)) as [|Hne]; [by exists s|].
    destruct (Reset_ok v s Hinv) as (s1 & Hs1 & [Hi1 Hr1] & Er1 & Ev1). rewrite Hs1. cbn [mbind option_bind]. rewrite Ev in Ev1.
    eexists. split; [done|]. split; [done|]. cbn. eapply refs_exact_proper; [|exact Hr1]. f_equiv.
    apply held_moved; [done|right; by rewrite Ev1, lookup_insert_eq|by rewrite Ev1, lookup_insert_ne].
  - destruct (Reset_ok v s Hinv) as (s1 & Hs1 & Hinv1 & _). by exists s1.
  - destruct (vars s !! v) as [[a|]|] eqn:Ev; [|by exists s..]. eexists. split; [done|]. split; [done|]. cbn.
    eapply refs_exact_proper; [|exact Hr]. pose proof (held_overwrite v (Some a) None (vars s) Ev) as H. cbn in H.
    rewrite <- H. solve_Permutation.
  - destruct (Reset_ok v s Hinv) as (s1 & Hs1 & [Hi1 Hr1] & _ & Ev1). rewrite Hs1. cbn. eexists. split; [done|]. split; [done|]. cbn.
    eapply refs_exact_proper; [|exact Hr1]. destruct (vars s !! v) eqn:Ev.
    + assert (vars s1 !! v = Some None) as Ev2 by (by rewrite Ev1, lookup_insert_eq). by rewrite (held_delete v None (vars s1) Ev2).
    + rewrite Ev1, delete_id by done. done.
Qed.

Lemma run_ok ops s : ptr_inv s -> exists s', run ops s = Some s' /\ ptr_inv s'.
Proof.
  revert s. induction ops as [|op ops IH]; intros s Hinv; [by exists s|].
  destruct (exec_ok op s Hinv) as (s1 & Hs1 & Hinv1). cbn. rewrite Hs1. by apply IH.
Qed.

(** Packet pointers are exact: no program of declarations, copies, moves, assignments
    (to itself too), resets, releases and destructions of [PacketPtr]s touches a freed
    message, every message has as many references as variables and released pointers
    that refer to it, and when these are gone no message is left. *)
Theorem packet_ptrs_exact ops s (Hinv : ptr_inv s) :
  exists s', run ops s = Some s' /\
    (forall a o, objs (pool s') !! a = Some o -> refCount o = occurrences a (held (vars s') ++ raws s')) /\
    (vars s' = ∅ -> raws s' = [] -> objs (pool s') = ∅).
Proof.
  destruct (run_ok ops s Hinv) as (s' & Hs & [Hi Hr]). exists s'. split; [done|]. split; [apply Hr|].
  intros Hv Hw. apply map_empty. intros a. destruct (objs (pool s') !! a) as [o|] eqn:Ho; [|done]. exfalso.
  pose proof (proj2 Hr a o Ho) as Hc. rewrite Hv, Hw in Hc. destruct (mi_objs _ _ Hi a o Ho) as (sz & _ & Hf & _).
  unfold held, occurrences in Hc. rewrite map_to_list_empty in Hc. cbn in Hc. lia.
Qed.

End Ptr.
Arguments State Q T : clear implicits.
End Ptr.

(** ** ByteBuffer

    The vector, and the two positions; [None] is the [underflow_error].  The address one
    past the end, formed for an empty copy, is taken as harmless. *)

Module Buffer.

Record ByteBuffer := mkBuffer { _buffer : list Z; _readPos : nat; _writePos : nat }.

Definition ByteBuffer_new : ByteBuffer := mkBuffer [] 0 0.

Definition Append (src : list Z) (b : ByteBuffer) : ByteBuffer :=
  let need := (_writePos b + length src)%nat in
  let buf := if (length (_buffer b) <? need)%nat then _buffer b ++ replicate (need - length (_buffer b)) 0 else _buffer b in
  mkBuffer (splice (_writePos b) src buf) (_readPos b) need.

(** [Write<T>] for an unsigned integer of [n] bytes. *)
Definition Write (n : nat) (value : Z) (b : ByteBuffer) : ByteBuffer := Append (le_bytes n value) b.

(** The length is cut to 16 bits, and as many bytes are written. *)
Definition Write_string (value : list Z) (b : ByteBuffer) : ByteBuffer :=
  let len := u16 (Z.of_nat (length value)) in
  Append (take (Z.to_nat len) value) (Write 2 len b).

Definition WriteBytes (src : list Z) (b : ByteBuffer) : ByteBuffer := Append src b.

Definition read_bytes (n : nat) (b : ByteBuffer) : option (list Z * ByteBuffer) :=
  if (_writePos b <? _readPos b + n)%nat then None
  else Some (sub_list (_readPos b) n (_buffer b), mkBuffer (_buffer b) (_readPos b + n) (_writePos b)).

(** [Read<T>] *)
Definition Read (n : nat) (b : ByteBuffer) : option (Z * ByteBuffer) :=
  '(bs, b) ← read_bytes n b; Some (le_val bs, b).

Definition Read_string (b : ByteBuffer) : option (list Z * ByteBuffer) :=
  '(len, b) ← Read 2 b; read_bytes (Z.to_nat len) b.

Definition Clear (b : ByteBuffer) : ByteBuffer := mkBuffer [] 0 0.
Definition Size (b : ByteBuffer) : nat := _writePos b.
Definition Remaining (b : ByteBuffer) : nat := (_writePos b - _readPos b)%nat.

(** The positions are in order and everything written is there. *)
Record buffer_ok (b : ByteBuffer) : Prop := mk_buffer_ok {
  bo_read : (_readPos b <= _writePos b)%nat;
  bo_write : _writePos b = length (_buffer b)
}.

(** What is still to be read. *)
Definition unread (b : ByteBuffer) : list Z := drop (_readPos b) (_buffer b).

Lemma buffer_ok_new : buffer_ok ByteBuffer_new.
Proof. done. Qed.

Lemma Append_queue src b : buffer_ok b -> buffer_ok (Append src b) /\ unread (Append src b) = unread b ++ src.
Proof.
  intros [Hr Hw]. unfold Append.
  assert ((if (length (_buffer b) <? _writePos b + length src)%nat
           then _buffer b ++ replicate (_writePos b + length src - length (_buffer b)) 0 else _buffer b) =
          _buffer b ++ replicate (length src) 0) as ->.
  { destruct (Nat.ltb_spec (length (_buffer b)) (_writePos b + length src)); [do 2 f_equal; lia|].
    assert (length src = 0%nat) as -> by lia. by rewrite app_nil_r. }
  assert (splice (_writePos b) src (_buffer b ++ replicate (length src) 0) = _buffer b ++ src) as Hs.
  { unfold splice. rewrite Hw, take_app_length, drop_ge; [by rewrite app_nil_r|]. rewrite length_app, length_replicate. lia. }
  rewrite Hs. split; [split; cbn; rewrite ?length_app; lia|]. unfold unread. cbn. rewrite drop_app_le by lia. done.
Qed.

Lemma read_bytes_queue n b : buffer_ok b ->
  read_bytes n b = (if (length (unread b) <? n)%nat then None
                    else Some (take n (unread b), mkBuffer (_buffer b) (_readPos b + n) (_writePos b))).
Proof.
  intros [Hr Hw]. unfold read_bytes, unread, sub_list. rewrite length_drop.
  destruct (Nat.ltb_spec (_writePos b) (_readPos b + n)), (Nat.ltb_spec (length (_buffer b) - _readPos b) n); done || lia.
Qed.

(** A successful read takes its bytes off the front. *)
Lemma read_bytes_rest n b bs b' : buffer_ok b -> read_bytes n b = Some (bs, b') ->
  buffer_ok b' /\ unread b = bs ++ unread b' /\ length bs = n.
Proof.
  intros Hok. rewrite read_bytes_queue by done. destruct (_ <? _)%nat eqn:E; [done|]. apply Nat.ltb_ge in E.
  intros [= <- <-]. destruct Hok as [Hr Hw]. unfold unread in *. rewrite length_drop in E. cbn. split; [split; cbn; lia|].
  rewrite <- drop_drop, take_drop. split; [done|]. rewrite length_take, length_drop. lia.
Qed.

Lemma read_written n bs rest b : buffer_ok b -> unread b = bs ++ rest -> length bs = n ->
  exists b', read_bytes n b = Some (bs, b') /\ buffer_ok b' /\ unread b' = rest.
Proof.
  intros Hok Hu Hn. destruct (read_bytes n b) as [[bs' b']|] eqn:E.
  - destruct (read_bytes_rest n b bs' b' Hok E) as (Hok' & Hu' & Hn'). rewrite Hu in Hu'.
    apply app_inj_1 in Hu' as [-> ->]; [|lia]. by exists b'.
  - rewrite read_bytes_queue in E by done. destruct (_ <? _)%nat eqn:El; [|done]. apply Nat.ltb_lt in El.
    rewrite Hu, length_app in El. lia.
Qed.

(** Typed values, as a program writes and reads them. *)
Inductive Value := Int (n : nat) (z : Z) | Str (bytes : list Z) | Raw (bytes : list Z).

Definition write_value (v : Value) : ByteBuffer -> ByteBuffer :=
  match v with Int n z => Write n z | Str s => Write_string s | Raw s => WriteBytes s end.

Definition read_value (v : Value) (b : ByteBuffer) : option (Value * ByteBuffer) :=
  match v with
  | Int n _ => '(z, b) ← Read n b; Some (Int n z, b)
  | Str _ => '(s, b) ← Read_string b; Some (Str s, b)
  | Raw s => '(s, b) ← read_bytes (length s) b; Some (Raw s, b)
  end.

Fixpoint read_values (vs : list Value) (b : ByteBuffer) : option (list Value * ByteBuffer) :=
  match vs with
  | [] => Some ([], b)
  | v :: vs => '(x, b) ← read_value v b; '(xs, b) ← read_values vs b; Some (x :: xs, b)
  end.

(** What a value becomes: integers at their width, strings up to their 16-bit length. *)
Definition stored (v : Value) : Value :=
  match v with
  | Int n z => Int n (z mod 256 ^ Z.of_nat n)
  | Str s => Str (take (Z.to_nat (u16 (Z.of_nat (length s)))) s)
  | Raw s => Raw s
  end.

Definition image (v : Value) : list Z :=
  match v with
  | Int n z => le_bytes n z
  | Str s => let len := u16 (Z.of_nat (length s)) in le_bytes 2 len ++ take (Z.to_nat len) s
  | Raw s => s
  end.

Lemma write_value_queue v b : buffer_ok b -> buffer_ok (write_value v b) /\ unread (write_value v b) = unread b ++ image v.
Proof.
  intros Hok. destruct v as [n z|s|s]; cbn [write_value image]; [by apply Append_queue| |by apply Append_queue].
  unfold Write_string. destruct (Append_queue (le_bytes 2 (u16 (Z.of_nat (length s)))) b Hok) as [H1 H2].
  destruct (Append_queue (take (Z.to_nat (u16 (Z.of_nat (length s)))) s) (Write 2 (u16 (Z.of_nat (length s))) b) H1) as [H3 H4].
  split; [done|]. rewrite H4. unfold Write. rewrite H2. by rewrite <- app_assoc.
Qed.

Lemma write_values_queue vs b : buffer_ok b ->
  let b' := foldl (fun b v => write_value v b) b vs in buffer_ok b' /\ unread b' = unread b ++ concat (map image vs).
Proof.
  revert b. induction vs as [|v vs IH]; intros b Hok; cbn; [by rewrite app_nil_r|].
  destruct (write_value_queue v b Hok) as [H1 H2]. destruct (IH _ H1) as [H3 H4]. split; [done|].
  rewrite H4, H2. by rewrite <- app_assoc.
Qed.

Lemma read_value_image v rest b : buffer_ok b -> unread b = image v ++ rest ->
  exists b', read_value v b = Some (stored v, b') /\ buffer_ok b' /\ unread b' = rest.
Proof.
  intros Hok Hu. destruct v as [n z|s|s]; cbn [read_value stored image] in *.
  - destruct (read_written n _ rest b Hok Hu (length_le_bytes n z)) as (b' & Hb & Hok' & Hu'). unfold Read. rewrite Hb. cbn.
    exists b'. by rewrite le_val_le_bytes.
  - set (len := u16 (Z.of_nat (length s))) in *. rewrite <- app_assoc in Hu.
    assert (in_u 16 len) as Hlen by (apply wrap_bound; lia). unfold in_u in Hlen.
    destruct (read_written 2 _ _ b Hok Hu (length_le_bytes 2 len)) as (b1 & Hb1 & Hok1 & Hu1).
    unfold Read_string, Read. rewrite Hb1. cbn [mbind option_bind].
    rewrite le_val_le_bytes, Z.mod_small by (change (256 ^ Z.of_nat 2) with (2 ^ 16); lia).
    destruct (read_written (Z.to_nat len) _ _ b1 Hok1 Hu1) as (b2 & Hb2 & Hok2 & Hu2).
    { rewrite length_take. assert (len <= Z.of_nat (length s)); [|lia]. unfold len, wrap. apply Z.mod_le; lia. }
    rewrite Hb2. cbn. by exists b2.
  - destruct (read_written (length s) _ rest b Hok Hu eq_refl) as (b' & Hb & Hok' & Hu'). rewrite Hb. cbn. by exists b'.
Qed.

(** What is written to a byte buffer is read back: integers of any width at their
    width, strings (up to their length modulo 2^16) and raw bytes, mixed in any order, in
    the order they were written, whatever was in the buffer before; reading further fails
    instead of going past the end. *)
Theorem byte_buffer_roundtrip vs b (Hok : buffer_ok b) (Hempty : unread b = []) :
  exists b', read_values vs (foldl (fun b v => write_value v b) b vs) = Some (map stored vs, b') /\
    Remaining b' = 0%nat /\ forall n, (0 < n)%nat -> read_bytes n b' = None.
Proof.
  destruct (write_values_queue vs b Hok) as [H1 H2]. rewrite Hempty in H2. cbn [app] in H2.
  assert (exists b', read_values vs (foldl (fun b v => write_value v b) b vs) = Some (map stored vs, b') /\
            buffer_ok b' /\ unread b' = []) as (b' & Hb & Hok' & Hu').
  { revert H1 H2. generalize (foldl (fun b v => write_value v b) b vs). clear Hok Hempty b.
    induction vs as [|v vs IH]; intros b Hok Hu; [by exists b|]. cbn in Hu |- *.
    destruct (read_value_image v _ b Hok Hu) as (b1 & Hb1 & Hok1 & Hu1). rewrite Hb1. cbn.
    destruct (IH b1 Hok1 Hu1) as (b2 & Hb2 & Hok2 & Hu2). rewrite Hb2. cbn. by exists b2. }
  exists b'. split; [done|]. split.
  - destruct Hok' as [Hr Hw]. unfold Remaining, unread in *. apply (f_equal length) in Hu'. rewrite length_drop in Hu'. cbn in Hu'. lia.
  - intros n Hn. rewrite read_bytes_queue, Hu' by done. by destruct n; [lia|].
Qed.

End Buffer.

(** ** Serialisation of packets *)

Module Serialise.

(** A protobuf message: [ByteSizeLong] is the length of its encoding, and
    [SerializeToArray] writes the encoding if the given size has room for it.  Messages are
    smaller than 2 GiB. *)
Class Protobuf (P : Type) := {
  encoding : P -> list Z;
  encoding_bytes : forall p, Forall is_byte (encoding p);
  encoding_limit : forall p, Z.of_nat (length (encoding p)) < 2 ^ 31
}.

Section Packets.
Context {P : Type} `{!Protobuf P}.

(** [TDerived::ID] *)
Context (ID : Z).

Definition MaxPacketSize : Z := 65535.

Definition ByteSizeLong (p : P) : Z := Z.of_nat (length (encoding p)).
Definition SerializeToArray (p : P) (size : Z) : option (list Z) :=
  if size <? ByteSizeLong p then None else Some (encoding p).

(** [None]: the process aborts. *)
Definition CalculateSafeSize (bodySize : Z) : option Z :=
  let totalSize := u64 (PacketHeader_SIZE + bodySize) in
  if MaxPacketSize <? totalSize then None else Some totalSize.

Definition GetBodySize (p : P) : Z := ByteSizeLong p.
Definition PacketBase_GetTotalSize (p : P) : option Z := CalculateSafeSize (GetBodySize p).

(** What goes to the body: first with the margin, then with the exact size. *)
Definition SerializeBodyTo (p : P) : list Z :=
  let bodySize := GetBodySize p in
  let safeSize := u64 (u64 (bodySize + bodySize / 10) + 16) in
  match SerializeToArray p (i32 safeSize) with
  | Some bs => bs
  | None => default [] (SerializeToArray p (i32 bodySize))
  end.

(** [SerializeTo] on a buffer; [None]: abort, or a write outside the buffer. *)
Definition PacketBase_SerializeTo (p : P) (buffer : list Z) : option (list Z) :=
  total ← PacketBase_GetTotalSize p;
  if Z.of_nat (length buffer) <? PacketHeader_SIZE then None else
  let buffer := splice 0 (encode_header (mkPacketHeader total ID)) buffer in
  let body := SerializeBodyTo p in
  if (length buffer <? Z.to_nat PacketHeader_SIZE + length body)%nat then None
  else Some (splice (Z.to_nat PacketHeader_SIZE) body buffer).

Lemma SerializeTo_length p buffer bytes : PacketBase_SerializeTo p buffer = Some bytes -> length bytes = length buffer.
Proof.
  unfold PacketBase_SerializeTo. destruct (PacketBase_GetTotalSize p) as [total|]; [|done]. cbn [mbind option_bind].
  unfold PacketHeader_SIZE. destruct (_ <? 4) eqn:E; [done|]. bool_to_prop.
  assert (length (splice 0 (encode_header (mkPacketHeader total ID)) buffer) = length buffer) as El
    by (apply length_splice; rewrite length_encode_header; lia).
  rewrite El. destruct (Nat.ltb_spec (length buffer) (Z.to_nat 4 + length (SerializeBodyTo p))); [done|]. intros [= <-].
  rewrite length_splice; [done|]. by rewrite El.
Qed.

(** The margin never makes [SerializeToArray] fail. *)
Lemma body_is_encoding p : ByteSizeLong p <= MaxPacketSize -> SerializeBodyTo p = encoding p.
Proof.
  unfold SerializeBodyTo, SerializeToArray, GetBodySize, MaxPacketSize. set (n := ByteSizeLong p). intros Hn.
  assert (0 <= n) by (unfold n, ByteSizeLong; lia). assert (0 <= n / 10 <= n) by (split; [apply Z.div_pos; lia|apply Z.div_le_upper_bound; lia]).
  rewrite !(wrap_small 64) by (unfold in_u; lia || (rewrite wrap_small; unfold in_u; lia)).
  rewrite swrap_small by lia. destruct (_ <? n) eqn:E; [bool_to_prop; lia|done].
Qed.

(** C9: Serialising a packet is exact: into a buffer of the size the packet announces it
    writes the header with that size and the packet's number, then the encoding, and
    nothing else, for every message that fits; the result is a packet the receiving
    sessions reassemble.  A message that does not fit aborts the process and is never
    truncated. *)
Theorem serialised_packets_are_good p (Hid : in_u 16 ID) :
  match PacketBase_GetTotalSize p with
  | Some total =>
      PacketBase_SerializeTo p (replicate (Z.to_nat total) 0) = Some (encode_header (mkPacketHeader total ID) ++ encoding p) /\
      good_packet (fun _ => True) (encode_header (mkPacketHeader total ID) ++ encoding p) /\
      ph_id (decode_header (encode_header (mkPacketHeader total ID) ++ encoding p)) = ID /\
      total = PacketHeader_SIZE + Z.of_nat (length (encoding p))
  | None => MaxPacketSize < PacketHeader_SIZE + Z.of_nat (length (encoding p))
  end.
Proof.
  pose proof (encoding_limit p) as Hlim. unfold PacketBase_SerializeTo, PacketBase_GetTotalSize, CalculateSafeSize, GetBodySize.
  unfold ByteSizeLong in *. set (n := Z.of_nat (length (encoding p))) in *. assert (0 <= n) by lia.
  rewrite wrap_small by (unfold in_u, PacketHeader_SIZE; lia).
  destruct (MaxPacketSize <? PacketHeader_SIZE + n) eqn:E; bool_to_prop; [done|]. unfold MaxPacketSize, PacketHeader_SIZE in E.
  set (total := PacketHeader_SIZE + n). assert (total = 4 + n) as Et by done. set (h := mkPacketHeader total ID).
  assert (ph_size (decode_header (encode_header h ++ encoding p)) = total /\ ph_id (decode_header (encode_header h ++ encoding p)) = ID) as [Hs Hi].
  { rewrite decode_encode_header; [done|unfold in_u; cbn; lia|done]. }
  split; [|split; [|by split]].
  - cbn [mbind option_bind]. rewrite length_replicate. destruct (_ <? PacketHeader_SIZE) eqn:E1; [bool_to_prop; unfold PacketHeader_SIZE in *; lia|].
    rewrite body_is_encoding by (unfold ByteSizeLong, MaxPacketSize; fold n; lia).
    rewrite length_splice by (rewrite length_encode_header, length_replicate; lia). rewrite length_replicate.
    destruct (Nat.ltb_spec (Z.to_nat total) (Z.to_nat PacketHeader_SIZE + length (encoding p))) as [Hl|Hl];
      [unfold PacketHeader_SIZE in *; lia|]. f_equal.
    change (Z.to_nat PacketHeader_SIZE) with (0 + length (encode_header h))%nat.
    rewrite splice_app by (rewrite length_encode_header, length_replicate; lia). apply splice_all.
    rewrite length_app, length_encode_header, length_replicate. lia.
  - split; [|split; [|split; [|done]]].
    + apply Forall_app. split; [|apply encoding_bytes]. unfold encode_header. apply Forall_app. split; apply le_bytes_is_byte.
    + rewrite length_app, length_encode_header. lia.
    + rewrite Hs, length_app, length_encode_header. lia.
Qed.

(** ** PacketBuilder *)

Context {Q : Type -> Type} `{!ConcurrentQueue Q} {T : Type}.
Context (sizeofPM : Z) (tid : nat).
Implicit Types m : Mem Q T.

(** The message, with one reference of the caller's. *)
Definition Build (p : P) m : option (Z * Mem Q T) :=
  size ← PacketBase_GetTotalSize p;
  let '(a, m) := AllocatePacket sizeofPM tid size m in
  bytes ← PacketBase_SerializeTo p (replicate (Z.to_nat size) 0);
  o ← objs m !! a;
  Some (a, put_obj a (set_payload bytes o) m).

(** [BuildShared]: the pointer takes that reference over. *)
Definition BuildShared (p : P) (v : nat) (s : Ptr.State Q T) : option (Ptr.State Q T) :=
  '(a, m) ← Build p (Ptr.pool s);
  Some (Ptr.mkState (<[v := Some a]> (Ptr.vars s)) (Ptr.raws s) m).

(** The message built carries the packet, is referred to once, and disturbs no other. *)
Theorem built_message_carries_packet p m l total bytes
  (Hi : mem_inv sizeofPM m) (Hr : refs_exact m l)
  (Ht : PacketBase_GetTotalSize p = Some total)
  (Hb : PacketBase_SerializeTo p (replicate (Z.to_nat total) 0) = Some bytes) :
  exists a m', Build p m = Some (a, m') /\ mem_inv sizeofPM m' /\ refs_exact m' (a :: l) /\ carries m' a bytes /\
    forall b, b <> a -> objs m' !! b = objs m !! b.
Proof.
  unfold Build. rewrite Ht. cbn [mbind option_bind]. destruct (AllocatePacket sizeofPM tid total m) as [a m1] eqn:Ea.
  destruct (AllocatePacket_spec sizeofPM tid total m a m1 Hi Ea) as (o & Ho & Hi1 & Hn & Hc & Hty & Hbody & _).
  rewrite Hb. cbn [mbind option_bind]. assert (objs m1 !! a = Some o) as Hoa by (by rewrite Ho, lookup_insert_eq).
  rewrite Hoa. cbn. do 2 eexists. split; [done|].
  assert (total = Z.of_nat (length bytes)) as El.
  { rewrite (SerializeTo_length p _ _ Hb), length_replicate. unfold PacketBase_GetTotalSize, CalculateSafeSize in Ht.
    destruct (_ <? _); [done|]. injection Ht as <-. rewrite Z2Nat.id; [done|].
    pose proof (wrap_bound 64 (PacketHeader_SIZE + GetBodySize p) ltac:(lia)) as [? _]. done. }
  split; [|split; [|split]].
  - eapply (put_live_inv sizeofPM a o); [done|done|]. intros s (H1 & H2 & H3). split; [done|].
    unfold obj_fits, msg_length, free_level, msg_length in *. cbn. rewrite Hty, Hbody in *. by split.
  - apply (refs_exact_fresh m _ l a (set_payload bytes o)); [done|done| |done]. cbn. by rewrite Ho, insert_insert_eq.
  - exists (set_payload bytes o). cbn. rewrite lookup_insert_eq. split; [done|]. rewrite Hbody. by rewrite <- El.
  - intros b Hne. cbn. rewrite Ho. by rewrite !lookup_insert_ne.
Qed.

End Packets.
End Serialise.

(** ** Witnesses *)

(** Two pointers to one message; the first is assigned from itself and reset. *)
Definition demo_ops : list Ptr.PtrOp :=
  [Ptr.PBuild 0 100; Ptr.PCopy 1 0; Ptr.PAssign 0 0; Ptr.PMoveAssign 0 1; Ptr.PDestroy 1; Ptr.PReset 0].

Definition demo_ptrs : Ptr.State list unit := Ptr.mkState ∅ [] Mem_new.

Lemma demo_ptrs_inv : Ptr.ptr_inv 40 demo_ptrs.
Proof.
  split; [apply Mem_new_inv|]. cbn. unfold Ptr.held. rewrite map_to_list_empty. cbn.
  split; [by intros a ?%elem_of_nil|]. intros a o. cbn. by rewrite lookup_empty.
Qed.

Lemma packet_ptrs_exact_witness :
  exists s', Ptr.run 40 0 demo_ops demo_ptrs = Some s' /\
    (forall a o, objs (Ptr.pool s') !! a = Some o -> refCount o = occurrences a (Ptr.held (Ptr.vars s') ++ Ptr.raws s')) /\
    (Ptr.vars s' = ∅ -> Ptr.raws s' = [] -> objs (Ptr.pool s') = ∅).
Proof. exact (Ptr.packet_ptrs_exact 40 0 demo_ops demo_ptrs demo_ptrs_inv). Defined.

Lemma byte_buffer_roundtrip_witness :
  exists b', Buffer.read_values [Buffer.Int 2 70000; Buffer.Str [104; 105]; Buffer.Raw [1]]
    (foldl (fun b v => Buffer.write_value v b) Buffer.ByteBuffer_new [Buffer.Int 2 70000; Buffer.Str [104; 105]; Buffer.Raw [1]]) =
    Some ([Buffer.Int 2 4464; Buffer.Str [104; 105]; Buffer.Raw [1]], b') /\
    Buffer.Remaining b' = 0%nat /\ forall n, (0 < n)%nat -> Buffer.read_bytes n b' = None.
Proof. exact (Buffer.byte_buffer_roundtrip _ Buffer.ByteBuffer_new Buffer.buffer_ok_new eq_refl). Defined.

#[local] Program Instance bool_proto : Serialise.Protobuf bool := { encoding b := [if b then 1 else 0] }.
Next Obligation. intros []; repeat constructor; unfold is_byte; lia. Qed.
Next Obligation. intros []; cbn; lia. Qed.

Lemma serialised_packets_are_good_witness :
  Serialise.PacketBase_SerializeTo 7 true (replicate 5 0) = Some [5; 0; 7; 0; 1].
Proof. exact (proj1 (Serialise.serialised_packets_are_good 7 true ltac:(unfold in_u; lia))). Defined.

Lemma built_message_carries_packet_witness :
  exists a m', Serialise.Build 7 40 0 true (Mem_new (Q := list) (T := unit)) = Some (a, m') /\ carries m' a [5; 0; 7; 0; 1].
Proof.
  destruct (Serialise.built_message_carries_packet 7 40 0 true Mem_new [] 5 [5; 0; 7; 0; 1] (Mem_new_inv 40)
    ltac:(by apply demo_ptrs_inv) eq_refl eq_refl) as (a & m' & H1 & _ & _ & H2 & _).
  exists a, m'. split; [exact H1|exact H2].
Defined.
