(* ===== verification/UdpSession.v ===== *)
(** * UdpSession: sessions over datagrams, and the receiving side of the network

    Models src/System/Session/UDPSession.cpp, src/System/Session/UDP/KCPAdapter.cpp
    and the receive half of src/System/Network/UDPNetworkImpl.cpp.

    The reliable transport below [KCPAdapter] is the third-party library ikcp: its
    functions are the operations of the class [Ikcp], over an arbitrary type of
    control blocks.  A library call that emits packets returns them in order; the
    adapter passes each to the output callback.  A session of the UDP network runs
    in the monad of [Session] with the network as part of its state. *)

From stdpp Require Import base numbers gmap functions list.
From S2P Require Import Prelude ConcurrentQueue Messages MessagePool Session UdpRegistry UdpNetwork.

(** ** ikcp and KCPAdapter

    [ikcp_recv k n] is the return value, the bytes written to the buffer and the
    new state; [ikcp_queued] counts the messages ready to be received.  The law is
    the documented contract of [ikcp_recv]: a positive return value is the size of
    one message, which fits the buffer and leaves the queue. *)

Class Ikcp (I : Type) := {
  ikcp_create : Z -> option I;
  ikcp_nodelay : Z -> Z -> Z -> Z -> I -> I;
  ikcp_wndsize : Z -> Z -> I -> I;
  ikcp_send : list Z -> I -> Z * I;
  ikcp_input : list Z -> I -> Z * I;
  ikcp_update : Z -> I -> I * list (list Z);
  ikcp_flush : I -> I * list (list Z);
  ikcp_recv : I -> Z -> Z * list Z * I;
  ikcp_queued : I -> nat;
  ikcp_recv_law : forall k n r data k', ikcp_recv k n = (r, data, k') -> 0 < r ->
    r = Z.of_nat (length data) /\ r <= n /\ (ikcp_queued k' < ikcp_queued k)%nat
}.

Section KCPAdapter.
Context {I : Type} `{!Ikcp I}.

Record KCPAdapter := mkKcp { _kcp : option I }.

Definition KCPAdapter_new (conv : Z) : KCPAdapter :=
  mkKcp (k ← ikcp_create conv; Some (ikcp_wndsize 128 128 (ikcp_nodelay 1 20 2 1 k))).

Definition kcp_Send (data : list Z) (a : KCPAdapter) : Z * KCPAdapter :=
  match _kcp a with
  | None => (-1, a)
  | Some k => let '(r, k') := ikcp_send data k in (r, mkKcp (Some k'))
  end.

Definition kcp_Input (data : list Z) (a : KCPAdapter) : Z * KCPAdapter :=
  match _kcp a with
  | None => (-1, a)
  | Some k => let '(r, k') := ikcp_input data k in (r, mkKcp (Some k'))
  end.

(** [Update] and [Output] with the packets passed to [RecvOutput]. *)
Definition kcp_Update (current : Z) (a : KCPAdapter) : KCPAdapter * list (list Z) :=
  match _kcp a with
  | None => (a, [])
  | Some k => let '(k', out) := ikcp_update current k in (mkKcp (Some k'), out)
  end.

Definition kcp_Output (a : KCPAdapter) : Z * KCPAdapter * list (list Z) :=
  match _kcp a with
  | None => (0, a, [])
  | Some k => let '(k', out) := ikcp_flush k in (0, mkKcp (Some k'), out)
  end.

Definition kcp_Recv (maxSize : Z) (a : KCPAdapter) : Z * list Z * KCPAdapter :=
  match _kcp a with
  | None => (-1, [], a)
  | Some k => let '(r, data, k') := ikcp_recv k maxSize in (r, data, mkKcp (Some k'))
  end.

Definition kcp_queued (a : KCPAdapter) : nat := match _kcp a with Some k => ikcp_queued k | None => 0 end.

Lemma kcp_Recv_law a n r data a' :
  kcp_Recv n a = (r, data, a') -> 0 < r ->
  r = Z.of_nat (length data) /\ r <= n /\ (kcp_queued a' < kcp_queued a)%nat.
Proof.
  unfold kcp_Recv, kcp_queued. destruct (_kcp a) as [k|] eqn:Ek.
  - destruct (ikcp_recv k n) as [[r0 d0] k'] eqn:E. intros [= <- <- <-] Hr. by apply (ikcp_recv_law k n r0 d0 k').
  - intros [= <- <- <-]. lia.
Qed.

End KCPAdapter.
Arguments KCPAdapter I : clear implicits.
Arguments mkKcp {I} _.

(** ** UDPSession *)

(** [UDPSessionImpl]; [endpoint] is [None] when default-constructed, [network]
    tells whether the pointer is set. *)
Record UDPSessionImpl (I : Type) := mkUdp {
  endpoint : option Z;
  lastActivity : Z;
  network : bool;
  udpToken : uint128_t;
  kcp : option (KCPAdapter I)
}.
Arguments mkUdp {I} _ _ _ _ _.
Arguments endpoint {I} _.
Arguments lastActivity {I} _.
Arguments network {I} _.
Arguments udpToken {I} _.
Arguments kcp {I} _.

(** The state of a session's methods: its own part and the network's. *)
Record UdpState (Q : Type -> Type) (I : Type) := mkUS { self : UDPSessionImpl I; unet : UdpNet Q }.
Arguments mkUS {Q I} _ _.
Arguments self {Q I} _.
Arguments unet {Q I} _.

Section UDPSession.
Context {Q : Type -> Type} `{!ConcurrentQueue Q} {T I : Type} `{!Ikcp I}.
Context (sizeofPM : Z) (tid : nat) (this : Z).

Abbreviation MU := (M Q T (UdpState Q I)).

Definition set_self (f : UDPSessionImpl I -> UDPSessionImpl I) : MU unit :=
  modify_impl (fun x => mkUS (f (self x)) (unet x)).

Definition get_self {A} (f : UDPSessionImpl I -> A) : MU A := gets (fun w => f (self (impl w))).

(** A call into the network. *)
Definition net_call (f : NetWorld Q T -> option (NetWorld Q T)) : MU unit :=
  fun w => s ← f (mkNW (unet (impl w)) (mem w));
           Some (tt, mkWorld (ses w) (mkUS (self (impl w)) (net s)) (nmem s) (posted w) (io w)).

(** Sending to a default-constructed endpoint is not modelled: [0] names it. *)
Definition async_send (now tg msg len : Z) : MU unit :=
  ep ← get_self endpoint; tok ← get_self udpToken; sid ← GetId;
  net_call (AsyncSend tid now (default 0 ep) tg sid tok msg len).

Definition UpdateActivity (now : Z) : MU unit :=
  set_self (fun i => mkUdp (endpoint i) now (network i) (udpToken i) (kcp i)).

Definition SetNetwork (n : bool) : MU unit :=
  set_self (fun i => mkUdp (endpoint i) (lastActivity i) n (udpToken i) (kcp i)).

Definition SetUdpToken (t : uint128_t) : MU unit :=
  set_self (fun i => mkUdp (endpoint i) (lastActivity i) (network i) t (kcp i)).

Definition set_kcp (k : option (KCPAdapter I)) : MU unit :=
  set_self (fun i => mkUdp (endpoint i) (lastActivity i) (network i) (udpToken i) k).

(** The output callback installed by [Reset]. *)
Definition kcp_output (now : Z) (buf : list Z) : MU unit :=
  n ← get_self network;
  if negb n then mret () else
  let len := u16 (Z.of_nat (length buf)) in
  msg ← pool_call (AllocatePacket sizeofPM tid len);
  store msg (set_payload buf);;
  async_send now TAG_KCP msg len.

Fixpoint kcp_outputs (now : Z) (out : list (list Z)) : MU unit :=
  match out with [] => mret () | b :: out => kcp_output now b;; kcp_outputs now out end.

Definition Reset (sessionId : Z) (dispatcher : bool) (ep now : Z) (token : uint128_t) : MU unit :=
  Session_Reset tid;;
  modify_ses (set_id sessionId);;
  modify_ses (set_dispatcher dispatcher);;
  modify_ses (set_connected true);;
  set_self (fun i => mkUdp (Some ep) now (network i) token (Some (KCPAdapter_new (u32 sessionId)))).

Definition OnRecycle : MU unit :=
  set_self (fun i => mkUdp None (lastActivity i) false (udpToken i) None);;
  modify_ses (set_connected false);;
  q ← gets (fun w => _sendQueue (ses w));
  let '(ps, q') := drain_all q in
  modify_ses (set_sendQueue q');;
  free_all tid ps.

(** The part common to both branches of [HandleData]. *)
Definition post_data (data : list Z) : MU unit :=
  d ← gets (fun w => _dispatcher (ses w));
  if d : bool then
    msg ← pool_call (AllocatePacket sizeofPM tid (u16 (Z.of_nat (length data))));
    sid ← GetId;
    store msg (tag_message NETWORK_DATA sid this);;
    store msg (set_payload data);;
    IncRef;;
    post msg
  else mret ().

(** [while ((n = kcp->Recv(buffer, 2048)) > 0) ...]; the fuel is the number of
    messages the library has ready, plus one. *)
Fixpoint recv_kcp (fuel : nat) (a : KCPAdapter I) : MU (KCPAdapter I) :=
  match fuel with
  | O => fun _ => None
  | S fuel =>
      let '(r, data, a') := kcp_Recv 2048 a in
      if 0 <? r then post_data data;; recv_kcp fuel a' else mret a'
  end.

Definition HandleData (now : Z) (data : list Z) (isKCP : bool) : MU unit :=
  UpdateActivity now;;
  k ← get_self kcp;
  match (if isKCP then k else None) with
  | Some a =>
      let a1 := (kcp_Input data a).2 in
      a2 ← recv_kcp (S (kcp_queued a1)) a1;
      set_kcp (Some a2)
  | None => post_data data
  end.

Definition OnConnect : MU unit := modify_ses (set_connected true).

Definition OnDisconnect : MU unit := modify_ses (set_connected false).

Definition Close : MU unit := OnDisconnect.

(** The packet's bytes go through a stack or a heap buffer of its size. *)
Definition SendReliable (now : Z) (pkt : IPacket) : MU unit :=
  c ← IsConnected;
  if negb c then mret () else
  let size := Z.to_nat (u16 (GetTotalSize pkt)) in
  let data := take size (SerializeTo pkt ++ replicate size 0) in
  k ← get_self kcp;
  match k with
  | None => mret ()
  | Some a =>
      let a1 := (kcp_Send data a).2 in
      let '(a2, out) := kcp_Update (u32 now) a1 in
      set_kcp (Some a2);; kcp_outputs now out
  end.

Definition UpdateKCP (now currentMs : Z) : MU unit :=
  k ← get_self kcp;
  match k with
  | None => mret ()
  | Some a => let '(a', out) := kcp_Update currentMs a in set_kcp (Some a');; kcp_outputs now out
  end.

(** The inner loop of [Flush], over the messages dequeued. *)
Fixpoint send_all (now : Z) (ps : list Z) : MU unit :=
  match ps with
  | [] => mret ()
  | p :: ps => o ← deref p; async_send now TAG_RAW_UDP p (msg_length o);; send_all now ps
  end.

Fixpoint flush_loop (fuel : nat) (now : Z) : MU unit :=
  match fuel with
  | O => fun _ => None
  | S fuel =>
      q ← gets (fun w => _sendQueue (ses w));
      let '(ps, q') := drain_all q in
      modify_ses (set_sendQueue q');;
      send_all now ps;;
      modify_ses (set_isSending false);;
      q ← gets (fun w => _sendQueue (ses w));
      match try_dequeue q with
      | None => mret ()
      | Some (m, q'') =>
          modify_ses (set_sendQueue (enqueue m q''));;
          was ← gets (fun w => _isSending (ses w));
          if was : bool then mret () else modify_ses (set_isSending true);; flush_loop fuel now
      end
  end.

Definition Flush (now : Z) : MU unit :=
  n ← get_self network;
  if negb n then
    q ← gets (fun w => _sendQueue (ses w));
    let '(ps, q') := drain_all q in
    modify_ses (set_sendQueue q');;
    free_all tid ps
  else flush_loop 2 now.

Definition SendUnreliable (now : Z) (pkt : IPacket) : MU unit := SendPacket sizeofPM tid (Flush now) pkt.

End UDPSession.

(** ** UDPNetworkImpl::HandleReceive

    The sessions the registry's pointers refer to: [Some] a [UDPSession], or
    [None] for a session of another class (on which the [dynamic_cast] fails).  A
    pointer not in the map dangles. *)

Record RecvWorld (Q : Type -> Type) (T I : Type) := mkRW {
  r_sessions : gmap Z (option (Session Q * UDPSessionImpl I));
  r_registry : option Registry.UDPEndpointRegistry;
  r_dispatcher : bool;
  r_net : UdpNet Q;
  r_mem : Mem Q T;
  r_posted : list Z
}.
Arguments mkRW {Q T I} _ _ _ _ _ _.
Arguments r_sessions {Q T I} _.
Arguments r_registry {Q T I} _.
Arguments r_dispatcher {Q T I} _.
Arguments r_net {Q T I} _.
Arguments r_mem {Q T I} _.
Arguments r_posted {Q T I} _.

Section Receive.
Context {Q : Type -> Type} `{!ConcurrentQueue Q} {T I : Type} `{!Ikcp I}.
Context (sizeofPM : Z) (tid : nat).
Implicit Types v : RecvWorld Q T I.

Definition set_rnet (n : UdpNet Q) v : RecvWorld Q T I :=
  mkRW (r_sessions v) (r_registry v) (r_dispatcher v) n (r_mem v) (r_posted v).

Definition set_registry (r : Registry.UDPEndpointRegistry) v : RecvWorld Q T I :=
  mkRW (r_sessions v) (Some r) (r_dispatcher v) (r_net v) (r_mem v) (r_posted v).

(** Calling a method of the session at [p], if it is a [UDPSession]. *)
Definition call_udp (p : Z) (method : M Q T (UdpState Q I) unit) v : option (RecvWorld Q T I) :=
  entry ← r_sessions v !! p;
  match entry with
  | None => Some v
  | Some (s, i) =>
      '(_, w) ← method (mkWorld s (mkUS i (r_net v)) (r_mem v) (r_posted v) []);
      Some (mkRW (<[p := Some (ses w, self (impl w))]> (r_sessions v)) (r_registry v) (r_dispatcher v)
              (unet (impl w)) (mem w) (posted w))
  end.

Definition rearm v : RecvWorld Q T I := set_rnet (StartReceive (r_net v)) v.

(** [find_session]: by the sender's endpoint, else by the token of the header. *)
Definition find_session (r : Registry.UDPEndpointRegistry) (sender : Z) (h : UDPTransportHeader) : option Z :=
  match Registry.Find sender r with
  | Some p => Some p
  | None => Registry.GetEndpointByToken (h_udpToken h) r
  end.

(** [data]: the bytes received.  The completed receive is no longer outstanding. *)
Definition HandleReceive (now : Z) (error : bool) (data : list Z) (sender : Z) v : option (RecvWorld Q T I) :=
  let v := set_rnet (set_receiving false (r_net v)) v in
  if _isStopping (r_net v) then Some v else
  if error then Some v else
  if decide (UDPTransportHeader_SIZE < length data)%nat then
    match r_registry v, r_dispatcher v with
    | Some r, true =>
        let h := decode_udp_header data in
        if negb (IsValid h) then Some (rearm v) else
        match find_session r sender h with
        | None => Some (rearm v)
        | Some p =>
            let v := set_registry (Registry.UpdateActivity now sender r) v in
            v' ← call_udp p (HandleData sizeofPM tid p now (drop UDPTransportHeader_SIZE data) (IsKCP h)) v;
            Some (rearm v')
        end
    | _, _ => Some (rearm v)
    end
  else Some (rearm v).

End Receive.

(** ** Invariant

    All references to messages are accounted for: by the network's contexts, the
    session's send queue, the dispatcher's queue and the rest of the program
    ([owned]). *)

Section Proofs.
Context {Q : Type -> Type} `{!ConcurrentQueue Q} {T I : Type} `{!Ikcp I}.
Context (sizeofPM : Z) (tid : nat) (this : Z).
Implicit Types w : World Q T (UdpState Q I).
Implicit Types m : Mem Q T.

Definition udp_inv (owned : list Z) w : Prop :=
  net_inv sizeofPM [] (contents (_sendQueue (ses w)) ++ posted w ++ owned) (mkNW (unet (impl w)) (mem w)).

Lemma put_obj_twice p o1 o2 m : put_obj p o2 (put_obj p o1 m) = put_obj p o2 m.
Proof. unfold put_obj, set_objs. cbn. by rewrite insert_insert_eq. Qed.

(** A new packet, after the assignments to its fields. *)
Lemma new_packet_exact len l m p m1 o2 :
  mem_inv sizeofPM m -> refs_exact m l -> AllocatePacket sizeofPM tid len m = (p, m1) ->
  refCount o2 = 1 -> msg_length o2 = len -> isPooled o2 = (len <=? LARGE_BODY_SIZE) ->
  mem_inv sizeofPM (put_obj p o2 m1) /\ refs_exact (put_obj p o2 m1) (p :: l) /\
  objs m !! p = None /\ objs (put_obj p o2 m1) = <[p := o2]> (objs m).
Proof.
  intros Hi Hrefs Ha Hr Hlen Hpo.
  destruct (AllocatePacket_spec sizeofPM tid len m p m1 Hi Ha)
    as (o & Ho & Hi1 & Hn & Hrc & Hty & Hb & _ & Hpl & s & Hs & Hsz & Hbl).
  assert (objs (put_obj p o2 m1) = <[p := o2]> (objs m)) as Hob by (cbn; by rewrite Ho, insert_insert_eq).
  split_and!; [| |done|done].
  - eapply (put_live_inv sizeofPM p o); [done|by rewrite Ho, lookup_insert_eq|].
    intros s' (Hs1 & Hs2 & Hs3). split_and!; [lia| |].
    + rewrite Hlen. unfold msg_length in Hs2. by rewrite Hb in Hs2.
    + intros Hp2. unfold free_level. case_decide as Ht.
      * rewrite Hlen. unfold free_level in Hs3. rewrite Hty, decide_True in Hs3 by done.
        unfold msg_length in Hs3. rewrite Hb in Hs3. apply Hs3. congruence.
      * etransitivity; [apply block_size_small|]. apply Hs3. congruence.
  - by apply (refs_exact_fresh m _ l p o2).
Qed.

(** Handing one datagram to the dispatcher. *)
Definition delivered w (data : list Z) (p : Z) : Prop :=
  objs (mem w) !! p = Some (mkMessage 1 NETWORK_DATA (Some (_id (ses w))) (Some this)
    (Z.of_nat (length data) <=? LARGE_BODY_SIZE) (BPacket (Z.of_nat (length data)) data)).

Lemma post_data_spec data owned w :
  udp_inv owned w -> in_u 16 (Z.of_nat (length data)) ->
  exists w', post_data sizeofPM tid this data w = Some (tt, w') /\ udp_inv owned w' /\
    impl w' = impl w /\ io w' = io w /\ objs (mem w) ⊆ objs (mem w') /\
    if _dispatcher (ses w) then
      ses w' = set_ioRef (i32 (_ioRef (ses w) + 1)) (ses w) /\
      exists p, posted w' = posted w ++ [p] /\ delivered w' data p
    else ses w' = ses w /\ posted w' = posted w.
Proof.
  intros Hu Hlen. unfold post_data. rewrite run_gets. destruct (_dispatcher (ses w)) eqn:Hd.
  2:{ exists w. split_and!; done. }
  rewrite wrap_small by done. set (len := Z.of_nat (length data)).
  destruct (AllocatePacket sizeofPM tid len (mem w)) as [p m1] eqn:Ea.
  rewrite (run_pool_call _ _ _ _ _ Ea). unfold GetId. rewrite run_gets. cbn [ses with_mem].
  destruct (AllocatePacket_spec sizeofPM tid len (mem w) p m1 (ni_mem _ _ _ _ Hu) Ea)
    as (o & Ho & _ & _ & Hrc & Hty & Hb & _ & Hpl & _).
  assert (objs (mem (with_mem m1 w)) !! p = Some o) as Hp by (simpl; by rewrite Ho, lookup_insert_eq).
  rewrite (run_store _ _ _ _ _ Hp). set (o1 := tag_message _ _ this o).
  set (w2 := with_mem _ (with_mem m1 w)).
  assert (objs (mem w2) !! p = Some o1) as Hp2 by (simpl; by rewrite lookup_insert_eq).
  rewrite (run_store _ _ _ _ _ Hp2). set (o2 := set_payload data o1).
  unfold IncRef. rewrite run_modify_ses. unfold post. eexists. split; [reflexivity|].
  cbn [ses impl mem posted io with_mem w2]. rewrite put_obj_twice.
  destruct (new_packet_exact len _ (mem w) p m1 o2 (ni_mem _ _ _ _ Hu) (ni_refs _ _ _ _ Hu) Ea)
    as (Hi' & Hr' & Hn & Hob); [done| |done|].
  { unfold msg_length, o2, o1. simpl. by rewrite Hb. }
  split_and!; try done.
  - destruct Hu as [Hm Hnd Hpm Hf Hbz Hr]. split; try done.
    cbn [net nmem ses impl posted mem] in *. rewrite <- !app_assoc in *. cbn [set_ioRef _sendQueue].
    change (p :: _) with ([p] ++ (ctx_payloads (_contexts (unet (impl w))) (busy [] (unet (impl w))) ++
      contents (_sendQueue (ses w)) ++ posted w ++ owned)) in Hr'.
    eapply refs_exact_proper; [|exact Hr']. solve_Permutation.
  - rewrite Hob. by apply insert_subseteq.
  - exists p. split; [done|]. unfold delivered. cbn [mem ses]. rewrite Hob, lookup_insert_eq. f_equal.
    unfold o2, o1, set_payload, tag_message. cbn. rewrite Hrc, Hpl, Hb. done.
Qed.

(** The network as seen from a session's world. *)
Definition netw w : NetWorld Q T := mkNW (unet (impl w)) (mem w).

Definition with_net (n : NetWorld Q T) w : World Q T (UdpState Q I) :=
  mkWorld (ses w) (mkUS (self (impl w)) (net n)) (nmem n) (posted w) (io w).

Lemma run_net_call {B} f (k : unit -> M Q T (UdpState Q I) B) w n :
  f (netw w) = Some n -> (net_call f ≫= k) w = k () (with_net n w).
Proof. intros H. unfold mbind, M_bind, net_call. unfold netw in H. by rewrite H. Qed.

(** *** Sending *)

(** The datagram a session makes of the bytes [d]. *)
Definition session_datagram w (tg : Z) (d : list Z) : Z * list Z :=
  framed (default 0 (endpoint (self (impl w)))) tg (_id (ses w)) (udpToken (self (impl w))) d.

Lemma send_all_spec now ps datas owned w :
  net_inv sizeofPM [] (ps ++ owned) (netw w) ->
  Forall2 (fun p d => carries_bytes (mem w) p d /\ Z.of_nat (length d) <= UDP_MAX_APP_BYTES) ps datas ->
  (length ps <= length (contents (_pool (unet (impl w)))))%nat ->
  exists n, send_all tid now ps w = Some (tt, with_net n w) /\ net_inv sizeofPM [] owned n /\
    nmem n = mem w /\ _socketOpen (net n) = _socketOpen (unet (impl w)) /\
    _isStopping (net n) = _isStopping (unet (impl w)) /\ _wire (net n) = _wire (unet (impl w)) /\
    pending_datagrams n = pending_datagrams (netw w) ++ (session_datagram w TAG_RAW_UDP <$> datas).
Proof.
  intros Hi Hf. revert w Hi Hf. induction ps as [|p ps IH] in datas |- *; intros w Hi Hf Hlen.
  - apply Forall2_nil_inv_l in Hf as ->. exists (netw w). simpl. rewrite app_nil_r. split_and!; try done.
    by destruct w as [? [] ? ? ?].
  - apply Forall2_cons_inv_l in Hf as (d & ds & [(o & Ho & Hb) Hd] & Hf & ->). cbn [send_all].
    rewrite (run_deref _ _ _ _ Ho). unfold async_send, get_self, GetId. rewrite !run_assoc, run_gets, run_assoc, run_gets,
      run_assoc, run_gets.
    assert (msg_length o = Z.of_nat (length d)) as -> by (unfold msg_length; by rewrite Hb).
    destruct (AsyncSend_pending sizeofPM tid now (default 0 (endpoint (self (impl w)))) TAG_RAW_UDP (_id (ses w))
      (udpToken (self (impl w))) p d (ps ++ owned) (netw w) Hi) as
      (n1 & Hs & Hi1 & Hm1 & Hop & Hst & Hw & Hpl & Hpd & _); [by exists o|done| |].
    { intros E. cbn [netw net] in E. rewrite E in Hlen. simpl in Hlen. lia. }
    rewrite (run_net_call _ _ _ _ Hs). cbn [netw net nmem] in Hm1, Hop, Hst, Hw, Hpl.
    destruct (IH ds (with_net n1 w)) as (n2 & Hr & Hi2 & Hm2 & Hop2 & Hst2 & Hw2 & Hpd2).
    + unfold netw, with_net. cbn [impl unet mem]. by destruct n1.
    + cbn [with_net mem]. by rewrite Hm1.
    + cbn [with_net impl unet]. simpl in Hlen. lia.
    + exists n2. split; [exact Hr|]. cbn [with_net impl unet mem] in *. split_and!; try congruence.
      rewrite Hpd2. unfold netw. cbn [impl unet mem with_net]. replace (mkNW (net n1) (nmem n1)) with n1 by (by destruct n1).
      rewrite Hpd, <- app_assoc. done.
Qed.

(** [Flush] with a network: the queue is emptied into the strand, in order, and the
    flag is cleared. *)
Lemma Flush_spec `{!FifoQueue Q} now datas owned w :
  udp_inv owned w -> network (self (impl w)) = true ->
  Forall2 (fun p d => carries_bytes (mem w) p d /\ Z.of_nat (length d) <= UDP_MAX_APP_BYTES)
    (contents (_sendQueue (ses w))) datas ->
  (length (contents (_sendQueue (ses w))) <= length (contents (_pool (unet (impl w)))))%nat ->
  exists w', Flush tid now w = Some (tt, w') /\ udp_inv owned w' /\
    contents (_sendQueue (ses w')) = [] /\ _isSending (ses w') = false /\ posted w' = posted w /\
    _connected (ses w') = _connected (ses w) /\ mem w' = mem w /\
    _socketOpen (unet (impl w')) = _socketOpen (unet (impl w)) /\
    _isStopping (unet (impl w')) = _isStopping (unet (impl w)) /\
    _wire (unet (impl w')) = _wire (unet (impl w)) /\
    pending_datagrams (netw w') = pending_datagrams (netw w) ++ (session_datagram w TAG_RAW_UDP <$> datas).
Proof.
  intros Hu Hn Hf Hlen. unfold Flush, get_self. rewrite run_gets, Hn. cbn [negb flush_loop].
  rewrite run_gets. destruct (drain_all (_sendQueue (ses w))) as [ps q'] eqn:Ed.
  destruct (drain_all_fifo _ _ _ Ed) as [-> Hq']. rewrite run_modify_ses.
  set (w1 := mkWorld _ _ _ _ _).
  destruct (send_all_spec now (contents (_sendQueue (ses w))) datas (posted w ++ owned) w1)
    as (n & Hr & Hi & Hm & Hop & Hst & Hw & Hpd); [exact Hu|exact Hf|exact Hlen|].
  rewrite (run_step _ _ _ _ _ Hr), run_modify_ses, run_gets. cbn [ses set_isSending _sendQueue with_net w1 set_sendQueue].
  rewrite try_dequeue_empty by done. eexists. split; [reflexivity|].
  cbn [ses impl mem posted io with_net w1 unet set_isSending set_sendQueue _sendQueue _isSending _connected].
  split_and!; try done.
  unfold udp_inv. cbn [ses impl mem posted unet]. cbn [_sendQueue set_isSending set_sendQueue]. rewrite Hq'. by destruct n.
Qed.

(** *** Receiving *)

(** The messages the library has ready, in order: the reference for [recv_kcp]. *)
Fixpoint kcp_ready (fuel : nat) (a : KCPAdapter I) : list (list Z) * KCPAdapter I :=
  match fuel with
  | O => ([], a)
  | S fuel =>
      let '(r, data, a') := kcp_Recv 2048 a in
      if 0 <? r then let '(ds, a2) := kcp_ready fuel a' in (data :: ds, a2) else ([], a')
  end.

Lemma delivered_mono w w' data p :
  objs (mem w) ⊆ objs (mem w') -> _id (ses w') = _id (ses w) -> delivered w data p -> delivered w' data p.
Proof. intros Hs Hid Hd. unfold delivered. rewrite Hid. by eapply lookup_weaken. Qed.

Lemma recv_kcp_spec fuel a owned w ds a2 :
  udp_inv owned w -> _dispatcher (ses w) = true -> (kcp_queued a < fuel)%nat ->
  kcp_ready fuel a = (ds, a2) ->
  exists w', recv_kcp sizeofPM tid this fuel a w = Some (a2, w') /\ udp_inv owned w' /\
    impl w' = impl w /\ objs (mem w) ⊆ objs (mem w') /\
    _id (ses w') = _id (ses w) /\ _sendQueue (ses w') = _sendQueue (ses w) /\
    exists ps, posted w' = posted w ++ ps /\ Forall2 (delivered w') ds ps.
Proof.
  revert a w ds; induction fuel as [|fuel IH]; intros a w ds Hu Hd Hq Hk; [lia|].
  cbn [kcp_ready recv_kcp] in *. destruct (kcp_Recv 2048 a) as [[r data] a'] eqn:Er.
  destruct (0 <? r) eqn:E; bool_to_prop.
  2:{ injection Hk as <- <-. exists w. split_and!; try done. exists []. by rewrite app_nil_r. }
  destruct (kcp_Recv_law a 2048 r data a' Er E) as (Hr & Hle & Hdec).
  destruct (kcp_ready fuel a') as [ds' a3] eqn:Ek. injection Hk as <- <-.
  destruct (post_data_spec data owned w Hu) as (w1 & Hp & Hu1 & Him & _ & Hsub & Hdis).
  { unfold in_u. lia. }
  rewrite Hd in Hdis. destruct Hdis as (Hses & p & Hpo & Hdel). rewrite (run_step _ _ _ _ _ Hp).
  destruct (IH a' w1 ds' Hu1) as (w2 & Hr2 & Hu2 & Him2 & Hsub2 & Hid2 & Hsq & ps & Hpo2 & Hdel2);
    [by rewrite Hses|lia|done|].
  exists w2. split_and!; try done; try congruence; rewrite ?Hses in *; try done.
  - by etransitivity.
  - exists (p :: ps). split; [by rewrite Hpo2, Hpo, <- app_assoc|]. constructor; [|done].
    eapply delivered_mono; [done| |done]. by rewrite Hid2, Hses.
Qed.

Lemma HandleData_raw now data owned w :
  udp_inv owned w -> _dispatcher (ses w) = true -> in_u 16 (Z.of_nat (length data)) ->
  exists w' p, HandleData sizeofPM tid this now data false w = Some (tt, w') /\ udp_inv owned w' /\
    unet (impl w') = unet (impl w) /\ ses w' = set_ioRef (i32 (_ioRef (ses w) + 1)) (ses w) /\
    posted w' = posted w ++ [p] /\ delivered w' data p /\ lastActivity (self (impl w')) = now.
Proof.
  intros Hu Hd Hl. unfold HandleData, UpdateActivity, set_self, get_self. rewrite run_modify_impl, run_gets.
  set (w1 := mkWorld _ _ _ _ _).
  destruct (post_data_spec data owned w1 Hu Hl) as (w2 & Hp & Hu2 & Him & _ & _ & Hdis).
  change (_dispatcher (ses w1)) with (_dispatcher (ses w)) in Hdis. rewrite Hd in Hdis.
  destruct Hdis as (Hs & p & Hpo & Hdel). exists w2, p. rewrite Him. split_and!; done.
Qed.

(** *** Packets entering the send path *)

Definition packet_ok (pkt : IPacket) : Prop :=
  GetTotalSize pkt = Z.of_nat (length (SerializeTo pkt)) /\ in_u 16 (GetTotalSize pkt).

(** [SendPacket] builds the message and enqueues it; [queued p m w] is the world
    with the message [p] of memory [m] at the end of the queue. *)
Definition queued (p : Z) m w : World Q T (UdpState Q I) :=
  mkWorld (set_isSending true (set_sendQueue (enqueue p (_sendQueue (ses w))) (ses w))) (impl w) m (posted w) (io w).

Lemma SendPacket_run F pkt owned w :
  udp_inv owned w -> _connected (ses w) = true -> packet_ok pkt ->
  exists p m, udp_inv owned (queued p m w) /\ carries_bytes m p (SerializeTo pkt) /\
    objs (mem w) !! p = None /\ objs (mem w) ⊆ objs m /\
    SendPacket sizeofPM tid F pkt w =
      if _isSending (ses w) then Some (tt, queued p m w) else F (queued p m w).
Proof.
  intros Hu Hc [Hsz Hlen]. unfold SendPacket, IsConnected. rewrite run_gets, Hc. cbn [negb].
  rewrite wrap_small by done. set (len := GetTotalSize pkt) in *.
  destruct (AllocatePacket sizeofPM tid len (mem w)) as [p m1] eqn:Ea.
  rewrite (run_pool_call _ _ _ _ _ Ea).
  destruct (AllocatePacket_spec sizeofPM tid len (mem w) p m1 (ni_mem _ _ _ _ Hu) Ea)
    as (o & Ho & _ & _ & Hrc & Hty & Hb & _ & Hpl & _).
  assert (objs (mem (with_mem m1 w)) !! p = Some o) as Hp by (simpl; by rewrite Ho, lookup_insert_eq).
  rewrite (run_store _ _ _ _ _ Hp). set (o2 := set_payload (SerializeTo pkt) o).
  destruct (new_packet_exact len _ (mem w) p m1 o2 (ni_mem _ _ _ _ Hu) (ni_refs _ _ _ _ Hu) Ea)
    as (Hi' & Hr' & Hn & Hob); [done| |done|].
  { unfold msg_length, o2. simpl. by rewrite Hb. }
  exists p, (put_obj p o2 m1). split_and!; try done.
  - destruct Hu as [Hm Hnd Hpm Hf Hbz Hr]. split; try done. cbn [queued net nmem ses impl posted mem] in *.
    cbn [set_isSending set_sendQueue _sendQueue]. eapply refs_exact_proper; [|exact Hr'].
    rewrite contents_enqueue. solve_Permutation.
  - exists o2. rewrite Hob, lookup_insert_eq. split; [done|]. unfold o2, set_payload. cbn. rewrite Hb. by rewrite <- Hsz.
  - rewrite Hob. by apply insert_subseteq.
  - unfold EnqueueSend. rewrite run_modify_ses, run_gets. cbn [ses set_sendQueue _isSending with_mem].
    rewrite run_modify_ses. by destruct (_isSending (ses w)).
Qed.

(** *** Handling data leaves the network alone *)

Definition keeps_net {A} (m : M Q T (UdpState Q I) A) : Prop :=
  forall w a w', m w = Some (a, w') -> unet (impl w') = unet (impl w).

Lemma keeps_bind {A B} (m : M Q T (UdpState Q I) A) (k : A -> M Q T (UdpState Q I) B) :
  keeps_net m -> (forall a, keeps_net (k a)) -> keeps_net (m ≫= k).
Proof.
  intros Hm Hk w b w'. unfold mbind, M_bind. destruct (m w) as [[a w1]|] eqn:E; [|done].
  intros H. rewrite (Hk a _ _ _ H). by apply (Hm _ _ _ E).
Qed.

Lemma keeps_ret {A} (a : A) : keeps_net (mret a).
Proof. by intros w b w' [= _ <-]. Qed.

Lemma keeps_gets {A} (f : World Q T (UdpState Q I) -> A) : keeps_net (gets f).
Proof. by intros w b w' [= _ <-]. Qed.

Lemma keeps_modify_ses f : keeps_net (modify_ses f).
Proof. by intros w b w' [= _ <-]. Qed.

Lemma keeps_set_self f : keeps_net (set_self f).
Proof. by intros w b w' [= _ <-]. Qed.

Lemma keeps_post p : keeps_net (post p).
Proof. by intros w b w' [= _ <-]. Qed.

Lemma keeps_pool_call {A} (f : Mem Q T -> A * Mem Q T) : keeps_net (pool_call f).
Proof. intros w b w'. unfold pool_call. destruct (f (mem w)). by intros [= _ <-]. Qed.

Lemma keeps_store p f : keeps_net (store p f).
Proof.
  intros w b w'. unfold store. destruct (objs (mem w) !! p); [|done]. cbn [mbind option_bind]. by intros [= _ <-].
Qed.

#[local] Hint Resolve keeps_bind keeps_ret keeps_gets keeps_modify_ses keeps_set_self keeps_post keeps_pool_call
  keeps_store : toy.

Lemma keeps_post_data data : keeps_net (post_data sizeofPM tid this data).
Proof.
  unfold post_data, GetId, IncRef. apply keeps_bind; [auto with toy|]. intros d. destruct d; auto 12 with toy.
Qed.

Lemma keeps_recv_kcp fuel a : keeps_net (recv_kcp sizeofPM tid this fuel a).
Proof.
  revert a; induction fuel as [|fuel IH]; intros a; cbn [recv_kcp]; [by intros ? ? ?|].
  destruct (kcp_Recv 2048 a) as [[r data] a']. destruct (0 <? r); [|apply keeps_ret].
  apply keeps_bind; [apply keeps_post_data|]. intros _. apply IH.
Qed.

Lemma keeps_HandleData now data b : keeps_net (HandleData sizeofPM tid this now data b).
Proof.
  unfold HandleData, UpdateActivity, get_self. apply keeps_bind; [auto with toy|]. intros _.
  apply keeps_bind; [auto with toy|]. intros k. destruct (if b then k else None) as [a|]; [|apply keeps_post_data].
  apply keeps_bind; [apply keeps_recv_kcp|]. intros a2. apply keeps_set_self.
Qed.

End Proofs.

(** ** Properties *)

Section Properties.
Context {Q : Type -> Type} `{!ConcurrentQueue Q} {T I : Type} `{!Ikcp I}.
Context (sizeofPM : Z) (tid : nat).
Implicit Types w : World Q T (UdpState Q I).
Implicit Types v : RecvWorld Q T I.

(** The world in which the network calls the session [(s, i)]. *)
Definition session_world v (s : Session Q) (i : UDPSessionImpl I) : World Q T (UdpState Q I) :=
  mkWorld s (mkUS i (r_net v)) (r_mem v) (r_posted v) [].

Lemma udp_inv_receiving b owned v s i :
  udp_inv sizeofPM owned (session_world v s i) ->
  udp_inv sizeofPM owned (session_world (set_rnet (set_receiving b (r_net v)) v) s i).
Proof. intros H. by apply (net_inv_move _ _ _ _ _ _ H). Qed.

(** The network is ready to dispatch datagrams to the session [p]. *)
Record listening (owned : list Z) (p : Z) (s : Session Q) (i : UDPSessionImpl I) v : Prop := mk_listening {
  ls_run : _isStopping (r_net v) = false;
  ls_disp : r_dispatcher v = true;
  ls_ses : r_sessions v !! p = Some (Some (s, i));
  ls_sdisp : _dispatcher s = true;
  ls_inv : udp_inv sizeofPM owned (session_world v s i)
}.

Lemma HandleReceive_raw now h d sender p s i r owned v :
  listening owned p s i v -> r_registry v = Some r ->
  header_ok h -> tag h = TAG_RAW_UDP -> d <> [] -> in_u 16 (Z.of_nat (length d)) ->
  find_session r sender h = Some p ->
  exists v' q i', HandleReceive sizeofPM tid now false (encode_udp_header h ++ d) sender v = Some v' /\
    r_posted v' = r_posted v ++ [q] /\
    objs (r_mem v') !! q = Some (mkMessage 1 NETWORK_DATA (Some (_id s)) (Some p)
      (Z.of_nat (length d) <=? LARGE_BODY_SIZE) (BPacket (Z.of_nat (length d)) d)) /\
    r_sessions v' = <[p := Some (set_ioRef (i32 (_ioRef s + 1)) s, i')]> (r_sessions v) /\
    lastActivity i' = now /\ r_registry v' = Some (Registry.UpdateActivity now sender r) /\
    (_socketOpen (r_net v) = true -> _receiving (r_net v') = true).
Proof.
  intros [Hrun Hdisp Hses Hsd Hinv] Hreg Hh Htag Hd Hlen Hfind. unfold HandleReceive.
  cbn [r_net set_rnet set_receiving _isStopping r_registry r_dispatcher]. rewrite Hrun, Hreg, Hdisp.
  rewrite decide_True by (rewrite length_app, length_encode_udp_header; destruct d; [done|cbn [length]; lia]).
  rewrite decode_encode_udp_header by done. unfold IsValid, IsKCP. rewrite Htag. cbn [Z.eqb TAG_RAW_UDP TAG_KCP orb negb].
  rewrite Hfind. unfold call_udp. cbn [r_sessions set_registry set_rnet]. rewrite Hses. cbn [mbind option_bind].
  rewrite drop_app_length' by (by rewrite length_encode_udp_header).
  destruct (HandleData_raw sizeofPM tid p now d owned
    (session_world (set_rnet (set_receiving false (r_net v)) v) s i)) as (w' & q & Hrun' & _ & Hnet & Hs' & Hpo & Hdel & Hla);
    [by apply udp_inv_receiving|done|done|].
  unfold session_world in Hrun'. cbn [set_rnet r_net r_mem r_posted] in Hrun'.
  cbn [set_registry set_rnet r_net r_mem r_posted]. rewrite Hrun'. cbn [mbind option_bind].
  eexists _, q, (self (impl w')). split; [reflexivity|]. unfold rearm, set_rnet. cbn.
  unfold delivered in Hdel. rewrite Hs' in Hdel |- *. split_and!; try done.
  intros Hop. unfold StartReceive. rewrite Hnet. cbn. by rewrite Hop.
Qed.

(** Datagram reception: a raw datagram whose sender is registered (or else whose
    token is) reaches exactly that session as one NETWORK_DATA message with its
    id and exactly the payload bytes; the session gains one I/O reference, no other
    session is touched, the activity time of the endpoint is refreshed and the
    receive is armed again.  For a registered sender the session id and token in
    the header play no role. *)
Theorem udp_receive_delivers now sid tok d sender p s i r owned v
  (Hl : listening owned p s i v) (Hreg : r_registry v = Some r)
  (Hsid : in_u 64 sid) (Htok : in_u 64 (high tok) /\ in_u 64 (low tok))
  (Hd : d <> []) (Hlen : in_u 16 (Z.of_nat (length d)))
  (Hfind : Registry.Find sender r = Some p \/
           (Registry.Find sender r = None /\ Registry.GetEndpointByToken tok r = Some p)) :
  exists v' q i', HandleReceive sizeofPM tid now false
      (encode_udp_header (mkUdpHeader TAG_RAW_UDP sid tok) ++ d) sender v = Some v' /\
    r_posted v' = r_posted v ++ [q] /\
    objs (r_mem v') !! q = Some (mkMessage 1 NETWORK_DATA (Some (_id s)) (Some p)
      (Z.of_nat (length d) <=? LARGE_BODY_SIZE) (BPacket (Z.of_nat (length d)) d)) /\
    r_sessions v' = <[p := Some (set_ioRef (i32 (_ioRef s + 1)) s, i')]> (r_sessions v) /\
    lastActivity i' = now /\ r_registry v' = Some (Registry.UpdateActivity now sender r) /\
    (_socketOpen (r_net v) = true -> _receiving (r_net v') = true).
Proof.
  apply (HandleReceive_raw now _ d sender p s i r owned v Hl Hreg); try done.
  unfold find_session. simpl. destruct Hfind as [->|[-> Ht]]; done.
Qed.

(** [UDPSession::Flush] on an open network turns the queued packets, in queue
    order, into datagrams: once the strand has run, the wire has one datagram per
    packet with the session's header and the packet's bytes, the queue is empty
    and the sending flag is clear. *)
Theorem udp_flush_sends_in_order `{!FifoQueue Q} now datas owned w
  (Hinv : udp_inv sizeofPM owned w) (Hnet : network (self (impl w)) = true)
  (Hopen : _socketOpen (unet (impl w)) = true) (Hrun : _isStopping (unet (impl w)) = false)
  (Hidle : _strand (unet (impl w)) = [])
  (Hdatas : Forall2 (fun p d => carries_bytes (mem w) p d /\ Z.of_nat (length d) <= UDP_MAX_APP_BYTES)
     (contents (_sendQueue (ses w))) datas)
  (Hctx : (length datas <= length (contents (_pool (unet (impl w)))))%nat) :
  exists w' n, Flush tid now w = Some (tt, w') /\
    contents (_sendQueue (ses w')) = [] /\ _isSending (ses w') = false /\
    run_strand_n tid (length datas) (netw w') = Some n /\
    _wire (net n) = _wire (unet (impl w)) ++ (session_datagram w TAG_RAW_UDP <$> datas).
Proof.
  destruct (Flush_spec sizeofPM tid now datas owned w Hinv Hnet Hdatas)
    as (w' & Hf & Hi' & Hq & Hs & _ & _ & _ & Ho & Hst & Hw & Hp).
  { by rewrite (Forall2_length _ _ _ Hdatas). }
  assert (pending_datagrams (netw w') = session_datagram w TAG_RAW_UDP <$> datas) as Hp'.
  { rewrite Hp. unfold pending_datagrams. cbn [netw net]. by rewrite Hidle. }
  destruct (run_strand_n_sends sizeofPM tid _ (netw w') (session_datagram w TAG_RAW_UDP <$> datas) Hi') as (n & Hn & _ & Hwn & _);
    [cbn; congruence|cbn; congruence|exact Hp'|].
  rewrite length_fmap in Hn. exists w', n. split_and!; try done. rewrite Hwn. cbn [netw net]. by rewrite Hw.
Qed.

(** Reliable data reaches the dispatcher in the order the KCP library yields it:
    after feeding it a datagram, [HandleData] terminates and posts exactly the
    messages the library has ready, in order, each with its exact bytes. *)
Theorem udp_kcp_delivers_in_order this now data a owned w ds a2
  (Hinv : udp_inv sizeofPM owned w) (Hdisp : _dispatcher (ses w) = true)
  (Hkcp : kcp (self (impl w)) = Some a)
  (Hready : kcp_ready (S (kcp_queued (kcp_Input data a).2)) (kcp_Input data a).2 = (ds, a2)) :
  exists w' ps, HandleData sizeofPM tid this now data true w = Some (tt, w') /\ udp_inv sizeofPM owned w' /\
    kcp (self (impl w')) = Some a2 /\ posted w' = posted w ++ ps /\ Forall2 (delivered this w') ds ps.
Proof.
  unfold HandleData, UpdateActivity, set_self, get_self. rewrite run_modify_impl, run_gets.
  cbn [impl self kcp]. rewrite Hkcp. set (w1 := mkWorld _ _ _ _ _).
  destruct (recv_kcp_spec sizeofPM tid this _ _ owned w1 ds a2 Hinv Hdisp (Nat.lt_succ_diag_r _) Hready)
    as (w2 & Hr & Hu2 & Him & _ & Hid & Hsq & ps & Hpo & Hdel).
  rewrite (run_step _ _ _ _ _ Hr). eexists _, ps. split; [reflexivity|]. cbn. split_and!; try done.
Qed.


(** A session without a network wedges: the first packet is dropped and leaves
    the sending flag set, so after the network is set every further packet stays in
    the queue and nothing is handed to the network. *)
Theorem udp_send_without_network_wedges `{!FifoQueue Q} now pkt1 pkt2 owned w
  (Hinv : udp_inv sizeofPM owned w) (Hconn : _connected (ses w) = true) (Hsend : _isSending (ses w) = false)
  (Hq : contents (_sendQueue (ses w)) = []) (Hnet : network (self (impl w)) = false)
  (Hp1 : packet_ok pkt1) (Hp2 : packet_ok pkt2) :
  exists w1 w2 p, SendUnreliable sizeofPM tid now pkt1 w = Some (tt, w1) /\
    (SetNetwork true;; SendUnreliable sizeofPM tid now pkt2) w1 = Some (tt, w2) /\
    contents (_sendQueue (ses w2)) = [p] /\ carries_bytes (mem w2) p (SerializeTo pkt2) /\
    _isSending (ses w2) = true /\ unet (impl w2) = unet (impl w).
Proof.
  destruct (SendPacket_run sizeofPM tid (Flush tid now) pkt1 owned w Hinv Hconn Hp1)
    as (a & m & Hu & _ & _ & _ & Hrun1). rewrite Hsend in Hrun1.
  unfold Flush at 2, get_self in Hrun1. rewrite run_gets in Hrun1. cbn [queued impl] in Hrun1. rewrite Hnet in Hrun1.
  cbn [negb] in Hrun1. rewrite run_gets in Hrun1.
  change (_sendQueue (ses (queued a m w))) with (enqueue a (_sendQueue (ses w))) in Hrun1.
  destruct (drain_all (enqueue a (_sendQueue (ses w)))) as [ps q'] eqn:Ed. rewrite ?Ed in Hrun1.
  destruct (drain_all_fifo _ _ _ Ed) as [-> Hq']. rewrite fifo_enqueue, Hq in Hrun1. cbn [app] in Hrun1.
  rewrite run_modify_ses in Hrun1. cbn [free_all] in Hrun1.
  assert (net_inv sizeofPM [] (a :: posted w ++ owned) (mkNW (unet (impl w)) m)) as Hua.
  { unfold udp_inv in Hu. cbn [queued ses impl mem posted set_isSending set_sendQueue _sendQueue] in Hu.
    rewrite fifo_enqueue, Hq in Hu. exact Hu. }
  destruct (free_payload_ok sizeofPM tid a _ _ Hua) as ([n1 m1] & Hfr & Hi1 & Hn1).
  unfold free_payload in Hfr. cbn [nmem net] in *. destruct (Free tid (Some a) m) as [m2|] eqn:Ef; [|done].
  injection Hfr as <- <-. rewrite (run_pool_free _ _ _ _ m2) in Hrun1 by done.
  match type of Hrun1 with _ = mret () ?x => set (w1 := x) in Hrun1 end.
  set (w2 := mkWorld (ses w1) (mkUS (mkUdp (endpoint (self (impl w1))) (lastActivity (self (impl w1))) true
    (udpToken (self (impl w1))) (kcp (self (impl w1)))) (unet (impl w1))) (mem w1) (posted w1) (io w1)).
  destruct (SendPacket_run sizeofPM tid (Flush tid now) pkt2 owned w2)
    as (b & m3 & Hub & Hcar & _ & _ & Hrun2); [|done|done|].
  { unfold udp_inv, w2, w1. cbn. rewrite Hq'. exact Hi1. }
  exists w1, (queued b m3 w2), b. unfold SendUnreliable. split; [exact Hrun1|]. split; [exact Hrun2|].
  cbn [queued ses impl mem set_isSending set_sendQueue _sendQueue _isSending]. split_and!; try done.
  unfold w2, w1. cbn. by rewrite fifo_enqueue, Hq'.
Qed.

(** Reception survives everything but an error: whatever arrives (short, invalid,
    unknown or delivered datagrams), on an open socket a new receive is outstanding
    when the handler returns, unless the network is stopping or the completed
    receive reported an error; after an error no receive is outstanding, although
    the socket is still open. *)
Theorem udp_receive_rearmed_unless_error now error data sender v v'
  (Hopen : _socketOpen (r_net v) = true)
  (Hrun : HandleReceive sizeofPM tid now error data sender v = Some v') :
  _socketOpen (r_net v') = true /\ _receiving (r_net v') = negb (_isStopping (r_net v) || error).
Proof.
  assert (forall v0, _socketOpen (r_net v0) = true ->
    _socketOpen (r_net (rearm v0)) = true /\ _receiving (r_net (rearm v0)) = true) as Hre.
  { intros v0 H0. unfold rearm, StartReceive. rewrite H0. done. }
  unfold HandleReceive in Hrun. cbn [r_net set_rnet set_receiving _isStopping r_registry r_dispatcher] in Hrun.
  destruct (_isStopping (r_net v)); [by injection Hrun as <-|]. destruct error; [by injection Hrun as <-|].
  cbn [orb negb]. case_decide; [|injection Hrun as <-; by apply Hre].
  destruct (r_registry v) as [r|]; [|injection Hrun as <-; by apply Hre].
  destruct (r_dispatcher v); [|injection Hrun as <-; by apply Hre].
  destruct (negb (IsValid (decode_udp_header data))); [injection Hrun as <-; by apply Hre|].
  destruct (find_session r sender (decode_udp_header data)) as [p|]; [|injection Hrun as <-; by apply Hre].
  destruct (call_udp _ _ _) as [v1|] eqn:Ec; [|done]. injection Hrun as <-. apply Hre.
  unfold call_udp in Ec. destruct (_ !! p) as [[[s i]|]|]; [..|done]; cbn [mbind option_bind] in Ec; [|by injection Ec as <-].
  match type of Ec with context [HandleData ?a ?b ?c ?d ?e ?f ?g] => destruct (HandleData a b c d e f g) as [[[] w']|] eqn:Eh end;
    [|done]. injection Ec as <-. cbn [r_net]. by rewrite (keeps_HandleData _ _ _ _ _ _ _ _ _ Eh).
Qed.

(** A KCP segment longer than 1175 bytes never leaves: the output callback
    succeeds, but the datagram is dropped as oversized and its message released, so
    nothing is sent however often the library retransmits it. *)
Theorem kcp_large_segment_never_sent now buf owned w
  (Hinv : udp_inv sizeofPM owned w) (Hnet : network (self (impl w)) = true)
  (Hlen : UDP_MAX_APP_BYTES < Z.of_nat (length buf) < 2 ^ 16) :
  exists w', kcp_output sizeofPM tid now buf w = Some (tt, w') /\ udp_inv sizeofPM owned w' /\
    _strand (unet (impl w')) = _strand (unet (impl w)) /\ _wire (unet (impl w')) = _wire (unet (impl w)) /\
    _oversizeDrops (unet (impl w')) = u64 (_oversizeDrops (unet (impl w)) + 1).
Proof.
  unfold kcp_output, get_self. rewrite run_gets, Hnet. cbn [negb].
  rewrite wrap_small by (unfold in_u; lia). set (len := Z.of_nat (length buf)) in *.
  destruct (AllocatePacket sizeofPM tid len (mem w)) as [p m1] eqn:Ea. rewrite (run_pool_call _ _ _ _ _ Ea).
  destruct (AllocatePacket_spec sizeofPM tid len (mem w) p m1 (ni_mem _ _ _ _ Hinv) Ea)
    as (o & Ho & _ & _ & Hrc & Hty & Hb & _ & Hpl & _).
  assert (objs (mem (with_mem m1 w)) !! p = Some o) as Hp by (simpl; by rewrite Ho, lookup_insert_eq).
  rewrite (run_store _ _ _ _ _ Hp). set (o2 := set_payload buf o).
  destruct (new_packet_exact sizeofPM tid len _ (mem w) p m1 o2 (ni_mem _ _ _ _ Hinv) (ni_refs _ _ _ _ Hinv) Ea)
    as (Hi' & Hr' & Hn & Hob); [done| |done|].
  { unfold msg_length, o2. simpl. by rewrite Hb. }
  unfold async_send, get_self, GetId. rewrite !run_gets. set (w2 := with_mem _ (with_mem m1 w)).
  assert (net_inv sizeofPM [] (p :: contents (_sendQueue (ses w)) ++ posted w ++ owned) (netw w2)) as Hi2.
  { destruct Hinv as [Hm Hnd Hpm Hf Hbz Hr]. split; try done. cbn [netw net nmem w2 with_mem mem impl] in *.
    eapply refs_exact_proper; [|exact Hr']. solve_Permutation. }
  unfold net_call. change (mkNW (unet (impl w2)) (mem w2)) with (netw w2). unfold AsyncSend.
  rewrite (proj2 (Z.ltb_lt _ _)) by lia. set (s1 := on_net _ (netw w2)).
  destruct (free_payload_ok sizeofPM tid p (contents (_sendQueue (ses w)) ++ posted w ++ owned) s1)
    as (s2 & Hfr & Hi3 & Hn3); [by apply (net_inv_move _ _ _ _ _ _ Hi2)|].
  change (_ ≫= _) with (s2' ← free_payload tid (Some p) s1;
    Some (tt, mkWorld (ses w2) (mkUS (self (impl w2)) (net s2')) (nmem s2') (posted w2) (io w2))).
  rewrite Hfr. cbn [mbind option_bind]. eexists. split; [reflexivity|]. cbn [impl unet].
  rewrite Hn3. split_and!; try done. unfold udp_inv. cbn [impl unet ses posted mem]. rewrite <- Hn3. destruct s2. exact Hi3.
Qed.

End Properties.

(** ** Witnesses

    The library instance keeps the datagrams it was fed and yields them in order. *)

Definition toy_recv (k : list (list Z)) (n : Z) : Z * list Z * list (list Z) :=
  match k with
  | [] => (-1, [], k)
  | d :: k' => if Z.of_nat (length d) <=? n then (Z.of_nat (length d), d, k') else (-3, [], k)
  end.

Lemma toy_recv_law k n r data k' : toy_recv k n = (r, data, k') -> 0 < r ->
  r = Z.of_nat (length data) /\ r <= n /\ (length k' < length k)%nat.
Proof.
  unfold toy_recv. destruct k as [|d k]; [intros [= <- _ _]; lia|].
  destruct (Z.of_nat (length d) <=? n) eqn:E; intros [= <- <- <-]; bool_to_prop; [|lia].
  intros _. split_and!; [done|done|simpl; lia].
Qed.

#[export] Instance toy_ikcp : Ikcp (list (list Z)) := {
  ikcp_create conv := Some [];
  ikcp_nodelay _ _ _ _ k := k;
  ikcp_wndsize _ _ k := k;
  ikcp_send data k := (0, k);
  ikcp_input data k := (0, k ++ [data]);
  ikcp_update _ k := (k, []);
  ikcp_flush k := (k, []);
  ikcp_recv := toy_recv;
  ikcp_queued k := length k;
  ikcp_recv_law := toy_recv_law
}.

Definition demo_udp_impl (n : bool) : UDPSessionImpl (list (list Z)) :=
  mkUdp (Some 5) 0 n (mkU128 1 2) (Some (KCPAdapter_new 7)).

Definition demo_udp_ses : Session list := mkSession 7 true true 0 [] false.

Definition demo_udp (n : bool) : World list unit (UdpState list (list (list Z))) :=
  mkWorld demo_udp_ses (mkUS (demo_udp_impl n) (Start (Prepare 2 Net_new))) mem0 [] [].

Definition demo_recv : RecvWorld list unit (list (list Z)) :=
  mkRW {[30 := Some (demo_udp_ses, demo_udp_impl true)]}
    (Some (Registry.RegisterWithToken 0 9 30 (mkU128 1 2) Registry.Registry_new)) true
    (Start (Prepare 2 Net_new)) mem0 [].

Definition demo_udp_packet : IPacket := mkPacket 6 [6; 0; 1; 0; 8; 9].

Lemma mem0_exact : refs_exact mem0 [].
Proof. split; [by intros a ?%elem_of_nil|done]. Qed.

Lemma demo_udp_inv n : udp_inv 40 [] (demo_udp n).
Proof.
  apply (net_inv_move 40 [] [] [] (mkNW (Prepare 2 Net_new) mem0)); try reflexivity.
  apply Prepare_ok; [apply Mem_new_inv|apply mem0_exact].
Qed.

Lemma demo_listening : listening 40 [] 30 demo_udp_ses (demo_udp_impl true) demo_recv.
Proof. split; try reflexivity. exact (demo_udp_inv true). Qed.

Lemma demo_udp_packet_ok : packet_ok demo_udp_packet.
Proof. split; [reflexivity|]. vm_compute. split; congruence. Qed.

Lemma udp_receive_delivers_witness :
  exists v' q, HandleReceive 40 0 11 false (encode_udp_header (mkUdpHeader 0 99 (mkU128 3 4)) ++ [6; 6]) 9 demo_recv = Some v' /\
    r_posted v' = [q].
Proof.
  destruct (udp_receive_delivers 40 0 11 99 (mkU128 3 4) [6; 6] 9 30 demo_udp_ses (demo_udp_impl true)
    (Registry.RegisterWithToken 0 9 30 (mkU128 1 2) Registry.Registry_new) [] demo_recv demo_listening eq_refl)
    as (v' & q & i' & H1 & H2 & _).
  - vm_compute; split; congruence.
  - vm_compute; split; split; congruence.
  - discriminate.
  - vm_compute; split; congruence.
  - left. reflexivity.
  - exists v', q. split; [exact H1|exact H2].
Defined.

Definition demo_udp_queued : World list unit (UdpState list (list (list Z))) :=
  mkWorld (set_sendQueue [1] demo_udp_ses) (mkUS (demo_udp_impl true) (Start (Prepare 2 Net_new)))
    (put_obj 1 (set_payload [1; 2; 3] (PacketMessage_new 3)) (mem1 3)) [] [].

Lemma demo_udp_queued_inv : udp_inv 40 [] demo_udp_queued.
Proof.
  destruct (new_packet_exact 40 0 3 [] mem0 1 (mem1 3) (set_payload [1; 2; 3] (PacketMessage_new 3))
    (Mem_new_inv 40) mem0_exact (mem1_alloc 3) eq_refl eq_refl eq_refl) as (Hi & Hr & _).
  apply (net_inv_move 40 [] [] [1] (mkNW (Prepare 2 Net_new)
    (put_obj 1 (set_payload [1; 2; 3] (PacketMessage_new 3)) (mem1 3)))); try reflexivity.
  apply Prepare_ok; [exact Hi|exact Hr].
Qed.

Lemma udp_flush_sends_in_order_witness :
  exists w' n, Flush 0 11 demo_udp_queued = Some (tt, w') /\ run_strand_n 0 1 (netw w') = Some n /\
    length (_wire (net n)) = 1%nat.
Proof.
  destruct (udp_flush_sends_in_order 40 0 11 [[1; 2; 3]] [] demo_udp_queued demo_udp_queued_inv eq_refl eq_refl eq_refl
    eq_refl) as (w' & n & H1 & _ & _ & H2 & H3).
  - constructor; [|constructor]. split; [|vm_compute; congruence].
    exists (set_payload [1; 2; 3] (PacketMessage_new 3)). split; reflexivity.
  - vm_compute. lia.
  - exists w', n. split; [exact H1|]. split; [exact H2|]. rewrite H3. reflexivity.
Defined.

Lemma udp_kcp_delivers_in_order_witness :
  exists w' ps, HandleData 40 0 30 11 [4; 5] true (demo_udp true) = Some (tt, w') /\ length ps = 1%nat /\ posted w' = ps.
Proof.
  assert (kcp_ready (S (kcp_queued (kcp_Input [4; 5] (KCPAdapter_new 7)).2)) (kcp_Input [4; 5] (KCPAdapter_new 7)).2 =
    ([[4; 5]], mkKcp (Some []))) as Hk by reflexivity.
  destruct (udp_kcp_delivers_in_order 40 0 30 11 [4; 5] (KCPAdapter_new 7) [] (demo_udp true) [[4; 5]] (mkKcp (Some []))
    (demo_udp_inv true) eq_refl eq_refl Hk) as (w' & ps & H1 & _ & _ & H2 & H3).
  exists w', ps. split; [exact H1|]. split; [|exact H2]. by rewrite <- (Forall2_length _ _ _ H3).
Defined.


Lemma udp_send_without_network_wedges_witness :
  exists w1 w2 p, SendUnreliable 40 0 11 demo_udp_packet (demo_udp false) = Some (tt, w1) /\
    (SetNetwork true;; SendUnreliable 40 0 11 demo_udp_packet) w1 = Some (tt, w2) /\ contents (_sendQueue (ses w2)) = [p].
Proof.
  destruct (udp_send_without_network_wedges 40 0 11 demo_udp_packet demo_udp_packet [] (demo_udp false)
    (demo_udp_inv false) eq_refl eq_refl eq_refl eq_refl demo_udp_packet_ok demo_udp_packet_ok)
    as (w1 & w2 & p & H1 & H2 & H3 & _).
  exists w1, w2, p. split; [exact H1|]. split; [exact H2|exact H3].
Defined.

Lemma udp_receive_rearmed_unless_error_witness :
  exists v', HandleReceive 40 0 11 true [] 9 demo_recv = Some v' /\ _receiving (r_net v') = false.
Proof.
  eexists. split; [reflexivity|].
  exact (proj2 (udp_receive_rearmed_unless_error 40 0 11 true [] 9 demo_recv _ eq_refl eq_refl)).
Defined.

Lemma kcp_large_segment_never_sent_witness :
  exists w', kcp_output 40 0 11 (replicate 1176 0) (demo_udp true) = Some (tt, w') /\ _wire (unet (impl w')) = [].
Proof.
  destruct (kcp_large_segment_never_sent 40 0 11 (replicate 1176 0) [] (demo_udp true) (demo_udp_inv true) eq_refl)
    as (w' & H1 & _ & _ & H2 & _).
  - rewrite length_replicate. vm_compute. split; congruence.
  - exists w'. split; [exact H1|exact H2].
Defined.
