(* ===== verification/SessionFactory.v ===== *)
(** * SessionFactory: session pools and the life of session objects

    Models src/System/Session/SessionPool.h and SessionFactory.cpp.  Session
    objects live in one heap, with the class of each; a pool per class keeps the
    addresses of idle ones and counts them.  Growth in the background is a thread
    started by [TriggerBackgroundGrowth]; its body is the operation
    [background_growth].  [None] is undefined behaviour, such as releasing a
    session to the pool of another class. *)

From stdpp Require Import base numbers gmap functions list.
From S2P Require Import UdpRegistry UdpNetwork UdpSession.
From S2P Require Import Prelude RecvBuffer ConcurrentQueue Messages MessagePool Session Cipher TcpSession.

Inductive SessionClass := GatewayClass | BackendClass | UdpClass.

#[global] Instance SessionClass_eq_dec : EqDecision SessionClass.
Proof. solve_decision. Defined.

Inductive ServerRole := RoleGateway | RoleBackend.

Record SessionPool (Q : Type -> Type) := mkSessionPool {
  _idle : Q Z;
  _totalAllocated : Z;
  _availableCount : Z;
  _isGrowing : bool
}.
Arguments mkSessionPool {Q} _ _ _ _.
Arguments _idle {Q} _.
Arguments _totalAllocated {Q} _.
Arguments _availableCount {Q} _.
Arguments _isGrowing {Q} _.

Definition DEFAULT_GROWTH_SIZE : nat := 512.

Inductive SessionObj (Q : Type -> Type) (I : Type) :=
| TcpObj (c : SessionClass) (s : Session Q) (i : TcpImpl)
| UdpObj (s : Session Q) (i : UdpSession.UDPSessionImpl I).
Arguments TcpObj {Q I} _ _ _.
Arguments UdpObj {Q I} _ _.

Definition class_of {Q I} (o : SessionObj Q I) : SessionClass :=
  match o with TcpObj c _ _ => c | UdpObj _ _ => UdpClass end.

(** The heartbeat statics; the ping function by whether there is one. *)
Record HbConfig := mkHb { f_hbInterval : Z; f_hbTimeout : Z; f_hbPingFunc : bool }.

(** The statics of [SessionFactory], the pools, the session objects, and what the
    sessions' methods reach. *)
Record Factory (Q : Type -> Type) (T I : Type) := mkFactory {
  _nextSessionId : Z;
  _encryptionFactory : option IPacketEncryption;
  _rateLimit : Z * Z;
  _heartbeat : HbConfig;
  _serverRole : ServerRole;
  f_pools : SessionClass -> SessionPool Q;
  f_objs : gmap Z (SessionObj Q I);
  f_next : Z;
  f_mem : Mem Q T;
  f_posted : list Z;
  f_io : list IoOp;
  f_net : UdpNetwork.UdpNet Q
}.
Arguments mkFactory {Q T I} _ _ _ _ _ _ _ _ _ _ _ _.
Arguments _nextSessionId {Q T I} _.
Arguments _encryptionFactory {Q T I} _.
Arguments _rateLimit {Q T I} _.
Arguments _heartbeat {Q T I} _.
Arguments _serverRole {Q T I} _.
Arguments f_pools {Q T I} _.
Arguments f_objs {Q T I} _.
Arguments f_next {Q T I} _.
Arguments f_mem {Q T I} _.
Arguments f_posted {Q T I} _.
Arguments f_io {Q T I} _.
Arguments f_net {Q T I} _.

Section Factory.
Context {Q : Type -> Type} `{!ConcurrentQueue Q} {T I : Type} `{!UdpSession.Ikcp I}.
Context (sizeofPM : Z) (tid : nat).
Implicit Types f : Factory Q T I.

Definition set_spool (c : SessionClass) (p : SessionPool Q) f : Factory Q T I :=
  mkFactory (_nextSessionId f) (_encryptionFactory f) (_rateLimit f) (_heartbeat f) (_serverRole f)
    (<[c := p]> (f_pools f)) (f_objs f) (f_next f) (f_mem f) (f_posted f) (f_io f) (f_net f).

Definition set_objects (o : gmap Z (SessionObj Q I)) (next : Z) f : Factory Q T I :=
  mkFactory (_nextSessionId f) (_encryptionFactory f) (_rateLimit f) (_heartbeat f) (_serverRole f)
    (f_pools f) o next (f_mem f) (f_posted f) (f_io f) (f_net f).

Definition set_config (e : option IPacketEncryption) (r : Z * Z) (hb : HbConfig) (role : ServerRole) f : Factory Q T I :=
  mkFactory (_nextSessionId f) e r hb role (f_pools f) (f_objs f) (f_next f) (f_mem f) (f_posted f) (f_io f) (f_net f).

Definition take_session_id f : Z * Factory Q T I :=
  (_nextSessionId f,
   mkFactory (u64 (_nextSessionId f + 1)) (_encryptionFactory f) (_rateLimit f) (_heartbeat f) (_serverRole f)
     (f_pools f) (f_objs f) (f_next f) (f_mem f) (f_posted f) (f_io f) (f_net f)).

(** ** SessionPoolBase *)

(** [new T()] *)
Definition new_session (c : SessionClass) : SessionObj Q I :=
  match c with
  | UdpClass => UdpObj Session_new (UdpSession.mkUdp None 0 false (UdpRegistry.u128_of 0) None)
  | _ => TcpObj c Session_new TcpImpl_new
  end.

Fixpoint grow_loop (n : nat) (c : SessionClass) f : Factory Q T I :=
  match n with
  | O => f
  | S n =>
      let p := f_pools f c in
      let f := set_objects (<[f_next f := new_session c]> (f_objs f)) (f_next f + 1)
                 (set_spool c (mkSessionPool (enqueue (f_next f) (_idle p)) (_totalAllocated p)
                                 (_availableCount p) (_isGrowing p)) f) in
      grow_loop n c f
  end.

Definition Grow (count : nat) (c : SessionClass) f : Factory Q T I :=
  let f := grow_loop count c f in
  let p := f_pools f c in
  set_spool c (mkSessionPool (_idle p) (u64 (_totalAllocated p + Z.of_nat count))
                 (u64 (_availableCount p + Z.of_nat count)) (_isGrowing p)) f.

Definition WarmUp (expectedCCU : nat) (c : SessionClass) f : Factory Q T I :=
  Grow (expectedCCU + expectedCCU / 5) c f.

(** The winner of the exchange starts the background thread. *)
Definition TriggerBackgroundGrowth (c : SessionClass) f : Factory Q T I :=
  let p := f_pools f c in
  if _isGrowing p then f
  else set_spool c (mkSessionPool (_idle p) (_totalAllocated p) (_availableCount p) true) f.

Definition background_growth (c : SessionClass) f : Factory Q T I :=
  let f := Grow DEFAULT_GROWTH_SIZE c f in
  let p := f_pools f c in
  set_spool c (mkSessionPool (_idle p) (_totalAllocated p) (_availableCount p) false) f.

Definition Acquire (c : SessionClass) f : option Z * Factory Q T I :=
  let p := f_pools f c in
  match try_dequeue (_idle p) with
  | Some (s, q) =>
      let available := u64 (_availableCount p - 1) in
      let f := set_spool c (mkSessionPool q (_totalAllocated p) available (_isGrowing p)) f in
      (Some s, if u64 (available * 5) <? _totalAllocated p then TriggerBackgroundGrowth c f else f)
  | None =>
      let f := Grow DEFAULT_GROWTH_SIZE c f in
      let p := f_pools f c in
      match try_dequeue (_idle p) with
      | Some (s, q) =>
          (Some s, set_spool c (mkSessionPool q (_totalAllocated p) (u64 (_availableCount p - 1)) (_isGrowing p)) f)
      | None => (None, f)
      end
  end.

Definition Release (c : SessionClass) (s : Z) f : Factory Q T I :=
  let p := f_pools f c in
  set_spool c (mkSessionPool (enqueue s (_idle p)) (_totalAllocated p) (u64 (_availableCount p + 1)) (_isGrowing p)) f.

(** [delete session] for every idle session. *)
Definition Clear (c : SessionClass) f : Factory Q T I :=
  let p := f_pools f c in
  let '(ss, q) := drain_all (_idle p) in
  set_objects (foldl (fun m s => delete s m) (f_objs f) ss) (f_next f)
    (set_spool c (mkSessionPool q 0 0 (_isGrowing p)) f).

(** ** SessionFactory *)

(** Calling a method of the session at [p]. *)
Definition call_tcp {A} (p : Z) (method : M Q T TcpImpl A) f : option (Factory Q T I) :=
  match f_objs f !! p with
  | Some (TcpObj c s i) =>
      '(_, w) ← method (mkWorld s i (f_mem f) (f_posted f) (f_io f));
      Some (mkFactory (_nextSessionId f) (_encryptionFactory f) (_rateLimit f) (_heartbeat f) (_serverRole f)
              (f_pools f) (<[p := TcpObj c (ses w) (impl w)]> (f_objs f)) (f_next f)
              (mem w) (posted w) (io w) (f_net f))
  | _ => None
  end.

Definition call_udp {A} (p : Z) (method : M Q T (UdpSession.UdpState Q I) A) f : option (Factory Q T I) :=
  match f_objs f !! p with
  | Some (UdpObj s i) =>
      '(_, w) ← method (mkWorld s (UdpSession.mkUS i (f_net f)) (f_mem f) (f_posted f) (f_io f));
      Some (mkFactory (_nextSessionId f) (_encryptionFactory f) (_rateLimit f) (_heartbeat f) (_serverRole f)
              (f_pools f) (<[p := UdpObj (ses w) (UdpSession.self (impl w))]> (f_objs f)) (f_next f)
              (mem w) (posted w) (io w) (UdpSession.unet (impl w)))
  | _ => None
  end.

(** What is done to a session taken from its pool.  The ping callback passed on is
    a lambda, so it is always set. *)
Definition gateway_setup (socket : option bool) (sid : Z) (dispatcher : bool) (now : Z)
    (e : option IPacketEncryption) (hb : HbConfig) : M Q T TcpImpl unit :=
  Gateway.Reset_socket tid socket sid dispatcher now;;
  (match e with Some c => Gateway.SetEncryption (Some c) | None => mret () end);;
  (if 0 <? f_hbInterval hb then ConfigHeartbeat true (f_hbInterval hb) (f_hbTimeout hb) true else mret ()).

Definition backend_setup (socket : option bool) (sid : Z) (dispatcher : bool) (now : Z) (hb : HbConfig) :
    M Q T TcpImpl unit :=
  Backend.Reset_socket tid socket sid dispatcher now;;
  (if 0 <? f_hbInterval hb then Backend.ConfigHeartbeat (f_hbInterval hb) (f_hbTimeout hb) true else mret ()).

Definition CreateSession (socket : option bool) (dispatcher : bool) (now : Z) f : option (option Z * Factory Q T I) :=
  let '(sid, f) := take_session_id f in
  match _serverRole f with
  | RoleGateway =>
      match Acquire GatewayClass f with
      | (None, f) => Some (None, f)
      | (Some p, f) =>
          f ← call_tcp p (gateway_setup socket sid dispatcher now (_encryptionFactory f) (_heartbeat f)) f;
          Some (Some p, f)
      end
  | RoleBackend =>
      match Acquire BackendClass f with
      | (None, f) => Some (None, f)
      | (Some p, f) =>
          f ← call_tcp p (backend_setup socket sid dispatcher now (_heartbeat f)) f;
          Some (Some p, f)
      end
  end.

Definition CreateUDPSession (endpoint : Z) (dispatcher : bool) (now : Z) (token : UdpRegistry.uint128_t) f :
    option (option Z * Factory Q T I) :=
  let '(sid, f) := take_session_id f in
  match Acquire UdpClass f with
  | (None, f) => Some (None, f)
  | (Some p, f) =>
      f ← call_udp p (UdpSession.Reset tid sid dispatcher endpoint now token;; UdpSession.OnConnect) f;
      Some (Some p, f)
  end.

(** [OnRecycle] is virtual; the pool is chosen by a [dynamic_cast] for UDP and by
    the server's role otherwise, where the [static_cast] must be right. *)
Definition Destroy (session : option Z) f : option (Factory Q T I) :=
  match session with
  | None => Some f
  | Some p =>
  match f_objs f !! p with
  | Some (UdpObj _ _) => f ← call_udp p (UdpSession.OnRecycle tid) f; Some (Release UdpClass p f)
  | Some (TcpObj GatewayClass _ _) =>
      f ← call_tcp p (Gateway.OnRecycle sizeofPM tid p) f;
      match _serverRole f with RoleGateway => Some (Release GatewayClass p f) | RoleBackend => None end
  | Some (TcpObj BackendClass _ _) =>
      f ← call_tcp p (Backend.OnRecycle sizeofPM tid p) f;
      match _serverRole f with RoleBackend => Some (Release BackendClass p f) | RoleGateway => None end
  | _ => None
  end
  end.

Definition SetEncryptionFactory (e : option IPacketEncryption) f : Factory Q T I :=
  set_config e (_rateLimit f) (_heartbeat f) (_serverRole f) f.

Definition SetRateLimitConfig (rate burst : Z) f : Factory Q T I :=
  set_config (_encryptionFactory f) (rate, burst) (_heartbeat f) (_serverRole f) f.

Definition SetHeartbeatConfig (intervalMs timeoutMs : Z) (pingFunc : bool) f : Factory Q T I :=
  set_config (_encryptionFactory f) (_rateLimit f) (mkHb intervalMs timeoutMs pingFunc) (_serverRole f) f.

Definition SetServerRole (role : ServerRole) f : Factory Q T I :=
  set_config (_encryptionFactory f) (_rateLimit f) (_heartbeat f) role f.

Definition Cleanup f : Factory Q T I := Clear UdpClass (Clear BackendClass (Clear GatewayClass f)).

End Factory.

(** ** Invariant of a pool

    [held] lists the sessions of class [c] acquired and not yet released. *)

Section Pool.
Context {Q : Type -> Type} `{!ConcurrentQueue Q} {T I : Type}.
Context (c : SessionClass).
Implicit Types f : Factory Q T I.

Definition idle f : list Z := contents (_idle (f_pools f c)).

Definition of_class f (p : Z) : Prop := exists o, f_objs f !! p = Some o /\ class_of o = c.

Record pool_inv (held : list Z) f : Prop := mk_pool_inv {
  pi_fresh : forall p, is_Some (f_objs f !! p) -> p < f_next f;
  pi_class : forall p, p ∈ idle f ++ held -> of_class f p;
  pi_nodup : NoDup (idle f ++ held);
  pi_count : _availableCount (f_pools f c) = Z.of_nat (length (idle f))
}.

Lemma class_of_new : class_of (new_session (Q := Q) (I := I) c) = c.
Proof. by destruct c. Qed.

Lemma set_spool_same p f : f_pools (set_spool c p f) c = p.
Proof. cbn. by rewrite fn_lookup_insert. Qed.

Lemma grow_loop_spec n held f :
  (forall p, is_Some (f_objs f !! p) -> p < f_next f) ->
  (forall p, p ∈ idle f ++ held -> of_class f p) -> NoDup (idle f ++ held) ->
  let f' := grow_loop n c f in
  (forall p, is_Some (f_objs f' !! p) -> p < f_next f') /\
  (forall p, p ∈ idle f' ++ held -> of_class f' p) /\ NoDup (idle f' ++ held) /\
  length (idle f') = (length (idle f) + n)%nat /\
  _availableCount (f_pools f' c) = _availableCount (f_pools f c) /\ f_objs f ⊆ f_objs f'.
Proof.
  revert f; induction n as [|n IH]; intros f Hf Hc Hn; cbn [grow_loop]; [rewrite Nat.add_0_r; by split_and!|].
  set (f1 := set_objects _ _ _).
  assert (idle f1 ≡ₚ f_next f :: idle f) as Hi.
  { unfold idle, f1. cbn. rewrite fn_lookup_insert. cbn. apply contents_enqueue. }
  assert (f_objs f !! f_next f = None) as Hnone.
  { apply eq_None_not_Some. intros H. apply Hf in H. lia. }
  destruct (IH f1) as (H1 & H2 & H3 & H4 & H5 & H6).
  - intros p. unfold f1. cbn. rewrite lookup_insert. case_decide as E; [subst; lia|]. intros Hp. apply Hf in Hp. lia.
  - intros p. rewrite Hi. intros [->|Hp]%elem_of_cons; unfold of_class, f1; cbn.
    + rewrite lookup_insert_eq. eexists. split; [done|]. apply class_of_new.
    + destruct (Hc p Hp) as (o & Ho & Hk). rewrite lookup_insert_ne by (intros <-; congruence). by exists o.
  - rewrite Hi. apply NoDup_cons. split; [|done]. intros Hp. destruct (Hc _ Hp) as (o & Ho & _). congruence.
  - split_and!; try done.
    + rewrite H4, (Permutation_length Hi). simpl. lia.
    + rewrite H5. unfold f1. cbn. by rewrite fn_lookup_insert.
    + etransitivity; [|exact H6]. unfold f1. cbn. by apply insert_subseteq.
Qed.

Lemma Grow_spec n held f :
  pool_inv held f -> Z.of_nat (length (idle f) + n) < 2 ^ 64 ->
  pool_inv held (Grow n c f) /\ length (idle (Grow n c f)) = (length (idle f) + n)%nat /\
  f_objs f ⊆ f_objs (Grow n c f).
Proof.
  intros [Hf Hc Hn Hk] Hroom. destruct (grow_loop_spec n held f Hf Hc Hn) as (H1 & H2 & H3 & H4 & H5 & H6).
  unfold Grow. set (g := grow_loop n c f) in *.
  match goal with |- context [set_spool c ?p g] => assert (idle (set_spool c p g) = idle g) as Hi
    by (unfold idle; by rewrite set_spool_same) end.
  split; [|rewrite Hi; by split]. split; rewrite ?Hi; try done. rewrite set_spool_same. cbn [_availableCount].
  rewrite H5, Hk, H4, wrap_small; [lia|]. unfold in_u. lia.
Qed.

(** Replacing the flags of a pool. *)
Lemma pool_inv_flags held f t g :
  pool_inv held f ->
  pool_inv held (set_spool c (mkSessionPool (_idle (f_pools f c)) t (_availableCount (f_pools f c)) g) f).
Proof.
  intros [Hf Hc Hn Hk].
  split; unfold idle in *; rewrite ?set_spool_same; done.
Qed.

Lemma dequeue_spec held f s q t g :
  pool_inv held f -> try_dequeue (_idle (f_pools f c)) = Some (s, q) -> Z.of_nat (length (idle f)) < 2 ^ 64 ->
  pool_inv (s :: held) (set_spool c (mkSessionPool q t (u64 (_availableCount (f_pools f c) - 1)) g) f) /\
  length (idle f) = S (length (contents q)).
Proof.
  intros [Hf Hc Hn Hk] Hq Hroom. pose proof (try_dequeue_Some _ _ _ _ Hq) as Hp.
  assert (length (idle f) = S (length (contents q))) as Hlen by (unfold idle; by rewrite Hp).
  assert (contents q ++ s :: held ≡ₚ idle f ++ held) as Hperm by (unfold idle; rewrite Hp; solve_Permutation).
  set (f' := set_spool c _ f). assert (idle f' = contents q) as Hi by (unfold idle, f'; by rewrite set_spool_same).
  split; [|done]. split; rewrite ?Hi.
  - done.
  - intros p. rewrite Hperm. apply Hc.
  - by rewrite Hperm.
  - unfold f'. rewrite set_spool_same. cbn [_availableCount]. rewrite Hk, Hlen, wrap_small; [lia|]. unfold in_u. lia.
Qed.

(** The second half of [Acquire], for any growth. *)
Definition emergency (n : nat) f : option Z * Factory Q T I :=
  let g := Grow n c f in
  let p := f_pools g c in
  match try_dequeue (_idle p) with
  | Some (s, q) =>
      (Some s, set_spool c (mkSessionPool q (_totalAllocated p) (u64 (_availableCount p - 1)) (_isGrowing p)) g)
  | None => (None, g)
  end.

Lemma emergency_spec n held f :
  pool_inv held f -> (0 < n)%nat -> Z.of_nat (length (idle f) + n) < 2 ^ 64 ->
  exists s f', emergency n f = (Some s, f') /\ pool_inv (s :: held) f' /\ f_objs f ⊆ f_objs f' /\
    (length (idle f') <= length (idle f) + n)%nat.
Proof.
  intros Hi Hn Hroom. unfold emergency. destruct (Grow_spec n held f Hi Hroom) as (H1 & Hlen & Hsub).
  set (g := Grow n c f) in *. destruct (try_dequeue (_idle (f_pools g c))) as [[s q]|] eqn:Eq2.
  - destruct (dequeue_spec held g s q (_totalAllocated (f_pools g c)) (_isGrowing (f_pools g c)) H1 Eq2 ltac:(lia))
      as [H2 Hl2]. eexists s, _. split; [reflexivity|]. split_and!; [done|done|].
    unfold idle at 1. rewrite set_spool_same. cbn [_idle]. lia.
  - apply try_dequeue_None in Eq2. unfold idle in Hlen. rewrite Eq2 in Hlen. simpl in Hlen. lia.
Qed.

Lemma Acquire_eq f :
  Acquire c f =
  match try_dequeue (_idle (f_pools f c)) with
  | Some (s, q) =>
      let available := u64 (_availableCount (f_pools f c) - 1) in
      let f1 := set_spool c (mkSessionPool q (_totalAllocated (f_pools f c)) available (_isGrowing (f_pools f c))) f in
      (Some s, if u64 (available * 5) <? _totalAllocated (f_pools f c) then TriggerBackgroundGrowth c f1 else f1)
  | None => emergency DEFAULT_GROWTH_SIZE f
  end.
Proof. reflexivity. Qed.

Lemma Acquire_spec held f :
  pool_inv held f -> Z.of_nat (length (idle f) + DEFAULT_GROWTH_SIZE) < 2 ^ 64 ->
  exists s f', Acquire c f = (Some s, f') /\ pool_inv (s :: held) f' /\ f_objs f ⊆ f_objs f' /\
    (length (idle f') <= length (idle f) + DEFAULT_GROWTH_SIZE)%nat.
Proof.
  rewrite Acquire_eq. assert (0 < DEFAULT_GROWTH_SIZE)%nat as Hpos by (apply Nat.ltb_lt; reflexivity).
  generalize dependent DEFAULT_GROWTH_SIZE. intros n Hpos Hi Hroom.
  destruct (try_dequeue (_idle (f_pools f c))) as [[s q]|] eqn:Eq; [|by apply emergency_spec].
  destruct (dequeue_spec held f s q (_totalAllocated (f_pools f c)) (_isGrowing (f_pools f c)) Hi Eq ltac:(lia))
    as [H1 Hlen]. cbv zeta. set (f1 := set_spool c _ f) in *. eexists s, _. split; [reflexivity|].
  assert (idle f1 = contents q) as Hq by (unfold idle, f1; by rewrite set_spool_same).
  case_match; [|split_and!; [done|done|rewrite Hq; lia]].
  unfold TriggerBackgroundGrowth. case_match; [split_and!; [done|done|rewrite Hq; lia]|].
  split_and!; [by apply pool_inv_flags|done|]. unfold idle in *. rewrite set_spool_same. cbn [_idle].
  rewrite Hq. lia.
Qed.

Lemma pool_release_spec held f s :
  pool_inv (s :: held) f -> Z.of_nat (length (idle f)) + 1 < 2 ^ 64 ->
  pool_inv held (Release c s f) /\ length (idle (Release c s f)) = S (length (idle f)).
Proof.
  intros [Hf Hc Hn Hk] Hroom.
  assert (idle (Release c s f) ≡ₚ s :: idle f) as Hp.
  { unfold Release, idle. rewrite set_spool_same. cbn [_idle]. apply contents_enqueue. }
  assert (idle (Release c s f) ++ held ≡ₚ idle f ++ s :: held) as Hperm by (rewrite Hp; solve_Permutation).
  split; [|by rewrite Hp]. split; [done| | |].
  - intros p. rewrite Hperm. apply Hc.
  - by rewrite Hperm.
  - rewrite (Permutation_length Hp). unfold Release. rewrite set_spool_same. cbn [_availableCount].
    rewrite Hk, wrap_small; [simpl; lia|]. unfold in_u. lia.
Qed.

Lemma growth_size : Z.of_nat DEFAULT_GROWTH_SIZE = 512.
Proof. reflexivity. Qed.

Lemma background_growth_spec held f :
  pool_inv held f -> Z.of_nat (length (idle f)) + 512 < 2 ^ 64 ->
  pool_inv held (background_growth c f) /\
  Z.of_nat (length (idle (background_growth c f))) = Z.of_nat (length (idle f)) + 512.
Proof.
  rewrite <- growth_size. unfold background_growth. generalize DEFAULT_GROWTH_SIZE. intros n Hi Hroom.
  destruct (Grow_spec n held f Hi ltac:(lia)) as (H1 & Hlen & _). set (g := Grow n c f) in *.
  split; [by apply pool_inv_flags|]. unfold idle in *. rewrite set_spool_same. cbn [_idle]. lia.
Qed.

(** ** Sequences of pool operations *)

Inductive PoolOp := PoolAcquire | PoolRelease (k : nat) | PoolBackground.

(** [held]: what the clients hold; a release gives back the [k]-th of it. *)
Definition pool_exec (o : PoolOp) (st : list Z * Factory Q T I) : option (list Z * Factory Q T I) :=
  let '(held, f) := st in
  match o with
  | PoolAcquire => match Acquire c f with (Some s, f') => Some (s :: held, f') | (None, _) => None end
  | PoolRelease k => match held !! k with Some s => Some (delete k held, Release c s f) | None => Some st end
  | PoolBackground => Some (held, background_growth c f)
  end.

Fixpoint pool_run (ops : list PoolOp) (st : list Z * Factory Q T I) : option (list Z * Factory Q T I) :=
  match ops with [] => Some st | o :: ops => st1 ← pool_exec o st; pool_run ops st1 end.

#[export] Instance pool_inv_proper : Proper (Permutation ==> eq ==> iff) pool_inv.
Proof.
  assert (forall h h' f, h ≡ₚ h' -> pool_inv h f -> pool_inv h' f) as H.
  { intros h h' f Hp [Hf Hc Hn Hk]. split; try done; [intros p|]; rewrite <- Hp; [apply Hc|done]. }
  intros h h' Hp f ? <-. split; by apply H.
Qed.

Lemma pool_exec_ok o held f :
  pool_inv held f -> Z.of_nat (length (idle f)) + 513 < 2 ^ 64 ->
  exists held' f', pool_exec o (held, f) = Some (held', f') /\ pool_inv held' f' /\
    Z.of_nat (length (idle f')) <= Z.of_nat (length (idle f)) + 513.
Proof.
  intros Hi Hroom. pose proof growth_size. destruct o as [|k|]; cbn [pool_exec].
  - destruct (Acquire_spec held f Hi ltac:(lia)) as (s & f' & -> & Hi' & _ & Hl).
    exists (s :: held), f'. split_and!; [done|done|lia].
  - destruct (held !! k) as [s|] eqn:Ek; [|exists held, f; split_and!; [done|done|lia]].
    rewrite (delete_Permutation _ _ _ Ek) in Hi. destruct (pool_release_spec _ f s Hi ltac:(lia)) as [Hi' Hl].
    exists (delete k held), (Release c s f). split_and!; [done|done|lia].
  - destruct (background_growth_spec held f Hi ltac:(lia)) as [Hi' Hl].
    exists held, (background_growth c f). split_and!; [done|done|lia].
Qed.

(** C13: A session pool hands every session to one client at a time: in any sequence
    of acquisitions, releases and background growth from a consistent pool, every
    acquisition succeeds, the sessions held and idle are distinct objects of the
    pool's class, and the count of available sessions is exact. *)
Theorem session_pool_exclusive ops held f
  (Hinv : pool_inv held f) (Hroom : Z.of_nat (length (idle f)) + 513 * Z.of_nat (length ops) < 2 ^ 64) :
  exists held' f', pool_run ops (held, f) = Some (held', f') /\
    NoDup (idle f' ++ held') /\ Forall (of_class f') held' /\
    _availableCount (f_pools f' c) = Z.of_nat (length (idle f')).
Proof.
  revert held f Hinv Hroom; induction ops as [|o ops IH]; intros held f Hinv Hroom; cbn [pool_run].
  - exists held, f. destruct Hinv as [_ Hc Hn Hk]. split_and!; try done.
    apply Forall_forall. intros p Hp. apply Hc. rewrite elem_of_app. by right.
  - cbn [length] in Hroom. destruct (pool_exec_ok o held f Hinv ltac:(lia)) as (h1 & f1 & -> & Hi1 & Hl1).
    cbn [mbind option_bind]. apply IH; [done|lia].
Qed.

End Pool.

(** ** What a created session looks like *)

Section Create.
Context {Q : Type -> Type} `{!ConcurrentQueue Q} {T I : Type} `{!UdpSession.Ikcp I}.
Context (sizeofPM : Z) (tid : nat).
Implicit Types f : Factory Q T I.

(** Pool operations leave the rest of the program alone. *)
Definition same_rest f f' : Prop :=
  f_mem f' = f_mem f /\ f_posted f' = f_posted f /\ f_io f' = f_io f /\ f_net f' = f_net f /\
  _encryptionFactory f' = _encryptionFactory f /\ _heartbeat f' = _heartbeat f /\
  _serverRole f' = _serverRole f /\ _nextSessionId f' = _nextSessionId f.

Lemma grow_loop_new c n f :
  (forall p, is_Some (f_objs f !! p) -> p < f_next f) ->
  let f' := grow_loop n c f in
  same_rest f f' /\ (forall p o, f_objs f !! p = Some o -> f_objs f' !! p = Some o) /\
  forall p, p ∈ idle c f' -> p ∈ idle c f \/ f_objs f' !! p = Some (new_session c).
Proof.
  revert f; induction n as [|n IH]; intros f Hf; cbn [grow_loop]; [split_and!; [done|done|by left]|].
  set (f1 := set_objects _ _ _).
  assert (f_objs f !! f_next f = None) as Hnone.
  { apply eq_None_not_Some. intros Hs. apply Hf in Hs. lia. }
  destruct (IH f1) as (H1 & H2 & H3).
  { intros p. unfold f1. cbn. rewrite lookup_insert. case_decide as E; [subst; lia|]. intros Hp. apply Hf in Hp. lia. }
  split_and!; [done| |].
  - intros p o Ho. apply H2. unfold f1. cbn. rewrite lookup_insert_ne; [done|]. intros <-. congruence.
  - intros p Hp. destruct (H3 p Hp) as [Hp1|Hp1]; [|by right].
    unfold idle, f1 in Hp1. cbn in Hp1. rewrite fn_lookup_insert in Hp1. cbn in Hp1.
    rewrite contents_enqueue in Hp1. apply elem_of_cons in Hp1 as [->|Hp1]; [|by left].
    right. apply H2. unfold f1. cbn. by rewrite lookup_insert_eq.
Qed.

(** The acquired session is an idle one or a new one. *)
Lemma Acquire_from c f s f' :
  (forall p, is_Some (f_objs f !! p) -> p < f_next f) -> Acquire c f = (Some s, f') ->
  same_rest f f' /\ (forall p o, f_objs f !! p = Some o -> f_objs f' !! p = Some o) /\
  (s ∈ idle c f \/ f_objs f' !! s = Some (new_session c)).
Proof.
  intros Hf. rewrite Acquire_eq. generalize DEFAULT_GROWTH_SIZE. intros n.
  destruct (try_dequeue (_idle (f_pools f c))) as [[s0 q]|] eqn:Eq.
  - cbv zeta. intros [= <- <-].
    assert (s0 ∈ idle c f) as Hin by (unfold idle; rewrite (try_dequeue_Some _ _ _ _ Eq); left).
    unfold TriggerBackgroundGrowth. repeat case_match; (split_and!; [done|done|by left]).
  - unfold emergency, Grow. destruct (grow_loop_new c n f Hf) as (H1 & H2 & H3). set (g := grow_loop n c f) in *.
    rewrite set_spool_same. cbn [_idle]. destruct (try_dequeue (_idle (f_pools g c))) as [[s0 q]|] eqn:Eq2; [|done].
    intros [= <- <-]. split_and!; [done|done|]. apply H3. unfold idle. rewrite (try_dequeue_Some _ _ _ _ Eq2). left.
Qed.

Lemma Session_Reset_spec {X} (w : World Q T X) l :
  mem_inv sizeofPM (mem w) -> refs_ok (mem w) (contents (_sendQueue (ses w)) ++ l) ->
  exists m q, contents q = [] /\ mem_inv sizeofPM m /\ refs_ok m l /\
    Session_Reset tid w = Some (tt, mkWorld (mkSession (_id (ses w)) (_dispatcher (ses w)) false 0 q false)
      (impl w) m (posted w) (io w)).
Proof.
  intros Hi Hr. unfold Session_Reset. rewrite !run_modify_ses, run_gets. cbn [ses set_connected set_ioRef set_isSending _sendQueue].
  destruct (drain_all (_sendQueue (ses w))) as [ps q] eqn:Ed. destruct (drain_all_spec _ _ _ Ed) as [Hq Hps].
  rewrite run_modify_ses. set (w1 := mkWorld _ _ _ _ _). rewrite <- Hps in Hr.
  destruct (free_all_ok sizeofPM tid ps l w1 Hi Hr) as (m' & Hrun & Hm & Hl & _).
  exists m', q. split_and!; done.
Qed.

(** An idle gateway session: its cipher is gone, and the packets left in its queue
    are still its own. *)
Definition clean_gateway (rest : list Z) f (p : Z) : Prop :=
  exists s i, f_objs f !! p = Some (TcpObj GatewayClass s i) /\ _encryption i = None /\
    refs_ok (f_mem f) (contents (_sendQueue s) ++ rest).

Lemma gateway_reset_spec sid disp now rest (w : World Q T TcpImpl) :
  mem_inv sizeofPM (mem w) -> refs_ok (mem w) (contents (_sendQueue (ses w)) ++ rest) ->
  exists m q, contents q = [] /\ mem_inv sizeofPM m /\ refs_ok m rest /\
    Gateway.Reset_socket tid (Some true) sid disp now w =
    Some (tt, mkWorld (mkSession sid disp false 0 q false)
      (set_lastRecvTime now (set_recvBuffer (RecvBuffer_Reset (_recvBuffer (impl w)))
        (set_timers true (set_socket (Some true) (impl w))))) m (posted w) (io w ++ [SetNoDelay])).
Proof.
  intros Hi Hr. destruct (Session_Reset_spec w rest Hi Hr) as (m & q & Hq & Hm & Hl & Hrun).
  exists m, q. split_and!; [done|done|done|]. unfold Gateway.Reset_socket. rewrite (run_step _ _ _ _ _ Hrun).
  destruct w as [s i mw po ops], i. reflexivity.
Qed.

(** The configuration that follows the reset. *)
Lemma gateway_config_spec e hb s i (m : Mem Q T) po ops :
  _encryption i = None -> _heartbeatTimer i = true ->
  exists w', ((match e with Some c => Gateway.SetEncryption (Some c) | None => mret () end);;
      (if 0 <? f_hbInterval hb then ConfigHeartbeat true (f_hbInterval hb) (f_hbTimeout hb) true else mret ()))
      (mkWorld s i m po ops) = Some (tt, w') /\
    mem w' = m /\ posted w' = po /\ _encryption (impl w') = e /\ _socket (impl w') = _socket i /\
    _recvBuffer (impl w') = _recvBuffer i /\ _lastRecvTime (impl w') = _lastRecvTime i /\
    ses w' = (if 0 <? f_hbInterval hb then set_ioRef (i32 (_ioRef s + 1)) s else s).
Proof.
  destruct i. cbn. intros -> ->. unfold ConfigHeartbeat.
  destruct e as [c|], (0 <? f_hbInterval hb) eqn:Eh; (eexists; split; [reflexivity|]); by split_and!.
Qed.

Lemma gateway_setup_spec sid disp now e hb rest (w : World Q T TcpImpl) :
  mem_inv sizeofPM (mem w) -> refs_ok (mem w) (contents (_sendQueue (ses w)) ++ rest) ->
  _encryption (impl w) = None ->
  exists w', gateway_setup tid (Some true) sid disp now e hb w = Some (tt, w') /\
    mem_inv sizeofPM (mem w') /\ refs_ok (mem w') rest /\ posted w' = posted w /\
    contents (_sendQueue (ses w')) = [] /\ _id (ses w') = sid /\ _dispatcher (ses w') = disp /\
    _connected (ses w') = false /\ _isSending (ses w') = false /\
    _ioRef (ses w') = (if 0 <? f_hbInterval hb then 1 else 0) /\
    _socket (impl w') = Some true /\ _encryption (impl w') = e /\ unread (_recvBuffer (impl w')) = [] /\
    _lastRecvTime (impl w') = now.
Proof.
  intros Hi Hr He. destruct (gateway_reset_spec sid disp now rest w Hi Hr) as (m & q & Hq & Hm & Hl & Hrun).
  unfold gateway_setup. rewrite (run_step _ _ _ _ _ Hrun).
  edestruct (gateway_config_spec e hb) as (w' & -> & Em & Ep & Ee & Eso & Eb & Et & Es);
    [exact He|reflexivity|].
  exists w'. rewrite Em, Ep, Ee, Eso, Eb, Et, Es. destruct (0 <? f_hbInterval hb); by split_and!.
Qed.

(** A recycled session starts from scratch: [CreateSession] on a gateway server
    never fails, and whichever idle (or new) object it picks, the session is held
    by nobody else, is disconnected with an empty send queue (what was left in it
    is released), no bytes to read, no sending flag, the new id and dispatcher, the
    configured cipher and no other, and references only for its heartbeat timer. *)
Theorem created_session_is_fresh disp now f held rest
  (Hrole : _serverRole f = RoleGateway) (Hinv : pool_inv GatewayClass held f)
  (Hroom : Z.of_nat (length (idle GatewayClass f) + DEFAULT_GROWTH_SIZE) < 2 ^ 64)
  (Hmem : mem_inv sizeofPM (f_mem f)) (Hrest : refs_ok (f_mem f) rest)
  (Hclean : Forall (clean_gateway rest f) (idle GatewayClass f)) :
  exists p f' s i, CreateSession tid (Some true) disp now f = Some (Some p, f') /\ (p ∉ held) /\
    f_objs f' !! p = Some (TcpObj GatewayClass s i) /\
    contents (_sendQueue s) = [] /\ _id s = _nextSessionId f /\ _dispatcher s = disp /\
    _connected s = false /\ _isSending s = false /\ _ioRef s = (if 0 <? f_hbInterval (_heartbeat f) then 1 else 0) /\
    _encryption i = _encryptionFactory f /\ unread (_recvBuffer i) = [] /\
    mem_inv sizeofPM (f_mem f') /\ refs_ok (f_mem f') rest /\ f_posted f' = f_posted f.
Proof.
  unfold CreateSession, take_session_id. set (f0 := mkFactory _ _ _ _ _ _ _ _ _ _ _ _). cbn [_serverRole f0]. rewrite Hrole.
  assert (pool_inv GatewayClass held f0) as Hinv0 by (destruct Hinv; by split).
  destruct (Acquire_spec GatewayClass held f0 Hinv0 Hroom) as (p & f1 & Ha & Hinv1 & _ & _).
  destruct (Acquire_from GatewayClass f0 p f1 (pi_fresh _ _ _ Hinv0) Ha) as (Hsame & Hold & Hfrom).
  destruct Hsame as (Em & Ep & Eio & En & Ee & Eh & Er & Eid). rewrite Ha.
  assert (exists s i, f_objs f1 !! p = Some (TcpObj GatewayClass s i) /\ _encryption i = None /\
    refs_ok (f_mem f1) (contents (_sendQueue s) ++ rest)) as (s & i & Ho & Henc & Hr).
  { rewrite Em. destruct Hfrom as [Hin|Hnew].
    - rewrite Forall_forall in Hclean. destruct (Hclean p Hin) as (s & i & Ho & He & Hr). exists s, i. split_and!; [by apply Hold|done|done].
    - eexists _, _. split; [exact Hnew|]. split; [done|]. cbn. by rewrite contents_empty. }
  unfold call_tcp. rewrite Ho.
  destruct (gateway_setup_spec (_nextSessionId f) disp now (_encryptionFactory f1) (_heartbeat f1) rest
    (mkWorld s i (f_mem f1) (f_posted f1) (f_io f1))) as (w' & Hrun & Hm' & Hr' & Hp' & Hq & Hid & Hd & Hc & Hs & Hio & Hso & He & Hu & _);
    [by rewrite Em|done|done|]. rewrite Hrun. cbn [mbind option_bind].
  eexists p, _, (ses w'), (impl w'). split; [reflexivity|].
  split; [|cbn; rewrite lookup_insert_eq; split_and!; try done; [by rewrite Hio, Eh|by rewrite He, Ee|by rewrite Hp', Ep]].
  intros Hin. pose proof (pi_nodup _ _ _ Hinv1) as Hn. apply NoDup_app in Hn as (_ & _ & Hn).
  apply NoDup_cons in Hn as [Hn _]. done.
Qed.

(** What the recycling of a gateway session does to it. *)
Lemma gateway_recycle_spec p (w : World Q T TcpImpl) :
  tcp_inv sizeofPM w ->
  exists w', Gateway.OnRecycle sizeofPM tid p w = Some (tt, w') /\ tcp_inv sizeofPM w' /\
    _socket (impl w') = None /\ _encryption (impl w') = None /\
    (is_open (impl w) = true -> _connected (ses w') = false).
Proof.
  intros Hi.
  assert (exists w1, ((if is_open (impl w) then Close sizeofPM tid p else mret ()) : M Q T TcpImpl unit) w
      = Some (tt, w1) /\ tcp_inv sizeofPM w1 /\ (is_open (impl w) = true -> _connected (ses w1) = false))
    as (w1 & Hrun & Hi1 & Hc).
  { destruct (is_open (impl w)); [|by exists w].
    destruct (Close_spec sizeofPM tid p w Hi) as (w1 & ? & ? & _ & ? & _). by exists w1. }
  unfold Gateway.OnRecycle. rewrite run_gets, (run_step _ _ _ _ _ Hrun). clear Hrun.
  eexists. split; [reflexivity|]. destruct Hi1, w1 as [s i m po ops], i. split_and!; done.
Qed.

Lemma refs_ok_app_l (m : Mem Q T) l l' : refs_ok m (l ++ l') -> refs_ok m l.
Proof.
  rewrite (Permutation_app_comm l l'). induction l' as [|a l' IH]; [done|].
  intros Hr. apply IH. by apply (refs_ok_tail _ a).
Qed.

(** Destroying a held gateway session returns it to its pool: [Destroy] runs to
    the end, the pool stays consistent with one idle session more and one held
    session less, and the idle object has no socket, no cipher, is disconnected if
    its socket was open, and owns what is left in its queue, so that it can be
    created again. *)
Theorem destroyed_session_returns_clean f p s i held
  (Hrole : _serverRole f = RoleGateway) (Hinv : pool_inv GatewayClass (p :: held) f)
  (Hroom : Z.of_nat (length (idle GatewayClass f)) + 1 < 2 ^ 64)
  (Hobj : f_objs f !! p = Some (TcpObj GatewayClass s i))
  (Htcp : tcp_inv sizeofPM (mkWorld s i (f_mem f) (f_posted f) (f_io f))) :
  exists f' s' i', Destroy sizeofPM tid (Some p) f = Some f' /\ pool_inv GatewayClass held f' /\
    (p ∈ idle GatewayClass f') /\ mem_inv sizeofPM (f_mem f') /\ refs_ok (f_mem f') (f_posted f') /\
    f_objs f' !! p = Some (TcpObj GatewayClass s' i') /\ clean_gateway (f_posted f') f' p /\
    _socket i' = None /\ (is_open i = true -> _connected s' = false).
Proof.
  unfold Destroy. rewrite Hobj. unfold call_tcp. rewrite Hobj.
  destruct (gateway_recycle_spec p _ Htcp) as (w' & -> & Hi' & Hso & He & Hc). cbn [mbind option_bind _serverRole].
  rewrite Hrole. set (f1 := mkFactory _ _ _ _ _ _ _ _ _ _ _ _).
  assert (pool_inv GatewayClass (p :: held) f1) as Hinv1.
  { destruct Hinv as [Hf Hk Hn Hv]. split; [| |done|done].
    - intros a. cbn. rewrite lookup_insert. case_decide as E; [subst; intros _; by apply Hf|]. apply Hf.
    - intros a Ha. unfold of_class, f1. cbn. rewrite lookup_insert. case_decide; [by eexists|]. by apply Hk. }
  destruct (pool_release_spec GatewayClass held f1 p Hinv1 Hroom) as [Hinv2 _].
  assert (f_objs (Release GatewayClass p f1) !! p = Some (TcpObj GatewayClass (ses w') (impl w'))) as Ho.
  { cbn. by rewrite lookup_insert_eq. }
  destruct Hi' as [Hm Hr _]. unfold owned in Hr. rewrite app_assoc in Hr. apply refs_ok_app_l in Hr.
  exists (Release GatewayClass p f1), (ses w'), (impl w'). split_and!; try done.
  - unfold Release, idle. rewrite set_spool_same. cbn [_idle]. rewrite contents_enqueue. left.
  - by apply refs_ok_app_l in Hr.
  - exists (ses w'), (impl w'). split_and!; [done|done|]. cbn. by rewrite Permutation_app_comm.
Qed.

End Create.

(** ** What the statics mean for a session

    [CreateSession] reads the role, the encryption factory (on a gateway only) and the
    heartbeat; the rate limit is read by nothing. *)

Section Settings.
Context {Q : Type -> Type} `{!ConcurrentQueue Q} {T I : Type} `{!UdpSession.Ikcp I}.
Context (tid : nat).
Implicit Types f : Factory Q T I.

Lemma grow_loop_config e r hb role n c f :
  grow_loop n c (set_config e r hb role f) = set_config e r hb role (grow_loop n c f).
Proof. revert f; induction n as [|n IH]; intros f; [done|]. cbn [grow_loop]. by rewrite <- IH. Qed.

Lemma take_session_id_config e r hb role f :
  take_session_id (set_config e r hb role f) = prod_map id (set_config e r hb role) (take_session_id f).
Proof. done. Qed.

Lemma Acquire_config e r hb role c f :
  Acquire c (set_config e r hb role f) = prod_map id (set_config e r hb role) (Acquire c f).
Proof.
  rewrite !Acquire_eq. generalize DEFAULT_GROWTH_SIZE. intros n. unfold emergency, Grow. rewrite grow_loop_config.
  cbn [set_config f_pools]. destruct (try_dequeue (_idle (f_pools f c))) as [[s q]|].
  - unfold TriggerBackgroundGrowth. cbn. by repeat case_match.
  - set (g := grow_loop _ c f). cbn. by destruct (try_dequeue _) as [[s q]|].
Qed.

Lemma Acquire_statics c f p f1 : Acquire c f = (p, f1) ->
  _encryptionFactory f1 = _encryptionFactory f /\ _heartbeat f1 = _heartbeat f.
Proof.
  intros Ha. pose proof (Acquire_config (_encryptionFactory f) (_rateLimit f) (_heartbeat f) (_serverRole f) c f) as HA.
  assert (set_config (_encryptionFactory f) (_rateLimit f) (_heartbeat f) (_serverRole f) f = f) as E by by destruct f.
  rewrite E, Ha in HA. injection HA as ->. done.
Qed.

(** The settings a session is made with. *)
Definition heartbeat_of (hb : HbConfig) (i : TcpImpl) : Prop :=
  _hbInterval i = f_hbInterval hb /\ _hbTimeout i = f_hbTimeout hb /\ _hbPingFunc i = true.

Lemma configured_heartbeat guarded hb (w w' : World Q T TcpImpl) :
  0 < f_hbInterval hb -> ConfigHeartbeat guarded (f_hbInterval hb) (f_hbTimeout hb) true w = Some (tt, w') ->
  heartbeat_of hb (impl w') /\ _encryption (impl w') = _encryption (impl w).
Proof.
  intros Hpos. destruct w as [s i m po ops], i. unfold ConfigHeartbeat, StartHeartbeat, heartbeat_of. cbn.
  rewrite (proj2 (Z.ltb_lt _ _) Hpos). destruct _heartbeatTimer, guarded; cbn; by intros [= <-].
Qed.

Lemma gateway_setup_settings socket sid disp now e hb (w w' : World Q T TcpImpl) :
  0 < f_hbInterval hb -> gateway_setup tid socket sid disp now e hb w = Some (tt, w') ->
  heartbeat_of hb (impl w') /\ forall cipher, e = Some cipher -> _encryption (impl w') = Some cipher.
Proof.
  intros Hpos. unfold gateway_setup, mbind, M_bind.
  destruct (Gateway.Reset_socket tid socket sid disp now w) as [[[] w1]|]; [|done].
  rewrite (proj2 (Z.ltb_lt _ _) Hpos). intros Hrun. destruct e as [c|].
  - destruct (configured_heartbeat true hb (mkWorld (ses w1) (set_encryption (Some c) (impl w1)) (mem w1) (posted w1) (io w1)) w')
      as [H1 H2]; [done|by destruct w1|]. split; [done|]. intros cipher [= <-]. rewrite H2. by destruct w1 as [? []].
  - destruct (configured_heartbeat true hb w1 w' Hpos Hrun) as [H1 _]. by split.
Qed.

Lemma backend_setup_settings socket sid disp now hb (w w' : World Q T TcpImpl) :
  0 < f_hbInterval hb -> backend_setup tid socket sid disp now hb w = Some (tt, w') -> heartbeat_of hb (impl w').
Proof.
  intros Hpos. unfold backend_setup, mbind, M_bind.
  destruct (Backend.Reset_socket tid socket sid disp now w) as [[[] w1]|]; [|done].
  rewrite (proj2 (Z.ltb_lt _ _) Hpos). intros Hrun. by destruct (configured_heartbeat false hb w1 w' Hpos Hrun).
Qed.

(** A session that [CreateSession] has made: the heartbeat of the statics and, on a
    gateway, the cipher of the encryption factory. *)
Lemma created_session_settings socket disp now f p f' :
  0 < f_hbInterval (_heartbeat f) -> CreateSession tid socket disp now f = Some (Some p, f') ->
  exists c s i, f_objs f' !! p = Some (TcpObj c s i) /\ heartbeat_of (_heartbeat f) i /\
    (_serverRole f = RoleGateway -> forall cipher, _encryptionFactory f = Some cipher -> _encryption i = Some cipher).
Proof.
  intros Hpos. unfold CreateSession, take_session_id. set (f0 := mkFactory _ _ _ _ _ _ _ _ _ _ _ _).
  change (_serverRole f0) with (_serverRole f). destruct (_serverRole f) eqn:Er.
  all: destruct (Acquire _ f0) as [[p0|] f1] eqn:Ea; [|done]; apply Acquire_statics in Ea as [E1 E2];
    unfold call_tcp; destruct (f_objs f1 !! p0) as [[c s i|]|] eqn:Eo; try done; rewrite ?E1, ?E2; cbn [f0 _encryptionFactory _heartbeat].
  - destruct (gateway_setup _ _ _ _ _ _ _ _) as [[[] w']|] eqn:Es; [|done]. intros [= <- <-].
    destruct (gateway_setup_settings _ _ _ _ _ _ _ _ Hpos Es) as [H1 H2].
    exists c, (ses w'), (impl w'). cbn. rewrite lookup_insert_eq. by split_and!.
  - destruct (backend_setup _ _ _ _ _ _ _) as [[[] w']|] eqn:Es; [|done]. intros [= <- <-].
    exists c, (ses w'), (impl w'). cbn. rewrite lookup_insert_eq. split_and!; [done| |done].
    by eapply backend_setup_settings.
Qed.

Lemma call_tcp_config {A} e r hb role p (method : M Q T TcpImpl A) f :
  call_tcp p method (set_config e r hb role f) = set_config e r hb role <$> call_tcp p method f.
Proof.
  unfold call_tcp. cbn [set_config f_objs f_mem f_posted f_io]. destruct (f_objs f !! p) as [[c s i|]|]; try done.
  by destruct (method _) as [[a w]|].
Qed.

Lemma call_udp_config {A} e r hb role p (method : M Q T (UdpSession.UdpState Q I) A) f :
  call_udp p method (set_config e r hb role f) = set_config e r hb role <$> call_udp p method f.
Proof.
  unfold call_udp. cbn [set_config f_objs f_mem f_posted f_io f_net]. destruct (f_objs f !! p) as [[|s i]|]; try done.
  by destruct (method _) as [[a w]|].
Qed.

(** Sessions do not depend on the rate limit, those of a backend not on the encryption
    factory, and UDP sessions on none of the statics but the id: making one with other
    settings makes the same one. *)
Theorem settings_that_reach_no_session socket disp now endpoint token rate burst e hb role f :
  CreateSession tid socket disp now (SetRateLimitConfig rate burst f) =
    prod_map id (set_config (_encryptionFactory f) (rate, burst) (_heartbeat f) (_serverRole f)) <$>
      CreateSession tid socket disp now f /\
  (_serverRole f = RoleBackend ->
     CreateSession tid socket disp now (SetEncryptionFactory e f) =
     prod_map id (set_config e (_rateLimit f) (_heartbeat f) RoleBackend) <$> CreateSession tid socket disp now f) /\
  CreateUDPSession tid endpoint disp now token (set_config e (rate, burst) hb role f) =
    prod_map id (set_config e (rate, burst) hb role) <$> CreateUDPSession tid endpoint disp now token f.
Proof.
  unfold SetRateLimitConfig, SetEncryptionFactory. split; [|split].
  - unfold CreateSession. rewrite take_session_id_config. destruct (take_session_id f) as [sid f0] eqn:Et.
    injection Et as _ <-. set (f0 := mkFactory _ _ _ _ _ _ _ _ _ _ _ _). unfold prod_map, id. cbn [fst snd]. cbv beta iota.
    cbn [set_config _serverRole f0]. change (_serverRole f0) with (_serverRole f).
    destruct (_serverRole f); rewrite Acquire_config; destruct (Acquire _ f0) as [[p|] f1] eqn:Ea; try done;
      apply Acquire_statics in Ea as [E1 E2]; unfold prod_map, id; cbn [fst snd]; cbv beta iota; rewrite call_tcp_config;
      cbn [set_config _encryptionFactory _heartbeat]; rewrite ?E1, E2; by destruct (call_tcp _ _ f1).
  - intros Er. unfold CreateSession. rewrite take_session_id_config. destruct (take_session_id f) as [sid f0] eqn:Et.
    injection Et as _ <-. set (f0 := mkFactory _ _ _ _ _ _ _ _ _ _ _ _). unfold prod_map, id. cbn [fst snd]. cbv beta iota.
    cbn [set_config _serverRole f0]. change (_serverRole f0) with (_serverRole f). rewrite Er.
    rewrite Acquire_config. destruct (Acquire _ f0) as [[p|] f1] eqn:Ea; try done.
    apply Acquire_statics in Ea as [_ E2]. unfold prod_map, id. cbn [fst snd]. cbv beta iota. rewrite call_tcp_config.
    cbn [set_config _heartbeat]. rewrite E2. by destruct (call_tcp _ _ f1).
  - unfold CreateUDPSession. rewrite take_session_id_config. destruct (take_session_id f) as [sid f0].
    unfold prod_map, id. cbn [fst snd]. cbv beta iota. rewrite Acquire_config. destruct (Acquire _ f0) as [[p|] f1]; try done.
    unfold prod_map, id. cbn [fst snd]. cbv beta iota. rewrite call_udp_config. by destruct (call_udp _ _ f1).
Qed.

End Settings.

(** ** Witnesses *)

(** Three gateway sessions: two idle, one held and connected. *)
Definition demo_pools (c : SessionClass) : SessionPool list :=
  match c with GatewayClass => mkSessionPool [1; 2] 3 2 false | _ => mkSessionPool [] 0 0 false end.

Definition demo_factory : Factory list unit (list (list Z)) :=
  mkFactory 8 None (10000, 20000) (mkHb 1000 5000 true) RoleGateway demo_pools
    (<[1 := new_session GatewayClass]> (<[2 := new_session GatewayClass]>
      (<[3 := TcpObj GatewayClass demo_ses (demo_impl None)]> ∅)))
    4 Mem_new [] [] UdpNetwork.Net_new.

Lemma demo_pool_inv : pool_inv GatewayClass [3] demo_factory.
Proof.
  split; [|..|done].
  - intros p. cbn. rewrite !lookup_insert. repeat case_decide; [lia..|]. rewrite lookup_empty. by intros [? ?].
  - intros p. cbn. rewrite !elem_of_cons, elem_of_nil. intros [->|[->|[->|[]]]]; by eexists.
  - cbn. apply (bool_decide_unpack _). by vm_compute.
Qed.

Lemma session_pool_exclusive_witness :
  exists held' f', pool_run GatewayClass [PoolAcquire; PoolRelease 1; PoolAcquire] ([3], demo_factory) = Some (held', f') /\
    NoDup (idle GatewayClass f' ++ held') /\ Forall (of_class GatewayClass f') held' /\
    _availableCount (f_pools f' GatewayClass) = Z.of_nat (length (idle GatewayClass f')).
Proof. apply (session_pool_exclusive GatewayClass _ [3] demo_factory); [apply demo_pool_inv|cbn; lia]. Defined.

Lemma created_session_is_fresh_witness :
  exists p f' s i, CreateSession 0 (Some true) true 50 demo_factory = Some (Some p, f') /\ (p ∉ [3]) /\
    f_objs f' !! p = Some (TcpObj GatewayClass s i) /\ _id s = 8 /\ _ioRef s = 1 /\ _encryption i = None.
Proof.
  edestruct (created_session_is_fresh 40 0 true 50 demo_factory [3] [])
    as (p & f' & s & i & H1 & H2 & H3 & _ & H5 & _ & _ & _ & H9 & H10 & _).
  - reflexivity.
  - apply demo_pool_inv.
  - rewrite Nat2Z.inj_add, growth_size. cbn. lia.
  - apply Mem_new_inv.
  - apply refs_ok_nil.
  - repeat constructor; (eexists _, _; split; [reflexivity|]; split; [reflexivity|apply refs_ok_nil]).
  - exists p, f', s, i. split_and!; [exact H1|exact H2|exact H3|exact H5|exact H9|exact H10].
Defined.

Lemma destroyed_session_returns_clean_witness :
  exists f', Destroy 40 0 (Some 3) demo_factory = Some f' /\ pool_inv GatewayClass [] f' /\ (3 ∈ idle GatewayClass f').
Proof.
  destruct (destroyed_session_returns_clean 40 0 demo_factory 3 demo_ses (demo_impl None) [])
    as (f' & _ & _ & H1 & H2 & H3 & _).
  - reflexivity.
  - apply demo_pool_inv.
  - cbn. lia.
  - reflexivity.
  - apply demo_tcp_inv.
  - exists f'. split_and!; [exact H1|exact H2|exact H3].
Defined.
