(* ===== verification/RefPtr.v ===== *)
(** * RefPtr: intrusive reference counting and the object pools

    Models src/System/Memory: RefCounted.h, RefPtr.h, LockFreeObjectPool.h,
    ObjectPool.h, SimplePool.h and GenerationalID.h.  Pooled objects live in a heap
    with their reference count; [RefPtr] variables are locations in a store, so
    that aliasing (self-assignment) is the code's.  [None] is undefined behaviour:
    a count or a payload accessed after [delete].  [ReturnToPool] of a pooled
    entity is [Push], as in MonsterFactory and ProjectileFactory. *)

From stdpp Require Import base numbers gmap list.
From S2P Require Import Prelude Interleave ConcurrentQueue Messages MessagePool Session.

(** ** RefCounted and LockFreeObjectPool *)

Record ObjHeap (Q : Type -> Type) (X : Type) := mkObjHeap {
  h_objs : gmap Z (Z * X);
  h_next : Z;
  _pool : Q Z;
  _allocCount : Z;
  _poolCount : Z;
  _allocLimit : Z;
  _poolLimit : Z
}.
Arguments mkObjHeap {Q X} _ _ _ _ _ _ _.
Arguments h_objs {Q X} _.
Arguments h_next {Q X} _.
Arguments _pool {Q X} _.
Arguments _allocCount {Q X} _.
Arguments _poolCount {Q X} _.
Arguments _allocLimit {Q X} _.
Arguments _poolLimit {Q X} _.

Section Pool.
Context {Q : Type -> Type} `{!ConcurrentQueue Q} {X : Type} (new_T : X) (Reset : X -> X).
Implicit Types h : ObjHeap Q X.

Definition set_objs (o : gmap Z (Z * X)) h : ObjHeap Q X :=
  mkObjHeap o (h_next h) (_pool h) (_allocCount h) (_poolCount h) (_allocLimit h) (_poolLimit h).

Definition LockFreeObjectPool_new : ObjHeap Q X := mkObjHeap ∅ 1 cq_empty 0 0 0 10000.

Definition Init (allocLimit poolLimit : Z) h : ObjHeap Q X :=
  mkObjHeap (h_objs h) (h_next h) (_pool h) (_allocCount h) (_poolCount h) allocLimit poolLimit.

Definition AddRef (p : Z) h : option (ObjHeap Q X) :=
  '(n, x) ← h_objs h !! p;
  Some (set_objs (<[p := (u32 (n + 1), x)]> (h_objs h)) h).

Definition Push (obj : option Z) h : option (ObjHeap Q X) :=
  match obj with
  | None => Some h
  | Some p =>
      if _poolCount h <? _poolLimit h then
        Some (mkObjHeap (h_objs h) (h_next h) (enqueue p (_pool h)) (_allocCount h)
                (u64 (_poolCount h + 1)) (_allocLimit h) (_poolLimit h))
      else
        _ ← h_objs h !! p;
        Some (mkObjHeap (delete p (h_objs h)) (h_next h) (_pool h) (u64 (_allocCount h - 1))
                (_poolCount h) (_allocLimit h) (_poolLimit h))
  end.

(** The last reference sends the object back to its pool. *)
Definition Release (p : Z) h : option (ObjHeap Q X) :=
  '(n, x) ← h_objs h !! p;
  let h := set_objs (<[p := (u32 (n - 1), x)]> (h_objs h)) h in
  if n =? 1 then Push (Some p) h else Some h.

Definition Pop h : option (option Z * ObjHeap Q X) :=
  match try_dequeue (_pool h) with
  | Some (p, q) =>
      let h := mkObjHeap (h_objs h) (h_next h) q (_allocCount h) (u64 (_poolCount h - 1))
                 (_allocLimit h) (_poolLimit h) in
      '(n, x) ← h_objs h !! p;
      h ← AddRef p (set_objs (<[p := (n, Reset x)]> (h_objs h)) h);
      Some (Some p, h)
  | None =>
      if (0 <? _allocLimit h) && (_allocLimit h <=? _allocCount h) then Some (None, h) else
      let p := h_next h in
      h ← AddRef p (mkObjHeap (<[p := (0, new_T)]> (h_objs h)) (p + 1) (_pool h)
                      (u64 (_allocCount h + 1)) (_poolCount h) (_allocLimit h) (_poolLimit h));
      Some (Some p, h)
  end.

(** ** RefPtr *)

(** The [RefPtr] variables of the program, by location, and the pointers taken
    out of one by [detach]. *)
Record RefState := mkRefState {
  r_vars : gmap Z (option Z);
  r_detached : list Z;
  r_heap : ObjHeap Q X
}.
Implicit Types st : RefState.

Definition set_var (v : Z) (p : option Z) st : RefState :=
  mkRefState (<[v := p]> (r_vars st)) (r_detached st) (r_heap st).

Definition with_heap st (h : ObjHeap Q X) : RefState := mkRefState (r_vars st) (r_detached st) h.

(** [RefPtr(T *ptr, bool add_ref)]; the other copying constructors call [AddRef]
    in the same way. *)
Definition RefPtr_ctor (ptr : option Z) (add_ref : bool) h : option (ObjHeap Q X) :=
  match ptr with
  | Some p => if add_ref then AddRef p h else Some h
  | None => Some h
  end.

(** The destructor of a [RefPtr] that holds [ptr]. *)
Definition RefPtr_dtor (ptr : option Z) h : option (ObjHeap Q X) :=
  match ptr with Some p => Release p h | None => Some h end.

(** [tmp.swap( *this )] and the end of [tmp]: the second half of every
    assignment. *)
Definition swap_with_temp (tmp : option Z) (this : Z) st : option RefState :=
  old ← r_vars st !! this;
  let st := set_var this tmp st in
  h ← RefPtr_dtor old (r_heap st);
  Some (with_heap st h).

Definition RefPtr_default (this : Z) st : option RefState := Some (set_var this None st).

(** [explicit RefPtr(T *ptr)] *)
Definition RefPtr_raw (this : Z) (ptr : option Z) st : option RefState :=
  h ← RefPtr_ctor ptr true (r_heap st); Some (set_var this ptr (with_heap st h)).

Definition RefPtr_copy (this other : Z) st : option RefState :=
  ptr ← r_vars st !! other;
  h ← RefPtr_ctor ptr true (r_heap st); Some (set_var this ptr (with_heap st h)).

Definition RefPtr_move (this other : Z) st : option RefState :=
  ptr ← r_vars st !! other; Some (set_var other None (set_var this ptr st)).

Definition RefPtr_destroy (this : Z) st : option RefState :=
  ptr ← r_vars st !! this;
  h ← RefPtr_dtor ptr (r_heap st);
  Some (mkRefState (delete this (r_vars st)) (r_detached st) h).

Definition assign_copy (this other : Z) st : option RefState :=
  tmp ← r_vars st !! other;
  h ← RefPtr_ctor tmp true (r_heap st);
  swap_with_temp tmp this (with_heap st h).

Definition assign_move (this other : Z) st : option RefState :=
  tmp ← r_vars st !! other;
  swap_with_temp tmp this (set_var other None st).

Definition assign_raw (this : Z) (ptr : option Z) st : option RefState :=
  h ← RefPtr_ctor ptr true (r_heap st);
  swap_with_temp ptr this (with_heap st h).

Definition reset (this : Z) st : option RefState := swap_with_temp None this st.

Definition reset_raw (this : Z) (rhs : option Z) (add_ref : bool) st : option RefState :=
  h ← RefPtr_ctor rhs add_ref (r_heap st);
  swap_with_temp rhs this (with_heap st h).

Definition swap (this rhs : Z) st : option RefState :=
  a ← r_vars st !! this; b ← r_vars st !! rhs; Some (set_var rhs a (set_var this b st)).

Definition detach (this : Z) st : option (option Z * RefState) :=
  ptr ← r_vars st !! this;
  Some (ptr, mkRefState (<[this := None]> (r_vars st)) (option_list ptr ++ r_detached st) (r_heap st)).

(** [template <typename U> RefPtr(RefPtr<U> &&rhs)]: the pointer is detached from
    [rhs] and kept. *)
Definition RefPtr_move_from (this rhs : Z) st : option RefState :=
  ptr ← r_vars st !! rhs;
  '(_, st) ← detach rhs st;
  Some (set_var this ptr (mkRefState (r_vars st) (drop (length (option_list ptr)) (r_detached st)) (r_heap st))).

End Pool.

(** ** Invariant

    [l] lists the owners: one occurrence per reference.  Every object is owned,
    with its count, or idle in the pool. *)

Section Ownership.
Context {Q : Type -> Type} `{!ConcurrentQueue Q} {X : Type} (new_T : X) (Reset : X -> X).
Implicit Types h : ObjHeap Q X.

Record heap_inv (l : list Z) h : Prop := mk_heap_inv {
  hi_owned : forall p, p ∈ l -> is_Some (h_objs h !! p);
  hi_idle : forall p, p ∈ contents (_pool h) -> is_Some (h_objs h !! p);
  hi_count : forall p n x, h_objs h !! p = Some (n, x) ->
    n = occurrences p l /\ (p ∈ l <-> p ∉ contents (_pool h));
  hi_nodup : NoDup (contents (_pool h));
  hi_poolCount : _poolCount h = Z.of_nat (length (contents (_pool h)));
  hi_poolLimit : _poolCount h <= Z.max 0 (_poolLimit h) < 2 ^ 64;
  hi_allocCount : _allocCount h = Z.of_nat (size (h_objs h));
  hi_room : _allocCount h < 2 ^ 64;
  hi_allocLimit : 0 < _allocLimit h -> _allocCount h <= _allocLimit h;
  hi_fresh : forall p, is_Some (h_objs h !! p) -> p < h_next h
}.

#[export] Instance heap_inv_proper : Proper (Permutation ==> eq ==> iff) heap_inv.
Proof.
  assert (forall l l' h, l ≡ₚ l' -> heap_inv l h -> heap_inv l' h) as H.
  { intros l l' h Hp [H1 H2 H3 H4 H5 H6 H7 Hr H8 H9]. split; try done.
    - intros p. rewrite <- Hp. apply H1.
    - intros p n x Hx. rewrite <- (occurrences_perm _ _ _ Hp), <- Hp. by apply (H3 p n x). }
  intros l l' Hp h ? <-. split; by apply H.
Qed.

Lemma new_heap_inv : heap_inv [] LockFreeObjectPool_new.
Proof.
  split; cbn; rewrite ?contents_empty; try done.
  - by intros p ?%elem_of_nil.
  - by intros p ?%elem_of_nil.
  - constructor.
  - intros p [? Hp]. by rewrite lookup_empty in Hp.
Qed.

Lemma occurrences_le p l : occurrences p l <= Z.of_nat (length l).
Proof. unfold occurrences. pose proof (count_occ_bound Z.eq_dec p l). lia. Qed.

(** Changing the count of an object that is not idle. *)
Lemma set_count_inv l l' h p n x n' x' :
  heap_inv l h -> h_objs h !! p = Some (n, x) -> n' = occurrences p l' ->
  (forall a, a <> p -> occurrences a l' = occurrences a l) -> p ∈ l' -> p ∉ contents (_pool h) ->
  heap_inv l' (set_objs (<[p := (n', x')]> (h_objs h)) h).
Proof.
  intros [H1 H2 H3 H4 H5 H6 H7 Hr H8 H9] Hp Hn Hoth Hin Hni.
  assert (forall a, a <> p -> a ∈ l' <-> a ∈ l) as Hmem by (intros a Ha; rewrite !occurrences_pos, Hoth; done).
  split; cbn; try done.
  - intros a Ha. rewrite lookup_insert. case_decide; [done|]. apply H1, Hmem; [done|done].
  - intros a Ha. rewrite lookup_insert. case_decide; [done|]. by apply H2.
  - intros a m y. rewrite lookup_insert. case_decide as E; [intros [= <- <-]; subst p; split; done|].
    intros Ha. rewrite Hoth, Hmem by done. by apply (H3 a m y).
  - rewrite H7. f_equal. rewrite map_size_insert, Hp. done.
  - intros a. rewrite lookup_insert. case_decide as E; [subst; intros _; by apply H9; eexists|]. apply H9.
Qed.

Lemma AddRef_spec l h p :
  heap_inv l h -> p ∈ l -> Z.of_nat (length l) + 1 < 2 ^ 32 ->
  exists h', AddRef p h = Some h' /\ heap_inv (p :: l) h' /\
    size (h_objs h') = size (h_objs h) /\ _allocLimit h' = _allocLimit h.
Proof.
  intros Hi Hp Hb. destruct (hi_owned _ _ Hi p Hp) as [[n x] Hx].
  destruct (hi_count _ _ Hi p n x Hx) as [Hn Hni]. pose proof (occurrences_le p l).
  assert (0 < occurrences p l) by (by apply occurrences_pos).
  unfold AddRef. rewrite Hx. cbn [mbind option_bind]. eexists. split; [reflexivity|].
  split; [|cbn; split; [|done]; rewrite map_size_insert, Hx; done].
  eapply set_count_inv; [done|exact Hx| | |left|by apply Hni].
  - rewrite occurrences_cons, decide_True, wrap_small by (done || unfold in_u; lia). lia.
  - intros a Ha. rewrite occurrences_cons, decide_False by done. lia.
Qed.

Lemma occurrences_not_in p l : p ∉ l -> occurrences p l = 0.
Proof.
  intros Hp. destruct (Z.le_gt_cases (occurrences p l) 0) as [Hle|Hg]; [unfold occurrences in *; lia|].
  by apply occurrences_pos in Hg.
Qed.

(** The last owner [p] goes: what the other objects see. *)
Lemma other_owners p l h a m y :
  heap_inv (p :: l) h -> a <> p -> h_objs h !! a = Some (m, y) ->
  m = occurrences a l /\ (a ∈ l <-> a ∉ contents (_pool h)).
Proof.
  intros Hi Ha Hy. destruct (hi_count _ _ Hi a m y Hy) as [Hm Hiff].
  rewrite occurrences_cons, decide_False in Hm by done. rewrite elem_of_cons in Hiff. split; [lia|].
  rewrite <- Hiff. split; [by right|by intros [?|?]].
Qed.

(** The count drops to zero: the object becomes idle, ... *)
Lemma push_idle_inv l h p x :
  heap_inv (p :: l) h -> h_objs h !! p = Some (1, x) -> p ∉ l -> _poolCount h < _poolLimit h ->
  heap_inv l (mkObjHeap (<[p := (0, x)]> (h_objs h)) (h_next h) (enqueue p (_pool h)) (_allocCount h)
                (u64 (_poolCount h + 1)) (_allocLimit h) (_poolLimit h)).
Proof.
  intros Hi Hx Hp El. pose proof Hi as [H1 H2 H3 H4 H5 H6 H7 Hr H8 H9].
  assert (p ∉ contents (_pool h)) as Hnp by (apply (H3 p 1 x Hx); left).
  pose proof (contents_enqueue _ p (_pool h)) as Hq. assert (u64 (_poolCount h + 1) = _poolCount h + 1) as Hw
    by (apply wrap_small; unfold in_u; lia).
  split; cbn; try done.
  - intros a Ha. rewrite lookup_insert_ne by (intros ->; done). apply H1. by right.
  - intros a. rewrite Hq. intros [->|Ha]%elem_of_cons; [by rewrite lookup_insert_eq|].
    rewrite lookup_insert. case_decide; [done|by apply H2].
  - intros a m y. rewrite Hq, elem_of_cons, lookup_insert. case_decide as E.
    + intros [= <- <-]. subst a. rewrite occurrences_not_in by done. split; [done|]. tauto.
    + intros Ha. destruct (other_owners p l h a m y Hi (not_eq_sym E) Ha) as [Hm Hiff].
      split; [done|]. assert (a <> p) by congruence. tauto.
  - rewrite Hq. apply NoDup_cons. by split.
  - rewrite (Permutation_length Hq). simpl length. lia.
  - lia.
  - by rewrite H7, map_size_insert, Hx.
  - intros a. rewrite lookup_insert. case_decide as E; [subst; intros _; apply H9; by eexists|apply H9].
Qed.

(** ... or is deleted. *)
Lemma push_delete_inv l h p x :
  heap_inv (p :: l) h -> h_objs h !! p = Some (1, x) -> p ∉ l ->
  heap_inv l (mkObjHeap (delete p (h_objs h)) (h_next h) (_pool h) (u64 (_allocCount h - 1))
                (_poolCount h) (_allocLimit h) (_poolLimit h)).
Proof.
  intros Hi Hx Hp. pose proof Hi as [H1 H2 H3 H4 H5 H6 H7 Hr H8 H9].
  assert (p ∉ contents (_pool h)) as Hnp by (apply (H3 p 1 x Hx); left).
  assert (0 < size (h_objs h))%nat as Hsz.
  { destruct (size (h_objs h)) eqn:E; [|lia]. apply map_size_empty_inv in E. by rewrite E, lookup_empty in Hx. }
  assert (u64 (_allocCount h - 1) = _allocCount h - 1) as Hw by (apply wrap_small; unfold in_u; lia).
  split; cbn; try done.
  - intros a Ha. rewrite lookup_delete_ne by (intros ->; done). apply H1. by right.
  - intros a Ha. rewrite lookup_delete_ne by (intros ->; done). by apply H2.
  - intros a m y. rewrite lookup_delete_Some. intros [Hne Hy].
    apply (other_owners p l h a m y Hi (not_eq_sym Hne) Hy).
  - rewrite Hw, H7, map_size_delete, Hx. lia.
  - lia.
  - intros Hl. specialize (H8 Hl). lia.
  - intros a. rewrite lookup_delete. case_decide; [by intros [? ?]|apply H9].
Qed.

Lemma Release_spec l h p :
  heap_inv (p :: l) h -> Z.of_nat (length l) + 1 < 2 ^ 32 ->
  exists h', Release p h = Some h' /\ heap_inv l h' /\ (size (h_objs h') <= size (h_objs h))%nat.
Proof.
  intros Hi Hb. destruct (hi_owned _ _ Hi p ltac:(left)) as [[n x] Hx].
  destruct (hi_count _ _ Hi p n x Hx) as [Hn Hni]. rewrite occurrences_cons, decide_True in Hn by done.
  pose proof (occurrences_le p l). unfold Release. rewrite Hx. cbn [mbind option_bind].
  assert (0 <= occurrences p l) by (unfold occurrences; lia).
  assert (u32 (n - 1) = occurrences p l) as Hw by (rewrite wrap_small by (unfold in_u; lia); lia).
  destruct (n =? 1) eqn:E; bool_to_prop.
  - assert (p ∉ l) as Hp by (intros Hp; apply occurrences_pos in Hp; lia). rewrite Hw.
    replace (occurrences p l) with 0 by (rewrite occurrences_not_in; done). subst n. rewrite E in Hx.
    unfold Push. cbn [_poolCount _poolLimit set_objs]. destruct (_poolCount h <? _poolLimit h) eqn:El; bool_to_prop.
    + eexists. split; [reflexivity|]. split; [exact (push_idle_inv l h p x Hi Hx Hp El)|]. cbn. rewrite map_size_insert, Hx. done.
    + cbn [h_objs set_objs]. rewrite lookup_insert_eq. cbn [mbind option_bind]. eexists. split; [reflexivity|].
      cbn. rewrite delete_insert_eq. split; [by eapply push_delete_inv|]. rewrite map_size_delete, Hx. lia.
  - eexists. split; [reflexivity|]. split; [|cbn; rewrite map_size_insert, Hx; done].
    eapply set_count_inv; [done|exact Hx|exact Hw| | |apply Hni; left].
    + intros a Ha. rewrite occurrences_cons, decide_False by done. lia.
    + apply occurrences_pos. lia.
Qed.

(** A reused object, reset, with one reference. *)
Lemma pop_reuse_inv l h p q x :
  heap_inv l h -> contents (_pool h) ≡ₚ p :: contents q -> h_objs h !! p = Some (0, x) -> p ∉ l ->
  heap_inv (p :: l) (mkObjHeap (<[p := (1, Reset x)]> (h_objs h)) (h_next h) q (_allocCount h)
                       (u64 (_poolCount h - 1)) (_allocLimit h) (_poolLimit h)).
Proof.
  intros [H1 H2 H3 H4 H5 H6 H7 Hr H8 H9] Eq Hx Hp.
  rewrite Eq in H4. apply NoDup_cons in H4 as [Hpq H4]. rewrite (Permutation_length Eq) in H5. simpl length in H5.
  assert (u64 (_poolCount h - 1) = _poolCount h - 1) as Hw by (apply wrap_small; unfold in_u; lia).
  split; cbn; try done.
  - intros a [->|Ha]%elem_of_cons; rewrite lookup_insert; [by rewrite decide_True|].
    case_decide; [done|by apply H1].
  - intros a Ha. rewrite lookup_insert. case_decide; [done|]. apply H2. rewrite Eq. by right.
  - intros a m y. rewrite lookup_insert, occurrences_cons, elem_of_cons. case_decide as E.
    + intros [= <- <-]. subst a. rewrite decide_True, occurrences_not_in by done. split; [done|]. tauto.
    + intros Ha. rewrite decide_False by congruence. destruct (H3 a m y Ha) as [Hm Hiff].
      rewrite Eq, elem_of_cons in Hiff. assert (a <> p) by congruence. split; [lia|]. tauto.
  - lia.
  - lia.
  - by rewrite H7, map_size_insert, Hx.
  - intros a. rewrite lookup_insert. case_decide as E; [subst; intros _; apply H9; by eexists|apply H9].
Qed.

(** A new object with one reference, below the limit. *)
Lemma pop_alloc_inv l h :
  heap_inv l h -> contents (_pool h) = [] -> Z.of_nat (size (h_objs h)) + 1 < 2 ^ 64 ->
  (0 < _allocLimit h -> _allocCount h < _allocLimit h) ->
  heap_inv (h_next h :: l) (mkObjHeap (<[h_next h := (1, new_T)]> (h_objs h)) (h_next h + 1) (_pool h)
                              (u64 (_allocCount h + 1)) (_poolCount h) (_allocLimit h) (_poolLimit h)).
Proof.
  intros [H1 H2 H3 H4 H5 H6 H7 Hr H8 H9] Eq Hb El.
  assert (h_objs h !! h_next h = None) as Hn by (apply eq_None_not_Some; intros ?%H9; lia).
  assert (h_next h ∉ l) as Hnl by (intros [? Hc]%H1; congruence).
  assert (u64 (_allocCount h + 1) = _allocCount h + 1) as Hw by (apply wrap_small; unfold in_u; lia).
  split; cbn; try done.
  - intros a [->|Ha]%elem_of_cons; rewrite lookup_insert; [by rewrite decide_True|].
    case_decide; [done|by apply H1].
  - intros a Ha. rewrite Eq in Ha. by apply elem_of_nil in Ha.
  - intros a m y. rewrite lookup_insert, occurrences_cons, elem_of_cons, Eq, elem_of_nil. case_decide as E.
    + intros [= <- <-]. subst a. rewrite decide_True, occurrences_not_in by done. split; [done|]. tauto.
    + intros Ha. rewrite decide_False by congruence. destruct (H3 a m y Ha) as [Hm Hiff].
      rewrite Eq, elem_of_nil in Hiff. assert (a <> h_next h) by congruence. split; [lia|]. tauto.
  - rewrite Hw, H7, map_size_insert, Hn. lia.
  - lia.
  - intros Hl. rewrite Hw. specialize (El Hl). lia.
  - intros a. rewrite lookup_insert. case_decide as E; [subst; lia|]. intros Ha. apply H9 in Ha. lia.
Qed.

(** [Pop] hands out an object nobody owns, clean, with one reference; it fails
    only at the allocation limit. *)
Lemma Pop_spec l h :
  heap_inv l h -> Z.of_nat (size (h_objs h)) + 1 < 2 ^ 64 ->
  exists r h', Pop new_T Reset h = Some (r, h') /\ (size (h_objs h') <= S (size (h_objs h)))%nat /\
    match r with
    | Some p => heap_inv (p :: l) h' /\ (p ∉ l) /\
        exists x, h_objs h' !! p = Some (1, x) /\ (x = new_T \/ exists y, x = Reset y)
    | None => h' = h /\ 0 < _allocLimit h <= _allocCount h
    end.
Proof.
  intros Hi Hb. pose proof Hi as [H1 H2 H3 _ _ _ _ _ _ H9]. unfold Pop.
  destruct (try_dequeue (_pool h)) as [[p q]|] eqn:Eq.
  - apply try_dequeue_Some in Eq. cbn [h_objs].
    destruct (H2 p ltac:(rewrite Eq; left)) as [[n x] Hx]. rewrite Hx. cbn [mbind option_bind].
    destruct (H3 p n x Hx) as [Hn Hni]. rewrite Eq, elem_of_cons in Hni.
    assert (p ∉ l) as Hp by tauto. rewrite occurrences_not_in in Hn by done. subst n.
    unfold AddRef. cbn [h_objs set_objs]. rewrite lookup_insert_eq. cbn [mbind option_bind].
    eexists (Some p), _. split; [reflexivity|]. cbn. rewrite insert_insert_eq, lookup_insert_eq.
    split; [rewrite map_size_insert, Hx; simpl; lia|].
    split; [exact (pop_reuse_inv l h p q x Hi Eq Hx Hp)|]. split; [done|]. eexists; split; [reflexivity|right; by eexists].
  - apply try_dequeue_None in Eq. destruct (_ && _) eqn:El.
    { bool_to_prop. eexists None, h. split_and!; [done|lia|done|lia|lia]. }
    assert (h_objs h !! h_next h = None) as Hn by (apply eq_None_not_Some; intros ?%H9; lia).
    unfold AddRef. cbn [h_objs set_objs]. rewrite lookup_insert_eq. cbn [mbind option_bind].
    eexists (Some (h_next h)), _. split; [reflexivity|]. cbn. rewrite insert_insert_eq, lookup_insert_eq.
    split; [rewrite map_size_insert, Hn; simpl; lia|]. split; [|split; [intros [? Hc]%H1; congruence|]].
    + refine (pop_alloc_inv l h Hi Eq Hb _). intros Hl. apply andb_false_iff in El as [El|El]; bool_to_prop; lia.
    + eexists; split; [reflexivity|by left].
Qed.

(** ** Programs with RefPtr variables *)

Implicit Types st : RefState (Q := Q) (X := X).

(** Who owns references: the variables, and the pointers that were detached. *)
Definition owners st : list Z := omap snd (map_to_list (r_vars st)) ++ r_detached st.

Definition ref_inv st : Prop := heap_inv (owners st) (r_heap st).

(** [get] of a variable that exists. *)
Definition get (v : Z) st : option Z := r_vars st !! v ≫= id.

Inductive RefOp :=
| OpDefault (v : Z)
| OpPop (v : Z)
| OpFromRaw (v u : Z)
| OpCopy (v u : Z)
| OpMove (v u : Z)
| OpMoveFrom (v u : Z)
| OpDestroy (v : Z)
| OpAssignCopy (v u : Z)
| OpAssignMove (v u : Z)
| OpAssignRaw (v u : Z)
| OpReset (v : Z)
| OpSwap (v u : Z)
| OpDetach (v : Z)
| OpAdopt (v : Z) (k : nat).

(** Which variables an operation constructs, and which must exist. *)
Definition op_makes (o : RefOp) : option Z :=
  match o with
  | OpDefault v | OpPop v | OpFromRaw v _ | OpCopy v _ | OpMove v _ | OpMoveFrom v _ => Some v
  | _ => None
  end.

Definition op_uses (o : RefOp) : list Z :=
  match o with
  | OpDefault _ | OpPop _ => []
  | OpFromRaw _ u | OpCopy _ u | OpMove _ u | OpMoveFrom _ u => [u]
  | OpDestroy v | OpReset v | OpDetach v | OpAdopt v _ => [v]
  | OpAssignCopy v u | OpAssignMove v u | OpAssignRaw v u | OpSwap v u => [v; u]
  end.

Definition op_ok (o : RefOp) st : bool :=
  forallb (fun v => bool_decide (is_Some (r_vars st !! v))) (op_uses o) &&
  match op_makes o with Some v => bool_decide (r_vars st !! v = None) | None => true end.

(** One operation of a client; what the language does not allow (a variable
    constructed twice, or used before its construction) is skipped.  [OpAdopt v k]
    is [v.reset(p, false)] for the [k]-th detached pointer. *)
Definition ref_exec (o : RefOp) st : option RefState :=
  if negb (op_ok o st) then Some st else
  match o with
  | OpDefault v => RefPtr_default v st
  | OpPop v => '(r, h) ← Pop new_T Reset (r_heap st); Some (set_var v r (with_heap st h))
  | OpFromRaw v u => RefPtr_raw v (get u st) st
  | OpCopy v u => RefPtr_copy v u st
  | OpMove v u => RefPtr_move v u st
  | OpMoveFrom v u => RefPtr_move_from v u st
  | OpDestroy v => RefPtr_destroy v st
  | OpAssignCopy v u => assign_copy v u st
  | OpAssignMove v u => assign_move v u st
  | OpAssignRaw v u => assign_raw v (get u st) st
  | OpReset v => reset v st
  | OpSwap v u => swap v u st
  | OpDetach v => '(_, st) ← detach v st; Some st
  | OpAdopt v k =>
      match r_detached st !! k with
      | Some p => reset_raw v (Some p) false (mkRefState (r_vars st) (delete k (r_detached st)) (r_heap st))
      | None => Some st
      end
  end.

Fixpoint ref_run (ops : list RefOp) st : option RefState :=
  match ops with [] => Some st | o :: ops => st1 ← ref_exec o st; ref_run ops st1 end.

(** How the owners change with a variable. *)
Lemma owners_new v p st :
  r_vars st !! v = None -> owners (set_var v p st) ≡ₚ option_list p ++ owners st.
Proof.
  intros Hv. unfold owners, set_var. cbn [r_vars r_detached]. rewrite map_to_list_insert by done. cbn.
  destruct p; done.
Qed.

Lemma owners_take v p st :
  r_vars st !! v = Some p ->
  owners st ≡ₚ option_list p ++ owners (mkRefState (delete v (r_vars st)) (r_detached st) (r_heap st)).
Proof.
  intros Hv. unfold owners. cbn [r_vars r_detached]. rewrite <- (map_to_list_delete _ _ _ Hv). cbn.
  destruct p; done.
Qed.

Lemma owners_put v p q st :
  r_vars st !! v = Some p -> option_list p ++ owners (set_var v q st) ≡ₚ option_list q ++ owners st.
Proof.
  intros Hv. rewrite (owners_take v p st Hv).
  rewrite (owners_take v q (set_var v q st)) by (cbn; by rewrite lookup_insert_eq).
  cbn. rewrite delete_insert_eq, !app_assoc. apply Permutation_app_tail. apply Permutation_app_comm.
Qed.

Lemma owners_heap st h : owners (with_heap st h) = owners st.
Proof. done. Qed.

(** What every operation establishes. *)
Definition step_ok st (r : option RefState) : Prop :=
  exists st', r = Some st' /\ ref_inv st' /\
    (length (owners st') <= S (length (owners st)))%nat /\
    (size (h_objs (r_heap st')) <= S (size (h_objs (r_heap st))))%nat.

Lemma ctor_spec l h ptr :
  heap_inv l h -> (forall p, ptr = Some p -> p ∈ l) -> Z.of_nat (length l) + 1 < 2 ^ 32 ->
  exists h', RefPtr_ctor ptr true h = Some h' /\ heap_inv (option_list ptr ++ l) h' /\
    size (h_objs h') = size (h_objs h).
Proof.
  intros Hi Hp Hb. destruct ptr as [p|]; [|by exists h].
  destruct (AddRef_spec l h p Hi (Hp p eq_refl) Hb) as (h' & ? & ? & ? & _). by exists h'.
Qed.

Lemma dtor_spec l h ptr :
  heap_inv (option_list ptr ++ l) h -> Z.of_nat (length l) + 1 < 2 ^ 32 ->
  exists h', RefPtr_dtor ptr h = Some h' /\ heap_inv l h' /\ (size (h_objs h') <= size (h_objs h))%nat.
Proof.
  intros Hi Hb. destruct ptr as [p|]; [|by exists h]. by apply Release_spec.
Qed.

Lemma swap_with_temp_spec st tmp this :
  heap_inv (option_list tmp ++ owners st) (r_heap st) -> is_Some (r_vars st !! this) ->
  Z.of_nat (length (option_list tmp ++ owners st)) + 1 < 2 ^ 32 ->
  exists st', swap_with_temp tmp this st = Some st' /\ ref_inv st' /\
    (length (owners st') <= length (option_list tmp ++ owners st))%nat /\
    (size (h_objs (r_heap st')) <= size (h_objs (r_heap st)))%nat.
Proof.
  intros Hi [old Ho] Hb. unfold swap_with_temp. rewrite Ho. cbn [mbind option_bind].
  pose proof (owners_put this old tmp st Ho) as Hp. rewrite <- Hp in Hi.
  apply Permutation_length in Hp. rewrite !length_app in Hp. rewrite length_app in Hb |- *.
  destruct (dtor_spec (owners (set_var this tmp st)) _ old Hi ltac:(lia)) as (h' & Hd & Hi' & Hs). cbn [r_heap set_var]. rewrite Hd.
  eexists. split; [reflexivity|]. rewrite owners_heap. split_and!; [done|lia|done].
Qed.

Lemma get_owner u p st : r_vars st !! u = Some (Some p) -> p ∈ owners st.
Proof. intros Hu. rewrite (owners_take u (Some p) st Hu). left. Qed.

Lemma get_owned u p st : get u st = Some p -> p ∈ owners st.
Proof. unfold get. destruct (r_vars st !! u) as [[q|]|] eqn:E; cbn; intros [= ->]; by eapply get_owner. Qed.

(** Construction of a variable that owns a new reference. *)
Lemma construct_ok st v ptr :
  ref_inv st -> r_vars st !! v = None -> (forall p, ptr = Some p -> p ∈ owners st) ->
  Z.of_nat (length (owners st)) + 1 < 2 ^ 32 -> step_ok st (RefPtr_raw v ptr st).
Proof.
  intros Hi Hv Hp Hb. destruct (ctor_spec _ _ ptr Hi Hp Hb) as (h' & Hc & Hi' & Hs).
  unfold RefPtr_raw. rewrite Hc. eexists. split; [reflexivity|]. unfold ref_inv.
  rewrite (owners_new v ptr (with_heap st h') Hv), owners_heap. split_and!; [done| |cbn; lia].
  rewrite length_app. destruct ptr; cbn; lia.
Qed.

(** Assignment of a pointer some owner still has. *)
Lemma assign_ok st v ptr :
  ref_inv st -> is_Some (r_vars st !! v) -> (forall p, ptr = Some p -> p ∈ owners st) ->
  Z.of_nat (length (owners st)) + 2 < 2 ^ 32 -> step_ok st (assign_raw v ptr st).
Proof.
  intros Hi Hv Hp Hb. destruct (ctor_spec _ _ ptr Hi Hp ltac:(lia)) as (h' & Hc & Hi' & Hs).
  unfold assign_raw. rewrite Hc. cbn [mbind option_bind].
  destruct (swap_with_temp_spec (with_heap st h') ptr v) as (st' & Hr & Hi2 & Hl & Hs2); [done|done| |].
  { rewrite owners_heap, length_app. destruct ptr; cbn; lia. }
  exists st'. rewrite owners_heap, length_app in Hl. cbn [r_heap with_heap] in Hs2.
  split_and!; [done|done|destruct ptr; cbn in Hl; lia|lia].
Qed.

(** Moving a pointer between existing places does not touch the heap. *)
Lemma same_owners_ok st st' :
  ref_inv st -> owners st' ≡ₚ owners st -> r_heap st' = r_heap st -> step_ok st (Some st').
Proof.
  intros Hi Hp Hh. exists st'. unfold ref_inv. rewrite Hp, Hh. split_and!; [done|done|lia|lia].
Qed.

Lemma move_owners v u ptr st :
  r_vars st !! u = Some ptr -> r_vars st !! v = None ->
  owners (set_var u None (set_var v ptr st)) ≡ₚ owners st.
Proof.
  intros Hu Hv. assert (r_vars (set_var v ptr st) !! u = Some ptr) as Hu'.
  { cbn. rewrite lookup_insert_ne by (intros ->; congruence). done. }
  pose proof (owners_put u ptr None _ Hu') as Hp. rewrite (owners_new v ptr st Hv) in Hp.
  exact (Permutation_app_inv_l _ _ _ Hp).
Qed.

Lemma destroy_ok st v :
  ref_inv st -> is_Some (r_vars st !! v) -> Z.of_nat (length (owners st)) + 1 < 2 ^ 32 ->
  step_ok st (RefPtr_destroy v st).
Proof.
  intros Hi [p Hv] Hb. unfold ref_inv in Hi. pose proof (owners_take v p st Hv) as Ho. rewrite Ho in Hi.
  apply Permutation_length in Ho. rewrite length_app in Ho.
  unfold RefPtr_destroy. rewrite Hv. cbn [mbind option_bind].
  destruct (dtor_spec (owners (mkRefState (delete v (r_vars st)) (r_detached st) (r_heap st))) _ p Hi ltac:(lia))
    as (h' & -> & Hi' & Hs).
  eexists. split; [reflexivity|]. unfold ref_inv, owners in *. cbn [r_vars r_detached r_heap] in *.
  split_and!; [done|lia|lia].
Qed.

Lemma assign_move_ok st v u :
  ref_inv st -> is_Some (r_vars st !! v) -> is_Some (r_vars st !! u) ->
  Z.of_nat (length (owners st)) + 1 < 2 ^ 32 -> step_ok st (assign_move v u st).
Proof.
  intros Hi Hv [tmp Hu] Hb. unfold assign_move. rewrite Hu. cbn [mbind option_bind].
  pose proof (owners_put u tmp None st Hu) as Ho. cbn [option_list option_rect app] in Ho.
  destruct (swap_with_temp_spec (set_var u None st) tmp v) as (st' & Hr & Hi' & Hl & Hs).
  - rewrite Ho. done.
  - cbn. rewrite lookup_insert. case_decide; done.
  - rewrite (Permutation_length Ho). done.
  - exists st'. rewrite (Permutation_length Ho) in Hl. cbn [r_heap set_var] in Hs. split_and!; [done|done|lia|lia].
Qed.

Lemma reset_ok st v :
  ref_inv st -> is_Some (r_vars st !! v) -> Z.of_nat (length (owners st)) + 1 < 2 ^ 32 ->
  step_ok st (reset v st).
Proof.
  intros Hi Hv Hb. destruct (swap_with_temp_spec st None v Hi Hv Hb) as (st' & Hr & Hi' & Hl & Hs).
  exists st'. cbn [option_list option_rect app] in Hl. split_and!; [done|done|lia|lia].
Qed.

Lemma detach_owners v p st :
  r_vars st !! v = Some p ->
  owners (mkRefState (<[v := None]> (r_vars st)) (option_list p ++ r_detached st) (r_heap st)) ≡ₚ owners st.
Proof.
  intros Hv. pose proof (owners_put v p None st Hv) as Ho. cbn [option_list option_rect app] in Ho. rewrite <- Ho.
  unfold owners, set_var. cbn [r_vars r_detached]. rewrite !app_assoc. apply Permutation_app_tail, Permutation_app_comm.
Qed.

Lemma adopt_ok st v k p :
  ref_inv st -> is_Some (r_vars st !! v) -> r_detached st !! k = Some p ->
  Z.of_nat (length (owners st)) + 1 < 2 ^ 32 ->
  step_ok st (reset_raw v (Some p) false (mkRefState (r_vars st) (delete k (r_detached st)) (r_heap st))).
Proof.
  intros Hi Hv Hk Hb. unfold reset_raw. cbn [RefPtr_ctor mbind option_bind].
  set (st1 := mkRefState _ _ _). assert (option_list (Some p) ++ owners st1 ≡ₚ owners st) as Ho.
  { unfold owners, st1. cbn [r_vars r_detached option_list option_rect app].
    rewrite Permutation_middle. apply Permutation_app_head. symmetry. by apply delete_Permutation. }
  destruct (swap_with_temp_spec (with_heap st1 (r_heap st1)) (Some p) v) as (st' & Hr & Hi' & Hl & Hs).
  - rewrite owners_heap, Ho. done.
  - done.
  - rewrite owners_heap, (Permutation_length Ho). done.
  - exists st'. rewrite owners_heap, (Permutation_length Ho) in Hl. cbn [r_heap with_heap st1] in Hs.
    split_and!; [done|done|lia|lia].
Qed.

Lemma swap_owners v u a b st :
  r_vars st !! v = Some a -> r_vars st !! u = Some b ->
  owners (set_var u a (set_var v b st)) ≡ₚ owners st.
Proof.
  intros Hv Hu. pose proof (owners_put v a b st Hv) as H1.
  destruct (decide (u = v)) as [->|Hne].
  - rewrite Hv in Hu. injection Hu as <-. unfold owners, set_var in *. cbn [r_vars r_detached] in *.
    rewrite insert_insert_eq. by rewrite insert_id.
  - assert (r_vars (set_var v b st) !! u = Some b) as Hu' by (cbn; by rewrite lookup_insert_ne).
    pose proof (owners_put u b a _ Hu') as H2. apply (Permutation_app_inv_l (option_list b)).
    rewrite H2. exact H1.
Qed.

Lemma ref_exec_ok o st :
  ref_inv st -> Z.of_nat (length (owners st)) + 2 < 2 ^ 32 ->
  Z.of_nat (size (h_objs (r_heap st))) + 1 < 2 ^ 64 -> step_ok st (ref_exec o st).
Proof.
  intros Hi Hb Hs. unfold ref_exec. destruct (op_ok o st) eqn:Hok; [|by apply same_owners_ok]. cbn [negb].
  unfold op_ok in Hok. apply andb_true_iff in Hok as [Hu Hm].
  destruct o; cbn in Hu, Hm; rewrite ?andb_true_r in Hu;
    repeat match goal with
    | H : _ && _ = true |- _ => apply andb_true_iff in H as [? ?]
    | H : bool_decide _ = true |- _ => apply bool_decide_eq_true in H
    end.
  - apply same_owners_ok; [done| |done]. by rewrite (owners_new v None st).
  - destruct (Pop_spec _ _ Hi Hs) as (r & h' & -> & Hsz & Hr). cbn [mbind option_bind].
    eexists. split; [reflexivity|]. unfold ref_inv. rewrite (owners_new v r (with_heap st h')), owners_heap by done.
    destruct r as [p|]; cbn [option_list option_rect app r_heap set_var with_heap].
    + destruct Hr as (Hr & _). split_and!; [done|simpl; lia|lia].
    + destruct Hr as (-> & _). split_and!; [done|lia|lia].
  - apply construct_ok; [done|done|intros p; apply get_owned|lia].
  - destruct Hu as [ptr Hu]. unfold RefPtr_copy. rewrite Hu. cbn [mbind option_bind].
    apply construct_ok; [done|done|intros p ->; by eapply get_owner|lia].
  - destruct Hu as [ptr Hu]. unfold RefPtr_move. rewrite Hu. apply same_owners_ok; [done|by apply move_owners|done].
  - destruct Hu as [ptr Hu]. unfold RefPtr_move_from, detach. rewrite Hu. cbn [mbind option_bind].
    apply same_owners_ok; [done| |done]. rewrite <- (move_owners v u ptr st Hu Hm).
    unfold owners, set_var. cbn [r_vars r_detached]. rewrite drop_app_length.
    rewrite insert_insert_ne by (intros ->; congruence). done.
  - apply destroy_ok; [done|done|lia].
  - unfold assign_copy. destruct (r_vars st !! u) as [ptr|] eqn:Hp; [|exfalso; by eapply is_Some_None].
    cbn [mbind option_bind].
    apply assign_ok; [done|done|intros p ->; by eapply get_owner|lia].
  - apply assign_move_ok; [done|done|done|lia].
  - apply assign_ok; [done|done|intros p; apply get_owned|lia].
  - apply reset_ok; [done|done|lia].
  - unfold swap. destruct (r_vars st !! v) as [a|] eqn:Ha, (r_vars st !! u) as [b|] eqn:Hb';
      try (exfalso; by eapply is_Some_None). cbn [mbind option_bind].
    apply same_owners_ok; [done|by apply swap_owners|done].
  - destruct Hu as [p Hv]. unfold detach. rewrite Hv. cbn [mbind option_bind].
    apply same_owners_ok; [done|by apply detach_owners|done].
  - destruct (r_detached st !! k) as [p|] eqn:Ek; [|by apply same_owners_ok].
    apply adopt_ok; [done|done|done|lia].
Qed.

(** When nobody owns a reference, every object is idle in the pool. *)
Lemma no_owner_all_idle st :
  ref_inv st -> owners st = [] ->
  (forall p, is_Some (h_objs (r_heap st) !! p) <-> p ∈ contents (_pool (r_heap st))) /\
  _allocCount (r_heap st) = _poolCount (r_heap st).
Proof.
  intros Hi Ho. unfold ref_inv in Hi. rewrite Ho in Hi. pose proof Hi as [H1 H2 H3 H4 H5 H6 H7 Hr H8 H9].
  assert (forall p, is_Some (h_objs (r_heap st) !! p) <-> p ∈ contents (_pool (r_heap st))) as Hiff.
  { intros p. split; [|apply H2]. intros [[n x] Hx]. destruct (H3 p n x Hx) as [_ Hp].
    destruct (decide (p ∈ contents (_pool (r_heap st)))) as [|Hn]; [done|]. by apply Hp, elem_of_nil in Hn. }
  split; [done|]. rewrite H7, H5. f_equal.
  rewrite <- (size_dom (D := gset Z)), <- (size_list_to_set (C := gset Z) (contents (_pool (r_heap st)))) by done.
  f_equal. apply leibniz_equiv. intros p. by rewrite elem_of_dom, elem_of_list_to_set, Hiff.
Qed.

(** C14: Reference counting is exact: in any program of constructions, copies, moves,
    assignments (self-assignment included), resets, swaps, detaches and destructions
    of [RefPtr]s over pooled objects, no count or object is accessed after its
    deletion, every object's count is the number of its owners, an object is in the
    pool exactly when nobody owns it, the limits hold, and when no owner is left
    every object is idle. *)
Theorem ref_counting_exact ops st
  (Hinv : ref_inv st)
  (Howners : Z.of_nat (length (owners st) + length ops) + 1 < 2 ^ 32)
  (Hroom : Z.of_nat (size (h_objs (r_heap st)) + length ops) < 2 ^ 64) :
  exists st', ref_run ops st = Some st' /\ ref_inv st' /\
    (owners st' = [] ->
      (forall p, is_Some (h_objs (r_heap st') !! p) <-> p ∈ contents (_pool (r_heap st'))) /\
      _allocCount (r_heap st') = _poolCount (r_heap st')).
Proof.
  revert st Hinv Howners Hroom; induction ops as [|o ops IH]; intros st Hinv Ho Hr; cbn [ref_run].
  - exists st. split_and!; [done|done|by apply no_owner_all_idle].
  - cbn [length] in Ho, Hr. destruct (ref_exec_ok o st Hinv ltac:(lia) ltac:(lia)) as (st1 & -> & Hi1 & Hl & Hs).
    cbn [mbind option_bind]. apply IH; [done|lia|lia].
Qed.

End Ownership.

Lemma ref_counting_exact_witness :
  exists st', ref_run (Q := list) 0 (fun _ => 0)
      [OpPop 1; OpCopy 2 1; OpAssignCopy 2 2; OpDestroy 1; OpAssignMove 2 2; OpReset 2; OpPop 3]
      (mkRefState ∅ [] (Init 2 1 LockFreeObjectPool_new)) = Some st' /\ ref_inv st'.
Proof.
  destruct (ref_counting_exact (Q := list) 0 (fun _ => 0)
    [OpPop 1; OpCopy 2 1; OpAssignCopy 2 2; OpDestroy 1; OpAssignMove 2 2; OpReset 2; OpPop 3]
    (mkRefState ∅ [] (Init 2 1 LockFreeObjectPool_new))) as (st' & H1 & H2 & _).
  - destruct (new_heap_inv (Q := list) (X := Z)). split; try done; cbn; try lia.
  - vm_compute. reflexivity.
  - vm_compute. reflexivity.
  - exists st'. split; [exact H1|exact H2].
Defined.

(** ** The pools of raw pointers

    What ObjectPool.h and SimplePool.h have in common: [used] is what the clients
    hold, [idle] what the pool keeps, [live] the allocated objects. *)

Record alloc_inv (used idle : list Z) (live : gset Z) (next count limit : Z) : Prop := mk_alloc_inv {
  ai_nodup : NoDup (used ++ idle);
  ai_live : forall p, p ∈ live <-> p ∈ used ++ idle;
  ai_count : count = Z.of_nat (length (used ++ idle));
  ai_limit : 0 < limit -> count <= limit;
  ai_fresh : forall p, p ∈ live -> p < next
}.

Section AllocInv.
Context {used idle : list Z} {live : gset Z} {next count limit : Z}.
Context (Hinv : alloc_inv used idle live next count limit).

Lemma alloc_perm used' idle' :
  used' ++ idle' ≡ₚ used ++ idle -> alloc_inv used' idle' live next count limit.
Proof.
  intros Hp. destruct Hinv as [H1 H2 H3 H4 H5]. split; try done.
  - by rewrite Hp.
  - intros p. by rewrite Hp.
  - by rewrite Hp.
Qed.

Lemma alloc_new :
  (0 < limit -> count < limit) -> alloc_inv (next :: used) idle ({[next]} ∪ live) (next + 1) (count + 1) limit.
Proof.
  intros Hl. destruct Hinv as [H1 H2 H3 H4 H5]. split; cbn [app].
  - apply NoDup_cons. split; [|done]. intros Hn. apply H2, H5 in Hn. lia.
  - intros p. rewrite elem_of_union, elem_of_singleton, elem_of_cons, H2. done.
  - cbn [length]. lia.
  - intros Hl0. specialize (Hl Hl0). lia.
  - intros p. rewrite elem_of_union, elem_of_singleton. intros [->|Hp]; [lia|]. apply H5 in Hp. lia.
Qed.

Lemma alloc_delete p used' :
  used ≡ₚ p :: used' -> alloc_inv used' idle (live ∖ {[p]}) next (count - 1) limit.
Proof.
  intros Hp. destruct Hinv as [H1 H2 H3 H4 H5].
  assert (used ++ idle ≡ₚ p :: used' ++ idle) as Hu by (by rewrite Hp).
  rewrite Hu in H1. apply NoDup_cons in H1 as [Hn H1]. rewrite (Permutation_length Hu) in H3. cbn [length] in H3.
  split; [done| |lia|intros Hl; specialize (H4 Hl); lia|].
  - intros a. rewrite elem_of_difference, elem_of_singleton, H2, Hu, elem_of_cons.
    split; [intros [[->|Ha] Hne]; done|]. intros Ha. split; [by right|]. intros ->. done.
  - intros a. rewrite elem_of_difference. intros [Ha _]. by apply H5.
Qed.

End AllocInv.

(** ** ObjectPool *)

Module ObjectPool.

Record ObjectPool (Q : Type -> Type) := mkPool {
  live : gset Z; next : Z; idle : Q Z;
  allocCount : Z; poolCount : Z; allocLimit : Z; poolLimit : Z
}.
Arguments mkPool {Q} _ _ _ _ _ _ _.
Arguments live {Q} _.
Arguments next {Q} _.
Arguments idle {Q} _.
Arguments allocCount {Q} _.
Arguments poolCount {Q} _.
Arguments allocLimit {Q} _.
Arguments poolLimit {Q} _.

Section ObjectPool.
Context {Q : Type -> Type} `{!ConcurrentQueue Q}.
Implicit Types o : ObjectPool Q.

Definition Pop o : option Z * ObjectPool Q :=
  match try_dequeue (idle o) with
  | Some (p, q) =>
      (Some p, mkPool (live o) (next o) q (allocCount o) (u64 (poolCount o - 1)) (allocLimit o) (poolLimit o))
  | None =>
      if (0 <? allocLimit o) && (allocLimit o <=? allocCount o) then (None, o) else
      (Some (next o), mkPool ({[next o]} ∪ live o) (next o + 1) (idle o) (u64 (allocCount o + 1)) (poolCount o)
                        (allocLimit o) (poolLimit o))
  end.

Definition Push (ptr : option Z) o : option (ObjectPool Q) :=
  match ptr with
  | None => Some o
  | Some p =>
      if poolCount o <? poolLimit o then
        Some (mkPool (live o) (next o) (enqueue p (idle o)) (allocCount o) (u64 (poolCount o + 1))
                (allocLimit o) (poolLimit o))
      else if decide (p ∈ live o) then
        Some (mkPool (live o ∖ {[p]}) (next o) (idle o) (u64 (allocCount o - 1)) (poolCount o)
                (allocLimit o) (poolLimit o))
      else None
  end.

(** A client takes an object, or gives back the [k]-th one it holds. *)
Inductive PoolCall := CallPop | CallPush (k : nat).

Definition pool_call (c : PoolCall) (st : list Z * ObjectPool Q) : option (list Z * ObjectPool Q) :=
  let '(used, o) := st in
  match c with
  | CallPop => let '(r, o) := Pop o in Some (option_list r ++ used, o)
  | CallPush k =>
      match used !! k with
      | Some p => o ← Push (Some p) o; Some (delete k used, o)
      | None => Some st
      end
  end.

Record inv (used : list Z) o : Prop := mk_inv {
  iv_alloc : alloc_inv used (contents (idle o)) (live o) (next o) (allocCount o) (allocLimit o);
  iv_pool : poolCount o = Z.of_nat (length (contents (idle o)));
  iv_poolLimit : poolCount o <= poolLimit o < 2 ^ 64
}.

Lemma object_pool_call c used o :
  inv used o -> allocCount o + 1 < 2 ^ 64 ->
  exists used' o', pool_call c (used, o) = Some (used', o') /\ inv used' o' /\
    (c = CallPop -> length used' = length used -> 0 < allocLimit o <= allocCount o).
Proof.
  intros [Ha Hp Hl] Hb. pose proof Ha as [H1 H2 H3 H4 H5]. destruct c as [|k]; cbn [pool_call].
  - unfold Pop. destruct (try_dequeue (idle o)) as [[p q]|] eqn:Eq; [|destruct (_ && _) eqn:El].
    + apply try_dequeue_Some in Eq. rewrite (Permutation_length Eq) in Hp. cbn [length] in Hp.
      eexists _, _. split; [reflexivity|]. split; [|cbn; intros; lia]. split; cbn.
      * apply (alloc_perm Ha). rewrite Eq. cbn. by rewrite Permutation_middle.
      * rewrite wrap_small by (unfold in_u; lia). lia.
      * rewrite wrap_small by (unfold in_u; lia). lia.
    + bool_to_prop. eexists _, _. split; [reflexivity|]. split; [by split|lia].
    + eexists _, _. split; [reflexivity|]. split; [|cbn; intros; lia]. split; cbn; [|done|done].
      rewrite wrap_small by (unfold in_u; lia). apply (alloc_new Ha).
      intros Hl0. apply andb_false_iff in El as [El|El]; bool_to_prop; lia.
  - destruct (used !! k) as [p|] eqn:Ek; [|exists used, o; by split_and!].
    pose proof (delete_Permutation _ _ _ Ek) as Hu. unfold Push.
    destruct (poolCount o <? poolLimit o) eqn:El; bool_to_prop.
    + eexists _, _. split; [reflexivity|]. split; [|done]. split; cbn.
      * apply (alloc_perm Ha). rewrite Hu at 2. rewrite contents_enqueue. cbn. by rewrite Permutation_middle.
      * rewrite (Permutation_length (contents_enqueue _ p (idle o))). cbn [length].
        rewrite wrap_small by (unfold in_u; lia). lia.
      * rewrite wrap_small by (unfold in_u; lia). lia.
    + rewrite decide_True by (apply H2, elem_of_app; left; by eapply list_elem_of_lookup_2).
      eexists _, _. split; [reflexivity|]. split; [|done]. split; cbn; [|done|done].
      apply Permutation_length in Hu as Hlen. cbn [length] in Hlen. rewrite length_app in H3.
      rewrite wrap_small by (unfold in_u; lia). by apply (alloc_delete Ha p).
Qed.

End ObjectPool.
End ObjectPool.

(** ** The allocation limit under concurrency

    [Pop] of ObjectPool.h and LockFreeObjectPool.h by any number of threads: the
    dequeue, the load of [_allocCount] with the test, and the increment are
    separate atomic steps.  The count of idle objects plays no part. *)

Module PopRace.

Record Shared := mkShared { idle_objs : nat; alloc : Z }.

Inductive PC := Dequeue | LoadCount | Allocate | GotObject | GotNull.

Definition allocating (pc : PC) : bool := match pc with Allocate => true | _ => false end.

Section Race.
Context (limit : Z).

Inductive act : Shared -> PC -> Shared -> PC -> Prop :=
(* if (_pool.try_dequeue(ptr)) *)
| act_reuse n a : act (mkShared (S n) a) Dequeue (mkShared n a) GotObject
| act_empty a : act (mkShared 0 a) Dequeue (mkShared 0 a) LoadCount
(* if (limit > 0 && currentAlloc >= limit) return nullptr; *)
| act_load n a :
    act (mkShared n a) LoadCount (mkShared n a)
        (if (0 <? limit) && (limit <=? a) then GotNull else Allocate)
(* _allocCount.fetch_add(1); new T() *)
| act_allocate n a : act (mkShared n a) Allocate (mkShared n (a + 1)) GotObject
(* the next call of this thread *)
| act_again n a pc : pc = GotObject \/ pc = GotNull -> act (mkShared n a) pc (mkShared n a) Dequeue.

Definition within (threads : nat) (s : Shared * list PC) : Prop :=
  length s.2 = threads /\
  alloc s.1 + Z.of_nat (count allocating s.2) <= limit - 1 + Z.of_nat threads.

Lemma count_le {A} (P : A -> bool) (l : list A) : (count P l <= length l)%nat.
Proof. unfold count. apply length_filter. Qed.

Lemma within_step threads s s' : 0 < limit -> within threads s -> step act s s' -> within threads s'.
Proof.
  intros Hl [Hlen Ha] Hs. destruct Hs as [sh pc sh' pc' pre post Hact]. unfold within in *. cbn [fst snd] in *.
  rewrite length_app in Hlen |- *. cbn [length] in *. split; [done|]. rewrite !count_split in *.
  pose proof (count_le allocating (pre ++ post)) as Hc. rewrite length_app in Hc.
  destruct Hact as [n a|a|n a|n a|n a pc Hpc]; cbn [alloc allocating] in *; try lia.
  destruct ((0 <? limit) && (limit <=? a)) eqn:E; cbn [allocating]; [lia|].
  apply andb_false_iff in E as [E|E]; bool_to_prop; lia.
Qed.

(** The allocation limit of the lock-free pools can be exceeded, since the test
    and the increment are separate, but by less than the number of threads: from a
    state within the limit, however the threads interleave, the count stays at most
    the limit plus the number of threads minus one. *)
Theorem alloc_limit_overshoot idle0 a threads s
  (Hlimit : 0 < limit) (Hstart : a <= limit) (Hthreads : (0 < threads)%nat)
  (Hreach : reachable act (mkShared idle0 a, replicate threads Dequeue) s) :
  alloc s.1 <= limit + Z.of_nat threads - 1.
Proof.
  assert (within threads s) as [_ H]; [|lia].
  eapply (reachable_ind' act (mkShared idle0 a, replicate threads Dequeue) (within threads)); [| |done].
  - unfold within. cbn [fst snd]. rewrite length_replicate. split; [done|]. cbn [alloc].
    replace (count allocating (replicate threads Dequeue)) with 0%nat; [lia|].
    unfold count. clear. by induction threads.
  - intros t t'. by apply within_step.
Qed.

End Race.

(** Two threads do exceed a limit of one. *)
Lemma alloc_limit_exceeded :
  exists s, reachable (act 1) (mkShared 0 0, [Dequeue; Dequeue]) s /\ alloc s.1 = 2.
Proof.
  exists (mkShared 0 2, [GotObject; GotObject]). split; [|done].
  eapply (run_thread _ 0%nat); [reflexivity|apply act_empty|].
  eapply (run_thread _ 1%nat); [reflexivity|apply act_empty|].
  eapply (run_thread _ 0%nat); [reflexivity|apply act_load|].
  eapply (run_thread _ 1%nat); [reflexivity|apply act_load|].
  eapply (run_thread _ 0%nat); [reflexivity|apply act_allocate|].
  eapply (run_thread _ 1%nat); [reflexivity|apply act_allocate|]. apply reach_init.
Qed.

Lemma alloc_limit_overshoot_witness :
  exists s, reachable (act 1) (mkShared 0 0, [Dequeue; Dequeue]) s /\ alloc s.1 = 2 /\ alloc s.1 <= 1 + 2 - 1.
Proof.
  destruct alloc_limit_exceeded as (s & Hr & Ha). exists s. split; [exact Hr|]. split; [exact Ha|].
  apply (alloc_limit_overshoot 1 0 0 2 s); [lia|lia|lia|exact Hr].
Defined.

End PopRace.

(** ** SimplePool

    A vector used as a stack, under a mutex: operations are atomic. *)

Module SimplePool.

Record SimplePool := mkSimple {
  s_live : gset Z; s_next : Z; s_pool : list Z; s_allocCount : Z; s_poolLimit : Z; s_allocLimit : Z
}.

(** The back of the vector is the head of the list. *)
Definition Acquire (o : SimplePool) : option Z * SimplePool :=
  match s_pool o with
  | p :: rest => (Some p, mkSimple (s_live o) (s_next o) rest (s_allocCount o) (s_poolLimit o) (s_allocLimit o))
  | [] =>
      if (0 <? s_allocLimit o) && (s_allocLimit o <=? s_allocCount o) then (None, o) else
      (Some (s_next o), mkSimple ({[s_next o]} ∪ s_live o) (s_next o + 1) [] (u64 (s_allocCount o + 1))
                          (s_poolLimit o) (s_allocLimit o))
  end.

Definition Release (obj : option Z) (o : SimplePool) : option SimplePool :=
  match obj with
  | None => Some o
  | Some p =>
      if Z.of_nat (length (s_pool o)) <? s_poolLimit o then
        Some (mkSimple (s_live o) (s_next o) (p :: s_pool o) (s_allocCount o) (s_poolLimit o) (s_allocLimit o))
      else if decide (p ∈ s_live o) then
        Some (mkSimple (s_live o ∖ {[p]}) (s_next o) (s_pool o) (u64 (s_allocCount o - 1)) (s_poolLimit o) (s_allocLimit o))
      else None
  end.

Definition inv (used : list Z) (o : SimplePool) : Prop :=
  alloc_inv used (s_pool o) (s_live o) (s_next o) (s_allocCount o) (s_allocLimit o) /\
  (0 <= s_poolLimit o -> Z.of_nat (length (s_pool o)) <= s_poolLimit o).

(** Acquired objects are new to the clients; a refusal means the limit. *)
Lemma simple_pool_acquire used o r o' :
  inv used o -> s_allocCount o + 1 < 2 ^ 64 -> Acquire o = (r, o') ->
  inv (option_list r ++ used) o' /\ (r = None -> 0 < s_allocLimit o <= s_allocCount o).
Proof.
  intros [Ha Hl] Hb. unfold Acquire. pose proof (ai_count _ _ _ _ _ _ Ha) as Hc.
  destruct (s_pool o) as [|p rest] eqn:Ep; [destruct (_ && _) eqn:El|]; intros [= <- <-].
  - bool_to_prop. split; [split; rewrite ?Ep; done|lia].
  - split; [|done]. split; cbn; [|done]. rewrite wrap_small by (unfold in_u; lia). apply (alloc_new Ha).
    intros Hl0. apply andb_false_iff in El as [El|El]; bool_to_prop; lia.
  - split; [|done]. split; cbn; [|intros H0; specialize (Hl H0); cbn in Hl; lia].
    apply (alloc_perm Ha). cbn. by rewrite Permutation_middle.
Qed.

(** Releasing an acquired object never fails. *)
Lemma simple_pool_release used used' p o :
  inv used o -> used ≡ₚ p :: used' -> s_allocCount o < 2 ^ 64 ->
  exists o', Release (Some p) o = Some o' /\ inv used' o'.
Proof.
  intros [Ha Hl] Hu Hb. pose proof Ha as [_ H2 H3 _ _]. unfold Release.
  destruct (Z.of_nat (length (s_pool o)) <? s_poolLimit o) eqn:El; bool_to_prop.
  - eexists. split; [reflexivity|]. split; cbn; [|lia]. apply (alloc_perm Ha). rewrite Hu. cbn. by rewrite Permutation_middle.
  - rewrite decide_True by (apply H2; rewrite Hu; left). eexists. split; [reflexivity|]. split; cbn; [|done].
    apply Permutation_length in Hu as Hlen. cbn [length] in Hlen. rewrite length_app in H3.
    rewrite wrap_small by (unfold in_u; lia). by apply (alloc_delete Ha p).
Qed.

End SimplePool.

(** ** GenerationalID *)

Definition GenerationalID_make (version index : Z) : Z := Z.lor (Z.shiftl (u32 version) 16) (u32 index).

Definition GetVersion (value : Z) : Z := u16 (Z.shiftr value 16).

Definition GetIndex (value : Z) : Z := u16 (Z.land value 65535).

Definition IsValid (value : Z) : bool := negb (value =? 0).

(** A handle gives back what it was made of, and handles of the same slot with
    different versions differ. *)
Lemma generational_id_roundtrip version index :
  in_u 16 version -> in_u 16 index ->
  GetVersion (GenerationalID_make version index) = version /\
  GetIndex (GenerationalID_make version index) = index /\
  in_u 32 (GenerationalID_make version index).
Proof.
  unfold in_u. intros Hv Hi. unfold GenerationalID_make, GetVersion, GetIndex.
  rewrite !(wrap_small 32) by (unfold in_u; lia).
  assert (Z.lor (Z.shiftl version 16) index = version * 65536 + index) as ->.
  { rewrite <- Z.lxor_lor, <- Z.add_nocarry_lxor, Z.shiftl_mul_pow2; try lia;
      apply Z.bits_inj'; intros n Hn; rewrite Z.land_spec, Z.bits_0, Z.shiftl_spec by lia;
      (destruct (Z.lt_ge_cases n 16); [rewrite (Z.testbit_neg_r version (n - 16)) by lia; done|]);
      rewrite (Z.bits_above_log2 index), andb_false_r; try done; try lia;
      (destruct (decide (index = 0)) as [->|]; [cbn; lia|]; apply Z.log2_lt_pow2; [lia|]);
      (eapply Z.lt_le_trans; [apply Hi|]; apply Z.pow_le_mono_r; lia). }
  rewrite Z.shiftr_div_pow2 by lia. change 65535 with (2 ^ 16 - 1). rewrite land_mask by lia. unfold wrap.
  change (2 ^ 16) with 65536 in *. change (2 ^ 32) with 4294967296 in *.
  rewrite Z.div_add_l, (Z.div_small index) by lia. rewrite (Z.add_comm (version * 65536)), Z.mod_add by lia.
  rewrite (Z.mod_small index), (Z.mod_small index), Z.mod_small by lia. lia.
Qed.
