(* ===== verification/DbPool.v ===== *)
(** * DbPool: the connection pool of DatabaseImpl under concurrency

    [DatabaseImpl::Acquire] and [DatabaseImpl::Release] by any number of threads:
    every access to the lock-free queue [_pool], the atomics [_currentSize] and
    [_waitingThreads], the mutex and the condition variable is an atomic step, and
    the state of a thread is its program counter in the source.  Whether a pooled
    connection is still valid, whether a new one can be opened, spurious failures
    of the weak compare-exchange, spurious wake-ups and time-outs are free choices
    of a step.  [sleepers] are the threads blocked on the condition variable,
    [woken] those notified that have not resumed yet. *)

From stdpp Require Import base numbers list.
From S2P Require Import Prelude Interleave.

Inductive Timeout := NonBlocking | Infinite | Timed.

Record Shared := mkShared {
  pool : list Z;
  currentSize : Z;
  next : Z;
  waitingThreads : Z;
  locked : bool;
  sleepers : nat;
  woken : nat
}.

Inductive PC :=
| TryPool (t : Timeout)
| Validate (t : Timeout) (c : Z) (waiting : bool)
| Discard (t : Timeout) (waiting : bool)
| LoadSize (t : Timeout)
| Cas (t : Timeout) (current : Z)
| Create
| CreateFailed
| CreateNotify
| LockMutex (t : Timeout)
| PredPool (t : Timeout)
| PredSize (t : Timeout)
| Block (t : Timeout)
| Sleeping (t : Timeout)
| Resume (t : Timeout)
| Unlock (next_pc : PC)
| Holding (c : Z)
| Enqueue (c : Z)
| TestWaiters
| Notify
| NoConnection
| Returned.

Section Acquire.
Context (_poolMax : Z).

Definition set_pool (p : list Z) (sh : Shared) : Shared :=
  mkShared p (currentSize sh) (next sh) (waitingThreads sh) (locked sh) (sleepers sh) (woken sh).
Definition set_size (n : Z) (sh : Shared) : Shared :=
  mkShared (pool sh) n (next sh) (waitingThreads sh) (locked sh) (sleepers sh) (woken sh).
Definition take_address (sh : Shared) : Shared :=
  mkShared (pool sh) (currentSize sh) (next sh + 1) (waitingThreads sh) (locked sh) (sleepers sh) (woken sh).
Definition set_mutex (l : bool) (w : Z) (sh : Shared) : Shared :=
  mkShared (pool sh) (currentSize sh) (next sh) w l (sleepers sh) (woken sh).
Definition set_cv (l : bool) (s w : nat) (sh : Shared) : Shared :=
  mkShared (pool sh) (currentSize sh) (next sh) (waitingThreads sh) l s w.

(** [notify_one] wakes a blocked thread, if there is one. *)
Definition notify_one (sh : Shared) : Shared :=
  match sleepers sh with
  | O => sh
  | S n => set_cv (locked sh) n (S (woken sh)) sh
  end.

Inductive act : Shared -> PC -> Shared -> PC -> Prop :=
(* if (_pool.try_dequeue(rawConn)) *)
| act_dequeue sh t c p : pool sh = c :: p -> act sh (TryPool t) (set_pool p sh) (Validate t c false)
| act_pool_empty sh t : pool sh = [] -> act sh (TryPool t) sh (LoadSize t)
(* if (rawConn->IsConnected() && rawConn->Ping()) *)
| act_valid sh t c w : act sh (Validate t c w) sh (if w then Unlock (Holding c) else Holding c)
(* rawConn->Disconnect(); delete rawConn; *)
| act_invalid sh t c w : act sh (Validate t c w) sh (Discard t w)
(* _currentSize--; continue; *)
| act_discard sh t w :
    act sh (Discard t w) (set_size (currentSize sh - 1) sh) (if w then Unlock (TryPool t) else TryPool t)
(* int current = _currentSize.load(); if (current < _poolMax) ... *)
| act_load sh t :
    act sh (LoadSize t) sh
        (if currentSize sh <? _poolMax then Cas t (currentSize sh)
         else match t with NonBlocking => NoConnection | _ => LockMutex t end)
(* _currentSize.compare_exchange_weak(current, current + 1) *)
| act_cas sh t n : currentSize sh = n -> act sh (Cas t n) (set_size (n + 1) sh) Create
| act_cas_failed sh t n : act sh (Cas t n) sh (TryPool t)
(* _factory->CreateConnection(); rawConn->Connect(...) *)
| act_create sh : act sh Create (take_address sh) (Holding (next sh))
| act_create_failed sh : act sh Create sh CreateFailed
(* _currentSize--; *)
| act_create_undo sh : act sh CreateFailed (set_size (currentSize sh - 1) sh) CreateNotify
(* _waitCv.notify_one(); return nullptr; *)
| act_create_notify sh : act sh CreateNotify (notify_one sh) NoConnection
(* std::unique_lock lock(_waitMutex); ScopedWaiter waiter(_waitingThreads); *)
| act_lock sh t : locked sh = false -> act sh (LockMutex t) (set_mutex true (waitingThreads sh + 1) sh) (PredPool t)
(* if (remaining <= 0) return nullptr; *)
| act_lock_late sh :
    locked sh = false ->
    act sh (LockMutex Timed) (set_mutex true (waitingThreads sh + 1) sh) (Unlock NoConnection)
(* predicate: _pool.try_dequeue(rawConn) ... *)
| act_pred_dequeue sh t c p : pool sh = c :: p -> act sh (PredPool t) (set_pool p sh) (Validate t c true)
| act_pred_empty sh t : pool sh = [] -> act sh (PredPool t) sh (PredSize t)
(* ... return _currentSize.load() < _poolMax; *)
| act_pred_size sh t :
    act sh (PredSize t) sh (if currentSize sh <? _poolMax then Unlock (TryPool t) else Block t)
(* the wait: the mutex is released and the thread blocks *)
| act_block sh t : act sh (Block t) (set_cv false (S (sleepers sh)) (woken sh) sh) (Sleeping t)
| act_timeout sh : act sh (Block Timed) sh (Unlock NoConnection)
| act_woken sh t n : woken sh = S n -> act sh (Sleeping t) (set_cv (locked sh) (sleepers sh) n sh) (Resume t)
| act_spurious sh t n : sleepers sh = S n -> act sh (Sleeping t) (set_cv (locked sh) n (woken sh) sh) (Resume t)
(* the predicate is evaluated again with the mutex held *)
| act_resume sh t :
    locked sh = false -> act sh (Resume t) (set_cv true (sleepers sh) (woken sh) sh) (PredPool t)
(* the end of the scope: ~ScopedWaiter, ~unique_lock *)
| act_unlock sh pc : act sh (Unlock pc) (set_mutex false (waitingThreads sh - 1) sh) pc
(* the last shared_ptr goes: Release(conn): conn->ResetState(); *)
| act_release sh c : act sh (Holding c) sh (Enqueue c)
(* _pool.enqueue(conn); *)
| act_enqueue sh c : act sh (Enqueue c) (set_pool (pool sh ++ [c]) sh) TestWaiters
(* if (_waitingThreads > 0) _waitCv.notify_one(); *)
| act_test sh : act sh TestWaiters sh (if 0 <? waitingThreads sh then Notify else Returned)
| act_notify sh : act sh Notify (notify_one sh) Returned.

(** ** Invariant *)

(** The connection a thread has in its hands. *)
Fixpoint held (pc : PC) : list Z :=
  match pc with
  | Validate _ c _ | Holding c | Enqueue c => [c]
  | Unlock pc => held pc
  | _ => []
  end.

(** A place in [_currentSize] without a connection. *)
Fixpoint reserving (pc : PC) : bool :=
  match pc with
  | Discard _ _ | Create | CreateFailed => true
  | Unlock pc => reserving pc
  | _ => false
  end.

(** The compare-exchange is only tried below the maximum. *)
Fixpoint cas_ok (pc : PC) : bool :=
  match pc with Cas _ n => n <? _poolMax | Unlock pc => cas_ok pc | _ => true end.

Definition connections (s : Shared * list PC) : list Z := pool s.1 ++ in_hands held s.2.

Record pool_inv (s : Shared * list PC) : Prop := mk_pool_inv {
  pi_size : currentSize s.1 = Z.of_nat (length (connections s) + count reserving s.2);
  pi_max : currentSize s.1 <= _poolMax;
  pi_nodup : NoDup (connections s);
  pi_fresh : forall c, c ∈ connections s -> c < next s.1;
  pi_cas : Forall (fun pc => cas_ok pc = true) s.2
}.

(** What one thread's step may do to the connections: keep them, drop its own, or
    add a new one. *)
Definition own (sh : Shared) (pc : PC) : list Z := pool sh ++ held pc.

Definition places (pc : PC) : nat := if reserving pc then 1 else 0.

Inductive effect (sh : Shared) (pc : PC) (sh' : Shared) (pc' : PC) : Prop :=
| eff_keep : own sh' pc' ≡ₚ own sh pc -> currentSize sh' = currentSize sh -> places pc' = places pc ->
    next sh' = next sh -> effect sh pc sh' pc'
| eff_drop c : own sh pc ≡ₚ c :: own sh' pc' -> currentSize sh' = currentSize sh ->
    places pc' = S (places pc) -> next sh' = next sh -> effect sh pc sh' pc'
| eff_return : own sh' pc' ≡ₚ own sh pc -> currentSize sh' = currentSize sh - 1 ->
    places pc = S (places pc') -> next sh' = next sh -> effect sh pc sh' pc'
| eff_reserve : own sh' pc' ≡ₚ own sh pc -> currentSize sh' = currentSize sh + 1 -> currentSize sh < _poolMax ->
    places pc' = S (places pc) -> next sh' = next sh -> effect sh pc sh' pc'
| eff_create : own sh' pc' ≡ₚ next sh :: own sh pc -> currentSize sh' = currentSize sh ->
    places pc = S (places pc') -> next sh' = next sh + 1 -> effect sh pc sh' pc'.

(** Steps that leave the connections where they are, or move one between the pool
    and the thread. *)
Ltac solve_keep :=
  solve [split; [apply eff_keep|]; unfold own; cbn; rewrite ?app_nil_r;
    repeat match goal with |- context [match ?x with _ => _ end] => is_var x; destruct x end;
    repeat case_match; cbn; try done;
    try match goal with H : pool _ = _ :: _ |- _ => rewrite H end;
    rewrite ?app_nil_r; first [done | by rewrite Permutation_app_comm]].

Lemma act_effect sh pc sh' pc' :
  act sh pc sh' pc' -> cas_ok pc = true -> effect sh pc sh' pc' /\ cas_ok pc' = true.
Proof.
  intros Ha Hc. destruct Ha; unfold own, notify_one in *; cbn [cas_ok] in Hc; try solve_keep.
  - split; [apply (eff_drop _ _ _ _ c)|]; unfold own; cbn; try done. by rewrite Permutation_app_comm, app_nil_r.
  - split; [apply eff_return|by destruct w]; unfold own; destruct w; done.
  - subst n. split; [apply eff_reserve|]; unfold own; cbn; try done. bool_to_prop. lia.
  - split; [apply eff_create|]; unfold own; cbn; try done. by rewrite app_nil_r, Permutation_app_comm.
  - split; [apply eff_return|]; done.
Qed.

Lemma connections_split sh pre pc post :
  connections (sh, pre ++ pc :: post) ≡ₚ own sh pc ++ in_hands held (pre ++ post).
Proof. unfold connections, own. cbn [fst snd]. by rewrite in_hands_split, app_assoc. Qed.

Lemma pool_inv_step s s' : pool_inv s -> step act s s' -> pool_inv s'.
Proof.
  intros [Hs Hm Hn Hf Hc] Hstep. destruct Hstep as [sh pc sh' pc' pre post Ha]. cbn [fst snd] in *.
  apply Forall_app in Hc as [Hc1 Hc2]. apply Forall_cons in Hc2 as [Hpc Hc2].
  destruct (act_effect _ _ _ _ Ha Hpc) as [He Hc']. clear Ha.
  assert (Forall (fun pc => cas_ok pc = true) (pre ++ pc' :: post)) as Hc3.
  { apply Forall_app. split; [done|]. by apply Forall_cons. }
  pose proof (connections_split sh pre pc post) as P. pose proof (connections_split sh' pre pc' post) as P'.
  rewrite count_split in Hs. rewrite (Permutation_length P), length_app in Hs. rewrite P in Hn.
  assert (forall c, c ∈ own sh pc ++ in_hands held (pre ++ post) -> c < next sh) as Hf'
    by (intros c; rewrite <- P; apply Hf). clear Hf P.
  destruct He as [Eo Ez Ep En|c Eo Ez Ep En|Eo Ez Ep En|Eo Ez El Ep En|Eo Ez Ep En]; unfold places in Ep.
  all: split; cbn [fst snd]; rewrite ?count_split, ?(Permutation_length P'), ?length_app, ?P'; try done; try lia;
    try (apply Permutation_length in Eo as El'; cbn [length] in El'; lia).
  - by rewrite Eo.
  - intros c. rewrite P', Eo, En. apply Hf'.
  - rewrite Eo in Hn. by apply NoDup_cons in Hn as [_ Hn].
  - intros a Ha. rewrite P' in Ha. rewrite En. apply Hf'. rewrite Eo. by right.
  - by rewrite Eo.
  - intros c. rewrite P', Eo, En. apply Hf'.
  - by rewrite Eo.
  - intros c. rewrite P', Eo, En. apply Hf'.
  - rewrite Eo. apply NoDup_cons. split; [|done]. intros Hin. apply Hf' in Hin. lia.
  - intros c. rewrite P', Eo, En. intros [->|Hin]%elem_of_cons; [lia|]. apply Hf' in Hin. lia.
Qed.

(** C15: The connection pool never exceeds its size and never shares a connection:
    in every interleaving of [Acquire] and [Release] from an empty pool, whatever
    fails, every connection is idle or in the hands of exactly one thread, there
    are at most [_poolMax] of them, and [_currentSize] counts them together with
    the places being filled or given up. *)
Theorem db_pool_bounded_exclusive ts s
  (Hmax : 0 <= _poolMax)
  (Hreach : reachable act (mkShared [] 0 1 0 false 0 0, TryPool <$> ts) s) :
  NoDup (connections s) /\ Z.of_nat (length (connections s)) <= _poolMax /\
  currentSize s.1 = Z.of_nat (length (connections s) + count reserving s.2).
Proof.
  assert (pool_inv s) as [H1 H2 H3 _ _].
  { eapply (reachable_ind' act _ pool_inv); [|apply pool_inv_step|exact Hreach].
    assert (in_hands held (TryPool <$> ts) = []) as Hh by (clear; unfold in_hands; by induction ts).
    assert (count reserving (TryPool <$> ts) = 0%nat) as Hc by (clear; unfold count; by induction ts).
    split; unfold connections; cbn [fst snd pool currentSize app]; rewrite ?Hh, ?Hc; try done.
    - constructor.
    - by intros c ?%elem_of_nil.
    - apply Forall_fmap, Forall_true. done. }
  split; [done|]. split; [lia|done].
Qed.

End Acquire.

Lemma db_pool_bounded_exclusive_witness :
  exists s, reachable (act 1) (mkShared [] 0 1 0 false 0 0, TryPool <$> [Infinite; NonBlocking]) s /\
    s.2 = [Holding 1; NoConnection] /\ Z.of_nat (length (connections s)) <= 1.
Proof.
  assert (reachable (act 1) (mkShared [] 0 1 0 false 0 0, TryPool <$> [Infinite; NonBlocking])
    (mkShared [] 1 2 0 false 0 0, [Holding 1; NoConnection])) as Hr.
  { eapply (run_thread _ 0%nat); [reflexivity|by apply act_pool_empty|].
    eapply (run_thread _ 0%nat); [reflexivity|apply act_load|].
    eapply (run_thread _ 0%nat); [reflexivity|by apply act_cas|].
    eapply (run_thread _ 0%nat); [reflexivity|apply act_create|].
    eapply (run_thread _ 1%nat); [reflexivity|by apply act_pool_empty|].
    eapply (run_thread _ 1%nat); [reflexivity|apply act_load|]. apply reach_init. }
  eexists. split; [exact Hr|]. split; [reflexivity|].
  exact (proj1 (proj2 (db_pool_bounded_exclusive 1 [Infinite; NonBlocking] _ ltac:(lia) Hr))).
Defined.

(** ** A lost wake-up *)

(** [Release] can leave a thread asleep beside an idle connection: it tests
    [_waitingThreads] and notifies without taking the mutex, so when both happen
    between the waiter's evaluation of the predicate and its blocking, nobody wakes
    the waiter.  In the state reached every other thread has returned, no wake-up is
    pending, a connection is idle and the thread waits without a time-out. *)
Theorem db_pool_lost_wakeup :
  exists s, reachable (act 1) (mkShared [] 0 1 0 false 0 0, TryPool <$> [NonBlocking; Infinite]) s /\
    s.2 = [Returned; Sleeping Infinite] /\ pool s.1 = [1] /\ woken s.1 = 0%nat.
Proof.
  exists (mkShared [1] 1 2 1 false 1 0, [Returned; Sleeping Infinite]). split; [|done].
  (* the first thread opens the only connection *)
  eapply (run_thread _ 0%nat); [reflexivity|by apply act_pool_empty|].
  eapply (run_thread _ 0%nat); [reflexivity|apply act_load|].
  eapply (run_thread _ 0%nat); [reflexivity|by apply act_cas|].
  eapply (run_thread _ 0%nat); [reflexivity|apply act_create|].
  (* the second finds the pool empty and full, and evaluates the predicate *)
  eapply (run_thread _ 1%nat); [reflexivity|by apply act_pool_empty|].
  eapply (run_thread _ 1%nat); [reflexivity|apply act_load|].
  eapply (run_thread _ 1%nat); [reflexivity|by apply act_lock|].
  eapply (run_thread _ 1%nat); [reflexivity|by apply act_pred_empty|].
  eapply (run_thread _ 1%nat); [reflexivity|apply act_pred_size|].
  (* the first releases: nobody is blocked yet *)
  eapply (run_thread _ 0%nat); [reflexivity|apply act_release|].
  eapply (run_thread _ 0%nat); [reflexivity|apply act_enqueue|].
  eapply (run_thread _ 0%nat); [reflexivity|apply act_test|].
  eapply (run_thread _ 0%nat); [reflexivity|apply act_notify|].
  (* the second blocks *)
  eapply (run_thread _ 1%nat); [reflexivity|apply act_block|]. apply reach_init.
Qed.
