(* ===== verification/Database.v ===== *)
(** * Database: the facade of DatabaseImpl

    Models src/System/Database/DatabaseImpl.cpp and DatabaseImpl.h on one thread:
    [Acquire] and [Release] with the [shared_ptr]s that return a connection, the
    synchronous operations, the wrappers that keep a connection out of the pool
    ([ResultSetWrapper], [PreparedStatementWrapper], [TransactionWrapper]), the
    pinned [DatabaseConnectionProxy] and the asynchronous operations.  [DbPool]
    has the concurrent view of the pool.

    The driver (IConnection, IConnectionFactory) is a class of operations on an
    abstract state; [None] as its answer is a C++ exception.  [calls] records what
    the driver was asked to do.  An operation returns, blocks for ever or is
    undefined. *)

From Stdlib Require Import String.
From stdpp Require Import base numbers gmap list strings.
From S2P Require Import Prelude ConcurrentQueue Messages MessagePool Session.

#[local] Open Scope Z_scope.

Inductive DbStatusCode :=
| DB_OK | DB_ERROR | DB_TIMEOUT | DB_BUSY | DB_AUTH_FAIL | DB_INVALID_QUERY
| DB_TRANSACTION_ACTIVE | DB_CONNECTION_FAILURE.

#[global] Instance DbStatusCode_eq_dec : EqDecision DbStatusCode.
Proof. solve_decision. Defined.

Record DbStatus := mkStatus { code : DbStatusCode; message : string }.

Definition IsOk (s : DbStatus) : bool := bool_decide (code s = DB_OK).

Definition Ok : DbStatus := mkStatus DB_OK "".
Definition Error (msg : string) : DbStatus := mkStatus DB_ERROR msg.

(** A result holds the handle of the wrapper it was moved into. *)
Record DbResult := mkResult { status : DbStatus; value : option Z }.

Definition Success (v : Z) : DbResult := mkResult Ok (Some v).
Definition Fail_ (s : DbStatus) : DbResult := mkResult s None.

(** What a connection can be asked to do. *)
Inductive ConnCall :=
| CallConnect | CallDisconnect | CallPing | CallExecute (sql : string) | CallQuery (sql : string)
| CallPrepare (sql : string) | CallBegin | CallCommit | CallRollback | CallResetState.

Class Driver (D : Type) := {
  CreateConnection : D -> bool * D;
  IsConnected : Z -> D -> bool;
  (** [Connect] and [Ping]: whether they succeed. *)
  conn_bool : ConnCall -> Z -> D -> bool * D;
  (** [Disconnect] and [ResetState] *)
  conn_void : ConnCall -> Z -> D -> D;
  (** [Execute], [BeginTransaction], [Commit], [Rollback] *)
  conn_status : ConnCall -> Z -> D -> option DbStatus * D;
  (** [Query] and [Prepare], with whether there is a value *)
  conn_result : ConnCall -> Z -> D -> option (DbStatus * bool) * D
}.

Inductive Wrapper :=
| ResultSetWrapper (c : Z)
| PreparedStatementWrapper (c : Z)
| TransactionWrapper (c : Z) (committed : bool).

Definition wrapper_conn (w : Wrapper) : Z :=
  match w with ResultSetWrapper c | PreparedStatementWrapper c | TransactionWrapper c _ => c end.

Record Db (D : Type) := mkDb {
  _pool : list Z;
  _currentSize : Z;
  _poolMax : Z;
  _defaultTimeoutMs : Z;
  alive : bool;
  refs : gmap Z Z;
  wrappers : gmap Z Wrapper;
  next : Z;
  calls : list (Z * ConnCall);
  drv : D
}.
Arguments mkDb {D} _ _ _ _ _ _ _ _ _ _.
Arguments _pool {D} _.
Arguments _currentSize {D} _.
Arguments _poolMax {D} _.
Arguments _defaultTimeoutMs {D} _.
Arguments alive {D} _.
Arguments refs {D} _.
Arguments wrappers {D} _.
Arguments next {D} _.
Arguments calls {D} _.
Arguments drv {D} _.

(** [DatabaseImpl::DatabaseImpl]: no connections yet; identities start at one. *)
Definition new_db {D : Type} (poolSize defaultTimeoutMs : Z) (d : D) : Db D :=
  mkDb [] 0 poolSize defaultTimeoutMs true ∅ ∅ 1 [] d.

Inductive Res (D A : Type) := Ret (a : A) (db : Db D) | Blocked | Undefined.
Arguments Ret {D A} _ _.
Arguments Blocked {D A}.
Arguments Undefined {D A}.

Section Database.
Context {D : Type} `{!Driver D}.
Implicit Types db : Db D.

Definition Op (A : Type) : Type := Db D -> Res D A.

#[export] Instance Op_ret : MRet Op := fun A a db => Ret a db.
#[export] Instance Op_bind : MBind Op := fun A B k m db =>
  match m db with Ret a db => k a db | Blocked => Blocked | Undefined => Undefined end.

Definition undefined {A} : Op A := fun _ => Undefined.
Definition blocked {A} : Op A := fun _ => Blocked.
Definition gets {A} (f : Db D -> A) : Op A := fun db => Ret (f db) db.
Definition modify (f : Db D -> Db D) : Op unit := fun db => Ret tt (f db).

Definition set_pool (p : list Z) (n : Z) db : Db D :=
  mkDb p n (_poolMax db) (_defaultTimeoutMs db) (alive db) (refs db) (wrappers db) (next db) (calls db) (drv db).
Definition set_refs (r : gmap Z Z) db : Db D :=
  mkDb (_pool db) (_currentSize db) (_poolMax db) (_defaultTimeoutMs db) (alive db) r (wrappers db) (next db) (calls db) (drv db).
Definition set_wrappers (w : gmap Z Wrapper) db : Db D :=
  mkDb (_pool db) (_currentSize db) (_poolMax db) (_defaultTimeoutMs db) (alive db) (refs db) w (next db) (calls db) (drv db).
Definition set_next (n : Z) db : Db D :=
  mkDb (_pool db) (_currentSize db) (_poolMax db) (_defaultTimeoutMs db) (alive db) (refs db) (wrappers db) n (calls db) (drv db).
Definition set_drv (d : D) db : Db D :=
  mkDb (_pool db) (_currentSize db) (_poolMax db) (_defaultTimeoutMs db) (alive db) (refs db) (wrappers db) (next db) (calls db) d.
Definition set_dead db : Db D :=
  mkDb (_pool db) (_currentSize db) (_poolMax db) (_defaultTimeoutMs db) false (refs db) (wrappers db) (next db) (calls db) (drv db).
Definition record (c : Z) (k : ConnCall) db : Db D :=
  mkDb (_pool db) (_currentSize db) (_poolMax db) (_defaultTimeoutMs db) (alive db) (refs db) (wrappers db) (next db)
    (calls db ++ [(c, k)]) (drv db).

(** Calls of the driver. *)
Definition call_void (k : ConnCall) (c : Z) : Op unit :=
  fun db => Ret tt (set_drv (conn_void k c (drv db)) (record c k db)).
Definition call_bool (k : ConnCall) (c : Z) : Op bool :=
  fun db => let '(b, d) := conn_bool k c (drv db) in Ret b (set_drv d (record c k db)).
Definition call_status (k : ConnCall) (c : Z) : Op (option DbStatus) :=
  fun db => let '(r, d) := conn_status k c (drv db) in Ret r (set_drv d (record c k db)).
Definition call_result (k : ConnCall) (c : Z) : Op (option (DbStatus * bool)) :=
  fun db => let '(r, d) := conn_result k c (drv db) in Ret r (set_drv d (record c k db)).

(** ** The connection pool *)

Definition new_address : Op Z := fun db => Ret (next db) (set_next (next db + 1) db).

(** [_factory->CreateConnection()] *)
Definition create_connection : Op (option Z) :=
  fun db =>
    let '(b, d) := CreateConnection (drv db) in
    if b : bool then (c ← new_address; mret (Some c)) (set_drv d db) else Ret None (set_drv d db).

(** The loop of [Acquire].  On one thread nobody changes the pool meanwhile: the
    compare-exchange succeeds, and a wait ends with the time-out or never. *)
Fixpoint acquire_loop (fuel : nat) (timeoutMs : Z) : Op (option Z) :=
  match fuel with
  | O => undefined
  | S fuel =>
      p ← gets _pool;
      n ← gets _currentSize;
      match p with
      | c :: rest =>
          modify (set_pool rest n);;
          connected ← gets (fun db => IsConnected c (drv db));
          ok ← (if connected : bool then call_bool CallPing c else mret false);
          if ok : bool then mret (Some c) else
          call_void CallDisconnect c;;
          modify (set_pool rest (n - 1));;
          acquire_loop fuel timeoutMs
      | [] =>
          mx ← gets _poolMax;
          if n <? mx then
            modify (set_pool [] (n + 1));;
            r ← create_connection;
            match r with
            | Some c =>
                ok ← call_bool CallConnect c;
                if ok : bool then mret (Some c) else modify (set_pool [] n);; mret None
            | None => modify (set_pool [] n);; mret None
            end
          else if timeoutMs =? 0 then mret None
          else if timeoutMs =? -1 then blocked
          else mret None
      end
  end.

(** The acquired connection is wrapped in a [shared_ptr] with one owner. *)
Definition Acquire (timeoutMs : Z) : Op (option Z) :=
  p ← gets _pool;
  r ← acquire_loop (S (List.length p)) timeoutMs;
  match r with
  | Some c => modify (fun db => set_refs (<[c := 1]> (refs db)) db);; mret (Some c)
  | None => mret None
  end.

Definition Release (c : Z) : Op unit :=
  call_void CallResetState c;;
  modify (fun db => set_pool (_pool db ++ [c]) (_currentSize db) db).

(** Copying and destroying a [shared_ptr] to the connection. *)
Definition share (c : Z) : Op unit :=
  fun db => match refs db !! c with
            | Some n => Ret tt (set_refs (<[c := n + 1]> (refs db)) db)
            | None => Undefined
            end.

Definition drop_ref (c : Z) : Op unit :=
  fun db => match refs db !! c with
            | Some n =>
                if n =? 1 then
                  let db := set_refs (delete c (refs db)) db in
                  if alive db then Release c db else call_void CallDisconnect c db
                else Ret tt (set_refs (<[c := n - 1]> (refs db)) db)
            | None => Undefined
            end.

(** [std::make_unique<...Wrapper>(conn, ...)] *)
Definition make_wrapper (w : Wrapper) : Op Z :=
  share (wrapper_conn w);;
  h ← new_address;
  modify (fun db => set_wrappers (<[h := w]> (wrappers db)) db);;
  mret h.

(** ** Operations on a given connection

    [None]: an exception of the driver. *)

Definition query_on (c : Z) (sql : string) : Op (option DbResult) :=
  res ← call_result (CallQuery sql) c;
  match res with
  | None => mret None
  | Some (s, has_value) =>
      if IsOk s && has_value then h ← make_wrapper (ResultSetWrapper c); mret (Some (Success h))
      else mret (Some (Fail_ s))
  end.

Definition prepare_on (c : Z) (sql : string) : Op (option DbResult) :=
  res ← call_result (CallPrepare sql) c;
  match res with
  | None => mret None
  | Some (s, has_value) =>
      if negb (IsOk s) then mret (Some (Fail_ s)) else
      if has_value : bool then h ← make_wrapper (PreparedStatementWrapper c); mret (Some (Success h)) else undefined
  end.

Definition begin_on (c : Z) : Op (option DbResult) :=
  res ← call_status CallBegin c;
  match res with
  | None => mret None
  | Some s =>
      if negb (IsOk s) then mret (Some (Fail_ s)) else
      h ← make_wrapper (TransactionWrapper c false); mret (Some (Success h))
  end.

(** ** IDatabase *)

Definition timeout_status : DbStatus := mkStatus DB_TIMEOUT "Connection acquisition timeout".
Definition driver_exception : DbStatus := mkStatus DB_ERROR "Internal driver exception".

(** The common shape: acquire, try, catch; the local [shared_ptr] goes at the end. *)
Definition with_connection {A} (failed : DbStatus -> A) (body : Z -> Op (option A)) : Op A :=
  t ← gets _defaultTimeoutMs;
  conn ← Acquire t;
  match conn with
  | None => mret (failed timeout_status)
  | Some c => r ← body c; drop_ref c;; mret (default (failed driver_exception) r)
  end.

Definition Query (sql : string) : Op DbResult := with_connection Fail_ (fun c => query_on c sql).

Definition Execute (sql : string) : Op DbStatus := with_connection id (call_status (CallExecute sql)).

Definition Prepare (sql : string) : Op DbResult := with_connection Fail_ (fun c => prepare_on c sql).

Definition BeginTransaction : Op DbResult := with_connection Fail_ begin_on.

(** [Acquire(0)], only to see whether it works. *)
Definition Init : Op unit :=
  conn ← Acquire 0; match conn with Some c => drop_ref c | None => mret () end.

(** ** The wrappers *)

Definition Commit (h : Z) : Op (option DbStatus) :=
  w ← gets (fun db => wrappers db !! h);
  match w with
  | Some (TransactionWrapper c committed) =>
      if committed : bool then mret (Some (Error "Already committed")) else
      r ← call_status CallCommit c;
      match r with
      | Some s =>
          (if IsOk s then modify (fun db => set_wrappers (<[h := TransactionWrapper c true]> (wrappers db)) db)
           else mret ());;
          mret (Some s)
      | None => mret None
      end
  | _ => undefined
  end.

(** The destructors: an uncommitted transaction is rolled back, whatever the
    driver answers; then the connection's [shared_ptr] goes. *)
Definition close_wrapper (h : Z) : Op unit :=
  w ← gets (fun db => wrappers db !! h);
  match w with
  | Some w =>
      (match w with
       | TransactionWrapper c false => _ ← call_status CallRollback c; mret ()
       | _ => mret ()
       end);;
      modify (fun db => set_wrappers (delete h (wrappers db)) db);;
      drop_ref (wrapper_conn w)
  | None => undefined
  end.

(** [~DatabaseImpl] *)
Fixpoint disconnect_all (cs : list Z) : Op unit :=
  match cs with [] => mret () | c :: cs => call_void CallDisconnect c;; disconnect_all cs end.

Definition destroy : Op unit :=
  p ← gets _pool;
  disconnect_all p;;
  modify (fun db => set_dead (set_pool [] (_currentSize db) db)).

(** ** Asynchronous operations

    [hasPool], [hasDispatcher]: whether [_threadPool] and [_dispatcher] are set.  A
    callback is an identity, [None] an empty [std::function].  The jobs run on a
    worker of the pool; the posted calls on the dispatcher's thread. *)

Inductive Job :=
| JobQuery (sql : string) (callback : option Z)
| JobExecute (sql : string) (callback : option Z)
| JobTransaction (txLogic : Z -> Op (option bool)) (callback : option Z).

Inductive Posted :=
| PostQuery (callback : option Z) (r : DbResult)
| PostExecute (callback : option Z) (s : DbStatus)
| PostTransaction (callback : option Z) (success : bool).

Record Async := mkAsync { hasPool : bool; hasDispatcher : bool; jobs : list Job; posted : list Posted }.

Definition not_configured : DbStatus := Error "Async Context Not Configured".

(** [job] when there is a pool, else [failure] to whoever can hear it. *)
Definition async_call (callback : option Z) (job : Job) (failure : Posted) (a : Async) : Async :=
  if negb (hasPool a) then
    match callback with
    | Some _ => if hasDispatcher a then mkAsync false true (jobs a) (posted a ++ [failure]) else a
    | None => a
    end
  else mkAsync true (hasDispatcher a) (jobs a ++ [job]) (posted a).

Definition AsyncQuery (sql : string) (callback : option Z) : Async -> Async :=
  async_call callback (JobQuery sql callback) (PostQuery callback (Fail_ not_configured)).

Definition AsyncExecute (sql : string) (callback : option Z) : Async -> Async :=
  async_call callback (JobExecute sql callback) (PostExecute callback not_configured).

Definition AsyncRunInTransaction (txLogic : Z -> Op (option bool)) (callback : option Z) : Async -> Async :=
  async_call callback (JobTransaction txLogic callback) (PostTransaction callback false).

(** [txLogic] on the pinned connection; an exception counts as failure.  The proxy
    shares the connection. *)
Definition run_transaction (txLogic : Z -> Op (option bool)) : Op (option Z * bool) :=
  t ← gets _defaultTimeoutMs;
  conn ← Acquire t;
  match conn with
  | None => mret (None, false)
  | Some c => share c;; r ← txLogic c; drop_ref c;; mret (Some c, default false r)
  end.

(** A job on a worker thread: the call, then the push to the dispatcher, then the
    end of the lambda's locals. *)
Definition run_job (j : Job) (a : Async) : Op Async :=
  let post p := mkAsync (hasPool a) (hasDispatcher a) (jobs a) (posted a ++ [p]) in
  match j with
  | JobQuery sql cb => r ← Query sql; if hasDispatcher a then mret (post (PostQuery cb r)) else undefined
  | JobExecute sql cb => s ← Execute sql; if hasDispatcher a then mret (post (PostExecute cb s)) else undefined
  | JobTransaction tx cb =>
      '(conn, success) ← run_transaction tx;
      if negb (hasDispatcher a) then undefined else
      (match conn with Some c => drop_ref c | None => mret () end);;
      mret (post (PostTransaction cb success))
  end.

(** [DatabaseConnectionProxy]: the driver's exceptions pass through, and the
    asynchronous operations only report that they are not supported. *)
Definition proxy_Query (c : Z) (sql : string) : Op (option DbResult) := query_on c sql.
Definition proxy_Execute (c : Z) (sql : string) : Op (option DbStatus) := call_status (CallExecute sql) c.
Definition proxy_Prepare (c : Z) (sql : string) : Op (option DbResult) := prepare_on c sql.
Definition proxy_BeginTransaction (c : Z) : Op (option DbResult) := begin_on c.

(** ** Invariant

    [l] lists the [shared_ptr]s in local variables.  A connection is idle in the
    pool or owned, with the use count of its owners; [_currentSize] counts both.  An idle
    connection has been reset since it was last used. *)

(** The calls that may leave something behind in a connection. *)
Definition dirties (k : ConnCall) : bool :=
  match k with CallDisconnect | CallPing | CallResetState => false | _ => true end.

Definition after_call (c : Z) (dirty : bool) (call : Z * ConnCall) : bool :=
  if call.1 =? c then match call.2 with CallResetState => false | k => dirty || dirties k end else dirty.

(** Whether [c] was used since it was last reset. *)
Definition dirty (c : Z) (l : list (Z * ConnCall)) : bool := foldl (after_call c) false l.

Definition tidy (c : Z) db : Prop := dirty c (calls db) = false.

Lemma dirty_app c l k : dirty c (l ++ [k]) = after_call c (dirty c l) k.
Proof. unfold dirty. by rewrite foldl_app. Qed.

Lemma tidy_record c c' k db : c <> c' \/ dirties k = false -> tidy c db -> tidy c (record c' k db).
Proof.
  unfold tidy. cbn [calls record]. rewrite dirty_app. intros H ->. unfold after_call. cbn [fst snd].
  destruct (c' =? c) eqn:E; [|done]. bool_to_prop. destruct H as [H|H]; [congruence|]. by destruct k.
Qed.

Lemma tidy_reset c db : tidy c (record c CallResetState db).
Proof. unfold tidy. cbn [calls record]. rewrite dirty_app. unfold after_call. cbn. by rewrite Z.eqb_refl. Qed.

Definition owners (l : list Z) db : list Z := l ++ (wrapper_conn <$> (map_to_list (wrappers db)).*2).

Record db_inv (l : list Z) db : Prop := mk_db_inv {
  di_refs : forall c n, refs db !! c = Some n -> n = occurrences c (owners l db) /\ 0 < n;
  di_owned : forall c, c ∈ owners l db -> is_Some (refs db !! c);
  di_idle : forall c, c ∈ _pool db -> refs db !! c = None;
  di_nodup : NoDup (_pool db);
  di_size : _currentSize db = Z.of_nat (List.length (_pool db) + size (refs db));
  di_max : _currentSize db <= _poolMax db;
  di_fresh : forall c, c ∈ _pool db \/ is_Some (refs db !! c) -> c < next db;
  di_handles : forall h, is_Some (wrappers db !! h) -> h < next db;
  di_alive : alive db = true;
  di_tidy : forall c, c ∈ _pool db -> tidy c db
}.

(** [m] returns, and its result satisfies [P]. *)
Definition returns {A} (m : Op A) db (P : A -> Db D -> Prop) : Prop :=
  match m db with Ret a db' => P a db' | _ => False end.

Lemma returns_bind {A B} (m : Op A) (k : A -> Op B) db P :
  returns m db (fun a db' => returns (k a) db' P) -> returns (m ≫= k) db P.
Proof. unfold returns, mbind, Op_bind. by destruct (m db). Qed.

Lemma returns_mono {A} (m : Op A) db (P R : A -> Db D -> Prop) :
  returns m db P -> (forall a db', P a db' -> R a db') -> returns m db R.
Proof. unfold returns. destruct (m db); [|done|done]. auto. Qed.

Lemma db_inv_perm l l' db : l ≡ₚ l' -> db_inv l db -> db_inv l' db.
Proof.
  intros Hp [H1 H2 H3 H4 H5 H6 H7 H8 H9 H10].
  assert (owners l' db ≡ₚ owners l db) as Ho by (unfold owners; by rewrite Hp).
  split; try done.
  - intros c n Hc. rewrite (occurrences_perm _ _ _ Ho). by apply H1.
  - intros c. rewrite Ho. apply H2.
Qed.

(** The driver's calls change nothing of the pool's state. *)
Definition same_state (db db' : Db D) : Prop :=
  _pool db' = _pool db /\ _currentSize db' = _currentSize db /\ _poolMax db' = _poolMax db /\
  _defaultTimeoutMs db' = _defaultTimeoutMs db /\ alive db' = alive db /\ refs db' = refs db /\
  wrappers db' = wrappers db /\ next db' = next db /\
  (forall c, c ∈ _pool db -> tidy c db -> tidy c db').

Lemma same_state_inv l db db' : same_state db db' -> db_inv l db -> db_inv l db'.
Proof.
  intros (E1 & E2 & E3 & E4 & E5 & E6 & E7 & E8 & E9) [H1 H2 H3 H4 H5 H6 H7 H8 H9 H10].
  assert (owners l db' = owners l db) as Eo by (unfold owners; by rewrite E7).
  split; rewrite ?E1, ?E2, ?E3, ?E5, ?E6, ?E7, ?E8, ?Eo; try done. intros c Hc. by apply E9, H10.
Qed.

Lemma called_same_state k c d db :
  (c ∉ _pool db) \/ dirties k = false -> same_state db (set_drv d (record c k db)).
Proof.
  intros Hc. split_and!; try done. intros c' Hc' Ht. apply (tidy_record c' c k db); [|done].
  destruct Hc as [Hc|]; [left; congruence|by right].
Qed.

Lemma call_status_ok k c db (P : option DbStatus -> Db D -> Prop) : c ∉ _pool db ->
  (forall r db', same_state db db' -> P r db') -> returns (call_status k c) db P.
Proof.
  intros Hc HP. unfold returns, call_status. destruct (conn_status k c (drv db)) as [r d].
  apply HP, called_same_state. by left.
Qed.

Lemma call_result_ok k c db (P : option (DbStatus * bool) -> Db D -> Prop) : c ∉ _pool db ->
  (forall r db', same_state db db' -> P r db') -> returns (call_result k c) db P.
Proof.
  intros Hc HP. unfold returns, call_result. destruct (conn_result k c (drv db)) as [r d].
  apply HP, called_same_state. by left.
Qed.

Lemma call_bool_ok k c db (P : bool -> Db D -> Prop) : (c ∉ _pool db) \/ dirties k = false ->
  (forall r db', same_state db db' -> P r db') -> returns (call_bool k c) db P.
Proof.
  intros Hk HP. unfold returns, call_bool. destruct (conn_bool k c (drv db)) as [r d].
  by apply HP, called_same_state.
Qed.

Lemma call_void_ok k c db (P : unit -> Db D -> Prop) : dirties k = false ->
  (forall db', same_state db db' -> P tt db') -> returns (call_void k c) db P.
Proof. intros Hk HP. unfold returns, call_void. apply HP, called_same_state. by right. Qed.

Lemma owned_not_idle l db c : db_inv l db -> c ∈ owners l db -> c ∉ _pool db.
Proof. intros Hi Ho Hp. apply (di_idle _ _ Hi) in Hp. apply (di_owned _ _ Hi) in Ho as [? ?]. congruence. Qed.

(** A connection [c] is handed out: from the pool, or new. *)
Lemma hand_out_inv l db c p n nxt db' :
  db_inv l db -> refs db !! c = None -> c ∉ p -> c < nxt -> next db <= nxt ->
  NoDup p -> (forall a, a ∈ p -> a ∈ _pool db) ->
  n = Z.of_nat (S (List.length p + size (refs db))) -> n <= _poolMax db ->
  same_state (set_next nxt (set_pool p n db)) db' ->
  db_inv (c :: l) (set_refs (<[c := 1]> (refs db')) db').
Proof.
  intros [H1 H2 H3 H4 H5 H6 H7 H8 H9 H10] Hc Hp Hlt Hnx Hnd Hsub Hn Hmax (E1 & E2 & E3 & E4 & E5 & E6 & E7 & E8 & E9).
  assert (owners (c :: l) (set_refs (<[c := 1]> (refs db')) db') = c :: owners l db) as Eo
    by (unfold owners; cbn; by rewrite E7).
  assert (c ∉ owners l db) as Hco by (intros Hco; apply H2 in Hco as [? ?]; congruence).
  cbn in *. split; cbn; rewrite ?Eo, ?E1, ?E2, ?E3, ?E5, ?E6, ?E7, ?E8; try done.
  - intros a m. rewrite lookup_insert, occurrences_cons. case_decide as E.
    + intros [= <-]. subst a. rewrite decide_True by done. split; [|lia].
      destruct (Z.le_gt_cases (occurrences c (owners l db)) 0) as [Hle|Hg]; [unfold occurrences in *; lia|].
      by apply occurrences_pos in Hg.
    + intros Ha. rewrite decide_False by congruence. by apply H1.
  - intros a [->|Ha]%elem_of_cons; rewrite lookup_insert; [by rewrite decide_True|]. case_decide; [done|by apply H2].
  - intros a Ha. rewrite lookup_insert_ne by (intros ->; done). by apply H3, Hsub.
  - rewrite map_size_insert, Hc. cbn. lia.
  - intros a [Ha|Ha]; [specialize (H7 a (or_introl (Hsub a Ha))); lia|].
    rewrite lookup_insert in Ha. case_decide; [by subst|]. specialize (H7 a (or_intror Ha)). lia.
  - intros h Hh. specialize (H8 h Hh). lia.
  - intros a Ha. apply E9; [done|]. by apply H10, Hsub.
Qed.

Lemma discard_inv l db c rest n db' :
  db_inv l db -> _pool db = c :: rest -> n = _currentSize db -> same_state (set_pool rest n db) db' ->
  db_inv l (set_pool rest (n - 1) db').
Proof.
  intros [H1 H2 H3 H4 H5 H6 H7 H8 H9 H10] Hp Hn (E1 & E2 & E3 & E4 & E5 & E6 & E7 & E8 & E9).
  assert (owners l (set_pool rest (n - 1) db') = owners l db) as Eo by (unfold owners; cbn; by rewrite E7).
  rewrite Hp in *. apply NoDup_cons in H4 as [Hc H4]. cbn in H5.
  cbn in *. split; cbn; rewrite ?Eo, ?E3, ?E5, ?E6, ?E7, ?E8; try done.
  - intros a Ha. apply H3. by right.
  - lia.
  - lia.
  - intros a [Ha|Ha]; apply H7; [left; by right|by right].
  - intros a Ha. apply (E9 a Ha), H10. by right.
Qed.

(** What [Acquire] leaves alone. *)
Definition keeps (db db' : Db D) : Prop :=
  wrappers db' = wrappers db /\ _defaultTimeoutMs db' = _defaultTimeoutMs db.

Definition acquired (l : list Z) db (r : option Z) (db' : Db D) : Prop :=
  keeps db db' /\
  match r with
  | Some c => refs db !! c = None /\ db_inv (c :: l) (set_refs (<[c := 1]> (refs db')) db')
  | None => db_inv l db'
  end.

Lemma returns_now {A} (a : A) db (P : A -> Db D -> Prop) : P a db -> returns (mret a) db P.
Proof. done. Qed.

Lemma returns_gets {A B} (f : Db D -> A) (k : A -> Op B) db P :
  returns (k (f db)) db P -> returns (gets f ≫= k) db P.
Proof. done. Qed.

Lemma returns_modify {B} (f : Db D -> Db D) (k : unit -> Op B) db P :
  returns (k tt) (f db) P -> returns (modify f ≫= k) db P.
Proof. done. Qed.

(** A connection is opened; on failure the place is given back. *)
Lemma acquire_create_ok l db :
  db_inv l db -> _pool db = [] -> _currentSize db < _poolMax db ->
  returns (r ← create_connection;
           match r with
           | Some c =>
               ok ← call_bool CallConnect c;
               if ok : bool then mret (Some c) else modify (set_pool [] (_currentSize db));; mret None
           | None => modify (set_pool [] (_currentSize db));; mret None
           end) (set_pool [] (_currentSize db + 1) db) (acquired l db).
Proof.
  intros Hi Ep El. apply returns_bind. unfold returns at 1, create_connection. cbn [drv set_pool].
  pose proof Hi as [H1 H2 H3 H4 H5 H6 H7 H8 H9 H10]. rewrite Ep in *.
  destruct (CreateConnection _) as [[|] d].
  - cbn. apply returns_bind. apply call_bool_ok; [left; apply not_elem_of_nil|]. intros [|] db' Hs.
    + apply returns_now. split; [by destruct Hs as (_ & _ & _ & ? & _ & _ & ? & _)|].
      assert (refs db !! next db = None) as Hnone.
      { apply eq_None_not_Some. intros Hs'. pose proof (H7 (next db) (or_intror Hs')). lia. }
      split; [done|]. eapply (hand_out_inv l db (next db) [] (_currentSize db + 1) (next db + 1)); try done; try lia.
      * apply not_elem_of_nil.
      * by intros a ?%elem_of_nil.
    + apply returns_modify, returns_now. destruct Hs as (E1 & E2 & E3 & E4 & E5 & E6 & E7 & E8 & E9). split; [by split|].
      assert (owners l (set_pool [] (_currentSize db) db') = owners l db) as Eo by (unfold owners; cbn; by rewrite E7).
      cbn in *. split; cbn; rewrite ?Eo, ?E3, ?E5, ?E6, ?E7, ?E8; try done.
      * intros a Ha. specialize (H7 a Ha). lia.
      * intros h Hh. specialize (H8 h Hh). lia.
      * by intros a ?%elem_of_nil.
  - apply returns_modify, returns_now. split; [by split|]. by split.
Qed.

(** The connection at the head of the pool is taken out, and valid. *)
Lemma acquire_pooled_inv l db c rest db' :
  db_inv l db -> _pool db = c :: rest -> same_state (set_pool rest (_currentSize db) db) db' ->
  acquired l db (Some c) db'.
Proof.
  intros Hi Ep Hs. split; [by destruct Hs as (_ & _ & _ & ? & _ & _ & ? & _)|].
  pose proof Hi as [H1 H2 H3 H4 H5 H6 H7 H8 H9 H10]. rewrite Ep in *. apply NoDup_cons in H4 as [Hcr Hnd].
  assert (refs db !! c = None) as Hc by (apply H3; left). split; [done|]. cbn in H5.
  assert (c < next db) by (apply H7; left; left).
  eapply (hand_out_inv l db c rest (_currentSize db) (next db)); try done; try lia.
  intros a Ha. rewrite Ep. by right.
Qed.

Lemma same_state_trans db db1 db2 : same_state db db1 -> same_state db1 db2 -> same_state db db2.
Proof.
  intros (E1&?&?&?&?&?&?&?&Ht1) (E2&?&?&?&?&?&?&?&Ht2). split_and!; try congruence.
  intros c Hc Ht. apply Ht2; [by rewrite E1|]. by apply Ht1.
Qed.

Lemma acquire_loop_ok fuel t l db :
  t <> -1 -> db_inv l db -> (List.length (_pool db) < fuel)%nat ->
  returns (acquire_loop fuel t) db (acquired l db).
Proof.
  intros Ht. revert db; induction fuel as [|fuel IH]; intros db Hi Hf; [lia|]. cbn [acquire_loop].
  apply returns_gets, returns_gets. destruct (_pool db) as [|c rest] eqn:Ep.
  - apply returns_gets. destruct (_currentSize db <? _poolMax db) eqn:El; bool_to_prop.
    + apply returns_modify. by apply acquire_create_ok.
    + destruct (t =? 0); [by apply returns_now|]. destruct (t =? -1) eqn:Et; bool_to_prop; [done|].
      by apply returns_now.
  - apply returns_modify, returns_gets. apply returns_bind.
    assert (forall ok (db' : Db D), same_state (set_pool rest (_currentSize db) db) db' ->
      returns (if ok : bool then mret (Some c) else
        call_void CallDisconnect c;; modify (set_pool rest (_currentSize db - 1));; acquire_loop fuel t) db'
        (acquired l db)) as Hrest.
    { intros [|] db' Hs; [apply returns_now; by eapply acquire_pooled_inv|].
      apply returns_bind, call_void_ok; [done|]. intros db2 Hs2. apply returns_modify.
      pose proof (same_state_trans _ _ _ Hs Hs2) as Hs3. eapply returns_mono; [apply IH|].
      - by apply (discard_inv l db c rest).
      - cbn. cbn in Hf. lia.
      - intros r db3 [[K1 K2] Hr]. destruct Hs3 as (_ & _ & _ & E4 & _ & E6 & E7 & _). cbn in *.
        split; [split; congruence|]. by rewrite E6 in Hr. }
    destruct (IsConnected c _); [apply call_bool_ok; [by right|]; intros ok db' Hs; by apply Hrest|].
    apply returns_now. by apply (Hrest false).
Qed.

Lemma Acquire_ok t l db :
  t <> -1 -> db_inv l db ->
  returns (Acquire t) db (fun r db' => keeps db db' /\
    match r with Some c => (c ∉ owners l db) /\ db_inv (c :: l) db' | None => db_inv l db' end).
Proof.
  intros Ht Hi. unfold Acquire. apply returns_gets, returns_bind.
  eapply returns_mono; [apply (acquire_loop_ok _ t l); [done|done|lia]|]. intros [c|] db' [Hk Hr].
  - destruct Hr as [Hn Hr]. apply returns_modify, returns_now. split_and!; [done| |done].
    intros Hc. apply (di_owned _ _ Hi) in Hc as [? ?]. congruence.
  - by apply returns_now.
Qed.

(** Changing the use count of an owned connection. *)
Lemma set_ref_inv l l' db c n n' :
  db_inv l db -> refs db !! c = Some n -> n' = occurrences c (owners l' db) -> 0 < n' ->
  (forall a, a <> c -> occurrences a (owners l' db) = occurrences a (owners l db)) ->
  db_inv l' (set_refs (<[c := n']> (refs db)) db).
Proof.
  intros [H1 H2 H3 H4 H5 H6 H7 H8 H9 H10] Hc Hn Hpos Hoth.
  split; cbn; try done.
  - intros a m. rewrite lookup_insert. case_decide as E; [intros [= <-]; by subst c|].
    intros Ha. change (owners l' (set_refs _ db)) with (owners l' db). rewrite Hoth by done. by apply H1.
  - intros a. change (owners l' (set_refs _ db)) with (owners l' db). rewrite lookup_insert. case_decide; [done|].
    rewrite occurrences_pos, Hoth, <- occurrences_pos by done. apply H2.
  - intros a Ha. rewrite lookup_insert_ne; [by apply H3|]. intros ->. apply H3 in Ha. congruence.
  - by rewrite H5, map_size_insert, Hc.
  - intros a Ha. apply H7. rewrite lookup_insert in Ha. case_decide; [right; subst; by eexists|done].
Qed.

Lemma share_ok c l db :
  db_inv l db -> c ∈ owners l db ->
  returns (share c) db (fun _ db' => keeps db db' /\ db_inv (c :: l) db' /\
    calls db' = calls db /\ drv db' = drv db /\ next db' = next db).
Proof.
  intros Hi Hc. destruct (di_owned _ _ Hi c Hc) as [n Hn]. unfold returns, share. rewrite Hn.
  destruct (di_refs _ _ Hi c n Hn) as [Ho Hpos]. split; [by split|]. split; [|done].
  apply (set_ref_inv l _ db c n); [done|done| |lia|]; unfold owners in *; cbn [app].
  - rewrite occurrences_cons, decide_True by done. lia.
  - intros a Ha. rewrite occurrences_cons, decide_False by done. lia.
Qed.

(** The last [shared_ptr] goes: the connection is reset and back in the pool. *)
Lemma release_inv l db c db' :
  db_inv (c :: l) db -> c ∉ owners l db -> refs db !! c = Some 1 ->
  same_state (set_refs (delete c (refs db)) db) db' -> tidy c db' ->
  db_inv l (set_pool (_pool db' ++ [c]) (_currentSize db') db').
Proof.
  intros [H1 H2 H3 H4 H5 H6 H7 H8 H9 H10] Hc Hn (E1 & E2 & E3 & E4 & E5 & E6 & E7 & E8 & E9) Htidy.
  assert (owners l (set_pool (_pool db' ++ [c]) (_currentSize db') db') = owners l db) as Eo
    by (unfold owners; cbn; by rewrite E7).
  assert (c ∉ _pool db) as Hcp by (intros Hcp; apply H3 in Hcp; congruence).
  assert (forall a m, a <> c -> refs db !! a = Some m -> m = occurrences a (owners l db) /\ 0 < m) as Hoth.
  { intros a m Ha Hm. destruct (H1 a m Hm) as [H0 ?]. unfold owners in H0. cbn [app] in H0.
    rewrite occurrences_cons, decide_False in H0 by done. unfold owners. split; lia. }
  cbn in *. split; cbn; rewrite ?Eo, ?E1, ?E2, ?E3, ?E5, ?E6, ?E7, ?E8; try done.
  - intros a m. rewrite lookup_delete_Some. intros [Hne Hm]. by apply Hoth.
  - intros a Ha. rewrite lookup_delete_ne by (intros ->; done). apply H2. by right.
  - intros a [Ha|Ha]%elem_of_app; rewrite lookup_delete_None; [right; by apply H3|left].
    by apply list_elem_of_singleton in Ha.
  - rewrite Permutation_app_comm. apply NoDup_cons. by split.
  - rewrite length_app, map_size_delete, Hn. cbn.
    assert (size (refs db) <> 0%nat) as Hs by (intros Hs; apply map_size_empty_inv in Hs; by rewrite Hs, lookup_empty in Hn).
    lia.
  - intros a [[Ha|Ha]%elem_of_app|Ha].
    + apply H7. by left.
    + apply list_elem_of_singleton in Ha as ->. apply H7. right. by eexists.
    + apply H7. right. rewrite lookup_delete in Ha. case_decide; [by destruct Ha|done].
  - intros a [Ha|Ha]%elem_of_app; [by apply (E9 a Ha), H10|]. by apply list_elem_of_singleton in Ha as ->.
Qed.

Lemma drop_ref_ok c l db :
  db_inv (c :: l) db ->
  returns (drop_ref c) db (fun _ db' => keeps db db' /\ db_inv l db' /\
    ((c ∉ owners l db) -> (c ∈ _pool db') /\ calls db' = calls db ++ [(c, CallResetState)]) /\
    (c ∈ owners l db -> calls db' = calls db /\ drv db' = drv db)).
Proof.
  intros Hi. destruct (di_owned _ _ Hi c ltac:(left)) as [n Hn].
  destruct (di_refs _ _ Hi c n Hn) as [Ho Hpos]. unfold owners in Ho. cbn [app] in Ho.
  rewrite occurrences_cons, decide_True in Ho by done. fold (owners l db) in Ho.
  unfold returns, drop_ref. rewrite Hn. destruct (n =? 1) eqn:E; bool_to_prop.
  - cbn [alive set_refs]. rewrite (di_alive _ _ Hi). unfold Release, mbind, Op_bind, call_void, modify.
    assert (c ∉ owners l db) as Hc by (intros Hc; apply occurrences_pos in Hc; lia).
    split; [by split|]. split; [|split; [intros _; split; [cbn; apply elem_of_app; right; left|done]|done]].
    rewrite E in Hn. apply (release_inv l db c); [done..| |apply tidy_reset].
    apply (called_same_state CallResetState c _ (set_refs _ db)). by right.
  - split; [by split|]. split; [|split; [intros Hc; exfalso; apply Hc, occurrences_pos; lia|done]].
    apply (set_ref_inv (c :: l) l db c n); [done|done|lia|lia|].
    intros a Ha. unfold owners. cbn [app]. rewrite (occurrences_cons a c), decide_False by done. lia.
Qed.

Lemma owners_new_wrapper l db h w n :
  wrappers db !! h = None ->
  owners l (set_wrappers (<[h := w]> (wrappers db)) (set_next n db)) ≡ₚ wrapper_conn w :: owners l db.
Proof.
  intros Hh. unfold owners. cbn [wrappers set_wrappers set_next]. rewrite map_to_list_insert by done.
  cbn. by rewrite Permutation_middle.
Qed.

Lemma owners_close_wrapper l db h w :
  wrappers db !! h = Some w ->
  owners l db ≡ₚ wrapper_conn w :: owners l (set_wrappers (delete h (wrappers db)) db).
Proof.
  intros Hh. unfold owners. cbn [wrappers set_wrappers]. rewrite <- (map_to_list_delete _ _ _ Hh).
  cbn. by rewrite Permutation_middle.
Qed.

(** An invariant that only depends on the owners as a multiset. *)
Lemma same_owners_inv l l' db db' :
  db_inv l db -> owners l' db' ≡ₚ owners l db -> _pool db' = _pool db -> _currentSize db' = _currentSize db ->
  _poolMax db' = _poolMax db -> refs db' = refs db -> next db <= next db' -> alive db' = alive db -> calls db' = calls db ->
  (forall h, is_Some (wrappers db' !! h) -> h < next db') -> db_inv l' db'.
Proof.
  intros [H1 H2 H3 H4 H5 H6 H7 H8 H9 H10] Ho E1 E2 E3 E6 E8 E9 Ec Hh.
  split; rewrite ?E1, ?E2, ?E3, ?E6, ?E9; try done.
  - intros c n Hc. rewrite (occurrences_perm _ _ _ Ho). by apply H1.
  - intros c. rewrite Ho. apply H2.
  - intros c Hc. specialize (H7 c Hc). lia.
  - intros c Hc. unfold tidy. rewrite Ec. by apply H10.
Qed.

Lemma make_wrapper_ok w l db :
  db_inv l db -> wrapper_conn w ∈ owners l db ->
  returns (make_wrapper w) db (fun h db' => db_inv l db' /\ _defaultTimeoutMs db' = _defaultTimeoutMs db /\
    wrappers db !! h = None /\ wrappers db' = <[h := w]> (wrappers db) /\ calls db' = calls db /\
    h = next db /\ drv db' = drv db).
Proof.
  intros Hi Hw. unfold make_wrapper. apply returns_bind.
  eapply returns_mono; [by apply share_ok|]. intros _ db1 ([K1 K2] & Hi1 & K3 & K4 & K5). unfold returns. cbn.
  assert (wrappers db1 !! next db1 = None) as Hn.
  { apply eq_None_not_Some. intros Hs. apply (di_handles _ _ Hi1) in Hs. lia. }
  split_and!; [|exact K2|by rewrite <- K1|by rewrite <- K1|exact K3|exact K5|exact K4].
  eapply (same_owners_inv _ _ db1); try done; [| |]; cbn.
  - rewrite owners_new_wrapper by done. done.
  - lia.
  - intros h. rewrite lookup_insert. case_decide; [subst; lia|]. intros Hs. apply (di_handles _ _ Hi1) in Hs. lia.
Qed.

(** ** Properties *)

(** The state an operation starts from and leaves: consistent, with time-outs that
    end. *)
Definition ready (l : list Z) db : Prop := db_inv l db /\ _defaultTimeoutMs db <> -1.

Lemma ready_same l db db' : same_state db db' -> ready l db -> ready l db'.
Proof.
  intros Hs [Hi Ht]. split; [by eapply same_state_inv|]. by destruct Hs as (_ & _ & _ & -> & _).
Qed.

(** [res.status.IsOk() && res.value.has_value()] *)
Definition ok_value (r : DbResult) : option Z := if IsOk (status r) then value r else None.

Definition query_answer (h : Z) (r : option (DbStatus * bool)) : option DbResult :=
  '(s, b) ← r; Some (if IsOk s && b then Success h else Fail_ s).

Lemma query_on_ok c sql l db :
  ready l db -> c ∈ owners l db ->
  returns (query_on c sql) db (fun r db' => ready l db' /\ calls db' = calls db ++ [(c, CallQuery sql)] /\
    r = query_answer (next db) (conn_result (CallQuery sql) c (drv db)).1 /\
    drv db' = (conn_result (CallQuery sql) c (drv db)).2 /\
    match r ≫= ok_value with
    | Some h => wrappers db !! h = None /\ wrappers db' = <[h := ResultSetWrapper c]> (wrappers db)
    | None => wrappers db' = wrappers db
    end).
Proof.
  intros Hr Hc. unfold query_on. apply returns_bind. unfold returns at 1, call_result.
  destruct (conn_result (CallQuery sql) c (drv db)) as [r d]. set (db1 := set_drv d _).
  assert (same_state db db1) as Hs by (apply called_same_state; left; by eapply owned_not_idle; [apply Hr|]).
  pose proof (ready_same _ _ _ Hs Hr) as [Hi Ht]. destruct r as [[s b]|]; [|by apply returns_now].
  destruct (IsOk s && b) eqn:Ev.
  - apply returns_bind. eapply returns_mono; [by apply (make_wrapper_ok (ResultSetWrapper c) l db1 Hi)|].
    intros h db2 (Hi2 & E & Hn & Hw & Ec & -> & Ed). apply returns_now. split; [by split; [|rewrite E]|].
    split; [by rewrite Ec|]. cbn. by rewrite Ev, Hw.
  - apply returns_now. split; [done|]. split; [done|]. cbn. rewrite Ev. unfold ok_value. cbn. by destruct (IsOk s).
Qed.

Lemma begin_on_ok c l db :
  ready l db -> c ∈ owners l db ->
  returns (begin_on c) db (fun r db' => ready l db' /\ calls db' = calls db ++ [(c, CallBegin)] /\
    drv db' = (conn_status CallBegin c (drv db)).2 /\
    match (conn_status CallBegin c (drv db)).1 with
    | None => r = None /\ wrappers db' = wrappers db
    | Some s =>
        if IsOk s then exists h, r = Some (Success h) /\ wrappers db !! h = None /\
                         wrappers db' = <[h := TransactionWrapper c false]> (wrappers db)
        else r = Some (Fail_ s) /\ wrappers db' = wrappers db
    end).
Proof.
  intros Hr Hc. unfold begin_on. apply returns_bind. unfold returns at 1, call_status.
  destruct (conn_status CallBegin c (drv db)) as [r d]. set (db1 := set_drv d _).
  assert (same_state db db1) as Hs by (apply called_same_state; left; by eapply owned_not_idle; [apply Hr|]).
  pose proof (ready_same _ _ _ Hs Hr) as [Hi Ht]. destruct r as [s|]; [|by apply returns_now].
  destruct (IsOk s) eqn:Ev; cbn [negb].
  - apply returns_bind. eapply returns_mono; [by apply (make_wrapper_ok (TransactionWrapper c false) l db1 Hi)|].
    intros h db2 (Hi2 & E & Hn & Hw & Ec & _ & Ed). apply returns_now. split; [by split; [|rewrite E]|].
    split; [by rewrite Ec|]. cbn. rewrite Ev. split; [done|]. by exists h.
  - apply returns_now. split; [done|]. split; [done|]. cbn. by rewrite Ev.
Qed.

(** What IDatabase.h says of a [DbResult]: an OK status comes with a value. *)
Context (result_has_value : forall k c d s b d',
  conn_result k c d = (Some (s, b), d') -> IsOk s = true -> b = true).

Lemma prepare_on_ok c sql l db :
  ready l db -> c ∈ owners l db -> returns (prepare_on c sql) db (fun _ => ready l).
Proof.
  intros Hr Hc. unfold prepare_on. apply returns_bind. unfold returns at 1, call_result.
  destruct (conn_result (CallPrepare sql) c (drv db)) as [[[s b]|] d] eqn:Ec;
    [|apply returns_now; apply (ready_same l db); [|done];
      apply called_same_state; left; by eapply owned_not_idle; [apply Hr|]].
  pose proof (result_has_value _ _ _ _ _ _ Ec) as Hv. set (db' := set_drv d _).
  assert (same_state db db') as Hs by (apply called_same_state; left; by eapply owned_not_idle; [apply Hr|]).
  pose proof (ready_same _ _ _ Hs Hr) as [Hi Ht].
  destruct (IsOk s); cbn [negb]; [rewrite (Hv eq_refl)|by apply returns_now].
  apply returns_bind. eapply returns_mono; [by apply (make_wrapper_ok (PreparedStatementWrapper c) l db' Hi)|].
  intros h db2 (Hi2 & E & _ & _). apply returns_now. by split; [|rewrite E].
Qed.

Lemma with_connection_ok {A} (failed : DbStatus -> A) body l db :
  ready l db ->
  (forall c db, ready (c :: l) db -> returns (body c) db (fun _ => ready (c :: l))) ->
  returns (with_connection failed body) db (fun _ => ready l).
Proof.
  intros [Hi Ht] Hb. unfold with_connection. apply returns_gets, returns_bind.
  eapply returns_mono; [by apply Acquire_ok|]. intros [c|] db1 [[K1 K2] Hr].
  - destruct Hr as [_ Hr]. apply returns_bind. eapply returns_mono; [apply Hb; split; [exact Hr|by rewrite K2]|].
    intros r db2 [Hi2 Ht2]. apply returns_bind. eapply returns_mono; [by apply drop_ref_ok|].
    intros _ db3 ([_ K3] & Hi3 & _). apply returns_now. split; [done|by rewrite K3].
  - apply returns_now. split; [done|by rewrite K2].
Qed.

Lemma Commit_ok h c b l db :
  ready l db -> wrappers db !! h = Some (TransactionWrapper c b) -> returns (Commit h) db (fun _ => ready l).
Proof.
  intros Hr Hh. unfold Commit. apply returns_gets. rewrite Hh. destruct b; [by apply returns_now|].
  assert (c ∈ owners l db) as Hown by (rewrite (owners_close_wrapper l db h _ Hh); left).
  apply returns_bind, call_status_ok; [by eapply owned_not_idle; [apply Hr|]|]. intros [s|] db' Hs; pose proof (ready_same _ _ _ Hs Hr) as [Hi Ht];
    [|by apply returns_now].
  destruct (IsOk s); [|by apply returns_bind, returns_now]. apply returns_bind. unfold returns at 1, modify.
  assert (wrappers db' !! h = Some (TransactionWrapper c false)) as Hh'
    by (by destruct Hs as (_ & _ & _ & _ & _ & _ & -> & _)).
  apply returns_now. split; [|done]. eapply (same_owners_inv l l db'); try done; cbn.
  - rewrite (owners_close_wrapper l db' h _ Hh'). rewrite (owners_close_wrapper l (set_wrappers _ db') h (TransactionWrapper c true)).
    + cbn. by rewrite delete_insert_eq.
    + cbn. by rewrite lookup_insert_eq.
  - intros h'. rewrite lookup_insert. case_decide as E; [subst; intros _|]; apply (di_handles _ _ Hi); by rewrite ?Hh'.
Qed.

(** Destroying a wrapper: a transaction that was not committed is rolled back,
    once and before the connection is reset; then, unless the connection has other
    owners, it is reset and back in the pool. *)
Lemma close_wrapper_ok h w l db :
  ready l db -> wrappers db !! h = Some w ->
  returns (close_wrapper h) db (fun _ db' => ready l db' /\ wrappers db' = delete h (wrappers db) /\
    let c := wrapper_conn w in
    let undo := match w with TransactionWrapper c false => [(c, CallRollback)] | _ => [] end in
    (c ∉ owners l (set_wrappers (delete h (wrappers db)) db) ->
      (c ∈ _pool db') /\ calls db' = calls db ++ undo ++ [(c, CallResetState)]) /\
    (c ∈ owners l (set_wrappers (delete h (wrappers db)) db) ->
      calls db' = calls db ++ undo /\ (undo = [] -> drv db' = drv db))).
Proof.
  intros Hr Hh. unfold close_wrapper. apply returns_gets. rewrite Hh. apply returns_bind.
  set (undo := match w with TransactionWrapper c false => [(c, CallRollback)] | _ => [] end).
  assert (returns (match w with
    | TransactionWrapper c false => _ ← call_status CallRollback c; mret ()
    | _ => mret ()
    end) db (fun _ db' => same_state db db' /\ calls db' = calls db ++ undo /\ (undo = [] -> drv db' = drv db))) as Hundo.
  { unfold undo. destruct w as [c|c|c []]; try (apply returns_now; split; [done|by rewrite app_nil_r]).
    apply returns_bind. unfold returns at 1, call_status. destruct (conn_status _ _ _) as [r d]. apply returns_now.
    split; [|done]. apply called_same_state. left. eapply owned_not_idle; [apply Hr|].
    rewrite (owners_close_wrapper l db h _ Hh). left. }
  eapply returns_mono; [exact Hundo|]. intros _ db1 (Hs & Hcalls & Hdrv). pose proof (ready_same _ _ _ Hs Hr) as [Hi Ht].
  apply returns_modify. assert (wrappers db1 = wrappers db) as Ew by (by destruct Hs as (_ & _ & _ & _ & _ & _ & -> & _)).
  rewrite <- Ew in Hh. set (db2 := set_wrappers (delete h (wrappers db1)) db1).
  assert (db_inv (wrapper_conn w :: l) db2) as Hi2.
  { eapply (same_owners_inv l _ db1); try done; cbn.
    - symmetry. by apply owners_close_wrapper.
    - intros h'. rewrite lookup_delete. case_decide; [by intros [? ?]|]. apply (di_handles _ _ Hi). }
  eapply returns_mono; [by apply drop_ref_ok|]. intros _ db3 ([K1 K2] & Hi3 & Hlast).
  split; [split; [done|by rewrite K2]|]. split; [by rewrite K1; cbn; rewrite Ew|].
  assert (owners l (set_wrappers (delete h (wrappers db)) db) = owners l db2) as Eo by (unfold owners; cbn; by rewrite Ew).
  rewrite Eo. split; intros Hc.
  - destruct Hlast as [[Hp Hl] _]; [done|]. split; [done|]. rewrite Hl. cbn. rewrite Hcalls. by rewrite <- app_assoc.
  - destruct Hlast as [_ Hl]. destruct (Hl Hc) as [-> ->]. by split.
Qed.

(** A client's call; one on a handle it does not have is skipped. *)
Inductive DbOp :=
| OQuery (sql : string) | OExecute (sql : string) | OPrepare (sql : string) | OBegin
| OCommit (h : Z) | OClose (h : Z).

Definition db_exec (o : DbOp) : Op unit :=
  match o with
  | OQuery sql => _ ← Query sql; mret ()
  | OExecute sql => _ ← Execute sql; mret ()
  | OPrepare sql => _ ← Prepare sql; mret ()
  | OBegin => _ ← BeginTransaction; mret ()
  | OCommit h =>
      w ← gets (fun db => wrappers db !! h);
      match w with Some (TransactionWrapper _ _) => _ ← Commit h; mret () | _ => mret () end
  | OClose h =>
      w ← gets (fun db => wrappers db !! h);
      match w with Some _ => close_wrapper h | None => mret () end
  end.

Fixpoint db_run (ops : list DbOp) : Op unit :=
  match ops with [] => mret () | o :: ops => db_exec o;; db_run ops end.

Lemma owners_head c l db : c ∈ owners (c :: l) db.
Proof. left. Qed.

Lemma Query_ok sql l db : ready l db -> returns (Query sql) db (fun _ => ready l).
Proof.
  intros Hr. apply with_connection_ok; [done|]. intros c db1 Hr1.
  eapply returns_mono; [apply query_on_ok; [done|apply owners_head]|]. by intros r db2 [? _].
Qed.

Lemma Execute_ok sql l db : ready l db -> returns (Execute sql) db (fun _ => ready l).
Proof.
  intros Hr. apply with_connection_ok; [done|]. intros c db1 Hr1.
  apply call_status_ok; [eapply owned_not_idle; [apply Hr1|apply owners_head]|]. intros r db' Hs. by eapply ready_same.
Qed.

Lemma db_exec_ok o db : ready [] db -> returns (db_exec o) db (fun _ => ready []).
Proof.
  intros Hr. destruct o as [sql|sql|sql| |h|h]; cbn [db_exec].
  - apply returns_bind. by apply Query_ok.
  - apply returns_bind. by apply Execute_ok.
  - apply returns_bind, with_connection_ok; [done|]. intros c db1 Hr1. apply prepare_on_ok; [done|apply owners_head].
  - apply returns_bind, with_connection_ok; [done|]. intros c db1 Hr1.
    eapply returns_mono; [apply (begin_on_ok c _ _ Hr1), owners_head|]. by intros r db2 [? _].
  - apply returns_gets. destruct (wrappers db !! h) as [[| |c b]|] eqn:Hh; try by apply returns_now.
    apply returns_bind. eapply Commit_ok; done.
  - apply returns_gets. destruct (wrappers db !! h) as [w|] eqn:Hh; [|by apply returns_now].
    eapply returns_mono; [by eapply close_wrapper_ok|]. by intros _ db' [? _].
Qed.

Lemma db_run_ok ops db : ready [] db -> returns (db_run ops) db (fun _ => ready []).
Proof.
  revert db. induction ops as [|o ops IH]; intros db Hr; cbn [db_run]; [by apply returns_now|].
  apply returns_bind. eapply returns_mono; [by apply db_exec_ok|]. intros [] db1. apply IH.
Qed.

(** With no wrapper open nobody owns a connection. *)
Lemma no_wrapper_all_idle db : db_inv [] db -> wrappers db = ∅ -> refs db = ∅ /\ _currentSize db = Z.of_nat (List.length (_pool db)).
Proof.
  intros [H1 H2 H3 H4 H5 _ _ _ _ _] Hw.
  assert (refs db = ∅) as Hr.
  { apply map_eq. intros c. rewrite lookup_empty. destruct (refs db !! c) as [n|] eqn:E; [|done].
    destruct (H1 c n E) as [Hn Hp]. unfold owners in Hn. rewrite Hw, map_to_list_empty in Hn. unfold occurrences in Hn. cbn in Hn. lia. }
  split; [done|]. rewrite H5, Hr, map_size_empty. lia.
Qed.

(** C16: Connections are conserved: for every sequence of queries, executions,
    prepared statements, transactions, commits and destructions of their results,
    whatever the driver answers or throws, every call returns, at most [_poolMax]
    connections exist, each is idle or owned by exactly the results that refer to
    it, an idle one has been reset since its last use, and when no result is open all of
    them are back in the pool. *)
Theorem db_connections_conserved ops db
  (Hinv : db_inv [] db) (Htimeout : _defaultTimeoutMs db <> -1) :
  exists db', db_run ops db = Ret tt db' /\ db_inv [] db' /\
    (wrappers db' = ∅ -> _currentSize db' = Z.of_nat (List.length (_pool db'))).
Proof.
  pose proof (db_run_ok ops db (conj Hinv Htimeout)) as Hrun. unfold returns in Hrun. destruct (db_run ops db) as [[] db'| |] eqn:E; [|done|done].
  exists db'. split; [done|]. destruct Hrun as [Hi _]. split; [done|].
  intros Hw. by apply no_wrapper_all_idle.
Qed.

(** Transactions are undone unless committed: after a successful
    [BeginTransaction] the transaction has its connection for itself; destroying it
    rolls back exactly once and before the connection is reset when it was not
    committed (also when [Commit] failed or threw), does not roll back after a
    successful [Commit], and in both cases returns the connection to the pool. *)
Theorem transaction_rolls_back_unless_committed db h c committed
  (Hinv : db_inv [] db) (Htimeout : _defaultTimeoutMs db <> -1)
  (Hopen : wrappers db !! h = Some (TransactionWrapper c committed))
  (Halone : forall h' w, h' <> h -> wrappers db !! h' = Some w -> wrapper_conn w <> c) :
  exists db', close_wrapper h db = Ret tt db' /\ db_inv [] db' /\ (c ∈ _pool db') /\
    calls db' = calls db ++ (if committed then [] else [(c, CallRollback)]) ++ [(c, CallResetState)].
Proof.
  pose proof (close_wrapper_ok h _ [] db (conj Hinv Htimeout) Hopen) as Hc. unfold returns in Hc.
  destruct (close_wrapper h db) as [[] db'| |]; [|done|done]. exists db'. split; [done|].
  destruct Hc as ([Hi _] & _ & Hl). split; [done|]. destruct (proj1 Hl) as [Hp Hcalls].
  - unfold owners. cbn. intros (w & -> & Hw)%list_elem_of_fmap.
    apply list_elem_of_fmap in Hw as ([h' w'] & -> & Hw). apply elem_of_map_to_list in Hw.
    apply lookup_delete_Some in Hw as [Hne Hw]. by apply (Halone h' w').
  - split; [done|]. rewrite Hcalls. by destruct committed.
Qed.

(** The client's part of an asynchronous transaction: it may do what it likes with
    the pinned connection as long as it does not drop it. *)
Definition tx_ok (txLogic : Z -> Op (option bool)) : Prop :=
  forall c l db, ready (c :: l) db -> returns (txLogic c) db (fun _ => ready (c :: l)).

Definition job_ok (j : Job) : Prop := match j with JobTransaction tx _ => tx_ok tx | _ => True end.

Definition posted_callback (p : Posted) : option Z :=
  match p with PostQuery cb _ | PostExecute cb _ | PostTransaction cb _ => cb end.

Definition job_callback (j : Job) : option Z :=
  match j with JobQuery _ cb | JobExecute _ cb | JobTransaction _ cb => cb end.

Lemma run_transaction_ok tx l db :
  tx_ok tx -> ready l db ->
  returns (run_transaction tx) db (fun r db' =>
    match r.1 with Some c => ready (c :: l) db' | None => ready l db' /\ r.2 = false end).
Proof.
  intros Htx [Hi Ht]. unfold run_transaction. apply returns_gets, returns_bind.
  eapply returns_mono; [by apply Acquire_ok|]. intros [c|] db1 [[K1 K2] Hr].
  - destruct Hr as [_ Hr]. apply returns_bind. eapply returns_mono; [apply (share_ok c _ _ Hr), owners_head|].
    intros _ db2 ([_ K3] & Hi2 & _). apply returns_bind. eapply returns_mono; [apply (Htx c (c :: l)); split; [done|congruence]|].
    intros r db3 [Hi3 Ht3]. apply returns_bind. eapply returns_mono; [by apply drop_ref_ok|].
    intros _ db4 ([_ K4] & Hi4 & _). apply returns_now. split; [done|by rewrite K4].
  - apply returns_now. split; [split; [done|by rewrite K2]|done].
Qed.

(** An asynchronous operation completes exactly once: a job on a worker returns
    whatever the driver or the transaction logic does, posts one completion for its
    callback to the dispatcher, and leaves every connection accounted for. *)
Theorem async_job_posts_once j a db
  (Hinv : db_inv [] db) (Htimeout : _defaultTimeoutMs db <> -1)
  (Hdispatcher : hasDispatcher a = true) (Hjob : job_ok j) :
  exists a' db' p, run_job j a db = Ret a' db' /\ db_inv [] db' /\
    posted a' = posted a ++ [p] /\ posted_callback p = job_callback j.
Proof.
  assert (returns (run_job j a) db (fun a' db' => db_inv [] db' /\ exists p,
    posted a' = posted a ++ [p] /\ posted_callback p = job_callback j)) as Hrun.
  { assert (ready [] db) as Hr by done. unfold run_job. rewrite Hdispatcher. cbn [negb].
    destruct j as [sql cb|sql cb|tx cb]; apply returns_bind.
    - eapply returns_mono; [by apply Query_ok|]. intros r db' [Hi _]. apply returns_now. split; [done|]. by eexists.
    - eapply returns_mono; [by apply Execute_ok|]. intros r db' [Hi _]. apply returns_now. split; [done|]. by eexists.
    - eapply returns_mono; [by apply run_transaction_ok|]. intros [[c|] b] db1 Hr1; cbn in Hr1; apply returns_bind.
      + eapply returns_mono; [by apply drop_ref_ok, Hr1|]. intros _ db2 (_ & Hi2 & _). apply returns_now.
        split; [done|]. by eexists.
      + apply returns_now. apply returns_now. split; [apply Hr1|]. by eexists. }
  unfold returns in Hrun. destruct (run_job j a db) as [a' db'| |]; [|done|done].
  destruct Hrun as (Hi & p & Hp & Hcb). by exists a', db', p.
Qed.

End Database.

(** ** Witnesses *)

(** A driver that always succeeds. *)
Lemma new_db_inv {D : Type} n t (d : D) : 0 <= n -> db_inv [] (new_db n t d).
Proof.
  intros Hn. split; cbn; try done; try lia.
  - by intros c ?%elem_of_nil.
  - constructor.
  - intros c [?%elem_of_nil|[? ?]]; done.
  - by intros h [? ?].
Qed.

#[export] Instance toy_driver : Driver unit := {
  CreateConnection d := (true, d);
  IsConnected _ _ := true;
  conn_bool _ _ d := (true, d);
  conn_void _ _ d := d;
  conn_status _ _ d := (Some Ok, d);
  conn_result _ _ d := (Some (Ok, true), d)
}.

Definition db0 : Db unit := new_db 2 5000 ().

(** A database with one open transaction (handle 2) on connection 1. *)
Definition db1 : Db unit :=
  mkDb [] 1 2 5000 true {[1 := 1]} {[2 := TransactionWrapper 1 false]} 3 [(1, CallConnect); (1, CallBegin)] ().

Lemma db1_reached : exists r, BeginTransaction db0 = Ret r db1.
Proof. eexists. vm_compute. reflexivity. Qed.

Lemma db1_inv : db_inv [] db1.
Proof.
  assert (owners [] db1 = [1]) as Ho by reflexivity.
  split; rewrite ?Ho; cbn; try done; try lia.
  - by intros c n [<- <-]%lookup_singleton_Some.
  - intros c ->%list_elem_of_singleton. by rewrite lookup_singleton_eq.
  - by intros c ?%elem_of_nil.
  - constructor.
  - intros c [?%elem_of_nil|[n [<- _]%lookup_singleton_Some]]; [done|lia].
  - intros h [w [<- _]%lookup_singleton_Some]. lia.
  - by intros c ?%elem_of_nil.
Qed.

Lemma toy_has_value k c (d : unit) s b d' :
  conn_result k c d = (Some (s, b), d') -> IsOk s = true -> b = true.
Proof. cbn. by intros [= _ <- _]. Qed.

Lemma db_connections_conserved_witness :
  exists db', db_run [OQuery "select 1"; OBegin; OCommit 4; OClose 2; OClose 4] db0 = Ret tt db' /\ db_inv [] db' /\
    (wrappers db' = ∅ -> _currentSize db' = Z.of_nat (List.length (_pool db'))).
Proof.
  apply (db_connections_conserved toy_has_value
    [OQuery "select 1"; OBegin; OCommit 4; OClose 2; OClose 4] db0); [by apply new_db_inv|done].
Defined.

Lemma transaction_rolls_back_unless_committed_witness :
  exists db', close_wrapper 2 db1 = Ret tt db' /\ db_inv [] db' /\ (1 ∈ _pool db') /\
    calls db' = [(1, CallConnect); (1, CallBegin); (1, CallRollback); (1, CallResetState)].
Proof.
  destruct (transaction_rolls_back_unless_committed db1 2 1 false) as (db' & H1 & H2 & H3 & H4).
  - exact db1_inv.
  - done.
  - reflexivity.
  - intros h' w Hne Hw. cbn [wrappers db1] in Hw. apply lookup_singleton_Some in Hw as [? _]. congruence.
  - exists db'. split_and!; [exact H1|exact H2|exact H3|exact H4].
Defined.

Lemma async_job_posts_once_witness :
  exists a' db' p, run_job (JobExecute "update" (Some 7)) (mkAsync true true [] []) db0 = Ret a' db' /\ db_inv [] db' /\
    posted a' = [] ++ [p] /\ posted_callback p = Some 7.
Proof. apply (async_job_posts_once (JobExecute "update" (Some 7)) (mkAsync true true [] []) db0); [by apply new_db_inv|done|done|exact I]. Defined.
