(* ===== verification/DbDriver.v ===== *)
(** * DbDriver: what the pool relies on in a driver's ResetState

    IConnection.h asks [ResetState] to undo what a client left in a connection before it
    goes back to the pool.  [ResettingDriver] states this as an interface: a predicate
    [sane] that the calls keep, and a predicate [idle_ok] on connections that
    [ResetState] establishes and calls on other connections do not disturb.  Against it
    the pool is shown to hand out only connections without remains of their last user;
    the drivers discharge it. *)

From Stdlib Require Import String.
From stdpp Require Import base numbers gmap list strings.
From S2P Require Import Prelude Database.

#[local] Open Scope Z_scope.

Class ResettingDriver (D : Type) `{!Driver D} := {
  (** The SQL that may be given to the driver. *)
  plain : string -> bool;
  sane : D -> Prop;
  idle_ok : Z -> D -> Prop;
  sane_create : forall d, sane d -> sane (CreateConnection d).2;
  sane_bool : forall k c d, sane d -> sane (conn_bool k c d).2;
  sane_void : forall k c d, sane d -> sane (conn_void k c d);
  sane_execute : forall sql c d, plain sql = true -> sane d -> sane (conn_status (CallExecute sql) c d).2;
  sane_begin : forall c d, sane d -> sane (conn_status CallBegin c d).2;
  sane_commit : forall c d, sane d -> sane (conn_status CallCommit c d).2;
  sane_rollback : forall c d, sane d -> sane (conn_status CallRollback c d).2;
  sane_query : forall sql c d, plain sql = true -> sane d -> sane (conn_result (CallQuery sql) c d).2;
  sane_prepare : forall sql c d, plain sql = true -> sane d -> sane (conn_result (CallPrepare sql) c d).2;
  idle_reset : forall c d, sane d -> idle_ok c (conn_void CallResetState c d);
  idle_create : forall c d, sane d -> idle_ok c d -> idle_ok c (CreateConnection d).2;
  idle_bool : forall k c c' d, c <> c' \/ k = CallPing -> sane d -> idle_ok c d -> idle_ok c (conn_bool k c' d).2;
  idle_disconnect : forall c c' d, sane d -> idle_ok c d -> idle_ok c (conn_void CallDisconnect c' d);
  idle_void : forall k c c' d, c <> c' -> sane d -> idle_ok c d -> idle_ok c (conn_void k c' d);
  idle_status : forall k c c' d, c <> c' -> sane d -> idle_ok c d -> idle_ok c (conn_status k c' d).2;
  idle_result : forall k c c' d, c <> c' -> sane d -> idle_ok c d -> idle_ok c (conn_result k c' d).2
}.

Section Idle.
Context {D : Type} `{!Driver D} `{!ResettingDriver D}.
Implicit Types db : Db D.

(** The driver's state goes with the calls made so far. *)
Definition linked db : Prop := sane (drv db) /\ forall c, tidy c db -> idle_ok c (drv db).

(** [m] keeps the link, whatever it returns. *)
Definition keeps_link {A} (m : Op A) : Prop :=
  forall db, linked db -> match m db with Ret _ db' => linked db' | _ => True end.

Lemma kl_ret {A} (a : A) : keeps_link (mret a).
Proof. by intros db. Qed.

Lemma kl_undefined {A} : keeps_link (@undefined D A).
Proof. by intros db. Qed.

Lemma kl_blocked {A} : keeps_link (@blocked D A).
Proof. by intros db. Qed.

Lemma kl_gets {A} (f : Db D -> A) : keeps_link (gets f).
Proof. by intros db. Qed.

Lemma kl_bind {A B} (m : Op A) (k : A -> Op B) : keeps_link m -> (forall a, keeps_link (k a)) -> keeps_link (m ≫= k).
Proof.
  intros Hm Hk db Hl. specialize (Hm db Hl). unfold mbind, Op_bind. destruct (m db) as [a db'| |]; [|done|done].
  by apply Hk.
Qed.

(** A change of the pool's own state. *)
Lemma kl_modify (f : Db D -> Db D) : (forall db, drv (f db) = drv db /\ calls (f db) = calls db) -> keeps_link (modify f).
Proof.
  intros Hf db [H1 H2]. unfold modify, linked, tidy. destruct (Hf db) as [-> ->]. done.
Qed.

Lemma tidy_other c c' k db d : c <> c' -> tidy c (set_drv d (record c' k db)) -> tidy c db.
Proof.
  intros Hne. unfold tidy. cbn [calls set_drv record]. rewrite dirty_app. unfold after_call. cbn [fst snd]. by destruct (c' =? c) eqn:E; [bool_to_prop|].
Qed.

Lemma tidy_dirtied c k db d : dirties k = true -> ~ tidy c (set_drv d (record c k db)).
Proof.
  intros Hk. unfold tidy. cbn [calls set_drv record]. rewrite dirty_app. unfold after_call. cbn [fst snd]. rewrite Z.eqb_refl.
  by destruct k, (dirty c (calls db)).
Qed.

Lemma tidy_neutral c k db d : dirties k = false -> k <> CallResetState -> tidy c (set_drv d (record c k db)) -> tidy c db.
Proof.
  intros Hk Hr. unfold tidy. cbn [calls set_drv record]. rewrite dirty_app. unfold after_call. cbn [fst snd]. rewrite Z.eqb_refl.
  by destruct k, (dirty c (calls db)).
Qed.

(** A call that may leave something behind. *)
Lemma linked_dirty c k db d : dirties k = true -> linked db -> sane d ->
  (forall c', c' <> c -> idle_ok c' (drv db) -> idle_ok c' d) -> linked (set_drv d (record c k db)).
Proof.
  intros Hk [H1 H2] Hd Ho. split; [done|]. intros c' Ht. destruct (decide (c' = c)) as [->|Hne].
  - by apply tidy_dirtied in Ht.
  - apply Ho; [done|]. apply H2. by eapply tidy_other.
Qed.

Lemma kl_status k c : dirties k = true -> (forall d, sane d -> sane (conn_status k c d).2) -> keeps_link (call_status k c).
Proof.
  intros Hk Hs db Hl. unfold call_status. specialize (Hs (drv db) (proj1 Hl)).
  pose proof (fun c' (Hne : c' <> c) => idle_status k c' c (drv db) Hne (proj1 Hl)) as Ho.
  destruct (conn_status k c (drv db)) as [r d]. by apply linked_dirty.
Qed.

Lemma kl_result k c : dirties k = true -> (forall d, sane d -> sane (conn_result k c d).2) -> keeps_link (call_result k c).
Proof.
  intros Hk Hs db Hl. unfold call_result. specialize (Hs (drv db) (proj1 Hl)).
  pose proof (fun c' (Hne : c' <> c) => idle_result k c' c (drv db) Hne (proj1 Hl)) as Ho.
  destruct (conn_result k c (drv db)) as [r d]. by apply linked_dirty.
Qed.

Lemma kl_ping c : keeps_link (call_bool CallPing c).
Proof.
  intros db [H1 H2]. unfold call_bool. pose proof (sane_bool CallPing c (drv db) H1) as Hs.
  pose proof (fun c' => idle_bool CallPing c' c (drv db) (or_intror eq_refl) H1) as Ho.
  destruct (conn_bool CallPing c (drv db)) as [r d]. split; [done|]. intros c' Ht. apply Ho, H2.
  destruct (decide (c' = c)) as [->|Hne]; [eapply tidy_neutral; [| |exact Ht]; done|by eapply tidy_other].
Qed.

Lemma kl_connect c : keeps_link (call_bool CallConnect c).
Proof.
  intros db Hl. unfold call_bool. pose proof (sane_bool CallConnect c (drv db) (proj1 Hl)) as Hs.
  pose proof (fun c' (Hne : c' <> c) => idle_bool CallConnect c' c (drv db) (or_introl Hne) (proj1 Hl)) as Ho.
  destruct (conn_bool CallConnect c (drv db)) as [r d]. by apply linked_dirty.
Qed.

Lemma kl_disconnect c : keeps_link (call_void CallDisconnect c).
Proof.
  intros db [H1 H2]. split; [by apply sane_void|]. intros c' Ht. apply idle_disconnect; [done|]. apply H2.
  destruct (decide (c' = c)) as [->|Hne]; [eapply tidy_neutral; [| |exact Ht]; done|by eapply tidy_other].
Qed.

Lemma kl_reset c : keeps_link (call_void CallResetState c).
Proof.
  intros db [H1 H2]. split; [by apply sane_void|]. intros c' Ht.
  destruct (decide (c' = c)) as [->|Hne]; [by apply idle_reset|]. apply idle_void; [done..|]. apply H2. by eapply tidy_other.
Qed.

Lemma kl_new_address : keeps_link (@new_address D).
Proof. by intros db. Qed.

Lemma kl_create : keeps_link create_connection.
Proof.
  intros db [H1 H2]. unfold create_connection. pose proof (sane_create (drv db) H1) as Hs.
  pose proof (fun c => idle_create c (drv db) H1) as Ho. destruct (CreateConnection (drv db)) as [[|] d]; cbn;
    (split; [done|]; intros c Ht; by apply Ho, H2).
Qed.

Create HintDb link discriminated.
#[local] Hint Resolve kl_ret kl_undefined kl_blocked kl_gets kl_ping kl_connect kl_disconnect kl_reset kl_new_address kl_create : link.
#[local] Hint Extern 1 (keeps_link (_ ≫= _)) => apply kl_bind; [|intros ?] : link.
#[local] Hint Extern 1 (keeps_link (modify _)) => by apply kl_modify : link.
#[local] Hint Extern 2 (keeps_link (match ?x with _ => _ end)) => destruct x : link.
#[local] Hint Extern 3 (keeps_link (let _ := _ in _)) => cbv zeta : link.

Ltac keeps := eauto 30 with link.

Lemma kl_acquire t : keeps_link (Acquire t).
Proof.
  assert (forall fuel, keeps_link (acquire_loop fuel t)) as H; [|unfold Acquire; keeps].
  induction fuel as [|fuel IH]; cbn [acquire_loop]; keeps.
Qed.

Lemma kl_share c : keeps_link (share c).
Proof. intros db Hl. unfold share. by destruct (refs db !! c). Qed.

Lemma kl_drop_ref c : keeps_link (drop_ref c).
Proof.
  intros db Hl. unfold drop_ref. destruct (refs db !! c) as [n|]; [|done]. destruct (n =? 1); [|done].
  cbn zeta. destruct (alive _); [|by apply kl_disconnect].
  assert (keeps_link (Release c)) as Hr by (unfold Release; keeps). by apply Hr.
Qed.
#[local] Hint Resolve kl_acquire kl_share kl_drop_ref : link.

Lemma kl_make_wrapper w : keeps_link (make_wrapper w).
Proof. unfold make_wrapper. keeps. Qed.
#[local] Hint Resolve kl_make_wrapper : link.

Lemma kl_execute sql c : plain sql = true -> keeps_link (call_status (CallExecute sql) c).
Proof. intros Hp. apply kl_status; [done|]. intros d. by apply sane_execute. Qed.

Lemma kl_query_on c sql : plain sql = true -> keeps_link (query_on c sql).
Proof.
  intros Hp. unfold query_on. apply kl_bind; [|keeps]. apply kl_result; [done|]. intros d. by apply sane_query.
Qed.

Lemma kl_prepare_on c sql : plain sql = true -> keeps_link (prepare_on c sql).
Proof.
  intros Hp. unfold prepare_on. apply kl_bind; [|keeps]. apply kl_result; [done|]. intros d. by apply sane_prepare.
Qed.

Lemma kl_begin_on c : keeps_link (begin_on c).
Proof.
  unfold begin_on. apply kl_bind; [|keeps]. apply kl_status; [done|]. intros d. by apply sane_begin.
Qed.

Lemma kl_with_connection {A} (failed : DbStatus -> A) body : (forall c, keeps_link (body c)) -> keeps_link (with_connection failed body).
Proof. intros Hb. unfold with_connection. keeps. Qed.

Lemma kl_commit h : keeps_link (Commit h).
Proof.
  unfold Commit. apply kl_bind; [keeps|]. intros [[c|c|c b]|]; keeps. destruct b; [keeps|].
  apply kl_bind; [|keeps]. apply kl_status; [done|]. intros d. by apply sane_commit.
Qed.

Lemma kl_close_wrapper h : keeps_link (close_wrapper h).
Proof.
  unfold close_wrapper. apply kl_bind; [keeps|]. intros [w|]; [|keeps]. apply kl_bind; [|keeps].
  destruct w as [c|c|c []]; keeps. apply kl_bind; [|keeps]. apply kl_status; [done|]. intros d. by apply sane_rollback.
Qed.

Definition op_plain (o : DbOp) : bool :=
  match o with OQuery sql | OExecute sql | OPrepare sql => plain sql | _ => true end.

Lemma kl_db_exec o : op_plain o = true -> keeps_link (db_exec o).
Proof.
  pose proof kl_commit. pose proof kl_close_wrapper. intros Hp. destruct o as [sql|sql|sql| |h|h]; cbn [db_exec op_plain] in *.
  1-4: apply kl_bind; [|keeps]; apply kl_with_connection; intros c.
  - by apply kl_query_on.
  - by apply kl_execute.
  - by apply kl_prepare_on.
  - apply kl_begin_on.
  - keeps.
  - keeps.
Qed.

Lemma kl_db_run ops : forallb op_plain ops = true -> keeps_link (db_run ops).
Proof.
  induction ops as [|o ops IH]; cbn [db_run forallb]; [keeps|]. intros [H1 H2]%andb_prop.
  apply kl_bind; [by apply kl_db_exec|]. intros _. by apply IH.
Qed.

(** Connections carry nothing over: after any sequence of queries, executions,
    prepared statements, transactions, commits and destructions of their results, with
    whatever outcome, every connection that waits in the pool for its next user is in
    the state that the driver's [ResetState] promises. *)
Theorem idle_connections_are_clean
  (result_has_value : forall k c d s b d', conn_result k c d = (Some (s, b), d') -> IsOk s = true -> b = true)
  ops db (Hinv : db_inv [] db) (Htimeout : _defaultTimeoutMs db <> -1)
  (Hplain : forallb op_plain ops = true) (Hl : linked db) :
  exists db', db_run ops db = Ret tt db' /\ sane (drv db') /\ forall c, c ∈ _pool db' -> idle_ok c (drv db').
Proof.
  pose proof (db_run_ok result_has_value ops db (conj Hinv Htimeout)) as Hrun.
  pose proof (kl_db_run ops Hplain db Hl) as Hk. unfold returns in Hrun.
  destruct (db_run ops db) as [[] db'| |]; [|done|done]. exists db'. split; [done|].
  destruct Hrun as [Hi _]. split; [apply Hk|]. intros c Hc. apply Hk. by apply (di_tidy _ _ Hi).
Qed.

(** ** What [Acquire] hands out

    [vetted]: what a driver promises of a connection it has just opened, or that has just
    answered a ping after lying in the pool. *)

Section Vetted.
Context (vetted : Z -> D -> Prop)
  (vet_connect : forall c d d', sane d -> conn_bool CallConnect c d = (true, d') -> vetted c d')
  (vet_ping : forall c d d', sane d -> idle_ok c d -> IsConnected c d = true -> conn_bool CallPing c d = (true, d') -> vetted c d').

Lemma acquire_loop_vets fuel t : forall db c db', linked db -> (forall c, c ∈ _pool db -> tidy c db) ->
  acquire_loop fuel t db = Ret (Some c) db' -> vetted c (drv db').
Proof.
  induction fuel as [|fuel IH]; intros db c db' Hl Hp; [done|]. cbn. unfold gets, modify, mbind, Op_bind, mret, Op_ret.
  destruct (_pool db) as [|c1 rest] eqn:Ep.
  - destruct (_ <? _); [|by repeat case_match]. pose proof (kl_create (set_pool [] (_currentSize db + 1) db) Hl) as Hc.
    destruct (create_connection _) as [[c1|] db1| |]; [|done..]. unfold call_bool.
    destruct (conn_bool CallConnect c1 (drv db1)) as [b d] eqn:Eb. destruct b; [|done]. intros [= <- <-].
    eapply vet_connect; [apply Hc|exact Eb].
  - assert (forall db1, linked db1 -> _pool db1 = rest -> (forall c, c ∈ rest -> tidy c db1) ->
      (call_void CallDisconnect c1 ≫= (fun _ => modify (set_pool rest (_currentSize db - 1)) ≫= (fun _ => acquire_loop fuel t))) db1 =
        Ret (Some c) db' -> vetted c (drv db')) as Hdiscard.
    { intros db1 Hl1 _ Ht1. pose proof (kl_disconnect c1 db1 Hl1) as Hd. unfold call_void, mbind, Op_bind, modify in *.
      apply IH; [exact Hd|]. intros c' Hc'. apply (tidy_record c' c1 CallDisconnect db1); [by right|]. by apply Ht1. }
    assert (forall c, c ∈ rest -> tidy c (set_pool rest (_currentSize db) db)) as Ht by (intros c' Hc'; apply Hp; by right).
    destruct (IsConnected c1 _) eqn:Ei; [|by apply Hdiscard].
    pose proof (kl_ping c1 (set_pool rest (_currentSize db) db) Hl) as Hk. unfold call_bool in *.
    destruct (conn_bool CallPing c1 _) as [b d] eqn:Eb. destruct b.
    + intros [= <- <-]. eapply vet_ping; [apply Hl| |exact Ei|exact Eb]. apply Hl, Hp. by left.
    + apply Hdiscard; [exact Hk|done|]. intros c' Hc'. apply (tidy_record c' c1 CallPing (set_pool rest (_currentSize db) db)); [by right|].
      by apply Ht.
Qed.

Lemma run_then_acquire_vets
  (result_has_value : forall k c d s b d', conn_result k c d = (Some (s, b), d') -> IsOk s = true -> b = true)
  ops db db1 t c db2 (Hinv : db_inv [] db) (Htimeout : _defaultTimeoutMs db <> -1)
  (Hplain : forallb op_plain ops = true) (Hl : linked db) :
  db_run ops db = Ret tt db1 -> Acquire t db1 = Ret (Some c) db2 -> vetted c (drv db2).
Proof.
  intros Hrun. pose proof (db_run_ok result_has_value ops db (conj Hinv Htimeout)) as Hi.
  pose proof (kl_db_run ops Hplain db Hl) as Hk. unfold returns in Hi. rewrite Hrun in Hi, Hk. destruct Hi as [Hi _].
  unfold Acquire, gets, mbind, Op_bind, mret, Op_ret, modify.
  destruct (acquire_loop _ t db1) as [[c1|] db'| |] eqn:Ea; [|done..]. intros [= <- <-].
  apply (acquire_loop_vets _ _ _ _ _ Hk (di_tidy _ _ Hi) Ea).
Qed.

End Vetted.

End Idle.
