(* ===== verification/Handles.v ===== *)
(** * Handles: the connections of a driver and the handles of its client library

    Both drivers (src/System/Drivers/SQLite, src/System/Drivers/MySQL) keep for every
    connection a handle of their client library and a flag for an open transaction.  This
    file holds what they share: the connections with the state of the library, and the
    invariant that every connection has a handle of its own which is clean (nothing of an
    earlier client is pending in it) unless the connection's flag is set. *)

From stdpp Require Import base numbers gmap list.
From S2P Require Import Prelude.

#[local] Open Scope Z_scope.

(** A connection object: as it is made, its handle, its flag. *)
Class Handled (X : Type) := {
  new_conn : X;
  handle_of : X -> option Z;
  in_tx : X -> bool;
  new_has_no_handle : handle_of new_conn = None
}.

Record Table (X L : Type) := mkTable { conns : gmap Z X; lib : L }.
Arguments mkTable {X L} _ _.
Arguments conns {X L} _.
Arguments lib {X L} _.

Section Table.
Context {X L : Type} `{!Handled X}.
Implicit Types d : Table X L.

Definition conn_of (c : Z) d : X := default new_conn (conns d !! c).

Definition put (c : Z) (x : X) (l : L) d : Table X L := mkTable (<[c := x]> (conns d)) l.

Lemma conn_of_put c c' x l d : conn_of c (put c' x l d) = if bool_decide (c = c') then x else conn_of c d.
Proof.
  unfold conn_of, put. cbn. case_bool_decide as E; [subst; by rewrite lookup_insert_eq|]. by rewrite lookup_insert_ne.
Qed.

(** An open handle, and a handle without remains. *)
Context (is_open clean : Z -> L -> Prop).

(** Every connection has a handle of its own, clean unless its flag says otherwise. *)
Definition table_sane d : Prop :=
  (forall c h, handle_of (conn_of c d) = Some h -> is_open h (lib d) /\ (in_tx (conn_of c d) = false -> clean h (lib d))) /\
  (forall c1 c2 h, handle_of (conn_of c1 d) = Some h -> handle_of (conn_of c2 d) = Some h -> c1 = c2).

Definition table_idle (c : Z) d : Prop := in_tx (conn_of c d) = false \/ handle_of (conn_of c d) = None.

Lemma table_sane_new l : table_sane (mkTable ∅ l).
Proof. split; unfold conn_of; cbn; intros *; rewrite lookup_empty; cbn; by rewrite new_has_no_handle. Qed.

Lemma idle_clean c h d : table_sane d -> table_idle c d -> handle_of (conn_of c d) = Some h -> clean h (lib d).
Proof. intros [Hok _] [Ht|Hn] Hh; [by apply (Hok c h Hh)|congruence]. Qed.

(** The library goes from one state to another without closing or soiling a handle of
    [P]. *)
Definition leaves (P : Z -> Prop) (l l' : L) : Prop :=
  forall h, is_open h l -> is_open h l' /\ (P h -> clean h l -> clean h l').

Lemma leaves_refl P l : leaves P l l.
Proof. by intros h Hh. Qed.

Lemma leaves_trans P l1 l2 l3 : leaves P l1 l2 -> leaves P l2 l3 -> leaves P l1 l3.
Proof. intros H1 H2 h Hh. destruct (H1 h Hh) as [Ho Hc]. destruct (H2 h Ho) as [Ho' Hc']. split; auto. Qed.

Lemma leaves_weaken (P Q : Z -> Prop) l l' : (forall h, Q h -> P h) -> leaves P l l' -> leaves Q l l'.
Proof. intros HPQ Hl h Hh. destruct (Hl h Hh). split; auto. Qed.

(** A call on [c], which keeps its handle. *)
Lemma sane_put c x l d : table_sane d -> handle_of x = handle_of (conn_of c d) ->
  leaves (fun h => Some h <> handle_of x) (lib d) l ->
  (forall h, handle_of x = Some h -> in_tx x = false -> clean h l) ->
  table_sane (put c x l d).
Proof.
  intros [Hok Hinj] Hx Hl Hc. assert (forall c0, handle_of (conn_of c0 (put c x l d)) = handle_of (conn_of c0 d)) as Hdb.
  { intros c0. rewrite conn_of_put. by case_bool_decide; subst. }
  split; [|intros c1 c2 h; rewrite !Hdb; apply Hinj].
  intros c0 h Hh. pose proof Hh as Hh0. rewrite Hdb in Hh0. destruct (Hok c0 h Hh0) as [H1 H2]. destruct (Hl h H1) as [Ho Ha].
  split; [done|]. rewrite conn_of_put in *. case_bool_decide as E; [subst; by apply Hc|].
  intros Ht. apply Ha; [|by apply H2]. rewrite Hx. intros Heq. apply E. by apply (Hinj c0 c h).
Qed.

(** A call that soils nothing. *)
Lemma sane_same c l d : table_sane d -> leaves (fun _ => True) (lib d) l -> table_sane (put c (conn_of c d) l d).
Proof.
  intros Hs Hl. apply sane_put; [done|done|by eapply leaves_weaken; [|exact Hl]|].
  intros h Hh Ht. destruct Hs as [Hok _]. destruct (Hok c h Hh) as [H1 H2]. apply Hl; [done|done|]. by apply H2.
Qed.

(** A call that gives [c] a new handle, or takes its handle away. *)
Lemma sane_connect c x l d : table_sane d ->
  (forall c0 h, c0 <> c -> handle_of (conn_of c0 d) = Some h ->
     Some h <> handle_of x /\ is_open h l /\ (clean h (lib d) -> clean h l)) ->
  (forall h, handle_of x = Some h -> is_open h l /\ clean h l) ->
  table_sane (put c x l d).
Proof.
  intros [Hok Hinj] Ho Hn. split.
  - intros c0 h0. rewrite conn_of_put. case_bool_decide as E.
    + intros Hh. by destruct (Hn h0 Hh).
    + intros Hh. destruct (Hok c0 h0 Hh) as [_ H2]. destruct (Ho c0 h0 E Hh) as (_ & H3 & H4). split; auto.
  - intros c1 c2 h0. rewrite !conn_of_put. do 2 case_bool_decide; subst; intros E1 E2; try done.
    + by destruct (Ho c2 h0 ltac:(done) E2) as [Hne _].
    + by destruct (Ho c1 h0 ltac:(done) E1) as [Hne _].
    + by apply (Hinj c1 c2 h0).
Qed.

(** A call leaves the other connections' flags and handles alone. *)
Lemma idle_put c c' x l d : c <> c' -> table_idle c d -> table_idle c (put c' x l d).
Proof. intros Hne. unfold table_idle. by rewrite conn_of_put, bool_decide_false. Qed.

Lemma idle_put_same c x l d : in_tx x = false \/ handle_of x = None -> table_idle c (put c x l d).
Proof. unfold table_idle. by rewrite conn_of_put, bool_decide_true. Qed.

End Table.

(** A call that changes one connection, seen from another one. *)
Ltac idle_elsewhere :=
  cbn; repeat match goal with |- context [match ?e with pair _ _ => _ end] => destruct e eqn:? end;
  first [done | by apply idle_put].
