(* ===== verification/Sqlite.v ===== *)
(** * Sqlite: the SQLite driver

    Models src/System/Drivers/SQLite/SQLiteConnection.cpp and SQLiteConnectionFactory.h
    over the SQLite library, an abstract [Sqlite3]: the connection with its transaction
    flag, result sets with their prefetched first row, prepared statements.  The driver
    is an instance of [Driver] and, by the documented behaviour of the library
    ([Sqlite3Laws]), of [ResettingDriver].

    A [std::string] made from a null pointer is undefined; the driver interface has
    [None] for it, as for an exception. *)

From Stdlib Require Import String.
From stdpp Require Import base numbers gmap list strings.
From S2P Require Import Prelude Database DbDriver Handles.

#[local] Open Scope Z_scope.

Inductive StepResult := SQLITE_ROW | SQLITE_DONE | SQLITE_FAILED.

(** The library: [L] is its state, handles and statements are numbers, a null handle is
    [None], [dbl] is the type double. *)
Class Sqlite3 (L dbl : Type) := {
  sqlite3_open_v2 : string -> L -> bool * option Z * L;
  sqlite3_close : Z -> L -> L;
  sqlite3_exec : option Z -> string -> L -> bool * option string * L;
  sqlite3_prepare_v2 : option Z -> string -> L -> option Z * L;
  sqlite3_step : Z -> L -> StepResult * L;
  sqlite3_reset : Z -> L -> L;
  sqlite3_finalize : Z -> L -> L;
  sqlite3_bind_int : Z -> Z -> Z -> L -> bool * L;
  sqlite3_bind_text : Z -> Z -> string -> L -> bool * L;
  sqlite3_bind_double : Z -> Z -> dbl -> L -> bool * L;
  sqlite3_column_int : Z -> Z -> L -> Z;
  sqlite3_column_text : Z -> Z -> L -> option string;
  sqlite3_column_double : Z -> Z -> L -> dbl;
  sqlite3_errmsg : option Z -> L -> string;
  sqlite3_db_handle : Z -> L -> Z
}.

Section Sqlite.
Context {L dbl : Type} `{!Sqlite3 L dbl}.

(** ** SQLiteResultSet *)

Record SQLiteResultSet := mkResultSet { rs_stmt : Z; _ownsStmt : bool; _firstRowPending : bool; _isEof : bool }.

Definition Next (rs : SQLiteResultSet) (lib : L) : bool * SQLiteResultSet * L :=
  if _firstRowPending rs then (true, mkResultSet (rs_stmt rs) (_ownsStmt rs) false (_isEof rs), lib)
  else if _isEof rs then (false, rs, lib)
  else match sqlite3_step (rs_stmt rs) lib with
       | (SQLITE_ROW, lib) => (true, rs, lib)
       | (_, lib) => (false, mkResultSet (rs_stmt rs) (_ownsStmt rs) (_firstRowPending rs) true, lib)
       end.

Definition GetInt (idx : Z) (rs : SQLiteResultSet) (lib : L) : Z := sqlite3_column_int (rs_stmt rs) idx lib.

(** A null column reads as the empty string. *)
Definition GetString (idx : Z) (rs : SQLiteResultSet) (lib : L) : string :=
  default EmptyString (sqlite3_column_text (rs_stmt rs) idx lib).

Definition GetDouble (idx : Z) (rs : SQLiteResultSet) (lib : L) : dbl := sqlite3_column_double (rs_stmt rs) idx lib.

(** [~SQLiteResultSet] *)
Definition destroy_result_set (rs : SQLiteResultSet) (lib : L) : L :=
  if _ownsStmt rs then sqlite3_finalize (rs_stmt rs) lib else sqlite3_reset (rs_stmt rs) lib.

(** ** SQLitePreparedStatement *)

Definition bind_status (what : string) (r : bool * L) : DbStatus * L :=
  (if r.1 then Ok else Error what, r.2).

Definition BindInt (stmt idx val : Z) (lib : L) : DbStatus * L :=
  bind_status "Failed to bind int" (sqlite3_bind_int stmt (i32 (idx + 1)) val lib).
Definition BindString (stmt idx : Z) (val : string) (lib : L) : DbStatus * L :=
  bind_status "Failed to bind string" (sqlite3_bind_text stmt (i32 (idx + 1)) val lib).
Definition BindDouble (stmt idx : Z) (val : dbl) (lib : L) : DbStatus * L :=
  bind_status "Failed to bind double" (sqlite3_bind_double stmt (i32 (idx + 1)) val lib).

(** The result of a statement's first step: a result set, or an error. *)
Definition first_step (stmt : Z) (owns : bool) (lib : L) : DbStatus * option SQLiteResultSet * L :=
  match sqlite3_step stmt lib with
  | (SQLITE_ROW, lib) => (Ok, Some (mkResultSet stmt owns true false), lib)
  | (SQLITE_DONE, lib) => (Ok, Some (mkResultSet stmt owns false true), lib)
  | (SQLITE_FAILED, lib) => (mkStatus DB_INVALID_QUERY (sqlite3_errmsg (Some (sqlite3_db_handle stmt lib)) lib), None, lib)
  end.

Definition ExecuteQuery (stmt : Z) (lib : L) : DbStatus * option SQLiteResultSet * L :=
  first_step stmt false (sqlite3_reset stmt lib).

Definition ExecuteUpdate (stmt : Z) (lib : L) : DbStatus * L :=
  let '(rc, lib) := sqlite3_step stmt lib in
  (match rc with SQLITE_FAILED => Error "Update failed" | _ => Ok end, sqlite3_reset stmt lib).

(** ** SQLiteConnection *)

Record SQLiteConnection := mkConn { _db : option Z; _isConnected : bool; _inTransaction : bool }.

Definition SQLiteConnection_new : SQLiteConnection := mkConn None false false.

(** The handle is stored also when opening fails. *)
Definition Connect (connStr : string) (c : SQLiteConnection) (lib : L) : bool * SQLiteConnection * L :=
  let '(ok, h, lib) := sqlite3_open_v2 connStr lib in
  if ok : bool then
    let '(_, _, lib) := sqlite3_exec h "PRAGMA journal_mode=WAL;" lib in
    let '(_, _, lib) := sqlite3_exec h "PRAGMA synchronous=NORMAL;" lib in
    (true, mkConn h true (_inTransaction c), lib)
  else (false, mkConn h (_isConnected c) (_inTransaction c), lib).

Definition Disconnect (c : SQLiteConnection) (lib : L) : SQLiteConnection * L :=
  (mkConn None false (_inTransaction c), match _db c with Some h => sqlite3_close h lib | None => lib end).

(** [None]: the library gave no message. *)
Definition Execute (sql : string) (c : SQLiteConnection) (lib : L) : option DbStatus * L :=
  match sqlite3_exec (_db c) sql lib with
  | (true, _, lib) => (Some Ok, lib)
  | (false, msg, lib) => (Error <$> msg, lib)
  end.

Definition Query (sql : string) (c : SQLiteConnection) (lib : L) : DbStatus * option SQLiteResultSet * L :=
  match sqlite3_prepare_v2 (_db c) sql lib with
  | (None, lib) => (mkStatus DB_INVALID_QUERY (sqlite3_errmsg (_db c) lib), None, lib)
  | (Some stmt, lib) =>
      match sqlite3_step stmt lib with
      | (SQLITE_ROW, lib) => (Ok, Some (mkResultSet stmt true true false), lib)
      | (SQLITE_DONE, lib) => (Ok, Some (mkResultSet stmt true false true), lib)
      | (SQLITE_FAILED, lib) =>
          let lib := sqlite3_finalize stmt lib in
          (mkStatus DB_INVALID_QUERY (sqlite3_errmsg (_db c) lib), None, lib)
      end
  end.

Definition Prepare (sql : string) (c : SQLiteConnection) (lib : L) : DbStatus * option Z * L :=
  match sqlite3_prepare_v2 (_db c) sql lib with
  | (None, lib) => (mkStatus DB_INVALID_QUERY (sqlite3_errmsg (_db c) lib), None, lib)
  | (Some stmt, lib) => (Ok, Some stmt, lib)
  end.

Definition set_tx (b : bool) (c : SQLiteConnection) : SQLiteConnection := mkConn (_db c) (_isConnected c) b.

Definition BeginTransaction (c : SQLiteConnection) (lib : L) : option DbStatus * SQLiteConnection * L :=
  if _inTransaction c then (Some (mkStatus DB_TRANSACTION_ACTIVE "Transaction already active"), c, lib) else
  let '(status, lib) := Execute "BEGIN TRANSACTION;" c lib in
  (status, match status with Some s => if IsOk s then set_tx true c else c | None => c end, lib).

Definition Commit (c : SQLiteConnection) (lib : L) : option DbStatus * SQLiteConnection * L :=
  if negb (_inTransaction c) then (Some (Error "No active transaction"), c, lib) else
  let '(status, lib) := Execute "COMMIT;" c lib in
  (status, match status with Some s => if IsOk s then set_tx false c else c | None => c end, lib).

(** The flag goes whatever the library answers. *)
Definition Rollback (c : SQLiteConnection) (lib : L) : option DbStatus * SQLiteConnection * L :=
  if negb (_inTransaction c) then (Some (Error "No active transaction"), c, lib) else
  let '(status, lib) := Execute "ROLLBACK;" c lib in
  (status, match status with Some _ => set_tx false c | None => c end, lib).

Definition ResetState (c : SQLiteConnection) (lib : L) : SQLiteConnection * L :=
  if _inTransaction c then let '(_, c, lib) := Rollback c lib in (c, lib) else (c, lib).

(** ** The driver *)

#[export] Instance sqlite_handled : Handled SQLiteConnection :=
  {| new_conn := SQLiteConnection_new; handle_of := _db; in_tx := _inTransaction; new_has_no_handle := eq_refl |}.

(** The connections by identity, and the library. *)
Definition Sqlite : Type := Table SQLiteConnection L.

Context (connStr : string).

(** The calls of one connection; the objects that [Query] and [Prepare] make go into the
    facade's wrappers. *)
Definition sqlite_bool (k : ConnCall) (c : Z) (d : Sqlite) : bool * Sqlite :=
  match k with
  | CallConnect => let '(b, x, l) := Connect connStr (conn_of c d) (lib d) in (b, put c x l d)
  | _ => (_isConnected (conn_of c d), d)
  end.

Definition sqlite_void (k : ConnCall) (c : Z) (d : Sqlite) : Sqlite :=
  match k with
  | CallDisconnect => let '(x, l) := Disconnect (conn_of c d) (lib d) in put c x l d
  | CallResetState => let '(x, l) := ResetState (conn_of c d) (lib d) in put c x l d
  | _ => d
  end.

Definition sqlite_status (k : ConnCall) (c : Z) (d : Sqlite) : option DbStatus * Sqlite :=
  match k with
  | CallExecute sql => let '(s, l) := Execute sql (conn_of c d) (lib d) in (s, put c (conn_of c d) l d)
  | CallBegin => let '(s, x, l) := BeginTransaction (conn_of c d) (lib d) in (s, put c x l d)
  | CallCommit => let '(s, x, l) := Commit (conn_of c d) (lib d) in (s, put c x l d)
  | CallRollback => let '(s, x, l) := Rollback (conn_of c d) (lib d) in (s, put c x l d)
  | _ => (None, d)
  end.

Definition sqlite_result (k : ConnCall) (c : Z) (d : Sqlite) : option (DbStatus * bool) * Sqlite :=
  match k with
  | CallQuery sql => let '(s, r, l) := Query sql (conn_of c d) (lib d) in
                     (Some (s, bool_decide (is_Some r)), put c (conn_of c d) l d)
  | CallPrepare sql => let '(s, r, l) := Prepare sql (conn_of c d) (lib d) in
                       (Some (s, bool_decide (is_Some r)), put c (conn_of c d) l d)
  | _ => (None, d)
  end.

Definition sqlite_driver : Driver Sqlite := {|
  CreateConnection d := (true, d);
  IsConnected c d := _isConnected (conn_of c d);
  conn_bool := sqlite_bool;
  conn_void := sqlite_void;
  conn_status := sqlite_status;
  conn_result := sqlite_result
|}.

(** ** Reading a result *)

(** [while (rs->Next()) use(row)], with what [f] reads of a row. *)
Fixpoint read_all {A} (fuel : nat) (f : Z -> L -> A) (rs : SQLiteResultSet) (lib : L) : list A * L :=
  match fuel with
  | O => ([], lib)
  | S fuel =>
      match Next rs lib with
      | (true, rs, lib) => let '(l, lib') := read_all fuel f rs lib in (f (rs_stmt rs) lib :: l, lib')
      | (false, _, lib) => ([], lib)
      end
  end.

(** The rows of a statement: what is there after each step up to the first that gives none. *)
Fixpoint rows_of {A} (fuel : nat) (f : Z -> L -> A) (stmt : Z) (lib : L) : list A * L :=
  match fuel with
  | O => ([], lib)
  | S fuel =>
      match sqlite3_step stmt lib with
      | (SQLITE_ROW, lib) => let '(l, lib') := rows_of fuel f stmt lib in (f stmt lib :: l, lib')
      | (_, lib) => ([], lib)
      end
  end.

Lemma read_rest {A} fuel (f : Z -> L -> A) stmt owns lib :
  read_all fuel f (mkResultSet stmt owns false false) lib = rows_of fuel f stmt lib.
Proof.
  revert lib. induction fuel as [|fuel IH]; intros lib; [done|]. cbn. destruct (sqlite3_step stmt lib) as [[] lib']; [|done..].
  by rewrite IH.
Qed.

(** Prefetching the first row loses and repeats none: reading a result set to its end
    gives exactly the rows of the statement in order, with each read made while its row is
    the current one, for queries and prepared statements; the statement is stepped as
    often as if it were read directly. *)
Theorem result_set_reads_every_row {A} fuel (f : Z -> L -> A) stmt owns lib status rs lib'
  (Hfirst : first_step stmt owns lib = (status, Some rs, lib')) :
  read_all fuel f rs lib' = match fuel with O => ([], lib') | S _ => rows_of fuel f stmt lib end /\ IsOk status = true.
Proof.
  unfold first_step in Hfirst. destruct (sqlite3_step stmt lib) as [[] lib1] eqn:Es; [| |done]; injection Hfirst as <- <- <-;
    (split; [|done]); (destruct fuel as [|fuel]; [done|]); cbn; rewrite Es; [|done].
  by rewrite read_rest.
Qed.

(** ** What a client leaves in a connection *)

Class Sqlite3Laws := {
  (** SQL that neither begins nor ends a transaction. *)
  plain_sql : string -> bool;
  is_open : Z -> L -> Prop;
  autocommit : Z -> L -> bool;
  plain_pragmas : plain_sql "PRAGMA journal_mode=WAL;" = true /\ plain_sql "PRAGMA synchronous=NORMAL;" = true;
  (** A new handle is in autocommit mode; no other handle notices. *)
  open_law : forall s l b h l', sqlite3_open_v2 s l = (b, h, l') ->
    (forall h0, is_open h0 l -> Some h0 <> h /\ is_open h0 l' /\ autocommit h0 l' = autocommit h0 l) /\
    (forall h0, h = Some h0 -> is_open h0 l' /\ autocommit h0 l' = true);
  close_law : forall h l h0, h0 <> h -> is_open h0 l ->
    is_open h0 (sqlite3_close h l) /\ autocommit h0 (sqlite3_close h l) = autocommit h0 l;
  exec_law : forall h sql l b m l', sqlite3_exec h sql l = (b, m, l') ->
    (forall h0, is_open h0 l -> is_open h0 l' /\ (Some h0 <> h -> autocommit h0 l' = autocommit h0 l)) /\
    (forall h0, h = Some h0 -> b = false -> is_Some m);
  exec_plain : forall h sql l b m l', sqlite3_exec (Some h) sql l = (b, m, l') -> plain_sql sql = true ->
    autocommit h l = true -> autocommit h l' = true;
  exec_begin_fails : forall h l m l', sqlite3_exec (Some h) "BEGIN TRANSACTION;" l = (false, m, l') ->
    autocommit h l = true -> autocommit h l' = true;
  exec_commit : forall h l m l', sqlite3_exec (Some h) "COMMIT;" l = (true, m, l') -> autocommit h l' = true;
  exec_rollback : forall h l b m l', sqlite3_exec (Some h) "ROLLBACK;" l = (b, m, l') -> autocommit h l' = true;
  (** Compiling a statement or ending one executes nothing. *)
  prepare_law : forall h sql l s l', sqlite3_prepare_v2 h sql l = (s, l') -> forall h0, is_open h0 l ->
    is_open h0 l' /\ autocommit h0 l' = autocommit h0 l;
  finalize_law : forall s l h0, is_open h0 l ->
    is_open h0 (sqlite3_finalize s l) /\ autocommit h0 (sqlite3_finalize s l) = autocommit h0 l;
  step_plain : forall h sql l s l1 r l2, sqlite3_prepare_v2 h sql l = (Some s, l1) -> plain_sql sql = true ->
    sqlite3_step s l1 = (r, l2) -> forall h0, is_open h0 l1 ->
    is_open h0 l2 /\ (autocommit h0 l1 = true -> autocommit h0 l2 = true)
}.

Context `{!Sqlite3Laws}.

(** Outside of a transaction. *)
Definition outside (h : Z) (l : L) : Prop := autocommit h l = true.

Abbreviation sqlite_sane := (table_sane is_open outside).
Abbreviation leaves := (leaves is_open outside).

Lemma exec_leaves h sql l b m l' : sqlite3_exec h sql l = (b, m, l') -> leaves (fun h0 => Some h0 <> h) l l'.
Proof.
  intros He h0 Hh. destruct (exec_law _ _ _ _ _ _ He) as [Hl _]. destruct (Hl h0 Hh) as [Ho Ha]. split; [done|].
  intros Hne. unfold outside. by rewrite Ha.
Qed.

Lemma exec_leaves_plain h sql l b m l' : sqlite3_exec h sql l = (b, m, l') -> plain_sql sql = true -> leaves (fun _ => True) l l'.
Proof.
  intros He Hp h0 Hh. destruct (exec_leaves _ _ _ _ _ _ He h0 Hh) as [Ho Ha]. split; [done|]. intros _ Hc.
  destruct (decide (Some h0 = h)) as [<-|Hne]; [by eapply exec_plain|by apply Ha].
Qed.

Lemma prepare_leaves h sql l s l' : sqlite3_prepare_v2 h sql l = (s, l') -> leaves (fun _ => True) l l'.
Proof. intros Hp h0 Hh. destruct (prepare_law _ _ _ _ _ Hp h0 Hh) as [Ho Ha]. split; [done|]. intros _. unfold outside. by rewrite Ha. Qed.

Lemma finalize_leaves s l : leaves (fun _ => True) l (sqlite3_finalize s l).
Proof. intros h0 Hh. destruct (finalize_law s l h0 Hh) as [Ho Ha]. split; [done|]. intros _. unfold outside. by rewrite Ha. Qed.

Lemma sane_execute_sql sql c (d : Sqlite) x s l : sqlite_sane d -> Execute sql (conn_of c d) (lib d) = (s, l) ->
  _db x = _db (conn_of c d) ->
  (forall h, _db x = Some h -> _inTransaction x = false -> outside h l) ->
  sqlite_sane (put c x l d).
Proof.
  unfold Execute. intros Hs He Hx Hc. destruct (sqlite3_exec _ sql (lib d)) as [[b m] l'] eqn:Ee.
  assert (l' = l) as -> by (destruct b; by injection He).
  apply sane_put; [done|done| |done]. cbn [handle_of sqlite_handled]. rewrite Hx. by eapply exec_leaves.
Qed.

Lemma sqlite_sane_bool k c (d : Sqlite) : sqlite_sane d -> sqlite_sane (sqlite_bool k c d).2.
Proof.
  intros Hs. destruct k; try exact Hs. cbn. unfold Connect.
  destruct (sqlite3_open_v2 connStr (lib d)) as [[ok h] l1] eqn:Eo. destruct (open_law _ _ _ _ _ Eo) as [Ho Hn].
  assert (forall l, leaves (fun _ => True) l1 l -> forall b t, sqlite_sane (put c (mkConn h b t) l d)) as Hgo.
  { intros l Hl b t. apply sane_connect; [done| |].
    - intros c0 h0 _ Hh. destruct Hs as [Hok _]. destruct (Hok c0 h0 Hh) as [H1 _]. destruct (Ho h0 H1) as (Hne & Ho1 & Ha1).
      destruct (Hl h0 Ho1) as [Ho2 Ha2]. split; [done|]. split; [done|]. intros Hc. apply Ha2; [done|]. unfold outside. by rewrite Ha1.
    - intros h0 Hh. destruct (Hn h0 Hh) as [Ho1 Ha1]. destruct (Hl h0 Ho1) as [Ho2 Ha2]. split; [done|]. by apply Ha2. }
  destruct ok; [|by apply Hgo].
  destruct (sqlite3_exec h "PRAGMA journal_mode=WAL;" l1) as [[b1 m1] l2] eqn:E1.
  destruct (sqlite3_exec h "PRAGMA synchronous=NORMAL;" l2) as [[b2 m2] l3] eqn:E2. destruct plain_pragmas as [P1 P2].
  apply Hgo. eapply leaves_trans; [by eapply exec_leaves_plain|by eapply exec_leaves_plain].
Qed.

Lemma sane_rollback_flag c (d : Sqlite) x l s : sqlite_sane d -> _inTransaction (conn_of c d) = true ->
  Rollback (conn_of c d) (lib d) = (s, x, l) -> sqlite_sane (put c x l d).
Proof.
  intros Hs Ht. unfold Rollback. rewrite Ht. cbn [negb].
  destruct (Execute "ROLLBACK;" (conn_of c d) (lib d)) as [st l'] eqn:Ee. intros [= <- <- <-].
  eapply sane_execute_sql; [done|exact Ee|by destruct st|].
  intros h Hh _. assert (_db (conn_of c d) = Some h) as Hh' by (by destruct st). unfold Execute in Ee.
  rewrite Hh' in Ee. destruct (sqlite3_exec (Some h) "ROLLBACK;" (lib d)) as [[b m] l1] eqn:E1.
  assert (l1 = l') as -> by (destruct b; by injection Ee). by eapply exec_rollback.
Qed.

Lemma sqlite_sane_void k c (d : Sqlite) : sqlite_sane d -> sqlite_sane (sqlite_void k c d).
Proof.
  intros Hs. destruct k; try exact Hs; cbn.
  - unfold Disconnect. apply sane_connect; [done| |done]. intros c0 h Hne Hh. split; [done|]. destruct Hs as [Hok Hinj].
    destruct (Hok c0 h Hh) as [H1 _]. destruct (_db (conn_of c d)) as [h1|] eqn:E1; [|done].
    destruct (close_law h1 (lib d) h) as [H2 H3]; [|done|].
    + intros ->. apply Hne. by apply (Hinj c0 c h1).
    + split; [done|]. unfold outside. by rewrite H3.
  - unfold ResetState. destruct (_inTransaction (conn_of c d)) eqn:Et.
    + destruct (Rollback _ _) as [[s x] l] eqn:Er. by eapply sane_rollback_flag.
    + apply sane_same; [done|apply leaves_refl].
Qed.

Lemma sqlite_sane_execute sql c (d : Sqlite) : plain_sql sql = true -> sqlite_sane d -> sqlite_sane (sqlite_status (CallExecute sql) c d).2.
Proof.
  intros Hp Hs. cbn. unfold Execute. destruct (sqlite3_exec _ sql (lib d)) as [[b m] l] eqn:Ee.
  assert (sqlite_sane (put c (conn_of c d) l d)) as Hgo by (apply sane_same; [done|by eapply exec_leaves_plain]). by destruct b.
Qed.

Lemma sqlite_sane_begin c (d : Sqlite) : sqlite_sane d -> sqlite_sane (sqlite_status CallBegin c d).2.
Proof.
  intros Hs. cbn. unfold BeginTransaction. destruct (_inTransaction (conn_of c d)) eqn:Et; [apply sane_same; [done|apply leaves_refl]|].
  destruct (Execute "BEGIN TRANSACTION;" (conn_of c d) (lib d)) as [s l] eqn:Ee. cbn.
  assert (forall h, _db (conn_of c d) = Some h -> (exists s0, s = Some s0 /\ IsOk s0 = true) \/ outside h l) as Hb.
  { intros h Hh. destruct Hs as [Hok _]. destruct (Hok c h Hh) as [_ Ha]. unfold Execute in Ee. rewrite Hh in Ee.
    destruct (sqlite3_exec _ _ (lib d)) as [[[|] m] l1] eqn:E1; injection Ee as <- <-; [left; by exists Ok|right].
    eapply exec_begin_fails; [exact E1|by apply Ha]. }
  destruct s as [s|]; [destruct (IsOk s) eqn:Eok|]; (eapply sane_execute_sql; [done|exact Ee|done|]); try done;
    intros h Hh _; destruct (Hb h Hh) as [(s0 & Es & Hok)|]; try done; congruence.
Qed.

Lemma sqlite_sane_commit c (d : Sqlite) : sqlite_sane d -> sqlite_sane (sqlite_status CallCommit c d).2.
Proof.
  intros Hs. cbn. unfold Commit. destruct (_inTransaction (conn_of c d)) eqn:Et; cbn [negb]; [|apply sane_same; [done|apply leaves_refl]].
  destruct (Execute "COMMIT;" (conn_of c d) (lib d)) as [s l] eqn:Ee. cbn.
  destruct s as [s|]; [destruct (IsOk s) eqn:Eok|]; (eapply sane_execute_sql; [done|exact Ee|done|]);
    intros h Hh Ht; cbn in *; try congruence.
  unfold Execute in Ee. rewrite Hh in Ee. destruct (sqlite3_exec _ _ (lib d)) as [[[|] m] l1] eqn:E1.
  - injection Ee as <- <-. by eapply exec_commit.
  - destruct m; [|done]. by injection Ee as <- <-.
Qed.

Lemma sqlite_sane_rollback c (d : Sqlite) : sqlite_sane d -> sqlite_sane (sqlite_status CallRollback c d).2.
Proof.
  intros Hs. cbn. destruct (_inTransaction (conn_of c d)) eqn:Et.
  - destruct (Rollback _ _) as [[s x] l] eqn:Er. by eapply sane_rollback_flag.
  - unfold Rollback. rewrite Et. apply sane_same; [done|apply leaves_refl].
Qed.

Lemma sqlite_sane_query sql c (d : Sqlite) : plain_sql sql = true -> sqlite_sane d -> sqlite_sane (sqlite_result (CallQuery sql) c d).2.
Proof.
  intros Hp Hs. cbn. unfold Query. destruct (sqlite3_prepare_v2 _ sql (lib d)) as [[stmt|] l1] eqn:Ep;
    [|apply sane_same; [done|by eapply prepare_leaves]].
  destruct (sqlite3_step stmt l1) as [r l2] eqn:Es.
  assert (leaves (fun _ => True) (lib d) l2) as Hl.
  { eapply leaves_trans; [by eapply prepare_leaves|]. intros h Hh. destruct (step_plain _ _ _ _ _ _ _ Ep Hp Es h Hh). by split. }
  destruct r; (apply sane_same; [done|]); [done|done|]. eapply leaves_trans; [exact Hl|apply finalize_leaves].
Qed.

Lemma sqlite_sane_prepare sql c (d : Sqlite) : plain_sql sql = true -> sqlite_sane d -> sqlite_sane (sqlite_result (CallPrepare sql) c d).2.
Proof.
  intros Hp Hs. cbn. unfold Prepare. destruct (sqlite3_prepare_v2 _ sql (lib d)) as [s l1] eqn:Ep.
  destruct s; (apply sane_same; [done|by eapply prepare_leaves]).
Qed.

Lemma sqlite_idle_reset c (d : Sqlite) : sqlite_sane d -> table_idle c (sqlite_void CallResetState c d).
Proof.
  intros _. cbn. unfold ResetState. destruct (_inTransaction (conn_of c d)) eqn:Et; [|apply idle_put_same; by left].
  unfold Rollback. rewrite Et. cbn [negb]. destruct (Execute "ROLLBACK;" (conn_of c d) (lib d)) as [st l'] eqn:Ee.
  apply idle_put_same. destruct st as [st|]; [by left|right].
  unfold Execute in Ee. destruct (sqlite3_exec _ _ (lib d)) as [[[|] m] l1] eqn:E1; [done|].
  destruct m; [done|]. cbn. destruct (_db (conn_of c d)) as [h|] eqn:Eh; [|done].
  destruct (exec_law _ _ _ _ _ _ E1) as [_ Hm]. by destruct (Hm h eq_refl eq_refl).
Qed.

#[local] Existing Instance sqlite_driver.

#[export] Instance sqlite_resetting : ResettingDriver Sqlite.
Proof.
  refine {| plain := plain_sql; sane := sqlite_sane; idle_ok := table_idle |}.
  - done.
  - apply sqlite_sane_bool.
  - apply sqlite_sane_void.
  - apply sqlite_sane_execute.
  - apply sqlite_sane_begin.
  - apply sqlite_sane_commit.
  - apply sqlite_sane_rollback.
  - apply sqlite_sane_query.
  - apply sqlite_sane_prepare.
  - apply sqlite_idle_reset.
  - done.
  - intros k c c' d [Hne| ->] _ Hi; [destruct k; idle_elsewhere|done].
  - intros c c' d _ Hi. cbn. destruct (decide (c = c')) as [->|Hne]; [|by apply idle_put]. apply idle_put_same. by right.
  - intros k c c' d Hne _ Hi. destruct k; idle_elsewhere.
  - intros k c c' d Hne _ Hi. destruct k; idle_elsewhere.
  - intros k c c' d Hne _ Hi. destruct k; idle_elsewhere.
Defined.

Lemma sqlite_has_value k c (d : Sqlite) s b d' : conn_result k c d = (Some (s, b), d') -> IsOk s = true -> b = true.
Proof.
  destruct k; try done; cbn.
  - unfold Query. destruct (sqlite3_prepare_v2 _ _ _) as [[stmt|] l1]; [|by intros [= <- _ _]].
    destruct (sqlite3_step _ _) as [[] l2]; intros [= <- <- _]; done.
  - unfold Prepare. by destruct (sqlite3_prepare_v2 _ _ _) as [[stmt|] l1]; intros [= <- <- _].
Qed.

(** C19: No transaction is handed on: whatever its clients do with a pool of SQLite
    connections, provided their own SQL does not begin or end transactions, a connection
    that waits in the pool is outside any transaction in the library itself, also when
    commits and rollbacks failed, results were dropped in any order, or a transaction was
    left open by the client. *)
Theorem sqlite_pool_outside_transactions ops l db
  (Hinv : db_inv [] db) (Htimeout : _defaultTimeoutMs db <> -1)
  (Hplain : forallb op_plain ops = true) (Hstart : drv db = mkTable ∅ l) :
  exists db', db_run ops db = Ret tt db' /\
    forall c h, c ∈ _pool db' -> _db (conn_of c (drv db')) = Some h -> autocommit h (lib (drv db')) = true.
Proof.
  destruct (idle_connections_are_clean sqlite_has_value ops db Hinv Htimeout Hplain) as (db' & Hr & Hs & Hi).
  - unfold linked, Sqlite in *. rewrite Hstart. split; [apply table_sane_new|]. intros c _. by left.
  - exists db'. split; [done|]. intros c h Hc Hh. by apply (idle_clean is_open outside c h (drv db') Hs (Hi c Hc)).
Qed.

End Sqlite.
Arguments Sqlite L : clear implicits.

(** ** A library *)

(** Handles with their mode; statements with the rows they have left. *)
Record ToyLib := mkToy { handles : gmap Z bool; stmts : gmap Z nat }.

Definition toy_exec (h : option Z) (sql : string) (l : ToyLib) : bool * option string * ToyLib :=
  match h with
  | None => (false, None, l)
  | Some h =>
      let auto := default true (handles l !! h) in
      let set b := mkToy (alter (fun _ => b) h (handles l)) (stmts l) in
      if bool_decide (sql = "BEGIN TRANSACTION;" \/ sql = "BEGIN;")
      then if auto then (true, None, set false) else (false, Some "cannot start a transaction within a transaction"%string, l)
      else if bool_decide (sql = "COMMIT;") then if auto then (false, Some "no transaction is active"%string, l) else (true, None, set true)
      else if bool_decide (sql = "ROLLBACK;") then if auto then (false, Some "no transaction is active"%string, l) else (true, None, set true)
      else (true, None, l)
  end.

Definition toy_step (s : Z) (l : ToyLib) : StepResult * ToyLib :=
  match stmts l !! s with
  | Some (S n) => (SQLITE_ROW, mkToy (handles l) (<[s := n]> (stmts l)))
  | Some O => (SQLITE_DONE, l)
  | None => (SQLITE_FAILED, l)
  end.

#[export] Instance toy_sqlite : Sqlite3 ToyLib unit := {
  sqlite3_open_v2 _ l := let h := fresh (dom (handles l)) in (true, Some h, mkToy (<[h := true]> (handles l)) (stmts l));
  sqlite3_close h l := mkToy (delete h (handles l)) (stmts l);
  sqlite3_exec := toy_exec;
  sqlite3_prepare_v2 _ _ l := let s := fresh (dom (stmts l)) in (Some s, mkToy (handles l) (<[s := 2%nat]> (stmts l)));
  sqlite3_step := toy_step;
  sqlite3_reset s l := mkToy (handles l) (<[s := 2%nat]> (stmts l));
  sqlite3_finalize s l := mkToy (handles l) (delete s (stmts l));
  sqlite3_bind_int _ _ _ l := (true, l);
  sqlite3_bind_text _ _ _ l := (true, l);
  sqlite3_bind_double _ _ _ l := (true, l);
  sqlite3_column_int s _ l := Z.of_nat (default 0%nat (stmts l !! s));
  sqlite3_column_text _ _ _ := None;
  sqlite3_column_double _ _ _ := ();
  sqlite3_errmsg _ _ := "error"%string;
  sqlite3_db_handle _ _ := 0
}.

Definition toy_auto (h : Z) (l : ToyLib) : bool := default true (handles l !! h).
Definition toy_plain (sql : string) : bool :=
  negb (bool_decide ((sql = "BEGIN TRANSACTION;" \/ sql = "BEGIN;") \/ sql = "COMMIT;" \/ sql = "ROLLBACK;")).

Lemma toy_exec_spec h sql l b m l' : toy_exec h sql l = (b, m, l') ->
  l' = l \/ exists h0, h = Some h0 /\ toy_plain sql = false /\
    l' = mkToy (alter (fun _ => negb (bool_decide (sql = "BEGIN TRANSACTION;" \/ sql = "BEGIN;"))) h0 (handles l)) (stmts l).
Proof.
  unfold toy_exec, toy_plain. destruct h as [h|]; [|intros [= <- <- <-]; by left].
  repeat case_bool_decide; subst; try tauto; repeat case_match; intros [= <- <- <-]; auto; right; eexists;
    (split; [done|]); by split.
Qed.

Lemma toy_auto_alter b h h0 l : toy_auto h (mkToy (alter (fun _ => b) h0 (handles l)) (stmts l)) =
  if bool_decide (h = h0 /\ is_Some (handles l !! h)) then b else toy_auto h l.
Proof.
  unfold toy_auto. cbn. destruct (decide (h = h0)) as [->|Hne].
  - rewrite lookup_alter_eq. destruct (handles l !! h0) as [a|]; cbn; [by rewrite bool_decide_true by (split; [done|by eexists])|].
    rewrite bool_decide_false; [done|]. by intros [_ [? ?]].
  - rewrite lookup_alter_ne by done. rewrite bool_decide_false; [done|]. by intros [? _].
Qed.

#[export] Instance toy_laws : Sqlite3Laws (L := ToyLib).
Proof.
  refine {| plain_sql := toy_plain; is_open h l := is_Some (handles l !! h); autocommit := toy_auto |}.
  - done.
  - intros s l b h l'. cbn [sqlite3_open_v2 toy_sqlite]. intros [= <- <- <-]. set (h := fresh _).
    assert (handles l !! h = None) as Hf by (apply not_elem_of_dom, is_fresh). unfold toy_auto. cbn. split.
    + intros h0 Hh. assert (h0 <> h) as Hne by (intros ->; rewrite Hf in Hh; by destruct Hh).
      rewrite lookup_insert_ne by done. split; [congruence|]. done.
    + intros h0 [= <-]. by rewrite lookup_insert_eq.
  - intros h l h0 Hne. cbn. unfold toy_auto. cbn. by rewrite lookup_delete_ne by done.
  - intros h sql l b m l' He. split.
    + destruct (toy_exec_spec _ _ _ _ _ _ He) as [->|(h1 & -> & _ & ->)]; [done|]. intros h0 Hh. split.
      * cbn. destruct (decide (h0 = h1)) as [->|]; [rewrite lookup_alter_eq; by apply fmap_is_Some|by rewrite lookup_alter_ne].
      * intros Hne. rewrite toy_auto_alter, bool_decide_false; [done|]. intros [-> _]. congruence.
    + intros h0 -> ->. unfold sqlite3_exec, toy_sqlite, toy_exec in He.
      repeat case_bool_decide; repeat case_match; simplify_eq; by eexists.
  - intros h sql l b m l' He Hp. destruct (toy_exec_spec _ _ _ _ _ _ He) as [->|(? & _ & Hp' & _)]; congruence.
  - intros h l m l' He Ha. unfold toy_auto in Ha. unfold sqlite3_exec, toy_sqlite, toy_exec in He. cbn in He. by rewrite Ha in He.
  - intros h l m l' He. unfold sqlite3_exec, toy_sqlite, toy_exec in He. cbn in He.
    destruct (default true _) eqn:Ha; [done|]. injection He as <- <-. rewrite toy_auto_alter.
    case_bool_decide as Hb; [done|]. unfold toy_auto. rewrite Ha. exfalso. apply Hb. split; [done|].
    by destruct (handles l !! h); [eexists|].
  - intros h l b m l' He. unfold sqlite3_exec, toy_sqlite, toy_exec in He. cbn in He.
    destruct (default true _) eqn:Ha; injection He as <- <- <-; [done|]. rewrite toy_auto_alter.
    case_bool_decide as Hb; [done|]. unfold toy_auto. rewrite Ha. exfalso. apply Hb. split; [done|].
    by destruct (handles l !! h); [eexists|].
  - intros h sql l s l'. cbn. by intros [= <- <-].
  - by intros s l h0.
  - intros h sql l s l1 r l2 _ _. unfold sqlite3_step, toy_sqlite, toy_step.
    by destruct (stmts l1 !! s) as [[|n]|]; intros [= <- <-].
Defined.

(** ** Witnesses *)

Definition toy_db : Db (Sqlite ToyLib) := new_db 2 5000 (mkTable ∅ (mkToy ∅ ∅)).

Lemma result_set_reads_every_row_witness :
  read_all 5 (fun s l => sqlite3_column_int s 0 l) (mkResultSet 1 true true false) (mkToy ∅ {[1 := 1%nat]}) =
    ([1; 0], mkToy ∅ {[1 := 0%nat]}) /\ IsOk Ok = true.
Proof. exact (result_set_reads_every_row 5 _ 1 true (mkToy ∅ {[1 := 2%nat]}) Ok _ _ eq_refl). Defined.

#[local] Instance toy_driver_instance : Driver (Sqlite ToyLib) := sqlite_driver "test.db".

Lemma sqlite_pool_outside_transactions_witness :
  exists db', db_run [OBegin; OExecute "insert"; OCommit 2; OBegin; OClose 2; OClose 4] toy_db = Ret tt db' /\
    forall c h, c ∈ _pool db' -> _db (conn_of c (drv db')) = Some h -> autocommit h (lib (drv db')) = true.
Proof.
  apply (sqlite_pool_outside_transactions "test.db" _ (mkToy ∅ ∅) toy_db); [by apply new_db_inv|done|reflexivity|reflexivity].
Defined.

(** [ResetState] trusts its own flag: a transaction that a client begins with its own SQL
    is still open in the connection the pool gives to the next client. *)
Theorem raw_begin_is_handed_on :
  exists db' c h, db_run [OExecute "BEGIN;"] toy_db = Ret tt db' /\ _pool db' = [c] /\
    _db (conn_of c (drv db')) = Some h /\ toy_auto h (lib (drv db')) = false.
Proof. do 3 eexists. split; [vm_compute; reflexivity|]. by vm_compute. Qed.
