(* ===== verification/Mysql.v ===== *)
(** * Mysql: the MySQL driver

    Models src/System/Drivers/MySQL/MySQLConnection.cpp and MySQLDriver.cpp over the
    client library, an abstract [Mysql_h]: the connection with its transaction flag, the
    result sets with their current row, the prepared statements with their bound
    parameters, and the address that the driver is created from.  The driver is an
    instance of [Driver] and, by the documented behaviour of the library ([MysqlLaws]), of
    [ResettingDriver].

    A call of the library on a null handle is undefined; the driver interface has [None]
    for it, as for an exception. *)

From Stdlib Require Import Ascii String.
From stdpp Require Import base numbers gmap list strings pretty.
From S2P Require Import Prelude Text Database DbDriver Handles.

#[local] Open Scope Z_scope.

Record MySQLConfig := mkConfig { Host : string; Port : Z; User : string; Password : string; Database : string }.

(** One [MYSQL_BIND]: as it was cleared, or with what its buffer points to. *)
Inductive Bind (dbl : Type) := BIND_CLEARED | TYPE_LONG (v : Z) | TYPE_STRING (s : string) | TYPE_DOUBLE (v : dbl).
Arguments BIND_CLEARED {dbl}.
Arguments TYPE_LONG {dbl} _.
Arguments TYPE_STRING {dbl} _.
Arguments TYPE_DOUBLE {dbl} _.

(** A row: per column its bytes, [None] for NULL. *)
Abbreviation Row := (list (option string)).

(** <mysql/mysql.h>: [L] is the library's state; handles, results and statements are
    numbers, a null pointer is [None]; a call that returns zero gives [true]. *)
Class Mysql_h (L dbl : Type) := {
  mysql_init : L -> option Z * L;
  mysql_real_connect : Z -> MySQLConfig -> L -> bool * L;
  mysql_set_character_set : Z -> string -> L -> L;
  mysql_close : Z -> L -> L;
  mysql_ping : Z -> L -> bool * L;
  mysql_query : Z -> string -> L -> bool * L;
  mysql_store_result : Z -> L -> option Z * L;
  mysql_free_result : Z -> L -> L;
  mysql_field_count : Z -> L -> Z;
  mysql_num_fields : Z -> L -> Z;
  mysql_fetch_row : Z -> L -> option Row * L;
  mysql_fetch_lengths : Z -> L -> option (list Z);
  mysql_error : Z -> L -> string;
  mysql_autocommit : Z -> bool -> L -> bool * L;
  mysql_commit : Z -> L -> bool * L;
  mysql_rollback : Z -> L -> bool * L;
  mysql_stmt_init : Z -> L -> option Z * L;
  mysql_stmt_prepare : Z -> string -> L -> bool * L;
  mysql_stmt_param_count : Z -> L -> Z;
  mysql_stmt_bind_param : Z -> list (Bind dbl) -> L -> bool * L;
  mysql_stmt_execute : Z -> L -> bool * L;
  mysql_stmt_store_result : Z -> L -> bool * L;
  mysql_stmt_error : Z -> L -> string;
  mysql_stmt_close : Z -> L -> L;
  (** <cstdlib>, on doubles *)
  atof : string -> dbl;
  zero : dbl
}.

(** [std::atoi]: [std::strtol] saturates at the bounds of a 64-bit [long], which is then
    cut to an [int]. *)
Definition atoi (s : string) : Z :=
  let '(negative, rest) := split_sign (skip_spaces s) in
  let v := if negative : bool then - digits 0 rest else digits 0 rest in
  i32 (Z.max (- 2 ^ 63) (Z.min (2 ^ 63 - 1) v)).

(** The C string that starts at a buffer. *)
Fixpoint c_str (s : string) : string :=
  match s with
  | EmptyString => EmptyString
  | String a s => if Ascii.eqb a "000" then EmptyString else String a (c_str s)
  end.

(** ** MySQLDriver

    The address that a driver is created from: [host:port;user;password;database].  [None]
    for [pos] is [std::string::npos], [None] as a result an exception. *)

Fixpoint find (ch : ascii) (s : string) : option nat :=
  match s with
  | EmptyString => None
  | String a s => if Ascii.eqb a ch then Some O else S <$> find ch s
  end.

Fixpoint drop_chars (n : nat) (s : string) : string :=
  match n, s with S n, String _ s => drop_chars n s | _, _ => s end.

(** The rest of the address from [pos] is the state. *)
Definition next_token (rest : option string) : option (string * option string) :=
  match rest with
  | None => None
  | Some s => match find ";" s with
              | Some n => Some (String.substring 0 n s, Some (drop_chars (S n) s))
              | None => Some (s, None)
              end
  end.

Definition host_port (hostPort : string) : option (string * Z) :=
  match find ":" hostPort with
  | Some n => p ← stoi (drop_chars (S n) hostPort); Some (String.substring 0 n hostPort, p)
  | None => Some (hostPort, 3306)
  end.

Definition CreateMySQL (dbAddress : string) : option MySQLConfig :=
  '(hostPort, rest) ← next_token (Some dbAddress);
  '(host, port) ← host_port hostPort;
  '(user, rest) ← next_token rest;
  '(password, rest) ← next_token rest;
  '(database, rest) ← next_token rest;
  Some (mkConfig host port user password database).

Definition lacks (ch : ascii) (s : string) : Prop := find ch s = None.

Lemma lacks_cons ch a s : lacks ch (String a s) -> Ascii.eqb a ch = false /\ lacks ch s.
Proof. unfold lacks. cbn [find]. destruct (Ascii.eqb a ch); [done|]. by destruct (find ch s). Qed.

(** Up to the first separator. *)
Lemma find_here ch s t : lacks ch s ->
  find ch (s +:+ String ch t) = Some (String.length s) /\
  String.substring 0 (String.length s) (s +:+ String ch t) = s /\ drop_chars (S (String.length s)) (s +:+ String ch t) = t.
Proof.
  induction s as [|a s IH]; [intros _; change (EmptyString +:+ String ch t) with (String ch t); cbn [find]; rewrite Ascii.eqb_refl; by destruct t|].
  intros [Ha Hs]%lacks_cons. destruct (IH Hs) as (H1 & H2 & H3).
  change (String a s +:+ String ch t) with (String a (s +:+ String ch t)).
  cbn [find String.length String.substring drop_chars]. rewrite Ha, H1, H2. by split_and!.
Qed.

Lemma lacks_app ch s t : lacks ch s -> lacks ch t -> lacks ch (s +:+ t).
Proof.
  induction s as [|a s IH]; [done|]. intros [Ha Hs]%lacks_cons Ht. unfold lacks.
  change (String a s +:+ t) with (String a (s +:+ t)). cbn [find]. rewrite Ha. by rewrite IH.
Qed.

Lemma lacks_digits ch s : all_digits s -> digit ch = None -> lacks ch s.
Proof.
  intros Hd Hch. unfold all_digits in Hd. induction s as [|a s IH]; [done|]. cbn in Hd. apply Forall_cons in Hd as [Ha Hs].
  unfold lacks. cbn [find]. rewrite (IH Hs). destruct (Ascii.eqb_spec a ch) as [->|]; [|done]. rewrite Hch in Ha. by destruct Ha.
Qed.

Lemma lacks_pretty (z : Z) ch : digit ch = None -> Ascii.eqb "-" ch = false -> lacks ch (pretty z).
Proof.
  intros Hd Hm. destruct z as [|p|p].
  - unfold lacks. change (pretty 0) with "0". cbn [find]. destruct (Ascii.eqb_spec "0" ch) as [<-|]; [by vm_compute in Hd|done].
  - destruct (pretty_pos p) as (a & s & -> & _ & _ & Ha). by apply lacks_digits.
  - change (pretty (Z.neg p)) with ("-" +:+ (pretty (Z.pos p) : string)). destruct (pretty_pos p) as (a & s & -> & _ & _ & Ha).
    unfold lacks. change ("-" +:+ String a s) with (String "-" (String a s)). cbn [find]. rewrite Hm. by rewrite (lacks_digits ch (String a s)).
Qed.

Lemma next_token_here s t : lacks ";" s -> next_token (Some (s +:+ String ";" t)) = Some (s, Some t).
Proof. intros Hs. destruct (find_here ";" s t Hs) as (H1 & H2 & H3). unfold next_token. rewrite H1. by rewrite H2, H3. Qed.

Lemma next_token_last s : lacks ";" s -> next_token (Some s) = Some (s, None).
Proof. unfold lacks, next_token. by intros ->. Qed.

Lemma host_port_here host (port : Z) : lacks ":" host -> - 2 ^ 31 <= port < 2 ^ 31 ->
  host_port (host +:+ String ":" (pretty port)) = Some (host, port).
Proof.
  intros Hh Hp. destruct (find_here ":" host (pretty port) Hh) as (H1 & H2 & H3). unfold host_port. rewrite H1.
  by rewrite H2, H3, stoi_pretty.
Qed.

Lemma substring_all s : String.substring 0 (String.length s) s = s.
Proof. induction s as [|a s IH]; [done|]. cbn. by rewrite IH. Qed.

Definition mysql_address (c : MySQLConfig) : string :=
  Host c +:+ ":" +:+ (pretty (Port c) +:+ ";" +:+ (User c +:+ ";" +:+ (Password c +:+ ";" +:+ Database c))).

(** An address is read back as it was written: whatever the fields, as long as none of
    them contains the separators that are looked for in it; the port can be any [int]. *)
Theorem mysql_address_roundtrip c (Hport : - 2 ^ 31 <= Port c < 2 ^ 31) (Hhost : lacks ":" (Host c) /\ lacks ";" (Host c))
  (Huser : lacks ";" (User c)) (Hpassword : lacks ";" (Password c)) (Hdb : lacks ";" (Database c)) :
  CreateMySQL (mysql_address c) = Some c.
Proof.
  destruct c as [host port user password db]. cbn [Host Port User Password Database] in *. destruct Hhost as [Hh1 Hh2]. unfold CreateMySQL, mysql_address.
  cbn [Host Port User Password Database].
  assert (host +:+ ":" +:+ (pretty port +:+ ";" +:+ (user +:+ ";" +:+ (password +:+ ";" +:+ db))) =
    (host +:+ String ":" (pretty port)) +:+ String ";" (user +:+ String ";" (password +:+ String ";" db))) as ->.
  { rewrite string_app_assoc. done. }
  rewrite next_token_here.
  2: { apply lacks_app; [done|]. unfold lacks. cbn [find]. by rewrite (lacks_pretty port ";"). }
  cbn [mbind option_bind]. rewrite host_port_here by done. cbn [mbind option_bind]. rewrite next_token_here by done.
  cbn [mbind option_bind]. rewrite next_token_here by done. cbn [mbind option_bind]. by rewrite next_token_last.
Qed.

Section Mysql.
Context {L dbl : Type} `{!Mysql_h L dbl}.

(** ** MySQLResultSet *)

Record MySQLResultSet := mkResultSet {
  _res : option Z; _currentRow : option Row; _lengths : option (list Z); _numFields : Z
}.

Definition MySQLResultSet_new (res : option Z) (lib : L) : MySQLResultSet :=
  mkResultSet res None None (match res with Some r => mysql_num_fields r lib | None => 0 end).

Definition destroy_result_set (rs : MySQLResultSet) (lib : L) : L :=
  match _res rs with Some r => mysql_free_result r lib | None => lib end.

Definition Next (rs : MySQLResultSet) (lib : L) : bool * MySQLResultSet * L :=
  match _res rs with
  | None => (false, rs, lib)
  | Some r =>
      let '(row, lib) := mysql_fetch_row r lib in
      (bool_decide (is_Some row), mkResultSet (_res rs) row (mysql_fetch_lengths r lib) (_numFields rs), lib)
  end.

(** Reading [_currentRow[idx]]: [None] outside of the row that the library gave. *)
Definition column (row : Row) (idx : Z) : option (option string) :=
  if idx <? 0 then None else row !! Z.to_nat idx.

Definition no_column (idx : Z) (rs : MySQLResultSet) : bool := (idx <? 0) || (i32 (_numFields rs) <=? idx).

Definition GetInt (idx : Z) (rs : MySQLResultSet) : option Z :=
  match _currentRow rs with
  | None => Some 0
  | Some row =>
      if no_column idx rs then Some 0 else
      col ← column row idx;
      Some (match col with Some s => atoi s | None => 0 end)
  end.

Definition GetString (idx : Z) (rs : MySQLResultSet) : option string :=
  match _currentRow rs with
  | None => Some EmptyString
  | Some row =>
      if no_column idx rs then Some EmptyString else
      col ← column row idx;
      match col with
      | None => Some EmptyString
      | Some s => match _lengths rs with
                  | Some lengths => len ← lengths !! Z.to_nat idx; Some (String.substring 0 (Z.to_nat len) s)
                  | None => Some (c_str s)
                  end
      end
  end.

Definition GetDouble (idx : Z) (rs : MySQLResultSet) : option dbl :=
  match _currentRow rs with
  | None => Some zero
  | Some row =>
      if no_column idx rs then Some zero else
      col ← column row idx;
      Some (match col with Some s => atof s | None => zero end)
  end.

(** ** MySQLPreparedStatement *)

Record MySQLPreparedStatement := mkStatement { _stmt : Z; _paramCount : Z; _binds : list (Bind dbl) }.

Definition MySQLPreparedStatement_new (stmt paramCount : Z) : MySQLPreparedStatement :=
  mkStatement stmt paramCount (replicate (Z.to_nat paramCount) BIND_CLEARED).

Definition bind_at (idx : Z) (b : Bind dbl) (p : MySQLPreparedStatement) : DbStatus * MySQLPreparedStatement :=
  if (idx <? 0) || (_paramCount p <=? idx) then (Error "Invalid parameter index", p)
  else (Ok, mkStatement (_stmt p) (_paramCount p) (<[Z.to_nat idx := b]> (_binds p))).

Definition BindInt (idx val : Z) := bind_at idx (TYPE_LONG val).
Definition BindString (idx : Z) (val : string) := bind_at idx (TYPE_STRING val).
Definition BindDouble (idx : Z) (val : dbl) := bind_at idx (TYPE_DOUBLE val).

(** The parameters, if there are any. *)
Definition bind_params (p : MySQLPreparedStatement) (lib : L) : bool * L :=
  if 0 <? _paramCount p then mysql_stmt_bind_param (_stmt p) (_binds p) lib else (true, lib).

(** The result cannot be read: also a query that succeeds is answered with an error. *)
Definition ExecuteQuery (p : MySQLPreparedStatement) (lib : L) : DbStatus * option MySQLResultSet * L :=
  let failed lib := (mkStatus DB_ERROR (mysql_stmt_error (_stmt p) lib), None, lib) in
  let '(ok, lib) := bind_params p lib in
  if negb ok then failed lib else
  let '(ok, lib) := mysql_stmt_execute (_stmt p) lib in
  if negb ok then failed lib else
  let '(ok, lib) := mysql_stmt_store_result (_stmt p) lib in
  if negb ok then failed lib else
  (mkStatus DB_ERROR "PreparedStatement ExecuteQuery not fully implemented. Use Query() for SELECT statements.", None, lib).

Definition ExecuteUpdate (p : MySQLPreparedStatement) (lib : L) : DbStatus * L :=
  let '(ok, lib) := bind_params p lib in
  if negb ok then (Error (mysql_stmt_error (_stmt p) lib), lib) else
  let '(ok, lib) := mysql_stmt_execute (_stmt p) lib in
  if negb ok then (Error (mysql_stmt_error (_stmt p) lib), lib) else (Ok, lib).

Definition destroy_statement (p : MySQLPreparedStatement) (lib : L) : L := mysql_stmt_close (_stmt p) lib.

(** ** MySQLConnection *)

Record MySQLConnection := mkConn { _mysql : option Z; _isConnected : bool; _inTransaction : bool }.

Definition MySQLConnection_new : MySQLConnection := mkConn None false false.

Definition set_tx (b : bool) (c : MySQLConnection) : MySQLConnection := mkConn (_mysql c) (_isConnected c) b.

Definition IsConnected (c : MySQLConnection) : bool := _isConnected c && bool_decide (is_Some (_mysql c)).

(** The handle of an earlier connection is overwritten, not closed. *)
Definition Connect (config : MySQLConfig) (c : MySQLConnection) (lib : L) : bool * MySQLConnection * L :=
  match mysql_init lib with
  | (None, lib) => (false, mkConn None (_isConnected c) (_inTransaction c), lib)
  | (Some h, lib) =>
      match mysql_real_connect h config lib with
      | (false, lib) => (false, mkConn None (_isConnected c) (_inTransaction c), mysql_close h lib)
      | (true, lib) => (true, mkConn (Some h) true (_inTransaction c), mysql_set_character_set h "utf8mb4" lib)
      end
  end.

Definition Disconnect (c : MySQLConnection) (lib : L) : MySQLConnection * L :=
  (MySQLConnection_new, match _mysql c with Some h => mysql_close h lib | None => lib end).

(** The handle of a connected connection. *)
Definition connected (c : MySQLConnection) : option Z := if _isConnected c then _mysql c else None.

Definition Ping (c : MySQLConnection) (lib : L) : bool * L :=
  match connected c with Some h => mysql_ping h lib | None => (false, lib) end.

Definition Execute (sql : string) (c : MySQLConnection) (lib : L) : DbStatus * L :=
  match connected c with
  | None => (Error "Not connected", lib)
  | Some h =>
      match mysql_query h (c_str sql) lib with
      | (false, lib) => (Error (mysql_error h lib), lib)
      | (true, lib) =>
          match mysql_store_result h lib with
          | (Some res, lib) => (Ok, mysql_free_result res lib)
          | (None, lib) => (Ok, lib)
          end
      end
  end.

Definition Query (sql : string) (c : MySQLConnection) (lib : L) : DbStatus * option MySQLResultSet * L :=
  match connected c with
  | None => (mkStatus DB_CONNECTION_FAILURE "Not connected", None, lib)
  | Some h =>
      match mysql_query h (c_str sql) lib with
      | (false, lib) => (mkStatus DB_INVALID_QUERY (mysql_error h lib), None, lib)
      | (true, lib) =>
          match mysql_store_result h lib with
          | (Some res, lib) => (Ok, Some (MySQLResultSet_new (Some res) lib), lib)
          | (None, lib) =>
              if mysql_field_count h lib =? 0 then (mkStatus DB_ERROR "No result set for query", None, lib)
              else (mkStatus DB_ERROR (mysql_error h lib), None, lib)
          end
      end
  end.

Definition Prepare (sql : string) (c : MySQLConnection) (lib : L) : DbStatus * option MySQLPreparedStatement * L :=
  match connected c with
  | None => (mkStatus DB_CONNECTION_FAILURE "Not connected", None, lib)
  | Some h =>
      match mysql_stmt_init h lib with
      | (None, lib) => (mkStatus DB_ERROR "mysql_stmt_init failed", None, lib)
      | (Some stmt, lib) =>
          match mysql_stmt_prepare stmt sql lib with
          | (false, lib) => (mkStatus DB_INVALID_QUERY (mysql_stmt_error stmt lib), None, mysql_stmt_close stmt lib)
          | (true, lib) => (Ok, Some (MySQLPreparedStatement_new stmt (i32 (mysql_stmt_param_count stmt lib))), lib)
          end
      end
  end.

(** These three do not look whether there is a connection. *)
Definition BeginTransaction (c : MySQLConnection) (lib : L) : option DbStatus * MySQLConnection * L :=
  if _inTransaction c then (Some (mkStatus DB_TRANSACTION_ACTIVE "Transaction already active"), c, lib) else
  match _mysql c with
  | None => (None, c, lib)
  | Some h =>
      match mysql_autocommit h false lib with
      | (false, lib) => (Some (Error (mysql_error h lib)), c, lib)
      | (true, lib) => (Some Ok, set_tx true c, lib)
      end
  end.

Definition Commit (c : MySQLConnection) (lib : L) : option DbStatus * MySQLConnection * L :=
  if negb (_inTransaction c) then (Some (Error "No active transaction"), c, lib) else
  match _mysql c with
  | None => (None, c, lib)
  | Some h =>
      match mysql_commit h lib with
      | (false, lib) => (Some (Error (mysql_error h lib)), c, lib)
      | (true, lib) => let '(_, lib) := mysql_autocommit h true lib in (Some Ok, set_tx false c, lib)
      end
  end.

(** The flag goes, and autocommit comes back, also when the rollback failed. *)
Definition Rollback (c : MySQLConnection) (lib : L) : option DbStatus * MySQLConnection * L :=
  if negb (_inTransaction c) then (Some (Error "No active transaction"), c, lib) else
  match _mysql c with
  | None => (None, c, lib)
  | Some h =>
      match mysql_rollback h lib with
      | (false, lib) =>
          let err := mysql_error h lib in
          let '(_, lib) := mysql_autocommit h true lib in (Some (Error err), set_tx false c, lib)
      | (true, lib) => let '(_, lib) := mysql_autocommit h true lib in (Some Ok, set_tx false c, lib)
      end
  end.

Definition ResetState (c : MySQLConnection) (lib : L) : MySQLConnection * L :=
  if _inTransaction c then let '(_, c, lib) := Rollback c lib in (c, lib) else (c, lib).

(** ** The driver *)

#[export] Instance mysql_handled : Handled MySQLConnection :=
  {| new_conn := MySQLConnection_new; handle_of := _mysql; in_tx := _inTransaction; new_has_no_handle := eq_refl |}.

(** The connections by identity, and the library. *)
Definition Mysql : Type := Table MySQLConnection L.

Context (config : MySQLConfig).

(** The calls of one connection; the objects that [Query] and [Prepare] make go into the
    facade's wrappers. *)
Definition mysql_bool (k : ConnCall) (c : Z) (d : Mysql) : bool * Mysql :=
  match k with
  | CallConnect => let '(b, x, l) := Connect config (conn_of c d) (lib d) in (b, put c x l d)
  | CallPing => let '(b, l) := Ping (conn_of c d) (lib d) in (b, put c (conn_of c d) l d)
  | _ => (false, d)
  end.

Definition mysql_void (k : ConnCall) (c : Z) (d : Mysql) : Mysql :=
  match k with
  | CallDisconnect => let '(x, l) := Disconnect (conn_of c d) (lib d) in put c x l d
  | CallResetState => let '(x, l) := ResetState (conn_of c d) (lib d) in put c x l d
  | _ => d
  end.

Definition mysql_status (k : ConnCall) (c : Z) (d : Mysql) : option DbStatus * Mysql :=
  match k with
  | CallExecute sql => let '(s, l) := Execute sql (conn_of c d) (lib d) in (Some s, put c (conn_of c d) l d)
  | CallBegin => let '(s, x, l) := BeginTransaction (conn_of c d) (lib d) in (s, put c x l d)
  | CallCommit => let '(s, x, l) := Commit (conn_of c d) (lib d) in (s, put c x l d)
  | CallRollback => let '(s, x, l) := Rollback (conn_of c d) (lib d) in (s, put c x l d)
  | _ => (None, d)
  end.

Definition mysql_result (k : ConnCall) (c : Z) (d : Mysql) : option (DbStatus * bool) * Mysql :=
  match k with
  | CallQuery sql => let '(s, r, l) := Query sql (conn_of c d) (lib d) in
                     (Some (s, bool_decide (is_Some r)), put c (conn_of c d) l d)
  | CallPrepare sql => let '(s, r, l) := Prepare sql (conn_of c d) (lib d) in
                       (Some (s, bool_decide (is_Some r)), put c (conn_of c d) l d)
  | _ => (None, d)
  end.

Definition mysql_driver : Driver Mysql := {|
  CreateConnection d := (true, d);
  Database.IsConnected c d := IsConnected (conn_of c d);
  conn_bool := mysql_bool;
  conn_void := mysql_void;
  conn_status := mysql_status;
  conn_result := mysql_result
|}.

(** ** What a client leaves in a connection *)

(** What there is to say about a handle: [lost] if its connection to the server is gone,
    and with it all that was open there. *)
Class MysqlState := {
  (** SQL that neither begins nor ends a transaction. *)
  plain_sql : string -> bool;
  is_open : Z -> L -> Prop;
  autocommit : Z -> L -> bool;
  lost : Z -> L -> bool
}.

Context `{!MysqlState}.

(** Nothing is pending on the server. *)
Definition settled (h : Z) (l : L) : Prop := autocommit h l = true \/ lost h l = true.

Abbreviation mysql_sane := (table_sane is_open settled).
Abbreviation leaves := (leaves is_open settled).

(** Nothing happens to other handles than [h]; nothing is left pending. *)
Abbreviation others h := (leaves (fun h0 => h0 <> h)).
Abbreviation all := (leaves (fun _ => True)).

Class MysqlLaws := {
  init_law : forall l h l', mysql_init l = (h, l') -> all l l' /\ (forall h0, is_open h0 l -> Some h0 <> h);
  connect_law : forall h cfg l b l', mysql_real_connect h cfg l = (b, l') ->
    all l l' /\ (b = true -> is_open h l' /\ autocommit h l' = true /\ lost h l' = false);
  charset_law : forall h s l, all l (mysql_set_character_set h s l) /\
    forall h0, autocommit h0 (mysql_set_character_set h s l) = autocommit h0 l;
  close_law : forall h l h0, h0 <> h -> is_open h0 l ->
    is_open h0 (mysql_close h l) /\ (settled h0 l -> settled h0 (mysql_close h l));
  (** A ping that is answered came from the server. *)
  ping_law : forall h l b l', mysql_ping h l = (b, l') -> all l l' /\ (b = true -> lost h l' = false);
  query_law : forall h sql l b l', mysql_query h sql l = (b, l') ->
    others h l l' /\ (plain_sql sql = true -> all l l');
  store_law : forall h l r l', mysql_store_result h l = (r, l') -> all l l';
  free_law : forall r l, all l (mysql_free_result r l);
  (** Changing the mode succeeds unless the connection is lost. *)
  autocommit_law : forall h b l ok l', mysql_autocommit h b l = (ok, l') ->
    others h l l' /\ (if ok : bool then autocommit h l' = b else lost h l' = true);
  commit_law : forall h l b l', mysql_commit h l = (b, l') -> all l l';
  rollback_law : forall h l b l', mysql_rollback h l = (b, l') -> all l l';
  stmt_init_law : forall h l s l', mysql_stmt_init h l = (s, l') -> all l l';
  stmt_prepare_law : forall s sql l b l', mysql_stmt_prepare s sql l = (b, l') -> all l l';
  stmt_close_law : forall s l, all l (mysql_stmt_close s l)
}.

Context `{!MysqlLaws}.

Lemma connected_handle c h : connected c = Some h -> _mysql c = Some h.
Proof. unfold connected. by destruct (_isConnected c). Qed.

Lemma mysql_sane_bool k c (d : Mysql) : mysql_sane d -> mysql_sane (mysql_bool k c d).2.
Proof.
  intros Hs. destruct k; try exact Hs; cbn.
  - unfold Connect. destruct (mysql_init (lib d)) as [h l1] eqn:Ei. destruct (init_law _ _ _ Ei) as [Hi Hne].
    assert (forall x l, (forall h0, is_open h0 l1 -> Some h0 <> h -> is_open h0 l /\ (settled h0 l1 -> settled h0 l)) ->
      (forall h0, _mysql x = Some h0 -> h = Some h0 /\ is_open h0 l /\ settled h0 l) -> mysql_sane (put c x l d)) as Hgo.
    { intros x l Ho Hx. apply sane_connect; [done| |].
      - intros c0 h0 _ Hh. destruct Hs as [Hok _]. destruct (Hok c0 h0 Hh) as [H1 _]. destruct (Hi h0 H1) as [H2 H3].
        destruct (Ho h0 H2 (Hne h0 H1)) as [H4 H5]. split_and!; [|done|auto].
        intros Heq. symmetry in Heq. destruct (Hx h0 Heq) as [E _]. by apply (Hne h0).
      - intros h0 Hh. by destruct (Hx h0 Hh). }
    destruct h as [h|]; [|by apply Hgo].
    destruct (mysql_real_connect h config l1) as [b l2] eqn:Ec. destruct (connect_law _ _ _ _ _ Ec) as [Hc Hb].
    destruct b; apply Hgo; try done.
    + intros h0 H1 _. destruct (Hc h0 H1) as [H2 H3]. destruct (proj1 (charset_law h "utf8mb4" l2) h0 H2). auto.
    + intros h0 [= <-]. destruct (Hb eq_refl) as (Hopen & Ha & _). destruct (proj1 (charset_law h "utf8mb4" l2) h Hopen) as [H4 H5].
      split_and!; [done..|]. apply H5; [done|by left].
    + intros h0 H1 Hn. destruct (Hc h0 H1) as [H2 H3]. destruct (close_law h l2 h0); [congruence|done|]. auto.
  - unfold Ping. destruct (connected _) as [h|] eqn:Eh; [|apply sane_same; [done|apply leaves_refl]].
    destruct (mysql_ping h (lib d)) as [b l] eqn:Ep. apply sane_same; [done|]. by eapply ping_law.
Qed.

(** A call on the handle of [c], whatever it does to the flag. *)
Lemma sane_on_handle c x l h (d : Mysql) : mysql_sane d -> _mysql (conn_of c d) = Some h -> _mysql x = Some h ->
  others h (lib d) l -> (_inTransaction x = false -> settled h l) -> mysql_sane (put c x l d).
Proof.
  intros Hs Hh Hx Ho Hc. apply sane_put; [done|cbn; congruence| |].
  - cbn. rewrite Hx. eapply leaves_weaken; [|exact Ho]. cbn. congruence.
  - cbn. rewrite Hx. by intros h0 [= <-].
Qed.

Lemma autocommit_on h l ok l' : mysql_autocommit h true l = (ok, l') -> others h l l' /\ settled h l'.
Proof. intros He. destruct (autocommit_law _ _ _ _ _ He) as [Ho Ha]. split; [done|]. by destruct ok; [left|right]. Qed.

Lemma mysql_sane_rollback_call c (d : Mysql) s x l : mysql_sane d -> Rollback (conn_of c d) (lib d) = (s, x, l) ->
  mysql_sane (put c x l d).
Proof.
  intros Hs. unfold Rollback. destruct (_inTransaction (conn_of c d)) eqn:Et; cbn [negb];
    [|intros [= _ <- <-]; apply sane_same; [done|apply leaves_refl]].
  destruct (_mysql (conn_of c d)) as [h|] eqn:Eh; [|intros [= _ <- <-]; apply sane_same; [done|apply leaves_refl]].
  destruct (mysql_rollback h (lib d)) as [b l1] eqn:Er. pose proof (rollback_law _ _ _ _ Er) as Hr.
  destruct (mysql_autocommit h true l1) as [ok l2] eqn:Ea. destruct (autocommit_on _ _ _ _ Ea) as [Ho Hc].
  assert (mysql_sane (put c (set_tx false (conn_of c d)) l2 d)) as Hgo.
  { eapply sane_on_handle; [done|done|done| |done]. eapply leaves_trans; [by eapply leaves_weaken; [|exact Hr]|done]. }
  destruct b; by intros [= _ <- <-].
Qed.

Lemma mysql_sane_void k c (d : Mysql) : mysql_sane d -> mysql_sane (mysql_void k c d).
Proof.
  intros Hs. destruct k; try exact Hs; cbn.
  - apply sane_connect; [done| |done]. intros c0 h Hne Hh. split; [done|]. destruct Hs as [Hok Hinj].
    destruct (Hok c0 h Hh) as [H1 _]. destruct (_mysql (conn_of c d)) as [h1|] eqn:E1; [|done].
    apply close_law; [|done]. intros ->. apply Hne. by apply (Hinj c0 c h1).
  - unfold ResetState. destruct (_inTransaction (conn_of c d)); [|apply sane_same; [done|apply leaves_refl]].
    destruct (Rollback _ _) as [[s x] l] eqn:Er. by eapply mysql_sane_rollback_call.
Qed.

(** Sending plain SQL, and fetching its result. *)
Lemma sql_leaves sql h l b l1 : plain_sql (c_str sql) = true -> mysql_query h (c_str sql) l = (b, l1) ->
  all l l1 /\ forall r l2, mysql_store_result h l1 = (r, l2) -> all l l2.
Proof.
  intros Hp Hq. destruct (query_law _ _ _ _ _ Hq) as [_ Ha]. specialize (Ha Hp). split; [done|].
  intros r l2 Hst. eapply leaves_trans; [exact Ha|by eapply store_law].
Qed.

Lemma mysql_sane_execute sql c (d : Mysql) : plain_sql (c_str sql) = true -> mysql_sane d ->
  mysql_sane (mysql_status (CallExecute sql) c d).2.
Proof.
  intros Hp Hs. cbn. unfold Execute. destruct (connected _) as [h|]; [|apply sane_same; [done|apply leaves_refl]].
  destruct (mysql_query h (c_str sql) (lib d)) as [b l1] eqn:Eq. destruct (sql_leaves _ _ _ _ _ Hp Eq) as [H1 H2].
  destruct b; [|by apply sane_same]. destruct (mysql_store_result h l1) as [[res|] l2] eqn:Est; apply sane_same; try done;
    [eapply leaves_trans; [by eapply H2|apply free_law]|by eapply H2].
Qed.

Lemma mysql_sane_query sql c (d : Mysql) : plain_sql (c_str sql) = true -> mysql_sane d ->
  mysql_sane (mysql_result (CallQuery sql) c d).2.
Proof.
  intros Hp Hs. cbn. unfold Query. destruct (connected _) as [h|]; [|apply sane_same; [done|apply leaves_refl]].
  destruct (mysql_query h (c_str sql) (lib d)) as [b l1] eqn:Eq. destruct (sql_leaves _ _ _ _ _ Hp Eq) as [H1 H2].
  destruct b; [|by apply sane_same]. destruct (mysql_store_result h l1) as [[res|] l2] eqn:Est; [by apply sane_same; [|eapply H2]|].
  destruct (_ =? 0); (apply sane_same; [done|by eapply H2]).
Qed.

Lemma mysql_sane_prepare sql c (d : Mysql) : mysql_sane d -> mysql_sane (mysql_result (CallPrepare sql) c d).2.
Proof.
  intros Hs. cbn. unfold Prepare. destruct (connected _) as [h|]; [|apply sane_same; [done|apply leaves_refl]].
  destruct (mysql_stmt_init h (lib d)) as [[stmt|] l1] eqn:Ei; pose proof (stmt_init_law _ _ _ _ Ei) as H1; [|by apply sane_same].
  destruct (mysql_stmt_prepare stmt sql l1) as [b l2] eqn:Ep. pose proof (stmt_prepare_law _ _ _ _ _ Ep) as H2.
  assert (all (lib d) l2) as H3 by (by eapply leaves_trans).
  destruct b; (apply sane_same; [done|]); [done|]. eapply leaves_trans; [exact H3|apply stmt_close_law].
Qed.

Lemma mysql_sane_begin c (d : Mysql) : mysql_sane d -> mysql_sane (mysql_status CallBegin c d).2.
Proof.
  intros Hs. cbn. unfold BeginTransaction. destruct (_inTransaction _) eqn:Et; [apply sane_same; [done|apply leaves_refl]|].
  destruct (_mysql (conn_of c d)) as [h|] eqn:Eh; [|apply sane_same; [done|apply leaves_refl]].
  destruct (mysql_autocommit h false (lib d)) as [ok l] eqn:Ea. destruct (autocommit_law _ _ _ _ _ Ea) as [Ho Hl].
  destruct ok; (eapply sane_on_handle; [done|done|done|done|]); [done|]. intros _. by right.
Qed.

Lemma mysql_sane_commit c (d : Mysql) : mysql_sane d -> mysql_sane (mysql_status CallCommit c d).2.
Proof.
  intros Hs. cbn. unfold Commit. destruct (_inTransaction _) eqn:Et; cbn [negb]; [|apply sane_same; [done|apply leaves_refl]].
  destruct (_mysql (conn_of c d)) as [h|] eqn:Eh; [|apply sane_same; [done|apply leaves_refl]].
  destruct (mysql_commit h (lib d)) as [b l1] eqn:Ec. pose proof (commit_law _ _ _ _ Ec) as Hc. destruct b; [|by apply sane_same].
  destruct (mysql_autocommit h true l1) as [ok l2] eqn:Ea. destruct (autocommit_on _ _ _ _ Ea) as [Ho Hl].
  eapply sane_on_handle; [done|done|done| |done]. eapply leaves_trans; [by eapply leaves_weaken; [|exact Hc]|done].
Qed.

Lemma mysql_sane_rollback c (d : Mysql) : mysql_sane d -> mysql_sane (mysql_status CallRollback c d).2.
Proof. intros Hs. cbn. destruct (Rollback _ _) as [[s x] l] eqn:Er. by eapply mysql_sane_rollback_call. Qed.

Lemma mysql_idle_reset c (d : Mysql) : mysql_sane d -> table_idle c (mysql_void CallResetState c d).
Proof.
  intros _. cbn. unfold ResetState. destruct (_inTransaction (conn_of c d)) eqn:Et; [|apply idle_put_same; by left].
  unfold Rollback. rewrite Et. cbn [negb]. destruct (_mysql (conn_of c d)) as [h|] eqn:Eh; [|apply idle_put_same; by right].
  destruct (mysql_rollback h (lib d)) as [[] l1]; destruct (mysql_autocommit h true l1); apply idle_put_same; by left.
Qed.

#[local] Existing Instance mysql_driver.

#[export] Instance mysql_resetting : ResettingDriver Mysql.
Proof.
  refine {| plain sql := plain_sql (c_str sql); sane := mysql_sane; idle_ok := table_idle |}.
  - done.
  - apply mysql_sane_bool.
  - apply mysql_sane_void.
  - apply mysql_sane_execute.
  - apply mysql_sane_begin.
  - apply mysql_sane_commit.
  - apply mysql_sane_rollback.
  - apply mysql_sane_query.
  - intros sql c d _. apply mysql_sane_prepare.
  - apply mysql_idle_reset.
  - done.
  - intros k c c' d [Hne| ->] _ Hi; [destruct k; idle_elsewhere|]. cbn. destruct (Ping _ _) as [b l].
    destruct (decide (c = c')) as [->|]; [|by apply idle_put]. by apply idle_put_same.
  - intros c c' d _ Hi. cbn. destruct (decide (c = c')) as [->|Hne]; [|by apply idle_put]. apply idle_put_same. by left.
  - intros k c c' d Hne _ Hi. destruct k; idle_elsewhere.
  - intros k c c' d Hne _ Hi. destruct k; idle_elsewhere.
  - intros k c c' d Hne _ Hi. destruct k; idle_elsewhere.
Defined.

Lemma mysql_has_value k c (d : Mysql) s b d' : conn_result k c d = (Some (s, b), d') -> IsOk s = true -> b = true.
Proof.
  destruct k; try done; cbn.
  - unfold Query. intros E Hok. by repeat case_match; simplify_eq/=.
  - unfold Prepare. intros E Hok. by repeat case_match; simplify_eq/=.
Qed.

(** A connection that is connected and in autocommit mode. *)
Definition fresh_conn (c : Z) (d : Mysql) : Prop :=
  exists h, connected (conn_of c d) = Some h /\ autocommit h (lib d) = true.

Lemma connect_fresh c (d d' : Mysql) : sane d -> conn_bool CallConnect c d = (true, d') -> fresh_conn c d'.
Proof.
  intros _. cbn. unfold Connect. destruct (mysql_init (lib d)) as [[h|] l1]; [|done].
  destruct (mysql_real_connect h config l1) as [[] l2] eqn:Ec; [|done]. intros [= <-]. destruct (connect_law _ _ _ _ _ Ec) as [_ Hb].
  exists h. rewrite conn_of_put, bool_decide_true by done. split; [done|]. cbn.
  rewrite (proj2 (charset_law h "utf8mb4" l2)). by apply Hb.
Qed.

Lemma ping_fresh c (d d' : Mysql) : sane d -> idle_ok c d -> conn_bool CallPing c d = (true, d') -> fresh_conn c d'.
Proof.
  intros Hs Hi. cbn. unfold Ping. destruct (connected (conn_of c d)) as [h|] eqn:Eh; [|done].
  destruct (mysql_ping h (lib d)) as [b l] eqn:Ep. intros [= -> <-]. exists h. rewrite conn_of_put, bool_decide_true by done.
  split; [done|]. destruct (ping_law _ _ _ _ Ep) as [Ha Hb]. apply connected_handle in Eh.
  destruct (proj1 Hs c h Eh) as [Ho _]. destruct (Ha h Ho) as [_ Hc].
  destruct (Hc I (idle_clean is_open settled c h d Hs Hi Eh)) as [|Hlost]; [done|]. by rewrite Hb in Hlost.
Qed.

(** C20: No transaction is handed on: whatever its clients do with a pool of MySQL
    connections, provided their own SQL does not begin or end transactions, every
    connection that [Acquire] then hands out, pooled or new, has a handle of the library
    and that handle is in autocommit mode, also when commits, rollbacks or changes of the
    mode failed and connections to the server were lost meanwhile. *)
Theorem mysql_hands_out_autocommit ops l db (Hinv : db_inv [] db) (Htimeout : _defaultTimeoutMs db <> -1)
  (Hplain : forallb op_plain ops = true) (Hdrv : drv db = mkTable ∅ l) :
  exists db1, db_run ops db = Ret tt db1 /\
    forall t c db2, Acquire t db1 = Ret (Some c) db2 ->
      exists h, connected (conn_of c (drv db2)) = Some h /\ autocommit h (lib (drv db2)) = true.
Proof.
  assert (linked db) as Hl.
  { unfold linked. rewrite Hdrv. split; [apply table_sane_new|]. intros c _. by left. }
  destruct (idle_connections_are_clean mysql_has_value ops db Hinv Htimeout Hplain Hl) as (db1 & Hr & _).
  exists db1. split; [done|]. intros t c db2.
  apply (run_then_acquire_vets fresh_conn connect_fresh (fun c d d' Hs Hi _ => ping_fresh c d d' Hs Hi) mysql_has_value ops db);
    [exact Hinv|exact Htimeout|exact Hplain|exact Hl|exact Hr].
Qed.

(** ** Rows *)

(** Reading a column never leaves the row, and gives the bytes that the server sent, NUL
    characters included; NULL, a column that does not exist, and reading before the first
    [Next] give the empty string.  The hypotheses are what the library documents of a
    row: a value for each field, and the lengths of the values. *)
Theorem row_reads_its_columns rs r lib row lib' rs' idx (Hres : _res rs = Some r)
  (Hrow : mysql_fetch_row r lib = (Some row, lib'))
  (Hfields : _numFields rs = Z.of_nat (List.length row)) (Hfew : _numFields rs < 2 ^ 31)
  (Hlengths : mysql_fetch_lengths r lib' = Some (map (fun v => Z.of_nat (String.length (default EmptyString v))) row)) :
  Next rs lib = (true, rs', lib') ->
  GetString idx rs' = Some (default EmptyString (if idx <? 0 then None else mjoin (row !! Z.to_nat idx))) /\
  is_Some (GetInt idx rs') /\ is_Some (GetDouble idx rs').
Proof.
  unfold Next. rewrite Hres, Hrow, Hlengths. intros [= <-]. unfold GetString, GetInt, GetDouble, no_column, column. cbn [_currentRow _lengths _numFields].
  rewrite swrap_small by lia. destruct (Z.ltb_spec idx 0) as [Hneg|Hpos]; cbn [orb]; [done|].
  destruct (Z.leb_spec (_numFields rs) idx) as [Hout|Hin].
  { assert (row !! Z.to_nat idx = None) as -> by (apply lookup_ge_None_2; lia). done. }
  destruct (lookup_lt_is_Some_2 row (Z.to_nat idx)) as [v Hv]; [lia|]. rewrite Hv. cbn. split; [|done].
  destruct v as [v|]; [|done]. cbn. rewrite list_lookup_fmap, Hv. cbn. by rewrite Nat2Z.id, substring_all.
Qed.

(** ** Prepared statements *)

(** The calls [Bind...(0, v0); Bind...(1, v1); ...]. *)
Fixpoint bind_all (idx : Z) (vs : list (Bind dbl)) (p : MySQLPreparedStatement) : list DbStatus * MySQLPreparedStatement :=
  match vs with
  | [] => ([], p)
  | v :: vs =>
      let '(s, p) := bind_at idx v p in
      let '(l, p) := bind_all (idx + 1) vs p in (s :: l, p)
  end.

Lemma bind_all_spec vs stmt count : forall pre rest, count = Z.of_nat (List.length pre + List.length vs) ->
  List.length rest = List.length vs ->
  bind_all (Z.of_nat (List.length pre)) vs (mkStatement stmt count (pre ++ rest)) =
    (replicate (List.length vs) Ok, mkStatement stmt count (pre ++ vs)).
Proof.
  induction vs as [|v vs IH]; intros pre rest Hc Hr; [destruct rest; [done|by cbn in Hr]|].
  destruct rest as [|b rest]; [done|]. cbn [bind_all]. unfold bind_at. cbn in *.
  rewrite (proj2 (Z.ltb_ge _ _)) by lia. rewrite (proj2 (Z.leb_gt _ _)) by lia. cbn [orb].
  rewrite Nat2Z.id, insert_app_r_alt, Nat.sub_diag by lia. cbn.
  replace (Z.of_nat (List.length pre) + 1) with (Z.of_nat (List.length (pre ++ [v]))) by (rewrite length_app; cbn; lia).
  specialize (IH (pre ++ [v]) rest). rewrite <- !app_assoc in IH. cbn in IH. rewrite IH; [done| |lia].
  rewrite length_app. cbn. lia.
Qed.

(** A prepared update sends what was bound: on a new statement with as many parameters
    as there are values, binding them in order succeeds throughout, [ExecuteUpdate] hands
    exactly these values to the library and succeeds if the library accepts them and
    executes the statement. *)
Theorem update_sends_what_was_bound stmt vs lib l1 l2 (Hsome : vs <> [])
  (Hbind : mysql_stmt_bind_param stmt vs lib = (true, l1)) (Hexec : mysql_stmt_execute stmt l1 = (true, l2)) :
  let '(ss, p) := bind_all 0 vs (MySQLPreparedStatement_new stmt (Z.of_nat (List.length vs))) in
  Forall (fun s => s = Ok) ss /\ ExecuteUpdate p lib = (Ok, l2).
Proof.
  unfold MySQLPreparedStatement_new. rewrite Nat2Z.id.
  pose proof (bind_all_spec vs stmt (Z.of_nat (List.length vs)) [] (replicate (List.length vs) BIND_CLEARED) eq_refl) as H1.
  cbn [app List.length] in H1. change (Z.of_nat 0) with 0 in H1. rewrite H1 by apply length_replicate. split; [by apply Forall_replicate|].
  unfold ExecuteUpdate, bind_params. cbn. rewrite (proj2 (Z.ltb_lt _ _)) by (destruct vs; [done|cbn; lia]).
  by rewrite Hbind, Hexec.
Qed.

(** A prepared query gives no result set, whatever the library answers. *)
Theorem prepared_query_never_answers p lib : IsOk (ExecuteQuery p lib).1.1 = false /\ (ExecuteQuery p lib).1.2 = None.
Proof. unfold ExecuteQuery. by destruct (bind_params p lib) as [[] l1]; cbn; repeat case_match. Qed.

(** A rollback that failed is followed by switching autocommit on, which ends the
    transaction that is still open on the server. *)
Theorem failed_rollback_turns_autocommit_on c h lib l1 : _inTransaction c = true -> _mysql c = Some h ->
  mysql_rollback h lib = (false, l1) -> (Rollback c lib).2 = (mysql_autocommit h true l1).2.
Proof. intros Ht Hh Hr. unfold Rollback. rewrite Ht, Hh, Hr. cbn. by destruct (mysql_autocommit h true l1). Qed.

End Mysql.
Arguments Mysql L : clear implicits.

(** ** A library *)

(** Handles with their mode, and whether their connection is lost. *)
Abbreviation ToyLib := (gmap Z (bool * bool)).

Definition toy_auto (h : Z) (l : ToyLib) : bool := default false (fst <$> l !! h).
Definition toy_lost (h : Z) (l : ToyLib) : bool := default true (snd <$> l !! h).

Definition toy_set (h : Z) (st : bool * bool) (l : ToyLib) : ToyLib := alter (fun _ => st) h l.

Definition toy_query (h : Z) (sql : string) (l : ToyLib) : bool * ToyLib :=
  if toy_lost h l then (false, l)
  else if bool_decide (sql = "KILL CONNECTION_ID();"%string) then (false, toy_set h (toy_auto h l, true) l)
  else if bool_decide (sql = "SET autocommit=0;"%string) then (true, toy_set h (false, false) l)
  else (true, l).

Definition toy_autocommit (h : Z) (b : bool) (l : ToyLib) : bool * ToyLib :=
  if toy_lost h l then (false, l) else (true, toy_set h (b, false) l).

#[export] Instance toy_mysql : Mysql_h ToyLib unit := {
  mysql_init l := let h := fresh (dom l) in (Some h, <[h := (true, false)]> l);
  mysql_real_connect h _ l := (negb (toy_lost h l), toy_set h (true, toy_lost h l) l);
  mysql_set_character_set _ _ l := l;
  mysql_close h l := delete h l;
  mysql_ping h l := (negb (toy_lost h l), l);
  mysql_query := toy_query;
  mysql_store_result _ l := (Some 1, l);
  mysql_free_result _ l := l;
  mysql_field_count _ _ := 1;
  mysql_num_fields _ _ := 2;
  mysql_fetch_row _ l := (Some [Some "-42 gold"%string; None], l);
  mysql_fetch_lengths _ _ := Some [8; 0];
  mysql_error _ _ := "MySQL server has gone away"%string;
  mysql_autocommit := toy_autocommit;
  mysql_commit h l := (negb (toy_lost h l), l);
  mysql_rollback h l := (negb (toy_lost h l), l);
  mysql_stmt_init h l := (Some 1, l);
  mysql_stmt_prepare _ _ l := (true, l);
  mysql_stmt_param_count _ _ := 2;
  mysql_stmt_bind_param _ _ l := (true, l);
  mysql_stmt_execute _ l := (true, l);
  mysql_stmt_store_result _ l := (true, l);
  mysql_stmt_error _ _ := "error"%string;
  mysql_stmt_close _ l := l;
  atof _ := tt;
  zero := tt
}.

#[export] Instance toy_state : MysqlState (L := ToyLib) := {
  plain_sql sql := negb (bool_decide (sql = "SET autocommit=0;"%string));
  is_open h l := is_Some (l !! h);
  autocommit := toy_auto;
  lost := toy_lost
}.

Lemma toy_set_other h st l h0 : h0 <> h -> toy_set h st l !! h0 = l !! h0.
Proof. intros Hne. unfold toy_set. by rewrite lookup_alter_ne. Qed.

Lemma toy_set_open h st l h0 : is_Some (l !! h0) -> is_Some (toy_set h st l !! h0).
Proof.
  intros Ho. unfold toy_set. destruct (decide (h0 = h)) as [->|]; [rewrite lookup_alter_eq; by apply fmap_is_Some|by rewrite lookup_alter_ne].
Qed.

Lemma toy_set_leaves (P : Z -> Prop) h st l : (P h -> settled h l -> is_Some (l !! h) -> st.1 = true \/ st.2 = true) ->
  leaves is_open settled P l (toy_set h st l).
Proof.
  intros Hst h0 Ho. split; [by apply toy_set_open|]. intros HP Hs. unfold settled in *. cbn in *. unfold toy_auto, toy_lost in *.
  destruct (decide (h0 = h)) as [->|]; [|by rewrite toy_set_other].
  unfold toy_set. rewrite lookup_alter_eq. destruct Ho as [x Hx]. rewrite Hx in *. cbn. apply Hst; [done..|by eexists].
Qed.

Lemma toy_set_get h st l : toy_lost h l = false -> toy_auto h (toy_set h st l) = st.1 /\ toy_lost h (toy_set h st l) = st.2.
Proof. unfold toy_auto, toy_lost, toy_set. rewrite lookup_alter_eq. by destruct (l !! h). Qed.

Lemma toy_set_open_self h st l : toy_lost h l = false -> is_Some (toy_set h st l !! h).
Proof. unfold toy_lost. intros Hl. apply toy_set_open. by destruct (l !! h); [eexists|]. Qed.

#[export] Instance toy_laws : MysqlLaws (L := ToyLib).
Proof.
  split; cbn; try (intros; simplify_eq; apply leaves_refl).
  - intros l h l' [= <- <-]. assert (l !! fresh (dom l) = None) as Hf by (apply not_elem_of_dom, is_fresh). split.
    + intros h0 Ho. assert (h0 <> fresh (dom l)) as Hne by (intros ->; rewrite Hf in Ho; by destruct Ho).
      unfold settled. cbn. unfold toy_auto, toy_lost. cbn. by rewrite lookup_insert_ne by done.
    + intros h0 Ho [= ->]. cbn in Ho. rewrite Hf in Ho. by destruct Ho.
  - intros h _ l b l' [= <- <-]. split; [apply toy_set_leaves; by left|].
    intros Hl%negb_true_iff. pose proof (toy_set_get h (true, toy_lost h l) l Hl) as [-> ->]. split; [by apply toy_set_open_self|done].
  - intros h _ l. split; [apply leaves_refl|done].
  - intros h l h0 Hne Ho. unfold settled. cbn. unfold toy_auto, toy_lost. by rewrite lookup_delete_ne by done.
  - intros h l b l' [= <- <-]. split; [apply leaves_refl|by intros ?%negb_true_iff].
  - intros h sql l b l'. unfold toy_query. destruct (toy_lost h l) eqn:El; [intros [= <- <-]; split; intros; apply leaves_refl|].
    repeat case_bool_decide; intros [= <- <-]; subst; try done; split; intros; try apply leaves_refl; apply toy_set_leaves; cbn; auto; done.
  - intros h b l ok l'. unfold toy_autocommit. destruct (toy_lost h l) eqn:El; intros [= <- <-]; [split; [apply leaves_refl|done]|].
    split; [by apply toy_set_leaves|]. by apply toy_set_get.
Defined.

(** ** Witnesses *)

Definition game_address : MySQLConfig := mkConfig "db.local" 3307 "game" "p:w" "survivor".

Lemma mysql_address_roundtrip_witness : mysql_address game_address = "db.local:3307;game;p:w;survivor"%string /\
  CreateMySQL "db.local:3307;game;p:w;survivor" = Some game_address.
Proof. split; [reflexivity|]. apply (mysql_address_roundtrip game_address); (done || split; done). Defined.

(** A field that is missing, or a port that is not a number, ends in an exception. *)
Example short_addresses : CreateMySQL "localhost;user;pass" = None /\ CreateMySQL "localhost:;user;pass;db" = None /\
  CreateMySQL "localhost;user;pass;" = Some (mkConfig "localhost" 3306 "user" "pass" EmptyString).
Proof. done. Qed.

Definition toy_db : Db (Mysql ToyLib) := new_db 2 5000 (mkTable ∅ ∅).

#[local] Instance toy_driver_instance : Driver (Mysql ToyLib) := mysql_driver game_address.

(** A transaction whose connection is killed; the next one is left open; then somebody
    asks for a connection. *)
Definition toy_ops : list DbOp := [OBegin; OExecute "KILL CONNECTION_ID();"; OCommit 2; OClose 2; OBegin; OClose 4].

Lemma mysql_hands_out_autocommit_witness :
  exists db1, db_run toy_ops toy_db = Ret tt db1 /\ (exists c db2, Acquire 0 db1 = Ret (Some c) db2) /\
    forall t c db2, Acquire t db1 = Ret (Some c) db2 ->
      exists h, connected (conn_of c (drv db2)) = Some h /\ toy_auto h (lib (drv db2)) = true.
Proof.
  destruct (mysql_hands_out_autocommit game_address toy_ops ∅ toy_db) as (db1 & Hr & Ha);
    [by apply new_db_inv|done|reflexivity|reflexivity|].
  exists db1. split; [exact Hr|]. split; [|exact Ha].
  assert (db_run toy_ops toy_db = Ret tt db1) as Hr' by exact Hr. vm_compute in Hr'. injection Hr' as <-. do 2 eexists. by vm_compute.
Defined.

Definition toy_row : MySQLResultSet := mkResultSet (Some 1) None None 2.

Lemma row_reads_its_columns_witness :
  exists rs', Next toy_row ∅ = (true, rs', ∅ : ToyLib) /\
    GetString 0 rs' = Some "-42 gold"%string /\ GetInt 0 rs' = Some (-42) /\ GetString 1 rs' = Some EmptyString /\ GetInt 2 rs' = Some 0.
Proof.
  eexists. split; [reflexivity|].
  split; [exact (proj1 (row_reads_its_columns toy_row 1 (∅ : ToyLib) _ ∅ _ 0 eq_refl eq_refl eq_refl eq_refl eq_refl eq_refl))|].
  by vm_compute.
Defined.

Lemma update_sends_what_was_bound_witness :
  let '(ss, p) := bind_all 0 [TYPE_LONG 7; TYPE_STRING "gold"] (MySQLPreparedStatement_new 1 2) in
  Forall (fun s => s = Ok) ss /\ ExecuteUpdate p (∅ : ToyLib) = (Ok, ∅ : ToyLib).
Proof. exact (update_sends_what_was_bound 1 [TYPE_LONG 7; TYPE_STRING "gold"] (∅ : ToyLib) ∅ ∅ ltac:(done) eq_refl eq_refl). Defined.

Lemma failed_rollback_turns_autocommit_on_witness :
  (Rollback (mkConn (Some 1) true true) ({[1 := (false, true)]} : ToyLib)).2 = ({[1 := (false, true)]} : ToyLib).
Proof.
  exact (failed_rollback_turns_autocommit_on (mkConn (Some 1) true true) 1 ({[1 := (false, true)]} : ToyLib) _ eq_refl eq_refl eq_refl).
Defined.
