(* ===== verification/Accounts.v ===== *)
(** * Accounts: the user database and the login

    Models src/Examples/VampireSurvivor/Server/Core/UserDB.cpp and the transaction of
    Core/LoginController.cpp on the database facade of [Database]: the SQL they build,
    what they read of the results, and what they do on every failure.  [None] is an
    exception of the driver, which passes through after the local objects are destroyed.
    The answer that a login sends is [Lobby.OnLoginResult].

    The rows of a result are the driver's: [Rows] is reading through a result set's
    wrapper (DatabaseImpl.h). *)

From Stdlib Require Import Ascii String.
From stdpp Require Import base numbers gmap list strings pretty.
From S2P Require Import Prelude Database.

#[local] Open Scope Z_scope.

Class Rows (D : Type) := {
  rs_next : Z -> D -> bool * D;
  rs_int : Z -> Z -> D -> Z;
  rs_string : Z -> Z -> D -> string;
  (** A result has finitely many rows. *)
  rows_left : Z -> D -> nat;
  rs_next_left : forall h d d', rs_next h d = (true, d') -> (rows_left h d' < rows_left h d)%nat
}.

(** ** The SQL *)

Definition points_sql (userId : Z) : string :=
  "SELECT points FROM user_game_data WHERE user_id = " +:+ pretty userId +:+ ";".

Definition add_points_sql (userId amount : Z) : string :=
  "INSERT INTO user_game_data (user_id, points) VALUES (" +:+ pretty userId +:+ ", " +:+ pretty amount +:+ ") " +:+
  "ON CONFLICT(user_id) DO UPDATE SET points = points + " +:+ pretty amount +:+ ";".

Definition skills_sql (userId : Z) : string :=
  "SELECT skill_id, level FROM user_skills WHERE user_id = " +:+ pretty userId +:+ ";".

Definition pay_sql (userId cost : Z) : string :=
  "UPDATE user_game_data SET points = points - " +:+ pretty cost +:+ " WHERE user_id=" +:+ pretty userId +:+ ";".

Definition unlock_sql (userId skillId : Z) : string :=
  "INSERT INTO user_skills (user_id, skill_id, level) VALUES (" +:+ pretty userId +:+ ", " +:+ pretty skillId +:+ ", 1) " +:+
  "ON CONFLICT(user_id, skill_id) DO UPDATE SET level = level + 1;".

Definition password_sql (username : string) : string :=
  "SELECT password FROM users WHERE username = '" +:+ username +:+ "';".

Definition register_sql (username password : string) : string :=
  "INSERT INTO users (username, password) VALUES ('" +:+ username +:+ "', '" +:+ password +:+ "');".

Section Accounts.
Context {D : Type} `{!Driver D} `{!Rows D}.
Implicit Types db : Db D.

(** [rs->Next()] and the columns. *)
Definition next_row (h : Z) : Op bool := fun db => let '(b, d) := rs_next h (drv db) in Ret b (set_drv d db).
Definition get_int (h idx : Z) : @Op D Z := gets (fun db => rs_int h idx (drv db)).
Definition get_string (h idx : Z) : @Op D string := gets (fun db => rs_string h idx (drv db)).

(** ** UserDB *)

Definition InitSchema : @Op D unit :=
  _ ← Execute "CREATE TABLE IF NOT EXISTS users (id INTEGER PRIMARY KEY AUTOINCREMENT, username TEXT UNIQUE, password TEXT);";
  _ ← Execute "CREATE TABLE IF NOT EXISTS user_game_data (user_id INTEGER PRIMARY KEY, points INTEGER DEFAULT 0);";
  _ ← Execute "CREATE TABLE IF NOT EXISTS user_skills (user_id INTEGER, skill_id INTEGER, level INTEGER, PRIMARY KEY (user_id, skill_id));";
  mret ().

(** The first column of the first row of an answer, or 0; the result set goes. *)
Definition read_points (r : DbResult) : @Op D Z :=
  match ok_value r with
  | None => mret 0
  | Some h =>
      found ← next_row h;
      v ← (if found : bool then get_int h 0 else mret 0);
      close_wrapper h;;
      mret v
  end.

Definition GetUserPoints (userId callback : Z) : Async -> @Async D := AsyncQuery (points_sql userId) (Some callback).
(** What its callback is called with. *)
Definition OnUserPoints : DbResult -> @Op D Z := read_points.

Definition AddUserPoints (userId amount callback : Z) : Async -> @Async D :=
  AsyncExecute (add_points_sql userId amount) (Some callback).
Definition OnPointsAdded (s : DbStatus) : bool := IsOk s.

(** [while (rs->Next()) skills.emplace_back(...)] *)
Fixpoint read_skills (fuel : nat) (h : Z) : @Op D (list (Z * Z)) :=
  match fuel with
  | O => undefined
  | S fuel =>
      found ← next_row h;
      if found : bool then
        skill ← get_int h 0;
        level ← get_int h 1;
        l ← read_skills fuel h;
        mret ((skill, level) :: l)
      else mret []
  end.

Definition GetUserSkills (userId callback : Z) : Async -> @Async D := AsyncQuery (skills_sql userId) (Some callback).
Definition OnUserSkills (r : DbResult) : @Op D (list (Z * Z)) :=
  match ok_value r with
  | None => mret []
  | Some h =>
      n ← gets (fun db => rows_left h (drv db));
      l ← read_skills (S n) h;
      close_wrapper h;;
      mret l
  end.

Definition GetUserPointsSync (c userId : Z) : @Op D (option Z) :=
  res ← proxy_Query c (points_sql userId);
  match res with
  | None => mret None
  | Some r => v ← read_points r; mret (Some v)
  end.

(** The statements between the begin and the end of the transaction; [tx] is destroyed
    on every way out. *)
Definition unlock_in (tx c userId skillId cost : Z) : @Op D (option bool) :=
  r ← proxy_Execute c (pay_sql userId cost);
  match r with
  | None => mret None
  | Some s =>
      if negb (IsOk s) then mret (Some false) else
      r ← proxy_Execute c (unlock_sql userId skillId);
      match r with
      | None => mret None
      | Some s =>
          if negb (IsOk s) then mret (Some false) else
          r ← Commit tx; mret (IsOk <$> r)
      end
  end.

Definition unlock_logic (userId skillId cost c : Z) : @Op D (option bool) :=
  points ← GetUserPointsSync c userId;
  match points with
  | None => mret None
  | Some points =>
      if points <? cost then mret (Some false) else
      txRes ← proxy_BeginTransaction c;
      match txRes with
      | None => mret None
      | Some r =>
          match ok_value r with
          | None => mret (Some false)
          | Some tx => res ← unlock_in tx c userId skillId cost; close_wrapper tx;; mret res
          end
      end
  end.

Definition UnlockSkill (userId skillId cost callback : Z) : Async -> @Async D :=
  AsyncRunInTransaction (unlock_logic userId skillId cost) (Some callback).

(** ** LoginController *)

Definition login_logic (username password : string) (c : Z) : @Op D (option bool) :=
  res ← proxy_Query c (password_sql username);
  match res with
  | None => mret None
  | Some r =>
      stored ← (match ok_value r with
                | None => mret None
                | Some h =>
                    found ← next_row h;
                    s ← (if found : bool then s ← get_string h 0; mret (Some s) else mret None);
                    close_wrapper h;;
                    mret s
                end);
      match stored with
      | Some dbPass => mret (Some (bool_decide (dbPass = password)))
      | None => r ← proxy_Execute c (register_sql username password); mret (IsOk <$> r)
      end
  end.

Definition OnLogin (username password : string) (callback : Z) : Async -> @Async D :=
  AsyncRunInTransaction (login_logic username password) (Some callback).

(** ** What the parts do on a pinned connection

    [c ∈ l]: someone else holds the connection [c], as the caller of a transaction does. *)

Lemma pinned c l db : c ∈ l -> c ∈ owners l db.
Proof. intros Hc. unfold owners. apply elem_of_app. by left. Qed.

Lemma next_row_ok h l db : ready l db ->
  returns (next_row h) db (fun b db' => ready l db' /\ wrappers db' = wrappers db /\ calls db' = calls db /\
    rs_next h (drv db) = (b, drv db')).
Proof.
  intros [Hi Ht]. unfold returns, next_row. destruct (rs_next h (drv db)) as [b d].
  split; [|done]. split; [|done]. by eapply (same_state_inv l db).
Qed.

Lemma close_pinned h w l db : ready l db -> wrapper_conn w ∈ l -> wrappers db !! h = Some w ->
  let undo := match w with TransactionWrapper c false => [(c, CallRollback)] | _ => [] end in
  returns (close_wrapper h) db (fun _ db' => ready l db' /\ wrappers db' = delete h (wrappers db) /\
    calls db' = calls db ++ undo /\ (undo = [] -> drv db' = drv db)).
Proof.
  intros Hr Hc Hh undo. eapply returns_mono; [by apply (close_wrapper_ok h w l db)|].
  intros _ db' (Hr' & Hw & _ & Hp). split; [done|]. split; [done|]. apply Hp. by apply pinned.
Qed.

Lemma execute_pinned c sql l db : ready l db -> c ∈ l ->
  returns (proxy_Execute c sql) db (fun r db' => ready l db' /\ wrappers db' = wrappers db /\
    calls db' = calls db ++ [(c, CallExecute sql)] /\ r = (conn_status (CallExecute sql) c (drv db)).1 /\
    drv db' = (conn_status (CallExecute sql) c (drv db)).2).
Proof.
  intros Hr Hc. unfold proxy_Execute, returns, call_status.
  destruct (conn_status (CallExecute sql) c (drv db)) as [r d]. split; [|done].
  eapply ready_same; [|exact Hr]. apply called_same_state. left. eapply owned_not_idle; [apply Hr|by apply pinned].
Qed.

(** [Commit] on an open transaction. *)
Lemma commit_pinned c h l db : ready l db -> c ∈ l -> wrappers db !! h = Some (TransactionWrapper c false) ->
  returns (Commit h) db (fun r db' => ready l db' /\ calls db' = calls db ++ [(c, CallCommit)] /\
    r = (conn_status CallCommit c (drv db)).1 /\
    wrappers db' = <[h := TransactionWrapper c (bool_decide ((IsOk <$> r) = Some true))]> (wrappers db)).
Proof.
  intros Hr Hc Hh. pose proof (Commit_ok h c false l db Hr Hh) as Hok. unfold returns in *.
  unfold Commit, mbind, Op_bind in *. cbn [gets] in *. rewrite Hh in *. unfold call_status in *.
  destruct (conn_status CallCommit c (drv db)) as [[s|] d]; cbn in *.
  - destruct (IsOk s) eqn:Es; cbn in *; (split; [exact Hok|]; split; [done|]; split; [done|]).
    + by rewrite Es.
    + rewrite Es, bool_decide_false by done. by rewrite insert_id.
  - split; [done|]. split; [done|]. split; [done|]. by rewrite insert_id.
Qed.

(** What [read_points] reads of an answer, and the driver after it. *)
Definition answer_points (v : option Z) (d : D) : Z * D :=
  match v with
  | None => (0, d)
  | Some h => match rs_next h d with (true, d) => (rs_int h 0 d, d) | (false, d) => (0, d) end
  end.

Lemma read_points_ok c r l db : ready l db -> c ∈ l ->
  (forall h, ok_value r = Some h -> wrappers db !! h = Some (ResultSetWrapper c)) ->
  returns (read_points r) db (fun v db' => ready l db' /\ calls db' = calls db /\
    (v, drv db') = answer_points (ok_value r) (drv db) /\
    wrappers db' = match ok_value r with Some h => delete h (wrappers db) | None => wrappers db end).
Proof.
  intros Hr Hc Hh. unfold read_points. destruct (ok_value r) as [h|]; [|by apply returns_now]. specialize (Hh h eq_refl).
  apply returns_bind. eapply returns_mono; [by apply next_row_ok|]. intros b db1 (Hr1 & Hw1 & Hc1 & En).
  assert (returns (if b : bool then get_int h 0 else mret 0) db1 (fun v db' => db' = db1 /\
    v = if b then rs_int h 0 (drv db1) else 0)) as Hget by (by destruct b).
  apply returns_bind. eapply returns_mono; [exact Hget|]. intros v db2 [-> ->]. apply returns_bind.
  eapply returns_mono; [apply (close_pinned h (ResultSetWrapper c) l); [done|done|by rewrite Hw1]|].
  intros _ db3 (Hr3 & Hw3 & Hc3 & Hd3). apply returns_now. split; [done|]. split; [by rewrite Hc3, app_nil_r|].
  split; [|by rewrite Hw3, Hw1]. cbn. rewrite En, Hd3 by done. by destruct b.
Qed.

(** What the synchronous query reads: [None] when the driver throws.  [h] is the handle
    its result set gets. *)
Definition points_spec (userId c h : Z) (d : D) : option Z * D :=
  match conn_result (CallQuery (points_sql userId)) c d with
  | (None, d) => (None, d)
  | (Some (s, b), d) =>
      let '(v, d) := answer_points (if IsOk s && b then Some h else None) d in (Some v, d)
  end.

Lemma points_sync_ok c userId l db : ready l db -> c ∈ l ->
  returns (GetUserPointsSync c userId) db (fun v db' => ready l db' /\ wrappers db' = wrappers db /\
    calls db' = calls db ++ [(c, CallQuery (points_sql userId))] /\
    (v, drv db') = points_spec userId c (next db) (drv db)).
Proof.
  intros Hr Hc. unfold GetUserPointsSync, points_spec. apply returns_bind.
  eapply returns_mono; [apply query_on_ok; [exact Hr|by apply pinned]|]. intros r db1 (Hr1 & Hc1 & Ea & Ed & Hw1).
  destruct (conn_result (CallQuery (points_sql userId)) c (drv db)) as [[[s b]|] d]; cbn in Ea, Ed; subst r.
  2: { apply returns_now. by rewrite Ed. }
  set (r := if IsOk s && b then _ else _) in *. apply returns_bind.
  assert (ok_value r = if IsOk s && b then Some (next db) else None) as Ev.
  { unfold r. destruct (IsOk s) eqn:Es; [destruct b; [done|]|]; unfold ok_value; cbn; [by destruct (IsOk s)|by rewrite Es]. }
  cbn in Hw1. eapply returns_mono; [apply (read_points_ok c r l); [done|done|]|].
  - intros h Eh. rewrite Eh in Hw1. destruct Hw1 as [_ ->]. apply lookup_insert_eq.
  - intros v db2 (Hr2 & Hc2 & Hv & Hw2). apply returns_now. split; [done|]. rewrite Hc2.
    rewrite Ev, Ed in Hv. rewrite <- Hv. split; [|done].
    rewrite Hw2. destruct (ok_value r) as [h|]; [|done]. destruct Hw1 as [Hn ->]. by apply delete_insert_id.
Qed.

(** Statements of a transaction, one after the other up to the first that fails or
    throws: the outcome and what is sent. *)
Fixpoint statements (c : Z) (ks : list ConnCall) (d : D) : option bool * list ConnCall :=
  match ks with
  | [] => (Some true, [])
  | k :: ks =>
      match conn_status k c d with
      | (None, _) => (None, [k])
      | (Some s, d) => if IsOk s then let '(r, tr) := statements c ks d in (r, k :: tr) else (Some false, [k])
      end
  end.

Definition unlock_changes (userId skillId cost : Z) : list ConnCall :=
  [CallExecute (pay_sql userId cost); CallExecute (unlock_sql userId skillId); CallCommit].

(** What an unlocking transaction does, as a function of the driver's answers. *)
Definition unlock_spec (userId skillId cost c h : Z) (d : D) : option bool * list ConnCall :=
  let select := CallQuery (points_sql userId) in
  match points_spec userId c h d with
  | (None, _) => (None, [select])
  | (Some points, d) =>
      if points <? cost then (Some false, [select]) else
      match conn_status CallBegin c d with
      | (None, _) => (None, [select; CallBegin])
      | (Some s, d) =>
          if IsOk s then
            let '(r, tr) := statements c (unlock_changes userId skillId cost) d in
            (r, select :: CallBegin :: tr ++ (if bool_decide (r = Some true) then [] else [CallRollback]))
          else (Some false, [select; CallBegin])
      end
  end.

(** [m] does the statements [ks] on [c] in the transaction [tx]. *)
Definition does (m : @Op D (option bool)) (ks : list ConnCall) (tx c : Z) (l : list Z) : Prop :=
  forall db, ready l db -> wrappers db !! tx = Some (TransactionWrapper c false) ->
  returns m db (fun r db' => ready l db' /\
    wrappers db' = <[tx := TransactionWrapper c (bool_decide (r = Some true))]> (wrappers db) /\
    r = (statements c ks (drv db)).1 /\ calls db' = calls db ++ map (pair c) (statements c ks (drv db)).2).

Lemma execute_does sql m ks tx c l : c ∈ l -> does m ks tx c l ->
  does (r ← proxy_Execute c sql;
        match r with None => mret None | Some s => if negb (IsOk s) then mret (Some false) else m end)
    (CallExecute sql :: ks) tx c l.
Proof.
  intros Hc Hm db Hr Htx. apply returns_bind. eapply returns_mono; [by apply (execute_pinned c _ l)|].
  intros r db1 (Hr1 & Hw1 & Hc1 & Er & Ed). rewrite <- Hw1 in Htx. cbn [statements].
  destruct (conn_status (CallExecute sql) c (drv db)) as [[s|] d]; cbn in Er, Ed; subst r.
  - destruct (IsOk s); cbn [negb].
    + eapply returns_mono; [by apply Hm|]. intros r db2 (Hr2 & Hw2 & Er2 & Hc2). rewrite Ed in Er2, Hc2.
      destruct (statements c ks d) as [r' tr]. cbn in *. subst r'. split; [done|]. split; [by rewrite Hw2, Hw1|].
      split; [done|]. by rewrite Hc2, Hc1, <- app_assoc.
    + apply returns_now. split; [done|]. rewrite bool_decide_false by done. split; [by rewrite <- Hw1, insert_id|done].
  - apply returns_now. split; [done|]. rewrite bool_decide_false by done. split; [by rewrite <- Hw1, insert_id|done].
Qed.

Lemma commit_does tx c l : c ∈ l -> does (r ← Commit tx; mret (IsOk <$> r)) [CallCommit] tx c l.
Proof.
  intros Hc db Hr Htx. apply returns_bind. eapply returns_mono; [by apply (commit_pinned c tx l)|].
  intros r db1 (Hr1 & Hc1 & Er & Hw1). apply returns_now. cbn [statements].
  destruct (conn_status CallCommit c (drv db)) as [[s|] d]; cbn in Er; subst r; [|done].
  split; [done|]. split; [done|]. cbn. by destruct (IsOk s).
Qed.

Lemma unlock_in_does tx c userId skillId cost l : c ∈ l ->
  does (unlock_in tx c userId skillId cost) (unlock_changes userId skillId cost) tx c l.
Proof. intros Hc. unfold unlock_in, unlock_changes. by apply execute_does, execute_does, commit_does. Qed.

Lemma unlock_logic_ok userId skillId cost c l db : ready l db -> c ∈ l ->
  returns (unlock_logic userId skillId cost c) db (fun r db' => ready l db' /\ wrappers db' = wrappers db /\
    r = (unlock_spec userId skillId cost c (next db) (drv db)).1 /\
    calls db' = calls db ++ map (pair c) (unlock_spec userId skillId cost c (next db) (drv db)).2).
Proof.
  intros Hr Hc. unfold unlock_logic, unlock_spec. apply returns_bind.
  eapply returns_mono; [by apply (points_sync_ok c _ l)|]. intros points db1 (Hr1 & Hw1 & Hc1 & Ep). rewrite <- Ep.
  destruct points as [points|]; [|by apply returns_now]. destruct (points <? cost); [by apply returns_now|].
  apply returns_bind. eapply returns_mono; [apply begin_on_ok; [exact Hr1|by apply pinned]|].
  intros r2 db2 (Hr2 & Hc2 & Ed2 & Hw2).
  assert (calls db2 = calls db ++ map (pair c) [CallQuery (points_sql userId); CallBegin]) as Hc2'
    by (rewrite Hc2, Hc1, <- app_assoc; done).
  destruct (conn_status CallBegin c (drv db1)) as [[s|] d]; cbn in Hw2, Ed2.
  2: { destruct Hw2 as [-> Hw2]. apply returns_now. split; [done|]. split; [by rewrite Hw2|done]. }
  destruct (IsOk s) eqn:Es.
  2: { destruct Hw2 as [-> Hw2]. unfold ok_value. cbn. rewrite Es. apply returns_now. split; [done|].
       split; [by rewrite Hw2|done]. }
  destruct Hw2 as (tx & -> & Hn & Hw2). rewrite Hw1 in Hn, Hw2.
  change (ok_value (Success tx)) with (Some tx). cbv iota. apply returns_bind.
  eapply returns_mono; [apply (unlock_in_does tx c userId skillId cost l Hc db2 Hr2); by rewrite Hw2, lookup_insert_eq|].
  intros r db3 (Hr3 & Hw3 & Er & Hc3). rewrite Ed2 in Er, Hc3.
  destruct (statements c (unlock_changes userId skillId cost) d) as [r' tr]. cbn in Er, Hc3. subst r'. apply returns_bind.
  eapply returns_mono; [apply (close_pinned tx (TransactionWrapper c (bool_decide (r = Some true))) l); [done..|by rewrite Hw3, lookup_insert_eq]|].
  intros _ db4 (Hr4 & Hw4 & Hc4 & _). apply returns_now. split; [done|]. split.
  { rewrite Hw4, Hw3, Hw2, insert_insert_eq. by apply delete_insert_id. }
  split; [done|]. rewrite Hc4, Hc3, Hc2', <- !app_assoc. cbn. rewrite map_app. by case_bool_decide.
Qed.

(** The statements sent are a prefix, all of them exactly on success. *)
Lemma statements_prefix c ks d : exists n,
  (statements c ks d).2 = take n ks /\ ((statements c ks d).1 = Some true -> take n ks = ks) /\
  (ks <> [] -> (0 < n)%nat).
Proof.
  revert d. induction ks as [|k ks IH]; intros d; [by exists 0%nat|]. cbn [statements].
  destruct (conn_status k c d) as [[s|] d']; [|by exists 1%nat; split_and!; [..|lia]].
  destruct (IsOk s); [|by exists 1%nat; split_and!; [..|lia]].
  destruct (IH d') as (n & H1 & H2 & _). destruct (statements c ks d') as [r tr]. cbn in *. subst tr.
  exists (S n). cbn. split; [done|]. split; [|lia]. intros Hr. by rewrite (H2 Hr).
Qed.

(** What an unlocking transaction has sent when it ends with [r]. *)
Definition all_or_nothing (userId skillId cost : Z) (r : option bool) (tr : list ConnCall) : Prop :=
  let select := CallQuery (points_sql userId) in
  let changes := unlock_changes userId skillId cost in
  (r = Some true /\ tr = select :: CallBegin :: changes) \/
  (r <> Some true /\ (tr = [select] \/ tr = [select; CallBegin] \/
                      exists n, tr = select :: CallBegin :: take (S n) changes ++ [CallRollback])).

Lemma unlock_spec_all_or_nothing userId skillId cost c h d :
  all_or_nothing userId skillId cost (unlock_spec userId skillId cost c h d).1 (unlock_spec userId skillId cost c h d).2.
Proof.
  unfold unlock_spec, all_or_nothing. destruct (points_spec userId c h d) as [[points|] d1]; [|by right; split; [|left]].
  destruct (points <? cost); [by right; split; [|left]|].
  destruct (conn_status CallBegin c d1) as [[s|] d2]; [|by right; split; [|right; left]].
  destruct (IsOk s); [|by right; split; [|right; left]].
  destruct (statements_prefix c (unlock_changes userId skillId cost) d2) as (n & H1 & H2 & H3).
  destruct (statements c (unlock_changes userId skillId cost) d2) as [r tr]. cbn [fst snd] in *. subst tr.
  case_bool_decide as E; [left|right].
  - split; [done|]. by rewrite (H2 E), app_nil_r.
  - split; [done|]. right. right. exists (n - 1)%nat. replace (S (n - 1)) with n; [done|].
    assert (unlock_changes userId skillId cost <> []) as Hne by done. specialize (H3 Hne). lia.
Qed.

(** C17: Unlocking a skill is all or nothing and does what [unlock_spec] says: the
    transaction returns whatever the driver answers or throws.  A player whose
    points (the first column of the first row, 0 without one) are below the cost is
    refused and nothing but the query is sent; otherwise the transaction is begun,
    paid, unlocked and committed up to the first answer that is not OK.  It reports
    success exactly when all of it went through; otherwise nothing was changed
    (only the query and a failed begin were sent) or what was sent has been rolled
    back.  No result or transaction stays open. *)
Theorem unlock_all_or_nothing userId skillId cost c l db (Hr : ready l db) (Hc : c ∈ l) :
  exists db' r tr, unlock_spec userId skillId cost c (next db) (drv db) = (r, tr) /\
    unlock_logic userId skillId cost c db = Ret r db' /\ ready l db' /\
    wrappers db' = wrappers db /\ calls db' = calls db ++ map (pair c) tr /\
    all_or_nothing userId skillId cost r tr /\
    (forall points d, points_spec userId c (next db) (drv db) = (Some points, d) -> points < cost ->
       r = Some false /\ tr = [CallQuery (points_sql userId)]).
Proof.
  pose proof (unlock_logic_ok userId skillId cost c l db Hr Hc) as H. unfold returns in H.
  pose proof (unlock_spec_all_or_nothing userId skillId cost c (next db) (drv db)) as Hall.
  destruct (unlock_logic _ _ _ _ db) as [r db'| |]; [|done|done]. destruct H as (H1 & H2 & H3 & H4).
  destruct (unlock_spec userId skillId cost c (next db) (drv db)) as [r' tr] eqn:E. cbn [fst snd] in *. subst r'.
  exists db', r, tr. split_and!; try done. all: intros points d Hp Hlt; unfold unlock_spec in E; rewrite Hp in E;
    rewrite (proj2 (Z.ltb_lt _ _) Hlt) in E; by injection E.
Qed.

(** ** The login *)

(** What a login does, as a function of the driver's answers: whether it succeeds, and
    what is sent.  [h] is the handle its result set gets. *)
Definition login_spec (username password : string) (c h : Z) (d : D) : option bool * list ConnCall :=
  let select := CallQuery (password_sql username) in
  let insert := CallExecute (register_sql username password) in
  let register d := (IsOk <$> (conn_status insert c d).1, [select; insert]) in
  match conn_result select c d with
  | (None, _) => (None, [select])
  | (Some (s, b), d) =>
      if IsOk s && b then
        match rs_next h d with
        | (true, d) => (Some (bool_decide (rs_string h 0 d = password)), [select])
        | (false, d) => register d
        end
      else register d
  end.

Lemma login_logic_ok username password c l db : ready l db -> c ∈ l ->
  returns (login_logic username password c) db (fun r db' => ready l db' /\ wrappers db' = wrappers db /\
    r = (login_spec username password c (next db) (drv db)).1 /\
    calls db' = calls db ++ map (pair c) (login_spec username password c (next db) (drv db)).2).
Proof.
  intros Hr Hc. unfold login_logic, login_spec. apply returns_bind.
  eapply returns_mono; [apply query_on_ok; [exact Hr|by apply pinned]|]. intros r db1 (Hr1 & Hc1 & Ea & Ed & Hw1).
  destruct (conn_result (CallQuery (password_sql username)) c (drv db)) as [[[s b]|] d] eqn:Eq; cbn in Ea, Ed;
    [|subst r; by apply returns_now].
  assert (forall db2, ready l db2 -> wrappers db2 = wrappers db -> calls db2 = calls db1 ->
    returns (r ← proxy_Execute c (register_sql username password); mret (IsOk <$> r)) db2 (fun r db' => ready l db' /\
      wrappers db' = wrappers db /\ r = IsOk <$> (conn_status (CallExecute (register_sql username password)) c (drv db2)).1 /\
      calls db' = calls db ++ map (pair c) [CallQuery (password_sql username); CallExecute (register_sql username password)])) as Hreg.
  { intros db2 Hr2 Hw2 Hc2. apply returns_bind. eapply returns_mono; [by apply (execute_pinned c _ l)|].
    intros r2 db3 (Hr3 & Hw3 & Hc3 & -> & _). apply returns_now. split; [done|]. split; [congruence|]. split; [done|].
    by rewrite Hc3, Hc2, Hc1, <- app_assoc. }
  subst r. destruct (IsOk s && b) eqn:Ev.
  - cbn in Hw1. destruct Hw1 as [Hn Hw1]. apply returns_bind. cbn. apply returns_bind.
    eapply returns_mono; [by apply (next_row_ok (next db) l)|]. intros found db2 (Hr2 & Hw2 & Hc2 & En). rewrite Ed in En.
    assert (returns (if found : bool then s ← get_string (next db) 0; mret (Some s) else mret None) db2 (fun v db' => db' = db2 /\
      v = if found then Some (rs_string (next db) 0 (drv db2)) else None)) as Hget by (by destruct found).
    apply returns_bind. eapply returns_mono; [exact Hget|]. intros v db3 [-> ->]. apply returns_bind.
    eapply returns_mono; [apply (close_pinned (next db) (ResultSetWrapper c) l); [done|done|by rewrite Hw2, Hw1, lookup_insert_eq]|].
    intros _ db4 (Hr4 & Hw4 & Hc4 & Hd4). apply returns_now. rewrite app_nil_r in Hc4. specialize (Hd4 eq_refl).
    assert (wrappers db4 = wrappers db) as Hw by (rewrite Hw4, Hw2, Hw1; by apply delete_insert_id). rewrite En.
    destruct found; [apply returns_now; split; [done|]; split; [done|]; split; [done|]; by rewrite Hc4, Hc2, Hc1|].
    rewrite <- Hd4. apply Hreg; [done|done|congruence].
  - cbn in Hw1. assert (ok_value (Fail_ s) = None) as Hf by (unfold ok_value; cbn; by destruct (IsOk s)).
    rewrite Hf in Hw1 |- *. apply returns_bind, returns_now. rewrite <- Ed. by apply Hreg.
Qed.

(** C18: A login refines its specification: with any driver it returns, leaves no result
    open, and does what [login_spec] says: a user with a row is admitted exactly with the
    password of the row, and nothing is written; without a row, or when the query fails,
    the pair is inserted and the answer is that of the insertion. *)
Theorem login_refines_spec username password c l db (Hr : ready l db) (Hc : c ∈ l) :
  exists db', login_logic username password c db = Ret (login_spec username password c (next db) (drv db)).1 db' /\
    ready l db' /\ wrappers db' = wrappers db /\
    calls db' = calls db ++ map (pair c) (login_spec username password c (next db) (drv db)).2.
Proof.
  pose proof (login_logic_ok username password c l db Hr Hc) as H. unfold returns in H.
  destruct (login_logic _ _ _ db) as [r db'| |]; [|done|done]. destruct H as (? & ? & -> & ?). by exists db'.
Qed.

(** Both transactions are what [async_job_posts_once] asks of a client. *)
Lemma unlock_tx_ok userId skillId cost : tx_ok (unlock_logic userId skillId cost).
Proof. intros c l db Hr. eapply returns_mono; [apply (unlock_logic_ok _ _ _ c _ db Hr); left|]. by intros r db' [? _]. Qed.

Lemma login_tx_ok username password : tx_ok (login_logic username password).
Proof. intros c l db Hr. eapply returns_mono; [apply (login_logic_ok _ _ c _ db Hr); left|]. by intros r db' [? _]. Qed.

(** ** Reading all skills *)

(** The rows of a result. *)
Fixpoint skill_rows (fuel : nat) (h : Z) (d : D) : list (Z * Z) :=
  match fuel with
  | O => []
  | S fuel => match rs_next h d with
              | (true, d) => (rs_int h 0 d, rs_int h 1 d) :: skill_rows fuel h d
              | (false, _) => []
              end
  end.

Lemma read_skills_ok fuel h l db : ready l db -> (rows_left h (drv db) < fuel)%nat ->
  returns (read_skills fuel h) db (fun r db' => ready l db' /\ wrappers db' = wrappers db /\ calls db' = calls db /\
    r = skill_rows fuel h (drv db)).
Proof.
  revert db. induction fuel as [|fuel IH]; intros db Hr Hf; [lia|]. cbn [read_skills skill_rows]. apply returns_bind.
  eapply returns_mono; [by apply (next_row_ok h l)|]. intros b db1 (Hr1 & Hw1 & Hc1 & En). rewrite En.
  destruct b; [|by apply returns_now]. pose proof (rs_next_left _ _ _ En) as Hlt.
  do 2 apply returns_gets. apply returns_bind. eapply returns_mono; [apply IH; [exact Hr1|lia]|].
  intros r db2 (Hr2 & Hw2 & Hc2 & ->). apply returns_now. split; [done|]. split; [congruence|]. split; [congruence|done].
Qed.

(** The callback of [GetUserSkills] gets every row, in order, and the result set goes. *)
Theorem all_skills_are_read r h c l db (Hr : ready l db) (Hh : ok_value r = Some h)
  (Hw : wrappers db !! h = Some (ResultSetWrapper c)) (Hc : c ∈ l) :
  exists db', OnUserSkills r db = Ret (skill_rows (S (rows_left h (drv db))) h (drv db)) db' /\ ready l db' /\
    wrappers db' = delete h (wrappers db) /\ calls db' = calls db.
Proof.
  assert (returns (OnUserSkills r) db (fun v db' => ready l db' /\ wrappers db' = delete h (wrappers db) /\ calls db' = calls db /\
    v = skill_rows (S (rows_left h (drv db))) h (drv db))) as H.
  { unfold OnUserSkills. rewrite Hh. apply returns_gets, returns_bind.
    eapply returns_mono; [apply (read_skills_ok _ h l); [done|lia]|]. intros v db1 (Hr1 & Hw1 & Hc1 & ->). apply returns_bind.
    eapply returns_mono; [apply (close_pinned h (ResultSetWrapper c) l); [done|done|by rewrite Hw1]|].
    intros _ db2 (Hr2 & Hw2 & Hc2 & _). apply returns_now. rewrite app_nil_r in Hc2. split; [done|].
    split; [congruence|]. split; [congruence|done]. }
  unfold returns in H. destruct (OnUserSkills r db) as [v db'| |]; [|done|done]. destruct H as (? & ? & ? & ->). by exists db'.
Qed.

End Accounts.

(** ** The names in the SQL *)

Definition quote_free (s : string) : Prop := "'"%char ∉ String.list_ascii_of_string s.

Lemma split_at_quote a b x y : quote_free a -> quote_free b -> a +:+ String "'" x = b +:+ String "'" y -> a = b /\ x = y.
Proof.
  unfold quote_free. revert b. induction a as [|ch a IH]; intros [|ch' b]; cbn; intros Ha Hb H.
  - by injection H.
  - injection H as <- _. exfalso. apply Hb. left.
  - injection H as -> _. exfalso. apply Ha. left.
  - injection H as -> H. destruct (IH b) as [-> ->]; [|by intros ?; apply Hb; right|exact H|done].
    intros ?. apply Ha. by right.
Qed.

(** Names and passwords without a quote are told apart by what is inserted. *)
Theorem register_sql_inj u p u' p' (Hu : quote_free u) (Hp : quote_free p) (Hu' : quote_free u') (Hp' : quote_free p') :
  register_sql u p = register_sql u' p' -> u = u' /\ p = p'.
Proof.
  unfold register_sql. intros H. apply (inj (String.append _)) in H.
  destruct (split_at_quote u u' (", '" +:+ p +:+ "');") (", '" +:+ p' +:+ "');") Hu Hu' H) as [-> H1]. split; [done|].
  apply (inj (String.append ", '")) in H1. by destruct (split_at_quote p p' ");" ");" Hp Hp' H1).
Qed.

(** With quotes they are not: the names go into the SQL as they are. *)
Theorem register_sql_collides :
  exists u p u' p', (u, p) <> (u', p') /\ register_sql u p = register_sql u' p'.
Proof. by exists "a', 'b"%string, "c"%string, "a"%string, "b', 'c"%string. Qed.

(** A name that ends the literal makes the query return any row it likes, and with it the
    password that is asked for. *)
Example password_sql_injected :
  password_sql "' UNION SELECT 'known" = "SELECT password FROM users WHERE username = '' UNION SELECT 'known';"%string.
Proof. done. Qed.

(** ** Witnesses *)

(** The rows of the toy driver: one row, with [points] or a password. *)
Record Shop := mkShop { shop_rows : nat; shop_points : Z; shop_password : string; shop_fails : list ConnCall }.

#[local] Instance ConnCall_eq_dec : EqDecision ConnCall.
Proof. solve_decision. Defined.

#[local] Instance shop_driver : Driver Shop := {
  CreateConnection d := (true, d);
  IsConnected _ _ := true;
  conn_bool _ _ d := (true, d);
  conn_void _ _ d := d;
  conn_status k _ d := (Some (if bool_decide (k ∈ shop_fails d) then Error "failed" else Ok), d);
  conn_result _ _ d := (Some (Ok, true), d)
}.

#[local] Program Instance shop_rows_instance : Rows Shop := {
  rs_next _ d := match shop_rows d with
                 | O => (false, d)
                 | S n => (true, mkShop n (shop_points d) (shop_password d) (shop_fails d))
                 end;
  rs_int _ _ d := shop_points d;
  rs_string _ _ d := shop_password d;
  rows_left _ d := shop_rows d
}.
Next Obligation. intros h [n pts pw f] d'. cbn. destruct n; intros [= <-]. cbn. lia. Qed.

(** A database with connection 1 held by a caller. *)
Definition shop_db (s : Shop) : Db Shop := mkDb [] 1 2 5000 true {[1 := 1]} ∅ 2 [(1, CallConnect)] s.

Lemma shop_db_ready s : ready [1] (shop_db s).
Proof.
  assert (owners [1] (shop_db s) = [1]) as Ho by reflexivity.
  split; [|done]. split; rewrite ?Ho; cbn; try done; try lia.
  - by intros c n [<- <-]%lookup_singleton_Some.
  - intros c ->%list_elem_of_singleton. by rewrite lookup_singleton_eq.
  - by intros c ?%elem_of_nil.
  - constructor.
  - intros c [?%elem_of_nil|[n [<- _]%lookup_singleton_Some]]; [done|lia].
  - by intros h [? ?].
  - by intros c ?%elem_of_nil.
Qed.

(** The commit fails: what was done is rolled back. *)
Definition failing_shop : Shop := mkShop 1 100 "pw" [CallCommit].

(** Seven points do not pay for a skill of fifty. *)
Definition poor_shop : Shop := mkShop 1 7 "pw" [].

Lemma unlock_all_or_nothing_witness :
  (exists db' r tr, unlock_logic 7 3 50 1 (shop_db failing_shop) = Ret r db' /\ ready [1] db' /\
    wrappers db' = ∅ /\ calls db' = [(1, CallConnect)] ++ map (pair 1) tr /\ all_or_nothing 7 3 50 r tr) /\
  (exists db', unlock_logic 7 3 50 1 (shop_db poor_shop) = Ret (Some false) db' /\ ready [1] db' /\
    calls db' = [(1, CallConnect); (1, CallQuery (points_sql 7))]).
Proof.
  split.
  - destruct (unlock_all_or_nothing 7 3 50 1 [1] (shop_db failing_shop))
      as (db' & r & tr & _ & ? & ? & ? & ? & ? & _); [apply shop_db_ready|left|].
    exists db', r, tr. by split_and!.
  - destruct (unlock_all_or_nothing 7 3 50 1 [1] (shop_db poor_shop))
      as (db' & r & tr & _ & Hrun & Hready & _ & Hcalls & _ & Hpoor); [apply shop_db_ready|left|].
    destruct (Hpoor 7 (mkShop 0 7 "pw" [])) as [-> ->]; [reflexivity|lia|]. by exists db'.
Defined.

Example unlock_failing_commit :
  match unlock_logic 7 3 50 1 (shop_db failing_shop) with
  | Ret r db' => (r, snd <$> calls db') = (Some false, [CallConnect; CallQuery (points_sql 7); CallBegin;
      CallExecute (pay_sql 7 50); CallExecute (unlock_sql 7 3); CallCommit; CallRollback])
  | _ => False
  end.
Proof. by vm_compute. Qed.

Lemma login_refines_spec_witness :
  (login_spec "ann" "pw" 1 2 failing_shop).1 = Some true /\
  exists db', login_logic "ann" "pw" 1 (shop_db failing_shop) = Ret (login_spec "ann" "pw" 1 2 failing_shop).1 db' /\
    ready [1] db' /\ wrappers db' = ∅ /\
    calls db' = [(1, CallConnect)] ++ map (pair 1) (login_spec "ann" "pw" 1 2 failing_shop).2.
Proof.
  split; [by vm_compute|].
  apply (login_refines_spec "ann" "pw" 1 [1] (shop_db failing_shop)); [apply shop_db_ready|left].
Defined.

Lemma register_sql_inj_witness : register_sql "ann" "pw" = register_sql "ann" "pw" -> "ann"%string = "ann"%string /\ "pw"%string = "pw"%string.
Proof. apply register_sql_inj; unfold quote_free; cbn; set_solver. Defined.

