(* ===== verification/Float32.v ===== *)
(** * Float32: single-precision arithmetic of the game code

    A C++ [float] is an IEEE 754 binary32 number; every operation is rounded to
    nearest even, as SSE code without contraction does.  The arithmetic is that of
    the Standard Library's executable specification [SpecFloat], at 24 bits of
    precision.  What [<cmath>] adds is defined here by its exact meaning; sine,
    cosine and arc tangent, which the standard does not fix, are arguments of the
    definitions that use them. *)

From Stdlib Require Import ZArith SpecFloat.
From stdpp Require Import base numbers.
From S2P Require Import Prelude.

Definition float := spec_float.

#[global] Instance float_eq_dec : EqDecision float.
Proof. solve_decision. Defined.

Definition fadd (x y : float) : float := SFadd 24 128 x y.
Definition fsub (x y : float) : float := SFsub 24 128 x y.
Definition fmul (x y : float) : float := SFmul 24 128 x y.
Definition fdiv (x y : float) : float := SFdiv 24 128 x y.
Definition fsqrt (x : float) : float := SFsqrt 24 128 x.

Declare Scope float_scope.
Delimit Scope float_scope with F.
Notation "x + y" := (fadd x y) : float_scope.
Notation "x - y" := (fsub x y) : float_scope.
Notation "x * y" := (fmul x y) : float_scope.
Notation "x / y" := (fdiv x y) : float_scope.
Notation "- x" := (SFopp x) : float_scope.
Notation "x <? y" := (SFltb x y) : float_scope.
Notation "x <=? y" := (SFleb x y) : float_scope.
Notation "x =? y" := (SFeqb x y) : float_scope.

(** [static_cast<float>(z)] for an integer. *)
Definition f_of_Z (z : Z) : float := binary_normalize 24 128 z 0 false.

(** A decimal literal: the correctly rounded quotient, for [n] and [d] below 2^24. *)
Definition flit (n d : Z) : float := fdiv (f_of_Z n) (f_of_Z d).

Definition f0 : float := S754_zero false.
Definition f1 : float := f_of_Z 1.

(** [std::max] and [std::min], in the order of their arguments. *)
Definition fmax (a b : float) : float := if (a <? b)%F then b else a.
Definition fmin (a b : float) : float := if (b <? a)%F then b else a.

(** [std::floor]'s value, for a finite number. *)
Definition f_floor (x : float) : option Z :=
  match x with
  | S754_zero _ => Some 0
  | S754_finite s m e =>
      let z := if s then Z.neg m else Z.pos m in
      Some (if 0 <=? e then z * 2 ^ e else z / 2 ^ (- e))
  | _ => None
  end.

(** Truncation towards zero. *)
Definition f_trunc (x : float) : option Z :=
  match x with
  | S754_zero _ => Some 0
  | S754_finite s m e =>
      let z := if 0 <=? e then Z.pos m * 2 ^ e else Z.pos m / 2 ^ (- e) in
      Some (if s : bool then - z else z)
  | _ => None
  end.

(** [std::round]: halves away from zero; the result is exact. *)
Definition f_round (x : float) : float :=
  match x with
  | S754_finite s m e =>
      if 0 <=? e then x
      else
        let z := (Z.pos m * 2 + 2 ^ (- e)) / (2 * 2 ^ (- e)) in
        match z with Z0 => S754_zero s | _ => f_of_Z (if s : bool then - z else z) end
  | _ => x
  end.

(** [static_cast<int>]: undefined outside the range of the type. *)
Definition to_int (z : Z) : option Z := if (- 2 ^ 31 <=? z) && (z <? 2 ^ 31) then Some z else None.

Definition f_to_int (x : float) : option Z := z ← f_trunc x; to_int z.

Lemma to_int_range z k : to_int z = Some k -> k = z /\ - 2 ^ 31 <= z < 2 ^ 31.
Proof. unfold to_int. destruct (_ && _) eqn:E; [|done]. intros [= <-]. bool_to_prop. lia. Qed.

Example flit_tenth : flit 1 10 = S754_finite false 13421773 (-27).
Proof. reflexivity. Qed.

Example round_half : f_round (flit 5 2) = f_of_Z 3 /\ f_round (flit (-5) 2) = f_of_Z (-3).
Proof. done. Qed.

Example floor_negative : f_floor (flit (-1) 10) = Some (-1).
Proof. reflexivity. Qed.

(** ** Double precision, where the code converts *)

Definition d_of_Z (z : Z) : spec_float := binary_normalize 53 1024 z 0 false.

(** [static_cast<double>] of a [float]: exact. *)
Definition d_of_f (x : float) : spec_float :=
  match x with
  | S754_finite s m e => binary_normalize 53 1024 (if s then Z.neg m else Z.pos m) e s
  | _ => x
  end.

Definition dmul (x y : spec_float) : spec_float := SFmul 53 1024 x y.

(** [static_cast<int32_t>]; out of range, the result of the x86 conversion. *)
Definition cast_i32 (x : spec_float) : Z := default (- 2 ^ 31) (f_to_int x).

Example double_product : cast_i32 (dmul (d_of_Z 100) (d_of_f (flit 6 5))) = 120.
Proof. reflexivity. Qed.

(** The order of floats is strict. *)
Lemma SFltb_trans a b c : SFltb a b = true -> SFltb b c = true -> SFltb a c = true.
Proof.
  unfold SFltb. destruct a as [[]|[]| |[] ma ea], b as [[]|[]| |[] mb eb], c as [[]|[]| |[] mc ec]; cbn; try done;
    destruct (Z.compare_spec ea eb) as [?|?|?]; try done;
    destruct (Z.compare_spec eb ec) as [?|?|?]; try done;
    destruct (Z.compare_spec ea ec) as [?|?|?]; try lia; try done;
    fold (Pos.compare ma mb); fold (Pos.compare mb mc); fold (Pos.compare ma mc);
    destruct (Pos.compare_spec ma mb) as [?|?|?]; try done;
    destruct (Pos.compare_spec mb mc) as [?|?|?]; try done;
    destruct (Pos.compare_spec ma mc) as [?|?|?]; try done; lia.
Qed.

Lemma SFltb_irrefl a : SFltb a a = false.
Proof.
  unfold SFltb. destruct a as [[]|[]| |[] m e]; cbn; try done; rewrite Z.compare_refl;
    fold (Pos.compare m m); by rewrite Pos.compare_refl.
Qed.

Lemma SFleb_ltb a b : SFleb a b = true -> SFltb b a = false.
Proof.
  unfold SFleb, SFltb. destruct a as [[]|[]| |[] ma ea], b as [[]|[]| |[] mb eb]; cbn; try done;
    rewrite (Z.compare_antisym ea eb); destruct (Z.compare ea eb); cbn; try done;
    fold (Pos.compare ma mb); fold (Pos.compare mb ma); rewrite (Pos.compare_antisym ma mb);
    by destruct (Pos.compare ma mb).
Qed.
