(* ===== verification/Random.v ===== *)
(** * Random: the fast generator

    Models src/System/Utility/FastRandom.h: xorshift128+ on two 64-bit words.  The
    game keeps one generator per thread and per place of use. *)

From stdpp Require Import base strings gmap option list.
From S2P Require Import Prelude Float32.

(** ** FastRandom *)

Record FastRandom := mkRandom { st0 : Z; st1 : Z }.

Definition Next (r : FastRandom) : Z * FastRandom :=
  let s1 := st0 r in
  let s0 := st1 r in
  let s1 := Z.lxor s1 (u64 (Z.shiftl s1 23)) in
  let n := Z.lxor (Z.lxor (Z.lxor s1 s0) (Z.shiftr s1 18)) (Z.shiftr s0 5) in
  (u64 (n + s0), mkRandom s0 n).

Fixpoint warm_up (n : nat) (r : FastRandom) : FastRandom := match n with O => r | S n => warm_up n (Next r).2 end.

Definition FastRandom_seed (seed : Z) : FastRandom := warm_up 10 (mkRandom seed (Z.lxor seed 0x123456789ABCDEF)).
Definition FastRandom_new : FastRandom := FastRandom_seed 1234567890.

Definition NextFloat (r : FastRandom) : float * FastRandom :=
  let '(n, r) := Next r in ((f_of_Z (Z.shiftr n 40) / f_of_Z 16777216)%F, r).

Definition NextFloat_range (lo hi : float) (r : FastRandom) : float * FastRandom :=
  let '(x, r) := NextFloat r in ((lo + x * (hi - lo))%F, r).

(** The modulus is an [int] converted to 64 bits; [None] is a division by zero. *)
Definition NextInt (lo hi : Z) (r : FastRandom) : option (Z * FastRandom) :=
  let '(n, r) := Next r in
  let d := u64 (i32 (hi - lo + 1)) in
  if d =? 0 then None else Some (i32 (lo + i32 (n mod d)), r).

Definition NextBool (probability : float) (r : FastRandom) : bool * FastRandom :=
  let '(x, r) := NextFloat r in ((x <? probability)%F, r).

(** ** The generator *)

Definition random_ok (r : FastRandom) : Prop := in_u 64 (st0 r) /\ in_u 64 (st1 r) /\ (st0 r <> 0 \/ st1 r <> 0).

Lemma lxor_bound w a b : 0 <= w -> in_u w a -> in_u w b -> in_u w (Z.lxor a b).
Proof.
  unfold in_u. intros Hw Ha Hb. assert (Z.lxor a b = Z.lxor a b mod 2 ^ w) as ->; [|apply Z.mod_pos_bound; lia].
  apply Z.bits_inj'. intros n Hn. destruct (Z.lt_ge_cases n w) as [Hlt|Hge].
  - by rewrite Z.mod_pow2_bits_low.
  - rewrite Z.mod_pow2_bits_high, Z.lxor_spec by lia.
    rewrite <- (Z.mod_small a (2 ^ w)), <- (Z.mod_small b (2 ^ w)), !Z.mod_pow2_bits_high by lia. done.
Qed.

Lemma shiftr_bound w a n : 0 <= w -> 0 <= n -> in_u w a -> in_u w (Z.shiftr a n).
Proof.
  unfold in_u. intros Hw Hn Ha. rewrite Z.shiftr_div_pow2 by lia. split; [apply Z.div_pos; lia|].
  apply Z.div_lt_upper_bound; [lia|]. nia.
Qed.

Lemma lxor_zero_eq a b : Z.lxor a b = 0 -> a = b.
Proof. apply Z.lxor_eq. Qed.

(** The left shift of the step is injective at zero. *)
Lemma shift_step_zero a : in_u 64 a -> Z.lxor a (u64 (Z.shiftl a 23)) = 0 -> a = 0.
Proof.
  unfold in_u. intros Ha E%lxor_zero_eq. rewrite Z.shiftl_mul_pow2 in E by lia. unfold wrap in E.
  pose proof (Z.div_mod (a * 2 ^ 23) (2 ^ 64) ltac:(lia)) as Hd. rewrite <- E in Hd.
  assert (2 ^ 64 | (2 ^ 23 - 1) * a) as Hdiv by (exists (a * 2 ^ 23 / 2 ^ 64); lia).
  apply Z.gauss in Hdiv; [|reflexivity]. destruct Hdiv as [q Hq]. nia.
Qed.

Lemma Next_ok r : random_ok r -> random_ok (Next r).2 /\ in_u 64 (Next r).1.
Proof.
  intros (H0 & H1 & Hnz). cbn [Next fst snd].
  remember (Z.lxor (st0 r) (u64 (Z.shiftl (st0 r) 23))) as s eqn:Es.
  assert (in_u 64 s) as Hs by (subst s; apply lxor_bound; [lia|done|apply wrap_bound; lia]).
  assert (in_u 64 (Z.lxor (Z.lxor (Z.lxor s (st1 r)) (Z.shiftr s 18)) (Z.shiftr (st1 r) 5))) as Hn.
  { repeat apply lxor_bound; try lia; try done; apply shiftr_bound; (done || lia). }
  split; [|apply wrap_bound; lia]. split_and!; [done|done|]. cbn [st0 st1].
  destruct (decide (st1 r = 0)) as [E|E]; [|by left]. right. rewrite E. change (Z.shiftr 0 5) with 0. rewrite !Z.lxor_0_r.
  intros Ez%lxor_zero_eq. destruct Hnz as [Hnz|]; [|done]. apply Hnz, shift_step_zero; [done|]. rewrite <- Es.
  unfold in_u in Hs. rewrite Z.shiftr_div_pow2 in Ez by lia.
  destruct (decide (s = 0)) as [|Hne]; [done|]. pose proof (Z.div_lt s (2 ^ 18) ltac:(lia) ltac:(lia)). lia.
Qed.

Lemma warm_up_ok n r : random_ok r -> random_ok (warm_up n r).
Proof. revert r; induction n as [|n IH]; intros r Hr; [done|]. cbn. by apply IH, Next_ok. Qed.

Lemma seed_ok seed : in_u 64 seed -> random_ok (FastRandom_seed seed).
Proof.
  intros Hs. apply warm_up_ok. split_and!; [done|apply lxor_bound; [lia|done|unfold in_u; lia]|]. cbn.
  destruct (decide (seed = 0)) as [->|]; [right; done|by left].
Qed.

(** [n] numbers drawn from a generator. *)
Fixpoint drawn (n : nat) (r : FastRandom) : FastRandom := match n with O => r | S n => drawn n (Next r).2 end.

Lemma drawn_ok n r : random_ok r -> random_ok (drawn n r).
Proof. revert r; induction n as [|n IH]; intros r Hr; [done|]. cbn. by apply IH, Next_ok. Qed.

(** The generator never falls into the all-zero state in which xorshift would stay
    forever, whatever 64-bit seed it starts from, and an integer asked for between [lo]
    and [hi] is always in that range. *)
Theorem random_int_in_range seed n lo hi :
  in_u 64 seed -> - 2 ^ 31 <= lo <= hi -> hi < 2 ^ 31 -> hi - lo < 2 ^ 31 - 1 ->
  let r := drawn n (FastRandom_seed seed) in
  (st0 r <> 0 \/ st1 r <> 0) /\ exists v r', NextInt lo hi r = Some (v, r') /\ lo <= v <= hi.
Proof.
  intros Hs Hlo Hhi Hd. cbv zeta. pose proof (drawn_ok n _ (seed_ok seed Hs)) as Hr. split; [apply Hr|].
  destruct (Next_ok _ Hr) as [_ Hn]. unfold NextInt. destruct (Next _) as [v r']. cbn in Hn.
  rewrite swrap_small by lia. rewrite wrap_small by (unfold in_u; lia).
  destruct (_ =? 0) eqn:E; bool_to_prop; [lia|]. eexists _, r'. split; [done|].
  pose proof (Z.mod_pos_bound v (hi - lo + 1) ltac:(lia)). rewrite (swrap_small 32 (v mod _)) by lia. rewrite swrap_small by lia. lia.
Qed.

Lemma random_int_in_range_witness :
  exists v r', NextInt (-3) 3 (drawn 5 FastRandom_new) = Some (v, r') /\ -3 <= v <= 3.
Proof.
  destruct (random_int_in_range 1234567890 5 (-3) 3) as [_ E]; [split; [lia|reflexivity]|lia..|]. exact E.
Defined.
