(* ===== verification/Modifiers.v ===== *)
(** * Modifiers: stat modifiers of game objects

    Models src/Examples/VampireSurvivor/Server/Entity/StatModifier.h and
    ModifierContainer.cpp: base stats, a list of modifiers, and a cache of computed
    stats with dirty flags. *)

From stdpp Require Import countable base numbers gmap list.
From S2P Require Import Prelude Float32.

Inductive StatType := Speed | Attack | MaxHp | Cooldown | Area | ProjectileCount.

#[global] Instance StatType_eq_dec : EqDecision StatType.
Proof. solve_decision. Defined.

#[global] Instance StatType_countable : Countable StatType.
Proof.
  refine (inj_countable'
    (fun t => match t with Speed => 0 | Attack => 1 | MaxHp => 2 | Cooldown => 3 | Area => 4 | ProjectileCount => 5 end%nat)
    (fun n => match n with 0 => Speed | 1 => Attack | 2 => MaxHp | 3 => Cooldown | 4 => Area | _ => ProjectileCount end%nat) _).
  by intros [].
Defined.

Inductive ModifierOp := Flat | PercentAdd | PercentMult.

Record StatModifier := mkMod {
  type : StatType;
  op : ModifierOp;
  value : float;
  sourceId : Z;
  expirationTime : float;
  allowStacking : bool
}.

Record ModifierContainer := mkMods {
  _baseStats : gmap StatType float;
  _cachedStats : gmap StatType float;
  _dirty : gmap StatType bool;
  _modifiers : list StatModifier
}.

Definition ModifierContainer_new : ModifierContainer := mkMods ∅ ∅ ∅ [].

(** ** std::remove_if

    The loop of the common implementations on an array: the elements kept are
    moved to the front.  The elements are trivially copyable, so that a moved-from
    place keeps its value.  Result: the number kept and the array afterwards; what
    lies behind the elements kept is what the callers below read. *)

Fixpoint remove_loop {A} (p : A -> bool) (fuel i result : nat) (a : list A) : nat * list A :=
  match fuel with
  | O => (result, a)
  | S fuel =>
      match a !! i with
      | Some x =>
          if p x then remove_loop p fuel (S i) result a
          else remove_loop p fuel (S i) (S result) (<[result := x]> a)
      | None => (result, a)
      end
  end.

Definition remove_if {A} (p : A -> bool) (a : list A) : nat * list A := remove_loop p (length a) 0 0 a.

(** ** ModifierContainer *)

Definition SetDirty (t : StatType) (m : ModifierContainer) : ModifierContainer :=
  mkMods (_baseStats m) (_cachedStats m) (<[t := true]> (_dirty m)) (_modifiers m).

Definition set_modifiers (l : list StatModifier) (m : ModifierContainer) : ModifierContainer :=
  mkMods (_baseStats m) (_cachedStats m) (_dirty m) l.

Definition SetBaseStat (t : StatType) (v : float) (m : ModifierContainer) : ModifierContainer :=
  SetDirty t (mkMods (<[t := v]> (_baseStats m)) (_cachedStats m) (_dirty m) (_modifiers m)).

Definition GetBaseStat (t : StatType) (m : ModifierContainer) : float := default f0 (_baseStats m !! t).

(** [_modifiers.erase(std::remove_if(...), end)] *)
Definition erase_if (p : StatModifier -> bool) (m : ModifierContainer) : ModifierContainer :=
  let '(k, a) := remove_if p (_modifiers m) in set_modifiers (take k a) m.

Definition same_slot (mod_ : StatModifier) (m : StatModifier) : bool :=
  (sourceId m =? sourceId mod_) && bool_decide (type m = type mod_) && negb (allowStacking m).

Definition AddModifier (mod_ : StatModifier) (m : ModifierContainer) : ModifierContainer :=
  let m := if negb (allowStacking mod_) then erase_if (same_slot mod_) m else m in
  SetDirty (type mod_) (set_modifiers (_modifiers m ++ [mod_]) m).

(** The loop that marks the types found behind the new end, then the erasure. *)
Definition erase_and_mark (p : StatModifier -> bool) (m : ModifierContainer) : ModifierContainer :=
  let '(k, a) := remove_if p (_modifiers m) in
  let m := foldl (fun m x => SetDirty (type x) m) m (drop k a) in
  set_modifiers (take k a) m.

Definition RemoveBySourceId (source : Z) (m : ModifierContainer) : ModifierContainer :=
  erase_and_mark (fun x => sourceId x =? source) m.

Definition RemoveBySourceIdAndType (source : Z) (t : StatType) (m : ModifierContainer) : ModifierContainer :=
  let '(k, a) := remove_if (fun x => (sourceId x =? source) && bool_decide (type x = t)) (_modifiers m) in
  if (k <? length a)%nat then set_modifiers (take k a) (SetDirty t m) else m.

Definition Clear (m : ModifierContainer) : ModifierContainer := mkMods (_baseStats m) ∅ ∅ [].

Definition expired (now : float) (x : StatModifier) : bool :=
  (f0 <? expirationTime x)%F && (expirationTime x <=? now)%F.

Definition Update (now : float) (m : ModifierContainer) : ModifierContainer := erase_and_mark (expired now) m.

(** The three accumulators of [CalculateStat]. *)
Definition accumulate (t : StatType) (acc : float * float * float) (x : StatModifier) : float * float * float :=
  let '(flat, add, mult) := acc in
  if bool_decide (type x = t) then
    match op x with
    | Flat => ((flat + value x)%F, add, mult)
    | PercentAdd => (flat, (add + value x)%F, mult)
    | PercentMult => (flat, add, (mult * value x)%F)
    end
  else acc.

Definition CalculateStat (t : StatType) (m : ModifierContainer) : float :=
  let base := GetBaseStat t m in
  let '(flat, add, mult) := foldl (accumulate t) (f0, f0, f1) (_modifiers m) in
  let result := ((base + flat) * (f1 + add) * mult)%F in
  let result := (f_round (result * f_of_Z 1000) / f_of_Z 1000)%F in
  if bool_decide (t = Speed) && (result <? flit 1 10)%F then flit 1 10 else result.

Definition GetStat (t : StatType) (m : ModifierContainer) : float * ModifierContainer :=
  let m :=
    match _dirty m !! t with
    | Some true => mkMods (_baseStats m) (<[t := CalculateStat t m]> (_cachedStats m)) (<[t := false]> (_dirty m)) (_modifiers m)
    | _ =>
        match _cachedStats m !! t with
        | None => mkMods (_baseStats m) (<[t := CalculateStat t m]> (_cachedStats m)) (_dirty m) (_modifiers m)
        | Some _ => m
        end
    end in
  (default f0 (_cachedStats m !! t), m).

(** ** The removal loop *)

Lemma remove_loop_spec {A} (p : A -> bool) fuel i result (a l : list A) :
  (fuel = length a - i)%nat -> length a = length l -> (result <= i)%nat -> (i <= length a)%nat ->
  take result a = filter (fun x => p x = false) (take i l) -> drop result a = drop result l ->
  let kept := filter (fun x => p x = false) l in
  let '(k, a') := remove_loop p fuel i result a in
  k = length kept /\ length a' = length l /\ take k a' = kept /\ drop k a' = drop k l.
Proof.
  revert i result a; induction fuel as [|fuel IH]; intros i result a Hf Hl Hri Hi Ht Hd; cbn [remove_loop].
  - assert (take i l = l) as El by (apply take_ge; lia). rewrite El in Ht.
    rewrite <- Ht, length_take. split_and!; [lia|done|done|done].
  - destruct (a !! i) as [x|] eqn:Ex.
    2: { apply lookup_ge_None in Ex. lia. }
    assert (l !! i = Some x) as Elx.
    { rewrite <- Ex. replace i with (result + (i - result))%nat by lia. rewrite <- !lookup_drop. by rewrite Hd. }
    assert (filter (fun x => p x = false) (take (S i) l) =
      filter (fun x => p x = false) (take i l) ++ (if p x then [] else [x])) as Hfil.
    { rewrite (take_S_r _ _ _ Elx), filter_app. f_equal. rewrite filter_cons. by destruct (p x). }
    pose proof (lookup_lt_Some _ _ _ Ex) as Hlt. destruct (p x) eqn:Ep.
    + apply IH; try done; try lia. by rewrite Hfil, app_nil_r.
    + apply IH; rewrite ?length_insert; try done; try lia.
      * rewrite Hfil, <- Ht. rewrite (take_S_r _ _ x) by (rewrite list_lookup_insert_eq; [done|lia]).
        by rewrite take_insert_ge by lia.
      * rewrite drop_insert_lt by lia. replace (S result) with (result + 1)%nat by lia.
        by rewrite <- !drop_drop, Hd.
Qed.

(** What [remove_if] leaves: the elements kept, in order, in front; behind them the
    array is as it was. *)
Lemma remove_if_spec {A} (p : A -> bool) (l : list A) :
  let kept := filter (fun x => p x = false) l in
  let '(k, a) := remove_if p l in
  k = length kept /\ length a = length l /\ take k a = kept /\ drop k a = drop (length kept) l.
Proof.
  pose proof (remove_loop_spec p (length l) 0 0 l l ltac:(lia) eq_refl ltac:(lia) ltac:(lia) eq_refl eq_refl) as H.
  unfold remove_if. destruct (remove_loop p (length l) 0 0 l) as [k a]. destruct H as (-> & ? & ? & ?). done.
Qed.

Definition keep (p : StatModifier -> bool) (m : ModifierContainer) : list StatModifier :=
  filter (fun x => p x = false) (_modifiers m).

Lemma erase_if_eq p m : erase_if p m = set_modifiers (keep p m) m.
Proof.
  unfold erase_if, keep. pose proof (remove_if_spec p (_modifiers m)) as H.
  destruct (remove_if p (_modifiers m)) as [k a]. destruct H as (_ & _ & -> & _). done.
Qed.

(** The stats marked dirty are those of the last elements of the old array, as many
    as were removed, and not those of the elements removed. *)
Lemma erase_and_mark_eq p m :
  erase_and_mark p m =
  set_modifiers (keep p m) (foldl (fun m x => SetDirty (type x) m) m (drop (length (keep p m)) (_modifiers m))).
Proof.
  unfold erase_and_mark, keep. pose proof (remove_if_spec p (_modifiers m)) as H.
  destruct (remove_if p (_modifiers m)) as [k a]. destruct H as (_ & _ & -> & ->). done.
Qed.

Lemma RemoveBySourceIdAndType_eq source t m :
  let p x := (sourceId x =? source) && bool_decide (type x = t) in
  RemoveBySourceIdAndType source t m =
  if (length (keep p m) <? length (_modifiers m))%nat then set_modifiers (keep p m) (SetDirty t m) else m.
Proof.
  cbv zeta. unfold RemoveBySourceIdAndType, keep.
  pose proof (remove_if_spec (fun x => (sourceId x =? source) && bool_decide (type x = t)) (_modifiers m)) as H.
  destruct (remove_if _ (_modifiers m)) as [k a]. destruct H as (-> & -> & -> & _). done.
Qed.

(** ** Coherence of the cache *)

Definition of_type (t : StatType) (l : list StatModifier) : list StatModifier := filter (fun x => type x = t) l.

Lemma accumulate_of_type t l acc :
  foldl (accumulate t) acc l = foldl (accumulate t) acc (of_type t l).
Proof.
  unfold of_type. revert acc; induction l as [|x l IH]; intros acc; [done|]. rewrite filter_cons.
  cbn [foldl]. case_decide as E; cbn [foldl]; rewrite IH; [done|]. f_equal.
  unfold accumulate. destruct acc as [[? ?] ?]. by rewrite bool_decide_eq_false_2.
Qed.

(** A stat depends on its base and on the modifiers of its type. *)
Lemma CalculateStat_ext t m m' :
  GetBaseStat t m' = GetBaseStat t m -> of_type t (_modifiers m') = of_type t (_modifiers m) ->
  CalculateStat t m' = CalculateStat t m.
Proof.
  intros Hb Hm. unfold CalculateStat. rewrite Hb.
  rewrite (accumulate_of_type t (_modifiers m')), (accumulate_of_type t (_modifiers m)). by rewrite Hm.
Qed.

(** A cached stat that is not dirty is the computed one. *)
Definition coherent (m : ModifierContainer) : Prop :=
  forall t v, _dirty m !! t <> Some true -> _cachedStats m !! t = Some v -> v = CalculateStat t m.

Lemma GetStat_coherent t m : coherent m -> (GetStat t m).1 = CalculateStat t m.
Proof.
  intros Hc. unfold GetStat. destruct (_dirty m !! t) as [[|]|] eqn:Ed.
  - cbn. by rewrite lookup_insert_eq.
  - destruct (_cachedStats m !! t) as [v|] eqn:Ec; cbn; [|by rewrite lookup_insert_eq].
    rewrite Ec. cbn. apply Hc; [by rewrite Ed|done].
  - destruct (_cachedStats m !! t) as [v|] eqn:Ec; cbn; [|by rewrite lookup_insert_eq].
    rewrite Ec. cbn. apply Hc; [by rewrite Ed|done].
Qed.

Lemma GetStat_keeps_coherent t m : coherent m -> coherent (GetStat t m).2.
Proof.
  intros Hc. assert (forall d, (forall u, d !! u <> Some true -> u = t \/ _dirty m !! u <> Some true) ->
    coherent (mkMods (_baseStats m) (<[t := CalculateStat t m]> (_cachedStats m)) d (_modifiers m))) as H.
  { intros d Hd u v Hu. cbn in *. rewrite lookup_insert. case_decide as E; [intros [= <-]; by subst u|].
    intros Hv. apply (Hc u v); [|done]. destruct (Hd u Hu) as [->|?]; done. }
  unfold GetStat. destruct (_dirty m !! t) as [[|]|] eqn:Ed.
  - apply H. intros u Hu. rewrite lookup_insert in Hu. case_decide; [by left|by right].
  - destruct (_cachedStats m !! t); [done|]. apply H. intros u Hu. by right.
  - destruct (_cachedStats m !! t); [done|]. apply H. intros u Hu. by right.
Qed.

(** A change of base stats and modifiers that marks what it changes. *)
Lemma change_coherent m m' :
  coherent m -> _cachedStats m' = _cachedStats m ->
  (forall t, _dirty m' !! t <> Some true -> _dirty m !! t <> Some true /\
     GetBaseStat t m' = GetBaseStat t m /\ of_type t (_modifiers m') = of_type t (_modifiers m)) ->
  coherent m'.
Proof.
  intros Hc Ec Hch t v Hd Hv. destruct (Hch t Hd) as (Hd0 & Hb & Hm). rewrite (CalculateStat_ext t m m' Hb Hm).
  apply Hc; [done|by rewrite <- Ec].
Qed.

Lemma not_dirty_insert (d : gmap StatType bool) t u :
  <[t := true]> d !! u <> Some true -> u <> t /\ d !! u <> Some true.
Proof. rewrite lookup_insert. case_decide; [done|]. intros Hk. split; [congruence|done]. Qed.

Lemma SetBaseStat_coherent t v m : coherent m -> coherent (SetBaseStat t v m).
Proof.
  intros Hc. apply (change_coherent m); [done|done|]. cbn. intros u [Hu Hd]%not_dirty_insert.
  split_and!; [done| |done]. unfold GetBaseStat. cbn. by rewrite lookup_insert_ne by congruence.
Qed.

(** Erasing modifiers of one type only. *)
Lemma keep_other_type (p : StatModifier -> bool) t u l :
  (forall x, p x = true -> type x = t) -> u <> t -> of_type u (filter (fun x => p x = false) l) = of_type u l.
Proof.
  intros Hp Hu. unfold of_type. rewrite list_filter_filter. apply list_filter_iff. intros x. split; [by intros [? _]|].
  intros Hx. split; [done|]. destruct (p x) eqn:E; [|done]. apply Hp in E. congruence.
Qed.

Lemma same_slot_type mod_ x : same_slot mod_ x = true -> type x = type mod_.
Proof. unfold same_slot. intros [[_ H]%andb_true_iff _]%andb_true_iff. by apply bool_decide_eq_true in H. Qed.

Lemma AddModifier_modifiers mod_ m :
  _modifiers (AddModifier mod_ m) =
  (if allowStacking mod_ then _modifiers m else keep (same_slot mod_) m) ++ [mod_].
Proof. unfold AddModifier. rewrite erase_if_eq. by destruct (allowStacking mod_). Qed.

Lemma AddModifier_coherent mod_ m : coherent m -> coherent (AddModifier mod_ m).
Proof.
  intros Hc. apply (change_coherent m); [done|unfold AddModifier; rewrite erase_if_eq; by destruct (allowStacking mod_)|].
  intros u. rewrite AddModifier_modifiers. unfold AddModifier. rewrite erase_if_eq. cbn. intros Hd.
  assert (u <> type mod_ /\ _dirty m !! u <> Some true) as [Hu Hd'] by (destruct (allowStacking mod_); by apply not_dirty_insert).
  split_and!; [done|by destruct (allowStacking mod_)|].
  unfold of_type at 1. rewrite filter_app, filter_cons, decide_False by congruence. rewrite app_nil_r.
  destruct (allowStacking mod_); [done|]. apply (keep_other_type _ (type mod_)); [apply same_slot_type|done].
Qed.

Lemma RemoveBySourceIdAndType_coherent source t m : coherent m -> coherent (RemoveBySourceIdAndType source t m).
Proof.
  intros Hc. rewrite RemoveBySourceIdAndType_eq. destruct (_ <? _)%nat; [|done].
  apply (change_coherent m); [done|done|]. cbn. intros u [Hu Hd]%not_dirty_insert. split_and!; [done|done|].
  apply (keep_other_type _ t); [|done]. intros x [_ Hx]%andb_true_iff. by apply bool_decide_eq_true in Hx.
Qed.

Lemma Clear_coherent m : coherent (Clear m).
Proof. intros t v _. cbn. by rewrite lookup_empty. Qed.

(** Marking a list of types. *)
Lemma mark_all l m :
  let m' := foldl (fun m x => SetDirty (type x) m) m l in
  _baseStats m' = _baseStats m /\ _cachedStats m' = _cachedStats m /\ _modifiers m' = _modifiers m /\
  forall t, _dirty m' !! t <> Some true <-> _dirty m !! t <> Some true /\ Forall (fun x => type x <> t) l.
Proof.
  revert m; induction l as [|x l IH]; intros m; cbn [foldl]; [split_and!; try done; intros t; split; [by split|by intros [? _]]|].
  destruct (IH (SetDirty (type x) m)) as (-> & -> & -> & Hd). split_and!; try done. intros t. rewrite Hd, Forall_cons. cbn.
  split.
  - intros [[Ht Hm]%not_dirty_insert Hl]. split_and!; [done|congruence|done].
  - intros [Hm [Hx Hl]]. split; [|done]. by rewrite lookup_insert_ne.
Qed.

Lemma filter_length_all {A} (p : A -> bool) (l : list A) :
  (length l <= length (filter (fun x => p x = false) l))%nat -> filter (fun x => p x = false) l = l.
Proof.
  induction l as [|x l IH]; [done|]. rewrite filter_cons. cbn. case_decide; cbn; intros Hl.
  - f_equal. apply IH. lia.
  - pose proof (length_filter (fun x => p x = false) l). lia.
Qed.

(** When all modifiers have the same type, the marks are right. *)
Lemma erase_and_mark_coherent p t0 m :
  coherent m -> Forall (fun x => type x = t0) (_modifiers m) -> coherent (erase_and_mark p m).
Proof.
  intros Hc Hu. rewrite erase_and_mark_eq.
  destruct (mark_all (drop (length (keep p m)) (_modifiers m)) m) as (Eb & Ec & Em & Ed).
  apply (change_coherent m); [done|done|]. intros t Ht. cbn in *. apply Ed in Ht as [Ht Hl]. split_and!; [done| |].
  { unfold GetBaseStat. cbn. by rewrite Eb. }
  destruct (drop (length (keep p m)) (_modifiers m)) as [|x l] eqn:El.
  - assert (length (_modifiers m) <= length (keep p m))%nat as Hlen.
    { pose proof (length_drop (_modifiers m) (length (keep p m))) as H. rewrite El in H. cbn in H. lia. }
    f_equal. by apply filter_length_all.
  - rewrite Forall_forall in Hu. assert (type x = t0) as Hx.
    { apply Hu. rewrite <- (take_drop (length (keep p m)) (_modifiers m)), El. apply elem_of_app. right. left. }
    apply Forall_cons in Hl as [Hl _]. rewrite Hx in Hl.
    assert (forall k, (forall y, y ∈ k -> y ∈ _modifiers m) -> of_type t k = []) as Hnil.
    { intros k Hk. unfold of_type. induction k as [|y k IHk]; [done|]. rewrite filter_cons, decide_False.
      - apply IHk. intros z Hz. apply Hk. by right.
      - rewrite (Hu y) by (apply Hk; left). done. }
    rewrite (Hnil (_modifiers m)) by done. apply Hnil. intros y Hy. unfold keep in Hy. by apply list_elem_of_filter in Hy as [_ Hy].
Qed.

(** ** Properties *)

Inductive ModOp :=
| OpSetBase (t : StatType) (v : float)
| OpAdd (x : StatModifier)
| OpRemoveTyped (source : Z) (t : StatType)
| OpRemoveSource (source : Z)
| OpUpdate (now : float)
| OpClear
| OpGet (t : StatType).

Definition mod_exec (o : ModOp) (m : ModifierContainer) : ModifierContainer :=
  match o with
  | OpSetBase t v => SetBaseStat t v m
  | OpAdd x => AddModifier x m
  | OpRemoveTyped s t => RemoveBySourceIdAndType s t m
  | OpRemoveSource s => RemoveBySourceId s m
  | OpUpdate now => Update now m
  | OpClear => Clear m
  | OpGet t => (GetStat t m).2
  end.

Definition mod_run (ops : list ModOp) (m : ModifierContainer) : ModifierContainer := foldl (fun m o => mod_exec o m) m ops.

(** The operations that mark what they remove by its type. *)
Definition typed_op (o : ModOp) : bool := match o with OpRemoveSource _ | OpUpdate _ => false | _ => true end.

Definition adds_type (t : StatType) (o : ModOp) : Prop := match o with OpAdd x => type x = t | _ => True end.

Lemma mod_exec_coherent o m :
  coherent m -> (typed_op o = true \/ exists t, Forall (fun x => type x = t) (_modifiers m)) -> coherent (mod_exec o m).
Proof.
  intros Hc Ho. destruct o; cbn [mod_exec];
    eauto using SetBaseStat_coherent, AddModifier_coherent, RemoveBySourceIdAndType_coherent, Clear_coherent, GetStat_keeps_coherent.
  - destruct Ho as [?|[t Ht]]; [done|]. by eapply erase_and_mark_coherent.
  - destruct Ho as [?|[t Ht]]; [done|]. by eapply erase_and_mark_coherent.
Qed.

Lemma mod_exec_uniform o t m :
  adds_type t o -> Forall (fun x => type x = t) (_modifiers m) -> Forall (fun x => type x = t) (_modifiers (mod_exec o m)).
Proof.
  intros Ho Hu. assert (forall p, Forall (fun x => type x = t) (keep p m)) as Hk.
  { intros p. apply Forall_forall. intros x Hx. unfold keep in Hx. apply list_elem_of_filter in Hx as [_ Hx].
    rewrite Forall_forall in Hu. by apply Hu. }
  destruct o as [| x | source t' | | | |t']; cbn [mod_exec].
  - done.
  - rewrite AddModifier_modifiers. apply Forall_app. split; [destruct (allowStacking x); [done|apply Hk]|]. by apply Forall_singleton.
  - rewrite RemoveBySourceIdAndType_eq. destruct (_ <? _)%nat; [apply Hk|done].
  - unfold RemoveBySourceId. rewrite erase_and_mark_eq. apply Hk.
  - unfold Update. rewrite erase_and_mark_eq. apply Hk.
  - constructor.
  - unfold GetStat. by destruct (_dirty m !! t') as [[|]|], (_cachedStats m !! t').
Qed.

(** [GetStat] answers with the current stat: after any sequence of operations
    that either removes modifiers by source and type only, or uses modifiers of a
    single type only (as monsters do), the cached answer of [GetStat] is what
    [CalculateStat] computes from the base stat and the modifiers present. *)
Theorem stat_cache_is_current ops t
  (Hsafe : Forall (fun o => typed_op o = true) ops \/ exists t0, Forall (adds_type t0) ops) :
  let m := mod_run ops ModifierContainer_new in (GetStat t m).1 = CalculateStat t m.
Proof.
  cbv zeta. apply GetStat_coherent. assert (coherent ModifierContainer_new) as H0 by (intros u v _; cbn; by rewrite lookup_empty).
  unfold mod_run. destruct Hsafe as [Hs|[t0 Hs]].
  - clear -Hs H0. revert H0. generalize ModifierContainer_new.
    induction Hs as [|o ops Ho Hs IH]; intros m Hm; cbn [foldl]; [done|]. apply IH, mod_exec_coherent; [done|by left].
  - assert (Forall (fun x => type x = t0) (_modifiers ModifierContainer_new)) as Hu by constructor.
    clear -Hs H0 Hu. revert H0 Hu. generalize ModifierContainer_new.
    induction Hs as [|o ops Ho Hs IH]; intros m Hm Hu; cbn [foldl]; [done|].
    apply IH; [apply mod_exec_coherent; [done|right; by exists t0]|by apply mod_exec_uniform].
Qed.

(** A slow with source 1000 in front of an attack bonus with source 7. *)
Definition demo_slow : StatModifier := mkMod Speed PercentMult (flit 1 2) 1000 f0 false.
Definition demo_attack : StatModifier := mkMod Attack Flat (f_of_Z 5) 7 f0 false.

Lemma stat_cache_is_current_witness :
  let ops := [OpSetBase Speed (f_of_Z 4); OpAdd demo_slow; OpGet Speed; OpRemoveSource 1000] in
  (GetStat Speed (mod_run ops ModifierContainer_new)).1 = CalculateStat Speed (mod_run ops ModifierContainer_new) /\
  CalculateStat Speed (mod_run ops ModifierContainer_new) = f_of_Z 4.
Proof.
  split; [apply (stat_cache_is_current _ Speed); right; exists Speed; repeat constructor|vm_compute; reflexivity].
Defined.

(** [RemoveBySourceId] (and [Update], which ends the same way) can leave a stale
    stat: the loop that marks stats dirty reads the elements behind the new end after
    [std::remove_if] has moved the others to the front, so it marks the stat of a
    modifier that stays.  Here the slow is removed, no modifier of the speed is
    left, and [GetStat] still answers with the slowed speed. *)
Theorem removed_modifier_still_counts :
  let m := mod_run [OpSetBase Speed (f_of_Z 4); OpAdd demo_slow; OpAdd demo_attack; OpGet Speed; OpRemoveSource 1000]
             ModifierContainer_new in
  of_type Speed (_modifiers m) = [] /\ CalculateStat Speed m = f_of_Z 4 /\ (GetStat Speed m).1 = f_of_Z 2.
Proof. vm_compute. done. Qed.

(** The keys of the non-stacking modifiers. *)
Definition slots (l : list StatModifier) : list (Z * StatType) :=
  (fun x => (sourceId x, type x)) <$> filter (fun x => allowStacking x = false) l.

Lemma slots_keep p l : NoDup (slots l) -> NoDup (slots (filter (fun x => p x = false) l)).
Proof.
  intros Hn. eapply sublist_NoDup; [exact Hn|]. unfold slots. apply fmap_sublist.
  rewrite list_filter_filter, (list_filter_iff _ (fun x => p x = false /\ allowStacking x = false)) by tauto.
  rewrite <- list_filter_filter. apply sublist_filter.
Qed.

Lemma slots_add x l :
  allowStacking x = false -> NoDup (slots l) -> NoDup (slots (filter (fun y => same_slot x y = false) l ++ [x])).
Proof.
  intros Hx Hn. unfold slots. rewrite filter_app, fmap_app. apply NoDup_app. split_and!.
  - by apply slots_keep.
  - intros k (y & -> & Hy)%list_elem_of_fmap. apply list_elem_of_filter in Hy as [Hs Hy].
    apply list_elem_of_filter in Hy as [Hd _]. rewrite filter_cons, decide_True by done. cbn.
    intros [= Es Et]%list_elem_of_singleton. unfold same_slot in Hd. rewrite Es, Et, Z.eqb_refl, bool_decide_eq_true_2, Hs in Hd by done.
    done.
  - rewrite filter_cons, decide_True by done. apply NoDup_singleton.
Qed.

Lemma slots_stacking x l : allowStacking x = true -> slots (l ++ [x]) = slots l.
Proof. intros Hx. unfold slots. rewrite filter_app, filter_cons, decide_False by congruence. by rewrite app_nil_r. Qed.

(** The refresh policy: however modifiers are added, removed and expire, there
    are never two non-stacking modifiers with the same source and stat. *)
Theorem non_stacking_modifiers_unique ops :
  NoDup (slots (_modifiers (mod_run ops ModifierContainer_new))).
Proof.
  assert (NoDup (slots (_modifiers ModifierContainer_new))) as H0 by constructor.
  unfold mod_run. revert H0. generalize ModifierContainer_new.
  induction ops as [|o ops IH]; intros m Hm; cbn [foldl]; [done|]. apply IH.
  destruct o as [| x | source t' | | | |t']; cbn [mod_exec].
  - done.
  - rewrite AddModifier_modifiers. destruct (allowStacking x) eqn:Ex; [by rewrite slots_stacking|by apply slots_add].
  - rewrite RemoveBySourceIdAndType_eq. destruct (_ <? _)%nat; [by apply slots_keep|done].
  - unfold RemoveBySourceId. rewrite erase_and_mark_eq. by apply slots_keep.
  - unfold Update. rewrite erase_and_mark_eq. by apply slots_keep.
  - constructor.
  - unfold GetStat. by destruct (_dirty m !! t') as [[|]|], (_cachedStats m !! t').
Qed.
