(* ===== verification/GameData.v ===== *)
(** * GameData: the static data of the example game

    Models src/Examples/VampireSurvivor/Server/Core/DataManager.h and
    DataManager.cpp: the templates of monsters, players, skills, waves, weapons and
    passives, the tables that hold them, and the loaders that fill the tables from
    JSON files.  The JSON library is third-party: it is the class [Json] below, and
    a file is given as the value it parses to ([None]: it cannot be opened or
    parsed).  A loader that fails ends the process, so that its result is [None]. *)

From stdpp Require Import base strings gmap option list.
From S2P Require Import Prelude Float32.

Local Open Scope string_scope.

Inductive MonsterAIType := CHASER | WANDER | SWARM | BOSS.

Record MonsterInfo := mkMonsterInfo {
  mi_id : Z; mi_name : string; mi_hp : Z; mi_speed : float; mi_radius : float;
  mi_damageOnContact : Z; mi_attackCooldown : float; mi_aiType : MonsterAIType
}.

Record PlayerInfo := mkPlayerInfo {
  pi_id : Z; pi_name : string; pi_hp : Z; pi_speed : float; pi_defaultSkills : list Z
}.

Record SkillInfo := mkSkillInfo {
  si_id : Z; si_name : string; si_damage : Z; si_tickInterval : float; si_hitRadius : float;
  si_lifeTime : float; si_emitterType : string; si_typeId : Z; si_pierce : Z;
  si_maxTargetsPerTick : Z; si_targetRule : string; si_effectType : string;
  si_effectValue : float; si_effectDuration : float; si_effectInterval : float;
  si_activeDuration : float; si_dotInterval : float; si_arcDegrees : float;
  si_width : float; si_height : float; si_traits : list string
}.

Record WaveInfo := mkWaveInfo {
  wv_waveId : Z; wv_startTime : float; wv_duration : float; wv_monsterTypeId : Z;
  wv_count : Z; wv_interval : float; wv_hpMultiplier : float
}.

Record WeaponLevelInfo := mkWeaponLevelInfo {
  wl_level : Z; wl_skillId : Z; wl_damageMult : float; wl_cooldownMult : float;
  wl_durationMult : float; wl_areaMult : float; wl_speedMult : float; wl_desc : string;
  wl_projectileCount : Z; wl_pierceCount : Z; wl_maxTargets : Z; wl_critChance : float;
  wl_critDamageMult : float; wl_effectType : string; wl_effectValue : float;
  wl_effectDuration : float; wl_flags : list string; wl_params : gmap string float
}.

Record WeaponInfo := mkWeaponInfo {
  wp_id : Z; wp_name : string; wp_description : string; wp_icon : string; wp_maxLevel : Z;
  wp_weight : Z; wp_uniqueGroup : Z; wp_evolutionId : Z; wp_evolutionPassiveId : Z;
  wp_levels : list WeaponLevelInfo
}.

Record PassiveLevelInfo := mkPassiveLevelInfo {
  pl_level : Z; pl_bonus : float; pl_bonus2 : float; pl_desc : string
}.

Record PassiveInfo := mkPassiveInfo {
  ps_id : Z; ps_name : string; ps_description : string; ps_icon : string; ps_statType : string;
  ps_statType2 : string; ps_maxLevel : Z; ps_weight : Z; ps_uniqueGroup : Z;
  ps_levels : list PassiveLevelInfo
}.

Record DataManager := mkDataManager {
  _monsters : gmap Z MonsterInfo;
  _players : gmap Z PlayerInfo;
  _skills : gmap Z SkillInfo;
  _waves : list WaveInfo;
  _weaponInfos : gmap Z WeaponInfo;
  _passiveInfos : gmap Z PassiveInfo
}.

Definition DataManager_new : DataManager := mkDataManager ∅ ∅ ∅ [] ∅ ∅.

Definition GetMonsterInfo (D : DataManager) (id : Z) : option MonsterInfo := _monsters D !! id.
Definition GetPlayerInfo (D : DataManager) (id : Z) : option PlayerInfo := _players D !! id.
Definition GetSkillInfo (D : DataManager) (id : Z) : option SkillInfo := _skills D !! id.
Definition GetWeaponInfo (D : DataManager) (id : Z) : option WeaponInfo := _weaponInfos D !! id.
Definition GetPassiveInfo (D : DataManager) (id : Z) : option PassiveInfo := _passiveInfos D !! id.
Definition GetWaves (D : DataManager) : list WaveInfo := _waves D.

(** ** Iteration over hash tables

    The order in which an [unordered_map] is iterated is unspecified: it is an
    argument of the definitions that iterate, of which only the elements are known. *)

Class IterationOrder := {
  iter_order {A : Type} : gmap Z A -> list (Z * A);
  iter_order_perm {A : Type} (m : gmap Z A) : iter_order m ≡ₚ map_to_list m
}.

Definition any_order : IterationOrder := {|
  iter_order := fun A m => map_to_list m;
  iter_order_perm := fun A m => Permutation_refl _
|}.

Lemma elem_of_iter_order `{IterationOrder} {A} (m : gmap Z A) k v : (k, v) ∈ iter_order m <-> m !! k = Some v.
Proof. by rewrite iter_order_perm, elem_of_map_to_list. Qed.

Lemma NoDup_iter_keys `{IterationOrder} {A} (m : gmap Z A) : NoDup (iter_order m).*1.
Proof. rewrite iter_order_perm. apply NoDup_fst_map_to_list. Qed.

(** ** Loaders *)

(** What the loaders use of the JSON library; [None] is an exception, which every
    loader turns into the end of the process. *)
Class Json := {
  json : Type;
  elements : json -> list json;                 (* range-based for *)
  members : json -> list (string * json);       (* begin() .. end() of an object *)
  field : json -> string -> option json;        (* operator[] *)
  contains : json -> string -> bool;
  is_array : json -> bool;
  is_object : json -> bool;
  is_number : json -> bool;
  get_int : json -> option Z;
  get_float : json -> option float;
  get_string : json -> option string;
  value_int : json -> string -> Z -> option Z;
  value_float : json -> string -> float -> option float;
  value_string : json -> string -> string -> option string
}.

(** A loop whose body can fail. *)
Fixpoint for_each {A S} (f : A -> S -> option S) (l : list A) (s : S) : option S :=
  match l with
  | [] => Some s
  | x :: l => f x s ≫= for_each f l
  end.

(** [std::sort]: for equal keys the order it leaves is unspecified; this is one. *)
Fixpoint insert_sorted {A} (lt : A -> A -> bool) (x : A) (l : list A) : list A :=
  match l with
  | [] => [x]
  | y :: l' => if lt x y then x :: l else y :: insert_sorted lt x l'
  end.

Definition std_sort {A} (lt : A -> A -> bool) (l : list A) : list A := foldl (fun acc x => insert_sorted lt x acc) [] l.

Section Loaders.
Context `{Json}.

Definition field_int (item : json) (k : string) : option Z := field item k ≫= get_int.
Definition field_float (item : json) (k : string) : option float := field item k ≫= get_float.
Definition field_string (item : json) (k : string) : option string := field item k ≫= get_string.

Definition load_monster (item : json) (D : DataManager) : option DataManager :=
  i ← field_int item "id"; n ← field_string item "name"; h ← field_int item "hp";
  sp ← value_float item "speed" (f_of_Z 2); r ← value_float item "radius" (flit 1 2);
  dmg ← value_int item "damage_on_contact" 10; cd ← value_float item "attack_cooldown" f1;
  ai ← value_string item "ai_type" "CHASER";
  let t := if bool_decide (ai = "SWARM") then SWARM else if bool_decide (ai = "WANDER") then WANDER else CHASER in
  Some (mkDataManager (<[i := mkMonsterInfo i n h sp r dmg cd t]> (_monsters D))
          (_players D) (_skills D) (_waves D) (_weaponInfos D) (_passiveInfos D)).

Definition LoadMonsterData (file : option json) (D : DataManager) : option DataManager :=
  j ← file; for_each load_monster (elements j) D.

Definition load_player (item : json) (D : DataManager) : option DataManager :=
  i ← field_int item "id"; n ← field_string item "name"; h ← field_int item "hp";
  sp ← value_float item "speed" (f_of_Z 5);
  skills ← (if contains item "defaultSkills"
            then js ← field item "defaultSkills"; mapM get_int (elements js) else Some []);
  Some (mkDataManager (_monsters D) (<[i := mkPlayerInfo i n h sp skills]> (_players D))
          (_skills D) (_waves D) (_weaponInfos D) (_passiveInfos D)).

Definition LoadPlayerData (file : option json) (D : DataManager) : option DataManager :=
  j ← file; for_each load_player (elements j) D.

(** The strings of an array member, none when it is absent or no array. *)
Definition strings_of (item : json) (k : string) : option (list string) :=
  if contains item k then
    js ← field item k; if is_array js then mapM get_string (elements js) else Some []
  else Some [].

Definition load_skill (item : json) (D : DataManager) : option DataManager :=
  i ← field_int item "id"; n ← field_string item "name"; dmg ← field_int item "damage";
  tick ← value_float item "tick_interval" f1; r ← value_float item "hit_radius" (f_of_Z 2);
  life ← value_float item "life_time" f0; et ← value_string item "emitter_type" "AoE";
  tid ← value_int item "type_id" 0; pierce ← value_int item "pierce" 1;
  mt ← value_int item "max_targets_per_tick" 1; tr ← value_string item "target_rule" "Nearest";
  eft ← value_string item "effect_type" EmptyString; efv ← value_float item "effect_value" f0;
  efd ← value_float item "effect_duration" f0; efi ← value_float item "effect_interval" f0;
  act ← value_float item "active_duration" f0; dot ← value_float item "dot_interval" (flit 1 2);
  arc ← value_float item "arc_degrees" (f_of_Z 30); w ← value_float item "width" f0;
  h ← value_float item "height" f0; traits ← strings_of item "traits";
  let data := mkSkillInfo i n dmg tick r life et tid pierce mt tr eft efv efd efi act dot arc w h traits in
  Some (mkDataManager (_monsters D) (_players D) (<[i := data]> (_skills D))
          (_waves D) (_weaponInfos D) (_passiveInfos D)).

Definition LoadSkillData (file : option json) (D : DataManager) : option DataManager :=
  j ← file; for_each load_skill (elements j) D.

Definition load_wave (item : json) (D : DataManager) : option DataManager :=
  w ← field_int item "wave_id"; st ← field_float item "start_time"; d ← field_float item "duration";
  mt ← field_int item "monster_type_id"; c ← field_int item "count";
  i ← value_float item "interval" f1; hm ← value_float item "hp_multiplier" f1;
  Some (mkDataManager (_monsters D) (_players D) (_skills D)
          (_waves D ++ [mkWaveInfo w st d mt c i hm]) (_weaponInfos D) (_passiveInfos D)).

Definition LoadWaveData (file : option json) (D : DataManager) : option DataManager :=
  j ← file; D ← for_each load_wave (elements j) D;
  Some (mkDataManager (_monsters D) (_players D) (_skills D)
          (std_sort (fun a b => wv_startTime a <? wv_startTime b)%F (_waves D)) (_weaponInfos D) (_passiveInfos D)).

Definition load_params (lvl : json) : option (gmap string float) :=
  if contains lvl "params" then
    js ← field lvl "params";
    if is_object js then
      for_each (fun '(k, v) acc => if is_number v then x ← get_float v; Some (<[k := x]> acc) else Some acc) (members js) ∅
    else Some ∅
  else Some ∅.

Definition load_weapon_level (lvl : json) : option WeaponLevelInfo :=
  l ← field_int lvl "level"; s ← field_int lvl "skill_id"; dm ← value_float lvl "damage_mult" f1;
  cm ← value_float lvl "cooldown_mult" f1; du ← value_float lvl "duration_mult" f1;
  am ← value_float lvl "area_mult" f1; sm ← value_float lvl "speed_mult" f1;
  de ← value_string lvl "desc" EmptyString; pc ← value_int lvl "projectile_count" 0;
  pi ← value_int lvl "pierce_count" 0; mt ← value_int lvl "max_targets" 0;
  cc ← value_float lvl "crit_chance" f0; cd ← value_float lvl "crit_damage_mult" f1;
  et ← value_string lvl "effect_type" EmptyString; ev ← value_float lvl "effect_value" f0;
  ed ← value_float lvl "effect_duration" f0; fl ← strings_of lvl "flags"; ps ← load_params lvl;
  Some (mkWeaponLevelInfo l s dm cm du am sm de pc pi mt cc cd et ev ed fl ps).

(** The validation loops: level [i + 1] at index [i], or the process ends. *)
Definition dense_levels {A} (level : A -> Z) (ls : list A) : bool :=
  forallb (fun '(i, l) => level l =? i32 (Z.of_nat i + 1))%Z (imap pair ls).

Definition load_weapon (item : json) (D : DataManager) : option DataManager :=
  i ← field_int item "id"; n ← field_string item "name"; de ← value_string item "description" EmptyString;
  ic ← value_string item "icon" EmptyString; ml ← value_int item "max_level" 8;
  w ← value_int item "weight" 100; ug ← value_int item "unique_group" 0;
  ev ← value_int item "evolution_id" 0; ep ← value_int item "evolution_passive_id" 0;
  levels ← (if contains item "levels" then
              js ← field item "levels"; ls ← mapM load_weapon_level (elements js);
              if dense_levels wl_level ls then Some ls else None
            else Some []);
  Some (mkDataManager (_monsters D) (_players D) (_skills D) (_waves D)
          (<[i := mkWeaponInfo i n de ic ml w ug ev ep levels]> (_weaponInfos D)) (_passiveInfos D)).

Definition LoadWeaponData (file : option json) (D : DataManager) : option DataManager :=
  j ← file; for_each load_weapon (elements j) D.

Definition load_passive_level (lvl : json) : option PassiveLevelInfo :=
  l ← field_int lvl "level"; b ← value_float lvl "bonus" f0; b2 ← value_float lvl "bonus2" f0;
  de ← value_string lvl "desc" EmptyString; Some (mkPassiveLevelInfo l b b2 de).

Definition load_passive (item : json) (D : DataManager) : option DataManager :=
  i ← field_int item "id"; n ← field_string item "name"; de ← value_string item "description" EmptyString;
  ic ← value_string item "icon" EmptyString; st ← value_string item "stat_type" EmptyString;
  st2 ← value_string item "stat_type2" EmptyString; ml ← value_int item "max_level" 5;
  w ← value_int item "weight" 100; ug ← value_int item "unique_group" 0;
  levels ← (if contains item "levels" then
              js ← field item "levels"; ls ← mapM load_passive_level (elements js);
              if dense_levels pl_level ls then Some ls else None
            else Some []);
  Some (mkDataManager (_monsters D) (_players D) (_skills D) (_waves D) (_weaponInfos D)
          (<[i := mkPassiveInfo i n de ic st st2 ml w ug levels]> (_passiveInfos D))).

Definition LoadPassiveData (file : option json) (D : DataManager) : option DataManager :=
  j ← file; for_each load_passive (elements j) D.

Inductive table := Monsters | Players | Skills | Waves | Weapons | Passives.

Definition load_table (t : table) : option json -> DataManager -> option DataManager :=
  match t with
  | Monsters => LoadMonsterData
  | Players => LoadPlayerData
  | Skills => LoadSkillData
  | Waves => LoadWaveData
  | Weapons => LoadWeaponData
  | Passives => LoadPassiveData
  end.

(** The loader calls of a start-up, in any number and order. *)
Definition load_all (files : list (table * option json)) (D : DataManager) : option DataManager :=
  for_each (fun '(t, file) => load_table t file) files D.

(** ** Well-formed data

    Every entry is filed under its own id, and level [n] of a weapon or a passive
    is at index [n - 1]: what the accesses [levels[level - 1]] rely on. *)

Definition levels_dense {A} (level : A -> Z) (ls : list A) : Prop :=
  forall i l, ls !! i = Some l -> (Z.of_nat i + 1 < 2 ^ 31)%Z -> level l = (Z.of_nat i + 1)%Z.

Definition weapon_ok (k : Z) (w : WeaponInfo) : Prop := wp_id w = k /\ levels_dense wl_level (wp_levels w).
Definition passive_ok (k : Z) (p : PassiveInfo) : Prop := ps_id p = k /\ levels_dense pl_level (ps_levels p).

Definition data_ok (D : DataManager) : Prop :=
  map_Forall (fun k m => mi_id m = k) (_monsters D) /\ map_Forall (fun k p => pi_id p = k) (_players D) /\
  map_Forall (fun k s => si_id s = k) (_skills D) /\ map_Forall weapon_ok (_weaponInfos D) /\
  map_Forall passive_ok (_passiveInfos D).

Lemma dense_levels_spec {A} (level : A -> Z) ls : dense_levels level ls = true -> levels_dense level ls.
Proof.
  unfold dense_levels, levels_dense. intros E i l Hl Hi. rewrite forallb_forall in E.
  assert (In (i, l) (imap pair ls)) as Hin.
  { apply list_elem_of_In, list_elem_of_lookup. exists i. by rewrite list_lookup_imap, Hl. }
  apply E in Hin. apply Z.eqb_eq in Hin. rewrite Hin. apply swrap_small; lia.
Qed.

Lemma checked_levels_dense {A} (level : A -> Z) (load : json -> option A) item k ls :
  (if contains item k then
     js ← field item k; ls ← mapM load (elements js); if dense_levels level ls then Some ls else None
   else Some []) = Some ls -> levels_dense level ls.
Proof.
  destruct (contains _ _); [|intros [= <-] ? ? ?; done].
  intros (js & _ & (ls' & _ & E)%bind_Some)%bind_Some. destruct (dense_levels _ ls') eqn:Hd; simplify_eq.
  by apply dense_levels_spec.
Qed.

Lemma for_each_inv {A S} (P : S -> Prop) (f : A -> S -> option S) l s s' :
  (forall x s s', f x s = Some s' -> P s -> P s') -> for_each f l s = Some s' -> P s -> P s'.
Proof.
  intros Hf. revert s; induction l as [|x l IH]; simpl; intros s E Hs; [by simplify_eq|].
  destruct (f x s) as [s1|] eqn:E1; [|done]. eauto.
Qed.

(** The conclusion of a chain of fallible reads. *)
Ltac inv_load E :=
  repeat match type of E with
  | _ ≫= _ = Some _ => apply bind_Some in E as (? & ? & E)
  end; cbv zeta in E; injection E as <-.

Lemma data_ok_item item D D' :
  load_monster item D = Some D' \/ load_player item D = Some D' \/ load_skill item D = Some D' \/
  load_wave item D = Some D' \/ load_weapon item D = Some D' \/ load_passive item D = Some D' ->
  data_ok D -> data_ok D'.
Proof.
  intros [E|[E|[E|[E|[E|E]]]]] (Hm & Hp & Hs & Hw & Ha).
  - unfold load_monster in E. inv_load E. split_and!; try done. by apply map_Forall_insert_2.
  - unfold load_player in E. inv_load E. split_and!; try done. by apply map_Forall_insert_2.
  - unfold load_skill in E. inv_load E. split_and!; try done. by apply map_Forall_insert_2.
  - unfold load_wave in E. by inv_load E.
  - unfold load_weapon in E. inv_load E. split_and!; try done.
    apply map_Forall_insert_2; [|done]. split; [done|]. by eapply checked_levels_dense.
  - unfold load_passive in E. inv_load E. split_and!; try done.
    apply map_Forall_insert_2; [|done]. split; [done|]. by eapply checked_levels_dense.
Qed.

Lemma data_ok_load t file D D' : load_table t file D = Some D' -> data_ok D -> data_ok D'.
Proof.
  intros E HD. destruct t; apply bind_Some in E as (j & -> & E);
    try (revert E HD; apply for_each_inv; intros ? ? ? ?; apply data_ok_item with x; tauto).
  apply bind_Some in E as (D1 & E & [= <-]). enough (data_ok D1) by done.
  revert E HD. apply for_each_inv. intros x ? ? ?. apply data_ok_item with x. tauto.
Qed.

(** C40: whatever files the server loads and in whatever order, if start-up gets past
    the loaders then every table files its entries under their own ids, and level
    [n] of each weapon and passive sits at index [n - 1], as the direct accesses
    [levels[level - 1]] assume. *)
Theorem loaded_data_well_formed files D : load_all files DataManager_new = Some D -> data_ok D.
Proof.
  intros E. refine (for_each_inv data_ok _ _ _ _ _ E _).
  - intros [t file] s s'. apply data_ok_load.
  - split_and!; apply map_Forall_empty.
Qed.

End Loaders.

(** ** A JSON value type, to run the loaders *)

Inductive jval := JNum (z : Z) | JStr (s : string) | JArr (l : list jval) | JObj (l : list (string * jval)).

Fixpoint assoc (k : string) (l : list (string * jval)) : option jval :=
  match l with
  | [] => None
  | (k', v) :: l => if bool_decide (k' = k) then Some v else assoc k l
  end.

Definition jfield (j : jval) (k : string) : option jval := match j with JObj l => assoc k l | _ => None end.
Definition jint (j : jval) : option Z := match j with JNum z => Some z | _ => None end.
Definition jstring (j : jval) : option string := match j with JStr s => Some s | _ => None end.
Definition jfloat (j : jval) : option float := f_of_Z <$> jint j.

Definition jvalue {A} (get : jval -> option A) (j : jval) (k : string) (d : A) : option A :=
  match j with JObj l => match assoc k l with Some v => get v | None => Some d end | _ => None end.

Definition jval_json : Json := {|
  json := jval;
  elements := fun j => match j with JArr l => l | JObj l => l.*2 | _ => [j] end;
  members := fun j => match j with JObj l => l | _ => [] end;
  field := jfield;
  contains := fun j k => bool_decide (is_Some (jfield j k));
  is_array := fun j => match j with JArr _ => true | _ => false end;
  is_object := fun j => match j with JObj _ => true | _ => false end;
  is_number := fun j => match j with JNum _ => true | _ => false end;
  get_int := jint;
  get_float := jfloat;
  get_string := jstring;
  value_int := jvalue jint;
  value_float := jvalue jfloat;
  value_string := jvalue jstring
|}.

Definition jweapon (lv1 lv2 : Z) : jval :=
  JArr [JObj [("id", JNum 7); ("name", JStr "Whip"); ("max_level", JNum 2); ("evolution_id", JNum 10);
              ("levels", JArr [JObj [("level", JNum lv1); ("skill_id", JNum 3)];
                               JObj [("level", JNum lv2); ("skill_id", JNum 3)]])]].

Lemma loaded_data_well_formed_witness :
  exists D, load_all (H := jval_json) [(Weapons, Some (jweapon 1 2)); (Passives, Some (JArr []))] DataManager_new = Some D /\
            (w ← GetWeaponInfo D 7; wl_level <$> wp_levels w !! 1%nat) = Some 2%Z /\ data_ok D.
Proof.
  eexists; split; [vm_compute; reflexivity|]. split; [vm_compute; reflexivity|].
  apply (loaded_data_well_formed (H := jval_json) [(Weapons, Some (jweapon 1 2)); (Passives, Some (JArr []))]).
  vm_compute; reflexivity.
Defined.

(** A level out of place ends the process. *)
Example sparse_levels_rejected : load_all (H := jval_json) [(Weapons, Some (jweapon 1 3))] DataManager_new = None.
Proof. reflexivity. Qed.
