(* ===== verification/Inventory.v ===== *)
(** * Inventory: weapons, passives and level-up options

    Models src/Examples/VampireSurvivor/Server/Entity/PlayerInventory.cpp and
    Game/LevelUpManager.cpp.  The tables are hash maps, so that the order of the
    candidates follows an unspecified [IterationOrder]; the random draws are an
    argument. *)

From stdpp Require Import base strings gmap option list.
From S2P Require Import Prelude Float32 GameData.

Definition MAX_WEAPON_SLOTS : Z := 6.
Definition MAX_PASSIVE_SLOTS : Z := 6.

Record PlayerInventory := mkInv {
  _weapons : gmap Z Z;
  _passives : gmap Z Z
}.

Definition PlayerInventory_new : PlayerInventory := mkInv ∅ ∅.

Definition map_size {A} (m : gmap Z A) : Z := Z.of_nat (size m).

Definition AddOrUpgradeWeapon (D : DataManager) (weaponId : Z) (inv : PlayerInventory) : bool * PlayerInventory :=
  match _weapons inv !! weaponId with
  | Some level =>
      match GetWeaponInfo D weaponId with
      | None => (false, inv)
      | Some tmpl =>
          if wp_maxLevel tmpl <=? level then (false, inv)
          else (true, mkInv (<[weaponId := level + 1]> (_weapons inv)) (_passives inv))
      end
  | None =>
      if MAX_WEAPON_SLOTS <=? map_size (_weapons inv) then (false, inv)
      else (true, mkInv (<[weaponId := 1]> (_weapons inv)) (_passives inv))
  end.

Definition AddOrUpgradePassive (D : DataManager) (passiveId : Z) (inv : PlayerInventory) : bool * PlayerInventory :=
  match _passives inv !! passiveId with
  | Some level =>
      match GetPassiveInfo D passiveId with
      | None => (false, inv)
      | Some tmpl =>
          if ps_maxLevel tmpl <=? level then (false, inv)
          else (true, mkInv (_weapons inv) (<[passiveId := level + 1]> (_passives inv)))
      end
  | None =>
      if MAX_PASSIVE_SLOTS <=? map_size (_passives inv) then (false, inv)
      else (true, mkInv (_weapons inv) (<[passiveId := 1]> (_passives inv)))
  end.

Definition GetOwnedWeaponIds `{IterationOrder} (inv : PlayerInventory) : list Z := (iter_order (_weapons inv)).*1.
Definition GetOwnedPassiveIds `{IterationOrder} (inv : PlayerInventory) : list Z := (iter_order (_passives inv)).*1.
Definition GetWeaponLevel (inv : PlayerInventory) (id : Z) : Z := default 0 (_weapons inv !! id).
Definition GetPassiveLevel (inv : PlayerInventory) (id : Z) : Z := default 0 (_passives inv !! id).
Definition HasEmptyWeaponSlot (inv : PlayerInventory) : bool := map_size (_weapons inv) <? MAX_WEAPON_SLOTS.
Definition HasEmptyPassiveSlot (inv : PlayerInventory) : bool := map_size (_passives inv) <? MAX_PASSIVE_SLOTS.
Definition RemoveWeapon (id : Z) (inv : PlayerInventory) : PlayerInventory := mkInv (delete id (_weapons inv)) (_passives inv).
Definition RemovePassive (id : Z) (inv : PlayerInventory) : PlayerInventory := mkInv (_weapons inv) (delete id (_passives inv)).
Definition HasPassive (inv : PlayerInventory) (id : Z) : bool := bool_decide (is_Some (_passives inv !! id)).

Definition IsWeaponMaxLevel (D : DataManager) (inv : PlayerInventory) (id : Z) : bool :=
  match _weapons inv !! id, GetWeaponInfo D id with
  | Some level, Some tmpl => wp_maxLevel tmpl <=? level
  | _, _ => false
  end.

Definition IsPassiveMaxLevel (D : DataManager) (inv : PlayerInventory) (id : Z) : bool :=
  match _passives inv !! id, GetPassiveInfo D id with
  | Some level, Some tmpl => ps_maxLevel tmpl <=? level
  | _, _ => false
  end.

(** ** Level-up options *)

Inductive LevelUpOptionType := WEAPON | PASSIVE.

#[global] Instance LevelUpOptionType_eq_dec : EqDecision LevelUpOptionType.
Proof. solve_decision. Defined.

Record LevelUpOption := mkOption {
  optionId : Z;
  opt_type : LevelUpOptionType;
  itemId : Z;
  opt_name : string;
  opt_desc : string;
  isNew : bool
}.

(** The first description for a level, "Level Up" when the template has none. *)
Definition level_desc {A} (level : A -> Z) (desc : A -> string) (ls : list A) (n : Z) : string :=
  match filter (fun l => level l = n) ls with
  | [] => "Level Up"
  | l :: _ => desc l
  end.

(** The evolution check in the loop over the weapons. *)
Definition evolved_candidate (D : DataManager) (inv : PlayerInventory) (n : Z) (currentLevel : Z) (tmpl : WeaponInfo) :
  option LevelUpOption :=
  if (wp_maxLevel tmpl <=? currentLevel) && (0 <? wp_evolutionId tmpl)
     && (0 <? GetPassiveLevel inv (wp_evolutionPassiveId tmpl)) then
    match GetWeaponInfo D (wp_evolutionId tmpl) with
    | Some evo =>
        if GetWeaponLevel inv (wp_id evo) =? 0
        then Some (mkOption n WEAPON (wp_id evo) (wp_name evo +:+ " (EVOLVED)") (wp_description evo) true)
        else None
    | None => None
    end
  else None.

(** The body of the loop over the weapons.  The option, if any, is numbered by
    the number of options before it. *)
Definition weapon_candidate (D : DataManager) (inv : PlayerInventory) (n : Z) (weaponId : Z) (tmpl : WeaponInfo) :
  option LevelUpOption :=
  let currentLevel := GetWeaponLevel inv weaponId in
  match evolved_candidate D inv n currentLevel tmpl with
  | Some o => Some o
  | None =>
      if currentLevel =? 0 then
        if HasEmptyWeaponSlot inv
        then Some (mkOption n WEAPON weaponId (wp_name tmpl) (wp_description tmpl) true)
        else None
      else if currentLevel <? wp_maxLevel tmpl then
        Some (mkOption n WEAPON weaponId (wp_name tmpl) (level_desc wl_level wl_desc (wp_levels tmpl) (currentLevel + 1)) false)
      else None
  end.

Definition passive_candidate (inv : PlayerInventory) (n : Z) (passiveId : Z) (tmpl : PassiveInfo) : option LevelUpOption :=
  let currentLevel := GetPassiveLevel inv passiveId in
  if currentLevel =? 0 then
    if HasEmptyPassiveSlot inv
    then Some (mkOption n PASSIVE passiveId (ps_name tmpl) (ps_description tmpl) true)
    else None
  else if currentLevel <? ps_maxLevel tmpl then
    Some (mkOption n PASSIVE passiveId (ps_name tmpl) (level_desc pl_level pl_desc (ps_levels tmpl) (currentLevel + 1)) false)
  else None.

(** One pass over a table: [optionId] counts the options pushed so far. *)
Definition add_candidates {A} (candidate : Z -> Z -> A -> option LevelUpOption) (l : list (Z * A)) (pool : list LevelUpOption) :
  list LevelUpOption :=
  foldl (fun pool '(k, tmpl) => pool ++ option_list (candidate (Z.of_nat (length pool)) k tmpl)) pool l.

Definition BuildCandidatePool `{IterationOrder} (D : DataManager) (inv : PlayerInventory) : list LevelUpOption :=
  let pool := add_candidates (weapon_candidate D inv) (iter_order (_weaponInfos D)) [] in
  add_candidates (passive_candidate inv) (iter_order (_passiveInfos D)) pool.

(** The weight of an option: 100 without a template. *)
Definition option_weight (D : DataManager) (o : LevelUpOption) : Z :=
  match opt_type o with
  | WEAPON => match GetWeaponInfo D (itemId o) with Some t => wp_weight t | None => 100 end
  | PASSIVE => match GetPassiveInfo D (itemId o) with Some t => ps_weight t | None => 100 end
  end.

(** The sum kept in an [int]. *)
Definition total_weight (D : DataManager) (pool : list LevelUpOption) : Z :=
  foldl (fun acc o => i32 (acc + option_weight D o)) 0 pool.

(** The draw: the first option whose cumulative weight exceeds the random value,
    with what is left of the pool. *)
Fixpoint draw (D : DataManager) (randomValue cumulativeWeight : Z) (pool : list LevelUpOption) :
  option (LevelUpOption * list LevelUpOption) :=
  match pool with
  | [] => None
  | o :: pool =>
      let cumulativeWeight := i32 (cumulativeWeight + option_weight D o) in
      if randomValue <? cumulativeWeight then Some (o, pool)
      else '(x, rest) ← draw D randomValue cumulativeWeight pool; Some (x, o :: rest)
  end.

(** [dis i total] is the value drawn in round [i] from [0, total - 1]. *)
Fixpoint select_loop (D : DataManager) (dis : nat -> Z -> Z) (i rounds : nat) (tempPool result : list LevelUpOption) :
  list LevelUpOption :=
  match rounds with
  | O => result
  | S rounds =>
      let totalWeight := total_weight D tempPool in
      if totalWeight <=? 0 then result
      else
        match draw D (dis i totalWeight) 0 tempPool with
        | Some (o, rest) => select_loop D dis (S i) rounds rest (result ++ [o])
        | None => select_loop D dis (S i) rounds tempPool result
        end
  end.

Definition SelectRandom (D : DataManager) (dis : nat -> Z -> Z) (pool : list LevelUpOption) (count : nat) : list LevelUpOption :=
  match pool with
  | [] => []
  | _ => if (length pool <=? count)%nat then pool else select_loop D dis 0 count pool []
  end.

Definition GenerateOptions `{IterationOrder} (D : DataManager) (dis : nat -> Z -> Z) (inv : PlayerInventory) : list LevelUpOption :=
  let pool := BuildCandidatePool D inv in
  match pool with
  | [] => []
  | _ => SelectRandom D dis pool (Nat.min 3 (length pool))
  end.

(** The inventory part of [ApplySelection]. *)
Definition apply_option (D : DataManager) (o : LevelUpOption) (inv : PlayerInventory) : bool * PlayerInventory :=
  match opt_type o with
  | WEAPON => AddOrUpgradeWeapon D (itemId o) inv
  | PASSIVE => AddOrUpgradePassive D (itemId o) inv
  end.

(** ** Slots and levels *)

(** A level table: no more entries than slots, every level at least 1 and at most
    the template's maximum, a new item's level 1 apart. *)
Definition slots_ok (slots : Z) (maxLevel : Z -> option Z) (m : gmap Z Z) : Prop :=
  map_size m <= slots /\
  map_Forall (fun k l => 1 <= l /\ (l = 1 \/ exists mx, maxLevel k = Some mx /\ l <= mx)) m.

Definition weapon_max (D : DataManager) (k : Z) : option Z := wp_maxLevel <$> GetWeaponInfo D k.
Definition passive_max (D : DataManager) (k : Z) : option Z := ps_maxLevel <$> GetPassiveInfo D k.

Definition inv_ok (D : DataManager) (inv : PlayerInventory) : Prop :=
  slots_ok MAX_WEAPON_SLOTS (weapon_max D) (_weapons inv) /\
  slots_ok MAX_PASSIVE_SLOTS (passive_max D) (_passives inv).

Lemma map_size_insert (m : gmap Z Z) k v :
  map_size (<[k := v]> m) = match m !! k with Some _ => map_size m | None => map_size m + 1 end.
Proof. unfold map_size. rewrite map_size_insert. destruct (m !! k); simpl; lia. Qed.

Lemma slots_ok_new slots mx m k : slots_ok slots mx m -> map_size m < slots -> slots_ok slots mx (<[k := 1]> m).
Proof.
  intros [Hs Hm] Hlt. split.
  - rewrite map_size_insert. destruct (m !! k); lia.
  - apply map_Forall_insert_2; [|done]. split; [lia|by left].
Qed.

Lemma slots_ok_upgrade slots mx m k l mxl :
  slots_ok slots mx m -> m !! k = Some l -> mx k = Some mxl -> l < mxl -> slots_ok slots mx (<[k := l + 1]> m).
Proof.
  intros [Hs Hm] Hk Hmx Hlt. split.
  - by rewrite map_size_insert, Hk.
  - apply map_Forall_insert_2; [|done]. destruct (Hm _ _ Hk) as [? _]. split; [lia|].
    right. exists mxl. split; [done|lia].
Qed.

Lemma slots_ok_delete slots mx m k : slots_ok slots mx m -> slots_ok slots mx (delete k m).
Proof.
  intros [Hs Hm]. split; [|by apply map_Forall_delete].
  unfold map_size in *. rewrite map_size_delete. destruct (m !! k); simpl; lia.
Qed.

#[export] Hint Resolve slots_ok_new slots_ok_upgrade slots_ok_delete : toy.

Lemma AddOrUpgradeWeapon_ok D id inv : inv_ok D inv -> inv_ok D (AddOrUpgradeWeapon D id inv).2.
Proof.
  intros [Hw Hp]. unfold AddOrUpgradeWeapon. destruct (_weapons inv !! id) as [l|] eqn:El.
  - destruct (GetWeaponInfo D id) as [t|] eqn:Et; [|done]. destruct (_ <=? _) eqn:E; [done|]. bool_to_prop.
    split; [|done]. simpl. eapply slots_ok_upgrade; eauto. unfold weapon_max. by rewrite Et.
  - destruct (_ <=? _) eqn:E; [done|]. bool_to_prop. split; [|done]. simpl. eauto with toy.
Qed.

Lemma AddOrUpgradePassive_ok D id inv : inv_ok D inv -> inv_ok D (AddOrUpgradePassive D id inv).2.
Proof.
  intros [Hw Hp]. unfold AddOrUpgradePassive. destruct (_passives inv !! id) as [l|] eqn:El.
  - destruct (GetPassiveInfo D id) as [t|] eqn:Et; [|done]. destruct (_ <=? _) eqn:E; [done|]. bool_to_prop.
    split; [done|]. simpl. eapply slots_ok_upgrade; eauto. unfold passive_max. by rewrite Et.
  - destruct (_ <=? _) eqn:E; [done|]. bool_to_prop. split; [done|]. simpl. eauto with toy.
Qed.

Inductive inv_op := AddWeapon (id : Z) | AddPassive (id : Z) | DropWeapon (id : Z) | DropPassive (id : Z).

Definition inv_run (D : DataManager) (o : inv_op) (inv : PlayerInventory) : PlayerInventory :=
  match o with
  | AddWeapon id => (AddOrUpgradeWeapon D id inv).2
  | AddPassive id => (AddOrUpgradePassive D id inv).2
  | DropWeapon id => RemoveWeapon id inv
  | DropPassive id => RemovePassive id inv
  end.

Lemma inv_run_ok D o inv : inv_ok D inv -> inv_ok D (inv_run D o inv).
Proof.
  intros HI. destruct o; simpl; auto using AddOrUpgradeWeapon_ok, AddOrUpgradePassive_ok;
    destruct HI; split; simpl; auto with toy.
Qed.

Lemma inv_ok_new D : inv_ok D PlayerInventory_new.
Proof. split; (split; [unfold map_size; simpl; done|apply map_Forall_empty]). Qed.

(** From an empty inventory, any sequence of acquisitions, upgrades and removals
    keeps at most six weapons and six passives, all at a level of at least 1, and
    no level above 1 ever exceeds its template's maximum. *)
Theorem inventory_within_limits D ops :
  inv_ok D (foldl (fun inv o => inv_run D o inv) PlayerInventory_new ops).
Proof.
  pose proof (inv_ok_new D) as HI. revert HI. generalize PlayerInventory_new.
  induction ops as [|o ops IH]; simpl; intros inv HI; [done|]. by apply IH, inv_run_ok.
Qed.

(** ** Candidates *)

Lemma add_candidates_app {A} (c : Z -> Z -> A -> option LevelUpOption) l l' pool :
  add_candidates c (l ++ l') pool = add_candidates c l' (add_candidates c l pool).
Proof. unfold add_candidates. by rewrite foldl_app. Qed.

(** Every option of a pass comes from an entry of its table, and carries its index. *)
Lemma add_candidates_elem {A} (c : Z -> Z -> A -> option LevelUpOption) l pool o :
  o ∈ add_candidates c l pool -> o ∈ pool \/ exists n k t, (k, t) ∈ l /\ c n k t = Some o.
Proof.
  induction l as [|[k t] l IH] using rev_ind; [by left|].
  rewrite add_candidates_app. simpl. rewrite elem_of_app. intros [Ho|Ho].
  - destruct (IH Ho) as [?|(n & k' & t' & ? & ?)]; [by left|].
    right. exists n, k', t'. split; [|done]. apply elem_of_app. by left.
  - right. eexists _, k, t. split; [apply elem_of_app; right; by left|].
    destruct (c _ k t) eqn:E; [|by apply not_elem_of_nil in Ho].
    apply list_elem_of_singleton in Ho. subst. exact E.
Qed.

Lemma add_candidates_ids {A} (c : Z -> Z -> A -> option LevelUpOption) l pool :
  (forall n k t o, c n k t = Some o -> optionId o = n) ->
  (forall i o, pool !! i = Some o -> optionId o = Z.of_nat i) ->
  forall i o, add_candidates c l pool !! i = Some o -> optionId o = Z.of_nat i.
Proof.
  intros Hc. revert pool; induction l as [|[k t] l IH]; simpl; intros pool Hp; [done|].
  apply IH. intros i o. rewrite lookup_app_Some. intros [?|[Hi Ho]]; [by apply Hp|].
  destruct (c _ k t) as [o'|] eqn:E; [|done]. simpl in Ho.
  destruct (i - length pool)%nat as [|m] eqn:Ei; [|done]. simplify_eq/=. apply Hc in E. lia.
Qed.

Lemma weapon_candidate_id D inv n k t o : weapon_candidate D inv n k t = Some o -> optionId o = n.
Proof. unfold weapon_candidate, evolved_candidate. repeat case_match; intros; simplify_eq; done. Qed.

Lemma passive_candidate_id inv n k t o : passive_candidate inv n k t = Some o -> optionId o = n.
Proof. unfold passive_candidate. repeat case_match; intros; simplify_eq; done. Qed.

Section Options.
Context `{IterationOrder}.

Lemma pool_ids D inv i o : BuildCandidatePool D inv !! i = Some o -> optionId o = Z.of_nat i.
Proof.
  apply add_candidates_ids; [apply passive_candidate_id|].
  apply add_candidates_ids; [apply weapon_candidate_id|done].
Qed.

Lemma pool_NoDup_ids D inv : NoDup (optionId <$> BuildCandidatePool D inv).
Proof.
  apply NoDup_alt. intros i j x. rewrite !list_lookup_fmap.
  intros (o & Ho & ->)%fmap_Some (o' & Ho' & E)%fmap_Some.
  apply pool_ids in Ho, Ho'. lia.
Qed.

Lemma pool_elem D inv o : o ∈ BuildCandidatePool D inv ->
  (exists n k t, GetWeaponInfo D k = Some t /\ weapon_candidate D inv n k t = Some o) \/
  (exists n k t, GetPassiveInfo D k = Some t /\ passive_candidate inv n k t = Some o).
Proof.
  intros [Ho|(n & k & t & Hk & Ho)]%add_candidates_elem.
  - apply add_candidates_elem in Ho as [Ho|(n & k & t & Hk & Ho)]; [by apply not_elem_of_nil in Ho|].
    apply elem_of_iter_order in Hk. left. eauto.
  - apply elem_of_iter_order in Hk. right. eauto.
Qed.

(** ** Drawing *)

Lemma draw_perm D r c pool o rest : draw D r c pool = Some (o, rest) -> o :: rest ≡ₚ pool.
Proof.
  revert c rest; induction pool as [|x pool IH]; simpl; intros c rest E; [done|].
  case_match; simplify_eq; [done|].
  destruct (draw _ _ _ pool) as [[y rest']|] eqn:Ed; simplify_eq/=.
  rewrite <- (IH _ _ Ed). apply Permutation_swap.
Qed.

Lemma select_loop_sub D dis i rounds temp result :
  exists rest, select_loop D dis i rounds temp result ++ rest ≡ₚ result ++ temp.
Proof.
  revert i temp result; induction rounds as [|n IH]; simpl; intros i temp result; [by exists temp|].
  case_match; [by exists temp|].
  destruct (draw _ _ _ _) as [[o rest]|] eqn:Ed; [|apply IH].
  destruct (IH (S i) rest (result ++ [o])) as [rest' Hr]. exists rest'.
  rewrite Hr, <- (draw_perm _ _ _ _ _ _ Ed), <- app_assoc. done.
Qed.

Lemma SelectRandom_sub D dis pool count : exists rest, SelectRandom D dis pool count ++ rest ≡ₚ pool.
Proof.
  unfold SelectRandom. destruct pool as [|o pool]; [by exists []|].
  case_match; [exists []; by rewrite app_nil_r|]. apply select_loop_sub.
Qed.

(** The weights of a pool are usable: positive, with a sum that fits an [int]. *)
Definition weight_sum (D : DataManager) (pool : list LevelUpOption) : Z := foldr (fun o n => option_weight D o + n) 0 pool.

Definition weights_ok (D : DataManager) (pool : list LevelUpOption) : Prop :=
  Forall (fun o => 0 < option_weight D o) pool /\ weight_sum D pool < 2 ^ 31.

Lemma weight_sum_perm D pool pool' : pool ≡ₚ pool' -> weight_sum D pool = weight_sum D pool'.
Proof. induction 1; simpl; lia. Qed.

Lemma weight_sum_nonneg D pool : Forall (fun o => 0 < option_weight D o) pool -> 0 <= weight_sum D pool.
Proof. induction 1; simpl; lia. Qed.

Lemma total_weight_sum D pool : weights_ok D pool -> total_weight D pool = weight_sum D pool.
Proof.
  unfold total_weight. intros [Hp Hs].
  enough (forall a, 0 <= a -> a + weight_sum D pool < 2 ^ 31 ->
            foldl (fun acc o => i32 (acc + option_weight D o)) a pool = a + weight_sum D pool) as Hg.
  { rewrite Hg; lia. }
  clear Hs. induction Hp as [|o pool Ho Hp IH]; simpl; intros a Ha Hs; [lia|].
  pose proof (weight_sum_nonneg D pool Hp). rewrite swrap_small by lia. rewrite IH; lia.
Qed.

Lemma draw_succeeds D r c pool :
  Forall (fun o => 0 < option_weight D o) pool -> 0 <= c -> c + weight_sum D pool < 2 ^ 31 ->
  r < c + weight_sum D pool -> c <= r -> is_Some (draw D r c pool).
Proof.
  intros Hp. revert c; induction Hp as [|o pool Ho Hp IH]; simpl; intros c Hc Hs Hr Hcr; [lia|].
  pose proof (weight_sum_nonneg D pool Hp). rewrite swrap_small by lia.
  destruct (_ <? _) eqn:E; [done|]. bool_to_prop.
  destruct (IH (c + option_weight D o)) as [[x rest] ->]; [lia..|]. done.
Qed.

(** What [uniform_int_distribution] promises. *)
Definition dis_ok (dis : nat -> Z -> Z) : Prop := forall i total, 0 < total -> 0 <= dis i total < total.

Lemma weights_ok_tail D o rest pool : o :: rest ≡ₚ pool -> weights_ok D pool -> weights_ok D rest.
Proof.
  intros Hp [Hw Hs]. rewrite <- Hp in Hw. apply Forall_cons in Hw as [Ho Hw]. split; [done|].
  rewrite <- (weight_sum_perm D _ _ Hp) in Hs. simpl in Hs. lia.
Qed.

Lemma select_loop_length D dis i rounds temp result :
  dis_ok dis -> weights_ok D temp -> (rounds <= length temp)%nat ->
  length (select_loop D dis i rounds temp result) = (length result + rounds)%nat.
Proof.
  intros Hdis. revert i temp result; induction rounds as [|n IH]; simpl; intros i temp result Hw Hl; [lia|].
  rewrite total_weight_sum by done. destruct Hw as [Hp Hs].
  assert (0 < weight_sum D temp) as Hpos.
  { destruct temp as [|o temp]; simpl in *; [lia|]. apply Forall_cons in Hp as [? Hp].
    pose proof (weight_sum_nonneg D temp Hp). lia. }
  destruct (_ <=? _) eqn:E; bool_to_prop; [lia|]. destruct (Hdis i (weight_sum D temp) Hpos).
  destruct (draw_succeeds D (dis i (weight_sum D temp)) 0 temp) as [[o rest] Ed]; [done|lia..|].
  rewrite Ed. pose proof (draw_perm _ _ _ _ _ _ Ed) as Hperm.
  rewrite IH; [rewrite length_app; simpl; lia|by eapply weights_ok_tail|].
  apply Permutation_length in Hperm. simpl in Hperm. lia.
Qed.

Lemma GenerateOptions_sub D dis inv : exists rest, GenerateOptions D dis inv ++ rest ≡ₚ BuildCandidatePool D inv.
Proof.
  unfold GenerateOptions. destruct (BuildCandidatePool D inv) as [|o l]; [by exists []|].
  apply SelectRandom_sub.
Qed.

(** The options offered at a level-up are options of the candidate pool, no one
    of them twice (their option ids differ), and when the weights are positive and
    their sum fits an int there are exactly three of them, or as many as there are
    candidates. *)
Theorem generated_options_distinct D dis inv :
  dis_ok dis -> weights_ok D (BuildCandidatePool D inv) ->
  let options := GenerateOptions D dis inv in
  (forall o, o ∈ options -> o ∈ BuildCandidatePool D inv) /\ NoDup (optionId <$> options) /\
  length options = Nat.min 3 (length (BuildCandidatePool D inv)).
Proof.
  intros Hdis Hw options. subst options.
  destruct (GenerateOptions_sub D dis inv) as [rest Hrest]. split_and!.
  - intros o Ho. rewrite <- Hrest. apply elem_of_app. by left.
  - pose proof (pool_NoDup_ids D inv) as Hn. rewrite <- Hrest, fmap_app in Hn. by apply NoDup_app in Hn as [? _].
  - unfold GenerateOptions, SelectRandom in *. destruct (BuildCandidatePool D inv) as [|o l] eqn:E; [done|].
    destruct (_ <=? _)%nat eqn:El; [apply Nat.leb_le in El; lia|].
    rewrite select_loop_length; [done..|lia].
Qed.

(** ** Options apply *)

Definition owned_level (inv : PlayerInventory) (o : LevelUpOption) : Z :=
  match opt_type o with
  | WEAPON => GetWeaponLevel inv (itemId o)
  | PASSIVE => GetPassiveLevel inv (itemId o)
  end.

(** The option is the evolution of a weapon at its maximum, whose passive is owned. *)
Definition is_evolution (D : DataManager) (inv : PlayerInventory) (o : LevelUpOption) : Prop :=
  opt_type o = WEAPON /\
  exists k t, GetWeaponInfo D k = Some t /\ wp_evolutionId t = itemId o /\
              wp_maxLevel t <= GetWeaponLevel inv k /\ 0 < GetPassiveLevel inv (wp_evolutionPassiveId t).

(** Taking the option raises the item by one level. *)
Definition applies (D : DataManager) (inv : PlayerInventory) (o : LevelUpOption) : Prop :=
  (apply_option D o inv).1 = true /\ owned_level (apply_option D o inv).2 o = owned_level inv o + 1.

Lemma level_zero slots mx m k : slots_ok slots mx m -> default 0 (m !! k) = 0 -> m !! k = None.
Proof. intros [_ Hm] E. destruct (m !! k) as [l|] eqn:Ek; [|done]. destruct (Hm _ _ Ek). simpl in E. lia. Qed.

Lemma new_weapon_applies D inv n k nm de :
  inv_ok D inv -> GetWeaponLevel inv k = 0 -> HasEmptyWeaponSlot inv = true -> applies D inv (mkOption n WEAPON k nm de true).
Proof.
  intros [Hw _] E0 Hs. unfold applies, apply_option, owned_level, AddOrUpgradeWeapon, GetWeaponLevel in *. simpl.
  rewrite (level_zero _ _ _ _ Hw E0). unfold HasEmptyWeaponSlot in Hs. rewrite Z.leb_antisym, Hs. simpl.
  by rewrite lookup_insert_eq.
Qed.

Local Ltac iff_level := unfold owned_level; simpl; split; intros; congruence.

Lemma weapon_candidate_applies D inv n k t o :
  data_ok D -> inv_ok D inv -> GetWeaponInfo D k = Some t -> weapon_candidate D inv n k t = Some o ->
  (isNew o = true <-> owned_level inv o = 0) /\
  (applies D inv o \/ HasEmptyWeaponSlot inv = false /\ is_evolution D inv o).
Proof.
  intros HD HI Ht. unfold weapon_candidate.
  destruct (evolved_candidate D inv n (GetWeaponLevel inv k) t) as [o'|] eqn:Ev.
  - intros [= ->]. unfold evolved_candidate in Ev. destruct (_ && _) eqn:Ec in Ev; [|done]. bool_to_prop.
    destruct (GetWeaponInfo D (wp_evolutionId t)) as [evo|] eqn:Eevo; [|done].
    destruct (_ =? 0) eqn:E0 in Ev; simplify_eq. bool_to_prop.
    split; [iff_level|]. destruct (HasEmptyWeaponSlot inv) eqn:Hs; [left; by apply new_weapon_applies|].
    right. split; [done|]. split; [done|]. exists k, t. simpl. split_and!; try done.
    destruct HD as (_ & _ & _ & Hw & _). by destruct (Hw _ _ Eevo).
  - destruct (GetWeaponLevel inv k =? 0) eqn:E0.
    + bool_to_prop. destruct (HasEmptyWeaponSlot inv) eqn:Hs; intros; simplify_eq. split; [iff_level|].
      left. by apply new_weapon_applies.
    + bool_to_prop. destruct (_ <? _) eqn:El; intros; simplify_eq. bool_to_prop. split; [iff_level|]. left.
      unfold applies, apply_option, owned_level, AddOrUpgradeWeapon, GetWeaponLevel in *. simpl.
      destruct (_weapons inv !! k) as [l|] eqn:Ek; [|done]. simpl in *. rewrite Ht, (Z.leb_antisym).
      apply Z.ltb_lt in El. rewrite El. simpl. by rewrite lookup_insert_eq.
Qed.

Lemma passive_candidate_applies D inv n k t o :
  inv_ok D inv -> GetPassiveInfo D k = Some t -> passive_candidate inv n k t = Some o ->
  (isNew o = true <-> owned_level inv o = 0) /\ applies D inv o.
Proof.
  intros [_ Hp] Ht. unfold passive_candidate. case_match eqn:E0; bool_to_prop.
  - destruct (HasEmptyPassiveSlot inv) eqn:Hs; intros; simplify_eq. split; [iff_level|].
    unfold applies, apply_option, owned_level, AddOrUpgradePassive, GetPassiveLevel in *. simpl.
    rewrite (level_zero _ _ _ _ Hp E0). unfold HasEmptyPassiveSlot in Hs. rewrite Z.leb_antisym, Hs. simpl.
    by rewrite lookup_insert_eq.
  - destruct (_ <? _) eqn:El; intros; simplify_eq. split; [iff_level|].
    unfold applies, apply_option, owned_level, AddOrUpgradePassive, GetPassiveLevel in *. simpl.
    destruct (_passives inv !! k) as [l|] eqn:Ek; [|done]. simpl in *. rewrite Ht, Z.leb_antisym, El. simpl.
    by rewrite lookup_insert_eq.
Qed.

(** C38: every option offered to a player with a legal inventory can be taken: taking
    it succeeds and raises that item by exactly one level (to 1 for an item marked
    new), with one exception, the evolution of a maxed weapon while all six weapon
    slots are taken. *)
Theorem offered_options_apply D dis inv o :
  data_ok D -> inv_ok D inv -> o ∈ GenerateOptions D dis inv ->
  (isNew o = true <-> owned_level inv o = 0) /\
  (applies D inv o \/ HasEmptyWeaponSlot inv = false /\ is_evolution D inv o).
Proof.
  intros HD HI Ho. destruct (GenerateOptions_sub D dis inv) as [rest Hrest].
  assert (o ∈ BuildCandidatePool D inv) as Hp by (rewrite <- Hrest; apply elem_of_app; by left).
  apply pool_elem in Hp as [(n & k & t & Ht & Hc)|(n & k & t & Ht & Hc)].
  - by eapply weapon_candidate_applies.
  - destruct (passive_candidate_applies _ _ _ _ _ _ HI Ht Hc). auto.
Qed.

End Options.

(** ** Concrete data: the whip and its evolution, as data/WeaponData.json has them *)

Definition whip : WeaponInfo := mkWeaponInfo 7 "Whip" EmptyString EmptyString 8 100 0 10 2 [].
Definition bloody_whip : WeaponInfo := mkWeaponInfo 10 "Bloody Whip" EmptyString EmptyString 1 100 0 0 0 [].
Definition hollow_heart : PassiveInfo := mkPassiveInfo 2 "Hollow Heart" EmptyString EmptyString "max_hp" EmptyString 5 100 0 [].
Definition whip_data : DataManager :=
  mkDataManager ∅ ∅ ∅ [] (<[7 := whip]> {[10 := bloody_whip]}) {[2 := hollow_heart]}.

Lemma whip_data_ok : data_ok whip_data.
Proof.
  split_and!; [apply map_Forall_empty..| |].
  - apply map_Forall_insert_2; [|apply map_Forall_singleton]; by split; [|intros ? ? ?].
  - apply map_Forall_singleton. by split; [|intros ? ? ?].
Qed.

Definition maxed_inv : PlayerInventory := mkInv {[7 := 8]} {[2 := 1]}.

Lemma maxed_inv_ok : inv_ok whip_data maxed_inv.
Proof.
  split; (split; [vm_compute; discriminate|apply map_Forall_singleton; split; [lia|]]).
  - right. by exists 8.
  - by left.
Qed.

Lemma generated_options_distinct_witness :
  dis_ok (fun _ total => total - 1) /\
  length (GenerateOptions (H := any_order) whip_data (fun _ total => total - 1) maxed_inv) = 3%nat.
Proof.
  assert (dis_ok (fun _ total => total - 1)) as Hd by (intros ? ?; lia). split; [done|].
  apply (generated_options_distinct (H := any_order) whip_data (fun _ total => total - 1) maxed_inv); [done|].
  split; [|reflexivity]. vm_compute. repeat constructor.
Defined.

(** The whip's evolution, with a free slot. *)
Definition evolution_option : LevelUpOption := mkOption 0 WEAPON 10 "Bloody Whip (EVOLVED)" EmptyString true.

Lemma offered_options_apply_witness :
  evolution_option ∈ GenerateOptions (H := any_order) whip_data (fun _ _ => 0) maxed_inv /\
  (isNew evolution_option = true <-> owned_level maxed_inv evolution_option = 0) /\
  (applies whip_data maxed_inv evolution_option \/
   HasEmptyWeaponSlot maxed_inv = false /\ is_evolution whip_data maxed_inv evolution_option).
Proof.
  assert (evolution_option ∈ GenerateOptions (H := any_order) whip_data (fun _ _ => 0) maxed_inv) as Ho.
  { apply list_elem_of_In. vm_compute. auto. }
  split; [done|]. exact (offered_options_apply (H := any_order) whip_data (fun _ _ => 0) maxed_inv evolution_option
                           whip_data_ok maxed_inv_ok Ho).
Defined.

(** Evolved weapons are entries of the same table, and a player who owns nothing is
    offered one as an ordinary new weapon. *)
Lemma evolution_offered_from_the_start : exists o,
  o ∈ BuildCandidatePool (H := any_order) whip_data PlayerInventory_new /\ opt_type o = WEAPON /\ itemId o = 10 /\ isNew o = true.
Proof.
  exists (mkOption 1 WEAPON 10 "Bloody Whip" EmptyString true). split; [|done].
  apply list_elem_of_In. vm_compute. auto.
Qed.

(** Where a slot is free, the pool of a player with a maxed whip holds it twice. *)
Lemma evolution_offered_twice :
  length (filter (fun o => opt_type o = WEAPON /\ itemId o = 10) (BuildCandidatePool (H := any_order) whip_data maxed_inv)) = 2%nat.
Proof. reflexivity. Qed.
