(* ===== verification/Entity.v ===== *)
(** * Entity: game objects

    Models src/Examples/VampireSurvivor/Server/Math/Vector2.h and, in Entity/,
    GameObject.h, GameObject.cpp, Monster.h, Monster.cpp and ExpGem.h, with the state
    and the [Reset] of the AI objects of AI/; what they do is in Movement.v and MonsterAI.v.
    The fields of a game object that only record what was last sent are left out.
    Signed 32-bit arithmetic wraps around, as the compiled code does. *)

From stdpp Require Import base strings gmap option list.
From Stdlib Require Import SpecFloat.
From S2P Require Import Prelude Float32 Random Modifiers.

(** ** Vector2 *)

Record Vector2 := mkVec { vx : float; vy : float }.

Definition kEpsilon : float := flit 1 1000000.

Definition vadd (a b : Vector2) : Vector2 := mkVec (vx a + vx b)%F (vy a + vy b)%F.
Definition vsub (a b : Vector2) : Vector2 := mkVec (vx a - vx b)%F (vy a - vy b)%F.
Definition vscale (a : Vector2) (k : float) : Vector2 := mkVec (vx a * k)%F (vy a * k)%F.
Definition vquot (a : Vector2) (k : float) : Vector2 := mkVec (vx a / k)%F (vy a / k)%F.
Definition vZero : Vector2 := mkVec f0 f0.
Definition IsZero (a : Vector2) : bool := (SFabs (vx a) <? kEpsilon)%F && (SFabs (vy a) <? kEpsilon)%F.
Definition MagnitudeSq (a : Vector2) : float := (vx a * vx a + vy a * vy a)%F.
Definition Magnitude (a : Vector2) : float := fsqrt (MagnitudeSq a).
Definition Normalize (a : Vector2) : Vector2 :=
  let mag := Magnitude a in if (kEpsilon <? mag)%F then vquot a mag else vZero.
Definition DistanceSq (a b : Vector2) : float := MagnitudeSq (vsub a b).
Definition Dot (a b : Vector2) : float := (vx a * vx b + vy a * vy b)%F.
Definition vec_eq (a b : Vector2) : bool :=
  (SFabs (vx a - vx b) <? kEpsilon)%F && (SFabs (vy a - vy b) <? kEpsilon)%F.

(** ** GameObject *)

Inductive ObjectType := UNKNOWN | PLAYER | MONSTER | PROJECTILE | ITEM.
Inductive ObjectState := IDLE | MOVING | ATTACKING | DEAD | DOWNED | KNOCKBACK | STUNNED.

#[global] Instance ObjectType_eq_dec : EqDecision ObjectType.
Proof. solve_decision. Defined.
#[global] Instance ObjectState_eq_dec : EqDecision ObjectState.
Proof. solve_decision. Defined.

Record GameObject := mkGO {
  _id : Z;
  _type : ObjectType;
  _state : ObjectState;
  _stateExpiresAt : float;
  _x : float;
  _y : float;
  _vx : float;
  _vy : float;
  _radius : float;
  _lookLeft : bool;
  _hp : Z;
  _maxHp : Z;
  _modifiers : ModifierContainer
}.

Definition GameObject_new (id : Z) (t : ObjectType) : GameObject :=
  mkGO id t IDLE f0 f0 f0 f0 f0 (flit 1 2) false 100 100 ModifierContainer_new.

Definition SetPos (x y : float) (o : GameObject) : GameObject :=
  mkGO (_id o) (_type o) (_state o) (_stateExpiresAt o) x y (_vx o) (_vy o) (_radius o) (_lookLeft o)
    (_hp o) (_maxHp o) (_modifiers o).

Definition SetVelocity (x y : float) (o : GameObject) : GameObject :=
  let look := if (x <? flit (-1) 10)%F then true else if (flit 1 10 <? x)%F then false else _lookLeft o in
  mkGO (_id o) (_type o) (_state o) (_stateExpiresAt o) (_x o) (_y o) x y (_radius o) look
    (_hp o) (_maxHp o) (_modifiers o).

Definition SetState (s : ObjectState) (expiresAt : float) (o : GameObject) : GameObject :=
  mkGO (_id o) (_type o) s expiresAt (_x o) (_y o) (_vx o) (_vy o) (_radius o) (_lookLeft o)
    (_hp o) (_maxHp o) (_modifiers o).

Definition SetHp (hp : Z) (o : GameObject) : GameObject :=
  mkGO (_id o) (_type o) (_state o) (_stateExpiresAt o) (_x o) (_y o) (_vx o) (_vy o) (_radius o) (_lookLeft o)
    hp (_maxHp o) (_modifiers o).

Definition set_maxHp (hp : Z) (o : GameObject) : GameObject :=
  mkGO (_id o) (_type o) (_state o) (_stateExpiresAt o) (_x o) (_y o) (_vx o) (_vy o) (_radius o) (_lookLeft o)
    (_hp o) hp (_modifiers o).

Definition map_modifiers (f : ModifierContainer -> ModifierContainer) (o : GameObject) : GameObject :=
  mkGO (_id o) (_type o) (_state o) (_stateExpiresAt o) (_x o) (_y o) (_vx o) (_vy o) (_radius o) (_lookLeft o)
    (_hp o) (_maxHp o) (f (_modifiers o)).

Definition UpdateStateExpiry (currentTime : float) (o : GameObject) : GameObject :=
  if (f0 <? _stateExpiresAt o)%F && (_stateExpiresAt o <=? currentTime)%F then SetState IDLE f0 o else o.

Definition IsControlDisabled (o : GameObject) : bool :=
  match _state o with KNOCKBACK | STUNNED | DEAD => true | _ => false end.

Definition IsDead (o : GameObject) : bool := bool_decide (_state o = DEAD).

(** ** The mind of a monster *)

(** The classes behind [IMovementStrategy]; none has state. *)
Inductive MovementStrategy :=
| CellBasedMovementStrategy
| FluidStackingStrategy
| SmartFlockingStrategy
| StrictSeparationStrategy
| SurroundingFlockingStrategy
| VampireSurvivorMovementStrategy.

(** The classes behind [IAIBehavior], with their state; [ai_hasRoom] tells whether
    [_room] is set (it is then the room the monster is in). *)
Record Chaser := mkChaser {
  ch_speed : float; ch_thinkInterval : float; ch_nextThinkTime : float; ch_hasTarget : bool; ch_hasRoom : bool
}.
Record Swarm := mkSwarm {
  sw_speed : float; sw_thinkInterval : float; sw_nextThinkTime : float; sw_hasPlayer : bool;
  sw_playerX : float; sw_playerY : float; sw_hasRoom : bool
}.
Record Wander := mkWander {
  wa_speed : float; wa_directionChangeInterval : float; wa_nextDirectionChangeTime : float; wa_dirX : float; wa_dirY : float
}.

Inductive AIBehavior := ChaserAI (a : Chaser) | SwarmAI (a : Swarm) | WanderAI (a : Wander) | BossAI.

Definition ChaserAI_new (speed : float) : AIBehavior := ChaserAI (mkChaser speed (flit 1 10) f0 false false).
Definition SwarmAI_new (speed : float) : AIBehavior := SwarmAI (mkSwarm speed (flit 3 10) f0 false f0 f0 false).
Definition WanderAI_new (speed : float) : AIBehavior := WanderAI (mkWander speed (f_of_Z 2) f0 f0 f0).

(** [rng] is the generator of [ChaserAI::Reset]. *)
Definition ai_Reset (a : AIBehavior) (rng : FastRandom) : AIBehavior * FastRandom :=
  match a with
  | ChaserAI c =>
      let '(t, rng) := NextFloat_range f0 (ch_thinkInterval c) rng in
      (ChaserAI (mkChaser (ch_speed c) (ch_thinkInterval c) t false false), rng)
  | SwarmAI s => (SwarmAI (mkSwarm (sw_speed s) (sw_thinkInterval s) f0 false f0 f0 false), rng)
  | WanderAI w => (WanderAI (mkWander (wa_speed w) (wa_directionChangeInterval w) f0 f0 f0), rng)
  | BossAI => (BossAI, rng)
  end.

(** ** Monster *)

Record Monster := mkMonster {
  m_obj : GameObject;
  _monsterTypeId : Z;
  _targetId : Z;
  _aliveTime : float;
  _stuckTimer : float;
  _damageOnContact : Z;
  _attackCooldown : float;
  _lastAttackTime : float;
  _ai : option AIBehavior;
  _movementStrategy : MovementStrategy
}.

Definition LEVELUP_SLOW_SOURCE_ID : Z := 1000.

Definition Monster_new : Monster := mkMonster (GameObject_new 0 MONSTER) 0 0 f0 f0 10 f1 (f_of_Z (-100)) None CellBasedMovementStrategy.

Definition with_obj (f : GameObject -> GameObject) (m : Monster) : Monster :=
  mkMonster (f (m_obj m)) (_monsterTypeId m) (_targetId m) (_aliveTime m) (_stuckTimer m) (_damageOnContact m)
    (_attackCooldown m) (_lastAttackTime m) (_ai m) (_movementStrategy m).

Definition SetAI (ai : option AIBehavior) (m : Monster) : Monster :=
  mkMonster (m_obj m) (_monsterTypeId m) (_targetId m) (_aliveTime m) (_stuckTimer m) (_damageOnContact m)
    (_attackCooldown m) (_lastAttackTime m) ai (_movementStrategy m).

Definition SetMovementStrategy (s : MovementStrategy) (m : Monster) : Monster :=
  mkMonster (m_obj m) (_monsterTypeId m) (_targetId m) (_aliveTime m) (_stuckTimer m) (_damageOnContact m)
    (_attackCooldown m) (_lastAttackTime m) (_ai m) s.

Definition SetStuckTimer (t : float) (m : Monster) : Monster :=
  mkMonster (m_obj m) (_monsterTypeId m) (_targetId m) (_aliveTime m) t (_damageOnContact m)
    (_attackCooldown m) (_lastAttackTime m) (_ai m) (_movementStrategy m).

Definition CanAttack (currentTime : float) (m : Monster) : bool := (_attackCooldown m <=? currentTime - _lastAttackTime m)%F.

Definition ResetAttackCooldown (currentTime : float) (m : Monster) : Monster :=
  mkMonster (m_obj m) (_monsterTypeId m) (_targetId m) (_aliveTime m) (_stuckTimer m) (_damageOnContact m)
    (_attackCooldown m) currentTime (_ai m) (_movementStrategy m).

(** The part of [Update] before the AI runs; the result tells whether it runs. *)
Definition update_timers (dt now : float) (m : Monster) : Monster * bool :=
  let stuck := if (f0 <? _stuckTimer m)%F then (_stuckTimer m - dt)%F else _stuckTimer m in
  let obj := map_modifiers (Modifiers.Update now) (UpdateStateExpiry now (m_obj m)) in
  (mkMonster obj (_monsterTypeId m) (_targetId m) (_aliveTime m + dt)%F stuck (_damageOnContact m)
     (_attackCooldown m) (_lastAttackTime m) (_ai m) (_movementStrategy m),
   negb (IsDead obj) && negb (IsControlDisabled obj)).

(** What an object tells its room: packets to broadcast, and the gem of a kill. *)
Inductive MonsterEvent :=
| MHpChange (id hp maxHp : Z)
| MDropGem (x y : float) (exp : Z).

Definition Monster_TakeDamage (damage : Z) (m : Monster) : Monster * list MonsterEvent :=
  let o := m_obj m in
  if IsDead o then (m, [])
  else
    let hp := i32 (_hp o - damage) in
    let ev := [MHpChange (_id o) hp (_maxHp o)] in
    if hp <=? 0 then (with_obj (fun o => SetState DEAD f0 (SetHp 0 o)) m, ev ++ [MDropGem (_x o) (_y o) 10])
    else (with_obj (SetHp hp) m, ev).

Definition AddLevelUpSlow (now duration : float) (m : Monster) : Monster :=
  with_obj (map_modifiers (AddModifier (mkMod Speed PercentMult (flit 15 100) LEVELUP_SLOW_SOURCE_ID (now + duration)%F false))) m.

Definition RemoveLevelUpSlow (m : Monster) : Monster := with_obj (map_modifiers (RemoveBySourceId LEVELUP_SLOW_SOURCE_ID)) m.

Definition AddStatusEffect (t : string) (v duration now : float) (m : Monster) : Monster :=
  if bool_decide (t = "SLOW"%string)
  then with_obj (map_modifiers (AddModifier (mkMod Speed PercentMult v 2000 (now + duration)%F false))) m
  else m.

Definition GetSpeed (m : Monster) : float * Monster :=
  let '(v, mods) := GetStat Speed (_modifiers (m_obj m)) in (v, with_obj (map_modifiers (fun _ => mods)) m).

Definition Monster_Reset (m : Monster) (rng : FastRandom) : Monster * FastRandom :=
  let o := m_obj m in
  let '(ai, rng) := match _ai m with
                    | Some a => let '(a, rng) := ai_Reset a rng in (Some a, rng)
                    | None => (None, rng) end in
  (mkMonster (mkGO 0 (_type o) IDLE f0 f0 f0 f0 f0 (flit 1 2) (_lookLeft o) 100 100 (Modifiers.Clear (_modifiers o)))
     0 0 f0 f0 10 f1 (f_of_Z (-100)) ai (_movementStrategy m), rng).

Definition Monster_Initialize (id typeId hp : Z) (radius : float) (damage : Z) (cooldown speed : float) (m : Monster) : Monster :=
  let o := m_obj m in
  mkMonster (mkGO id (_type o) IDLE (_stateExpiresAt o) (_x o) (_y o) (_vx o) (_vy o) radius (_lookLeft o) hp hp
               (SetBaseStat Speed speed (_modifiers o)))
    typeId (_targetId m) f0 (_stuckTimer m) damage cooldown (f_of_Z (-100)) (_ai m) (_movementStrategy m).

(** ** ExpGem *)

Record ExpGem := mkGem { g_obj : GameObject; _expAmount : Z; _isPickedUp : bool; _pickerId : Z }.

Definition ExpGem_new (id exp : Z) : ExpGem := mkGem (GameObject_new id ITEM) exp false 0.

Definition ExpGem_Initialize (id : Z) (x y : float) (exp : Z) (g : ExpGem) : ExpGem :=
  let o := g_obj g in
  mkGem (mkGO id (_type o) IDLE (_stateExpiresAt o) x y f0 f0 (_radius o) (_lookLeft o) (_hp o) (_maxHp o) (_modifiers o))
    exp (_isPickedUp g) (_pickerId g).

Definition MarkAsPickedUp (g : ExpGem) : ExpGem := mkGem (g_obj g) (_expAmount g) true (_pickerId g).
Definition SetPickerId (p : Z) (g : ExpGem) : ExpGem := mkGem (g_obj g) (_expAmount g) (_isPickedUp g) p.

(** ** Monster speed *)

(** The modifiers of a monster are all of its speed, and its cache is current. *)
Definition speed_ok (m : Monster) : Prop :=
  coherent (_modifiers (m_obj m)) /\ Forall (fun x => Modifiers.type x = Speed) (Modifiers._modifiers (_modifiers (m_obj m))).

Inductive MonsterOp :=
| MInit (id typeId hp : Z) (radius : float) (damage : Z) (cooldown speed : float)
| MReset (rng : FastRandom)
| MUpdate (dt now : float)
| MDamage (damage : Z)
| MSlow (now duration : float)
| MUnslow
| MStatus (t : string) (v duration now : float)
| MGetSpeed.

Definition monster_exec (o : MonsterOp) (m : Monster) : Monster :=
  match o with
  | MInit id typeId hp radius damage cooldown speed => Monster_Initialize id typeId hp radius damage cooldown speed m
  | MReset rng => (Monster_Reset m rng).1
  | MUpdate dt now => (update_timers dt now m).1
  | MDamage damage => (Monster_TakeDamage damage m).1
  | MSlow now duration => AddLevelUpSlow now duration m
  | MUnslow => RemoveLevelUpSlow m
  | MStatus t v duration now => AddStatusEffect t v duration now m
  | MGetSpeed => (GetSpeed m).2
  end.

(** An operation on the modifiers that adds none but speed modifiers. *)
Lemma speed_ok_exec o mods :
  adds_type Speed o -> coherent mods -> Forall (fun x => Modifiers.type x = Speed) (Modifiers._modifiers mods) ->
  coherent (mod_exec o mods) /\ Forall (fun x => Modifiers.type x = Speed) (Modifiers._modifiers (mod_exec o mods)).
Proof. intros Ho Hc Hu. split; [apply mod_exec_coherent; [done|right; eauto]|by apply mod_exec_uniform]. Qed.

Lemma UpdateStateExpiry_modifiers now o : _modifiers (UpdateStateExpiry now o) = _modifiers o.
Proof. unfold UpdateStateExpiry. by destruct (_ && _). Qed.

Lemma GetSpeed_modifiers m : _modifiers (m_obj (GetSpeed m).2) = (GetStat Speed (_modifiers (m_obj m))).2.
Proof. unfold GetSpeed. by destruct (GetStat _ _). Qed.

Lemma monster_exec_ok o m : speed_ok m -> speed_ok (monster_exec o m).
Proof.
  intros [Hc Hu]. unfold speed_ok. destruct o as [id ty hp radius dmg cd sp|rng|dt now|damage|now d| |t v d now|].
  - by apply (speed_ok_exec (OpSetBase Speed sp)).
  - cbn [monster_exec]. unfold Monster_Reset. destruct (match _ai m with Some _ => _ | None => _ end). by apply (speed_ok_exec OpClear).
  - cbn. rewrite UpdateStateExpiry_modifiers. by apply (speed_ok_exec (OpUpdate now)).
  - cbn [monster_exec]. unfold Monster_TakeDamage. by destruct (IsDead _); [|destruct (_ <=? 0)].
  - by apply (speed_ok_exec (OpAdd _)).
  - by apply (speed_ok_exec (OpRemoveSource _)).
  - cbn [monster_exec]. unfold AddStatusEffect. case_bool_decide; [|done]. by apply (speed_ok_exec (OpAdd _)).
  - cbn [monster_exec]. rewrite GetSpeed_modifiers. by apply (speed_ok_exec (OpGet Speed)).
Qed.

Definition monster_run (ops : list MonsterOp) (m : Monster) : Monster := foldl (fun m o => monster_exec o m) m ops.

Lemma monster_run_ok ops m : speed_ok m -> speed_ok (monster_run ops m).
Proof. revert m; induction ops as [|o ops IH]; intros m Hm; [done|]. by apply IH, monster_exec_ok. Qed.

Lemma speed_ok_new : speed_ok Monster_new.
Proof. split; [|constructor]. intros t v _. cbn. by rewrite lookup_empty. Qed.

Lemma GetSpeed_current m : speed_ok m -> (GetSpeed m).1 = CalculateStat Speed (_modifiers (m_obj m)).
Proof. intros [Hc _]. unfold GetSpeed. rewrite <- (GetStat_coherent _ _ Hc). by destruct (GetStat _ _). Qed.

(** A monster that carries a level-up slow. *)
Definition is_slow (m : Monster) : Prop :=
  Exists (fun x => sourceId x = LEVELUP_SLOW_SOURCE_ID) (Modifiers._modifiers (_modifiers (m_obj m))).

Lemma RemoveLevelUpSlow_modifiers m :
  Modifiers._modifiers (_modifiers (m_obj (RemoveLevelUpSlow m))) =
  filter (fun x => (sourceId x =? LEVELUP_SLOW_SOURCE_ID) = false) (Modifiers._modifiers (_modifiers (m_obj m))).
Proof. cbn. unfold RemoveBySourceId. by rewrite erase_and_mark_eq. Qed.

Lemma RemoveLevelUpSlow_not_slow m : ~ is_slow (RemoveLevelUpSlow m).
Proof.
  unfold is_slow. rewrite RemoveLevelUpSlow_modifiers, Exists_exists. intros (x & [Hx _]%list_elem_of_filter & E).
  apply Z.eqb_neq in Hx. done.
Qed.

Lemma erase_and_mark_base p mods : _baseStats (erase_and_mark p mods) = _baseStats mods.
Proof.
  rewrite erase_and_mark_eq. cbn. destruct (mark_all (drop (length (keep p mods)) (Modifiers._modifiers mods)) mods) as (E & _).
  exact E.
Qed.

Lemma unslow_slow_modifiers now d m :
  ~ is_slow m ->
  Modifiers._modifiers (_modifiers (m_obj (RemoveLevelUpSlow (AddLevelUpSlow now d m)))) = Modifiers._modifiers (_modifiers (m_obj m)).
Proof.
  intros Hs. rewrite RemoveLevelUpSlow_modifiers. cbn [AddLevelUpSlow with_obj m_obj map_modifiers _modifiers].
  rewrite AddModifier_modifiers. cbn [allowStacking]. unfold keep. rewrite filter_app, filter_cons_False, filter_nil by done.
  rewrite app_nil_r, list_filter_filter. unfold is_slow in Hs. rewrite Exists_exists in Hs.
  revert Hs. generalize (Modifiers._modifiers (_modifiers (m_obj m))). clear m. intros l Hs.
  induction l as [|x l IH]; [done|]. rewrite filter_cons_True.
  - f_equal. apply IH. intros (y & Hy & E). apply Hs. exists y. split; [by right|done].
  - assert ((sourceId x =? LEVELUP_SLOW_SOURCE_ID) = false) as E.
    { apply Z.eqb_neq. intros E. apply Hs. exists x. split; [left|done]. }
    split; [done|]. unfold same_slot. cbn [sourceId]. by rewrite E.
Qed.

(** A monster's speed is never stale, whatever its life in the pool and in the
    room: after any sequence of initialisations, resets, updates, hits and slows,
    [GetSpeed] returns the speed computed from the modifiers present; and a level-up
    slow that is put on and taken off again leaves the speed as it was. *)
Theorem monster_speed_is_current ops now d :
  let m := monster_run ops Monster_new in
  (GetSpeed m).1 = CalculateStat Speed (_modifiers (m_obj m)) /\
  (~ is_slow m -> (GetSpeed (RemoveLevelUpSlow (AddLevelUpSlow now d m))).1 = (GetSpeed m).1).
Proof.
  cbv zeta. pose proof (monster_run_ok ops _ speed_ok_new) as Hm. split; [by apply GetSpeed_current|].
  intros Hs. rewrite !GetSpeed_current by (try done; by apply (monster_exec_ok MUnslow), (monster_exec_ok (MSlow now d))).
  apply CalculateStat_ext.
  - unfold GetBaseStat. f_equal. cbn [RemoveLevelUpSlow with_obj m_obj map_modifiers _modifiers].
    unfold RemoveBySourceId. rewrite erase_and_mark_base. cbn [AddLevelUpSlow with_obj m_obj map_modifiers _modifiers].
    unfold AddModifier. cbn [allowStacking negb]. by rewrite erase_if_eq.
  - by rewrite unslow_slow_modifiers.
Qed.

Lemma monster_speed_is_current_witness :
  let m := monster_run [MInit 1001 1 50 (flit 1 2) 10 f1 (f_of_Z 4); MGetSpeed; MDamage 5] Monster_new in
  ~ is_slow m /\ (GetSpeed (RemoveLevelUpSlow (AddLevelUpSlow f0 (f_of_Z 999) m))).1 = f_of_Z 4.
Proof.
  cbv zeta. assert (~ is_slow (monster_run [MInit 1001 1 50 (flit 1 2) 10 f1 (f_of_Z 4); MGetSpeed; MDamage 5] Monster_new)) as Hs.
  { unfold is_slow. vm_compute. intros E. inversion E. }
  split; [done|].
  destruct (monster_speed_is_current [MInit 1001 1 50 (flit 1 2) 10 f1 (f_of_Z 4); MGetSpeed; MDamage 5] f0 (f_of_Z 999)) as [_ E].
  rewrite (E Hs). vm_compute. reflexivity.
Defined.

Example slow_and_back :
  let m := Monster_Initialize 1001 1 50 (flit 1 2) 10 f1 (f_of_Z 4) Monster_new in
  let slow := AddLevelUpSlow (f_of_Z 3) (f_of_Z 999) m in
  (GetSpeed slow).1 = flit 6 10 /\ (GetSpeed (RemoveLevelUpSlow slow)).1 = f_of_Z 4.
Proof. vm_compute. done. Qed.
