(* ===== verification/Player.v ===== *)
(** * Player: experience, level-ups, damage, weapon emitters

    Models src/Examples/VampireSurvivor/Server/Entity/Player.h and Player.cpp, the
    constructor and accessors of Game/DamageEmitter.h, [ApplySelection] of
    Game/LevelUpManager.cpp and the task posted by
    Core/Handlers/Game/SelectLevelUpHandler.cpp.

    A player acts on its room through the interface [RoomApi]: the clock, the
    monsters in range, changes to a monster, packets. *)

From stdpp Require Import base strings gmap option list.
From S2P Require Import Prelude Float32 GameData Modifiers Inventory Entity.

(** ** Constants of GameConfig.h *)

Definition PLAYER_COLLISION_RADIUS : float := flit 1 2.
Definition PLAYER_INVINCIBLE_DURATION : float := flit 1 2.
Definition EXP_BASE : Z := 100.
Definition EXP_PER_LEVEL_INCREMENT : Z := 50.
Definition LEVEL_UP_TIMEOUT_SEC : float := f_of_Z 30.
Definition SKILL_ID_MAX_HP_BONUS : Z := 101.

(** ** Packets and the room *)

Record Move := mkMove { mv_id : Z; mv_x : float; mv_y : float; mv_vx : float; mv_vy : float }.
Record Item := mkItem { item_id : Z; item_level : Z; item_is_passive : bool }.

Inductive Packet :=
| S_HpChange (id : Z) (hp maxHp : float)
| S_PlayerDead (id : Z)
| S_ExpChange (exp maxExp level : Z)
| S_LevelUpOption (timeout slow_radius : float) (options : list LevelUpOption)
| S_MoveObjectBatch (tick : Z) (moves : list Move)
| S_Knockback (id : Z) (dir : Vector2) (force duration : float)
| S_UpdateInventory (id : Z) (items : list Item).

Class RoomApi (R : Type) := {
  GetTotalRunTime : R -> float;
  GetServerTick : R -> Z;
  GetMonstersInRange : float -> float -> float -> R -> list Z;
  GetMonster : Z -> R -> option Monster;
  update_monster : Z -> (Monster -> Monster) -> R -> R;
  BroadcastPacket : Packet -> R -> R;
  SendToPlayer : Z -> Packet -> R -> R
}.

(** What the player relies on: in-range monsters exist, a change to a monster is
    seen there and nowhere else, packets change nothing. *)
Class RoomLaws (R : Type) `{RoomApi R} := {
  in_range_exist x y rad (r : R) id : id ∈ GetMonstersInRange x y rad r -> is_Some (GetMonster id r);
  get_update id f (r : R) id' :
    GetMonster id' (update_monster id f r) = if bool_decide (id = id') then f <$> GetMonster id r else GetMonster id' r;
  time_update id f (r : R) : GetTotalRunTime (update_monster id f r) = GetTotalRunTime r;
  get_broadcast p (r : R) id : GetMonster id (BroadcastPacket p r) = GetMonster id r;
  get_send s p (r : R) id : GetMonster id (SendToPlayer s p r) = GetMonster id r
}.

(** ** Damage emitters, as far as the player manages them *)

Inductive EmitterState := COOLING | ACTIVE.

Record DamageEmitter := mkEmitter {
  e_skillId : Z; e_weaponId : Z; e_level : Z; e_owner : Z; e_damage : Z; e_typeId : Z;
  e_tickInterval : float; e_hitRadius : float; e_timer : float; e_activeDuration : float;
  e_dotInterval : float; e_dotTimer : float; e_state : EmitterState; e_emitterType : string;
  e_pierce : Z; e_maxTargetsPerTick : Z; e_targetRule : string; e_lifeTime : float;
  e_elapsedTime : float; e_arcDegrees : float; e_width : float; e_height : float; e_active : bool
}.

Definition DamageEmitter_new (D : DataManager) (skillId owner weaponId level : Z) : DamageEmitter :=
  match GetSkillInfo D skillId with
  | Some t =>
      mkEmitter skillId weaponId level owner (si_damage t) (si_typeId t) (si_tickInterval t) (si_hitRadius t)
        (si_tickInterval t) (si_activeDuration t) (si_dotInterval t) f0 COOLING (si_emitterType t) (si_pierce t)
        (si_maxTargetsPerTick t) (si_targetRule t) (si_lifeTime t) f0 (si_arcDegrees t) (si_width t) (si_height t) true
  | None =>
      mkEmitter skillId weaponId level owner 0 0 f1 f1 f1 f0 (flit 1 2) f0 COOLING "AoE" 1 1 "Nearest" f0 f0
        (f_of_Z 30) f1 f1 true
  end.

Definition SetLevel (level : Z) (e : DamageEmitter) : DamageEmitter :=
  mkEmitter (e_skillId e) (e_weaponId e) level (e_owner e) (e_damage e) (e_typeId e) (e_tickInterval e) (e_hitRadius e)
    (e_timer e) (e_activeDuration e) (e_dotInterval e) (e_dotTimer e) (e_state e) (e_emitterType e) (e_pierce e)
    (e_maxTargetsPerTick e) (e_targetRule e) (e_lifeTime e) (e_elapsedTime e) (e_arcDegrees e) (e_width e) (e_height e)
    (e_active e).

(** ** Player *)

Record Player := mkPlayer {
  p_obj : GameObject;
  _sessionId : Z;
  _name : string;
  _classId : Z;
  _currentRoomId : Z;
  _speed : float;
  _lastInputTick : Z;
  _facingDir : Vector2;
  _baseMaxHp : Z;
  _exp : Z;
  _maxExp : Z;
  _level : Z;
  _invincibleUntil : float;
  _isLevelingUp : bool;
  _levelUpStartedAt : float;
  _emitters : list DamageEmitter;
  _inventory : PlayerInventory;
  _pendingLevelUpOptions : list LevelUpOption;
  _slowedMonsterIds : list Z;
  _isReady : bool;
  _godMode : bool
}.

Definition Player_new (gameId sessionId : Z) : Player :=
  mkPlayer (GameObject_new gameId PLAYER) sessionId EmptyString 0 0 (f_of_Z 5) 0 (mkVec f1 f0) 100 0 100 1 f0 false f0
    [] PlayerInventory_new [] [] false false.

(** Setters, one per group of fields the operations change. *)
Definition set_obj (o : GameObject) (p : Player) : Player :=
  mkPlayer o (_sessionId p) (_name p) (_classId p) (_currentRoomId p) (_speed p) (_lastInputTick p) (_facingDir p)
    (_baseMaxHp p) (_exp p) (_maxExp p) (_level p) (_invincibleUntil p) (_isLevelingUp p) (_levelUpStartedAt p)
    (_emitters p) (_inventory p) (_pendingLevelUpOptions p) (_slowedMonsterIds p) (_isReady p) (_godMode p).

Definition set_input (tick : Z) (dir : Vector2) (p : Player) : Player :=
  mkPlayer (p_obj p) (_sessionId p) (_name p) (_classId p) (_currentRoomId p) (_speed p) tick dir
    (_baseMaxHp p) (_exp p) (_maxExp p) (_level p) (_invincibleUntil p) (_isLevelingUp p) (_levelUpStartedAt p)
    (_emitters p) (_inventory p) (_pendingLevelUpOptions p) (_slowedMonsterIds p) (_isReady p) (_godMode p).

Definition set_exp (exp maxExp level : Z) (p : Player) : Player :=
  mkPlayer (p_obj p) (_sessionId p) (_name p) (_classId p) (_currentRoomId p) (_speed p) (_lastInputTick p) (_facingDir p)
    (_baseMaxHp p) exp maxExp level (_invincibleUntil p) (_isLevelingUp p) (_levelUpStartedAt p)
    (_emitters p) (_inventory p) (_pendingLevelUpOptions p) (_slowedMonsterIds p) (_isReady p) (_godMode p).

Definition set_levelup (until : float) (leveling : bool) (started : float) (p : Player) : Player :=
  mkPlayer (p_obj p) (_sessionId p) (_name p) (_classId p) (_currentRoomId p) (_speed p) (_lastInputTick p) (_facingDir p)
    (_baseMaxHp p) (_exp p) (_maxExp p) (_level p) until leveling started
    (_emitters p) (_inventory p) (_pendingLevelUpOptions p) (_slowedMonsterIds p) (_isReady p) (_godMode p).

Definition set_emitters (l : list DamageEmitter) (p : Player) : Player :=
  mkPlayer (p_obj p) (_sessionId p) (_name p) (_classId p) (_currentRoomId p) (_speed p) (_lastInputTick p) (_facingDir p)
    (_baseMaxHp p) (_exp p) (_maxExp p) (_level p) (_invincibleUntil p) (_isLevelingUp p) (_levelUpStartedAt p)
    l (_inventory p) (_pendingLevelUpOptions p) (_slowedMonsterIds p) (_isReady p) (_godMode p).

Definition set_inventory (inv : PlayerInventory) (p : Player) : Player :=
  mkPlayer (p_obj p) (_sessionId p) (_name p) (_classId p) (_currentRoomId p) (_speed p) (_lastInputTick p) (_facingDir p)
    (_baseMaxHp p) (_exp p) (_maxExp p) (_level p) (_invincibleUntil p) (_isLevelingUp p) (_levelUpStartedAt p)
    (_emitters p) inv (_pendingLevelUpOptions p) (_slowedMonsterIds p) (_isReady p) (_godMode p).

Definition SetPendingLevelUpOptions (options : list LevelUpOption) (p : Player) : Player :=
  mkPlayer (p_obj p) (_sessionId p) (_name p) (_classId p) (_currentRoomId p) (_speed p) (_lastInputTick p) (_facingDir p)
    (_baseMaxHp p) (_exp p) (_maxExp p) (_level p) (_invincibleUntil p) (_isLevelingUp p) (_levelUpStartedAt p)
    (_emitters p) (_inventory p) options (_slowedMonsterIds p) (_isReady p) (_godMode p).

Definition set_slowed (l : list Z) (p : Player) : Player :=
  mkPlayer (p_obj p) (_sessionId p) (_name p) (_classId p) (_currentRoomId p) (_speed p) (_lastInputTick p) (_facingDir p)
    (_baseMaxHp p) (_exp p) (_maxExp p) (_level p) (_invincibleUntil p) (_isLevelingUp p) (_levelUpStartedAt p)
    (_emitters p) (_inventory p) (_pendingLevelUpOptions p) l (_isReady p) (_godMode p).

Definition set_flags (ready god : bool) (p : Player) : Player :=
  mkPlayer (p_obj p) (_sessionId p) (_name p) (_classId p) (_currentRoomId p) (_speed p) (_lastInputTick p) (_facingDir p)
    (_baseMaxHp p) (_exp p) (_maxExp p) (_level p) (_invincibleUntil p) (_isLevelingUp p) (_levelUpStartedAt p)
    (_emitters p) (_inventory p) (_pendingLevelUpOptions p) (_slowedMonsterIds p) ready god.

Definition ClearPendingLevelUpOptions (p : Player) : Player := SetPendingLevelUpOptions [] p.
Definition SetReady (ready : bool) (p : Player) : Player := set_flags ready (_godMode p) p.
Definition SetGodMode (enable : bool) (p : Player) : Player := set_flags (_isReady p) enable p.
Definition AddEmitter (e : DamageEmitter) (p : Player) : Player := set_emitters (_emitters p ++ [e]) p.
Definition ClearEmitters (p : Player) : Player := set_emitters [] p.

Definition Player_Initialize (gameId sessionId hp : Z) (speed : float) (p : Player) : Player :=
  let o := p_obj p in
  mkPlayer
    (mkGO gameId (_type o) (_state o) (_stateExpiresAt o) f0 f0 f0 f0 PLAYER_COLLISION_RADIUS (_lookLeft o) hp hp (_modifiers o))
    sessionId EmptyString 0 (_currentRoomId p) speed 0 (_facingDir p) hp 0 100 1 f0 false (_levelUpStartedAt p)
    (_emitters p) (_inventory p) [] [] (_isReady p) (_godMode p).

Definition Player_Reset (p : Player) : Player :=
  let o := p_obj p in
  mkPlayer
    (mkGO 0 (_type o) IDLE (_stateExpiresAt o) (_x o) (_y o) (_vx o) (_vy o) (_radius o) (_lookLeft o) 0 0 (_modifiers o))
    0 EmptyString 0 (_currentRoomId p) (_speed p) (_lastInputTick p) (mkVec f1 f0) (_baseMaxHp p) 0 100 1 f0 false
    (_levelUpStartedAt p) [] PlayerInventory_new [] [] false false.

Definition IsInvincible (now : float) (p : Player) : bool := (now <? _invincibleUntil p)%F.
Definition SetInvincible (until : float) (p : Player) : Player := set_levelup until (_isLevelingUp p) (_levelUpStartedAt p) p.

(** ** Passive bonuses

    Every getter folds over the owned passives of one stat; levels outside the
    template's table add nothing. *)

Definition passive_bonus (D : DataManager) (inv : PlayerInventory) (stats : list string) (id : Z) : option float :=
  t ← GetPassiveInfo D id;
  if bool_decide (ps_statType t ∈ stats) then
    let level := GetPassiveLevel inv id in
    if (0 <? level) && (level <=? Z.of_nat (length (ps_levels t)))
    then pl_bonus <$> ps_levels t !! Z.to_nat (level - 1) else None
  else None.

Definition fold_passives `{IterationOrder} {A} (D : DataManager) (stats : list string) (f : A -> float -> A) (a : A) (p : Player) : A :=
  foldl (fun acc id => match passive_bonus D (_inventory p) stats id with Some b => f acc b | None => acc end)
    a (GetOwnedPassiveIds (_inventory p)).

Section Stats.
Context `{IterationOrder} (D : DataManager).
Local Open Scope string_scope.

Definition GetDamageMultiplier (p : Player) : float := fold_passives D ["damage"] fadd f1 p.
Definition GetMaxHpMultiplier (p : Player) : float := fold_passives D ["max_hp"] fadd f1 p.
Definition GetMovementSpeedMultiplier (p : Player) : float := fold_passives D ["speed"] fadd f1 p.
Definition GetCooldownMultiplier (p : Player) : float := fmax (flit 1 10) (fold_passives D ["cooldown"] fsub f1 p).
Definition GetAreaMultiplier (p : Player) : float := fold_passives D ["area"] fadd f1 p.
Definition GetDurationMultiplier (p : Player) : float := fold_passives D ["duration"] fadd f1 p.
Definition GetAdditionalProjectileCount (p : Player) : Z :=
  fold_passives D ["projectile_count"] (fun c b => i32 (c + cast_i32 b)) 0%Z p.
Definition GetAdditionalPierceCount (p : Player) : Z :=
  fold_passives D ["pierce"] (fun c b => i32 (c + cast_i32 b)) 0%Z p.
Definition GetCriticalChance (p : Player) : float := fold_passives D ["critical_chance"; "crit_chance"] fadd (flit 5 100) p.
Definition GetCriticalDamageMultiplier (p : Player) : float :=
  fold_passives D ["critical_damage"; "crit_damage"] fadd (flit 15 10) p.

End Stats.

(** ** Operations *)

(** [while (_exp >= _maxExp)]: the three counters and whether a level was gained;
    [None] when the fuel runs out. *)
Definition exp_needed (level : Z) : Z := i32 (EXP_BASE + i32 ((level - 1) * EXP_PER_LEVEL_INCREMENT)).

Fixpoint level_loop (fuel : nat) (exp maxExp level : Z) (leveledUp : bool) : option (Z * Z * Z * bool) :=
  if maxExp <=? exp then
    match fuel with
    | O => None
    | S fuel =>
        let level := i32 (level + 1) in
        level_loop fuel (i32 (exp - maxExp)) (exp_needed level) level true
    end
  else Some (exp, maxExp, level, leveledUp).

Section Ops.
Context `{IterationOrder} {R : Type} `{RoomApi R} (D : DataManager) (dis : nat -> Z -> Z).

Definition HpChange (p : Player) : Packet :=
  S_HpChange (_id (p_obj p)) (f_of_Z (_hp (p_obj p))) (f_of_Z (_maxHp (p_obj p))).

Definition ApplyInput (clientTick dx dy : Z) (p : Player) : Player :=
  let p := set_input clientTick (_facingDir p) p in
  if IsControlDisabled (p_obj p) || _isLevelingUp p then p
  else
    let dir := mkVec (f_of_Z dx) (f_of_Z dy) in
    if IsZero dir then set_obj (SetState IDLE f0 (SetVelocity f0 f0 (p_obj p))) p
    else
      let dir := Normalize dir in
      let p := set_input clientTick dir p in
      let finalSpeed := (_speed p * GetMovementSpeedMultiplier D p)%F in
      set_obj (SetState MOVING f0 (SetVelocity (vx dir * finalSpeed)%F (vy dir * finalSpeed)%F (p_obj p))) p.

Definition Player_TakeDamage (damage : Z) (p : Player) (room : R) : Player * R :=
  if IsDead (p_obj p) then (p, room)
  else if _isLevelingUp p then (p, room)
  else if IsInvincible (GetTotalRunTime room) p || _godMode p then (p, room)
  else
    let p := SetInvincible (GetTotalRunTime room + PLAYER_INVINCIBLE_DURATION)%F p in
    let p := set_obj (SetHp (i32 (_hp (p_obj p) - damage)) (p_obj p)) p in
    let room := BroadcastPacket (HpChange p) room in
    if _hp (p_obj p) <=? 0 then
      (set_obj (SetState DEAD f0 (SetHp 0 (p_obj p))) p, BroadcastPacket (S_PlayerDead (_id (p_obj p))) room)
    else (p, room).

Definition apply_skill (o : GameObject) (skill : Z * Z) : GameObject :=
  if skill.1 =? SKILL_ID_MAX_HP_BONUS then
    let o := set_maxHp (i32 (_maxHp o + 10 * skill.2)) o in SetHp (_maxHp o) o
  else o.

Definition ApplySkills (skills : list (Z * Z)) (p : Player) (room : option R) : Player * option R :=
  let p := set_obj (foldl apply_skill (p_obj p) skills) p in
  (p, BroadcastPacket (HpChange p) <$> room).

Definition SyncInventory (p : Player) (room : R) : R :=
  let inv := _inventory p in
  let items := map (fun id => mkItem id (GetWeaponLevel inv id) false) (GetOwnedWeaponIds inv) ++
               map (fun id => mkItem id (GetPassiveLevel inv id) true) (GetOwnedPassiveIds inv) in
  SendToPlayer (_sessionId p) (S_UpdateInventory (_id (p_obj p)) items) room.

(** The first emitter of a weapon gets the level. *)
Fixpoint set_emitter_level (weaponId level : Z) (l : list DamageEmitter) : option (list DamageEmitter) :=
  match l with
  | [] => None
  | e :: l =>
      if e_weaponId e =? weaponId then Some (SetLevel level e :: l)
      else cons e <$> set_emitter_level weaponId level l
  end.

(** The body of the loop over the owned weapons. *)
Definition refresh_weapon (inv : PlayerInventory) (owner : Z) (l : list DamageEmitter) (weaponId : Z) : list DamageEmitter :=
  let level := GetWeaponLevel inv weaponId in
  match set_emitter_level weaponId level l with
  | Some l => l
  | None =>
      match GetWeaponInfo D weaponId with
      | Some t =>
          if (0 <? level) && (level <=? Z.of_nat (length (wp_levels t))) then
            match wp_levels t !! Z.to_nat (level - 1) with
            | Some lvl => l ++ [DamageEmitter_new D (wl_skillId lvl) owner weaponId level]
            | None => l
            end
          else l
      | None => l
      end
  end.

Definition keep_emitter (ids : list Z) (e : DamageEmitter) : bool :=
  (e_weaponId e =? 0) || bool_decide (e_weaponId e ∈ ids).

Definition refresh_emitters (inv : PlayerInventory) (owner : Z) (l : list DamageEmitter) : list DamageEmitter :=
  let weaponIds := GetOwnedWeaponIds inv in
  foldl (refresh_weapon inv owner) (filter (fun e => keep_emitter weaponIds e) l) weaponIds.

(** The hit points after a change of the maximum. *)
Definition refresh_hp (hp oldMaxHp maxHp : Z) : Z :=
  if (oldMaxHp <? maxHp) && (0 <? oldMaxHp) then i32 (hp + i32 (maxHp - oldMaxHp))
  else if maxHp <? hp then maxHp else hp.

Definition RefreshInventoryEffects (p : Player) (room : option R) : Player * option R :=
  let oldMaxHp := _maxHp (p_obj p) in
  let maxHp := cast_i32 (dmul (d_of_Z (_baseMaxHp p)) (d_of_f (GetMaxHpMultiplier D p))) in
  let hp := refresh_hp (_hp (p_obj p)) oldMaxHp maxHp in
  let p := set_obj (SetHp hp (set_maxHp maxHp (p_obj p))) p in
  let p := set_emitters (refresh_emitters (_inventory p) (_id (p_obj p)) (_emitters p)) p in
  let room := SyncInventory p <$> room in
  (p, if oldMaxHp =? maxHp then room else BroadcastPacket (HpChange p) <$> room).

Definition AddDefaultSkills (skillIds : list Z) (p : Player) (room : option R) : Player * option R :=
  RefreshInventoryEffects
    (set_inventory (foldl (fun inv id => (AddOrUpgradeWeapon D id inv).2) (_inventory p) skillIds) p) room.

(** Whether a weapon evolves now, and into what. *)
Definition evolution_of (inv : PlayerInventory) (weaponId : Z) : option Z :=
  t ← GetWeaponInfo D weaponId;
  if (0 <? wp_evolutionId t) && (0 <? wp_evolutionPassiveId t) && (wp_maxLevel t <=? GetWeaponLevel inv weaponId)
     && HasPassive inv (wp_evolutionPassiveId t)
  then Some (wp_evolutionId t) else None.

(** The first weapon that can evolve does, and the loop ends. *)
Fixpoint evolve_first (ids : list Z) (p : Player) (room : option R) : Player * option R :=
  match ids with
  | [] => (p, room)
  | weaponId :: ids =>
      match evolution_of (_inventory p) weaponId with
      | Some evo =>
          let p := set_inventory (AddOrUpgradeWeapon D evo (RemoveWeapon weaponId (_inventory p))).2 p in
          let p := set_emitters (filter (fun e => e_weaponId e ≠ weaponId) (_emitters p)) p in
          RefreshInventoryEffects p room
      | None => evolve_first ids p room
      end
  end.

Definition CheckWeaponEvolutions (p : Player) (room : option R) : Player * option R :=
  evolve_first (GetOwnedWeaponIds (_inventory p)) p room.

(** The push of one monster at the start of a level-up. *)
Definition knockback (p : Player) (room : R) (id : Z) : R :=
  match GetMonster id room with
  | None => room
  | Some m =>
      let dir := mkVec (_x (m_obj m) - _x (p_obj p))%F (_y (m_obj m) - _y (p_obj p))%F in
      let dir := Normalize (if IsZero dir then mkVec f1 f0 else dir) in
      let force := f_of_Z 10 in
      let duration := flit 3 10 in
      let push o := SetState KNOCKBACK (GetTotalRunTime room + duration)%F
                      (SetVelocity (vx dir * force)%F (vy dir * force)%F o) in
      BroadcastPacket (S_Knockback id dir force duration) (update_monster id (with_obj push) room)
  end.

Definition EnterLevelUpState (p : Player) (room : option R) : Player * option R :=
  let started := match room with Some r => GetTotalRunTime r | None => f0 end in
  let p := set_levelup (started + f_of_Z 999)%F true started p in
  let p := set_obj (SetState IDLE f0 (SetVelocity f0 f0 (p_obj p))) p in
  (p, (fun r => foldl (knockback p) r (GetMonstersInRange (_x (p_obj p)) (_y (p_obj p)) (f_of_Z 15) r)) <$> room).

Definition unslow (room : R) (id : Z) : R :=
  match GetMonster id room with
  | Some _ => update_monster id RemoveLevelUpSlow room
  | None => room
  end.

Definition ExitLevelUpState (p : Player) (room : option R) : Player * option R :=
  let p := set_levelup (_invincibleUntil p) false (_levelUpStartedAt p) p in
  let room := (fun r => foldl unslow r (_slowedMonsterIds p)) <$> room in
  let p := set_slowed [] p in
  let p := SetInvincible f0 p in
  RefreshInventoryEffects p room.

Definition AddExp (amount : Z) (p : Player) (room : option R) : option (Player * option R) :=
  if _isLevelingUp p then Some (p, room)
  else
    let exp := i32 (_exp p + amount) in
    '(exp, maxExp, level, leveledUp) ← level_loop (Z.to_nat exp) exp (_maxExp p) (_level p) false;
    let p := set_exp exp maxExp level p in
    match room with
    | Some r =>
        if _sessionId p =? 0 then Some (p, room)
        else
          let room := Some (SendToPlayer (_sessionId p) (S_ExpChange exp maxExp level) r) in
          if (leveledUp : bool) then
            match GenerateOptions D dis (_inventory p) with
            | [] => Some (p, room)
            | options =>
                let '(p, room) := EnterLevelUpState p room in
                let p := SetPendingLevelUpOptions options p in
                Some (p, SendToPlayer (_sessionId p) (S_LevelUpOption LEVEL_UP_TIMEOUT_SEC (f_of_Z 10) options) <$> room)
            end
          else Some (p, room)
    | None => Some (p, room)
    end.

(** [std::set::insert] on the ascending list of the elements. *)
Fixpoint set_insert (x : Z) (l : list Z) : list Z :=
  match l with
  | [] => [x]
  | y :: l' => if x <? y then x :: l else if x =? y then l else y :: set_insert x l'
  end.

Definition move_of (id : Z) (m : Monster) : Move :=
  mkMove id (_x (m_obj m)) (_y (m_obj m)) (_vx (m_obj m)) (_vy (m_obj m)).

(** Monsters that came into the aura. *)
Definition slow_step (acc : list Z * list Move * R) (id : Z) : list Z * list Move * R :=
  let '(slowed, moves, room) := acc in
  match GetMonster id room with
  | None => acc
  | Some m =>
      if bool_decide (id ∈ slowed) then acc
      else (set_insert id slowed, moves ++ [move_of id m],
            update_monster id (AddLevelUpSlow (GetTotalRunTime room) (f_of_Z 999)) room)
  end.

(** Monsters that left it. *)
Definition unslow_step (inRange : list Z) (acc : list Z * list Move * R) (id : Z) : list Z * list Move * R :=
  let '(kept, moves, room) := acc in
  if bool_decide (id ∈ inRange) then (kept ++ [id], moves, room)
  else
    match GetMonster id room with
    | Some m => (kept, moves ++ [move_of id m], unslow room id)
    | None => (kept, moves, room)
    end.

(** The slow aura of [Update] while the player chooses, with its timeout. *)
Definition update_aura (p : Player) (room : R) : Player * option R :=
  let inRange := GetMonstersInRange (_x (p_obj p)) (_y (p_obj p)) (f_of_Z 10) room in
  let tick := GetServerTick room in
  let '(slowed, moves, room) := foldl slow_step (_slowedMonsterIds p, [], room) inRange in
  let '(kept, moves, room) := foldl (unslow_step inRange) ([], moves, room) slowed in
  let p := set_slowed kept p in
  let room := match moves with [] => room | _ => BroadcastPacket (S_MoveObjectBatch tick moves) room end in
  if (LEVEL_UP_TIMEOUT_SEC + f_of_Z 2 <? GetTotalRunTime room - _levelUpStartedAt p)%F
  then ExitLevelUpState p (Some room) else (p, Some room).

Definition update_levelup (p : Player) (room : option R) : Player * option R :=
  match room with
  | Some r => if _isLevelingUp p then update_aura p r else (p, room)
  | None => (p, room)
  end.

Definition ApplySelection (optionIndex : Z) (p : Player) (room : option R) : Player * option R :=
  let options := _pendingLevelUpOptions p in
  if (optionIndex <? 0) || (Z.of_nat (length options) <=? optionIndex) then (p, room)
  else
    match options !! Z.to_nat optionIndex with
    | None => (p, room)
    | Some selected =>
        let '(success, inv) := apply_option D selected (_inventory p) in
        let p := set_inventory inv p in
        let '(p, room) :=
          if (success : bool) then
            let '(p, room) := RefreshInventoryEffects p room in (p, SyncInventory p <$> room)
          else (p, room) in
        (ClearPendingLevelUpOptions p, room)
    end.

(** The task a C_SELECT_LEVEL_UP packet posts to the room's strand. *)
Definition SelectLevelUp (optionIndex : Z) (p : Player) (room : option R) : Player * option R :=
  let '(p, room) := ApplySelection optionIndex p room in
  let '(p, room) := CheckWeaponEvolutions p room in
  ExitLevelUpState p room.

End Ops.

(** ** Experience *)

(** The experience [n] levels cost from a level on. *)
Fixpoint exp_between (level : Z) (n : nat) : Z :=
  match n with
  | O => 0
  | S n => EXP_BASE + (level - 1) * EXP_PER_LEVEL_INCREMENT + exp_between (level + 1) n
  end.

Lemma exp_needed_small level : 1 <= level <= 40000000 -> exp_needed level = EXP_BASE + (level - 1) * EXP_PER_LEVEL_INCREMENT.
Proof. unfold exp_needed, EXP_BASE, EXP_PER_LEVEL_INCREMENT. intros. rewrite (swrap_small 32 ((level - 1) * 50)), swrap_small; lia. Qed.

Lemma level_loop_spec fuel exp level b :
  0 <= exp < 2 ^ 31 -> 1 <= level -> level + exp / 100 <= 40000000 -> exp <= Z.of_nat fuel ->
  exists n exp', level_loop fuel exp (exp_needed level) level b =
                   Some (exp', exp_needed (level + Z.of_nat n), level + Z.of_nat n, b || (0 <? n)%nat) /\
                 0 <= exp' < exp_needed (level + Z.of_nat n) /\ exp = exp' + exp_between level n /\
                 level + Z.of_nat n <= 40000000.
Proof.
  revert exp level b; induction fuel as [|fuel IH]; intros exp level b He Hl Hb Hf.
  - exists O, exp. cbn [level_loop exp_between]. replace (level + Z.of_nat 0) with level by lia.
    assert (0 <= exp / 100) by (apply Z.div_pos; lia).
    rewrite exp_needed_small by lia. unfold EXP_BASE, EXP_PER_LEVEL_INCREMENT.
    destruct (_ <=? _) eqn:E; bool_to_prop; [lia|]. rewrite orb_false_r. split_and!; try done; lia.
  - cbn [level_loop]. assert (0 <= exp / 100) by (apply Z.div_pos; lia).
    destruct (_ <=? _) eqn:E; bool_to_prop.
    + rewrite exp_needed_small in E by lia. unfold EXP_BASE, EXP_PER_LEVEL_INCREMENT in E.
      assert ((exp - (100 + (level - 1) * 50)) / 100 + 1 <= exp / 100) as Hdiv.
      { rewrite <- (Z.div_add _ 1 100) by lia. apply Z.div_le_mono; lia. }
      destruct (IH (exp - exp_needed level) (level + 1) true) as (n & exp' & E1 & E2 & E3 & E4).
      1-4: rewrite ?exp_needed_small by lia; unfold EXP_BASE, EXP_PER_LEVEL_INCREMENT; lia.
      exists (S n), exp'. rewrite !swrap_small by (rewrite ?exp_needed_small by lia; unfold EXP_BASE, EXP_PER_LEVEL_INCREMENT; lia).
      rewrite E1. replace (level + Z.of_nat (S n)) with (level + 1 + Z.of_nat n) by lia.
      rewrite orb_true_r. split_and!; try done; try lia.
      rewrite exp_needed_small in E3 by lia. cbn [exp_between]. lia.
    + exists O, exp. cbn [exp_between]. replace (level + Z.of_nat 0) with level by lia.
      rewrite orb_false_r. split_and!; try done; lia.
Qed.

(** The counters between two gains. *)
Definition exp_ok (p : Player) : Prop := 1 <= _level p /\ _maxExp p = exp_needed (_level p) /\ 0 <= _exp p < _maxExp p.

Section OpsTheorems.
Context `{IterationOrder} {R : Type} `{RoomApi R} (D : DataManager) (dis : nat -> Z -> Z).

Lemma EnterLevelUpState_exp p (room : option R) :
  let p' := (EnterLevelUpState p room).1 in
  _exp p' = _exp p /\ _maxExp p' = _maxExp p /\ _level p' = _level p /\ _isLevelingUp p' = true.
Proof. done. Qed.

(** C37: gaining experience always ends, for any gain that fits an int: the level-up
    loop returns, every level gained is paid at exactly its price, what is left is
    below the price of the next level, and the player is left choosing an option
    only when at least one level was gained. *)
Theorem add_exp_terminates_exactly amount p (room : option R) :
  exp_ok p -> _level p <= 1000000 -> 0 <= amount -> _exp p + amount < 2 ^ 31 -> _isLevelingUp p = false ->
  exists p' room' n, AddExp D dis amount p room = Some (p', room') /\ exp_ok p' /\
    _level p' = _level p + Z.of_nat n /\ _exp p + amount = _exp p' + exp_between (_level p) n /\
    (_isLevelingUp p' = true -> (0 < n)%nat).
Proof.
  intros (Hl & Hm & He) Hlv Ha Hsum Hlu. unfold AddExp. rewrite Hlu, swrap_small, Hm by lia.
  destruct (level_loop_spec (Z.to_nat (_exp p + amount)) (_exp p + amount) (_level p) false) as (n & exp' & E1 & E2 & E3 & E4).
  1-4: try lia. { assert ((_exp p + amount) / 100 <= 2 ^ 31 / 100) by (apply Z.div_le_mono; lia).
    change (2 ^ 31 / 100) with 21474836 in *. lia. }
  rewrite E1. cbn [orb option_bind mbind].
  assert (exp_ok (set_exp exp' (exp_needed (_level p + Z.of_nat n)) (_level p + Z.of_nat n) p)) as Hok.
  { split; [cbn; lia|done]. }
  assert (forall b : bool, b = (0 <? n)%nat -> b = true -> (0 < n)%nat) as Hn by (intros b -> ?; by apply Nat.ltb_lt).
  destruct room as [r|]; [|eexists _, _, n; split_and!; try done; cbn; congruence].
  destruct (_ =? 0); [eexists _, _, n; split_and!; try done; cbn; congruence|].
  destruct (0 <? n)%nat eqn:En; [|eexists _, _, n; split_and!; try done; cbn; congruence].
  destruct (GenerateOptions _ _ _); [eexists _, _, n; split_and!; try done; cbn; congruence|].
  eexists _, _, n. split_and!; try done. intros _. by apply Nat.ltb_lt.
Qed.

(** ** Damage *)

(** A player hit while dead, choosing an option, invincible or in god mode is
    left alone; any other hit takes the damage off its hit points, down to 0, tells
    the room, starts the half second of invincibility, and kills exactly when the
    damage reaches the hit points. *)
Theorem player_takes_damage damage p (room : R) :
  0 <= _hp (p_obj p) < 2 ^ 31 -> 0 <= damage < 2 ^ 31 ->
  let '(p', room') := Player_TakeDamage damage p room in
  if IsDead (p_obj p) || _isLevelingUp p || IsInvincible (GetTotalRunTime room) p || _godMode p
  then p' = p /\ room' = room
  else
    let hp := _hp (p_obj p) - damage in
    _hp (p_obj p') = Z.max 0 hp /\ (_state (p_obj p') = DEAD <-> hp <= 0) /\
    _invincibleUntil p' = (GetTotalRunTime room + PLAYER_INVINCIBLE_DURATION)%F /\
    room' = (if hp <=? 0 then BroadcastPacket (S_PlayerDead (_id (p_obj p))) else id)
              (BroadcastPacket (S_HpChange (_id (p_obj p)) (f_of_Z hp) (f_of_Z (_maxHp (p_obj p)))) room).
Proof.
  intros Hhp Hd. unfold Player_TakeDamage. destruct (IsDead (p_obj p)) eqn:Edead; [done|].
  destruct (_isLevelingUp p); [done|]. cbn [orb].
  destruct (IsInvincible (GetTotalRunTime room) p), (_godMode p); cbn [orb]; try done.
  unfold HpChange. cbn [p_obj set_obj SetInvincible set_levelup SetHp _hp _id _maxHp].
  rewrite swrap_small by lia. unfold IsDead in Edead. apply bool_decide_eq_false in Edead.
  destruct (_ <=? 0) eqn:E; bool_to_prop; cbn; split_and!; try done; try lia; split; intros; (done || lia).
Qed.

End OpsTheorems.

(** ** Emitters follow the inventory *)

Lemma set_emitter_level_Some w level l l' :
  set_emitter_level w level l = Some l' ->
  exists l1 e l2, l = l1 ++ e :: l2 /\ e_weaponId e = w /\ Forall (fun x => e_weaponId x <> w) l1 /\
                  l' = l1 ++ SetLevel level e :: l2.
Proof.
  revert l'; induction l as [|e l IH]; intros l' E; cbn in E; [done|].
  destruct (_ =? _) eqn:Ew; bool_to_prop.
  - simplify_eq. by exists [], e, l.
  - destruct (set_emitter_level w level l) as [k|]; [|done]. simplify_eq/=.
    destruct (IH _ eq_refl) as (l1 & e' & l2 & -> & He & Hf & ->).
    exists (e :: l1), e', l2. split_and!; try done. by constructor.
Qed.

Lemma set_emitter_level_None w level l : set_emitter_level w level l = None -> Forall (fun x => e_weaponId x <> w) l.
Proof.
  induction l as [|e l IH]; cbn; [done|]. destruct (_ =? _) eqn:Ew; [done|]. bool_to_prop.
  destruct (set_emitter_level w level l); [done|]. intros _. constructor; auto.
Qed.

Lemma DamageEmitter_new_fields D s o w l :
  e_weaponId (DamageEmitter_new D s o w l) = w /\ e_level (DamageEmitter_new D s o w l) = l.
Proof. unfold DamageEmitter_new. by destruct (GetSkillInfo D s). Qed.

(** The level of a weapon has data, so that it can have an emitter. *)
Definition has_level_data (D : DataManager) (inv : PlayerInventory) (w : Z) : Prop :=
  exists t, GetWeaponInfo D w = Some t /\ 0 < GetWeaponLevel inv w <= Z.of_nat (length (wp_levels t)).

Definition weapon_emitters (l : list DamageEmitter) : list Z := filter (fun w => w <> 0) (e_weaponId <$> l).

Record emitters_ok (D : DataManager) (inv : PlayerInventory) (ids done_ : list Z) (l : list DamageEmitter) : Prop := mk_emitters_ok {
  eo_unique : NoDup (weapon_emitters l);
  eo_owned : Forall (fun e => e_weaponId e = 0 \/ e_weaponId e ∈ ids) l;
  eo_level : forall e, e ∈ l -> e_weaponId e ∈ done_ -> e_level e = GetWeaponLevel inv (e_weaponId e);
  eo_present : forall w, w ∈ done_ -> has_level_data D inv w -> Exists (fun e => e_weaponId e = w) l
}.

Lemma weapon_emitters_absent w l : Forall (fun x => e_weaponId x <> w) l -> w ∉ weapon_emitters l.
Proof.
  intros Hf Hw. unfold weapon_emitters in Hw. apply list_elem_of_filter in Hw as [_ (e & -> & He)%list_elem_of_fmap].
  rewrite Forall_forall in Hf. by apply (Hf e).
Qed.

(** One weapon: its first emitter is set, or one is added. *)
Lemma refresh_weapon_cases D inv owner l w :
  let l' := refresh_weapon D inv owner l w in
  (exists l1 e l2, l = l1 ++ e :: l2 /\ e_weaponId e = w /\ Forall (fun x => e_weaponId x <> w) l1 /\
                   l' = l1 ++ SetLevel (GetWeaponLevel inv w) e :: l2) \/
  (Forall (fun x => e_weaponId x <> w) l /\
   ((exists e, l' = l ++ [e] /\ e_weaponId e = w /\ e_level e = GetWeaponLevel inv w) \/
    l' = l /\ ~ has_level_data D inv w)).
Proof.
  cbv zeta. unfold refresh_weapon. destruct (set_emitter_level _ _ l) as [l'|] eqn:E.
  - left. by apply set_emitter_level_Some.
  - right. split; [by eapply set_emitter_level_None|]. destruct (GetWeaponInfo D w) as [t|] eqn:Et.
    + destruct (_ && _) eqn:Eb.
      * bool_to_prop. destruct (lookup_lt_is_Some_2 (wp_levels t) (Z.to_nat (GetWeaponLevel inv w - 1))) as [lvl El]; [lia|].
        rewrite El. left. eexists. split; [done|]. apply DamageEmitter_new_fields.
      * right. split; [done|]. intros (t' & Et' & Hl). simplify_eq. apply andb_false_iff in Eb as [Eb|Eb]; bool_to_prop; lia.
    + right. split; [done|]. intros (t' & Et' & _). congruence.
Qed.

Lemma fmap_weapon_SetLevel l1 lev e l2 :
  e_weaponId <$> (l1 ++ SetLevel lev e :: l2) = e_weaponId <$> (l1 ++ e :: l2).
Proof. by rewrite !fmap_app. Qed.

Lemma refresh_weapon_ok D inv owner ids done_ l w :
  w <> 0 -> w ∈ ids -> emitters_ok D inv ids done_ l ->
  emitters_ok D inv ids (w :: done_) (refresh_weapon D inv owner l w).
Proof.
  intros Hw0 Hw [Hu Ho Hl Hp].
  destruct (refresh_weapon_cases D inv owner l w) as [(l1 & e & l2 & -> & He & Hf & ->)|[Hf [(e & -> & He & Hel)|[-> Hno]]]].
  - assert (forall y, y ∈ l2 -> e_weaponId y <> w) as H2.
    { intros y Hy E. unfold weapon_emitters in Hu. rewrite fmap_app, filter_app, fmap_cons, He, filter_cons_True in Hu by done.
      apply NoDup_app in Hu as (_ & _ & Hu). apply NoDup_cons in Hu as [Hu _]. apply Hu.
      apply list_elem_of_filter. split; [done|]. rewrite <- E. by apply list_elem_of_fmap_2. }
    constructor.
    + unfold weapon_emitters in *. by rewrite fmap_weapon_SetLevel.
    + rewrite Forall_app, Forall_cons in *. done.
    + intros y Hy Hd. apply elem_of_app in Hy as [Hy|Hy%elem_of_cons].
      * rewrite Forall_forall in Hf. apply Hl; [apply elem_of_app; by left|].
        apply elem_of_cons in Hd as [Hd|Hd]; [by destruct (Hf y Hy)|done].
      * destruct Hy as [->|Hy]; [cbn; by rewrite He|]. apply Hl; [apply elem_of_app; right; by right|].
        apply elem_of_cons in Hd as [Hd|Hd]; [by destruct (H2 y Hy)|done].
    + intros v Hv Hd. assert (Exists (fun e => e_weaponId e = v) (l1 ++ e :: l2)) as HE.
      { apply elem_of_cons in Hv as [->|Hv]; [apply Exists_app; right; by left|by apply Hp]. }
      rewrite Exists_app, Exists_cons in *. done.
  - constructor.
    + unfold weapon_emitters. rewrite fmap_app, filter_app, list_fmap_singleton, He, filter_cons_True, filter_nil by done.
      apply NoDup_app. split_and!; [done| |apply NoDup_singleton].
      intros x Hx ->%list_elem_of_singleton. by apply (weapon_emitters_absent _ _ Hf).
    + apply Forall_app. split; [done|]. apply Forall_singleton. right. by rewrite He.
    + intros y [Hy| ->%list_elem_of_singleton]%elem_of_app Hd; [|by rewrite He].
      rewrite Forall_forall in Hf. apply Hl; [done|]. apply elem_of_cons in Hd as [Hd|Hd]; [by destruct (Hf y Hy)|done].
    + intros v [->|Hv]%elem_of_cons Hd; apply Exists_app; [right; by left|left; by apply Hp].
  - constructor; [done..| |].
    + intros y Hy Hd. rewrite Forall_forall in Hf. apply Hl; [done|].
      apply elem_of_cons in Hd as [Hd|Hd]; [by destruct (Hf y Hy)|done].
    + intros v [->|Hv]%elem_of_cons Hd; [done|by apply Hp].
Qed.

Lemma refresh_weapon_builtin D inv owner l w :
  w <> 0 -> filter (fun e => e_weaponId e = 0) (refresh_weapon D inv owner l w) = filter (fun e => e_weaponId e = 0) l.
Proof.
  intros Hw. destruct (refresh_weapon_cases D inv owner l w) as [(l1 & e & l2 & -> & He & _ & ->)|[_ [(e & -> & He & _)|[-> _]]]].
  - rewrite !filter_app. f_equal. rewrite !filter_cons_False by (cbn; congruence). done.
  - rewrite filter_app, filter_cons_False by congruence. apply app_nil_r.
  - done.
Qed.

Lemma refresh_fold_ok D inv owner ids todo done_ l :
  0 ∉ todo -> (forall w, w ∈ todo -> w ∈ ids) -> emitters_ok D inv ids done_ l ->
  let l' := foldl (refresh_weapon D inv owner) l todo in
  emitters_ok D inv ids (rev todo ++ done_) l' /\ filter (fun e => e_weaponId e = 0) l' = filter (fun e => e_weaponId e = 0) l.
Proof.
  revert done_ l; induction todo as [|w todo IH]; intros done_ l H0 Hsub Hok; [done|]. cbn [foldl rev].
  apply not_elem_of_cons in H0 as [Hw0 H0].
  destruct (IH (w :: done_) (refresh_weapon D inv owner l w)) as [IH1 IH2]; [done|intros v Hv; apply Hsub; by right| |].
  - apply refresh_weapon_ok; [congruence|apply Hsub; left|done].
  - rewrite <- app_assoc. split; [done|]. rewrite IH2. apply refresh_weapon_builtin. congruence.
Qed.

Section EmitterTheorem.
Context `{IterationOrder} {R : Type} `{RoomApi R} (D : DataManager).

Lemma GetOwnedWeaponIds_elem inv w : w ∈ GetOwnedWeaponIds inv <-> is_Some (_weapons inv !! w).
Proof.
  unfold GetOwnedWeaponIds. rewrite list_elem_of_fmap. split.
  - intros ([k v] & -> & Hk%elem_of_iter_order). eauto.
  - intros [v Hv]. exists (w, v). split; [done|]. by apply elem_of_iter_order.
Qed.

Lemma keep_emitters_ok inv l :
  NoDup (weapon_emitters l) ->
  emitters_ok D inv (GetOwnedWeaponIds inv) [] (filter (fun e => keep_emitter (GetOwnedWeaponIds inv) e) l).
Proof.
  intros Hu. constructor.
  - unfold weapon_emitters in *. revert Hu. induction l as [|e l IH]; [done|]. rewrite !filter_cons, !fmap_cons.
    destruct (decide (e_weaponId e = 0)) as [E|E].
    + rewrite filter_cons_False by (by intros ?). intros Hu%IH. case_decide; [|done].
      rewrite fmap_cons, filter_cons_False by (by intros ?). done.
    + rewrite filter_cons_True by done. intros [Hn Hu]%NoDup_cons. specialize (IH Hu). case_decide; [|done].
      rewrite fmap_cons, filter_cons_True by done. apply NoDup_cons. split; [|done].
      intros Hin. apply Hn. apply list_elem_of_filter in Hin as [Hne (e' & Ee & He')%list_elem_of_fmap].
      apply list_elem_of_filter. split; [done|]. rewrite Ee. apply list_elem_of_fmap_2.
      by apply list_elem_of_filter in He' as [_ He'].
  - apply Forall_forall. intros e [Hk _]%list_elem_of_filter. unfold keep_emitter in Hk.
    apply Is_true_true, orb_true_iff in Hk as [Hk|Hk]; [left; by apply Z.eqb_eq|right; by apply bool_decide_eq_true in Hk].
  - intros e _ Hd. by apply not_elem_of_nil in Hd.
  - intros w Hd. by apply not_elem_of_nil in Hd.
Qed.

Lemma keep_builtin ids (l : list DamageEmitter) :
  filter (fun e => e_weaponId e = 0) (filter (fun e => keep_emitter ids e) l) = filter (fun e => e_weaponId e = 0) l.
Proof.
  rewrite list_filter_filter. apply list_filter_iff. intros e. split; [by intros [? _]|]. intros E. split; [done|].
  unfold keep_emitter. by rewrite E.
Qed.

(** After every refresh of a player's inventory effects the weapon emitters are
    those of the inventory: no weapon has two, every one belongs to an owned weapon
    and fires at that weapon's level, every owned weapon whose level has data has one,
    and emitters that belong to no weapon are kept as they were. *)
Theorem emitters_follow_inventory p (room : option R) :
  NoDup (weapon_emitters (_emitters p)) -> _weapons (_inventory p) !! 0 = None ->
  let inv := _inventory p in
  let l := _emitters (RefreshInventoryEffects D p room).1 in
  NoDup (weapon_emitters l) /\
  (forall e, e ∈ l -> e_weaponId e <> 0 ->
     is_Some (_weapons inv !! e_weaponId e) /\ e_level e = GetWeaponLevel inv (e_weaponId e)) /\
  (forall w, is_Some (_weapons inv !! w) -> has_level_data D inv w -> Exists (fun e => e_weaponId e = w) l) /\
  filter (fun e => e_weaponId e = 0) l = filter (fun e => e_weaponId e = 0) (_emitters p).
Proof.
  intros Hu Hz. cbn. unfold refresh_emitters.
  destruct (refresh_fold_ok D (_inventory p) (_id (p_obj p)) (GetOwnedWeaponIds (_inventory p)) (GetOwnedWeaponIds (_inventory p)) []
              _ ltac:(rewrite GetOwnedWeaponIds_elem, Hz; by intros [? ?]) ltac:(done) (keep_emitters_ok (_inventory p) _ Hu)) as [Hok Hb].
  rewrite app_nil_r in Hok. destruct Hok as [Hun Hown Hlev Hpre]. split_and!.
  - exact Hun.
  - intros e He Hne. rewrite Forall_forall in Hown. destruct (Hown e He) as [E|E]; [done|].
    split; [by apply GetOwnedWeaponIds_elem|]. apply Hlev; [done|]. by apply list_elem_of_In, in_rev, list_elem_of_In in E.
  - intros w Hw Hd. apply Hpre; [|done]. apply GetOwnedWeaponIds_elem in Hw. by apply list_elem_of_In, in_rev, list_elem_of_In in Hw.
  - rewrite Hb. apply keep_builtin.
Qed.

End EmitterTheorem.

(** ** The slow aura *)

Section Aura.
Context `{IterationOrder} {R : Type} `{RoomLaws R} (D : DataManager) (dis : nat -> Z -> Z).

(** The monsters of a room that are slow are all in a list. *)
Definition slow_within (l : list Z) (room : R) : Prop := forall id m, GetMonster id room = Some m -> is_slow m -> id ∈ l.

Definition aura_inv (s : Player * R) : Prop :=
  slow_within (_slowedMonsterIds s.1) s.2 /\ (_isLevelingUp s.1 = false -> _slowedMonsterIds s.1 = []).

Lemma slow_within_broadcast l pkt room : slow_within l room -> slow_within l (BroadcastPacket pkt room).
Proof. intros Hs id m. rewrite get_broadcast. apply Hs. Qed.

Lemma slow_within_send l s pkt room : slow_within l room -> slow_within l (SendToPlayer s pkt room).
Proof. intros Hs id m. rewrite get_send. apply Hs. Qed.

Lemma slow_within_update l id f room :
  (forall m, is_slow (f m) -> is_slow m) -> slow_within l room -> slow_within l (update_monster id f room).
Proof.
  intros Hf Hs id' m. rewrite get_update. case_bool_decide; [subst|by apply Hs].
  intros (m' & E & ->)%fmap_Some Hm. eapply Hs; eauto.
Qed.

Local Hint Resolve slow_within_broadcast slow_within_send : core.

Lemma slow_within_mono l l' room : (forall x, x ∈ l -> x ∈ l') -> slow_within l room -> slow_within l' room.
Proof. intros Hl Hs id m E Hm. eauto. Qed.

Lemma RefreshInventoryEffects_aura p room l :
  slow_within l room ->
  exists room', (RefreshInventoryEffects D p (Some room)).2 = Some room' /\ slow_within l room' /\
    _slowedMonsterIds (RefreshInventoryEffects D p (Some room)).1 = _slowedMonsterIds p /\
    _isLevelingUp (RefreshInventoryEffects D p (Some room)).1 = _isLevelingUp p.
Proof.
  intros Hs. unfold RefreshInventoryEffects, SyncInventory. cbn. destruct (_ =? _); eexists; split_and!; eauto.
Qed.

Lemma unslow_within l room id : slow_within (id :: l) room -> slow_within l (unslow room id).
Proof.
  intros Hs. unfold unslow. destruct (GetMonster id room) as [m|] eqn:E.
  - intros id' m'. rewrite get_update. case_bool_decide as Eid; [subst id'|].
    + rewrite E. intros [= <-] Hm. by apply RemoveLevelUpSlow_not_slow in Hm.
    + intros Em Hm. pose proof (Hs _ _ Em Hm) as [->|?]%elem_of_cons; [congruence|done].
  - intros id' m' E' Hm. pose proof (Hs _ _ E' Hm) as [->|?]%elem_of_cons; [congruence|done].
Qed.

Lemma unslow_all l l' room : slow_within (l ++ l') room -> slow_within l' (foldl unslow room l).
Proof. revert room; induction l as [|id l IH]; intros room Hs; [done|]. by apply IH, unslow_within. Qed.

Lemma ExitLevelUpState_aura p room :
  slow_within (_slowedMonsterIds p) room ->
  exists p' room', ExitLevelUpState D p (Some room) = (p', Some room') /\ aura_inv (p', room').
Proof.
  intros Hs. unfold ExitLevelUpState. cbn -[RefreshInventoryEffects].
  destruct (RefreshInventoryEffects_aura (SetInvincible f0 (set_slowed [] (set_levelup (_invincibleUntil p) false (_levelUpStartedAt p) p)))
              (foldl unslow room (_slowedMonsterIds p)) []) as (room' & E & Hs' & Es & El).
  { apply unslow_all. by rewrite app_nil_r. }
  destruct (RefreshInventoryEffects _ _ _) as [p' r'] eqn:ER. cbn in *. subst r'. exists p', room'.
  split; [done|]. split; cbn; [by rewrite Es|by rewrite Es].
Qed.

Lemma set_insert_elem x y l : y ∈ set_insert x l <-> y = x \/ y ∈ l.
Proof.
  induction l as [|z l IH]; cbn; [rewrite list_elem_of_singleton, elem_of_nil; tauto|].
  destruct (_ <? _); [by rewrite elem_of_cons|]. destruct (_ =? _) eqn:E; bool_to_prop.
  - subst. rewrite elem_of_cons. tauto.
  - rewrite !elem_of_cons, IH. tauto.
Qed.

Lemma slow_step_within slowed moves room id :
  slow_within slowed room ->
  let '(slowed', _, room') := slow_step (slowed, moves, room) id in slow_within slowed' room'.
Proof.
  intros Hs. cbn. destruct (GetMonster id room) as [m|] eqn:E; [|done]. case_bool_decide as Ein; [done|].
  intros id' m'. rewrite get_update, set_insert_elem. case_bool_decide; [subst; auto|]. eauto.
Qed.

Lemma slow_fold_within ids slowed moves room :
  slow_within slowed room ->
  let '(slowed', _, room') := foldl slow_step (slowed, moves, room) ids in slow_within slowed' room'.
Proof.
  revert slowed moves room; induction ids as [|id ids IH]; intros slowed moves room Hs; [done|]. cbn [foldl].
  pose proof (slow_step_within slowed moves room id Hs) as Hst.
  destruct (slow_step _ id) as [[slowed' moves'] room']. by apply IH.
Qed.

Lemma unslow_fold_within inRange todo kept moves room :
  slow_within (kept ++ todo) room ->
  let '(kept', _, room') := foldl (unslow_step inRange) (kept, moves, room) todo in slow_within kept' room'.
Proof.
  revert kept moves room; induction todo as [|id todo IH]; intros kept moves room Hs.
  { by rewrite app_nil_r in Hs. }
  cbn [foldl unslow_step]. case_bool_decide as Ein; [apply IH; by rewrite <- app_assoc|].
  assert (slow_within (id :: kept ++ todo) room) as Hs'.
  { eapply slow_within_mono; [|exact Hs]. intros x. rewrite elem_of_cons, !elem_of_app, elem_of_cons. tauto. }
  pose proof (unslow_within _ _ _ Hs') as Hu. destruct (GetMonster id room) as [m|] eqn:E; apply IH; [done|].
  unfold unslow in Hu. by rewrite E in Hu.
Qed.

Lemma update_aura_inv p room :
  _isLevelingUp p = true -> aura_inv (p, room) ->
  exists p' room', update_aura D p room = (p', Some room') /\ aura_inv (p', room').
Proof.
  intros Hl [Hs _]. cbn in Hs. unfold update_aura.
  pose proof (slow_fold_within (GetMonstersInRange (_x (p_obj p)) (_y (p_obj p)) (f_of_Z 10) room) _ [] _ Hs) as Ha1.
  destruct (foldl slow_step _ _) as [[slowed moves] room1].
  pose proof (unslow_fold_within (GetMonstersInRange (_x (p_obj p)) (_y (p_obj p)) (f_of_Z 10) room) slowed [] moves room1 Ha1) as Ha2.
  destruct (foldl (unslow_step _) _ _) as [[kept moves'] room2].
  assert (forall tick, slow_within kept (match moves' with [] => room2 | _ => BroadcastPacket (S_MoveObjectBatch tick moves') room2 end)) as Ha3.
  { intros tick. destruct moves'; auto. }
  cbv zeta. destruct (_ <? _)%F; [by apply ExitLevelUpState_aura, Ha3|].
  eexists _, _. split; [done|]. split; [apply Ha3|]. cbn. congruence.
Qed.

Lemma knockback_within l p room id : slow_within l room -> slow_within l (knockback p room id).
Proof.
  intros Hs. unfold knockback. destruct (GetMonster id room); [|done].
  apply slow_within_broadcast, slow_within_update; done.
Qed.

Lemma EnterLevelUpState_aura p room :
  slow_within (_slowedMonsterIds p) room ->
  exists p' room', EnterLevelUpState p (Some room) = (p', Some room') /\ slow_within (_slowedMonsterIds p') room' /\
    _isLevelingUp p' = true.
Proof.
  intros Hs. eexists _, _. split; [done|]. split; [|done]. cbn.
  match goal with |- context [GetMonstersInRange ?x ?y ?z room] => generalize (GetMonstersInRange x y z room) end.
  intros ids. revert Hs. match goal with |- context [knockback ?q] => generalize q end. intros q Hs. revert room Hs. induction ids as [|id ids IH]; intros room Hs; [done|]. cbn [foldl]. by apply IH, knockback_within.
Qed.

Lemma AddExp_aura amount p room res :
  aura_inv (p, room) -> AddExp D dis amount p (Some room) = Some res ->
  exists room', res.2 = Some room' /\ aura_inv (res.1, room').
Proof.
  intros HI. unfold AddExp. destruct (_isLevelingUp p) eqn:Hl; [intros [= <-]; eauto|].
  destruct (level_loop _ _ _ _ _) as [[[[exp maxExp] level] up]|]; [|done]. cbn -[EnterLevelUpState GenerateOptions].
  destruct HI as [Hs Hi]. cbn in Hs, Hi.
  destruct (_ =? 0); [intros [= <-]; eexists; split; [done|]; by split|].
  destruct up; [|intros [= <-]; eexists; split; [done|]; split; [by apply slow_within_send|done]].
  destruct (GenerateOptions _ _ _) as [|o options]; [intros [= <-]; eexists; split; [done|]; split; [by apply slow_within_send|done]|].
  destruct (EnterLevelUpState_aura (set_exp exp maxExp level p) (SendToPlayer (_sessionId p) (S_ExpChange exp maxExp level) room))
    as (p' & room' & -> & Hs' & Hl'); [by apply slow_within_send|].
  intros [= <-]. eexists. split; [done|]. split; cbn; [by apply slow_within_send|congruence].
Qed.

Lemma Refresh_pair_aura p room l p' room' :
  slow_within l room -> RefreshInventoryEffects D p (Some room) = (p', room') ->
  exists r, room' = Some r /\ slow_within l r /\ _slowedMonsterIds p' = _slowedMonsterIds p.
Proof.
  intros Hs E. destruct (RefreshInventoryEffects_aura p room l Hs) as (r & E1 & E2 & E3 & _). rewrite E in *.
  exists r. done.
Qed.

Lemma ApplySelection_aura i p room :
  slow_within (_slowedMonsterIds p) room ->
  exists p' room', ApplySelection D i p (Some room) = (p', Some room') /\ slow_within (_slowedMonsterIds p') room'.
Proof.
  intros Hs. unfold ApplySelection. destruct (_ || _); [eauto|]. destruct (_ !! _) as [o|]; [|eauto].
  destruct (apply_option D o (_inventory p)) as [[|] inv]; [|eexists _, _; split; done].
  destruct (RefreshInventoryEffects D (set_inventory inv p) (Some room)) as [p1 r1] eqn:E.
  destruct (Refresh_pair_aura _ _ _ _ _ Hs E) as (r & -> & Hr & Es). eexists _, _. split; [done|].
  cbn. rewrite Es. by apply slow_within_send.
Qed.

Lemma CheckWeaponEvolutions_aura p room :
  slow_within (_slowedMonsterIds p) room ->
  exists p' room', CheckWeaponEvolutions D p (Some room) = (p', Some room') /\ slow_within (_slowedMonsterIds p') room'.
Proof.
  intros Hs. unfold CheckWeaponEvolutions. generalize (GetOwnedWeaponIds (_inventory p)). intros ids.
  induction ids as [|w ids IH]; cbn [evolve_first]; [eauto|]. destruct (evolution_of D (_inventory p) w) as [evo|]; [|done].
  destruct (RefreshInventoryEffects D _ _) as [p1 r1] eqn:E.
  destruct (Refresh_pair_aura _ _ _ _ _ Hs E) as (r & -> & Hr & Es). eexists _, _. split; [done|]. by rewrite Es.
Qed.

Lemma SelectLevelUp_aura i p room :
  slow_within (_slowedMonsterIds p) room ->
  exists p' room', SelectLevelUp D i p (Some room) = (p', Some room') /\ aura_inv (p', room').
Proof.
  intros Hs. unfold SelectLevelUp. destruct (ApplySelection_aura i p room Hs) as (p1 & r1 & -> & Ha1).
  destruct (CheckWeaponEvolutions_aura p1 r1 Ha1) as (p2 & r2 & -> & Ha2). by apply ExitLevelUpState_aura.
Qed.

(** ** A game with one player

    The player's own operations, and anything else that happens to the room as long
    as it slows no further monster. *)
Inductive play : Player * R -> Player * R -> Prop :=
| play_exp amount p room p' room' :
    AddExp D dis amount p (Some room) = Some (p', Some room') -> play (p, room) (p', room')
| play_update p room p' room' :
    update_levelup D p (Some room) = (p', Some room') -> play (p, room) (p', room')
| play_select i p room p' room' :
    SelectLevelUp D i p (Some room) = (p', Some room') -> play (p, room) (p', room')
| play_damage damage p room p' room' :
    Player_TakeDamage damage p room = (p', room') -> play (p, room) (p', room')
| play_input tick dx dy p room : play (p, room) (ApplyInput D tick dx dy p, room)
| play_room p room room' :
    (forall id m', GetMonster id room' = Some m' -> is_slow m' -> exists m, GetMonster id room = Some m /\ is_slow m) ->
    play (p, room) (p, room').

Lemma ApplyInput_aura tick dx dy p :
  _slowedMonsterIds (ApplyInput D tick dx dy p) = _slowedMonsterIds p /\ _isLevelingUp (ApplyInput D tick dx dy p) = _isLevelingUp p.
Proof. unfold ApplyInput. by destruct (_ || _); [|destruct (IsZero _)]. Qed.

Lemma TakeDamage_aura damage p room :
  aura_inv (p, room) -> aura_inv (Player_TakeDamage damage p room).
Proof.
  intros [Hs Hi]. unfold Player_TakeDamage.
  destruct (IsDead _); [done|]. destruct (_isLevelingUp p); [done|]. destruct (_ || _); [done|].
  destruct (_ <=? 0); split; cbn; auto.
Qed.

Lemma play_inv s s' : play s s' -> aura_inv s -> aura_inv s'.
Proof.
  intros Hp HI. destruct Hp as [amount p room p' room' E|p room p' room' E|i p room p' room' E|damage p room p' room' E|tick dx dy p room|p room room' Hr].
  - destruct (AddExp_aura _ _ _ _ HI E) as (r & Er & HI'). cbn in *. by simplify_eq.
  - unfold update_levelup in E. destruct (_isLevelingUp p) eqn:El; [|by simplify_eq].
    destruct (update_aura_inv _ _ El HI) as (p1 & r1 & E1 & HI1). rewrite E1 in E. by simplify_eq.
  - destruct HI as [Hs _]. destruct (SelectLevelUp_aura i _ _ Hs) as (p1 & r1 & E1 & HI1).
    cbn [fst snd] in E1. rewrite E1 in E. by simplify_eq.
  - pose proof (TakeDamage_aura damage p room HI) as HI'. by rewrite E in HI'.
  - destruct (ApplyInput_aura tick dx dy p) as [E1 E2]. destruct HI as [Hs Hi]. split; cbn in *; rewrite ?E1, ?E2; auto.
  - destruct HI as [Hs Hi]. split; [|done]. cbn in *. intros id m' E Hm. destruct (Hr _ _ E Hm) as (m & Em & Hm'). eauto.
Qed.

(** The slow aura of a level-up never outlives it: in a game with one player that
    begins with no monster slowed, however experience, updates, choices, hits and the
    life of the room interleave, whenever the player is not choosing an option no
    monster of the room carries a level-up slow. *)
Theorem level_up_slow_never_leaks p0 room0 p room :
  slow_within [] room0 -> _slowedMonsterIds p0 = [] -> rtc play (p0, room0) (p, room) ->
  _isLevelingUp p = false -> forall id m, GetMonster id room = Some m -> ~ is_slow m.
Proof.
  intros Hs Hn Hrun Hl id m E Hm.
  assert (aura_inv (p, room)) as [HI1 HI2].
  { refine (rtc_ind_r (fun s => aura_inv s) (p0, room0) _ _ _ Hrun); [split; [cbn; rewrite Hn; exact Hs|intros _; exact Hn]|].
    intros y z _ Hyz HI. by eapply play_inv. }
  cbn in *. specialize (HI1 id m E Hm). rewrite (HI2 Hl) in HI1. by apply not_elem_of_nil in HI1.
Qed.

End Aura.

(** ** A room without a grid, to run the player *)

Record PlainRoom := mkPlainRoom {
  pr_time : float;
  pr_tick : Z;
  pr_monsters : gmap Z Monster;
  pr_sent : list (option Z * Packet)
}.

Definition plain_near (x y rad : float) (m : Monster) : bool :=
  negb (IsDead (m_obj m)) && (MagnitudeSq (mkVec (_x (m_obj m) - x) (_y (m_obj m) - y)) <=? rad * rad)%F.

#[global] Instance PlainRoom_api : RoomApi PlainRoom := {|
  GetTotalRunTime := pr_time;
  GetServerTick := pr_tick;
  GetMonstersInRange := fun x y rad r => (filter (fun km => plain_near x y rad km.2) (map_to_list (pr_monsters r))).*1;
  GetMonster := fun id r => pr_monsters r !! id;
  update_monster := fun id f r => mkPlainRoom (pr_time r) (pr_tick r) (alter f id (pr_monsters r)) (pr_sent r);
  BroadcastPacket := fun p r => mkPlainRoom (pr_time r) (pr_tick r) (pr_monsters r) (pr_sent r ++ [(None, p)]);
  SendToPlayer := fun s p r => mkPlainRoom (pr_time r) (pr_tick r) (pr_monsters r) (pr_sent r ++ [(Some s, p)])
|}.

#[global] Instance PlainRoom_laws : RoomLaws PlainRoom.
Proof.
  constructor; try done.
  - intros x y rad r id ((id' & m) & -> & [_ Hm]%list_elem_of_filter)%list_elem_of_fmap.
    apply elem_of_map_to_list in Hm. eauto.
  - intros id f r id'. cbn. case_bool_decide; [subst; by rewrite lookup_alter_eq|by rewrite lookup_alter_ne].
Qed.

Definition demo_monster : Monster :=
  with_obj (SetPos (f_of_Z 3) f0) (Monster_Initialize 1001 1 50 (flit 1 2) 10 f1 (f_of_Z 4) Monster_new).
Definition demo_room : PlainRoom := mkPlainRoom (f_of_Z 7) 5 {[1001 := demo_monster]} [].
Definition demo_player : Player := Player_new 1 1.
Definition demo_dis (_ : nat) (_ : Z) : Z := 0.

Lemma add_exp_terminates_exactly_witness :
  exp_ok demo_player /\
  exists p' room' n, AddExp (H := any_order) whip_data demo_dis 260 demo_player (Some demo_room) = Some (p', room') /\ exp_ok p' /\
    _level p' = 1 + Z.of_nat n /\ 260 = _exp p' + exp_between 1 n /\ (_isLevelingUp p' = true -> (0 < n)%nat).
Proof.
  assert (exp_ok demo_player) as Hok by (split_and!; vm_compute; (reflexivity || discriminate)).
  split; [done|].
  exact (add_exp_terminates_exactly (H := any_order) whip_data demo_dis 260 demo_player (Some demo_room) Hok
           ltac:(cbn; lia) ltac:(lia) ltac:(cbn; lia) eq_refl).
Defined.

Lemma player_takes_damage_witness :
  (let '(p', _) := Player_TakeDamage 130 demo_player demo_room in _hp (p_obj p') = 0 /\ _state (p_obj p') = DEAD) /\
  _invincibleUntil (Player_TakeDamage 5 demo_player demo_room).1 = flit 15 2.
Proof.
  split; [|vm_compute; reflexivity].
  pose proof (player_takes_damage 130 demo_player demo_room ltac:(cbn; lia) ltac:(lia)) as E.
  destruct (Player_TakeDamage 130 demo_player demo_room) as [p' room'].
  change (IsDead (p_obj demo_player) || _isLevelingUp demo_player || IsInvincible (GetTotalRunTime demo_room) demo_player ||
          _godMode demo_player) with false in E.
  cbv iota zeta in E. destruct E as (E1 & E2 & _). split; [exact E1|]. apply E2. cbn. lia.
Defined.

Definition whip_level : WeaponLevelInfo :=
  mkWeaponLevelInfo 1 3 f1 f1 f1 f1 f1 EmptyString 0 0 0 f0 f1 EmptyString f0 f0 [] ∅.
Definition armed_data : DataManager :=
  mkDataManager ∅ ∅ ∅ [] {[7 := mkWeaponInfo 7 "Whip" EmptyString EmptyString 8 100 0 10 2 [whip_level]]} ∅.
Definition armed_player : Player := set_inventory (mkInv {[7 := 1]} ∅) demo_player.

Lemma emitters_follow_inventory_witness :
  Exists (fun e => e_weaponId e = 7) (_emitters (RefreshInventoryEffects (H := any_order) armed_data armed_player (Some demo_room)).1).
Proof.
  destruct (emitters_follow_inventory (H := any_order) armed_data armed_player (Some demo_room) ltac:(constructor) eq_refl) as (_ & _ & E & _).
  apply E; [by exists 1|]. exists (mkWeaponInfo 7 "Whip" EmptyString EmptyString 8 100 0 10 2 [whip_level]). by split.
Defined.

(** One level-up, from the experience to the choice. *)
Definition or_demo (r : Player * option PlainRoom) : Player * PlainRoom := (r.1, default demo_room r.2).
Definition level_1 : Player * PlainRoom :=
  or_demo (default (demo_player, None) (AddExp (H := any_order) whip_data demo_dis 100 demo_player (Some demo_room))).
Definition level_2 : Player * PlainRoom := or_demo (update_levelup (H := any_order) whip_data level_1.1 (Some level_1.2)).
Definition level_3 : Player * PlainRoom := or_demo (SelectLevelUp (H := any_order) whip_data 0 level_2.1 (Some level_2.2)).

Lemma level_up_slow_never_leaks_witness :
  _isLevelingUp level_1.1 = true /\ _slowedMonsterIds level_2.1 = [1001] /\
  forall id m, GetMonster id level_3.2 = Some m -> ~ is_slow m.
Proof.
  split; [vm_compute; reflexivity|]. split; [vm_compute; reflexivity|].
  apply (level_up_slow_never_leaks (H := any_order) whip_data demo_dis demo_player demo_room level_3.1 level_3.2).
  - intros id m E Hm. cbn in E. apply lookup_singleton_Some in E as [<- <-]. exfalso. revert Hm. vm_compute. intros E. inversion E.
  - reflexivity.
  - apply rtc_l with (level_1.1, level_1.2); [apply (play_exp _ _ 100); vm_compute; reflexivity|].
    apply rtc_l with (level_2.1, level_2.2); [apply play_update; vm_compute; reflexivity|].
    apply rtc_l with (level_3.1, level_3.2); [apply (play_select _ _ 0); vm_compute; reflexivity|]. apply rtc_refl.
  - vm_compute. reflexivity.
Defined.

(** ** What the operations leave unguarded *)

(** Experience does not ask whether the player is alive, and entering the level-up
    state makes it idle: with the debug command that gives experience to everyone, a
    dead player is up again with no hit points. *)
Lemma level_up_revives_the_dead : exists p' room',
  AddExp (H := any_order) whip_data demo_dis 100 (Player_TakeDamage 100 demo_player demo_room).1 (Some demo_room) = Some (p', room') /\
  IsDead (p_obj (Player_TakeDamage 100 demo_player demo_room).1) = true /\ IsDead (p_obj p') = false /\ _hp (p_obj p') = 0.
Proof. do 2 eexists. split; [vm_compute; reflexivity|]. vm_compute. done. Qed.

(** A choice outside the options ends the level-up and its protection, but the options
    stay pending. *)
Lemma bad_choice_keeps_options : exists p1 r1,
  AddExp (H := any_order) whip_data demo_dis 100 demo_player (Some demo_room) = Some (p1, r1) /\
  let p2 := (SelectLevelUp (H := any_order) whip_data 9 p1 r1).1 in
  _isLevelingUp p2 = false /\ _pendingLevelUpOptions p2 = _pendingLevelUpOptions p1 /\ _pendingLevelUpOptions p2 <> [].
Proof. do 2 eexists. split; [vm_compute; reflexivity|]. vm_compute. done. Qed.
