(* ===== verification/World.v ===== *)
(** * World: the objects of a room and their grid

    Models src/Examples/VampireSurvivor/Server/Game/ObjectManager.h, SpatialGrid.h and
    SpatialGrid.cpp.  An object is represented by its current state; the cells of the
    grid are a finite map from cell indices, in which a missing cell is an empty one. *)

From stdpp Require Import base gmap option list.
From S2P Require Import Prelude Float32 GameData Entity.

(** ** ObjectManager *)

Record ObjectManager := mkObjMgr {
  _nextId : Z;
  _objects : gmap Z GameObject;
  _aliveMonsterCount : Z
}.

Definition ObjectManager_new : ObjectManager := mkObjMgr 1000 ∅ 0.

Definition GenerateId (w : ObjectManager) : Z * ObjectManager :=
  let id := i32 (_nextId w + 1) in (id, mkObjMgr id (_objects w) (_aliveMonsterCount w)).

Definition is_monster (o : GameObject) : bool := bool_decide (_type o = MONSTER).

Definition AddObject (o : GameObject) (w : ObjectManager) : ObjectManager :=
  mkObjMgr (_nextId w) (<[_id o := o]> (_objects w))
    (if is_monster o then i32 (_aliveMonsterCount w + 1) else _aliveMonsterCount w).

Definition RemoveObject (id : Z) (w : ObjectManager) : ObjectManager :=
  match _objects w !! id with
  | Some o =>
      mkObjMgr (_nextId w) (delete id (_objects w))
        (if is_monster o && (0 <? _aliveMonsterCount w) then _aliveMonsterCount w - 1 else _aliveMonsterCount w)
  | None => w
  end.

Definition ObjectManager_Clear (w : ObjectManager) : ObjectManager := mkObjMgr (_nextId w) ∅ 0.
Definition GetObject (id : Z) (w : ObjectManager) : option GameObject := _objects w !! id.
Definition GetObjectCount (w : ObjectManager) : Z := Z.of_nat (size (_objects w)).
Definition GetAllObjects `{IterationOrder} (w : ObjectManager) : list GameObject := (iter_order (_objects w)).*2.
Definition GetAliveMonsterCount (w : ObjectManager) : Z := _aliveMonsterCount w.

(** The number of monsters there are. *)
Definition monsters_in (m : gmap Z GameObject) : Z := Z.of_nat (size (filter (fun '(_, o) => is_monster o) m)).

Lemma monsters_in_insert m o k :
  m !! k = None -> monsters_in (<[k := o]> m) = monsters_in m + (if is_monster o then 1 else 0).
Proof.
  intros Hk. unfold monsters_in. destruct (is_monster o) eqn:Eo.
  - rewrite map_filter_insert_True by (cbn -[is_monster]; rewrite Eo; auto).
    rewrite map_size_insert_None; [lia|]. apply map_lookup_filter_None. by left.
  - rewrite map_filter_insert_False by (cbn -[is_monster]; rewrite Eo; auto). rewrite delete_id by done. lia.
Qed.

Lemma monsters_in_delete m o k :
  m !! k = Some o -> monsters_in (delete k m) = monsters_in m - (if is_monster o then 1 else 0).
Proof.
  intros Hk. rewrite <- (insert_delete_id m k o Hk) at 2.
  rewrite monsters_in_insert by apply lookup_delete_eq. lia.
Qed.

Lemma monsters_in_size m : monsters_in m <= Z.of_nat (size m).
Proof. unfold monsters_in. apply inj_le, map_size_filter. Qed.

(** What a room does with its objects: monsters, projectiles and gems get generated
    ids, a player's object has the player's own id. *)
Inductive WorldOp :=
| WSpawn (o : GameObject)
| WEnter (player : GameObject)
| WRemove (id : Z)
| WClear.

Definition with_id (id : Z) (o : GameObject) : GameObject :=
  mkGO id (_type o) (_state o) (_stateExpiresAt o) (_x o) (_y o) (_vx o) (_vy o) (_radius o) (_lookLeft o)
    (_hp o) (_maxHp o) (_modifiers o).

Definition world_exec (op : WorldOp) (w : ObjectManager) : ObjectManager :=
  match op with
  | WSpawn o => let '(id, w) := GenerateId w in AddObject (with_id id o) w
  | WEnter p => AddObject p w
  | WRemove id => RemoveObject id w
  | WClear => ObjectManager_Clear w
  end.

(** Players have the reserved ids 0 to 999, and enter once. *)
Definition world_op_ok (op : WorldOp) (w : ObjectManager) : Prop :=
  match op with
  | WSpawn _ => _nextId w < 2 ^ 31 - 1
  | WEnter p => _type p = PLAYER /\ 0 <= _id p < 1000
  | _ => True
  end.

Record world_inv (w : ObjectManager) : Prop := mk_world_inv {
  wi_next : 1000 <= _nextId w < 2 ^ 31;
  wi_ids : map_Forall (fun k o => _id o = k /\ (k < 1000 \/ 1000 < k <= _nextId w)) (_objects w);
  wi_players : map_Forall (fun k o => k < 1000 -> is_monster o = false) (_objects w);
  wi_count : _aliveMonsterCount w = monsters_in (_objects w);
  wi_bound : _aliveMonsterCount w <= _nextId w - 1000
}.

Lemma world_inv_new : world_inv ObjectManager_new.
Proof. constructor; cbn -[monsters_in]; [lia|apply map_Forall_empty|apply map_Forall_empty|reflexivity|lia]. Qed.

Lemma monsters_in_replace m k o o' :
  m !! k = Some o' -> monsters_in (<[k := o]> m) = monsters_in m - (if is_monster o' then 1 else 0) + (if is_monster o then 1 else 0).
Proof.
  intros Hk. rewrite <- insert_delete_eq, monsters_in_insert by apply lookup_delete_eq.
  by rewrite (monsters_in_delete _ _ _ Hk).
Qed.

Lemma world_exec_inv op w : world_inv w -> world_op_ok op w -> world_inv (world_exec op w).
Proof.
  intros [Hn Hi Hp Hc Hb] Hop. assert (0 <= _aliveMonsterCount w) as Hc0 by (rewrite Hc; unfold monsters_in; lia).
  destruct op as [o|p|id|].
  - cbn [world_exec GenerateId]. cbn in Hop. rewrite swrap_small by lia.
    assert (_objects w !! (_nextId w + 1) = None) as Hfresh.
    { destruct (_objects w !! _) as [x|] eqn:E; [|done]. destruct (Hi _ _ E) as [_ ?]. lia. }
    pose proof (monsters_in_insert _ (with_id (_nextId w + 1) o) _ Hfresh) as Hm. change (is_monster (with_id _ o)) with (is_monster o) in Hm.
    constructor; cbn -[is_monster monsters_in]; change (is_monster (with_id _ o)) with (is_monster o).
    + lia.
    + apply map_Forall_insert_2; [cbn; lia|]. eapply map_Forall_impl; [exact Hi|]. cbn. intros k x [? ?]. lia.
    + apply map_Forall_insert_2; [lia|done].
    + rewrite Hm. destruct (is_monster o); rewrite ?swrap_small by lia; lia.
    + destruct (is_monster o); rewrite ?swrap_small by lia; lia.
  - destruct Hop as [Ht Hid]. cbn [world_exec]. unfold AddObject.
    assert (is_monster p = false) as Em by (unfold is_monster; rewrite Ht; done). rewrite Em.
    constructor; cbn -[is_monster monsters_in].
    + done.
    + apply map_Forall_insert_2; [split; [done|lia]|done].
    + by apply map_Forall_insert_2.
    + rewrite Hc. destruct (_objects w !! _id p) as [o|] eqn:E.
      * rewrite (monsters_in_replace _ _ _ _ E), Em. rewrite (Hp _ _ E) by lia. lia.
      * rewrite monsters_in_insert, Em by done. lia.
    + done.
  - cbn [world_exec]. unfold RemoveObject. destruct (_objects w !! id) as [o|] eqn:E; [|done].
    pose proof (monsters_in_delete _ _ _ E) as Hm.
    assert (0 <= monsters_in (delete id (_objects w))) as Hpos by (unfold monsters_in; lia).
    constructor; cbn -[is_monster monsters_in]; [done|by apply map_Forall_delete|by apply map_Forall_delete| |].
    + rewrite Hm, Hc in *. destruct (is_monster o); cbn [andb]; [|lia]. destruct (_ <? _) eqn:Ez; bool_to_prop; lia.
    + destruct (_ && _); lia.
  - constructor; cbn -[monsters_in]; [lia|apply map_Forall_empty|apply map_Forall_empty|reflexivity|lia].
Qed.

(** A sequence of operations, each allowed when it happens. *)
Fixpoint world_run (ops : list WorldOp) (w : ObjectManager) : Prop :=
  match ops with
  | [] => True
  | op :: ops => world_op_ok op w /\ world_run ops (world_exec op w)
  end.

(** The monster counter that caps spawning and decides victory is exact: after any
    sequence of spawns, players entering, removals and clears, as long as player ids
    stay in the range reserved for them, it equals the number of monsters in the
    room. *)
Theorem monster_count_exact ops :
  world_run ops ObjectManager_new ->
  let w := foldl (fun w op => world_exec op w) ObjectManager_new ops in
  GetAliveMonsterCount w = monsters_in (_objects w).
Proof.
  cbv zeta. pose proof world_inv_new as Hw. revert Hw. generalize ObjectManager_new.
  induction ops as [|op ops IH]; intros w Hw Hr; [by apply wi_count|].
  destruct Hr as [Ho Hr]. cbn [foldl]. apply IH; [by apply world_exec_inv|done].
Qed.

Lemma monster_count_exact_witness :
  let ops := [WEnter (GameObject_new 1 PLAYER); WSpawn (GameObject_new 0 MONSTER); WSpawn (GameObject_new 0 MONSTER);
              WSpawn (GameObject_new 0 ITEM); WRemove 1002] in
  GetAliveMonsterCount (foldl (fun w op => world_exec op w) ObjectManager_new ops) = 1.
Proof.
  cbv zeta.
  rewrite (monster_count_exact [WEnter (GameObject_new 1 PLAYER); WSpawn (GameObject_new 0 MONSTER); WSpawn (GameObject_new 0 MONSTER);
              WSpawn (GameObject_new 0 ITEM); WRemove 1002]); [vm_compute; reflexivity|].
  cbn. repeat split; lia.
Defined.

(** A player's id is its session number, which grows without bound: session 1001 takes
    the place of the first monster, and the room counts a monster it does not have. *)
Lemma colliding_player_id :
  let w := world_exec (WEnter (GameObject_new 1001 PLAYER)) (world_exec (WSpawn (GameObject_new 0 MONSTER)) ObjectManager_new) in
  GetAliveMonsterCount w = 1 /\ monsters_in (_objects w) = 0.
Proof. vm_compute. done. Qed.

(** ** SpatialGrid *)

Definition GRID_SIZE : Z := 256.
Definition OFFSET : Z := 1000000.
Definition TOTAL_CELLS : Z := GRID_SIZE * GRID_SIZE.

Record SpatialGrid := mkGrid {
  _cellSize : float;
  _cells : gmap Z (list Z)
}.

Definition SpatialGrid_new (cellSize : float) : SpatialGrid := mkGrid cellSize ∅.

(** [static_cast<int>(std::floor(v))]; [None] where the conversion is undefined. *)
Definition floor_int (v : float) : option Z := z ← f_floor v; to_int z.

(** The cell of integer coordinates, wrapped around the grid. *)
Definition cell_index (cx cy : Z) : Z :=
  u32 (u32 (i32 (cx + OFFSET)) mod GRID_SIZE * GRID_SIZE + u32 (i32 (cy + OFFSET)) mod GRID_SIZE).

Definition GetIndex (g : SpatialGrid) (x y : float) : option Z :=
  cx ← floor_int (x / _cellSize g)%F; cy ← floor_int (y / _cellSize g)%F; Some (cell_index cx cy).

Definition GetMonsterIds (g : SpatialGrid) (idx : Z) : list Z := default [] (_cells g !! idx).

Definition in_grid (o : GameObject) : bool := is_monster o && negb (bool_decide (_state o = DEAD)).

Definition place (g : SpatialGrid) (o : GameObject) : option SpatialGrid :=
  if in_grid o then
    idx ← GetIndex g (_x o) (_y o);
    Some (mkGrid (_cellSize g) (<[idx := GetMonsterIds g idx ++ [_id o]]> (_cells g)))
  else Some g.

Definition Grid_Clear (g : SpatialGrid) : SpatialGrid := mkGrid (_cellSize g) ∅.
Definition HardClear (g : SpatialGrid) : SpatialGrid := mkGrid (_cellSize g) ∅.

Definition Rebuild (objects : list GameObject) (g : SpatialGrid) : option SpatialGrid :=
  for_each (fun o g => place g o) objects (Grid_Clear g).

Definition GetNeighborCells (cellIdx : Z) : list Z :=
  let cx := Z.quot cellIdx GRID_SIZE in
  let cy := Z.rem cellIdx GRID_SIZE in
  flat_map (fun dx => map (fun dy => u32 (u32 (cx + dx) mod GRID_SIZE * GRID_SIZE + u32 (cy + dy) mod GRID_SIZE)) [-1; 0; 1]) [-1; 0; 1].

(** The columns or rows a query visits: from the floor of one end to that of the other. *)
Definition cell_range (g : SpatialGrid) (v radius : float) : option (list Z) :=
  lo ← floor_int ((v - radius) / _cellSize g)%F; hi ← floor_int ((v + radius) / _cellSize g)%F;
  Some (seqZ lo (hi - lo + 1)).

Definition within_radius (x y radius : float) (o : GameObject) : bool :=
  let dx := (_x o - x)%F in let dy := (_y o - y)%F in (dx * dx + dy * dy <=? radius * radius)%F.

(** The hits in one cell. *)
Definition cell_hits (g : SpatialGrid) (w : ObjectManager) (x y radius : float) (idx : Z) : list GameObject :=
  filter (fun o => within_radius x y radius o) (omap (fun id => GetObject id w) (GetMonsterIds g idx)).

Definition Query (g : SpatialGrid) (w : ObjectManager) (x y radius : float) : option (list GameObject) :=
  xs ← cell_range g x radius; ys ← cell_range g y radius;
  Some (flat_map (fun cx => flat_map (fun cy => cell_hits g w x y radius (cell_index cx cy)) ys) xs).

(** *** Indices *)

Lemma cell_index_bounds cx cy : 0 <= cell_index cx cy < TOTAL_CELLS.
Proof.
  unfold cell_index, TOTAL_CELLS, GRID_SIZE.
  pose proof (Z.mod_pos_bound (u32 (i32 (cx + OFFSET))) 256 ltac:(lia)).
  pose proof (Z.mod_pos_bound (u32 (i32 (cy + OFFSET))) 256 ltac:(lia)).
  rewrite wrap_small by (unfold in_u; lia). lia.
Qed.

Lemma mod_of_mod a : 0 <= a mod 2 ^ 32 mod 256 < 256 /\ a mod 2 ^ 32 mod 256 = a mod 256.
Proof.
  split; [by apply Z.mod_pos_bound|]. symmetry. change (2 ^ 32) with (256 * 2 ^ 24). rewrite Z.rem_mul_r by lia.
  rewrite (Z.mul_comm 256 (_ mod _)), Z.mod_add, Z.mod_mod by lia. done.
Qed.

Lemma swrap_mod_256 z : u32 (i32 z) mod 256 = z mod 256.
Proof.
  unfold wrap, swrap. destruct (mod_of_mod ((z + 2 ^ (32 - 1)) mod 2 ^ 32 - 2 ^ (32 - 1))) as [_ ->].
  change (2 ^ (32 - 1)) with (2 ^ 23 * 256). rewrite <- (Z.mod_add ((z + 2 ^ 23 * 256) mod 2 ^ 32 - 2 ^ 23 * 256) (2 ^ 23) 256) by lia.
  replace ((z + 2 ^ 23 * 256) mod 2 ^ 32 - 2 ^ 23 * 256 + 2 ^ 23 * 256) with ((z + 2 ^ 23 * 256) mod 2 ^ 32) by lia.
  destruct (mod_of_mod (z + 2 ^ 23 * 256)) as [_ ->]. by rewrite Z.mod_add by lia.
Qed.

(** The index depends on the coordinates modulo the size of the grid, and on nothing
    else. *)
Lemma cell_index_mod cx cy : cell_index cx cy = ((cx + OFFSET) mod 256) * 256 + (cy + OFFSET) mod 256.
Proof.
  unfold cell_index, GRID_SIZE. rewrite !swrap_mod_256. apply wrap_small. unfold in_u.
  pose proof (Z.mod_pos_bound (cx + OFFSET) 256). pose proof (Z.mod_pos_bound (cy + OFFSET) 256). lia.
Qed.

Lemma cell_index_inj cx cy cx' cy' :
  cell_index cx cy = cell_index cx' cy' -> Z.abs (cx - cx') < 256 -> Z.abs (cy - cy') < 256 -> cx = cx' /\ cy = cy'.
Proof.
  rewrite !cell_index_mod. intros E Hx Hy.
  pose proof (Z.mod_pos_bound (cx + OFFSET) 256 ltac:(lia)). pose proof (Z.mod_pos_bound (cy + OFFSET) 256 ltac:(lia)).
  pose proof (Z.mod_pos_bound (cx' + OFFSET) 256 ltac:(lia)). pose proof (Z.mod_pos_bound (cy' + OFFSET) 256 ltac:(lia)).
  pose proof (Z.div_mod (cx + OFFSET) 256 ltac:(lia)). pose proof (Z.div_mod (cy + OFFSET) 256 ltac:(lia)).
  pose proof (Z.div_mod (cx' + OFFSET) 256 ltac:(lia)). pose proof (Z.div_mod (cy' + OFFSET) 256 ltac:(lia)).
  lia.
Qed.

Lemma GetNeighborCells_bounds idx : Forall (fun i => 0 <= i < TOTAL_CELLS) (GetNeighborCells idx).
Proof.
  assert (forall a b, 0 <= u32 (u32 a mod GRID_SIZE * GRID_SIZE + u32 b mod GRID_SIZE) < TOTAL_CELLS) as Hb.
  { intros a b. unfold TOTAL_CELLS, GRID_SIZE. pose proof (Z.mod_pos_bound (u32 a) 256 ltac:(lia)).
    pose proof (Z.mod_pos_bound (u32 b) 256 ltac:(lia)). rewrite wrap_small by (unfold in_u; lia). lia. }
  unfold GetNeighborCells. cbn [flat_map map app]. repeat constructor; apply Hb.
Qed.

(** *** Rebuilding *)

(** The ids [Rebuild] leaves in a cell: those of the live monsters there, in order. *)
Definition ids_at (cellSize : float) (idx : Z) (objects : list GameObject) : list Z :=
  map _id (filter (fun o => in_grid o /\ GetIndex (SpatialGrid_new cellSize) (_x o) (_y o) = Some idx) objects).

Lemma GetIndex_size g g' x y : _cellSize g = _cellSize g' -> GetIndex g x y = GetIndex g' x y.
Proof. unfold GetIndex. by intros ->. Qed.

Lemma place_spec g o g' :
  place g o = Some g' ->
  _cellSize g' = _cellSize g /\
  forall idx, GetMonsterIds g' idx = GetMonsterIds g idx ++ ids_at (_cellSize g) idx [o].
Proof.
  unfold place, ids_at. destruct (in_grid o) eqn:Eo.
  - intros (idx0 & Ei & [= <-])%bind_Some. split; [done|]. intros idx. unfold GetMonsterIds at 1. cbn [_cells].
    rewrite (GetIndex_size g (SpatialGrid_new (_cellSize g))) in Ei by done. rewrite lookup_insert. case_decide as E.
    + subst. rewrite filter_cons_True by (split; [by rewrite Eo|done]). done.
    + rewrite filter_cons_False by (intros [_ E']; congruence). cbn. by rewrite app_nil_r.
  - intros [= <-]. split; [done|]. intros idx. rewrite filter_cons_False by (rewrite Eo; by intros [? _]). cbn. by rewrite app_nil_r.
Qed.

Lemma Rebuild_spec objects g g' :
  Rebuild objects g = Some g' ->
  _cellSize g' = _cellSize g /\ forall idx, GetMonsterIds g' idx = ids_at (_cellSize g) idx objects.
Proof.
  unfold Rebuild. assert (forall idx, GetMonsterIds (Grid_Clear g) idx = []) as H0 by done.
  enough (forall g0 g1, for_each (fun o g => place g o) objects g0 = Some g1 ->
            _cellSize g1 = _cellSize g0 /\ forall idx, GetMonsterIds g1 idx = GetMonsterIds g0 idx ++ ids_at (_cellSize g0) idx objects) as Hg.
  { intros E. destruct (Hg _ _ E) as [E1 E2]. split; [done|]. intros idx. by rewrite E2, H0. }
  induction objects as [|o objects IH]; intros g0 g1 E.
  { cbn in E. simplify_eq. split; [done|]. intros idx. unfold ids_at. cbn. by rewrite app_nil_r. }
  cbn [for_each] in E. apply bind_Some in E as (g2 & E2 & E). apply place_spec in E2 as [Es Ei].
  destruct (IH _ _ E) as [Es' Ei']. split; [congruence|]. intros idx. rewrite Ei', Ei, Es, <- app_assoc. f_equal.
  unfold ids_at. rewrite <- map_app, <- filter_app. done.
Qed.

(** *** Queries *)

Lemma NoDup_flat_map {A B} (f : A -> list B) l :
  NoDup l -> (forall x, x ∈ l -> NoDup (f x)) -> (forall x y z, x ∈ l -> y ∈ l -> z ∈ f x -> z ∈ f y -> x = y) ->
  NoDup (flat_map f l).
Proof.
  induction 1 as [|x l Hx Hl IH]; intros Hf Hd; [constructor|]. cbn. apply NoDup_app. split_and!.
  - apply Hf. left.
  - intros z Hz Hz'. apply list_elem_of_In, in_flat_map in Hz' as (y & Hy & Hzy). apply list_elem_of_In in Hy, Hzy.
    assert (x = y) as -> by (eapply Hd; [left|by right|done|done]). done.
  - apply IH; [intros; apply Hf; by right|]. intros y y' z ? ?. apply Hd; by right.
Qed.

Lemma elem_of_flat_map {A B} (f : A -> list B) l y : y ∈ flat_map f l <-> exists x, x ∈ l /\ y ∈ f x.
Proof. setoid_rewrite list_elem_of_In. apply in_flat_map. Qed.

Lemma NoDup_omap_inj {A B} (f : A -> option B) l :
  (forall x y z, f x = Some z -> f y = Some z -> x = y) -> NoDup l -> NoDup (omap f l).
Proof.
  intros Hf. induction 1 as [|x l Hx Hl IH]; [constructor|]. cbn. destruct (f x) as [z|] eqn:E; [|done].
  apply NoDup_cons. split; [|done]. intros (y & Hy & Ey)%list_elem_of_omap.
  by rewrite (Hf _ _ _ E Ey) in Hx.
Qed.

Section QueryTheorem.
Context `{IterationOrder} (w : ObjectManager).
Hypothesis Hids : map_Forall (fun k o => _id o = k) (_objects w).

Lemma GetAllObjects_elem o : o ∈ GetAllObjects w <-> GetObject (_id o) w = Some o.
Proof.
  unfold GetAllObjects, GetObject. rewrite list_elem_of_fmap. split.
  - intros ([k o'] & -> & Hk%elem_of_iter_order). cbn. by rewrite (Hids _ _ Hk).
  - intros E. exists (_id o, o). split; [done|]. by apply elem_of_iter_order.
Qed.

Lemma GetAllObjects_ids : NoDup (map _id (GetAllObjects w)).
Proof.
  unfold GetAllObjects. enough (map _id (iter_order (_objects w)).*2 = (iter_order (_objects w)).*1) as -> by apply NoDup_iter_keys.
  change (map _id (iter_order (_objects w)).*2) with (_id <$> (iter_order (_objects w)).*2). rewrite <- list_fmap_compose.
  apply list_fmap_ext. intros i [k o] Hi. cbn. apply (list_elem_of_lookup_2 _ _ _), elem_of_iter_order in Hi. by apply Hids.
Qed.

Lemma NoDup_map_filter {A B} (f : A -> B) (P : A -> Prop) `{!forall x, Decision (P x)} l : NoDup (map f l) -> NoDup (map f (filter P l)).
Proof.
  induction l as [|x l IH]; [done|]. cbn [map]. intros [Hx Hl]%NoDup_cons. rewrite filter_cons. case_decide; [|auto].
  cbn [map]. apply NoDup_cons. split; [|auto]. intros (y & Ey & Hy)%list_elem_of_In%in_map_iff. apply Hx.
  apply list_elem_of_In, in_map_iff. exists y. split; [done|]. apply list_elem_of_In in Hy.
  apply list_elem_of_In. by apply list_elem_of_filter in Hy as [_ ?].
Qed.

Section Rebuilt.
Context (g g' : SpatialGrid) (Hre : Rebuild (GetAllObjects w) g = Some g').

Lemma cell_ids_NoDup idx : NoDup (GetMonsterIds g' idx).
Proof. destruct (Rebuild_spec _ _ _ Hre) as [_ ->]. apply NoDup_map_filter, GetAllObjects_ids. Qed.

Lemma cell_hits_elem x y radius idx o :
  o ∈ cell_hits g' w x y radius idx <->
  GetObject (_id o) w = Some o /\ in_grid o /\ within_radius x y radius o /\ GetIndex g' (_x o) (_y o) = Some idx.
Proof.
  destruct (Rebuild_spec _ _ _ Hre) as [Es Ei]. unfold cell_hits. rewrite list_elem_of_filter, list_elem_of_omap, Ei. unfold ids_at.
  rewrite (GetIndex_size g' (SpatialGrid_new (_cellSize g))) by done. split.
  - intros [Hr (id & (o' & Eo & Ho)%list_elem_of_In%in_map_iff & E)].
    apply list_elem_of_In, list_elem_of_filter in Ho as [[Hg Hi] Ho]. apply GetAllObjects_elem in Ho. subst id.
    rewrite Ho in E. simplify_eq. done.
  - intros (E & Hg & Hr & Hi). split; [done|]. exists (_id o). split; [|done]. apply list_elem_of_In, in_map_iff.
    exists o. split; [done|]. apply list_elem_of_In, list_elem_of_filter. split; [done|]. by apply GetAllObjects_elem.
Qed.

Lemma cell_hits_NoDup x y radius idx : NoDup (cell_hits g' w x y radius idx).
Proof.
  unfold cell_hits. apply NoDup_filter, NoDup_omap_inj; [|apply cell_ids_NoDup].
  intros id id' o E E'. unfold GetObject in *. apply Hids in E, E'. congruence.
Qed.

Lemma cell_range_close v radius xs a b : cell_range g' v radius = Some xs -> (length xs <= 256)%nat -> a ∈ xs -> b ∈ xs -> Z.abs (a - b) < 256.
Proof.
  intros (lo & _ & (hi & _ & [= <-])%bind_Some)%bind_Some. rewrite length_seqZ, !elem_of_seqZ. lia.
Qed.

Lemma cell_range_NoDup v radius xs : cell_range g' v radius = Some xs -> NoDup xs.
Proof. intros (lo & _ & (hi & _ & [= <-])%bind_Some)%bind_Some. apply NoDup_seqZ. Qed.

(** The grid finds exactly what it should: after a rebuild from the objects of the
    room, a query that spans at most 256 columns and rows returns every live monster in
    the cells it visits whose distance passes the test, nothing else, and nothing
    twice. *)
Theorem grid_query_exact x y radius xs ys :
  cell_range g' x radius = Some xs -> cell_range g' y radius = Some ys -> (length xs <= 256)%nat -> (length ys <= 256)%nat ->
  exists res, Query g' w x y radius = Some res /\ NoDup res /\
    forall o, o ∈ res <->
      GetObject (_id o) w = Some o /\ in_grid o /\ within_radius x y radius o /\
      exists cx cy, cx ∈ xs /\ cy ∈ ys /\ GetIndex g' (_x o) (_y o) = Some (cell_index cx cy).
Proof.
  intros Ex Ey Hx Hy. unfold Query. rewrite Ex, Ey. eexists. split; [done|]. split.
  - apply NoDup_flat_map; [by eapply cell_range_NoDup|intros cx Hcx; apply NoDup_flat_map; [by eapply cell_range_NoDup|intros; apply cell_hits_NoDup|]|].
    + intros cy cy' o Hcy Hcy' (_ & _ & _ & E)%cell_hits_elem (_ & _ & _ & E')%cell_hits_elem. rewrite E in E'. injection E' as E'.
      refine (proj2 (cell_index_inj _ _ _ _ E' _ _)); [lia|exact (cell_range_close _ _ _ _ _ Ey Hy Hcy Hcy')].
    + intros cx cx' o Hcx Hcx' (cy & Hcy & (_ & _ & _ & E)%cell_hits_elem)%elem_of_flat_map (cy' & Hcy' & (_ & _ & _ & E')%cell_hits_elem)%elem_of_flat_map.
      rewrite E in E'. injection E' as E'. 
      exact (proj1 (cell_index_inj _ _ _ _ E' (cell_range_close _ _ _ _ _ Ex Hx Hcx Hcx') (cell_range_close _ _ _ _ _ Ey Hy Hcy Hcy'))).
  - intros o. rewrite elem_of_flat_map. setoid_rewrite elem_of_flat_map. setoid_rewrite cell_hits_elem. split.
    + intros (cx & Hcx & cy & Hcy & E & Hg & Hr & Hi). split_and!; [done..|]. by exists cx, cy.
    + intros (E & Hg & Hr & cx & cy & Hcx & Hcy & Hi). exists cx. split; [done|]. by exists cy.
Qed.

End Rebuilt.
End QueryTheorem.

Definition demo_objects : ObjectManager :=
  foldl (fun w op => world_exec op w) ObjectManager_new
    [WSpawn (SetPos (f_of_Z 3) (f_of_Z 1) (GameObject_new 0 MONSTER)); WSpawn (SetPos (f_of_Z 40) f0 (GameObject_new 0 MONSTER));
     WEnter (GameObject_new 1 PLAYER)].
Definition demo_grid : SpatialGrid := default (SpatialGrid_new (f_of_Z 2)) (Rebuild (GetAllObjects (H := any_order) demo_objects) (SpatialGrid_new (f_of_Z 2))).

Lemma grid_query_exact_witness :
  exists res, Query demo_grid demo_objects f0 f0 (f_of_Z 5) = Some res /\ NoDup res /\ map _id res = [1001].
Proof.
  destruct (grid_query_exact (H := any_order) demo_objects
              ltac:(apply map_Forall_to_list; vm_compute; repeat constructor)
              (SpatialGrid_new (f_of_Z 2)) demo_grid eq_refl f0 f0 (f_of_Z 5) [-3; -2; -1; 0; 1; 2] [-3; -2; -1; 0; 1; 2] eq_refl eq_refl
              ltac:(cbn; lia) ltac:(cbn; lia)) as (res & E & Hn & _).
  exists res. split; [done|]. split; [done|]. vm_compute in E. by simplify_eq.
Defined.

(** Columns 256 apart share their cells, so that a wider query visits a cell twice and
    returns its monsters twice. *)
Lemma columns_wrap g w x y radius cx cy :
  cell_hits g w x y radius (cell_index (cx + 256) cy) = cell_hits g w x y radius (cell_index cx cy).
Proof.
  f_equal. rewrite !cell_index_mod. replace (cx + 256 + OFFSET) with (cx + OFFSET + 1 * 256) by lia.
  by rewrite Z.mod_add by lia.
Qed.
