(* ===== verification/Projectile.v ===== *)
(** * Projectile: flight, hits and the projectile pool

    Models src/Examples/VampireSurvivor/Server/Entity/Projectile.h, Projectile.cpp and
    ProjectileFactory.cpp.  The trigonometric functions are arguments; the owner an
    orbiting projectile looks up in its room is passed to [Update]. *)

From stdpp Require Import base strings gmap option list.
From S2P Require Import Prelude Float32 Modifiers Entity World.

Record Projectile := mkProjectile {
  pj_obj : GameObject;
  _ownerId : Z;
  _skillId : Z;
  _typeId : Z;
  _damage : Z;
  _lifetime : float;
  _maxRange : float;
  _traveledDistance : float;
  _isHit : bool;
  _pierceCount : Z;
  _hitTargets : list Z;
  _isOrbit : bool;
  _orbitRadius : float;
  _orbitSpeed : float;
  _currentAngle : float
}.

Definition Projectile_new : Projectile :=
  mkProjectile (GameObject_new 0 PROJECTILE) 0 0 0 0 (f_of_Z 5) (f_of_Z 50) f0 false 0 [] false f0 f0 f0.

(** Setters, one per group of fields. *)
Definition set_pj_obj (o : GameObject) (p : Projectile) : Projectile :=
  mkProjectile o (_ownerId p) (_skillId p) (_typeId p) (_damage p) (_lifetime p) (_maxRange p) (_traveledDistance p)
    (_isHit p) (_pierceCount p) (_hitTargets p) (_isOrbit p) (_orbitRadius p) (_orbitSpeed p) (_currentAngle p).

Definition SetDamage (dmg : Z) (p : Projectile) : Projectile :=
  mkProjectile (pj_obj p) (_ownerId p) (_skillId p) (_typeId p) dmg (_lifetime p) (_maxRange p) (_traveledDistance p)
    (_isHit p) (_pierceCount p) (_hitTargets p) (_isOrbit p) (_orbitRadius p) (_orbitSpeed p) (_currentAngle p).

Definition SetLifetime (life : float) (p : Projectile) : Projectile :=
  mkProjectile (pj_obj p) (_ownerId p) (_skillId p) (_typeId p) (_damage p) life (_maxRange p) (_traveledDistance p)
    (_isHit p) (_pierceCount p) (_hitTargets p) (_isOrbit p) (_orbitRadius p) (_orbitSpeed p) (_currentAngle p).

Definition SetMaxRange (range : float) (p : Projectile) : Projectile :=
  mkProjectile (pj_obj p) (_ownerId p) (_skillId p) (_typeId p) (_damage p) (_lifetime p) range (_traveledDistance p)
    (_isHit p) (_pierceCount p) (_hitTargets p) (_isOrbit p) (_orbitRadius p) (_orbitSpeed p) (_currentAngle p).

Definition set_traveled (d : float) (p : Projectile) : Projectile :=
  mkProjectile (pj_obj p) (_ownerId p) (_skillId p) (_typeId p) (_damage p) (_lifetime p) (_maxRange p) d
    (_isHit p) (_pierceCount p) (_hitTargets p) (_isOrbit p) (_orbitRadius p) (_orbitSpeed p) (_currentAngle p).

Definition set_hit (hit : bool) (pierce : Z) (p : Projectile) : Projectile :=
  mkProjectile (pj_obj p) (_ownerId p) (_skillId p) (_typeId p) (_damage p) (_lifetime p) (_maxRange p) (_traveledDistance p)
    hit pierce (_hitTargets p) (_isOrbit p) (_orbitRadius p) (_orbitSpeed p) (_currentAngle p).

Definition AddHit (targetId : Z) (p : Projectile) : Projectile :=
  mkProjectile (pj_obj p) (_ownerId p) (_skillId p) (_typeId p) (_damage p) (_lifetime p) (_maxRange p) (_traveledDistance p)
    (_isHit p) (_pierceCount p) (_hitTargets p ++ [targetId]) (_isOrbit p) (_orbitRadius p) (_orbitSpeed p) (_currentAngle p).

Definition set_angle (angle : float) (p : Projectile) : Projectile :=
  mkProjectile (pj_obj p) (_ownerId p) (_skillId p) (_typeId p) (_damage p) (_lifetime p) (_maxRange p) (_traveledDistance p)
    (_isHit p) (_pierceCount p) (_hitTargets p) (_isOrbit p) (_orbitRadius p) (_orbitSpeed p) angle.

Definition SetOrbit (radius speed initialAngle : float) (p : Projectile) : Projectile :=
  mkProjectile (pj_obj p) (_ownerId p) (_skillId p) (_typeId p) (_damage p) (_lifetime p) (_maxRange p) (_traveledDistance p)
    (_isHit p) (_pierceCount p) (_hitTargets p) true radius speed initialAngle.

Definition SetPierce (count : Z) (p : Projectile) : Projectile := set_hit (_isHit p) count p.

Definition SetRadius (r : float) (o : GameObject) : GameObject :=
  mkGO (_id o) (_type o) (_state o) (_stateExpiresAt o) (_x o) (_y o) (_vx o) (_vy o) r (_lookLeft o)
    (_hp o) (_maxHp o) (_modifiers o).

(** [Initialize] leaves the radius and the pierce count of the last flight. *)
Definition Projectile_Initialize (id ownerId skillId typeId : Z) (p : Projectile) : Projectile :=
  let o := pj_obj p in
  mkProjectile
    (mkGO id (_type o) IDLE f0 f0 f0 f0 f0 (_radius o) (_lookLeft o) (_hp o) (_maxHp o) (_modifiers o))
    ownerId skillId typeId 0 (f_of_Z 5) (f_of_Z 50) f0 false (_pierceCount p) [] false f0 f0 f0.

Definition Projectile_Reset (p : Projectile) : Projectile :=
  let o := pj_obj p in
  mkProjectile
    (mkGO 0 (_type o) IDLE f0 (_x o) (_y o) f0 f0 (_radius o) (_lookLeft o) (_hp o) (_maxHp o) (_modifiers o))
    0 0 0 0 f0 (f_of_Z 50) f0 false (_pierceCount p) [] false f0 f0 f0.

Definition pj_IsExpired (p : Projectile) : bool := (_lifetime p <=? f0)%F || _isHit p || IsDead (pj_obj p).

(** The result tells whether the projectile is consumed. *)
Definition OnHit (p : Projectile) : bool * Projectile :=
  if _pierceCount p =? 0 then (true, set_hit true 0 p)
  else (false, if 0 <? _pierceCount p then set_hit (_isHit p) (i32 (_pierceCount p - 1)) p else p).

Definition GetHitCount (p : Projectile) : Z := i32 (Z.of_nat (length (_hitTargets p))).
Definition HasHit (targetId : Z) (p : Projectile) : bool := existsb (fun id => id =? targetId) (_hitTargets p).

Definition die (p : Projectile) : Projectile := set_pj_obj (SetState DEAD f0 (pj_obj p)) p.

Definition UpdateLinear (dt : float) (p : Projectile) : Projectile :=
  let o := pj_obj p in
  let speed := fsqrt (_vx o * _vx o + _vy o * _vy o)%F in
  let p := set_traveled (_traveledDistance p + speed * dt)%F p in
  if (_maxRange p <=? _traveledDistance p)%F then die p
  else set_pj_obj (SetPos (_x o + _vx o * dt)%F (_y o + _vy o * dt)%F o) p.

Section Flight.
Context (cos sin : float -> float).

Definition UpdateOrbit (dt : float) (owner : option GameObject) (p : Projectile) : Projectile :=
  match owner with
  | None => die p
  | Some ow =>
      if IsDead ow then die p
      else
        let angle := (_currentAngle p + _orbitSpeed p * dt)%F in
        let p := set_angle angle p in
        let targetX := (_x ow + _orbitRadius p * cos angle)%F in
        let targetY := (_y ow + _orbitRadius p * sin angle)%F in
        let vx := ((- _orbitRadius p) * sin angle * _orbitSpeed p)%F in
        let vy := (_orbitRadius p * cos angle * _orbitSpeed p)%F in
        set_pj_obj (SetVelocity vx vy (SetPos targetX targetY (pj_obj p))) p
  end.

Definition Projectile_Update (dt : float) (owner : option GameObject) (p : Projectile) : Projectile :=
  if IsDead (pj_obj p) then p
  else
    let p := if _isOrbit p then UpdateOrbit dt owner p else UpdateLinear dt p in
    let p := SetLifetime (_lifetime p - dt)%F p in
    if (_lifetime p <=? f0)%F || _isHit p then die p else p.

End Flight.

(** ** ProjectileFactory *)

(** Idle projectiles; one is reset when it is taken, and there is no limit. *)
Definition pop_projectile (pool : list Projectile) : Projectile * list Projectile :=
  match pool with
  | p :: pool => (Projectile_Reset p, pool)
  | [] => (Projectile_new, [])
  end.

Definition CreateProjectile (ownerId skillId typeId : Z) (x y vx vy : float) (damage : Z) (lifetime : float)
  (pool : list Projectile) (w : ObjectManager) : Projectile * list Projectile * ObjectManager :=
  let '(p, pool) := pop_projectile pool in
  let '(id, w) := GenerateId w in
  let p := Projectile_Initialize id ownerId skillId typeId p in
  let p := set_pj_obj (SetVelocity vx vy (SetPos x y (pj_obj p))) p in
  (SetLifetime lifetime (SetDamage damage p), pool, w).

(** ** Hits *)

(** What a target that is in reach does to a projectile: the guards of the collision
    loop, and whether the target is hit. *)
Definition strike (targetId : Z) (p : Projectile) : bool * Projectile :=
  if pj_IsExpired p || HasHit targetId p then (false, p) else (true, (OnHit (AddHit targetId p)).2).

(** The invariant of a projectile launched with [pierce]. *)
Record hits_ok (pierce : Z) (p : Projectile) : Prop := mk_hits_ok {
  ho_nodup : NoDup (_hitTargets p);
  ho_finite : 0 <= pierce ->
    if _isHit p then Z.of_nat (length (_hitTargets p)) = pierce + 1
    else _pierceCount p + Z.of_nat (length (_hitTargets p)) = pierce /\ 0 <= _pierceCount p;
  ho_infinite : pierce < 0 -> _isHit p = false /\ _pierceCount p = pierce
}.

Lemma HasHit_elem id p : HasHit id p = true <-> id ∈ _hitTargets p.
Proof.
  unfold HasHit. rewrite existsb_exists. setoid_rewrite <- list_elem_of_In. split.
  - intros (x & Hx & E). bool_to_prop. by subst.
  - intros Hx. exists id. split; [done|]. apply Z.eqb_refl.
Qed.

Lemma strike_ok pierce id p : pierce < 2 ^ 31 -> hits_ok pierce p -> hits_ok pierce (strike id p).2.
Proof.
  intros Hp [Hn Hf Hi]. unfold strike. destruct (pj_IsExpired p || HasHit id p) eqn:E; [done|].
  apply orb_false_iff in E as [E1 E2]. apply orb_false_iff in E1 as [E1 _]. apply orb_false_iff in E1 as [_ Eh].
  assert (id ∉ _hitTargets p) as Hid by (intros Hin%HasHit_elem; congruence). rewrite Eh in Hf.
  assert (NoDup (_hitTargets p ++ [id])) as Hn'.
  { apply NoDup_app. split_and!; [done|set_solver|apply NoDup_singleton]. }
  cbn [snd]. unfold OnHit. cbn [AddHit _pierceCount]. destruct (_ =? 0) eqn:Ez; bool_to_prop.
  - constructor; cbn; [done| |lia]. intros H0. rewrite length_app. cbn. destruct (Hf H0). lia.
  - destruct (0 <? _pierceCount p) eqn:Ep; bool_to_prop; constructor; cbn; try done; rewrite ?Eh, ?length_app; cbn.
    all: intros H0; first [destruct (Hf H0); rewrite ?swrap_small by lia; lia | by destruct (Hi H0) | destruct (Hi H0); lia].
Qed.
