(* ===== verification/Waves.v ===== *)
(** * Waves: the spawning of monsters

    Models, in src/Examples/VampireSurvivor/Server, Entity/MonsterFactory.cpp and
    Game/WaveManager.cpp.  The trigonometric functions are arguments. *)

From stdpp Require Import base strings gmap option list.
From S2P Require Import Prelude Float32 Random GameData Modifiers Entity World.

(** ** MonsterFactory *)

(** Idle monsters of the pool, which has no limit on allocations; one is reset when it
    is taken.  [mp_rng] is the generator of [ChaserAI::Reset]. *)
Record MonsterPool := mkPool { mp_idle : list Monster; mp_rng : FastRandom }.

Definition pop_monster (pool : MonsterPool) : Monster * MonsterPool :=
  match mp_idle pool with
  | m :: idle => let '(m, rng) := Monster_Reset m (mp_rng pool) in (m, mkPool idle rng)
  | [] => (Monster_new, pool)
  end.

Definition CreateAI (t : MonsterAIType) (speed : float) : AIBehavior :=
  match t with
  | CHASER => ChaserAI_new speed
  | WANDER => WanderAI_new speed
  | SWARM => SwarmAI_new speed
  | BOSS => BossAI
  end.

Definition CreateMonster (D : DataManager) (monsterTypeId : Z) (x y : float) (hpOverride : Z) (pool : MonsterPool) (w : ObjectManager) :
  option Monster * MonsterPool * ObjectManager :=
  match GetMonsterInfo D monsterTypeId with
  | None => (None, pool, w)
  | Some t =>
      let finalHp := if 0 <? hpOverride then hpOverride else mi_hp t in
      let '(m, pool) := pop_monster pool in
      let '(id, w) := GenerateId w in
      let m := Monster_Initialize id monsterTypeId finalHp (mi_radius t) (mi_damageOnContact t) (mi_attackCooldown t) (mi_speed t) m in
      let m := with_obj (fun o => SetPos x y (SetVelocity f0 f0 o)) m in
      (Some (SetAI (Some (CreateAI (mi_aiType t) (mi_speed t))) m), pool, w)
  end.

(** [SpawnBatch]: [rng] is that function's generator; the monsters are not yet in the
    room. *)
Fixpoint SpawnBatch (D : DataManager) (monsterTypeId : Z) (count : nat) (minX maxX minY maxY : float) (rng : FastRandom)
  (pool : MonsterPool) (w : ObjectManager) : list Monster * FastRandom * MonsterPool * ObjectManager :=
  match count with
  | O => ([], rng, pool, w)
  | S count =>
      let '(x, rng) := NextFloat_range minX maxX rng in
      let '(y, rng) := NextFloat_range minY maxY rng in
      let '(m, pool, w) := CreateMonster D monsterTypeId x y 0 pool w in
      let '(ms, rng, pool, w) := SpawnBatch D monsterTypeId count minX maxX minY maxY rng pool w in
      (option_list m ++ ms, rng, pool, w)
  end.

(** ** WaveManager *)

Definition MAX_MONSTERS_PER_ROOM : Z := 500.
Definition CLUSTER_RADIUS : float := f_of_Z 20.
Definition MIN_SPAWN_DIST : float := f_of_Z 30.
Definition MAX_SPAWN_DIST : float := f_of_Z 35.
Definition PI_LIT : float := flit 314159 100000.

Inductive WaveState := NotStarted | InProgress | Completed.

Record PeriodicSpawner := mkSpawner {
  sp_monsterTypeId : Z;
  sp_batchCount : Z;
  sp_hpMultiplier : float;
  sp_interval : float;
  sp_timer : float;
  sp_remainingDuration : float
}.

Record WaveManager := mkWaveMgr {
  wm_state : WaveState;
  _currentTime : float;
  wm_waves : list WaveInfo;
  _currentWaveIndex : nat;
  _nextSpawnTime : float;
  _activeSpawners : list PeriodicSpawner
}.

Record PlayerCluster := mkCluster { pc_players : list GameObject; centerX : float; centerY : float }.

(** What the manager works on: the room's objects, the monster pool, the generator of
    the spawn positions, the broadcasts it makes, and the monsters it added (of which
    [env_objs] has the base part). *)
Inductive WaveEvent := WaveNotify (index : Z) (duration : float) | SpawnObject (id typeId : Z) (x y : float) (hp maxHp : Z).

Record SpawnEnv := mkEnv {
  env_objs : ObjectManager;
  env_pool : MonsterPool;
  env_rng : FastRandom;
  env_events : list WaveEvent;
  env_spawned : list Monster
}.

Definition WaveManager_new : WaveManager := mkWaveMgr NotStarted f0 [] 0 f0 [].

Definition Wave_Start (D : DataManager) (m : WaveManager) : WaveManager :=
  mkWaveMgr InProgress f0 (GetWaves D) 0 f0 (_activeSpawners m).

Definition Wave_Reset (D : DataManager) (m : WaveManager) : WaveManager := mkWaveMgr NotStarted f0 (GetWaves D) 0 f0 [].

Definition IsAllWavesComplete (m : WaveManager) : bool := match wm_state m with Completed => true | _ => false end.

Definition StartSpawner (wave : WaveInfo) (index : nat) (spawners : list PeriodicSpawner) (env : SpawnEnv) :
  list PeriodicSpawner * SpawnEnv :=
  (spawners ++ [mkSpawner (wv_monsterTypeId wave) (wv_count wave) (wv_hpMultiplier wave) (wv_interval wave) f0 (wv_duration wave)],
   mkEnv (env_objs env) (env_pool env) (env_rng env)
     (env_events env ++ [WaveNotify (Z.of_nat index + 1) (wv_duration wave)]) (env_spawned env)).

(** The loop that starts the waves that are due: structural on the waves not yet
    started. *)
Fixpoint start_waves (now : float) (todo : list WaveInfo) (index : nat) (spawners : list PeriodicSpawner) (env : SpawnEnv) :
  nat * list PeriodicSpawner * SpawnEnv :=
  match todo with
  | [] => (index, spawners, env)
  | wave :: todo =>
      if (wv_startTime wave <=? now)%F then
        let '(spawners, env) := StartSpawner wave index spawners env in start_waves now todo (S index) spawners env
      else (index, spawners, env)
  end.

Definition near_cluster (p : GameObject) (c : PlayerCluster) : bool :=
  existsb (fun e => let dx := (_x p - _x e)%F in let dy := (_y p - _y e)%F in
                    (dx * dx + dy * dy <=? CLUSTER_RADIUS * CLUSTER_RADIUS)%F) (pc_players c).

(** The first cluster near the player takes it in; otherwise it founds one. *)
Fixpoint add_to_cluster (p : GameObject) (cs : list PlayerCluster) : list PlayerCluster :=
  match cs with
  | [] => [mkCluster [p] f0 f0]
  | c :: cs => if near_cluster p c then mkCluster (pc_players c ++ [p]) (centerX c) (centerY c) :: cs else c :: add_to_cluster p cs
  end.

Definition finalize_center (c : PlayerCluster) : PlayerCluster :=
  let n := f_of_Z (Z.of_nat (length (pc_players c))) in
  let sx := foldl (fun s p => s + _x p)%F f0 (pc_players c) in
  let sy := foldl (fun s p => s + _y p)%F f0 (pc_players c) in
  mkCluster (pc_players c) (sx / n)%F (sy / n)%F.

Definition live_player (o : GameObject) : bool := bool_decide (_type o = PLAYER) && negb (IsDead o).

Definition BuildClusters `{IterationOrder} (w : ObjectManager) : list PlayerCluster :=
  map finalize_center (foldl (fun cs p => add_to_cluster p cs) [] (filter (fun o => live_player o) (GetAllObjects w))).

Section Spawning.
Context `{IterationOrder} (D : DataManager) (atan2 : float -> float -> float) (cos sin : float -> float).

(** One step of the search for the widest gap between two angles. *)
Definition gap_step (angles : list float) (acc : float * float) (i : nat) : float * float :=
  let '(maxGap, bestAngle) := acc in
  let a1 := nth i angles f0 in
  let a2 := nth (S i mod length angles) angles f0 in
  let diff := (a2 - a1)%F in
  let diff := if (diff <? f0)%F then (diff + f_of_Z 2 * PI_LIT)%F else diff in
  if (maxGap <? diff)%F then (diff, (a1 + diff * flit 1 2)%F) else acc.

Definition GetAngularGapSpawnPos (c : PlayerCluster) (rng : FastRandom) : float * float * FastRandom :=
  let dist p := let dx := (_x p - centerX c)%F in let dy := (_y p - centerY c)%F in fsqrt (dx * dx + dy * dy)%F in
  let maxPlayerDist := foldl (fun m p => fmax m (dist p)) f0 (pc_players c) in
  let spawnRadius := fmin (maxPlayerDist + MIN_SPAWN_DIST)%F MAX_SPAWN_DIST in
  let '(spawnAngle, rng) :=
    if (length (pc_players c) <=? 1)%nat then NextFloat_range f0 (f_of_Z 2 * PI_LIT)%F rng
    else
      let angles := std_sort (fun a b => a <? b)%F (map (fun p => atan2 (_y p - centerY c)%F (_x p - centerX c)%F) (pc_players c)) in
      (snd (foldl (gap_step angles) (f0, nth 0 angles f0) (seq 0 (length angles))), rng) in
  let '(jitterAngle, rng) := NextFloat_range (flit (-8) 10) (flit 8 10) rng in
  let finalAngle := (spawnAngle + jitterAngle)%F in
  let '(jitterDist, rng) := NextFloat_range f0 (f_of_Z 5) rng in
  let finalRadius := (spawnRadius + jitterDist)%F in
  ((centerX c + cos finalAngle * finalRadius)%F, (centerY c + sin finalAngle * finalRadius)%F, rng).

Definition SpawnMonster (monsterTypeId : Z) (hpMultiplier x y : float) (env : SpawnEnv) : SpawnEnv :=
  if MAX_MONSTERS_PER_ROOM <=? GetAliveMonsterCount (env_objs env) then env
  else
    let finalHp := match GetMonsterInfo D monsterTypeId with
                   | Some t => cast_i32 (f_of_Z (mi_hp t) * hpMultiplier)%F
                   | None => 0 end in
    let '(m, pool, w) := CreateMonster D monsterTypeId x y finalHp (env_pool env) (env_objs env) in
    match m with
    | None => mkEnv w pool (env_rng env) (env_events env) (env_spawned env)
    | Some m =>
        let o := m_obj m in
        mkEnv (AddObject o w) pool (env_rng env)
          (env_events env ++ [SpawnObject (_id o) monsterTypeId x y (_hp o) (_maxHp o)]) (env_spawned env ++ [m])
    end.

(** [n] monsters around a cluster. *)
Fixpoint spawn_around (n : nat) (typeId : Z) (hpMult : float) (c : PlayerCluster) (env : SpawnEnv) : SpawnEnv :=
  match n with
  | O => env
  | S n =>
      let '(x, y, rng) := GetAngularGapSpawnPos c (env_rng env) in
      let env := mkEnv (env_objs env) (env_pool env) rng (env_events env) (env_spawned env) in
      spawn_around n typeId hpMult c (SpawnMonster typeId hpMult x y env)
  end.

(** The share of one cluster. *)
Definition cluster_share (players totalPlayers actualBatch remainingBatch : Z) : Z :=
  let n := cast_i32 (f_of_Z players / f_of_Z totalPlayers * f_of_Z actualBatch)%F in
  let n := if (n =? 0) && (0 <? remainingBatch) then 1 else n in
  if remainingBatch <? n then remainingBatch else n.

Fixpoint distribute (cs : list PlayerCluster) (typeId : Z) (hpMult : float) (totalPlayers actualBatch remainingBatch : Z) (env : SpawnEnv) : SpawnEnv :=
  match cs with
  | [] => env
  | c :: cs =>
      if remainingBatch <=? 0 then env
      else
        let n := cluster_share (Z.of_nat (length (pc_players c))) totalPlayers actualBatch remainingBatch in
        let env := spawn_around (Z.to_nat n) typeId hpMult c env in
        distribute cs typeId hpMult totalPlayers actualBatch (remainingBatch - n) env
  end.

Definition with_timers (timer remaining : float) (s : PeriodicSpawner) : PeriodicSpawner :=
  mkSpawner (sp_monsterTypeId s) (sp_batchCount s) (sp_hpMultiplier s) (sp_interval s) timer remaining.

(** One active spawner: the spawner afterwards, unless it is erased. *)
Definition update_spawner (dt : float) (cs : list PlayerCluster) (totalPlayers : Z) (s : PeriodicSpawner) (env : SpawnEnv) :
  option PeriodicSpawner * SpawnEnv :=
  let timer := (sp_timer s - dt)%F in
  let remaining := (sp_remainingDuration s - dt)%F in
  let finish timer env := (if (remaining <=? f0)%F then None else Some (with_timers timer remaining s), env) in
  if (timer <=? f0)%F then
    let count := GetAliveMonsterCount (env_objs env) in
    if MAX_MONSTERS_PER_ROOM <=? count then (Some (with_timers (sp_interval s) remaining s), env)
    else
      let env :=
        if 0 <? totalPlayers then
          let actualBatch := Z.min (sp_batchCount s) (MAX_MONSTERS_PER_ROOM - count) in
          distribute cs (sp_monsterTypeId s) (sp_hpMultiplier s) totalPlayers actualBatch actualBatch env
        else env in
      finish (sp_interval s) env
  else finish timer env.

Fixpoint update_spawners (dt : float) (cs : list PlayerCluster) (totalPlayers : Z) (l : list PeriodicSpawner) (env : SpawnEnv) :
  list PeriodicSpawner * SpawnEnv :=
  match l with
  | [] => ([], env)
  | s :: l =>
      let '(s', env) := update_spawner dt cs totalPlayers s env in
      let '(l', env) := update_spawners dt cs totalPlayers l env in
      (option_list s' ++ l', env)
  end.

Definition Wave_Update (dt : float) (m : WaveManager) (env : SpawnEnv) : WaveManager * SpawnEnv :=
  let now := (_currentTime m + dt)%F in
  let '(index, spawners, env) := start_waves now (drop (_currentWaveIndex m) (wm_waves m)) (_currentWaveIndex m) (_activeSpawners m) env in
  let cs := BuildClusters (env_objs env) in
  let totalPlayers := foldl (fun n c => i32 (n + Z.of_nat (length (pc_players c)))) 0 cs in
  let '(spawners, env) := update_spawners dt cs totalPlayers spawners env in
  let state :=
    match wm_state m, spawners with
    | InProgress, [] => if (length (wm_waves m) <=? index)%nat then Completed else InProgress
    | s, _ => s
    end in
  (mkWaveMgr state now (wm_waves m) index (_nextSpawnTime m) spawners, env).

(** [DebugSpawn]; [rng'] is that function's own generator. *)
Fixpoint debug_spawn (count : nat) (typeId : Z) (cs : list PlayerCluster) (rng' : FastRandom) (env : SpawnEnv) : option SpawnEnv :=
  match count with
  | O => Some env
  | S count =>
      match cs with
      | [] => debug_spawn count typeId cs rng' (SpawnMonster typeId f1 f0 f0 env)
      | _ =>
          '(i, rng') ← NextInt 0 (Z.of_nat (length cs) - 1) rng';
          c ← cs !! Z.to_nat i;
          debug_spawn count typeId cs rng' (spawn_around 1 typeId f1 c env)
      end
  end.

Definition DebugSpawn (typeId count : Z) (rng' : FastRandom) (env : SpawnEnv) : option SpawnEnv :=
  debug_spawn (Z.to_nat count) typeId (BuildClusters (env_objs env)) rng' env.

End Spawning.

(** ** The cap *)

Section Cap.
Context `{IterationOrder} (D : DataManager) (atan2 : float -> float -> float) (cos sin : float -> float).

(** [base] stays fixed: ids are generated exactly for monsters. *)
Record env_ok (base : Z) (env : SpawnEnv) : Prop := mk_env_ok {
  eo_world : world_inv (env_objs env);
  eo_pool : Forall (fun m => _type (m_obj m) = MONSTER) (mp_idle (env_pool env));
  eo_cap : GetAliveMonsterCount (env_objs env) <= MAX_MONSTERS_PER_ROOM;
  eo_base : _nextId (env_objs env) - GetAliveMonsterCount (env_objs env) = base
}.

Lemma pop_monster_type pool m pool' :
  pop_monster pool = (m, pool') -> Forall (fun m => _type (m_obj m) = MONSTER) (mp_idle pool) ->
  _type (m_obj m) = MONSTER /\ Forall (fun m => _type (m_obj m) = MONSTER) (mp_idle pool').
Proof.
  intros E Hp. destruct pool as [[|m0 pool0] rng]; cbn in E, Hp; simplify_eq; [done|]. unfold Monster_Reset in E.
  destruct (match _ai m0 with Some _ => _ | None => _ end). simplify_eq. by apply Forall_cons in Hp.
Qed.

Lemma SpawnMonster_ok base typeId hpMult x y env :
  base < 2 ^ 31 - 502 -> env_ok base env -> env_ok base (SpawnMonster D typeId hpMult x y env).
Proof.
  intros Hb [Hw Hp Hc He]. unfold SpawnMonster. destruct (_ <=? _) eqn:El; [done|]. bool_to_prop.
  unfold CreateMonster. destruct (GetMonsterInfo D typeId) as [t|]; [|done].
  destruct (pop_monster (env_pool env)) as [m pool] eqn:Em. destruct (pop_monster_type _ _ _ Em Hp) as [Hm Hpool].
  cbv zeta. unfold GenerateId. cbv iota zeta beta.
  match goal with |- env_ok _ (mkEnv (AddObject ?o ?w) _ _ _ _) => set (obj := o); set (w' := w) end.
  assert (_type obj = MONSTER) as Ht by exact Hm.
  assert (AddObject obj w' = world_exec (WSpawn obj) (env_objs env)) as -> by reflexivity.
  pose proof (wi_next _ Hw). unfold GetAliveMonsterCount, MAX_MONSTERS_PER_ROOM in *.
  pose proof (world_exec_inv (WSpawn obj) _ Hw ltac:(cbn; lia)) as Hw'.
  assert (_aliveMonsterCount (world_exec (WSpawn obj) (env_objs env)) = _aliveMonsterCount (env_objs env) + 1) as Ec.
  { assert (0 <= _aliveMonsterCount (env_objs env)) by (rewrite (wi_count _ Hw); unfold monsters_in; lia).
    clearbody obj. cbn. unfold is_monster. cbn. rewrite Ht, bool_decide_eq_true_2 by done. apply swrap_small; lia. }
  clearbody obj.
  constructor; cbn [env_objs env_pool]; [done|done| |].
  - unfold GetAliveMonsterCount, MAX_MONSTERS_PER_ROOM. lia.
  - unfold GetAliveMonsterCount. rewrite Ec. cbn [world_exec GenerateId AddObject _nextId]. rewrite swrap_small by lia. lia.
Qed.

Lemma env_ok_rng base env rng events spawned :
  env_ok base env -> env_ok base (mkEnv (env_objs env) (env_pool env) rng events spawned).
Proof. by intros [? ? ? ?]. Qed.

Lemma spawn_around_ok base n typeId hpMult c env :
  base < 2 ^ 31 - 502 -> env_ok base env -> env_ok base (spawn_around D atan2 cos sin n typeId hpMult c env).
Proof.
  intros Hb. revert env; induction n as [|n IH]; intros env He; [done|]. cbn [spawn_around].
  destruct (GetAngularGapSpawnPos _ _ _ c _) as [[x y] rng]. by apply IH, SpawnMonster_ok, env_ok_rng.
Qed.

Lemma distribute_ok base cs typeId hpMult total actual remaining env :
  base < 2 ^ 31 - 502 -> env_ok base env -> env_ok base (distribute D atan2 cos sin cs typeId hpMult total actual remaining env).
Proof.
  intros Hb. revert remaining env; induction cs as [|c cs IH]; intros remaining env He; [done|]. cbn [distribute].
  destruct (_ <=? 0); [done|]. by apply IH, spawn_around_ok.
Qed.

Lemma update_spawner_ok base dt cs total s env :
  base < 2 ^ 31 - 502 -> env_ok base env -> env_ok base (update_spawner D atan2 cos sin dt cs total s env).2.
Proof.
  intros Hb He. unfold update_spawner. destruct (_ <=? f0)%F; [|done]. destruct (_ <=? _); [done|]. cbn [snd].
  destruct (0 <? total); [by apply distribute_ok|done].
Qed.

Lemma update_spawners_ok base dt cs total l env :
  base < 2 ^ 31 - 502 -> env_ok base env -> env_ok base (update_spawners D atan2 cos sin dt cs total l env).2.
Proof.
  intros Hb. revert env; induction l as [|s l IH]; intros env He; [done|]. cbn [update_spawners].
  pose proof (update_spawner_ok base dt cs total s env Hb He) as H1. destruct (update_spawner _ _ _ _ _ _ _ s env) as [s' env1].
  specialize (IH env1 H1). by destruct (update_spawners _ _ _ _ _ _ _ l env1).
Qed.

Lemma start_waves_objs now todo index spawners env :
  let env' := (start_waves now todo index spawners env).2 in
  env_objs env' = env_objs env /\ env_pool env' = env_pool env.
Proof.
  revert index spawners env; induction todo as [|wave todo IH]; intros index spawners env; [done|]. cbn [start_waves].
  destruct (_ <=? _)%F; [|done]. cbn [StartSpawner].
  match goal with |- context [start_waves now todo (S index) ?sp ?e] => exact (IH (S index) sp e) end.
Qed.

(** C39: spawning respects the population limit: in a room whose counter is exact, one
    update of the waves, however many waves start and batches fall due in it, leaves at
    most 500 monsters in the room, if there were at most 500 before, and keeps the
    counter exact. *)
Theorem monster_cap_respected dt m env :
  world_inv (env_objs env) -> Forall (fun m => _type (m_obj m) = MONSTER) (mp_idle (env_pool env)) ->
  monsters_in (_objects (env_objs env)) <= MAX_MONSTERS_PER_ROOM -> _nextId (env_objs env) < 2 ^ 31 - 502 ->
  let env' := (Wave_Update D atan2 cos sin dt m env).2 in
  monsters_in (_objects (env_objs env')) <= MAX_MONSTERS_PER_ROOM /\ world_inv (env_objs env').
Proof.
  intros Hw Hp Hc Hn. cbv zeta.
  assert (0 <= _aliveMonsterCount (env_objs env)) as Hpos by (rewrite (wi_count _ Hw); unfold monsters_in; lia).
  assert (env_ok (_nextId (env_objs env) - _aliveMonsterCount (env_objs env)) env) as He.
  { constructor; [done|done| |done]. unfold GetAliveMonsterCount. by rewrite (wi_count _ Hw). }
  assert (_nextId (env_objs env) - _aliveMonsterCount (env_objs env) < 2 ^ 31 - 502) as Hbase by lia.
  enough (env_ok (_nextId (env_objs env) - _aliveMonsterCount (env_objs env)) (Wave_Update D atan2 cos sin dt m env).2) as [Hw' _ Hc' _].
  { split; [|done]. by rewrite <- (wi_count _ Hw'). }
  unfold Wave_Update. destruct (start_waves_objs (_currentTime m + dt)%F (drop (_currentWaveIndex m) (wm_waves m)) (_currentWaveIndex m) (_activeSpawners m) env) as [Eo Ep].
  destruct (start_waves _ _ _ _ env) as [[index spawners] env1]. cbn in Eo, Ep.
  assert (env_ok (_nextId (env_objs env) - _aliveMonsterCount (env_objs env)) env1) as He1.
  { destruct He as [? ? ? ?]. constructor; rewrite ?Eo, ?Ep; done. }
  cbv zeta. match goal with |- context [update_spawners _ _ _ _ _ ?cs ?t _ _] =>
    pose proof (update_spawners_ok _ dt cs t spawners env1 Hbase He1) as H2; destruct (update_spawners D atan2 cos sin dt cs t spawners env1) end.
  exact H2.
Qed.

End Cap.

(** ** Waves in order *)

Definition is_notify (e : WaveEvent) : bool := match e with WaveNotify _ _ => true | _ => false end.

Definition notifies (env : SpawnEnv) : list WaveEvent := filter (fun e => is_notify e) (env_events env).

(** The notices of the waves [i], [i + 1], ... *)
Definition wave_notices (i : nat) (ws : list WaveInfo) : list WaveEvent :=
  imap (fun k w => WaveNotify (Z.of_nat (i + k) + 1) (wv_duration w)) ws.

Lemma start_waves_spec now todo i spawners env :
  let '(j, spawners', env') := start_waves now todo i spawners env in
  exists n, j = (i + n)%nat /\ (n <= length todo)%nat /\
    Forall (fun w => (wv_startTime w <=? now)%F = true) (take n todo) /\
    (forall w, todo !! n = Some w -> (wv_startTime w <=? now)%F = false) /\
    notifies env' = notifies env ++ wave_notices i (take n todo).
Proof.
  revert i spawners env; induction todo as [|wave todo IH]; intros i spawners env; cbn [start_waves].
  { exists O. cbn. rewrite app_nil_r, Nat.add_0_r. done. }
  destruct (_ <=? _)%F eqn:E.
  - cbn [StartSpawner].
    match goal with |- context [start_waves now todo (S i) ?sp ?e] => pose proof (IH (S i) sp e) as IHs; destruct (start_waves now todo (S i) sp e) as [[j sp'] env'] end.
    destruct IHs as (n & -> & Hn & Hd & Hnext & Ev). exists (S n). cbn [take length]. split_and!; [lia|lia|by constructor|done|].
    rewrite Ev. unfold notifies at 1. cbn [env_events]. rewrite filter_app, <- app_assoc. f_equal.
    unfold wave_notices. cbn [imap]. rewrite filter_cons_True by done. rewrite filter_nil. cbn [app]. f_equal; [f_equal; lia|].
    apply imap_ext. intros k w _. cbn. f_equal. lia.
  - exists O. cbn. rewrite app_nil_r, Nat.add_0_r. split_and!; [done|lia|done| |done]. intros w [= <-]. done.
Qed.

Section Order.
Context `{IterationOrder} (D : DataManager) (atan2 : float -> float -> float) (cos sin : float -> float).

Lemma SpawnMonster_notifies typeId hpMult x y env : notifies (SpawnMonster D typeId hpMult x y env) = notifies env.
Proof.
  unfold SpawnMonster. destruct (_ <=? _); [done|]. destruct (CreateMonster _ _ _ _ _ _ _) as [[[m|] pool] w]; [|done].
  unfold notifies. cbn [env_events]. by rewrite filter_app, filter_cons_False, filter_nil, app_nil_r by (by intros ?).
Qed.

Lemma spawn_around_notifies n typeId hpMult c env : notifies (spawn_around D atan2 cos sin n typeId hpMult c env) = notifies env.
Proof.
  revert env; induction n as [|n IH]; intros env; [done|]. cbn [spawn_around].
  destruct (GetAngularGapSpawnPos _ _ _ c _) as [[x y] rng]. by rewrite IH, SpawnMonster_notifies.
Qed.

Lemma distribute_notifies cs typeId hpMult total actual remaining env :
  notifies (distribute D atan2 cos sin cs typeId hpMult total actual remaining env) = notifies env.
Proof.
  revert remaining env; induction cs as [|c cs IH]; intros remaining env; [done|]. cbn [distribute].
  destruct (_ <=? 0); [done|]. by rewrite IH, spawn_around_notifies.
Qed.

Lemma update_spawners_notifies dt cs total l env :
  notifies (update_spawners D atan2 cos sin dt cs total l env).2 = notifies env.
Proof.
  revert env; induction l as [|s l IH]; intros env; [done|]. cbn [update_spawners].
  assert (notifies (update_spawner D atan2 cos sin dt cs total s env).2 = notifies env) as H1.
  { unfold update_spawner. destruct (_ <=? f0)%F; [|done]. destruct (_ <=? _); [done|]. cbn [snd].
    destruct (0 <? total); [apply distribute_notifies|done]. }
  destruct (update_spawner _ _ _ _ _ _ _ s env) as [s' env1]. specialize (IH env1).
  destruct (update_spawners _ _ _ _ _ _ _ l env1). cbn in *. congruence.
Qed.

(** Waves start when they are due, in order and once: an update starts exactly the
    longest run of waves, from the first not yet started, whose start time has come,
    announces each of them once with its number, and leaves the manager completed
    exactly when it was completed before or it was in progress and no wave and no
    spawner is left. *)
Theorem waves_start_in_order dt m env :
  (_currentWaveIndex m <= length (wm_waves m))%nat ->
  let '(m', env') := Wave_Update D atan2 cos sin dt m env in
  let i := _currentWaveIndex m in
  let n := (_currentWaveIndex m' - i)%nat in
  let now := (_currentTime m + dt)%F in
  (i <= _currentWaveIndex m' <= length (wm_waves m))%nat /\ wm_waves m' = wm_waves m /\
  Forall (fun w => (wv_startTime w <=? now)%F = true) (take n (drop i (wm_waves m))) /\
  (forall w, wm_waves m !! _currentWaveIndex m' = Some w -> (wv_startTime w <=? now)%F = false) /\
  notifies env' = notifies env ++ wave_notices i (take n (drop i (wm_waves m))) /\
  (wm_state m' = Completed <->
     wm_state m = Completed \/
     wm_state m = InProgress /\ _currentWaveIndex m' = length (wm_waves m) /\ _activeSpawners m' = []).
Proof.
  intros Hi. unfold Wave_Update. pose proof (start_waves_spec (_currentTime m + dt)%F (drop (_currentWaveIndex m) (wm_waves m)) (_currentWaveIndex m) (_activeSpawners m) env) as Hs.
  destruct (start_waves _ _ _ _ env) as [[j spawners] env1]. destruct Hs as (n & -> & Hn & Hd & Hnext & Ev).
  rewrite length_drop in Hn. cbv zeta.
  match goal with |- context [update_spawners _ _ _ _ _ ?cs ?t _ _] =>
    pose proof (update_spawners_notifies dt cs t spawners env1) as H2; destruct (update_spawners D atan2 cos sin dt cs t spawners env1) as [sp' env2] end.
  cbn [fst snd _currentWaveIndex wm_waves wm_state _activeSpawners] in *.
  replace (_currentWaveIndex m + n - _currentWaveIndex m)%nat with n by lia.
  split_and!; [lia|lia|done|done| |by rewrite H2|].
  - intros w Hw. apply Hnext. by rewrite lookup_drop.
  - destruct (wm_state m), sp'; try (clear; intuition discriminate). destruct (_ <=? _)%nat eqn:E.
    + apply Nat.leb_le in E. split; [|done]. intros _. right. split_and!; [done|lia|done].
    + apply Nat.leb_gt in E. split; [done|]. intros [?|(_ & ? & _)]; [done|lia].
Qed.

End Order.

(** ** A first wave *)

Definition demo_waves : DataManager :=
  mkDataManager {[1 := mkMonsterInfo 1 "Bat"%string 20 (f_of_Z 2) (flit 1 2) 10 f1 CHASER]} ∅ ∅
    [mkWaveInfo 1 f0 (f_of_Z 10) 1 3 f1 f1; mkWaveInfo 2 (f_of_Z 60) (f_of_Z 10) 1 5 f1 f1] ∅ ∅.
Definition demo_env : SpawnEnv := mkEnv (AddObject (GameObject_new 1 PLAYER) ObjectManager_new) (mkPool [] FastRandom_new) FastRandom_new [] [].
Definition demo_mgr : WaveManager := Wave_Start demo_waves WaveManager_new.
Definition demo_update : WaveManager * SpawnEnv :=
  Wave_Update (H := any_order) demo_waves (fun _ _ => f0) (fun _ => f1) (fun _ => f0) (flit 1 25) demo_mgr demo_env.

Lemma monster_cap_respected_witness :
  monsters_in (_objects (env_objs demo_update.2)) = 3 /\ monsters_in (_objects (env_objs demo_update.2)) <= MAX_MONSTERS_PER_ROOM.
Proof.
  split; [vm_compute; reflexivity|].
  apply (monster_cap_respected (H := any_order) demo_waves (fun _ _ => f0) (fun _ => f1) (fun _ => f0) (flit 1 25) demo_mgr demo_env).
  - apply (world_exec_inv (WEnter (GameObject_new 1 PLAYER)) _ world_inv_new). split; [reflexivity|cbn; lia].
  - constructor.
  - vm_compute. discriminate.
  - vm_compute. reflexivity.
Defined.

Lemma waves_start_in_order_witness :
  notifies demo_update.2 = [WaveNotify 1 (f_of_Z 10)] /\ _currentWaveIndex demo_update.1 = 1%nat.
Proof.
  pose proof (waves_start_in_order (H := any_order) demo_waves (fun _ _ => f0) (fun _ => f1) (fun _ => f0) (flit 1 25) demo_mgr demo_env
                ltac:(cbn; lia)) as E.
  change (Wave_Update _ _ _ _ _ _ _) with demo_update in E.
  assert (_currentWaveIndex demo_update.1 = 1%nat) as Ei by (vm_compute; reflexivity).
  destruct demo_update as [m' env']. cbv zeta in E. destruct E as (_ & _ & _ & _ & E & _). cbn [fst snd] in *. rewrite Ei in E.
  split; [exact E|exact Ei].
Defined.
