(* ===== verification/Effects.v ===== *)
(** * Effects: status effects on the objects of a room

    Models src/Examples/VampireSurvivor/Server/Game/Effect/StatusEffect.h,
    EffectManager.h and EffectManager.cpp: one list of effects per object, ticked
    and cleaned up once per frame.  The manager reaches its room through
    [DamageRoom], an object's [TakeDamage] by the object's id. *)

From stdpp Require Import base gmap option list.
From S2P Require Import Prelude Float32 GameData.

(** ** Data *)

Inductive EffectType := POISON | BURN | SLOW | SPEED_BOOST | ATTACK_UP | DEFENSE_DOWN.

#[global] Instance EffectType_eq_dec : EqDecision EffectType.
Proof. solve_decision. Defined.

Record StatusEffect := mkEffect {
  ef_type : EffectType;
  ef_sourceId : Z;
  ef_endTime : float;
  ef_tickInterval : float;
  ef_lastTickTime : float;
  ef_value : float
}.

Definition IsExpired (currentTime : float) (e : StatusEffect) : bool := (ef_endTime e <=? currentTime)%F.

Definition NeedsTick (currentTime : float) (e : StatusEffect) : bool :=
  (f0 <? ef_tickInterval e)%F && (ef_tickInterval e <=? currentTime - ef_lastTickTime e)%F.

Definition set_lastTickTime (t : float) (e : StatusEffect) : StatusEffect :=
  mkEffect (ef_type e) (ef_sourceId e) (ef_endTime e) (ef_tickInterval e) t (ef_value e).

(** objectId to active effects; a key may have an empty list. *)
Abbreviation EffectManager := (gmap Z (list StatusEffect)).

(** ** Operations *)

(** The loop over the effects of one object: the first of the same type is replaced
    when the new one ends later; [None] when there is none of that type. *)
Fixpoint refresh (effect : StatusEffect) (effects : list StatusEffect) : option (list StatusEffect) :=
  match effects with
  | [] => None
  | existing :: rest =>
      if bool_decide (ef_type existing = ef_type effect)
      then Some ((if (ef_endTime existing <? ef_endTime effect)%F then effect else existing) :: rest)
      else cons existing <$> refresh effect rest
  end.

Definition ApplyEffect (targetId : Z) (effect : StatusEffect) (em : EffectManager) : EffectManager :=
  let effects := default [] (em !! targetId) in
  <[targetId := default (effects ++ [effect]) (refresh effect effects)]> em.

Definition RemoveEffect (targetId : Z) (type : EffectType) (em : EffectManager) : EffectManager :=
  match em !! targetId with
  | Some effects => <[targetId := filter (fun e => ef_type e ≠ type) effects]> em
  | None => em
  end.

Definition ClearEffects (targetId : Z) (em : EffectManager) : EffectManager := delete targetId em.

Definition fold_effects (select : EffectType -> bool) (targetId : Z) (em : EffectManager) : float :=
  match em !! targetId with
  | None => f1
  | Some effects => foldl (fun m e => if select (ef_type e) then (m * ef_value e)%F else m) f1 effects
  end.

Definition GetSpeedMultiplier : Z -> EffectManager -> float :=
  fold_effects (fun t => match t with SLOW | SPEED_BOOST => true | _ => false end).

Definition GetAttackMultiplier : Z -> EffectManager -> float :=
  fold_effects (fun t => match t with ATTACK_UP => true | _ => false end).

Definition HasEffect (targetId : Z) (type : EffectType) (em : EffectManager) : bool :=
  match em !! targetId with
  | None => false
  | Some effects => existsb (fun e => bool_decide (ef_type e = type)) effects
  end.

Definition CleanupExpired (currentTime : float) (em : EffectManager) : EffectManager :=
  let em := (fun effects => filter (fun e => IsExpired currentTime e = false) effects) <$> em in
  filter (fun kv => kv.2 ≠ []) em.

(** What the manager uses of its room.  No [TakeDamage] of the game touches the
    effects. *)
Class DamageRoom (R : Type) := {
  room_has : Z -> R -> bool;               (* GetObject(id) is not null *)
  room_damage : Z -> Z -> R -> R           (* GetObject(id)->TakeDamage(damage, room) *)
}.

Section Update.
Context `{IterationOrder} {R : Type} `{DamageRoom R}.

Definition ProcessDotDamage (targetId : Z) (effect : StatusEffect) (room : option R) : option R :=
  match room with
  | None => None
  | Some r => if room_has targetId r then Some (room_damage targetId (cast_i32 (ef_value effect)) r) else Some r
  end.

(** [for (size_t i = 0; i < effects.size(); ++i)]; [None] when the fuel runs out. *)
Fixpoint tick_loop (fuel i : nat) (targetId : Z) (now : float) (em : EffectManager) (room : option R) :
  option (EffectManager * option R) :=
  let effects := default [] (em !! targetId) in
  match effects !! i with
  | None => Some (em, room)
  | Some currentEffect =>
      match fuel with
      | O => None
      | S fuel =>
          if NeedsTick now currentEffect then
            let room := ProcessDotDamage targetId currentEffect room in
            match em !! targetId with
            | None => Some (em, room)
            | Some currentEffects =>
                tick_loop fuel (S i) targetId now (<[targetId := alter (set_lastTickTime now) i currentEffects]> em) room
            end
          else tick_loop fuel (S i) targetId now em room
      end
  end.

Definition tick_target (now : float) (s : option (EffectManager * option R)) (targetId : Z) : option (EffectManager * option R) :=
  '(em, room) ← s;
  match em !! targetId with
  | None => Some (em, room)
  | Some effects => tick_loop (length effects) 0 targetId now em room
  end.

Definition Effect_Update (currentTime : float) (em : EffectManager) (room : option R) : option (EffectManager * option R) :=
  let targets := (iter_order em).*1 in
  '(em, room) ← foldl (tick_target currentTime) (Some (em, room)) targets;
  Some (CleanupExpired currentTime em, room).

(** ** The reference: what one frame does

    Every effect that is due deals its damage once, objects in the order of the map
    and effects in the order of their list, and is stamped; what has expired goes, and
    so do objects left without effects. *)

Definition stamp (now : float) (e : StatusEffect) : StatusEffect :=
  if NeedsTick now e then set_lastTickTime now e else e.

Definition stamp_all (now : float) (effects : list StatusEffect) : list StatusEffect := stamp now <$> effects.

Definition deal (now : float) (targetId : Z) (room : option R) (effects : list StatusEffect) : option R :=
  foldl (fun room e => if NeedsTick now e then ProcessDotDamage targetId e room else room) room effects.

Definition frame_effects (now : float) (em : EffectManager) : EffectManager := CleanupExpired now (stamp_all now <$> em).

Definition frame_damage (now : float) (em : EffectManager) (room : option R) : option R :=
  foldl (fun room kv => deal now kv.1 room kv.2) room (iter_order em).

Lemma tick_loop_spec now targetId fuel : forall i em room done_ todo,
  em !! targetId = Some (done_ ++ todo) -> length done_ = i -> fuel = length todo ->
  tick_loop fuel i targetId now em room =
    Some (<[targetId := done_ ++ (stamp now <$> todo)]> em, deal now targetId room todo).
Proof.
  induction fuel as [|fuel IH]; intros i em room done_ todo Hem Hi Hf; destruct todo as [|e todo]; try discriminate Hf.
  - cbn. rewrite Hem. cbn. rewrite lookup_ge_None_2 by (rewrite length_app; cbn; lia).
    by rewrite insert_id.
  - cbn [tick_loop]. rewrite Hem. cbn [from_option]. unfold id.
    rewrite lookup_app_r, Hi, Nat.sub_diag by lia. cbn [lookup list_lookup].
    cbn in Hf. injection Hf as Hf. cbn [deal foldl fmap list_fmap]. unfold stamp at 1.
    destruct (NeedsTick now e).
    + rewrite alter_app_r_alt, Hi, Nat.sub_diag by lia. cbn [alter list_alter].
      rewrite (IH (S i) _ _ (done_ ++ [set_lastTickTime now e]) todo); [|by rewrite lookup_insert_eq, <- app_assoc|rewrite length_app; cbn; lia|done].
      by rewrite insert_insert_eq, <- app_assoc.
    + rewrite (IH (S i) _ _ (done_ ++ [e]) todo); [|by rewrite <- app_assoc|rewrite length_app; cbn; lia|done].
      by rewrite <- app_assoc.
Qed.

Lemma tick_targets_spec now : forall todo em room,
  NoDup todo.*1 -> (forall k l, (k, l) ∈ todo -> em !! k = Some l) ->
  exists em', foldl (tick_target now) (Some (em, room)) todo.*1 =
      Some (em', foldl (fun room kv => deal now kv.1 room kv.2) room todo) /\
    (forall k, em' !! k = if bool_decide (k ∈ todo.*1) then stamp_all now <$> em !! k else em !! k).
Proof.
  induction todo as [|[k l] todo IH]; intros em room Hnd Hem.
  - exists em. split; [done|]. intros k. by case_bool_decide; [set_solver|].
  - cbn [fmap list_fmap] in Hnd. apply NoDup_cons in Hnd as [Hk Hnd]. cbn [fmap list_fmap foldl fst snd].
    assert (em !! k = Some l) as Ekl by (apply Hem; left). cbn [tick_target mbind option_bind]. rewrite Ekl.
    rewrite (tick_loop_spec now k (length l) 0 em room [] l) by done. cbn [app].
    destruct (IH (<[k := stamp now <$> l]> em) (deal now k room l)) as (em' & -> & Hl'); [done| |].
    { intros k' l' Hin. rewrite lookup_insert_ne; [apply Hem; by right|]. intros ->. apply Hk.
      apply list_elem_of_fmap. by exists (k', l'). }
    exists em'. split; [done|]. intros k'. rewrite Hl'. destruct (decide (k' = k)) as [->|Hne].
    + rewrite (bool_decide_false _ Hk), (bool_decide_true (k ∈ _)) by left. by rewrite lookup_insert_eq, Ekl.
    + rewrite lookup_insert_ne by done.
      by rewrite (bool_decide_ext (k' ∈ k :: todo.*1) (k' ∈ todo.*1)) by set_solver.
Qed.

Lemma CleanupExpired_lookup now em k l :
  CleanupExpired now em !! k = Some l <->
  exists l0, em !! k = Some l0 /\ l = filter (fun e => IsExpired now e = false) l0 /\ l <> [].
Proof.
  unfold CleanupExpired. rewrite map_lookup_filter_Some, lookup_fmap, fmap_Some. cbn. naive_solver.
Qed.

Lemma Effect_Update_frame now em (room : option R) :
  Effect_Update now em room = Some (frame_effects now em, frame_damage now em room).
Proof.
  unfold Effect_Update, frame_effects, frame_damage.
  destruct (tick_targets_spec now (iter_order em) em room) as (em' & -> & Hl);
    [apply NoDup_iter_keys|intros k l Hkl; by apply elem_of_iter_order|].
  cbn [mbind option_bind]. do 2 f_equal. f_equal. apply map_eq. intros k. rewrite Hl, lookup_fmap.
  destruct (em !! k) as [l|] eqn:E; [|by case_bool_decide].
  rewrite bool_decide_true; [done|]. apply list_elem_of_fmap. exists (k, l). split; [done|]. by apply elem_of_iter_order.
Qed.

(** C36: one frame of the effect manager ([EffectManager::Update], with its snapshot
    of the keys, its index loop and its checks after each damage) always finishes and
    is the declarative frame: every effect that is due damages its object exactly
    once, in order, and has its tick time set to now, no other effect is touched, then
    exactly the expired effects go and no object is left with an empty list. *)
Theorem effect_frame_exact now em (room : option R) :
  exists em', Effect_Update now em room = Some (em', frame_damage now em room) /\
    (forall t l, em' !! t = Some l <->
       exists l0, em !! t = Some l0 /\ l = filter (fun e => IsExpired now e = false) (stamp_all now l0) /\ l <> []).
Proof.
  exists (frame_effects now em). split; [apply Effect_Update_frame|]. intros t l. unfold frame_effects.
  rewrite CleanupExpired_lookup. setoid_rewrite lookup_fmap. setoid_rewrite fmap_Some. naive_solver.
Qed.

End Update.

(** ** Well-formedness *)

(** At most one effect of a type on an object. *)
Definition effects_wf (em : EffectManager) : Prop := map_Forall (fun _ l => NoDup (ef_type <$> l)) em.

Lemma refresh_types e l l' : refresh e l = Some l' -> ef_type <$> l' = ef_type <$> l.
Proof.
  revert l'. induction l as [|x l IH]; intros l'; cbn [refresh]; [discriminate|]. case_bool_decide as Ht.
  - intros [= <-]. cbn. by destruct (_ <? _)%F; [rewrite Ht|].
  - destruct (refresh e l) as [l1|]; [|discriminate]. intros [= <-]. cbn. by rewrite (IH l1).
Qed.

Lemma refresh_None e l : refresh e l = None -> ef_type e ∉ ef_type <$> l.
Proof.
  induction l as [|x l IH]; cbn [refresh]; [set_solver|]. case_bool_decide as Ht; [discriminate|].
  destruct (refresh e l); [discriminate|]. intros _. cbn. specialize (IH eq_refl). set_solver.
Qed.

Lemma ApplyEffect_wf k e em : effects_wf em -> effects_wf (ApplyEffect k e em).
Proof.
  intros Hem. apply map_Forall_insert_2; [|done].
  assert (NoDup (ef_type <$> default [] (em !! k))) as Hnd.
  { destruct (em !! k) as [l|] eqn:E; [by apply (Hem k)|constructor]. }
  destruct (refresh e _) as [l'|] eqn:E; cbn.
  - by rewrite (refresh_types _ _ _ E).
  - rewrite fmap_app. apply NoDup_app. repeat split; [done| |apply NoDup_singleton].
    intros t Ht Hin. apply list_elem_of_singleton in Hin. cbn in Hin. subst t. by apply refresh_None in E.
Qed.

Lemma NoDup_types_filter (P : StatusEffect -> Prop) `{!forall x, Decision (P x)} l :
  NoDup (ef_type <$> l) -> NoDup (ef_type <$> filter P l).
Proof. intros Hl. refine (sublist_NoDup _ _ Hl _). apply fmap_sublist, sublist_filter. Qed.

Lemma stamp_types now l : ef_type <$> stamp_all now l = ef_type <$> l.
Proof. unfold stamp_all. rewrite <- list_fmap_compose. apply list_fmap_ext. intros i x _. unfold stamp; cbn. by destruct (NeedsTick _ _). Qed.


Inductive EffectOp :=
| EApply (targetId : Z) (effect : StatusEffect)
| ERemove (targetId : Z) (type : EffectType)
| EClear (targetId : Z)
| EUpdate (now : float).

Definition effect_exec (em : EffectManager) (op : EffectOp) : EffectManager :=
  match op with
  | EApply t e => ApplyEffect t e em
  | ERemove t ty => RemoveEffect t ty em
  | EClear t => ClearEffects t em
  | EUpdate now => frame_effects now em
  end.

Lemma frame_effects_wf now em : effects_wf em -> effects_wf (frame_effects now em).
Proof.
  intros Hem k l (l0 & Hl0 & -> & _)%CleanupExpired_lookup. rewrite lookup_fmap, fmap_Some in Hl0.
  destruct Hl0 as (l1 & Hl1 & ->). apply NoDup_types_filter. rewrite stamp_types. by apply (Hem k).
Qed.

Lemma effect_exec_wf em op : effects_wf em -> effects_wf (effect_exec em op).
Proof.
  intros Hem. destruct op as [t e|t ty|t|now]; cbn [effect_exec].
  - by apply ApplyEffect_wf.
  - unfold RemoveEffect. destruct (em !! t) as [l|] eqn:E; [|done].
    apply map_Forall_insert_2; [|done]. apply NoDup_types_filter. by apply (Hem t).
  - by apply map_Forall_delete.
  - by apply frame_effects_wf.
Qed.

Lemma effects_run_wf ops em : effects_wf em -> effects_wf (foldl effect_exec em ops).
Proof. revert em. induction ops as [|op ops IH]; intros em Hem; [done|]. by apply IH, effect_exec_wf. Qed.

(** The effect of a type on an object. *)
Definition effect_of (t : Z) (ty : EffectType) (em : EffectManager) : option StatusEffect :=
  l ← em !! t; head (filter (fun e => ef_type e = ty) l).

Lemma refresh_head e l l' ty :
  refresh e l = Some l' -> head (filter (fun x => ef_type x = ty) l') =
    if bool_decide (ty = ef_type e)
    then (fun x => if (ef_endTime x <? ef_endTime e)%F then e else x) <$> head (filter (fun x => ef_type x = ty) l)
    else head (filter (fun x => ef_type x = ty) l).
Proof.
  revert l'. induction l as [|x l IH]; intros l'; cbn [refresh]; [discriminate|].
  destruct (bool_decide (ef_type x = ef_type e)) eqn:Ht; [apply bool_decide_eq_true in Ht|apply bool_decide_eq_false in Ht].
  - intros [= <-]. rewrite !filter_cons. destruct (bool_decide (ty = ef_type e)) eqn:Hty;
      [apply bool_decide_eq_true in Hty|apply bool_decide_eq_false in Hty].
    + rewrite (decide_True (P := ef_type x = ty)) by congruence. cbn. by destruct (_ <? _)%F; rewrite decide_True by congruence.
    + rewrite (decide_False (P := ef_type x = ty)) by congruence. by destruct (_ <? _)%F; rewrite decide_False by congruence.
  - destruct (refresh e l) as [l1|]; [|discriminate]. intros [= <-]. rewrite !filter_cons.
    destruct (decide (ef_type x = ty)) as [<-|]; [by rewrite bool_decide_false|by apply IH].
Qed.

Lemma refresh_found e l l' : refresh e l = Some l' -> exists x, x ∈ l /\ ef_type x = ef_type e.
Proof.
  revert l'. induction l as [|x l IH]; intros l'; cbn [refresh]; [discriminate|].
  case_bool_decide as Ht; [intros _; exists x; split; [left|done]|].
  destruct (refresh e l) as [l1|]; [|discriminate]. intros _. destruct (IH l1 eq_refl) as (y & ? & ?).
  exists y. split; [by right|done].
Qed.

Lemma ApplyEffect_effect_of t e em t' ty :
  effect_of t' ty (ApplyEffect t e em) =
  if bool_decide (t' = t /\ ty = ef_type e)
  then Some (match effect_of t ty em with
             | Some x => if (ef_endTime x <? ef_endTime e)%F then e else x
             | None => e end)
  else effect_of t' ty em.
Proof.
  unfold effect_of, ApplyEffect. destruct (decide (t' = t)) as [->|Hne].
  2:{ rewrite lookup_insert_ne, bool_decide_false by naive_solver. done. }
  rewrite lookup_insert_eq. cbn [mbind option_bind].
  assert (forall X : option (list StatusEffect), (l ← X; head (filter (fun x => ef_type x = ty) l)) =
            head (filter (fun x => ef_type x = ty) (default [] X))) as -> by (by intros [|]).
  set (l := default [] (em !! t)). destruct (refresh e l) as [l'|] eqn:E; cbn [default from_option id].
  - rewrite (refresh_head _ _ _ _ E). destruct (decide (ty = ef_type e)) as [->|Hty].
    + rewrite !bool_decide_true by done. destruct (head _) as [x|] eqn:Eh; [done|].
      destruct (refresh_found _ _ _ E) as (x & Hx & Hxt). apply head_None in Eh.
      assert (x ∈ filter (fun x => ef_type x = ef_type e) l) as Hin by (by apply list_elem_of_filter). rewrite Eh in Hin. set_solver.
    + by rewrite !bool_decide_false by naive_solver.
  - apply refresh_None in E. rewrite filter_app. destruct (decide (ty = ef_type e)) as [->|Hty].
    + rewrite bool_decide_true by done. assert (filter (fun x => ef_type x = ef_type e) l = []) as ->.
      { apply elem_of_nil_inv. intros x [Hxt Hx]%list_elem_of_filter. apply E, list_elem_of_fmap. eauto. }
      by rewrite filter_cons, decide_True.
    + rewrite bool_decide_false by naive_solver. rewrite (filter_cons _ e), decide_False by done. by rewrite filter_nil, app_nil_r.
Qed.

Lemma NoDup_types_length l : NoDup (ef_type <$> l) -> (length l <= 6)%nat.
Proof.
  intros Hnd. rewrite <- (length_fmap ef_type).
  apply (submseteq_length (ef_type <$> l) [POISON; BURN; SLOW; SPEED_BOOST; ATTACK_UP; DEFENSE_DOWN]).
  apply NoDup_submseteq; [done|]. intros [] _; set_solver.
Qed.

(** Whatever is applied, removed, cleared and updated, an object has at most one
    effect of a type, so at most six; after an update none is expired and no list is
    empty; and applying an effect leaves exactly the one of its type that ends later,
    the older one on a tie, and touches no other type and no other object. *)
Theorem effects_unique_per_type ops :
  let em := foldl effect_exec ∅ ops in
  (forall t l, em !! t = Some l -> NoDup (ef_type <$> l) /\ (length l <= 6)%nat) /\
  (forall now t l, effect_exec em (EUpdate now) !! t = Some l ->
     l <> [] /\ Forall (fun e => IsExpired now e = false) l) /\
  (forall t e t' ty, effect_of t' ty (ApplyEffect t e em) =
     if bool_decide (t' = t /\ ty = ef_type e)
     then Some (match effect_of t ty em with
                | Some x => if (ef_endTime x <? ef_endTime e)%F then e else x
                | None => e end)
     else effect_of t' ty em).
Proof.
  intros em. assert (effects_wf em) as Hem by (apply effects_run_wf, map_Forall_empty). repeat split.
  - by apply (Hem t).
  - by apply NoDup_types_length, (Hem t).
  - intros ->. cbn in *. by apply CleanupExpired_lookup in H as (? & ? & ? & ?).
  - cbn in *. apply CleanupExpired_lookup in H as (l0 & _ & -> & _). apply Forall_forall.
    by intros e [? _]%list_elem_of_filter.
  - intros t e t' ty. apply ApplyEffect_effect_of.
Qed.

(** ** Damage over time under repeated hits *)

(** The effect a hit of a poisonous projectile applies at time [now]
    (CombatManager.cpp). *)
Definition dot_of_hit (ty : EffectType) (source : Z) (duration interval value now : float) : StatusEffect :=
  mkEffect ty source (now + duration)%F (if (f0 <? interval)%F then interval else flit 1 2) now value.

Section Starvation.
Context `{IterationOrder} {R : Type} `{DamageRoom R}.
Context (targetId : Z) (ty : EffectType) (source : Z) (duration interval value : float).

Let dot := dot_of_hit ty source duration interval value.

(** One frame at time [now]: the effects are updated, then the object may be hit. *)
Definition hit_frame (s : option (EffectManager * option R)) (frame : float * bool) : option (EffectManager * option R) :=
  '(em, room) ← s;
  '(em, room) ← Effect_Update frame.1 em room;
  Some (if frame.2 then ApplyEffect targetId (dot frame.1) em else em, room).

(** No frame is a whole interval after the last hit. *)
Fixpoint hits_keep_coming (last : float) (frames : list (float * bool)) : bool :=
  match frames with
  | [] => true
  | (now, hit) :: frames =>
      negb (ef_tickInterval (dot last) <=? now - last)%F &&
      (negb hit || (ef_endTime (dot last) <? ef_endTime (dot now))%F) &&
      hits_keep_coming (if hit then now else last) frames
  end.

Lemma iter_order_singleton {A} (k : Z) (v : A) : iter_order {[k := v]} = [(k, v)].
Proof. apply Permutation_singleton_r. by rewrite iter_order_perm, map_to_list_singleton. Qed.

Lemma iter_order_empty {A} : iter_order (∅ : gmap Z A) = [].
Proof. apply Permutation_nil_r. by rewrite iter_order_perm, map_to_list_empty. Qed.

Lemma frame_singleton now last (room : option R) :
  (ef_tickInterval (dot last) <=? now - last)%F = false ->
  frame_damage now {[targetId := [dot last]]} room = room /\
  (frame_effects now {[targetId := [dot last]]} = ∅ \/ frame_effects now {[targetId := [dot last]]} = {[targetId := [dot last]]}).
Proof.
  intros Hn. assert (NeedsTick now (dot last) = false) as Ht.
  { unfold NeedsTick. change (ef_lastTickTime (dot last)) with last. rewrite Hn. apply andb_false_r. }
  split.
  - unfold frame_damage. rewrite iter_order_singleton. cbn [foldl fst snd deal]. by rewrite Ht.
  - unfold frame_effects. rewrite map_fmap_singleton. unfold stamp_all; cbn [fmap list_fmap]. unfold stamp. rewrite Ht.
    unfold CleanupExpired. rewrite map_fmap_singleton, filter_cons. destruct (decide _); cbn [fmap].
    + right. by rewrite map_filter_singleton_True.
    + left. by rewrite map_filter_singleton_False by (cbn; naive_solver).
Qed.

(** An object that is hit again by a damage-over-time projectile before each
    tick interval is over never takes that damage, however long it is hit: a hit
    replaces the running effect together with the time of its last tick. *)
Theorem reapplied_dot_never_ticks last frames (room : option R) :
  hits_keep_coming last frames = true ->
  exists em, foldl hit_frame (Some (ApplyEffect targetId (dot last) ∅, room)) frames = Some (em, room).
Proof.
  change (ApplyEffect targetId (dot last) ∅) with (<[targetId := [dot last]]> (∅ : EffectManager)).
  rewrite insert_empty.
  assert (forall em, (em = ∅ \/ em = {[targetId := [dot last]]}) -> hits_keep_coming last frames = true ->
    exists em', foldl hit_frame (Some (em, room)) frames = Some (em', room)) as Hgen; [|by apply Hgen; right].
  revert last. induction frames as [|[now hit] frames IH]; intros last em Hem; [by exists em|].
  cbn [hits_keep_coming foldl]. intros [[Hn Hl]%andb_true_iff Hrest]%andb_true_iff. apply negb_true_iff in Hn.
  assert (exists em1, Effect_Update now em room = Some (em1, room) /\ (em1 = ∅ \/ em1 = {[targetId := [dot last]]})) as (em1 & Hup & Hem1).
  { rewrite Effect_Update_frame. destruct Hem as [->| ->].
    - exists ∅. split; [|by left]. unfold frame_damage. rewrite iter_order_empty. done.
    - destruct (frame_singleton now last room Hn) as [-> Hc]. by eexists. }
  cbn [hit_frame mbind option_bind fst snd]. rewrite Hup. destruct hit; [|by apply (IH last)].
  apply (IH now); [|done]. right. cbn [negb orb] in Hl. unfold ApplyEffect.
  destruct Hem1 as [->| ->]; [done|]. rewrite lookup_singleton_eq. cbn [default from_option id refresh].
  rewrite bool_decide_true by done. rewrite Hl. cbn. by rewrite insert_singleton_eq.
Qed.

End Starvation.

(** A room that records the damage done. *)
Record DamageLog := mkDamageLog { dl_ids : list Z; dl_log : list (Z * Z) }.

#[global] Instance DamageLog_room : DamageRoom DamageLog := {|
  room_has := fun id r => bool_decide (id ∈ dl_ids r);
  room_damage := fun id d r => mkDamageLog (dl_ids r) (dl_log r ++ [(id, d)])
|}.

(** A hit every quarter of a second, two frames per hit, ticks every half second. *)
Definition volley (n : nat) : list (float * bool) :=
  map (fun i => (flit (Z.of_nat i) 8, Nat.even i)) (seq 1 n).

Lemma reapplied_dot_never_ticks_witness :
  hits_keep_coming POISON 7 (f_of_Z 3) (flit 1 2) (f_of_Z 5) f0 (volley 40) = true /\
  (exists em, foldl (hit_frame (H := any_order) 1001 POISON 7 (f_of_Z 3) (flit 1 2) (f_of_Z 5))
     (Some (ApplyEffect 1001 (dot_of_hit POISON 7 (f_of_Z 3) (flit 1 2) (f_of_Z 5) f0) ∅, Some (mkDamageLog [1001] []))) (volley 40)
     = Some (em, Some (mkDamageLog [1001] []))).
Proof.
  assert (hits_keep_coming POISON 7 (f_of_Z 3) (flit 1 2) (f_of_Z 5) f0 (volley 40) = true) as Hv by (vm_compute; reflexivity).
  split; [exact Hv|].
  exact (reapplied_dot_never_ticks (H := any_order) 1001 POISON 7 (f_of_Z 3) (flit 1 2) (f_of_Z 5) f0 (volley 40)
           (Some (mkDamageLog [1001] [])) Hv).
Defined.

(** Hit once, the same object takes the damage six times. *)
Lemma single_hit_ticks : exists em,
  foldl (hit_frame (H := any_order) 1001 POISON 7 (f_of_Z 3) (flit 1 2) (f_of_Z 5))
    (Some (ApplyEffect 1001 (dot_of_hit POISON 7 (f_of_Z 3) (flit 1 2) (f_of_Z 5) f0) ∅, Some (mkDamageLog [1001] [])))
    (map (fun f => (f.1, false)) (volley 40))
  = Some (em, Some (mkDamageLog [1001] (replicate 6 (1001, 5)))) /\ em = ∅.
Proof. eexists. split; [vm_compute; reflexivity|vm_compute; reflexivity]. Qed.
