(* ===== verification/TileMap.v ===== *)
(** * TileMap: walls, swept movement, physics of a frame

    Models src/Examples/VampireSurvivor/Server/Game/TileMap.h, TileMap.cpp,
    [LoadMapData] and [GetMap] of Core/DataManager.cpp, and [UpdatePhysics] of
    Game/Room_Update.cpp, which moves each object on its own. *)

From Stdlib Require Import SpecFloat.
From stdpp Require Import base strings gmap option list.
From S2P Require Import Prelude Float32 GameData Entity World.

Record TileLayer := mkLayer { tl_name : string; tl_data : list Z; tl_visible : bool }.

Record TileMap := mkTileMap {
  _width : Z;
  _height : Z;
  _tileWidth : Z;
  _tileHeight : Z;
  _layers : list TileLayer;
  _collisionLayer : option TileLayer
}.

Record SweepResult := mkSweep {
  sw_hit : bool; sw_time : float; sw_hitX : float; sw_hitY : float; sw_normalX : float; sw_normalY : float
}.

Definition FLIP_MASK : Z := 0x1FFFFFFF.
Definition FLT_HIGHEST : float := S754_finite false 16777215 104.
Definition FLT_LOWEST : float := S754_finite true 16777215 104.

(** ** Loading *)

Section Load.
Context `{Json} (value_bool : json -> string -> bool -> option bool).
Local Open Scope string_scope.

Definition load_layer (l : json) : option (option TileLayer) :=
  type ← value_string l "type" EmptyString;
  if bool_decide (type = "tilelayer") then
    name ← value_string l "name" EmptyString;
    visible ← value_bool l "visible" true;
    data ← (if contains l "data" then
              js ← field l "data"; if is_array js then mapM (fun g => z ← get_int g; Some (u32 z)) (elements js) else Some []
            else Some []);
    Some (Some (mkLayer name data visible))
  else Some None.

Definition is_collision (l : TileLayer) : bool := bool_decide (tl_name l = "Collision") || bool_decide (tl_name l = "collision").

(** [None]: the file cannot be read, or an exception; the caller drops the map. *)
Definition LoadFromJson (file : option json) : option TileMap :=
  j ← file;
  w ← value_int j "width" 0; h ← value_int j "height" 0;
  tw ← value_int j "tilewidth" 0; th ← value_int j "tileheight" 0;
  layers ← (if contains j "layers" then
              js ← field j "layers"; if is_array js then mapM load_layer (elements js) else Some []
            else Some []);
  let layers := omap id layers in
  Some (mkTileMap w h tw th layers (head (filter is_collision layers))).

Definition LoadMapData (mapId : Z) (file : option json) (maps : gmap Z TileMap) : bool * gmap Z TileMap :=
  match LoadFromJson file with
  | None => (false, maps)
  | Some m => (true, <[mapId := m]> maps)
  end.

Definition GetMap (mapId : Z) (maps : gmap Z TileMap) : option TileMap := maps !! mapId.

End Load.

(** ** Queries *)

Definition GetTileX (m : TileMap) (worldX : float) : option Z := floor_int (worldX / f_of_Z (_tileWidth m))%F.
Definition GetTileY (m : TileMap) (worldY : float) : option Z := floor_int (worldY / f_of_Z (_tileHeight m))%F.

Definition IsWalkable (m : TileMap) (tx ty : Z) : bool :=
  if (tx <? 0) || (_width m <=? tx) || (ty <? 0) || (_height m <=? ty) then false
  else match _collisionLayer m with
       | None => true
       | Some layer =>
           let index := i32 (i32 (ty * _width m) + tx) in
           if index <? 0 then false
           else match tl_data layer !! Z.to_nat index with
                | None => false
                | Some gid => Z.land gid FLIP_MASK =? 0
                end
       end.

Definition Slide (dx dy normalX normalY : float) : float * float :=
  let dot := (dx * normalX + dy * normalY)%F in
  if (dot <? f0)%F then ((dx - dot * normalX)%F, (dy - dot * normalY)%F) else (dx, dy).

(** ** The swept test *)

Definition feq0 (x : float) : bool := (x =? f0)%F.

Section Sweep.
Context (m : TileMap) (x0 y0 dx dy radius : float).

(** The tile's box, grown by the radius: left, right, top, bottom. *)
Definition expanded (tx ty : Z) : float * float * float * float :=
  let tileLeft := f_of_Z (i32 (tx * _tileWidth m)) in
  let tileTop := f_of_Z (i32 (ty * _tileHeight m)) in
  let tileRight := (tileLeft + f_of_Z (_tileWidth m))%F in
  let tileBottom := (tileTop + f_of_Z (_tileHeight m))%F in
  ((tileLeft - radius)%F, (tileRight + radius)%F, (tileTop - radius)%F, (tileBottom + radius)%F).

(** When the path is between two parallel sides: nearer and farther time. *)
Definition slab (lo hi p d : float) : float * float :=
  let inv := if feq0 d then f0 else (f1 / d)%F in
  let '(tNear, tFar) := if feq0 d then (FLT_LOWEST, FLT_HIGHEST) else (((lo - p) * inv)%F, ((hi - p) * inv)%F) in
  if (tFar <? tNear)%F then (tFar, tNear) else (tNear, tFar).

Definition away (d : float) : float := if (f0 <? d)%F then (- f1)%F else f1.
Definition towards (d : float) : float := if (f0 <? d)%F then f1 else (- f1)%F.

(** The collision with one tile: the time, whether the start is inside already, and
    the normal. *)
Definition tile_hit (tx ty : Z) : option (float * bool * (float * float)) :=
  let '(eLeft, eRight, eTop, eBottom) := expanded tx ty in
  let '(tNearX, tFarX) := slab eLeft eRight x0 dx in
  let '(tNearY, tFarY) := slab eTop eBottom y0 dy in
  if feq0 dx && ((x0 <? eLeft)%F || (eRight <? x0)%F) then None
  else if feq0 dy && ((y0 <? eTop)%F || (eBottom <? y0)%F) then None
  else
    let tEnter := fmax tNearX tNearY in
    let tExit := fmin tFarX tFarY in
    if (tEnter <=? tExit)%F && (f0 <=? tEnter)%F && (tEnter <=? f1)%F then
      Some (tEnter, false, if (tNearY <? tNearX)%F then (away dx, f0) else (f0, away dy))
    else if (tEnter <? f0)%F && (f0 <=? tExit)%F then
      let px := (x0 - (eLeft + eRight) * flit 1 2)%F in
      let py := (y0 - (eTop + eBottom) * flit 1 2)%F in
      Some (f0, true, if (SFabs py <? SFabs px)%F then (towards px, f0) else (f0, towards py))
    else None.

(** The body of the loops: the earliest time so far and its normal, once there is a
    collision. *)
Definition sweep_tile (s : float * option (float * float)) (tile : Z * Z) : float * option (float * float) :=
  let '(tMin, _) := s in
  if IsWalkable m tile.1 tile.2 then s
  else match tile_hit tile.1 tile.2 with
       | None => s
       | Some (t, inside, n) => if inside || (t <? tMin)%F then (t, Some n) else s
       end.

(** The tiles of the path's bounding box that are on the map, row by row. *)
Definition sweep_range : option (list (Z * Z)) :=
  let x1 := (x0 + dx)%F in
  let y1 := (y0 + dy)%F in
  lx ← GetTileX m (fmin x0 x1 - radius)%F;
  hx ← GetTileX m (fmax x0 x1 + radius)%F;
  ly ← GetTileY m (fmin y0 y1 - radius)%F;
  hy ← GetTileY m (fmax y0 y1 + radius)%F;
  let minTx := Z.max 0 lx in
  let maxTx := Z.min (_width m - 1) hx in
  let minTy := Z.max 0 ly in
  let maxTy := Z.min (_height m - 1) hy in
  Some (flat_map (fun ty => map (fun tx => (tx, ty)) (seqZ minTx (maxTx - minTx + 1))) (seqZ minTy (maxTy - minTy + 1))).

(** [None] where a conversion to a tile index is undefined. *)
Definition SweepTest : option SweepResult :=
  if feq0 dx && feq0 dy then Some (mkSweep false f1 (x0 + dx)%F (y0 + dy)%F f0 f0)
  else
    tiles ← sweep_range;
    let '(tMin, normal) := foldl sweep_tile (f1, None) tiles in
    match normal with
    | Some (nX, nY) => Some (mkSweep true tMin (x0 + dx * tMin)%F (y0 + dy * tMin)%F nX nY)
    | None => Some (mkSweep false f1 (x0 + dx)%F (y0 + dy)%F f0 f0)
    end.

End Sweep.

(** ** Physics *)

Definition physics_radius (o : GameObject) : float :=
  match _type o with MONSTER => _radius o | PLAYER => f_of_Z 15 | _ => f_of_Z 5 end.

(** The turn of [UpdatePhysics] for one object. *)
Definition move_object (map : option TileMap) (dt : float) (o : GameObject) : option GameObject :=
  if IsDead o then Some o
  else
    let moveX := (_vx o * dt)%F in
    let moveY := (_vy o * dt)%F in
    if feq0 moveX && feq0 moveY then Some o
    else
      match map with
      | None => Some (SetPos (_x o + moveX)%F (_y o + moveY)%F o)
      | Some m =>
          sweep ← SweepTest m (_x o) (_y o) moveX moveY (physics_radius o);
          if sw_hit sweep then
            let remainingX := (moveX * (f1 - sw_time sweep))%F in
            let remainingY := (moveY * (f1 - sw_time sweep))%F in
            let '(rx, ry) := Slide remainingX remainingY (sw_normalX sweep) (sw_normalY sweep) in
            Some (SetPos (sw_hitX sweep + rx)%F (sw_hitY sweep + ry)%F o)
          else Some (SetPos (_x o + moveX)%F (_y o + moveY)%F o)
      end.

Definition UpdatePhysics (map : option TileMap) (dt : float) (objects : list GameObject) : option (list GameObject) :=
  mapM (move_object map dt) objects.

(** ** The sweep finds the first wall *)

Section First.
Context (m : TileMap) (x0 y0 dx dy radius : float).

Let hit := tile_hit m x0 y0 dx dy radius.

(** A wall tile among [tiles] is hit at time [t] with normal [n]. *)
Definition wall_hit (tiles : list (Z * Z)) (t : float) (n : float * float) : Prop :=
  exists tile inside, tile ∈ tiles /\ IsWalkable m tile.1 tile.2 = false /\ hit tile.1 tile.2 = Some (t, inside, n).

Lemma tile_hit_time tx ty t i n : hit tx ty = Some (t, i, n) ->
  (f0 <=? t)%F = true /\ (t <=? f1)%F = true /\ (i = true -> t = f0) /\
  (n = (f1, f0) \/ n = ((- f1)%F, f0) \/ n = (f0, f1) \/ n = (f0, (- f1)%F)).
Proof.
  unfold hit, tile_hit. destruct (expanded m radius tx ty) as [[[el er] et] eb].
  destruct (slab el er x0 dx) as [nx fx], (slab et eb y0 dy) as [ny fy].
  destruct (feq0 dx && _); [discriminate|]. destruct (feq0 dy && _); [discriminate|].
  destruct ((fmax nx ny <=? _)%F && _ && _) eqn:E1.
  - apply andb_true_iff in E1 as [[_ E1]%andb_true_iff E2]. intros [= <- <- <-]. repeat split; try done.
    unfold away. destruct (ny <? nx)%F, (f0 <? dx)%F, (f0 <? dy)%F; auto.
  - destruct ((fmax nx ny <? f0)%F && _); [|discriminate]. intros [= <- <- <-]. repeat split; try done.
    unfold towards. destruct (SFabs _ <? SFabs _)%F; destruct (f0 <? _)%F; auto.
Qed.

(** The earliest wall hit among [tiles], or none before the end of the path. *)
Definition first_wall (tiles : list (Z * Z)) (s : float * option (float * float)) : Prop :=
  (match s.2 with None => s.1 = f1 | Some n => wall_hit tiles s.1 n end) /\
  (forall t n, wall_hit tiles t n -> (t <? s.1)%F = false).

Lemma sweep_tile_ok seen s tile :
  first_wall seen s -> first_wall (seen ++ [tile]) (sweep_tile m x0 y0 dx dy radius s tile).
Proof.
  destruct s as [tMin best]. intros [Hs Hall]. cbn [fst snd] in *.
  assert (forall t n, wall_hit (seen ++ [tile]) t n -> wall_hit seen t n \/
    (IsWalkable m tile.1 tile.2 = false /\ exists i, hit tile.1 tile.2 = Some (t, i, n))) as Hsplit.
  { intros t n (tl & i & [Hin| ->%list_elem_of_singleton]%elem_of_app & Hw & Hh); [left; by exists tl, i|right; eauto]. }
  assert ((forall t i n, IsWalkable m tile.1 tile.2 = false -> hit tile.1 tile.2 = Some (t, i, n) -> (t <? tMin)%F = false) ->
    first_wall (seen ++ [tile]) (tMin, best)) as Hkeep.
  { intros Hk. split; cbn [fst snd].
    - destruct best as [n|]; [|done]. destruct Hs as (tl & i & Hin & Hrest). exists tl, i. split; [apply elem_of_app; by left|done].
    - intros t n [Hold|(Hw & i & Hh)]%Hsplit; [by apply (Hall t n)|by apply (Hk t i n)]. }
  unfold sweep_tile. fold hit. destruct (IsWalkable m tile.1 tile.2) eqn:Ew; [apply Hkeep; intros; congruence|].
  destruct (hit tile.1 tile.2) as [[[t i] n]|] eqn:Eh; [|apply Hkeep; intros; congruence].
  destruct (tile_hit_time _ _ _ _ _ Eh) as (H0 & _ & Hi & _).
  destruct (i || (t <? tMin)%F) eqn:Ei; [|apply Hkeep; intros ? ? ? _ [= <- <- <-]; by apply orb_false_iff in Ei as [_ ?]].
  split; cbn [fst snd].
  - exists tile, i. split; [apply elem_of_app; right; by apply list_elem_of_singleton|done].
  - intros t' n' [Hold|(_ & i' & [= <- <- <-])]%Hsplit; [|apply SFltb_irrefl]. destruct i.
    + rewrite (Hi eq_refl). destruct Hold as (tl & i' & _ & _ & Hh). destruct (tile_hit_time _ _ _ _ _ Hh) as (Hle & _).
      by apply SFleb_ltb.
    + destruct (t' <? t)%F eqn:E; [|done]. rewrite <- (Hall _ _ Hold). symmetry. by eapply SFltb_trans.
Qed.

Lemma sweep_fold tiles : forall seen s,
  first_wall seen s -> first_wall (seen ++ tiles) (foldl (sweep_tile m x0 y0 dx dy radius) s tiles).
Proof.
  induction tiles as [|tile tiles IH]; intros seen s Hs; [by rewrite app_nil_r|].
  cbn [foldl]. rewrite cons_middle, app_assoc. by apply IH, sweep_tile_ok.
Qed.

(** The swept test of a moving circle reports the first wall of the map in its
    way: the reported time is that of a wall tile in the path's range, no wall tile
    in the range is hit earlier, it lies between 0 and 1, the normal is an axis
    direction and the position is the point of the path at that time; without a
    report the whole path is taken and no wall tile in the range is hit before its
    end. *)
Theorem sweep_reports_first_wall tiles res :
  feq0 dx && feq0 dy = false -> sweep_range m x0 y0 dx dy radius = Some tiles -> SweepTest m x0 y0 dx dy radius = Some res ->
  (forall t n, wall_hit tiles t n -> (t <? sw_time res)%F = false) /\
  if sw_hit res
  then wall_hit tiles (sw_time res) (sw_normalX res, sw_normalY res) /\
       (f0 <=? sw_time res)%F = true /\ (sw_time res <=? f1)%F = true /\
       (sw_normalX res, sw_normalY res) ∈ [(f1, f0); ((- f1)%F, f0); (f0, f1); (f0, (- f1)%F)] /\
       sw_hitX res = (x0 + dx * sw_time res)%F /\ sw_hitY res = (y0 + dy * sw_time res)%F
  else sw_time res = f1 /\ sw_hitX res = (x0 + dx)%F /\ sw_hitY res = (y0 + dy)%F.
Proof.
  intros Hz Ht. unfold SweepTest. rewrite Hz, Ht. cbn [mbind option_bind].
  destruct (sweep_fold tiles [] (f1, None)) as [Hs Hall].
  { split; [done|]. intros t n (tl & i & Hin & _). by apply not_elem_of_nil in Hin. }
  cbn [app] in *. destruct (foldl _ _ tiles) as [tMin [[nX nY]|]]; cbn [fst snd] in *; intros [= <-]; cbn.
  - split; [done|]. split; [done|]. destruct Hs as (tl & i & _ & _ & Hh).
    destruct (tile_hit_time _ _ _ _ _ Hh) as (H0 & H1 & _ & Hn). repeat split; try done. set_solver.
  - subst tMin. done.
Qed.

End First.

(** ** A small map: four by four tiles of 32, walls at (2, 1) and (1, 2) *)

Definition demo_map : TileMap :=
  let layer := mkLayer "Collision" (map (fun i => if bool_decide (i = 6%nat \/ i = 9%nat) then 3 else 0) (seq 0 16)) true in
  mkTileMap 4 4 32 32 [layer] (Some layer).

Lemma sweep_reports_first_wall_witness : exists tiles res,
  sweep_range demo_map (f_of_Z 48) (f_of_Z 48) (f_of_Z 30) (f_of_Z 20) (f_of_Z 5) = Some tiles /\
  SweepTest demo_map (f_of_Z 48) (f_of_Z 48) (f_of_Z 30) (f_of_Z 20) (f_of_Z 5) = Some res /\
  sw_hit res = true /\ wall_hit demo_map (f_of_Z 48) (f_of_Z 48) (f_of_Z 30) (f_of_Z 20) (f_of_Z 5) tiles (sw_time res)
    (sw_normalX res, sw_normalY res).
Proof.
  assert (feq0 (f_of_Z 30) && feq0 (f_of_Z 20) = false) as Hz by (vm_compute; reflexivity).
  assert (sw_hit <$> SweepTest demo_map (f_of_Z 48) (f_of_Z 48) (f_of_Z 30) (f_of_Z 20) (f_of_Z 5) = Some true) as Hh by (vm_compute; reflexivity).
  assert (bool_decide (is_Some (sweep_range demo_map (f_of_Z 48) (f_of_Z 48) (f_of_Z 30) (f_of_Z 20) (f_of_Z 5))) = true) as [tiles Ht]%bool_decide_eq_true
    by (vm_compute; reflexivity).
  destruct (SweepTest demo_map (f_of_Z 48) (f_of_Z 48) (f_of_Z 30) (f_of_Z 20) (f_of_Z 5)) as [res|] eqn:Hr; [|discriminate Hh].
  injection Hh as Hh.
  destruct (sweep_reports_first_wall demo_map (f_of_Z 48) (f_of_Z 48) (f_of_Z 30) (f_of_Z 20) (f_of_Z 5) tiles res Hz Ht Hr) as [_ Hw].
  rewrite Hh in Hw. destruct Hw as [Hw _]. exists tiles, res. repeat split; assumption.
Defined.

(** [IsWalkable] calls what lies off the map a wall, but the sweep never looks there:
    an object leaves the map unhindered. *)
Lemma map_border_is_no_wall :
  IsWalkable demo_map 4 0 = false /\
  sw_hit <$> SweepTest demo_map (f_of_Z 112) (f_of_Z 16) (f_of_Z 100) f0 (f_of_Z 5) = Some false.
Proof. split; vm_compute; reflexivity. Qed.

(** After a hit the rest of the movement along the wall is applied without another
    test: in a corner the object ends up inside the second wall. *)
Definition cornered : GameObject := SetVelocity (f_of_Z 30) (f_of_Z 20) (SetPos (f_of_Z 48) (f_of_Z 48) (GameObject_new 1001 ITEM)).

Lemma slides_into_second_wall :
  exists o, move_object (Some demo_map) f1 cornered = Some o /\
    GetTileX demo_map (_x o) = Some 1 /\ GetTileY demo_map (_y o) = Some 2 /\ IsWalkable demo_map 1 2 = false.
Proof. eexists. split; [vm_compute; reflexivity|]. repeat split; vm_compute; reflexivity. Qed.
