(* ===== verification/Room.v ===== *)
(** * Room: players, objects and the game loop of one room

    Models src/Examples/VampireSurvivor/Server/Game/Room.h, Room.cpp and the network
    part of Room_Update.cpp.  A room runs on its strand: every public operation posts
    a task, and the [Execute...] functions run one after the other.

    Players are shared between the room and the room manager, so they live in a heap
    of their own; the base part of every other object is in the room's [ObjectManager],
    the rest of a monster, projectile or gem in [rm_derived].  The timer, the database and the strand
    are in [Env] and in the room's queue as far as the room uses them.  The
    performance counters, which only feed a log line, are left out. *)

From Stdlib Require Import SpecFloat.
From stdpp Require Import base strings gmap option list.
From S2P Require Import Prelude Float32 GameData Modifiers Inventory Entity Player World Projectile Waves Effects.

(** ** Data *)

Record ObjectInfo := mkInfo {
  oi_id : Z; oi_type : ObjectType; oi_typeId : Z; oi_x : float; oi_y : float; oi_hp : Z; oi_maxHp : Z;
  oi_state : ObjectState; oi_vx : float; oi_vy : float; oi_lookLeft : bool
}.

Record ObjectPos := mkPos {
  op_id : Z; op_x : float; op_y : float; op_vx : float; op_vy : float; op_state : ObjectState; op_lookLeft : bool
}.

(** [S_SkillEffect]; a field that is not set is zero. *)
Record SkillEffect := mkSkillEffect {
  se_caster : Z; se_skillId : Z; se_x : float; se_y : float; se_radius : float; se_duration : float;
  se_arcDegrees : float; se_rotation : float; se_width : float; se_height : float
}.

(** The packets the room builds, and those of its players. *)
Inductive RoomPacket :=
| Own (p : Packet)
| S_SpawnObject (tick : Z) (objects : list ObjectInfo)
| S_DespawnObject (ids pickers : list Z)
| S_MoveBatch (tick : Z) (moves : list ObjectPos)
| S_PlayerStateAck (tick clientTick : Z) (x y : float)
| S_GameOver (survivedMs : Z) (isWin : bool)
| S_WaveNotify (index : Z) (duration : float)
| S_DamageEffect (skillId : Z) (targets damages : list Z) (crits : list bool)
| S_SkillEffect (e : SkillEffect).

(** What leaves the room: a packet for a session; the state (its text is left out) or
    the reset message for the visualizer, if there is one. *)
Inductive Out := ToSession (sid : Z) (p : RoomPacket) | ToVisualizer (roomId : Z) (reset : bool).

(** The tasks of the strand; a player is given by its address. *)
Inductive Task :=
| TEnter (player : Z)
| TLoaded (player : Z) (skills : list (Z * Z))
| TReady (sid : Z)
| TLeave (sid : Z)
| TStartGame
| TReset
| TStop
| TGameOver (isWin : bool)
| TUpdate
| TInput (player clientTick dx dy : Z)
| TSelect (player optionIndex : Z)
| TGodMode
| TAddExp (exp : Z)
| TStrategy (name : string)
| TSpawn (typeId count : Z).

(** What an object of the room is beyond its base part: a monster, a player of the
    heap, a projectile or a gem (the base part kept inside is not used). *)
Inductive Derived := IsMonster (m : Monster) | IsPlayer (addr : Z) | IsProjectile (p : Projectile) | IsGem (g : ExpGem).

Record Life := mkLife {
  _gameStarted : bool; _isGameOver : bool; _isStopping : bool; _isUpdating : bool;
  _playerCount : Z; _timerHandle : Z
}.

Record Clock := mkClock { _totalRunTime : float; _serverTick : Z; _debugBroadcastTimer : float }.

Record Room := mkRoom {
  rm_addr : Z;                    (* the object's identity *)
  _roomId : Z;
  _mapId : Z;
  _title : string;
  rm_userDB : bool;               (* a user database was given *)
  rm_players : gmap Z Z;          (* _players: session id to player *)
  rm_life : Life;
  rm_clock : Clock;
  _objMgr : ObjectManager;
  rm_derived : gmap Z Derived;    (* the derived parts of the objects of _objMgr *)
  _grid : SpatialGrid;
  _waveMgr : WaveManager;
  _effectMgr : EffectManager;
  rm_queue : list Task;           (* posted to _strand *)
  rm_out : list Out
}.

(** What the room shares with the rest of the server: the players, the running
    timers (handle to the room they call), the loads the database has not answered. *)
Record Env := mkServerEnv {
  ev_players : gmap Z Player;
  ev_timers : gmap Z Z;
  ev_nextHandle : Z;
  ev_loads : list (Z * Z)
}.

Definition NEAR_GRID_CELL_SIZE : float := f_of_Z 2.
Definition TICK_INTERVAL_SEC : float := (f1 / f_of_Z 25)%F.
Definition DEFAULT_ROOM_ID : Z := 1.
Definition CHUNK_SIZE : nat := 300.
Definition FLT_MAX : float := S754_finite false 16777215 104.

Definition Life_new : Life := mkLife false false false false 0 0.
Definition Clock_new : Clock := mkClock f0 0 f0.

Definition Room_new (addr roomId mapId : Z) (title : string) (userDB : bool) : Room :=
  mkRoom addr roomId mapId title userDB ∅ Life_new Clock_new ObjectManager_new ∅
    (SpatialGrid_new NEAR_GRID_CELL_SIZE) WaveManager_new ∅ [] [].

(** Setters, one per group of fields. *)
Definition set_players (m : gmap Z Z) (r : Room) : Room :=
  mkRoom (rm_addr r) (_roomId r) (_mapId r) (_title r) (rm_userDB r) m (rm_life r) (rm_clock r) (_objMgr r)
    (rm_derived r) (_grid r) (_waveMgr r) (_effectMgr r) (rm_queue r) (rm_out r).

Definition set_life (l : Life) (r : Room) : Room :=
  mkRoom (rm_addr r) (_roomId r) (_mapId r) (_title r) (rm_userDB r) (rm_players r) l (rm_clock r) (_objMgr r)
    (rm_derived r) (_grid r) (_waveMgr r) (_effectMgr r) (rm_queue r) (rm_out r).

Definition set_clock (c : Clock) (r : Room) : Room :=
  mkRoom (rm_addr r) (_roomId r) (_mapId r) (_title r) (rm_userDB r) (rm_players r) (rm_life r) c (_objMgr r)
    (rm_derived r) (_grid r) (_waveMgr r) (_effectMgr r) (rm_queue r) (rm_out r).

Definition set_objects (w : ObjectManager) (dv : gmap Z Derived) (r : Room) : Room :=
  mkRoom (rm_addr r) (_roomId r) (_mapId r) (_title r) (rm_userDB r) (rm_players r) (rm_life r) (rm_clock r) w
    dv (_grid r) (_waveMgr r) (_effectMgr r) (rm_queue r) (rm_out r).

Definition set_managers (g : SpatialGrid) (w : WaveManager) (r : Room) : Room :=
  mkRoom (rm_addr r) (_roomId r) (_mapId r) (_title r) (rm_userDB r) (rm_players r) (rm_life r) (rm_clock r) (_objMgr r)
    (rm_derived r) g w (_effectMgr r) (rm_queue r) (rm_out r).

Definition set_queue (q : list Task) (r : Room) : Room :=
  mkRoom (rm_addr r) (_roomId r) (_mapId r) (_title r) (rm_userDB r) (rm_players r) (rm_life r) (rm_clock r) (_objMgr r)
    (rm_derived r) (_grid r) (_waveMgr r) (_effectMgr r) q (rm_out r).

Definition emit (l : list Out) (r : Room) : Room :=
  mkRoom (rm_addr r) (_roomId r) (_mapId r) (_title r) (rm_userDB r) (rm_players r) (rm_life r) (rm_clock r) (_objMgr r)
    (rm_derived r) (_grid r) (_waveMgr r) (_effectMgr r) (rm_queue r) (rm_out r ++ l).

Definition Post (t : Task) (r : Room) : Room := set_queue (rm_queue r ++ [t]) r.

(** The public operations: each posts its task to the strand. *)
Definition Enter (player : Z) : Room -> Room := Post (TEnter player).
Definition Leave (sid : Z) : Room -> Room := Post (TLeave sid).
Definition OnPlayerReady (sid : Z) : Room -> Room := Post (TReady sid).
Definition StartGame : Room -> Room := Post TStartGame.
Definition Reset : Room -> Room := Post TReset.
Definition HandleGameOver (isWin : bool) : Room -> Room := Post (TGameOver isWin).
Definition DebugToggleGodMode : Room -> Room := Post TGodMode.
Definition DebugAddExpToAll (exp : Z) : Room -> Room := Post (TAddExp exp).
Definition SetMonsterStrategy (name : string) : Room -> Room := Post (TStrategy name).
Definition DebugSpawnMonster (monsterId count : Z) : Room -> Room := Post (TSpawn monsterId count).

Definition set_started (b : bool) (l : Life) : Life :=
  mkLife b (_isGameOver l) (_isStopping l) (_isUpdating l) (_playerCount l) (_timerHandle l).
Definition set_gameOver (b : bool) (l : Life) : Life :=
  mkLife (_gameStarted l) b (_isStopping l) (_isUpdating l) (_playerCount l) (_timerHandle l).
Definition set_stopping (b : bool) (l : Life) : Life :=
  mkLife (_gameStarted l) (_isGameOver l) b (_isUpdating l) (_playerCount l) (_timerHandle l).
Definition set_updating (b : bool) (l : Life) : Life :=
  mkLife (_gameStarted l) (_isGameOver l) (_isStopping l) b (_playerCount l) (_timerHandle l).
Definition set_count (n : Z) (l : Life) : Life :=
  mkLife (_gameStarted l) (_isGameOver l) (_isStopping l) (_isUpdating l) n (_timerHandle l).
Definition set_handle (h : Z) (l : Life) : Life :=
  mkLife (_gameStarted l) (_isGameOver l) (_isStopping l) (_isUpdating l) (_playerCount l) h.

Definition set_heap (h : gmap Z Player) (e : Env) : Env := mkServerEnv h (ev_timers e) (ev_nextHandle e) (ev_loads e).
Definition set_loads (l : list (Z * Z)) (e : Env) : Env := mkServerEnv (ev_players e) (ev_timers e) (ev_nextHandle e) l.

Definition SetRoomId (roomId : Z) (p : Player) : Player :=
  mkPlayer (p_obj p) (_sessionId p) (_name p) (_classId p) roomId (_speed p) (_lastInputTick p) (_facingDir p)
    (_baseMaxHp p) (_exp p) (_maxExp p) (_level p) (_invincibleUntil p) (_isLevelingUp p) (_levelUpStartedAt p)
    (_emitters p) (_inventory p) (_pendingLevelUpOptions p) (_slowedMonsterIds p) (_isReady p) (_godMode p).

Section Room.
Context `{IterationOrder}.

(** ** Sending *)

Definition send_each (sids : list Z) (p : RoomPacket) (r : Room) : Room := emit (map (fun sid => ToSession sid p) sids) r.

Definition Room_SendToPlayer (sid : Z) (p : RoomPacket) (r : Room) : Room := emit [ToSession sid p] r.

Definition Room_BroadcastPacket (p : RoomPacket) (exclude : Z) (r : Room) : Room :=
  send_each (filter (fun sid => sid ≠ exclude) (iter_order (rm_players r)).*1) p r.

Definition BroadcastDespawn (ids pickers : list Z) (r : Room) : Room :=
  match ids with
  | [] => r
  | _ => Room_BroadcastPacket (S_DespawnObject ids (imap (fun i _ => default 0 (pickers !! i)) ids)) 0 r
  end.

Definition BroadcastDebugClear (r : Room) : Room := emit [ToVisualizer (_roomId r) true] r.

(** ** Objects *)

(** The monster with an id: its base part from [_objMgr]. *)
Definition room_monster (id : Z) (r : Room) : option Monster :=
  match rm_derived r !! id, GetObject id (_objMgr r) with
  | Some (IsMonster m), Some o => Some (with_obj (fun _ => o) m)
  | _, _ => None
  end.

Definition put_object (id : Z) (o : GameObject) (w : ObjectManager) : ObjectManager :=
  mkObjMgr (_nextId w) (<[id := o]> (_objects w)) (_aliveMonsterCount w).

Definition room_update_monster (id : Z) (f : Monster -> Monster) (r : Room) : Room :=
  match room_monster id r with
  | Some m => set_objects (put_object id (m_obj (f m)) (_objMgr r)) (<[id := IsMonster (f m)]> (rm_derived r)) r
  | None => r
  end.

(** The same for the other kinds of objects. *)
Definition room_projectile (id : Z) (r : Room) : option Projectile :=
  match rm_derived r !! id, GetObject id (_objMgr r) with
  | Some (IsProjectile p), Some o => Some (set_pj_obj o p)
  | _, _ => None
  end.

Definition put_projectile (id : Z) (p : Projectile) (r : Room) : Room :=
  set_objects (put_object id (pj_obj p) (_objMgr r)) (<[id := IsProjectile p]> (rm_derived r)) r.

Definition room_gem (id : Z) (r : Room) : option ExpGem :=
  match rm_derived r !! id, GetObject id (_objMgr r) with
  | Some (IsGem g), Some o => Some (mkGem o (_expAmount g) (_isPickedUp g) (_pickerId g))
  | _, _ => None
  end.

Definition put_gem (id : Z) (g : ExpGem) (r : Room) : Room :=
  set_objects (put_object id (g_obj g) (_objMgr r)) (<[id := IsGem g]> (rm_derived r)) r.

(** Outside the grid's coordinates the query is undefined; no monster is found. *)
Definition Room_GetMonstersInRange (x y radius : float) (r : Room) : list Z :=
  let hits := default [] (Query (_grid r) (_objMgr r) x y radius) in
  omap (fun o => if is_monster o
                 then m ← room_monster (_id o) r; if IsDead (m_obj m) then None else Some (_id o)
                 else None) hits.

(** The room the player's code sees. *)
#[global] Instance Room_api : RoomApi Room := {|
  GetTotalRunTime := fun r => _totalRunTime (rm_clock r);
  GetServerTick := fun r => _serverTick (rm_clock r);
  GetMonstersInRange := Room_GetMonstersInRange;
  GetMonster := room_monster;
  update_monster := room_update_monster;
  BroadcastPacket := fun p r => Room_BroadcastPacket (Own p) 0 r;
  SendToPlayer := fun sid p r => Room_SendToPlayer sid (Own p) r
|}.

Lemma with_obj_obj m : with_obj (fun _ => m_obj m) m = m.
Proof. by destruct m. Qed.

(** The room keeps what [Player] relies on, so that the theorems on players hold in
    it. *)
#[global] Instance Room_laws : RoomLaws Room.
Proof.
  constructor; try done.
  - intros x y rad r id Hin. cbn in Hin. unfold Room_GetMonstersInRange in Hin.
    apply list_elem_of_omap in Hin as (o & _ & Ho). destruct (is_monster o); [|done].
    destruct (room_monster (_id o) r) as [m|] eqn:E; [|done]. cbn in Ho.
    destruct (IsDead _); [done|]. injection Ho as <-. by exists m.
  - intros id f r id'. cbn. unfold room_update_monster. destruct (room_monster id r) as [m|] eqn:E.
    + unfold room_monster; cbn. case_bool_decide as Hid; [subst id'|].
      * unfold GetObject; cbn. rewrite !lookup_insert_eq. cbn. by rewrite with_obj_obj.
      * unfold GetObject; cbn. by rewrite !lookup_insert_ne.
    + case_bool_decide as Hid; [by subst|done].
  - intros id f r. cbn. unfold room_update_monster. by destruct (room_monster id r).
Qed.

(** An object as it is now: a player's is in the heap. *)
Definition current (h : gmap Z Player) (r : Room) (o : GameObject) : GameObject :=
  match rm_derived r !! _id o with Some (IsPlayer a) => default o (p_obj <$> h !! a) | _ => o end.

Definition room_objects (h : gmap Z Player) (r : Room) : list GameObject := map (current h r) (GetAllObjects (_objMgr r)).

Definition AddPlayerObject (a : Z) (p : Player) (r : Room) : Room :=
  let id := _id (p_obj p) in
  set_objects (AddObject (p_obj p) (_objMgr r)) (<[id := IsPlayer a]> (rm_derived r)) r.

Definition RemoveRoomObject (id : Z) (r : Room) : Room :=
  set_objects (RemoveObject id (_objMgr r)) (delete id (rm_derived r)) r.

Definition ClearObjects (r : Room) : Room := set_objects (ObjectManager_Clear (_objMgr r)) ∅ r.

Definition info_of (r : Room) (o : GameObject) : ObjectInfo :=
  mkInfo (_id o) (_type o) (match rm_derived r !! _id o with Some (IsMonster m) => _monsterTypeId m | Some (IsProjectile p) => _typeId p | _ => 0 end)
    (_x o) (_y o) (_hp o) (_maxHp o) (_state o) (_vx o) (_vy o) (_lookLeft o).

(** ** The synchronisation of a frame *)

Definition is_finite (x : float) : bool := match x with S754_zero _ | S754_finite _ _ _ => true | _ => false end.

Definition pos_of (o : GameObject) : ObjectPos := mkPos (_id o) (_x o) (_y o) (_vx o) (_vy o) (_state o) (_lookLeft o).

Definition synced (o : GameObject) : bool :=
  negb (IsDead o) && is_finite (_x o) && is_finite (_y o) && is_finite (_vx o) && is_finite (_vy o).

(** One turn of the loop: the batch being filled, and the room. *)
Definition sync_step (tick : Z) (s : list ObjectPos * Room) (o : GameObject) : list ObjectPos * Room :=
  let '(batch, r) := s in
  if synced o then
    let batch := batch ++ [pos_of o] in
    if (CHUNK_SIZE <=? length batch)%nat then ([], Room_BroadcastPacket (S_MoveBatch tick batch) 0 r) else (batch, r)
  else s.

Definition ack_player (h : gmap Z Player) (tick : Z) (r : Room) (kv : Z * Z) : Room :=
  match h !! kv.2 with
  | Some p => if IsDead (p_obj p) then r
              else Room_SendToPlayer kv.1 (S_PlayerStateAck tick (_lastInputTick p) (_x (p_obj p)) (_y (p_obj p))) r
  | None => r
  end.

Definition SyncNetwork (h : gmap Z Player) (r : Room) : Room :=
  match room_objects h r with
  | [] => r
  | objects =>
      let tick := _serverTick (rm_clock r) in
      let '(batch, r) := foldl (sync_step tick) ([], r) objects in
      let r := match batch with [] => r | _ => Room_BroadcastPacket (S_MoveBatch tick batch) 0 r end in
      foldl (ack_player h tick) r (iter_order (rm_players r))
  end.

Definition nearest_step (h : gmap Z Player) (x y : float) (s : option Z * float) (kv : Z * Z) : option Z * float :=
  match h !! kv.2 with
  | Some p =>
      if IsDead (p_obj p) then s
      else
        let dx := (_x (p_obj p) - x)%F in
        let dy := (_y (p_obj p) - y)%F in
        let dstSq := (dx * dx + dy * dy)%F in
        if (dstSq <? s.2)%F then (Some kv.2, dstSq) else s
  | None => s
  end.

Definition GetNearestPlayer (h : gmap Z Player) (x y : float) (r : Room) : option Z :=
  (foldl (nearest_step h x y) (None, FLT_MAX) (iter_order (rm_players r))).1.

End Room.

(** ** The frame

    [ExecuteUpdate] advances the clock, runs the simulation (waves, effects, objects,
    physics, combat) and synchronises the clients.  The simulation is an interface
    here: it moves objects, damages players and may post the end of the game, but
    leaves the room's players and its life cycle alone.  So does [summon], which puts
    monsters into the room outside of the frame ([WaveManager::DebugSpawn]).  [None] is
    undefined behaviour (a position that no cell of the grid or of the map has), or a
    loop that does not end. *)
Class RoomFrame := {
  simulate : float -> gmap Z Player -> Room -> option (gmap Z Player * Room);
  summon : Z -> Z -> gmap Z Player -> Room -> option Room
}.

Record frame_ok (h : gmap Z Player) (r : Room) (h' : gmap Z Player) (r' : Room) : Prop := mk_frame_ok {
  fo_addr : rm_addr r' = rm_addr r;
  fo_id : _roomId r' = _roomId r;
  fo_db : rm_userDB r' = rm_userDB r;
  fo_players : rm_players r' = rm_players r;
  fo_life : rm_life r' = rm_life r;
  fo_queue : exists l, rm_queue r' = rm_queue r ++ l /\ Forall (fun t => t = TGameOver false) l;
  fo_sessions : forall a, (_sessionId <$> h' !! a) = (_sessionId <$> h !! a)
}.

Definition core (r : Room) := (rm_addr r, _roomId r, rm_userDB r, rm_players r, rm_life r, rm_queue r).

Class FrameLaws `{RoomFrame} := {
  simulate_ok dt h r h' r' : simulate dt h r = Some (h', r') -> frame_ok h r h' r';
  summon_core typeId count h r r' : summon typeId count h r = Some r' -> core r' = core r
}.

Section LifeCycle.
Context `{IterationOrder} `{RoomFrame} (D : DataManager) (dis : nat -> Z -> Z).

Definition on_life (f : Life -> Life) (r : Room) : Room := set_life (f (rm_life r)) r.

(** A change of one player of the heap, and of the room it is in. *)
Definition with_player (a : Z) (f : Player -> Room -> Player * Room) (s : Room * Env) : Room * Env :=
  let '(r, e) := s in
  match ev_players e !! a with
  | Some p => let '(p, r) := f p r in (r, set_heap (<[a := p]> (ev_players e)) e)
  | None => s
  end.

(** The same for a change that can be undefined. *)
Definition try_player (a : Z) (f : Player -> Room -> option (Player * Room)) (s : Room * Env) : option (Room * Env) :=
  let '(r, e) := s in
  match ev_players e !! a with
  | Some p => '(p, r) ← f p r; Some (r, set_heap (<[a := p]> (ev_players e)) e)
  | None => Some s
  end.

(** The player operations take an optional room; here there is one. *)
Definition in_room (f : Player -> option Room -> Player * option Room) (p : Player) (r : Room) : Player * Room :=
  let '(p, r') := f p (Some r) in (p, default r r').

(** [SetInterval(1, TICK_INTERVAL_MS, this)] *)
Definition Start (s : Room * Env) : Room * Env :=
  let '(r, e) := s in
  let h := ev_nextHandle e in
  (on_life (set_handle h) r, mkServerEnv (ev_players e) (<[h := rm_addr r]> (ev_timers e)) (h + 1) (ev_loads e)).

Definition InternalClear (s : Room * Env) : Room * Env :=
  let '(r, e) := s in
  let '(r, e) :=
    if _timerHandle (rm_life r) =? 0 then (r, e)
    else (on_life (set_handle 0) r,
          mkServerEnv (ev_players e) (delete (_timerHandle (rm_life r)) (ev_timers e)) (ev_nextHandle e) (ev_loads e)) in
  (ClearObjects (set_players ∅ (BroadcastDebugClear r)), e).

Definition ExecuteStop : Room * Env -> Room * Env := InternalClear.

Definition ExecuteStartGame (s : Room * Env) : Room * Env :=
  if _gameStarted (rm_life s.1) then s
  else
    let '(r, e) := s in
    let r := on_life (set_started true) r in
    let '(r, e) := if _timerHandle (rm_life r) =? 0 then Start (r, e) else (r, e) in
    (set_managers (_grid r) (Wave_Start D (_waveMgr r)) r, e).

Definition ExecuteReset (r : Room) : Room :=
  let r := ClearObjects r in
  let r := set_managers (HardClear (_grid r)) (Wave_Reset D (_waveMgr r)) r in
  let r := BroadcastDebugClear r in
  let r := on_life (fun l => mkLife false false false false 0 (_timerHandle l)) r in
  set_clock Clock_new r.

(** [OnTimer]: the flag is taken before the task is posted. *)
Definition OnTimer (r : Room) : Room :=
  if _isUpdating (rm_life r) then r else Post TUpdate (on_life (set_updating true) r).

Definition BroadcastDebugState (r : Room) : Room :=
  let c := rm_clock r in
  if (_totalRunTime c - _debugBroadcastTimer c <? flit 5 100)%F then r
  else emit [ToVisualizer (_roomId r) false] (set_clock (mkClock (_totalRunTime c) (_serverTick c) (_totalRunTime c)) r).

(** Whether a frame runs. *)
Definition frame_runs (l : Life) (players : gmap Z Z) : bool :=
  negb (negb (_gameStarted l) || _isGameOver l || _isStopping l || bool_decide (players = ∅)).

Definition ExecuteUpdate (dt : float) (s : Room * Env) : option (Room * Env) :=
  let '(r, e) := s in
  if negb (frame_runs (rm_life r) (rm_players r)) then Some s
  else
    let c := rm_clock r in
    let r := set_clock (mkClock (_totalRunTime c + dt)%F (u32 (_serverTick c + 1)) (_debugBroadcastTimer c)) r in
    '(h, r) ← simulate dt (ev_players e) r;
    let r := SyncNetwork h r in
    Some (BroadcastDebugState r, set_heap h e).

Definition Update (dt : float) (s : Room * Env) : option (Room * Env) :=
  '(r, e) ← ExecuteUpdate dt s; Some (on_life (set_updating false) r, e).

(** [AddDefaultSkills] of the template's skills, if it has some. *)
Definition add_default_skills (p : Player) (r : Room) : Player * Room :=
  match GetPlayerInfo D 1 with
  | Some t => match pi_defaultSkills t with [] => (p, r) | skills => in_room (AddDefaultSkills D skills) p r end
  | None => (p, r)
  end.

Definition start_if_needed (r : Room) : Room := if _gameStarted (rm_life r) then r else StartGame r.

Definition ExecuteEnter (a : Z) (s : Room * Env) : Room * Env :=
  match ev_players s.2 !! a with
  | None => s
  | Some p =>
      let '(r, e) := s in
      let r := set_players (<[_sessionId p := a]> (rm_players r)) r in
      let r := on_life (fun l => set_count (u64 (_playerCount l + 1)) l) r in
      let p := SetRoomId (_roomId r) p in
      let e := set_heap (<[a := p]> (ev_players e)) e in
      if rm_userDB r then (r, set_loads (ev_loads e ++ [(rm_addr r, a)]) e)
      else
        let '(r, e) := with_player a add_default_skills (r, e) in
        let '(r, e) := with_player a (fun p r => (p, AddPlayerObject a p r)) (r, e) in
        (start_if_needed r, e)
  end.

(** The task the database's answer posts. *)
Definition ExecuteLoaded (a : Z) (skills : list (Z * Z)) (s : Room * Env) : Room * Env :=
  match ev_players s.2 !! a with
  | None => s
  | Some p =>
      if bool_decide (rm_players s.1 !! _sessionId p = Some a) then
        let s := with_player a (in_room (ApplySkills skills)) s in
        let s := with_player a (fun p r => (p, AddPlayerObject a p r)) s in
        let '(r, e) := with_player a add_default_skills s in
        (start_if_needed r, e)
      else s
  end.

Definition ExecuteOnPlayerReady (sid : Z) (s : Room * Env) : Room * Env :=
  match rm_players s.1 !! sid with
  | None => s
  | Some a =>
      let s := with_player a (fun p r => let p := SetReady true p in (p, SyncInventory p r)) s in
      let '(r, e) := ExecuteStartGame s in
      let tick := _serverTick (rm_clock r) in
      let r := match room_objects (ev_players e) r with
               | [] => r
               | objects => Room_SendToPlayer sid (S_SpawnObject tick (map (info_of r) objects)) r
               end in
      match ev_players e !! a with
      | Some p =>
          let o := p_obj p in
          let info := mkInfo (_id o) PLAYER 0 (_x o) (_y o) (_hp o) (_maxHp o) IDLE f0 f0 false in
          (Room_BroadcastPacket (S_SpawnObject tick [info]) sid r, e)
      | None => (r, e)
      end
  end.

Definition ExecuteLeave (sid : Z) (s : Room * Env) : Room * Env :=
  match rm_players s.1 !! sid with
  | None => s
  | Some a =>
      let '(r, e) := with_player a (fun p r =>
        let p := SetRoomId 0 p in
        let r := RemoveRoomObject (_id (p_obj p)) r in
        (p, Room_BroadcastPacket (S_DespawnObject [_id (p_obj p)] []) 0 r)) s in
      let r := set_players (delete sid (rm_players r)) r in
      let r := on_life (fun l => set_count (u64 (_playerCount l - 1)) l) r in
      if bool_decide (rm_players r = ∅) then
        if _roomId r =? DEFAULT_ROOM_ID then (ExecuteReset r, e)
        else let '(r, e) := ExecuteStop (r, e) in (ExecuteReset r, e)
      else (r, e)
  end.

Definition ExecuteHandleGameOver (isWin : bool) (r : Room) : Room :=
  if _isGameOver (rm_life r) then r
  else
    let r := on_life (set_gameOver true) r in
    Room_BroadcastPacket (S_GameOver (default 0 (f_trunc (_totalRunTime (rm_clock r) * f_of_Z 1000)%F)) isWin) 0 r.

Definition CheckWinCondition (r : Room) : bool := IsAllWavesComplete (_waveMgr r) && (GetAliveMonsterCount (_objMgr r) =? 0).

Definition ToggleGodMode (p : Player) (r : Room) : Player * Room := (SetGodMode (negb (_godMode p)) p, r).

(** [AddExp] in a room; the inner option is the room pointer, which stays. *)
Definition GiveExp (exp : Z) (p : Player) (r : Room) : option (Player * Room) :=
  '(p, r') ← AddExp D dis exp p (Some r); Some (p, default r r').

(** The body of [SetMonsterStrategy]'s task: an unknown name changes nothing. *)
Definition strategy_of (name : string) : option MovementStrategy :=
  if bool_decide (name = "smart"%string) then Some SmartFlockingStrategy
  else if bool_decide (name = "fluid"%string) then Some FluidStackingStrategy
  else if bool_decide (name = "strict"%string) then Some StrictSeparationStrategy
  else if bool_decide (name = "surround"%string) then Some SurroundingFlockingStrategy
  else if bool_decide (name = "cell"%string) then Some CellBasedMovementStrategy
  else if bool_decide (name = "vampire"%string) then Some VampireSurvivorMovementStrategy
  else None.

Definition ExecuteSetStrategy (name : string) (r : Room) : Room :=
  match strategy_of name with
  | None => r
  | Some s => foldl (fun r o => if is_monster o then room_update_monster (_id o) (SetMovementStrategy s) r else r)
                r (GetAllObjects (_objMgr r))
  end.

Definition for_each_player (f : Player -> Room -> Player * Room) (s : Room * Env) : Room * Env :=
  foldl (fun s kv => with_player kv.2 f s) s (iter_order (rm_players s.1)).

(** [None]: the task does something undefined. *)
Definition exec_task (t : Task) (s : Room * Env) : option (Room * Env) :=
  match t with
  | TEnter a => Some (ExecuteEnter a s)
  | TLoaded a skills => Some (ExecuteLoaded a skills s)
  | TReady sid => Some (ExecuteOnPlayerReady sid s)
  | TLeave sid => Some (ExecuteLeave sid s)
  | TStartGame => Some (ExecuteStartGame s)
  | TReset => Some (ExecuteReset s.1, s.2)
  | TStop => Some (ExecuteStop s)
  | TGameOver w => Some (ExecuteHandleGameOver w s.1, s.2)
  | TUpdate => Update TICK_INTERVAL_SEC s
  | TInput a tick dx dy => Some (with_player a (fun p r => (ApplyInput D tick dx dy p, r)) s)
  | TSelect a i => Some (with_player a (in_room (SelectLevelUp D i)) s)
  | TGodMode => Some (for_each_player ToggleGodMode s)
  | TAddExp exp => for_each (fun kv => try_player kv.2 (GiveExp exp)) (iter_order (rm_players s.1)) s
  | TStrategy name => Some (ExecuteSetStrategy name s.1, s.2)
  | TSpawn typeId count => r ← summon typeId count (ev_players s.2) s.1; Some (r, s.2)
  end.

(** The strand runs the oldest task, if there is one. *)
Definition strand_step (s : Room * Env) : option (Room * Env) :=
  match rm_queue s.1 with
  | [] => None
  | t :: q => exec_task t (set_queue q s.1, s.2)
  end.

(** [Stop], from outside the strand. *)
Definition Stop (r : Room) : Room :=
  if _isStopping (rm_life r) then r else Post TStop (on_life (set_stopping true) r).

End LifeCycle.

(** ** What the players' operations leave alone *)

Section Stable.
Context `{IterationOrder} {R : Type} `{RoomApi R} (D : DataManager) (dis : nat -> Z -> Z) (P : R -> Prop).
Context (P_update : forall id f r, P r -> P (update_monster id f r))
        (P_broadcast : forall p r, P r -> P (BroadcastPacket p r))
        (P_send : forall sid p r, P r -> P (SendToPlayer sid p r)).

Definition opt_P (room : option R) : Prop := match room with Some r => P r | None => True end.

(** The result is in a room with [P], and is a player of the same session. *)
Definition stable (p : Player) (res : Player * option R) : Prop := _sessionId res.1 = _sessionId p /\ opt_P res.2.

Lemma opt_P_fmap f room : (forall r, P r -> P (f r)) -> opt_P room -> opt_P (f <$> room).
Proof. destruct room; cbn; auto. Qed.

Lemma P_foldl {A} (f : R -> A -> R) l r : (forall r a, P r -> P (f r a)) -> P r -> P (foldl f r l).
Proof. intros Hf. revert r. induction l as [|a l IH]; intros r Hr; [done|]. by apply IH, Hf. Qed.

Lemma RefreshInventoryEffects_stable p room : opt_P room -> stable p (RefreshInventoryEffects D p room).
Proof.
  intros Hr. split; [done|]. cbn. destruct (_ =? _); repeat apply opt_P_fmap; auto; intros r; apply P_send.
Qed.

Lemma ApplySkills_stable skills p room : opt_P room -> stable p (ApplySkills skills p room).
Proof. intros Hr. split; [done|]. cbn. by apply opt_P_fmap; [intros r; apply P_broadcast|]. Qed.

Lemma AddDefaultSkills_stable skills p room : opt_P room -> stable p (AddDefaultSkills D skills p room).
Proof. intros Hr. unfold AddDefaultSkills. apply (RefreshInventoryEffects_stable (set_inventory _ p)), Hr. Qed.

Lemma evolve_first_stable ids p room : opt_P room -> stable p (evolve_first D ids p room).
Proof.
  intros Hr. induction ids as [|i ids IH]; [done|]. cbn [evolve_first]. destruct (evolution_of D _ i) as [evo|]; [|done].
  apply (RefreshInventoryEffects_stable (set_emitters _ (set_inventory _ p))), Hr.
Qed.

Lemma ApplySelection_stable i p room : opt_P room -> stable p (ApplySelection D i p room).
Proof.
  intros Hr. unfold ApplySelection. destruct (_ || _); [done|]. destruct (_ !! _) as [sel|]; [|done].
  destruct (apply_option D sel _) as [[] inv]; [|done].
  pose proof (RefreshInventoryEffects_stable (set_inventory inv p) room Hr) as [Hs Ho].
  destruct (RefreshInventoryEffects D _ room) as [p' room']. split; [done|]. cbn in *.
  apply opt_P_fmap; [intros r; apply P_send|done].
Qed.

Lemma ExitLevelUpState_stable p room : opt_P room -> stable p (ExitLevelUpState D p room).
Proof.
  intros Hr. unfold ExitLevelUpState. apply (RefreshInventoryEffects_stable (SetInvincible f0 (set_slowed [] (set_levelup _ _ _ p)))).
  apply opt_P_fmap; [|done]. intros r. apply P_foldl. intros r' id Hr'. unfold unslow. destruct (GetMonster id r'); auto.
Qed.

Lemma SelectLevelUp_stable i p room : opt_P room -> stable p (SelectLevelUp D i p room).
Proof.
  intros Hr. unfold SelectLevelUp. pose proof (ApplySelection_stable i p room Hr) as [Hs Ho].
  destruct (ApplySelection D i p room) as [p1 room1]. cbn in Hs, Ho. unfold CheckWeaponEvolutions.
  pose proof (evolve_first_stable (GetOwnedWeaponIds (_inventory p1)) p1 room1 Ho) as [Hs' Ho'].
  destruct (evolve_first D _ p1 room1) as [p2 room2]. cbn in Hs', Ho'.
  destruct (ExitLevelUpState_stable p2 room2 Ho') as [Hs'' Ho'']. split; [congruence|done].
Qed.

Lemma EnterLevelUpState_stable p room : opt_P room -> stable p (EnterLevelUpState p room).
Proof.
  intros Hr. split; [done|]. cbn. apply opt_P_fmap; [|done]. intros r. apply P_foldl. intros r' id Hr'.
  unfold knockback. destruct (GetMonster id r'); auto.
Qed.

Lemma slow_fold_P l : forall acc, P acc.2 -> P (foldl slow_step acc l).2.
Proof.
  induction l as [|id l IH]; intros [[slowed moves] r] Hr; [done|]. cbn [foldl]. apply IH. unfold slow_step. cbn [snd] in Hr.
  destruct (GetMonster id r); [|done]. destruct (bool_decide _); [done|]. by apply P_update.
Qed.

Lemma unslow_fold_P inRange l : forall acc, P acc.2 -> P (foldl (unslow_step inRange) acc l).2.
Proof.
  induction l as [|id l IH]; intros [[kept moves] r] Hr; [done|]. cbn [foldl]. apply IH. unfold unslow_step. cbn [snd] in Hr.
  destruct (bool_decide _); [done|]. unfold unslow. destruct (GetMonster id r); [|done]. by apply P_update.
Qed.

Lemma update_levelup_stable p room : opt_P room -> stable p (update_levelup D p room).
Proof.
  intros Hr. unfold update_levelup. destruct room as [r|]; [|done]. destruct (_isLevelingUp p); [|done]. unfold update_aura. cbn [opt_P] in Hr.
  pose proof (slow_fold_P (GetMonstersInRange (_x (p_obj p)) (_y (p_obj p)) (f_of_Z 10) r) (_slowedMonsterIds p, [], r) Hr) as H1.
  destruct (foldl slow_step _ _) as [[slowed moves] r1]. cbn [snd] in H1.
  pose proof (unslow_fold_P (GetMonstersInRange (_x (p_obj p)) (_y (p_obj p)) (f_of_Z 10) r) slowed ([], moves, r1) H1) as H2.
  destruct (foldl (unslow_step _) _ _) as [[kept moves'] r2]. cbn [snd] in H2.
  assert (P (match moves' with [] => r2 | _ => BroadcastPacket (S_MoveObjectBatch (GetServerTick r) moves') r2 end)) as H3.
  { destruct moves'; [done|]. by apply P_broadcast. }
  destruct (_ <? _)%F; [|by split]. by apply (ExitLevelUpState_stable (set_slowed kept p)).
Qed.

Lemma AddExp_stable amount p room res : opt_P room -> AddExp D dis amount p room = Some res -> stable p res.
Proof.
  intros Hr. unfold AddExp. destruct (_isLevelingUp p); [by intros [= <-]|].
  destruct (level_loop _ _ _ _ _) as [[[[exp maxExp] level] up]|]; [|discriminate]. cbn.
  destruct room as [r|]; [|by intros [= <-]]. destruct (_ =? 0); [by intros [= <-]|].
  destruct up; [|intros [= <-]; split; [done|by apply P_send]].
  destruct (GenerateOptions D dis _) as [|o opts]; [intros [= <-]; split; [done|by apply P_send]|].
  intros [= <-]. split; [done|].
  destruct (EnterLevelUpState_stable (set_exp exp maxExp level p)
              (Some (SendToPlayer (_sessionId p) (S_ExpChange exp maxExp level) r))) as [_ Ho]; [by apply P_send|].
  by apply P_send.
Qed.

End Stable.

(** ** The life cycle *)

(** What the life cycle consists of: the room's players, flags, counters and queue,
    the timers, the sessions of the players. *)
Record View := mkView {
  v_addr : Z; v_id : Z; v_db : bool; v_players : gmap Z Z; v_life : Life; v_queue : list Task;
  v_timers : gmap Z Z; v_next : Z; v_sess : gmap Z Z
}.

Definition view (s : Room * Env) : View :=
  mkView (rm_addr s.1) (_roomId s.1) (rm_userDB s.1) (rm_players s.1) (rm_life s.1) (rm_queue s.1)
    (ev_timers s.2) (ev_nextHandle s.2) (_sessionId <$> ev_players s.2).

Definition v_set_life (l : Life) (v : View) : View :=
  mkView (v_addr v) (v_id v) (v_db v) (v_players v) l (v_queue v) (v_timers v) (v_next v) (v_sess v).
Definition v_set_players (m : gmap Z Z) (v : View) : View :=
  mkView (v_addr v) (v_id v) (v_db v) m (v_life v) (v_queue v) (v_timers v) (v_next v) (v_sess v).
Definition v_set_timers (t : gmap Z Z) (n : Z) (v : View) : View :=
  mkView (v_addr v) (v_id v) (v_db v) (v_players v) (v_life v) (v_queue v) t n (v_sess v).
Definition v_post (l : list Task) (v : View) : View :=
  mkView (v_addr v) (v_id v) (v_db v) (v_players v) (v_life v) (v_queue v ++ l) (v_timers v) (v_next v) (v_sess v).

(** The abstract operations. *)
Definition v_start (v : View) : View :=
  if _gameStarted (v_life v) then v
  else
    let v := v_set_life (set_started true (v_life v)) v in
    if _timerHandle (v_life v) =? 0
    then v_set_timers (<[v_next v := v_addr v]> (v_timers v)) (v_next v + 1) (v_set_life (set_handle (v_next v) (v_life v)) v)
    else v.

Definition v_clear (v : View) : View :=
  let v := if _timerHandle (v_life v) =? 0 then v
           else v_set_timers (delete (_timerHandle (v_life v)) (v_timers v)) (v_next v) (v_set_life (set_handle 0 (v_life v)) v) in
  v_set_players ∅ v.

Definition v_reset (v : View) : View := v_set_life (mkLife false false false false 0 (_timerHandle (v_life v))) v.

Definition v_enter (a sid : Z) (v : View) : View :=
  v_set_life (set_count (u64 (_playerCount (v_life v) + 1)) (v_life v)) (v_set_players (<[sid := a]> (v_players v)) v).

Definition v_leave (sid : Z) (v : View) : View :=
  let v := v_set_life (set_count (u64 (_playerCount (v_life v) - 1)) (v_life v)) (v_set_players (delete sid (v_players v)) v) in
  if bool_decide (v_players v = ∅) then v_reset (if v_id v =? DEFAULT_ROOM_ID then v else v_clear v) else v.

Definition v_game_on (v : View) : bool := frame_runs (v_life v) (v_players v).

Definition v_start_if_needed (v : View) : View := if _gameStarted (v_life v) then v else v_post [TStartGame] v.

(** The abstract machine: what every task but the update does to the life cycle. *)
Definition v_exec (t : Task) (v : View) : View :=
  match t with
  | TEnter a =>
      match v_sess v !! a with
      | Some sid => let v := v_enter a sid v in if v_db v then v else v_start_if_needed v
      | None => v
      end
  | TLoaded a _ =>
      match v_sess v !! a with
      | Some sid => if bool_decide (v_players v !! sid = Some a) then v_start_if_needed v else v
      | None => v
      end
  | TReady sid => match v_players v !! sid with Some _ => v_start v | None => v end
  | TLeave sid => match v_players v !! sid with Some _ => v_leave sid v | None => v end
  | TStartGame => v_start v
  | TReset => v_reset v
  | TStop => v_clear v
  | TGameOver _ => v_set_life (set_gameOver true (v_life v)) v
  | _ => v
  end.

(** The update gives the flag back; a frame that runs may post the end of the game. *)
Inductive life_step : Task -> View -> View -> Prop :=
| LS_exec t v : t <> TUpdate -> life_step t v (v_exec t v)
| LS_update l v : Forall (fun t => t = TGameOver false) l -> (l <> [] -> v_game_on v = true) ->
    life_step TUpdate v (v_set_life (set_updating false (v_life v)) (v_post l v)).

(** The tasks that can do something undefined. *)
Definition may_be_undefined (t : Task) : bool :=
  match t with TUpdate | TAddExp _ | TSpawn _ _ => true | _ => false end.

(** What the invariants need of a step, by cases. *)
Inductive life_change : Task -> View -> View -> Prop :=
| LC_quiet t v : t <> TUpdate -> t <> TStop -> t <> TReset -> (forall a sid, t = TEnter a -> v_sess v !! a <> Some sid) ->
    (forall sid, t = TLeave sid -> v_players v !! sid = None) -> life_change t v v
| LC_enter a sid l v : v_sess v !! a = Some sid -> l = [] \/ l = [TStartGame] -> life_change (TEnter a) v (v_post l (v_enter a sid v))
| LC_loaded a skills v : life_change (TLoaded a skills) v (v_post [TStartGame] v)
| LC_leave sid a v : v_players v !! sid = Some a -> life_change (TLeave sid) v (v_leave sid v)
| LC_start t v : t = TStartGame \/ (exists sid, t = TReady sid) -> life_change t v (v_start v)
| LC_reset v : life_change TReset v (v_reset v)
| LC_stop v : life_change TStop v (v_clear v)
| LC_gameover w v : life_change (TGameOver w) v (v_set_life (set_gameOver true (v_life v)) v)
| LC_update l v : Forall (fun t => t = TGameOver false) l ->
    life_change TUpdate v (v_set_life (set_updating false (v_life v)) (v_post l v)).

Lemma v_post_nil v : v_post [] v = v.
Proof. unfold v_post. rewrite app_nil_r. by destruct v. Qed.

Lemma v_start_if_needed_post v : exists l, (l = [] \/ l = [TStartGame]) /\ v_start_if_needed v = v_post l v.
Proof. unfold v_start_if_needed. destruct (_gameStarted _); [exists []; rewrite v_post_nil; auto|exists [TStartGame]; auto]. Qed.

Lemma life_step_change t v v' : life_step t v v' -> life_change t v v'.
Proof.
  destruct 1 as [t v Ht|l v Hl _]; [|by apply LC_update].
  assert (t <> TUpdate -> t <> TStop -> t <> TReset -> (forall a sid, t = TEnter a -> v_sess v !! a <> Some sid) ->
    (forall sid, t = TLeave sid -> v_players v !! sid = None) -> v_exec t v = v -> life_change t v (v_exec t v)) as Hquiet.
  { intros. replace (v_exec t v) with v by done. by apply LC_quiet. }
  destruct t as [a|a skills|sid|sid| | | |w| |a tick dx dy|a i| |exp|name|typeId count]; try done; try (by apply Hquiet); cbn [v_exec] in *.
  - destruct (v_sess v !! a) as [sid|] eqn:E; [|by apply Hquiet; try done; intros ? ? [= <-]; rewrite E].
    change (v_db (v_enter a sid v)) with (v_db v). destruct (v_db v).
    + rewrite <- (v_post_nil (v_enter a sid v)). by apply LC_enter; [|left].
    + destruct (v_start_if_needed_post (v_enter a sid v)) as (l & Hl & ->). by apply LC_enter.
  - destruct (v_sess v !! a) as [sid|]; [|by apply Hquiet]. case_bool_decide; [|by apply Hquiet].
    destruct (v_start_if_needed_post v) as (l & [->| ->] & E); rewrite E; [|apply LC_loaded]. rewrite v_post_nil. by apply LC_quiet.
  - destruct (v_players v !! sid); [apply LC_start; right; by eexists|by apply Hquiet].
  - destruct (v_players v !! sid) as [a|] eqn:E; [by eapply LC_leave|]. apply Hquiet; try done. by intros ? [= <-].
  - apply LC_start. by left.
  - apply LC_reset.
  - apply LC_stop.
  - apply LC_gameover.
Qed.

Section Simulation.
Context `{IterationOrder} `{FrameLaws} (D : DataManager) (dis : nat -> Z -> Z).

Lemma api_core id f p sid (r : Room) :
  core (update_monster id f r) = core r /\ core (BroadcastPacket p r) = core r /\ core (SendToPlayer sid p r) = core r.
Proof. split; [|done]. cbn. unfold room_update_monster. by destruct (room_monster id r). Qed.

Lemma view_core r s : core r = core s.1 -> view (r, s.2) = view s.
Proof. destruct s as [r0 e]. unfold core, view; cbn. by intros [= -> -> -> -> -> ->]. Qed.

Lemma ExecuteSetStrategy_core name r : core (ExecuteSetStrategy name r) = core r.
Proof.
  unfold ExecuteSetStrategy. destruct (strategy_of name) as [st|]; [|done]. generalize (GetAllObjects (_objMgr r)). intros l.
  revert r; induction l as [|o l IH]; intros r; [done|]. cbn [foldl]. rewrite IH. destruct (is_monster o); [|done].
  apply (api_core (_id o) (SetMovementStrategy st) (S_PlayerDead 0) 0 r).
Qed.

(** A player operation that does not touch the room's life cycle. *)
Definition quiet_op (f : Player -> Room -> Player * Room) : Prop :=
  forall p r, _sessionId (f p r).1 = _sessionId p /\ core (f p r).2 = core r.

Lemma in_room_quiet (f : Player -> option Room -> Player * option Room) :
  (forall P : Room -> Prop, (forall id g r, P r -> P (update_monster id g r)) -> (forall p r, P r -> P (BroadcastPacket p r)) ->
     (forall sid p r, P r -> P (SendToPlayer sid p r)) -> forall p room, opt_P P room -> stable P p (f p room)) ->
  quiet_op (in_room f).
Proof.
  intros Hf p r. unfold in_room. destruct (Hf (fun r' => core r' = core r)) with (p := p) (room := Some r) as [Hs Ho];
    [intros id g r' <-; by apply (api_core id g (S_PlayerDead 0) 0)|done|done|done|].
  destruct (f p (Some r)) as [p' [r'|]]; cbn in *; done.
Qed.

Lemma with_player_view a f s : quiet_op f -> view (with_player a f s) = view s.
Proof.
  intros Hf. destruct s as [r e]. unfold with_player. destruct (ev_players e !! a) as [p|] eqn:E; [|done].
  destruct (Hf p r) as [Hs Hc]. destruct (f p r) as [p' r']. cbn in Hs, Hc. injection Hc as Ha Hi Hdb Hp Hl Hq.
  unfold view; cbn. rewrite Ha, Hi, Hdb, Hp, Hl, Hq, fmap_insert, Hs. f_equal.
  apply insert_id. by rewrite lookup_fmap, E.
Qed.

Lemma for_each_player_view f s : quiet_op f -> view (for_each_player f s) = view s.
Proof.
  intros Hf. unfold for_each_player. generalize (iter_order (rm_players s.1)). intros l. revert s.
  induction l as [|kv l IH]; intros s; [done|]. cbn [foldl]. rewrite IH. by apply with_player_view.
Qed.

Lemma add_default_quiet : quiet_op (add_default_skills D).
Proof.
  intros p r. unfold add_default_skills. destruct (GetPlayerInfo D 1) as [t|]; [|done].
  destruct (pi_defaultSkills t) as [|k l]; [done|]. apply (in_room_quiet (AddDefaultSkills D (k :: l))).
  intros P Hu Hb Hs p' room. by apply AddDefaultSkills_stable.
Qed.

Lemma add_object_quiet a : quiet_op (fun p r => (p, AddPlayerObject a p r)).
Proof. done. Qed.

Lemma give_exp_quiet exp p r p' r' :
  GiveExp D dis exp p r = Some (p', r') -> _sessionId p' = _sessionId p /\ core r' = core r.
Proof.
  unfold GiveExp. destruct (AddExp D dis exp p (Some r)) as [[p1 room']|] eqn:E; [|done]. cbn. intros [= <- <-].
  apply (AddExp_stable D dis (fun r' => core r' = core r)) in E as [Hs Ho];
    [|intros id g r1 <-; by apply (api_core id g (S_PlayerDead 0) 0)|done|done|done].
  destruct room'; cbn in *; done.
Qed.

Lemma try_player_view a f s s' :
  (forall p r p' r', f p r = Some (p', r') -> _sessionId p' = _sessionId p /\ core r' = core r) ->
  try_player a f s = Some s' -> view s' = view s.
Proof.
  intros Hf. destruct s as [r e]. unfold try_player. destruct (ev_players e !! a) as [p|] eqn:E; [|by intros [= <-]].
  destruct (f p r) as [[p' r']|] eqn:Ef; [|done]. destruct (Hf _ _ _ _ Ef) as [Hs Hc]. cbn. intros [= <-].
  injection Hc as Ha Hi Hdb Hp Hl Hq. unfold view; cbn. rewrite Ha, Hi, Hdb, Hp, Hl, Hq, fmap_insert, Hs. f_equal.
  apply insert_id. by rewrite lookup_fmap, E.
Qed.

Lemma SyncNetwork_core h r : core (SyncNetwork h r) = core r.
Proof.
  unfold SyncNetwork. destruct (room_objects h r) as [|o objs]; [done|].
  assert (forall l (s : list ObjectPos * Room), core (foldl (sync_step (_serverTick (rm_clock r))) s l).2 = core s.2) as Hf.
  { induction l as [|x l IH]; intros s; [done|]. cbn [foldl]. rewrite IH. destruct s as [b r']. unfold sync_step.
    destruct (synced x); [|done]. by destruct (_ <=? _)%nat. }
  assert (forall t l r', core (foldl (ack_player h t) r' l) = core r') as Ha.
  { intros t. induction l as [|x l IH]; intros r'; [done|]. cbn [foldl]. rewrite IH. unfold ack_player.
    destruct (h !! x.2) as [p|]; [|done]. by destruct (IsDead _). }
  specialize (Hf (o :: objs) ([], r)). destruct (foldl _ _ _) as [b r']. cbn in Hf. rewrite Ha. by destruct b.
Qed.

Lemma ExecuteStartGame_view s : view (ExecuteStartGame D s) = v_start (view s).
Proof.
  destruct s as [r e]. unfold ExecuteStartGame, v_start. cbn -[Wave_Start].
  destruct (_gameStarted (rm_life r)); [done|]. by destruct (_timerHandle (rm_life r) =? 0).
Qed.

Lemma InternalClear_view s : view (InternalClear s) = v_clear (view s).
Proof. destruct s as [r e]. unfold InternalClear, v_clear; cbn. by destruct (_timerHandle (rm_life r) =? 0). Qed.

Lemma ExecuteUpdate_view dt s s' : ExecuteUpdate dt s = Some s' ->
  exists l, Forall (fun t => t = TGameOver false) l /\ (l <> [] -> v_game_on (view s) = true) /\ view s' = v_post l (view s).
Proof.
  destruct s as [r e]. unfold ExecuteUpdate, v_game_on. cbn [view v_life v_players fst snd].
  destruct (frame_runs (rm_life r) (rm_players r)) eqn:Eg; cbn [negb].
  2: { intros [= <-]. exists []. by rewrite v_post_nil. }
  set (r1 := set_clock _ r). destruct (simulate dt (ev_players e) r1) as [[h r']|] eqn:Es; [|done].
  pose proof (simulate_ok _ _ _ _ _ Es) as [Ha Hi Hdb Hp Hl (l & Hq & Hall) Hs].
  cbn [mbind option_bind]. intros [= <-]. exists l. split; [done|]. split; [done|].
  pose proof (SyncNetwork_core h r') as Hc. set (r2 := SyncNetwork h r') in *.
  assert (core (BroadcastDebugState r2) = core r') as Hd.
  { rewrite <- Hc. unfold BroadcastDebugState. by destruct (_ <? _)%F. }
  injection Hd as Da Di Ddb Dp Dl Dq. unfold view, v_post; cbn.
  rewrite Da, Di, Ddb, Dp, Dl, Dq, Ha, Hi, Hdb, Hp, Hl, Hq. f_equal. apply map_eq. intros a. by rewrite !lookup_fmap.
Qed.

Lemma start_if_needed_view r e : view (start_if_needed r, e) = v_start_if_needed (view (r, e)).
Proof. unfold start_if_needed, v_start_if_needed. cbn [view v_life fst]. by destruct (_gameStarted (rm_life r)). Qed.

Lemma ExecuteEnter_view a s : view (ExecuteEnter D a s) = v_exec (TEnter a) (view s).
Proof.
  destruct s as [r e]. unfold ExecuteEnter; cbn [fst snd v_exec]. change (v_sess (view (r, e))) with (_sessionId <$> ev_players e).
  rewrite lookup_fmap. destruct (ev_players e !! a) as [p|] eqn:E; [|done]. cbn [fmap option_fmap option_map].
  set (r1 := on_life _ (set_players _ r)). set (e1 := set_heap _ e).
  assert (view (r1, e1) = v_enter a (_sessionId p) (view (r, e))) as <-.
  { unfold view, v_enter; cbn. rewrite fmap_insert, (insert_id (_sessionId <$> ev_players e)); [done|]. by rewrite lookup_fmap, E. }
  change (v_db (view (r1, e1))) with (rm_userDB r1). destruct (rm_userDB r1); [done|].
  pose proof (with_player_view a (add_default_skills D) (r1, e1) add_default_quiet) as Hv1.
  destruct (with_player a (add_default_skills D) (r1, e1)) as [r2 e2].
  pose proof (with_player_view a _ (r2, e2) (add_object_quiet a)) as Hv2.
  destruct (with_player a _ (r2, e2)) as [r3 e3]. by rewrite start_if_needed_view, Hv2, Hv1.
Qed.

Lemma ExecuteLoaded_view a skills s : view (ExecuteLoaded D a skills s) = v_exec (TLoaded a skills) (view s).
Proof.
  unfold ExecuteLoaded. cbn [v_exec]. change (v_sess (view s)) with (_sessionId <$> ev_players s.2).
  rewrite lookup_fmap. destruct (ev_players s.2 !! a) as [p|]; [|done]. cbn [fmap option_fmap option_map].
  change (v_players (view s)) with (rm_players s.1). case_bool_decide; [|done].
  assert (quiet_op (in_room (ApplySkills skills))) as Hq.
  { apply in_room_quiet. intros P Hu Hb Hs p' room. by apply ApplySkills_stable. }
  pose proof (with_player_view a _ s Hq) as Hv1. set (s1 := with_player a _ s) in *.
  pose proof (with_player_view a _ s1 (add_object_quiet a)) as Hv2. set (s2 := with_player a _ s1) in *.
  pose proof (with_player_view a _ s2 add_default_quiet) as Hv3. destruct (with_player a _ s2) as [r3 e3].
  by rewrite start_if_needed_view, Hv3, Hv2, Hv1.
Qed.

Lemma ExecuteOnPlayerReady_view sid s : view (ExecuteOnPlayerReady D sid s) = v_exec (TReady sid) (view s).
Proof.
  unfold ExecuteOnPlayerReady. cbn [v_exec]. change (v_players (view s)) with (rm_players s.1).
  destruct (rm_players s.1 !! sid) as [a|]; [|done].
  set (f := fun p r => _). assert (quiet_op f) as Hf by done.
  pose proof (with_player_view a f s Hf) as Hv1. set (s1 := with_player a f s) in *.
  pose proof (ExecuteStartGame_view s1) as Hv2. destruct (ExecuteStartGame D s1) as [r e]. rewrite <- Hv1, <- Hv2.
  assert (forall r' : Room, core r' = core r -> view (r', e) = view (r, e)) as Hdone.
  { intros r' Hc. by apply (view_core r' (r, e)). }
  destruct (ev_players e !! a) as [p|]; apply Hdone; by destruct (room_objects (ev_players e) r).
Qed.

Lemma ExecuteLeave_view sid s : view (ExecuteLeave D sid s) = v_exec (TLeave sid) (view s).
Proof.
  unfold ExecuteLeave. cbn [v_exec]. change (v_players (view s)) with (rm_players s.1).
  destruct (rm_players s.1 !! sid) as [a|] eqn:E; [|done].
  set (f := fun p r => _). assert (quiet_op f) as Hf by done.
  pose proof (with_player_view a f s Hf) as Hv1. destruct (with_player a f s) as [r e].
  rewrite <- Hv1 in *. unfold v_leave. cbn [v_players v_set_life v_set_players v_id view fst snd].
  change (_roomId (on_life _ (set_players (delete sid (rm_players r)) r))) with (_roomId r).
  change (rm_players (on_life _ (set_players (delete sid (rm_players r)) r))) with (delete sid (rm_players r)).
  destruct (bool_decide (delete sid (rm_players r) = ∅)); [|done].
  destruct (_roomId r =? DEFAULT_ROOM_ID); [done|].
  set (r1 := on_life _ _). pose proof (InternalClear_view (r1, e)) as Hc. unfold ExecuteStop.
  destruct (InternalClear (r1, e)) as [r2 e2].
  assert (forall r3 e3, view (ExecuteReset D r3, e3) = v_reset (view (r3, e3))) as -> by done. by rewrite Hc.
Qed.

Lemma give_all_exp_view exp l s s' :
  for_each (fun kv : Z * Z => try_player kv.2 (GiveExp D dis exp)) l s = Some s' -> view s' = view s.
Proof.
  revert s; induction l as [|kv l IH]; intros s; cbn [for_each]; [by intros [= <-]|].
  destruct (try_player _ _ s) as [s1|] eqn:E; [|done]. cbn. intros Hs. rewrite (IH s1 Hs).
  eapply try_player_view; [|exact E]. intros p r p' r'. apply give_exp_quiet.
Qed.

(** Every task does to the room's life cycle what the abstract machine says. *)
Lemma exec_task_life t s s' : exec_task D dis t s = Some s' -> life_step t (view s) (view s').
Proof.
  assert (t <> TUpdate -> view s' = v_exec t (view s) -> life_step t (view s) (view s')) as Hexec.
  { intros Ht ->. by apply LS_exec. }
  destruct t as [a|a skills|sid|sid| | | |w| |a tick dx dy|a i| |exp|name|typeId count]; cbn [exec_task] in *.
  - intros [= <-]. apply Hexec, ExecuteEnter_view. done.
  - intros [= <-]. apply Hexec, ExecuteLoaded_view. done.
  - intros [= <-]. apply Hexec, ExecuteOnPlayerReady_view. done.
  - intros [= <-]. apply Hexec, ExecuteLeave_view. done.
  - intros [= <-]. apply Hexec, ExecuteStartGame_view. done.
  - intros [= <-]. by apply Hexec.
  - intros [= <-]. apply Hexec, InternalClear_view. done.
  - intros [= <-]. apply Hexec; [done|]. destruct s as [r e]. unfold ExecuteHandleGameOver; cbn [fst snd v_exec].
    destruct (_isGameOver (rm_life r)) eqn:E; [|done]. unfold view, v_set_life, set_gameOver. cbn. rewrite <- E. by destruct (rm_life r).
  - unfold Update. destruct (ExecuteUpdate TICK_INTERVAL_SEC s) as [[r e]|] eqn:E; [|done]. cbn. intros [= <-].
    destruct (ExecuteUpdate_view _ _ _ E) as (l & Hl & Hon & Hv).
    assert (view (on_life (set_updating false) r, e) = v_set_life (set_updating false (v_life (view s))) (v_post l (view s))) as ->;
      [|by apply LS_update].
    rewrite <- Hv. change (v_life (view s)) with (v_life (v_post l (view s))). by rewrite <- Hv.
  - intros [= <-]. apply Hexec; [done|]. apply with_player_view. intros p r. split; [|done]. cbn. unfold ApplyInput.
    by repeat case_match.
  - intros [= <-]. apply Hexec; [done|]. apply with_player_view, in_room_quiet. intros P Hu Hb Hs p room. by apply SelectLevelUp_stable.
  - intros [= <-]. apply Hexec; [done|]. by apply for_each_player_view.
  - intros E. apply Hexec; [done|]. by eapply give_all_exp_view.
  - intros [= <-]. apply Hexec; [done|]. apply (view_core (ExecuteSetStrategy name s.1) s), ExecuteSetStrategy_core.
  - destruct (summon typeId count (ev_players s.2) s.1) as [r|] eqn:E; [|done]. cbn. intros [= <-]. apply Hexec; [done|].
    apply (view_core r s). by eapply summon_core.
Qed.

(** Only a frame, the giving of experience and the console's spawning can be undefined. *)
Lemma exec_task_defined t s : may_be_undefined t = false -> is_Some (exec_task D dis t s).
Proof. destruct t; cbn [may_be_undefined]; intros E; try discriminate E; by eexists. Qed.

End Simulation.

(** ** Runs of a room *)

(** History: resets and stops executed, players entered, and the entries counted
    that have no player (a session that entered again, players dropped by a stop). *)
Record Ghost := mkGhost { g_resets : nat; g_stops : nat; g_enters : Z; g_slips : Z }.

Definition ghost_after (t : Task) (v : View) (g : Ghost) : Ghost :=
  match t with
  | TEnter a =>
      match v_sess v !! a with
      | Some sid => mkGhost (g_resets g) (g_stops g) (g_enters g + 1)
                      (g_slips g + (if bool_decide (is_Some (v_players v !! sid)) then 1 else 0))
      | None => g
      end
  | TLeave sid =>
      if bool_decide (is_Some (v_players v !! sid))
      then if bool_decide (delete sid (v_players v) = ∅) then mkGhost (S (g_resets g)) (g_stops g) (g_enters g) 0 else g
      else g
  | TStop => mkGhost (g_resets g) (S (g_stops g)) (g_enters g) (g_slips g + Z.of_nat (size (v_players v)))
  | _ => g
  end.

(** What the rest of the server posts: nobody calls [Reset], updates come from the
    timer and stops from [Stop]. *)
Definition postable (t : Task) : Prop := t <> TUpdate /\ t <> TStop /\ t <> TReset.

(** What the rest of the server does to the shared part: it makes players and runs
    the other rooms. *)
Definition others (addr : Z) (e e' : Env) : Prop :=
  (forall h, ev_timers e' !! h = Some addr <-> ev_timers e !! h = Some addr) /\
  ev_nextHandle e <= ev_nextHandle e' /\
  (forall h, is_Some (ev_timers e' !! h) -> h < ev_nextHandle e').

Section Runs.
Context `{IterationOrder} `{FrameLaws} (D : DataManager) (dis : nat -> Z -> Z).

Inductive room_act : (Room * Env) * Ghost -> (Room * Env) * Ghost -> Prop :=
| act_post t s g : postable t -> room_act (s, g) ((Post t s.1, s.2), g)
| act_stop s g : room_act (s, g) ((Stop s.1, s.2), g)
| act_timer s g : room_act (s, g) ((OnTimer s.1, s.2), g)
| act_run t q s s' g : rm_queue s.1 = t :: q -> exec_task D dis t (set_queue q s.1, s.2) = Some s' ->
    room_act (s, g) (s', ghost_after t (view s) g)
| act_others e' s g : others (rm_addr s.1) s.2 e' -> room_act (s, g) ((s.1, e'), g)
(* a chat command changes monsters and sends packets from the main thread *)
| act_command r' s g : core r' = core s.1 -> room_act (s, g) ((r', s.2), g).

Definition env_fresh (addr : Z) (e : Env) : Prop :=
  0 < ev_nextHandle e /\ (forall h, is_Some (ev_timers e !! h) -> h < ev_nextHandle e) /\
  (forall h, ev_timers e !! h <> Some addr).

(** Rooms as [CreateRoom] makes them: constructed and started. *)
Inductive room_reachable : (Room * Env) * Ghost -> Prop :=
| reach_new addr roomId mapId title userDB e : env_fresh addr e ->
    room_reachable (Start (Room_new addr roomId mapId title userDB, e), mkGhost 0 0 0 0)
| reach_act x y : room_reachable x -> room_act x y -> room_reachable y.

Definition is_update (t : Task) : bool := match t with TUpdate => true | _ => false end.
Definition n_updates (q : list Task) : nat := length (filter is_update q).

Record life_inv (v : View) (g : Ghost) : Prop := mk_life_inv {
  li_timer : forall h, v_timers v !! h = Some (v_addr v) <-> h = _timerHandle (v_life v) /\ h <> 0;
  li_fresh : 0 < v_next v /\ (forall h, is_Some (v_timers v !! h) -> h < v_next v);
  li_driven : g_stops g = 0%nat -> _gameStarted (v_life v) = true -> _timerHandle (v_life v) <> 0;
  li_updates : (n_updates (v_queue v) <= (if _isUpdating (v_life v) then 1 else 0) + g_resets g)%nat;
  li_posted : TReset ∉ v_queue v;
  li_enters : Z.of_nat (size (v_players v)) + g_slips g <= g_enters g /\ 0 <= g_slips g;
  li_count : g_enters g < 2 ^ 64 -> _playerCount (v_life v) = Z.of_nat (size (v_players v)) + g_slips g
}.

Arguments n_updates : simpl never.

Lemma n_updates_cons t q : n_updates (t :: q) = ((if is_update t then 1 else 0) + n_updates q)%nat.
Proof. unfold n_updates. rewrite filter_cons. by destruct t. Qed.

Lemma n_updates_app q q' : n_updates (q ++ q') = (n_updates q + n_updates q')%nat.
Proof. unfold n_updates. by rewrite filter_app, length_app. Qed.

Lemma n_updates_none q : Forall (fun t => t <> TUpdate) q -> n_updates q = 0%nat.
Proof. induction 1 as [|t q Ht _ IH]; [done|]. rewrite n_updates_cons, IH. by destruct t. Qed.

(** Posting tasks other than updates and resets. *)
Lemma v_post_inv l v g : Forall (fun t => t <> TUpdate /\ t <> TReset) l -> life_inv v g -> life_inv (v_post l v) g.
Proof.
  intros Hl [Ht Hf Hd Hu Hp He Hc]. constructor; cbn; try done.
  - rewrite n_updates_app, (n_updates_none l); [lia|]. eapply Forall_impl; [exact Hl|]. by intros t [? _].
  - intros [?|Hin]%elem_of_app; [done|]. rewrite Forall_forall in Hl. by destruct (Hl _ Hin).
Qed.

Lemma v_start_inv v g : life_inv v g -> life_inv (v_start v) g.
Proof.
  intros Hinv. unfold v_start. destruct (_gameStarted (v_life v)) eqn:Eg; [done|].
  destruct Hinv as [Ht [Hn Hf] Hd Hu Hp He Hc]. cbn.
  destruct (_timerHandle (v_life v) =? 0) eqn:Eh; bool_to_prop; constructor; cbn; try done; try lia.
  - intros h. destruct (decide (h = v_next v)) as [->|Hne]; [rewrite lookup_insert_eq; intuition lia|].
    rewrite lookup_insert_ne by done. rewrite Ht, Eh. intuition lia.
  - split; [lia|]. intros h. destruct (decide (h = v_next v)) as [->|Hne]; [lia|]. rewrite lookup_insert_ne by done.
    intros Hh. apply Hf in Hh. lia.
Qed.

Lemma v_clear_inv v g s : life_inv v g ->
  life_inv (v_clear v) (mkGhost (g_resets g) (S s) (g_enters g) (g_slips g + Z.of_nat (size (v_players v)))).
Proof.
  intros [Ht [Hn Hf] Hd Hu Hp He Hc]. unfold v_clear.
  destruct (_timerHandle (v_life v) =? 0) eqn:Eh; bool_to_prop; constructor; cbn; try done; try lia;
    try (intros Hlt; rewrite map_size_empty; rewrite Hc by lia; lia); try (rewrite map_size_empty; lia).
  - intros h. destruct (decide (h = _timerHandle (v_life v))) as [->|Hne].
    + rewrite lookup_delete_eq. split; [done|intuition].
    + rewrite lookup_delete_ne by done. rewrite Ht. intuition lia.
  - split; [lia|]. intros h [x Hx]. apply lookup_delete_Some in Hx as [_ Hx]. apply Hf. by exists x.
Qed.

Lemma v_enter_inv a sid v g : life_inv v g ->
  life_inv (v_enter a sid v) (mkGhost (g_resets g) (g_stops g) (g_enters g + 1)
    (g_slips g + (if bool_decide (is_Some (v_players v !! sid)) then 1 else 0))).
Proof.
  intros [Ht [Hn Hf] Hd Hu Hp He Hc].
  assert (Z.of_nat (size (<[sid := a]> (v_players v))) =
          Z.of_nat (size (v_players v)) + 1 - (if bool_decide (is_Some (v_players v !! sid)) then 1 else 0)) as Hs.
  { destruct (v_players v !! sid) as [x|] eqn:E.
    - rewrite map_size_insert_Some, bool_decide_true by eauto. lia.
    - rewrite map_size_insert_None, bool_decide_false by (done || by intros [? ?]). lia. }
  constructor; cbn -[size]; try done; rewrite ?Hs; [destruct (bool_decide _); lia|].
  intros Hlt. rewrite Hc by lia. rewrite wrap_small by (unfold in_u; lia). lia.
Qed.

(** The last player leaving resets, another one does not. *)
Lemma v_leave_inv sid a v g : v_players v !! sid = Some a -> life_inv v g -> life_inv (v_leave sid v) (ghost_after (TLeave sid) v g).
Proof.
  intros Hsid Hinv. cbn [ghost_after]. rewrite (bool_decide_true (is_Some _)) by eauto. unfold v_leave.
  assert (size (delete sid (v_players v)) = pred (size (v_players v))) as Hsz by (apply map_size_delete_Some; eauto).
  assert (size (v_players v) <> 0%nat) as Hpos by (intros E%map_size_empty_inv; by rewrite E, lookup_empty in Hsid).
  cbn [v_players v_set_life v_set_players v_id].
  destruct (bool_decide (delete sid (v_players v) = ∅)) eqn:Eb; [apply bool_decide_eq_true in Eb|clear Eb].
  - set (v1 := v_set_life _ _).
    assert (forall v2 : View, v_players v2 = ∅ -> v_queue v2 = v_queue v -> v_addr v2 = v_addr v -> v_next v2 = v_next v ->
      (forall h, v_timers v2 !! h = Some (v_addr v) <-> h = _timerHandle (v_life v2) /\ h <> 0) ->
      (forall h, is_Some (v_timers v2 !! h) -> h < v_next v) ->
      life_inv (v_reset v2) (mkGhost (S (g_resets g)) (g_stops g) (g_enters g) 0)) as Hdone.
    { destruct Hinv as [Ht [Hn Hf] Hd Hu Hp He Hc]. intros v2 E1 E2 E3 E4 Ht2 Hf2.
      constructor; cbn; rewrite ?E1, ?E2, ?E3, ?E4, ?map_size_empty; try done; try lia.
      destruct (_isUpdating _); lia. }
    destruct Hinv as [Ht [Hn Hf] Hd Hu Hp He Hc].
    destruct (v_id v =? DEFAULT_ROOM_ID); [by apply Hdone|]. apply Hdone; unfold v_clear;
      change (v_life v1) with (set_count (u64 (_playerCount (v_life v) - 1)) (v_life v)); cbn [_timerHandle set_count];
      destruct (_timerHandle (v_life v) =? 0) eqn:Eh; bool_to_prop; cbn; try done.
    + intros h. destruct (decide (h = _timerHandle (v_life v))) as [->|Hne].
      * rewrite lookup_delete_eq. split; [done|intuition].
      * rewrite lookup_delete_ne by done. rewrite Ht. intuition lia.
    + intros h [x Hx]. apply lookup_delete_Some in Hx as [_ Hx]. apply Hf. by exists x.
  - destruct Hinv as [Ht [Hn Hf] Hd Hu Hp He Hc]. constructor; cbn -[size]; try done; rewrite ?Hsz; [lia|].
    intros Hlt. rewrite Hc by lia. rewrite wrap_small by (unfold in_u; lia). lia.
Qed.

Lemma life_step_inv t q v v' g :
  v_queue v = q -> life_inv (mkView (v_addr v) (v_id v) (v_db v) (v_players v) (v_life v) (t :: q) (v_timers v) (v_next v) (v_sess v)) g ->
  life_change t v v' -> life_inv v' (ghost_after t v g).
Proof.
  intros Hq Hinv. pose proof (li_updates _ _ Hinv) as Hu. cbn in Hu. rewrite n_updates_cons in Hu.
  assert (t <> TReset) as Hnr by (intros ->; apply (li_posted _ _ Hinv); left).
  assert (t <> TUpdate -> life_inv v g) as Hv.
  { intros Ht. destruct Hinv as [? ? ? _ Hp ? ?]. constructor; try done; rewrite Hq.
    - destruct t; cbn in Hu; try lia; done.
    - intros Hin. apply Hp. by right. }
  intros Hstep. destruct Hstep as [t v Htu Hts Htr Hen Hle|a sid l v Hsid Hl|a skills v|sid a v Hsid|t v Ht|v|v|w v|l v Hl]; try done.
  - assert (ghost_after t v g = g) as ->; [|by apply Hv]. destruct t as [a| | |sid| | | | | | | | | | |]; cbn; try done.
    + destruct (v_sess v !! a) as [sid|] eqn:E; [|done]. by destruct (Hen a sid).
    + rewrite (Hle sid) by done. by rewrite bool_decide_false by (by intros [? ?]).
  - cbn. rewrite Hsid. apply v_post_inv; [|by apply v_enter_inv, Hv]. by destruct Hl as [->| ->]; repeat constructor.
  - apply v_post_inv; [by repeat constructor|by apply Hv].
  - eapply v_leave_inv; [done|by apply Hv].
  - assert (ghost_after t v g = g) as -> by (by destruct Ht as [->|[sid ->]]). apply v_start_inv, Hv.
    by destruct Ht as [->|[sid ->]].
  - cbn. by apply v_clear_inv, Hv.
  - cbn. destruct (Hv ltac:(done)) as [? ? ? ? ? ? ?]. by constructor.
  - cbn in Hu |- *. destruct Hinv as [? ? ? _ Hp ? ?]. constructor; try done; cbn; rewrite Hq.
    + rewrite n_updates_app, (n_updates_none l); [destruct (_isUpdating _); lia|].
      eapply Forall_impl; [exact Hl|]. by intros t ->.
    + intros [Hin|Hin]%elem_of_app; [apply Hp; by right|]. rewrite Forall_forall in Hl. by specialize (Hl _ Hin).
Qed.

Lemma reachable_inv x : room_reachable x -> life_inv (view x.1) x.2.
Proof.
  induction 1 as [addr roomId mapId title userDB e (Hn & Hf & Hno)|x y _ IH Hact].
  - constructor; cbn -[size]; try done; try lia.
    + intros h. destruct (decide (h = ev_nextHandle e)) as [->|Hne].
      * rewrite lookup_insert_eq. intuition lia.
      * rewrite lookup_insert_ne by done. split; [intros Hh; by destruct (Hno h)|intuition].
    + split; [lia|]. intros h. destruct (decide (h = ev_nextHandle e)) as [->|Hne]; [lia|].
      rewrite lookup_insert_ne by done. intros Hh%Hf. lia.
    + set_solver.
  - destruct Hact as [t s g (Hu & Hs & Hr)|s g|s g|t q s s' g Hq Hrun|e' s g (Ht & Hn & Hf)|r' s g Hc]; cbn [fst snd] in *.
    + change (view (Post t s.1, s.2)) with (v_post [t] (view s)). by apply v_post_inv; [repeat constructor|].
    + unfold Stop. destruct (_isStopping (rm_life s.1)); [by destruct s|].
      change (view _) with (v_post [TStop] (v_set_life (set_stopping true (v_life (view s))) (view s))).
      apply v_post_inv; [by repeat constructor|]. by destruct IH.
    + unfold OnTimer. destruct (_isUpdating (rm_life s.1)) eqn:E; [by destruct s|].
      destruct IH as [? ? ? Hu Hp ? ?]. constructor; cbn -[size] in *; try done.
      * rewrite n_updates_app. rewrite E in Hu. change (n_updates [TUpdate]) with 1%nat. lia.
      * intros [?|?]%elem_of_app; set_solver.
    + assert (ghost_after t (view s) g = ghost_after t (view (set_queue q s.1, s.2)) g) as -> by (by destruct t).
      apply (life_step_inv t q (view (set_queue q s.1, s.2))); [done| |by eapply life_step_change, exec_task_life].
      unfold view in IH. by rewrite Hq in IH.
    + destruct IH as [Ht' [Hn' Hf'] ? ? ? ? ?]. constructor; cbn -[size] in *; try done.
      * intros h. by rewrite Ht.
      * split; [lia|done].
    + by rewrite (view_core r' s Hc).
Qed.

(** C29: a room as the manager creates it, whatever is posted to it, whenever its
    timer fires and however its strand is scheduled against the rest of the server:
    at most one timer ever calls it; while its game runs (and [Stop] was not called)
    its timer is running; the updates waiting in its strand are at most one more than
    the times the room was reset; and the player count that the room list shows is
    the number of players plus the entries left over by sessions that entered twice
    and by stops, so that it never wraps below zero. *)
Theorem room_life_cycle r e g :
  room_reachable ((r, e), g) ->
  (forall h h', ev_timers e !! h = Some (rm_addr r) -> ev_timers e !! h' = Some (rm_addr r) -> h = h') /\
  (g_stops g = 0%nat -> _gameStarted (rm_life r) = true -> ev_timers e !! _timerHandle (rm_life r) = Some (rm_addr r)) /\
  (n_updates (rm_queue r) <= 1 + g_resets g)%nat /\
  (g_enters g < 2 ^ 64 -> _playerCount (rm_life r) = Z.of_nat (size (rm_players r)) + g_slips g /\ 0 <= g_slips g).
Proof.
  intros [Ht [Hn Hf] Hd Hu Hp He Hc]%reachable_inv. cbn -[size] in *. repeat split.
  - intros h h' Hh Hh'. apply Ht in Hh as [-> _]. by apply Ht in Hh' as [-> _].
  - intros Hg Hs. apply Ht. auto.
  - destruct (_isUpdating (rm_life r)); lia.
  - auto.
  - lia.
Qed.

(** C30: the strand's tasks, with everything they do to players, objects and clients,
    refine the abstract life cycle [v_exec]: what the oldest task does to the room's
    players, its flags and counters, its queue, its timers and the sessions of the
    players is exactly the abstract step of that task (and for the update of a frame:
    it gives the flag back, and posts the end of the game at most when the game was
    on); and every task but a frame, the giving of experience and a spawn, which
    have undefined cases, does run. *)
Theorem room_refines_life_cycle t q s :
  rm_queue s.1 = t :: q ->
  (may_be_undefined t = false -> is_Some (strand_step D dis s)) /\
  (forall s', strand_step D dis s = Some s' -> life_step t (view (set_queue q s.1, s.2)) (view s')).
Proof.
  intros Hq. unfold strand_step. rewrite Hq. split; [apply exec_task_defined|]. intros s'. apply exec_task_life.
Qed.

End Runs.

(** ** The frame's packets *)

Section Sync.
Context `{IterationOrder}.

Lemma emit_emit l l' r : emit l' (emit l r) = emit (l ++ l') r.
Proof. unfold emit; cbn. by rewrite app_assoc. Qed.

Lemma emit_nil r : emit [] r = r.
Proof. unfold emit. rewrite app_nil_r. by destruct r. Qed.

(** Who a broadcast goes to; session 0 is the exclusion's default. *)
Definition listeners (r : Room) : list Z := filter (fun sid => sid ≠ 0) (iter_order (rm_players r)).*1.

Definition batch_packets (tick : Z) (sids : list Z) (batches : list (list ObjectPos)) : list Out :=
  flat_map (fun b => map (fun sid => ToSession sid (S_MoveBatch tick b)) sids) batches.

Definition ack_packets (h : gmap Z Player) (tick : Z) (players : list (Z * Z)) : list Out :=
  omap (fun kv => p ← h !! kv.2;
     if IsDead (p_obj p) then None
     else Some (ToSession kv.1 (S_PlayerStateAck tick (_lastInputTick p) (_x (p_obj p)) (_y (p_obj p))))) players.

Lemma sync_fold tick l : forall batch r,
  (length batch < CHUNK_SIZE)%nat -> exists full rest,
    foldl (sync_step tick) (batch, r) l = (rest, emit (batch_packets tick (listeners r) full) r) /\
    concat full ++ rest = batch ++ map pos_of (filter synced l) /\
    Forall (fun b => length b = CHUNK_SIZE) full /\ (length rest < CHUNK_SIZE)%nat.
Proof.
  induction l as [|o l IH]; intros batch r Hb.
  - exists [], batch. cbn. by rewrite emit_nil, app_nil_r.
  - cbn [foldl]. unfold sync_step at 2. rewrite filter_cons. destruct (synced o) eqn:Es.
    2:{ rewrite decide_False by (by intros []). by apply IH. }
    rewrite decide_True by done. cbn [map].
    destruct (CHUNK_SIZE <=? length (batch ++ [pos_of o]))%nat eqn:El.
    + apply Nat.leb_le in El. destruct (IH [] (Room_BroadcastPacket (S_MoveBatch tick (batch ++ [pos_of o])) 0 r)) as (full & rest & -> & Hc & Hf & Hr);
        [cbn; unfold CHUNK_SIZE; lia|].
      exists ((batch ++ [pos_of o]) :: full), rest. split; [|split; [|split; [|done]]].
      * unfold Room_BroadcastPacket, send_each. by rewrite emit_emit.
      * cbn. rewrite <- app_assoc, Hc, <- app_assoc. done.
      * constructor; [|done]. rewrite length_app in *. cbn in *. lia.
    + apply Nat.leb_gt in El. destruct (IH (batch ++ [pos_of o]) r El) as (full & rest & -> & Hc & Hf & Hr).
      exists full, rest. rewrite Hc, <- app_assoc. done.
Qed.

Lemma ack_fold h tick l r : foldl (ack_player h tick) r l = emit (ack_packets h tick l) r.
Proof.
  revert r. induction l as [|kv l IH]; intros r; [by rewrite emit_nil|]. cbn [foldl]. rewrite IH. unfold ack_player, ack_packets.
  cbn [omap list_omap]. destruct (h !! kv.2) as [p|]; [|done]. cbn [mbind option_bind]. destruct (IsDead (p_obj p)); [done|].
  unfold Room_SendToPlayer. by rewrite emit_emit.
Qed.

(** C35: with no object in the room the synchronisation of a frame does nothing at
    all, and acknowledges nobody. With objects it sends the state of every object that
    is neither dead nor has a position or velocity that is not a number, exactly once
    and in order, in packets of 300 of which only the last may be smaller and none is
    empty, each to every player of the room; then its own acknowledgement to every
    player that lives; and it changes nothing else. *)
Theorem sync_network_exact h r :
  let tick := _serverTick (rm_clock r) in
  if bool_decide (room_objects h r = []) then SyncNetwork h r = r
  else exists full rest,
    concat full ++ rest = map pos_of (filter synced (room_objects h r)) /\
    Forall (fun b => length b = 300%nat) full /\ (length rest < 300)%nat /\
    SyncNetwork h r =
      emit (batch_packets tick (listeners r) (full ++ match rest with [] => [] | _ => [rest] end) ++
            ack_packets h tick (iter_order (rm_players r))) r.
Proof.
  cbn zeta. case_bool_decide as Hne; [unfold SyncNetwork; by rewrite Hne|].
  unfold SyncNetwork. destruct (sync_fold (_serverTick (rm_clock r)) (room_objects h r) [] r) as (full & rest & Hf & Hc & Hall & Hr);
    [cbn; unfold CHUNK_SIZE; lia|].
  exists full, rest. split; [done|]. split; [done|]. split; [done|].
  destruct (room_objects h r) as [|o objs]; [done|]. rewrite Hf.
  assert (forall bs, batch_packets (_serverTick (rm_clock r)) (listeners r) (full ++ bs) =
            batch_packets (_serverTick (rm_clock r)) (listeners r) full ++ batch_packets (_serverTick (rm_clock r)) (listeners r) bs) as Happ.
  { intros bs. apply flat_map_app. }
  rewrite Happ. destruct rest as [|p rest].
  - rewrite ack_fold, emit_emit. cbn [batch_packets flat_map]. by rewrite app_nil_r.
  - rewrite ack_fold. unfold Room_BroadcastPacket, send_each. rewrite !emit_emit. unfold batch_packets. cbn [flat_map].
    by rewrite app_nil_r, app_assoc.
Qed.

End Sync.

(** ** The nearest player *)

Section Nearest.
Context `{IterationOrder}.

Definition dist_sq (x y : float) (p : Player) : float :=
  let dx := (_x (p_obj p) - x)%F in let dy := (_y (p_obj p) - y)%F in (dx * dx + dy * dy)%F.

(** The candidate so far is as near as any living player seen. *)
Definition nearest_so_far (h : gmap Z Player) (x y : float) (seen : list (Z * Z)) (s : option Z * float) : Prop :=
  match s.1 with
  | Some a => exists sid p, (sid, a) ∈ seen /\ h !! a = Some p /\ IsDead (p_obj p) = false /\ s.2 = dist_sq x y p /\
                            (dist_sq x y p <? FLT_MAX)%F = true
  | None => s.2 = FLT_MAX
  end /\
  forall sid a p, (sid, a) ∈ seen -> h !! a = Some p -> IsDead (p_obj p) = false -> (dist_sq x y p <? s.2)%F = false.

Lemma nearest_step_ok h x y seen s kv :
  nearest_so_far h x y seen s -> nearest_so_far h x y (seen ++ [kv]) (nearest_step h x y s kv).
Proof.
  intros [Hs Hall]. destruct kv as [sk ak]. unfold nearest_step. cbn [fst snd].
  assert ((forall p, h !! ak = Some p -> IsDead (p_obj p) = false -> (dist_sq x y p <? s.2)%F = false) ->
          nearest_so_far h x y (seen ++ [(sk, ak)]) s) as Hkeep.
  { intros Hkv. split.
    - destruct s as [[a|] d]; [|done]. destruct Hs as (sid & p & Hin & Hrest). exists sid, p.
      split; [apply elem_of_app; by left|done].
    - intros sid a p [Hin|[= -> ->]%list_elem_of_singleton]%elem_of_app Hp Hd; [by eapply Hall|by apply (Hkv p)]. }
  destruct (h !! ak) as [p|] eqn:Ep; [|by apply Hkeep].
  destruct (IsDead (p_obj p)) eqn:Ed; [apply Hkeep; congruence|]. change (_ + _)%F with (dist_sq x y p).
  destruct (dist_sq x y p <? s.2)%F eqn:El; [|apply Hkeep; congruence]. split; cbn [fst snd].
  - exists sk, p. split; [apply elem_of_app; right; by apply list_elem_of_singleton|].
    repeat split; try done. destruct s as [[a|] d]; cbn [fst snd] in *; [|by rewrite Hs in El].
    destruct Hs as (_ & p0 & _ & _ & _ & -> & Hlt). by eapply SFltb_trans.
  - intros sid a p' [Hin|[= -> ->]%list_elem_of_singleton]%elem_of_app Hp Hd.
    + destruct (dist_sq x y p' <? dist_sq x y p)%F eqn:E; [|done].
      rewrite <- (Hall _ _ _ Hin Hp Hd). symmetry. by eapply SFltb_trans.
    + rewrite Ep in Hp. injection Hp as <-. apply SFltb_irrefl.
Qed.

(** The nearest player ([GetNearestPlayer], on which gems, monsters and homing
    projectiles rely) is a living player of the room such that no living player of
    the room is nearer; there is none only when every living player is so far away
    that the squared distance reaches the largest float. *)
Theorem nearest_player_exact h x y r :
  match GetNearestPlayer h x y r with
  | Some a => exists sid p, rm_players r !! sid = Some a /\ h !! a = Some p /\ IsDead (p_obj p) = false /\
      forall sid' a' p', rm_players r !! sid' = Some a' -> h !! a' = Some p' -> IsDead (p_obj p') = false ->
        (dist_sq x y p' <? dist_sq x y p)%F = false
  | None => forall sid a p, rm_players r !! sid = Some a -> h !! a = Some p -> IsDead (p_obj p) = false ->
        (dist_sq x y p <? FLT_MAX)%F = false
  end.
Proof.
  assert (forall l seen s, nearest_so_far h x y seen s -> nearest_so_far h x y (seen ++ l) (foldl (nearest_step h x y) s l)) as Hf.
  { induction l as [|kv l IH]; intros seen s Hs; [by rewrite app_nil_r|]. cbn [foldl]. rewrite cons_middle, app_assoc.
    by apply IH, nearest_step_ok. }
  destruct (Hf (iter_order (rm_players r)) [] (None, FLT_MAX)) as [Hs Hall]; [split; [done|set_solver]|].
  unfold GetNearestPlayer. destruct (foldl _ _ _) as [[a|] d]; cbn [fst snd app] in *.
  - destruct Hs as (sid & p & Hin & Hp & Hd & -> & _). exists sid, p. apply elem_of_iter_order in Hin.
    repeat split; try done. intros sid' a' p' Hin' Hp' Hd'. eapply Hall; try done. by apply elem_of_iter_order.
  - intros sid a p Hin Hp Hd. rewrite <- Hs. eapply Hall; try done. by apply elem_of_iter_order.
Qed.

End Nearest.

(** ** A small room *)

(** A simulation with nothing in it. *)
#[local] Instance idle_frame : RoomFrame := {| simulate _ h r := Some (h, r); summon _ _ _ r := Some r |}.
#[local] Instance idle_frame_ok : FrameLaws.
Proof. constructor; [|by intros ? ? ? ? ? [= <-]]. intros dt h r h' r' [= <- <-]. constructor; try done. exists []. by rewrite app_nil_r. Qed.

Definition demo_env : Env := mkServerEnv {[10 := Player_new 5 5; 11 := Player_new 5 5]} ∅ 1 [].
Definition small_room : Room * Env := Start (Room_new 0 1 1 EmptyString false, demo_env).

(** One act of a run, on the room and its history. *)
Definition post_ (t : Task) (x : (Room * Env) * Ghost) := ((Post t x.1.1, x.1.2), x.2).
Definition timer_ (x : (Room * Env) * Ghost) := ((OnTimer x.1.1, x.1.2), x.2).
Definition run_ (x : (Room * Env) * Ghost) :=
  match rm_queue x.1.1 with
  | [] => x
  | t :: q =>
      match exec_task (H := any_order) whip_data demo_dis t (set_queue q x.1.1, x.1.2) with
      | Some s => (s, ghost_after t (view x.1) x.2)
      | None => x
      end
  end.

Abbreviation demo_reachable := (room_reachable (H := any_order) whip_data demo_dis).

Lemma reach_post t x : postable t -> demo_reachable x -> demo_reachable (post_ t x).
Proof. intros Ht Hx. destruct x as [s g]. eapply reach_act; [exact Hx|by apply act_post]. Qed.

Lemma reach_timer x : demo_reachable x -> demo_reachable (timer_ x).
Proof. intros Hx. destruct x as [s g]. eapply reach_act; [exact Hx|apply act_timer]. Qed.

Lemma reach_run x : demo_reachable x -> demo_reachable (run_ x).
Proof.
  intros Hx. destruct x as [s g]. unfold run_; cbn [fst snd]. destruct (rm_queue s.1) as [|t q] eqn:E; [done|].
  destruct (exec_task _ _ t _) as [s'|] eqn:Er; [|done]. eapply reach_act; [exact Hx|by eapply act_run].
Qed.

Definition opened : (Room * Env) * Ghost := (small_room, mkGhost 0 0 0 0).

Lemma opened_reachable : demo_reachable opened.
Proof. apply reach_new. split; [done|]. split; intros h; cbn; [intros [x Hx]; done|done]. Qed.

(** A player enters, the game starts, a frame runs, the timer fires again. *)
Definition playing : (Room * Env) * Ghost := timer_ (run_ (timer_ (run_ (run_ (post_ (TEnter 10) opened))))).

Lemma room_life_cycle_witness : exists r e g,
  playing = ((r, e), g) /\ _gameStarted (rm_life r) = true /\ _serverTick (rm_clock r) = 1 /\
  ev_timers e !! _timerHandle (rm_life r) = Some (rm_addr r) /\ (n_updates (rm_queue r) <= 1)%nat /\ _playerCount (rm_life r) = 1.
Proof.
  assert (demo_reachable playing) as Hr.
  { apply reach_timer, reach_run, reach_timer, reach_run, reach_run, reach_post, opened_reachable. by repeat split. }
  assert (_gameStarted (rm_life playing.1.1) = true) as Hs by (vm_compute; reflexivity).
  assert (_serverTick (rm_clock playing.1.1) = 1) as Hk by (vm_compute; reflexivity).
  assert (playing.2 = mkGhost 0 0 1 0) as Hg by (vm_compute; reflexivity).
  assert (size (rm_players playing.1.1) = 1%nat) as Hz by (vm_compute; reflexivity).
  destruct playing as [[r e] g] eqn:E. cbn [fst snd] in *. subst g.
  destruct (room_life_cycle (H := any_order) whip_data demo_dis r e (mkGhost 0 0 1 0) Hr) as (_ & Ht & Hu & Hc).
  exists r, e, (mkGhost 0 0 1 0). split; [reflexivity|]. split; [exact Hs|]. split; [exact Hk|].
  split; [exact (Ht eq_refl Hs)|]. split; [exact Hu|].
  destruct Hc as [Hc _]; [reflexivity|]. rewrite Hc, Hz. reflexivity.
Defined.

(** The start of the game, which the machine turns into a started game with a timer. *)
Lemma room_refines_life_cycle_witness :
  let x := run_ (post_ (TEnter 10) opened) in
  exists s', strand_step (H := any_order) whip_data demo_dis x.1 = Some s' /\
    life_step TStartGame (view (set_queue [] x.1.1, x.1.2)) (view s') /\ _gameStarted (rm_life s'.1) = true.
Proof.
  intros x. assert (rm_queue x.1.1 = [TStartGame]) as Hq by (vm_compute; reflexivity).
  destruct (room_refines_life_cycle (H := any_order) whip_data demo_dis TStartGame [] x.1 Hq) as [[s' Hs] Hl]; [reflexivity|].
  exists s'. split; [exact Hs|]. specialize (Hl s' Hs). split; [exact Hl|].
  assert ((fun o => match o with Some s'' => _gameStarted (rm_life s''.1) | None => false end)
    (strand_step (H := any_order) whip_data demo_dis x.1) = true) as Hg by (vm_compute; reflexivity).
  rewrite Hs in Hg. exact Hg.
Defined.

(** The last player leaves while the timer fires around it: the reset gives the flag
    back although an update is waiting, and a second one is posted. *)
Lemma reset_lets_updates_pile_up :
  rm_queue (timer_ (run_ (timer_ (post_ (TLeave 5) (run_ (run_ (post_ (TEnter 10) opened))))))).1.1 = [TUpdate; TUpdate].
Proof. vm_compute. reflexivity. Qed.

(** A session that enters again is counted again. *)
Lemma reentry_counts_twice :
  let r := (run_ (run_ (run_ (post_ (TEnter 11) (post_ (TEnter 10) opened))))).1.1 in
  size (rm_players r) = 1%nat /\ _playerCount (rm_life r) = 2.
Proof. split; vm_compute; reflexivity. Qed.

(** A room with 301 monsters, one of which has no valid position. *)
Definition crowded : Room :=
  let r := playing.1.1 in
  let monsters := map (fun i => SetPos (if (i =? 0)%nat then S754_nan else f1) f0 (GameObject_new (1001 + Z.of_nat i) MONSTER)) (seq 0 301) in
  set_objects (foldl (fun w o => AddObject o w) (_objMgr r) monsters) (rm_derived r) r.

Lemma sync_network_exact_witness :
  room_objects (H := any_order) (ev_players playing.1.2) crowded <> [] /\
  exists full rest,
    concat full ++ rest = map pos_of (filter synced (room_objects (H := any_order) (ev_players playing.1.2) crowded)) /\
    Forall (fun b => length b = 300%nat) full /\ (length rest < 300)%nat /\ length (concat full ++ rest) = 301%nat.
Proof.
  assert (room_objects (H := any_order) (ev_players playing.1.2) crowded <> []) as Hne.
  { intros E. apply (f_equal length) in E. vm_compute in E. discriminate E. }
  split; [exact Hne|].
  pose proof (sync_network_exact (H := any_order) (ev_players playing.1.2) crowded) as Hsync. cbv zeta in Hsync.
  rewrite bool_decide_false in Hsync by exact Hne. destruct Hsync as (full & rest & Hc & Hf & Hr & _).
  exists full, rest. repeat split; [exact Hc|exact Hf|exact Hr|]. rewrite Hc. vm_compute. reflexivity.
Defined.
