(* ===== verification/RoomObjects.v ===== *)
(** * RoomObjects: damage, gems and the objects of a room

    Models the part of Entity/Monster.cpp [TakeDamage] that acts on the room and
    [BroadcastSpawn] of Game/Room_Update.cpp (under
    src/Examples/VampireSurvivor/Server), with the invariant that ties the base
    parts of a room's objects to their derived parts. *)

From stdpp Require Import base strings gmap option list.
From S2P Require Import Prelude Float32 Random GameData Modifiers Inventory Entity Player World Projectile Waves Effects Room.

Definition set_effectMgr (em : EffectManager) (r : Room) : Room :=
  mkRoom (rm_addr r) (_roomId r) (_mapId r) (_title r) (rm_userDB r) (rm_players r) (rm_life r) (rm_clock r) (_objMgr r)
    (rm_derived r) (_grid r) (_waveMgr r) em (rm_queue r) (rm_out r).

Section Damage.
Context `{IterationOrder}.

Definition BroadcastSpawn (objects : list GameObject) (r : Room) : Room :=
  match objects with
  | [] => r
  | _ => Room_BroadcastPacket (S_SpawnObject (_serverTick (rm_clock r)) (map (info_of r) objects)) 0 r
  end.

(** ** Damage to a monster *)

Definition drop_gem (x y : float) (exp : Z) (r : Room) : Room :=
  let '(id, w) := GenerateId (_objMgr r) in
  let gem := ExpGem_Initialize id x y exp (ExpGem_new id exp) in
  let r := set_objects (AddObject (g_obj gem) w) (<[id := IsGem gem]> (rm_derived r)) r in
  BroadcastSpawn [g_obj gem] r.

Definition monster_event (r : Room) (e : MonsterEvent) : Room :=
  match e with
  | MHpChange id hp maxHp => Room_BroadcastPacket (Own (S_HpChange id (f_of_Z hp) (f_of_Z maxHp))) 0 r
  | MDropGem x y exp => drop_gem x y exp r
  end.

(** [monster->TakeDamage(damage, room)] *)
Definition hit_monster (id damage : Z) (r : Room) : Room :=
  match room_monster id r with
  | None => r
  | Some m =>
      let '(m, events) := Monster_TakeDamage damage m in
      foldl monster_event (room_update_monster id (fun _ => m) r) events
  end.

(** The player behind an object id. *)
Definition room_player (h : gmap Z Player) (r : Room) (id : Z) : option (Z * Player) :=
  match rm_derived r !! id, GetObject id (_objMgr r) with
  | Some (IsPlayer a), Some _ => pair a <$> h !! a
  | _, _ => None
  end.

End Damage.

(** ** The invariant *)

Definition derived_type (d : Derived) : ObjectType :=
  match d with IsMonster _ => MONSTER | IsPlayer _ => PLAYER | IsProjectile _ => PROJECTILE | IsGem _ => ITEM end.

(** Every object has the derived part of its type, and no derived part is left over. *)
Record room_wf (r : Room) : Prop := mk_room_wf {
  rw_world : world_inv (_objMgr r);
  rw_derived : forall id, derived_type <$> rm_derived r !! id = _type <$> GetObject id (_objMgr r)
}.

Definition count_objects (P : GameObject -> bool) (m : gmap Z GameObject) : Z := Z.of_nat (size (filter (fun '(_, o) => P o) m)).
Definition living_monster (o : GameObject) : bool := is_monster o && negb (IsDead o).
Definition living_monsters : gmap Z GameObject -> Z := count_objects living_monster.

(** The ids used up, and those the gems of the living monsters may still use. *)
Definition ids_needed (r : Room) : Z := _nextId (_objMgr r) + living_monsters (_objects (_objMgr r)).

Lemma room_wf_new addr roomId mapId title db : room_wf (Room_new addr roomId mapId title db).
Proof. constructor; [apply world_inv_new|]. intros id. cbn. unfold GetObject. cbn. by rewrite !lookup_empty. Qed.

Definition bz (b : bool) : Z := if b then 1 else 0.

Section Counts.
Context (P : GameObject -> bool).

Lemma count_fresh m k o : m !! k = None -> count_objects P (<[k := o]> m) = count_objects P m + bz (P o).
Proof.
  intros Hk. unfold count_objects. destruct (P o) eqn:Eo; cbn [bz].
  - rewrite map_filter_insert_True by (cbn; rewrite Eo; auto).
    rewrite map_size_insert_None; [lia|]. apply map_lookup_filter_None. by left.
  - rewrite map_filter_insert_False by (cbn; rewrite Eo; auto). rewrite delete_id by done. lia.
Qed.

Lemma count_replace m k o o' : m !! k = Some o' -> count_objects P (<[k := o]> m) = count_objects P m - bz (P o') + bz (P o).
Proof.
  intros Hk. rewrite <- insert_delete_eq, count_fresh by apply lookup_delete_eq.
  rewrite <- (insert_delete_id m k o' Hk) at 2. rewrite (count_fresh (delete k m)) by apply lookup_delete_eq. lia.
Qed.

Lemma count_pos m : 0 <= count_objects P m.
Proof. unfold count_objects. lia. Qed.

End Counts.

(** ** Single changes *)

Lemma world_ids w id o : world_inv w -> GetObject id w = Some o -> _id o = id /\ (id < 1000 \/ 1000 < id <= _nextId w).
Proof. intros Hw Ho. exact (wi_ids _ Hw _ _ Ho). Qed.

Lemma world_fresh w : world_inv w -> GetObject (_nextId w + 1) w = None.
Proof.
  intros Hw. destruct (GetObject _ w) as [o|] eqn:E; [|done]. pose proof (wi_next _ Hw). destruct (world_ids _ _ _ Hw E). lia.
Qed.

Lemma put_object_inv w id o o' :
  world_inv w -> GetObject id w = Some o -> _id o' = id -> _type o' = _type o -> world_inv (put_object id o' w).
Proof.
  intros [Hn Hi Hp Hc Hb] Ho Hid Ht. assert (is_monster o' = is_monster o) as Hm by (unfold is_monster; by rewrite Ht).
  constructor; cbn -[monsters_in is_monster]; [done| | | |done].
  - apply map_Forall_insert_2; [|done]. split; [done|]. by apply (Hi id o).
  - apply map_Forall_insert_2; [|done]. intros Hk. rewrite Hm. by apply (Hp id o).
  - rewrite Hc. unfold monsters_in. pose proof (count_replace is_monster _ _ o' _ Ho) as E. rewrite Hm in E.
    unfold count_objects in E. rewrite E. lia.
Qed.

Lemma living_put w id o o' :
  GetObject id w = Some o -> living_monsters (_objects (put_object id o' w)) = living_monsters (_objects w) - bz (living_monster o) + bz (living_monster o').
Proof. apply count_replace. Qed.

(** Replacing an object and its derived part. *)
Lemma put_wf id o o' d r :
  room_wf r -> GetObject id (_objMgr r) = Some o -> _id o' = id -> _type o' = _type o -> derived_type d = _type o ->
  room_wf (set_objects (put_object id o' (_objMgr r)) (<[id := d]> (rm_derived r)) r).
Proof.
  intros [Hw Hd] Ho Hid Ht Hdt. constructor; cbn -[put_object GetObject]; [by eapply put_object_inv|].
  intros id'. unfold GetObject in *; cbn. destruct (decide (id' = id)) as [->|Hne].
  - rewrite !lookup_insert_eq. cbn. by rewrite Hdt, Ht.
  - rewrite !lookup_insert_ne by done. apply Hd.
Qed.

(** Adding an object under a fresh id. *)
Lemma spawn_wf o d r :
  room_wf r -> _nextId (_objMgr r) < 2 ^ 31 - 1 -> derived_type d = _type o ->
  room_wf (set_objects (world_exec (WSpawn o) (_objMgr r)) (<[_nextId (_objMgr r) + 1 := d]> (rm_derived r)) r).
Proof.
  intros [Hw Hd] Hn Hdt. pose proof (wi_next _ Hw) as Hnx. constructor; cbn -[world_exec GetObject]; [by apply world_exec_inv|].
  intros id'. specialize (Hd id'). unfold GetObject in *. cbn. rewrite swrap_small by lia.
  destruct (decide (id' = _nextId (_objMgr r) + 1)) as [->|Hne].
  - rewrite !lookup_insert_eq. cbn. by rewrite Hdt.
  - by rewrite !lookup_insert_ne by done.
Qed.

Lemma spawn_ids o w :
  world_inv w -> _nextId w < 2 ^ 31 - 1 ->
  _nextId (world_exec (WSpawn o) w) = _nextId w + 1 /\
  living_monsters (_objects (world_exec (WSpawn o) w)) = living_monsters (_objects w) + bz (living_monster o).
Proof.
  intros Hw Hn. pose proof (wi_next _ Hw). pose proof (world_fresh _ Hw) as Hf.
  cbn -[living_monsters]. rewrite swrap_small by lia. split; [done|].
  unfold living_monsters. by rewrite (count_fresh living_monster).
Qed.

Lemma remove_wf id r : room_wf r -> room_wf (RemoveRoomObject id r).
Proof.
  intros [Hw Hd]. constructor; cbn -[GetObject RemoveObject]; [by apply (world_exec_inv (WRemove id))|].
  intros id'. specialize (Hd id'). unfold GetObject, RemoveObject in *. destruct (_objects (_objMgr r) !! id) as [o|] eqn:E; cbn.
  - destruct (decide (id' = id)) as [->|Hne]; [by rewrite !lookup_delete_eq|by rewrite !lookup_delete_ne].
  - destruct (decide (id' = id)) as [->|Hne]; [|by rewrite lookup_delete_ne].
    rewrite E in Hd |- *. by rewrite lookup_delete_eq.
Qed.

Lemma enter_wf a p r :
  room_wf r -> _type (p_obj p) = PLAYER -> 0 <= _id (p_obj p) < 1000 -> room_wf (AddPlayerObject a p r).
Proof.
  intros [Hw Hd] Ht Hid. constructor; cbn -[AddObject GetObject].
  - apply (world_exec_inv (WEnter (p_obj p))); [done|by split].
  - intros id. specialize (Hd id). unfold GetObject in *; cbn. destruct (decide (id = _id (p_obj p))) as [->|Hne].
    + rewrite !lookup_insert_eq. cbn. by rewrite Ht.
    + by rewrite !lookup_insert_ne.
Qed.

(** ** Damage to a monster *)

(** The parts of a room that its objects' operations leave alone. *)
Definition frame_part (r : Room) :=
  (rm_addr r, _roomId r, rm_userDB r, _mapId r, rm_players r, rm_life r, rm_clock r, _grid r, _waveMgr r, rm_queue r).

Lemma frame_part_core r r' : frame_part r = frame_part r' -> core r = core r'.
Proof. unfold frame_part, core. by intros [= -> -> -> _ -> -> _ _ _ ->]. Qed.

Lemma room_monster_inv id r m :
  room_monster id r = Some m -> exists d, rm_derived r !! id = Some (IsMonster d) /\ GetObject id (_objMgr r) = Some (m_obj m).
Proof.
  unfold room_monster. destruct (rm_derived r !! id) as [[d| | |]|]; try done. destruct (GetObject _ _) as [o|]; [|done].
  intros [= <-]. by exists d.
Qed.

Lemma room_monster_objects r r' id :
  _objMgr r = _objMgr r' -> rm_derived r = rm_derived r' -> room_monster id r = room_monster id r'.
Proof. unfold room_monster. by intros -> ->. Qed.

Lemma room_wf_objects r r' : _objMgr r = _objMgr r' -> rm_derived r = rm_derived r' -> room_wf r -> room_wf r'.
Proof. intros Eo Ed [? ?]. constructor; by rewrite <- ?Eo, <- ?Ed. Qed.

Lemma update_monster_wf id f r :
  room_wf r -> (forall m, _id (m_obj (f m)) = _id (m_obj m) /\ _type (m_obj (f m)) = _type (m_obj m)) ->
  room_wf (room_update_monster id f r).
Proof.
  intros Hr Hf. unfold room_update_monster. destruct (room_monster id r) as [m|] eqn:E; [|done].
  destruct (room_monster_inv _ _ _ E) as (d & Hd & Ho). destruct (Hf m) as [Hi Ht].
  destruct (world_ids _ _ _ (rw_world _ Hr) Ho) as [Hid _].
  pose proof (rw_derived _ Hr id) as Hty. rewrite Hd, Ho in Hty. cbn in Hty.
  eapply put_wf; [done|done|congruence|done|]. cbn. congruence.
Qed.

Lemma get_other_put id id' o w : id' <> id -> GetObject id' (put_object id o w) = GetObject id' w.
Proof. intros. unfold GetObject; cbn. by rewrite lookup_insert_ne. Qed.

Lemma update_monster_other id id' f r :
  id' <> id -> GetObject id' (_objMgr (room_update_monster id f r)) = GetObject id' (_objMgr r) /\
               rm_derived (room_update_monster id f r) !! id' = rm_derived r !! id'.
Proof.
  intros Hne. unfold room_update_monster. destruct (room_monster id r); [|done].
  split; [by apply get_other_put|]. cbn. by rewrite lookup_insert_ne.
Qed.

Lemma update_monster_self id f r m :
  room_monster id r = Some m -> room_monster id (room_update_monster id f r) = Some (f m).
Proof.
  intros E. unfold room_update_monster. rewrite E. unfold room_monster, GetObject; cbn. rewrite !lookup_insert_eq.
  by destruct (f m).
Qed.

Lemma update_monster_part id f r : frame_part (room_update_monster id f r) = frame_part r.
Proof. unfold room_update_monster. by destruct (room_monster id r). Qed.

Lemma TakeDamage_obj d m :
  _id (m_obj (Monster_TakeDamage d m).1) = _id (m_obj m) /\ _type (m_obj (Monster_TakeDamage d m).1) = _type (m_obj m).
Proof. unfold Monster_TakeDamage. destruct (IsDead _); [done|]. by destruct (_ <=? 0). Qed.

Section Hits.
Context `{IterationOrder}.

Lemma BroadcastSpawn_emit l r : exists out, BroadcastSpawn l r = emit out r.
Proof. destruct l as [|o l]; [exists []; by rewrite emit_nil|]. eexists. reflexivity. Qed.

Lemma drop_gem_eq x y exp r :
  room_wf r -> _nextId (_objMgr r) < 2 ^ 31 - 1 -> exists out,
  let o := g_obj (ExpGem_Initialize 0 x y exp (ExpGem_new 0 exp)) in
  let id := _nextId (_objMgr r) + 1 in
  drop_gem x y exp r =
  emit out (set_objects (world_exec (WSpawn o) (_objMgr r)) (<[id := IsGem (ExpGem_Initialize id x y exp (ExpGem_new id exp))]> (rm_derived r)) r).
Proof.
  intros [Hw _] Hn. pose proof (wi_next _ Hw). unfold drop_gem, GenerateId. cbv zeta. rewrite swrap_small by lia.
  edestruct BroadcastSpawn_emit as [out Ho]. exists out. rewrite Ho. unfold world_exec, GenerateId. rewrite swrap_small by lia. done.
Qed.

(** The two ways a hit goes. *)
Lemma hit_monster_cases id d r m :
  room_wf r -> _nextId (_objMgr r) < 2 ^ 31 - 1 -> room_monster id r = Some m ->
  let m' := (Monster_TakeDamage d m).1 in
  let r1 := room_update_monster id (fun _ => m') r in
  (IsDead (m_obj m') = IsDead (m_obj m) /\ exists out, hit_monster id d r = emit out r1) \/
  (IsDead (m_obj m) = false /\ IsDead (m_obj m') = true /\ exists x y exp out, hit_monster id d r = drop_gem x y exp (emit out r1)).
Proof.
  intros Hr Hn Hm. cbv zeta. unfold hit_monster. rewrite Hm. unfold Monster_TakeDamage.
  destruct (IsDead (m_obj m)) eqn:Ed; cbn [fst snd foldl].
  - left. split; [done|]. exists []. by rewrite emit_nil.
  - destruct (_ <=? 0) eqn:Eh; cbn [fst snd foldl app].
    + right. split; [done|]. split; [done|]. eexists _, _, _, _. reflexivity.
    + left. split; [done|]. eexists. reflexivity.
Qed.

Lemma hit_monster_none id d r : room_monster id r = None -> hit_monster id d r = r.
Proof. unfold hit_monster. by intros ->. Qed.

Lemma drop_gem_part x y exp r : frame_part (drop_gem x y exp r) = frame_part r.
Proof. unfold drop_gem. destruct (GenerateId _) as [id w]. edestruct BroadcastSpawn_emit as [out Ho]. by rewrite Ho. Qed.

Lemma hit_monster_part id d r : frame_part (hit_monster id d r) = frame_part r.
Proof.
  unfold hit_monster. destruct (room_monster id r) as [m|]; [|done]. destruct (Monster_TakeDamage d m) as [m' events].
  rewrite <- (update_monster_part id (fun _ => m') r). generalize (room_update_monster id (fun _ => m') r).
  induction events as [|e events IH]; intros r'; [done|]. cbn [foldl]. rewrite IH.
  destruct e; [done|apply drop_gem_part].
Qed.

Lemma living_update id f r m :
  room_wf r -> room_monster id r = Some m -> _type (m_obj (f m)) = _type (m_obj m) ->
  living_monsters (_objects (_objMgr (room_update_monster id f r))) =
  living_monsters (_objects (_objMgr r)) - bz (negb (IsDead (m_obj m))) + bz (negb (IsDead (m_obj (f m)))).
Proof.
  intros Hr Hm Ht. destruct (room_monster_inv _ _ _ Hm) as (d & Hd & Ho). pose proof (rw_derived _ Hr id) as Hty.
  rewrite Hd, Ho in Hty. cbn in Hty. injection Hty as Hty. unfold room_update_monster. rewrite Hm.
  cbn -[put_object living_monsters]. rewrite (living_put _ _ _ _ Ho). unfold living_monster, is_monster. by rewrite Ht, <- Hty.
Qed.

Lemma update_monster_nextId id f r : _nextId (_objMgr (room_update_monster id f r)) = _nextId (_objMgr r).
Proof. unfold room_update_monster. by destruct (room_monster id r). Qed.

Lemma hit_monster_wf id d r :
  room_wf r -> ids_needed r < 2 ^ 31 - 1 -> room_wf (hit_monster id d r) /\ ids_needed (hit_monster id d r) = ids_needed r.
Proof.
  intros Hr Hn. destruct (room_monster id r) as [m|] eqn:Hm; [|by rewrite hit_monster_none].
  pose proof (count_pos living_monster (_objects (_objMgr r))) as Hpos. unfold ids_needed in *.
  assert (_nextId (_objMgr r) < 2 ^ 31 - 1) as Hn1 by (unfold living_monsters in Hn; lia).
  pose proof (TakeDamage_obj d m) as [Hi Ht].
  set (m' := (Monster_TakeDamage d m).1) in *.
  assert (room_wf (room_update_monster id (fun _ => m') r)) as Hw1.
  { destruct (room_monster_inv _ _ _ Hm) as (dd & Hd & Ho). destruct (world_ids _ _ _ (rw_world _ Hr) Ho) as [Hid _].
    pose proof (rw_derived _ Hr id) as Hty. rewrite Hd, Ho in Hty. cbn in Hty. injection Hty as Hty.
    unfold room_update_monster. rewrite Hm. eapply put_wf; [done|done|congruence|done|by rewrite <- Hty]. }
  pose proof (living_update id (fun _ => m') r m Hr Hm Ht) as Hl.
  destruct (hit_monster_cases id d r m Hr Hn1 Hm) as [(Ed & out & Eq)|(Ea & Ed & x & y & exp & out & Eq)]; fold m' in Ed, Eq; rewrite Eq.
  - split; [by eapply room_wf_objects; [..|exact Hw1]|]. cbn -[living_monsters]. rewrite Hl, update_monster_nextId, Ed. lia.
  - assert (room_wf (emit out (room_update_monster id (fun _ => m') r))) as Hw2 by (by eapply room_wf_objects; [..|exact Hw1]).
    assert (_nextId (_objMgr (emit out (room_update_monster id (fun _ => m') r))) < 2 ^ 31 - 1) as Hn2 by (cbn; by rewrite update_monster_nextId).
    destruct (drop_gem_eq x y exp _ Hw2 Hn2) as [out' Eg]. rewrite Eg. split.
    { cbv zeta. match goal with |- room_wf (emit _ (set_objects _ (<[_ := ?dd]> _) _)) =>
        eapply room_wf_objects; [..|exact (spawn_wf (g_obj (ExpGem_Initialize 0 x y exp (ExpGem_new 0 exp))) dd _ Hw2 Hn2 eq_refl)] end;
      reflexivity. }
    destruct (spawn_ids (g_obj (ExpGem_Initialize 0 x y exp (ExpGem_new 0 exp))) _ (rw_world _ Hw2) Hn2) as [En El].
    cbv zeta. cbn -[living_monsters world_exec room_update_monster] in En, El |- *. rewrite En, El, Hl, update_monster_nextId, Ea, Ed.
    match goal with |- context [living_monster ?g] => change (living_monster g) with false end. cbn [bz negb]. lia.
Qed.

(** A hit changes the monster that is hit and adds at most a gem. *)
Lemma hit_monster_other id id' d r o :
  room_wf r -> ids_needed r < 2 ^ 31 - 1 -> id' <> id -> GetObject id' (_objMgr r) = Some o ->
  GetObject id' (_objMgr (hit_monster id d r)) = Some o /\ rm_derived (hit_monster id d r) !! id' = rm_derived r !! id'.
Proof.
  intros Hr Hn Hne Ho. destruct (room_monster id r) as [m|] eqn:Hm; [|by rewrite hit_monster_none].
  pose proof (count_pos living_monster (_objects (_objMgr r))) as Hpos. unfold ids_needed, living_monsters in Hn.
  pose proof (wi_next _ (rw_world _ Hr)) as Hnx. destruct (world_ids _ _ _ (rw_world _ Hr) Ho) as [_ Hid].
  set (m' := (Monster_TakeDamage d m).1).
  destruct (update_monster_other id id' (fun _ => m') r Hne) as [E1 E2].
  destruct (hit_monster_cases id d r m Hr ltac:(lia) Hm) as [(_ & out & Eq)|(_ & _ & x & y & exp & out & Eq)];
    rewrite Eq; fold m'; [by rewrite <- Ho, <- E1, <- E2|].
  unfold drop_gem, GenerateId. cbn -[room_update_monster]. rewrite update_monster_nextId, swrap_small by lia.
  assert (id' <> _nextId (_objMgr r) + 1) as Hne' by lia. unfold GetObject in *. cbn -[room_update_monster].
  rewrite !lookup_insert_ne by done. by rewrite <- Ho, E1, E2.
Qed.

Lemma hit_monster_self id d r m :
  room_wf r -> ids_needed r < 2 ^ 31 - 1 -> room_monster id r = Some m ->
  room_monster id (hit_monster id d r) = Some (Monster_TakeDamage d m).1.
Proof.
  intros Hr Hn Hm. pose proof (count_pos living_monster (_objects (_objMgr r))) as Hpos. unfold ids_needed, living_monsters in Hn.
  destruct (room_monster_inv _ _ _ Hm) as (dd & _ & Ho).
  pose proof (wi_next _ (rw_world _ Hr)) as Hnx. destruct (world_ids _ _ _ (rw_world _ Hr) Ho) as [_ Hid].
  set (m' := (Monster_TakeDamage d m).1). pose proof (update_monster_self id (fun _ => m') r m Hm) as Es.
  destruct (hit_monster_cases id d r m Hr ltac:(lia) Hm) as [(_ & out & Eq)|(_ & _ & x & y & exp & out & Eq)];
    rewrite Eq; fold m'; [by rewrite <- Es|].
  unfold drop_gem, GenerateId. cbn -[room_update_monster]. rewrite update_monster_nextId, swrap_small by lia.
  rewrite <- Es. assert (id <> _nextId (_objMgr r) + 1) as Hne by lia. unfold room_monster, GetObject.
  cbn -[room_update_monster]. by rewrite !lookup_insert_ne.
Qed.

End Hits.

(** ** A room to try things on *)

Definition spawn (o : GameObject) (d : GameObject -> Derived) (r : Room) : Room :=
  set_objects (world_exec (WSpawn o) (_objMgr r)) (<[_nextId (_objMgr r) + 1 := d o]> (rm_derived r)) r.

Lemma spawn_demo_wf o d r : room_wf r -> _nextId (_objMgr r) < 2 ^ 31 - 1 -> derived_type (d o) = _type o -> room_wf (spawn o d r).
Proof. apply spawn_wf. Qed.

Definition as_monster (o : GameObject) : Derived := IsMonster (with_obj (fun _ => o) Monster_new).
Definition as_projectile (pierce : Z) (o : GameObject) : Derived :=
  IsProjectile (SetPierce pierce (SetDamage 60 (set_pj_obj o Projectile_new))).
Definition as_gem (o : GameObject) : Derived := IsGem (mkGem o 10 false 0).

Definition arena_heap : gmap Z Player := {[10 := Player_new 5 5]}.

(** Player 5 at the origin, monsters 1001 and 1002 on its right, projectile 1003 between
    them, gem 1004 under the player. *)
Definition arena : Room :=
  let r := set_players {[5 := 10]} (Room_new 0 1 1 EmptyString false) in
  let r := AddPlayerObject 10 (Player_new 5 5) r in
  let at_ x t := SetPos x f0 (GameObject_new 0 t) in
  let r := spawn (at_ (flit 1 2) MONSTER) as_monster r in
  let r := spawn (at_ (flit 3 2) MONSTER) as_monster r in
  let r := spawn (at_ f1 PROJECTILE) (as_projectile 1) r in
  let r := spawn (at_ (flit 1 4) ITEM) as_gem r in
  set_managers (default (_grid r) (Rebuild (GetAllObjects (H := any_order) (_objMgr r)) (_grid r))) (_waveMgr r) r.

Lemma set_managers_wf g w r : room_wf r -> room_wf (set_managers g w r).
Proof. by apply room_wf_objects. Qed.

Lemma set_players_wf m r : room_wf r -> room_wf (set_players m r).
Proof. by apply room_wf_objects. Qed.

Lemma arena_wf : room_wf arena.
Proof.
  unfold arena. cbv zeta. apply set_managers_wf.
  repeat (apply spawn_demo_wf; [|reflexivity|reflexivity]). apply enter_wf; [|reflexivity|cbn; lia].
  apply set_players_wf, room_wf_new.
Qed.
