(* ===== verification/Combat.v ===== *)
(** * Combat: collisions, pickups and the clean-up of a frame

    Models src/Examples/VampireSurvivor/Server/Game/CombatManager.cpp and
    CombatManager.h.  The state is the players' heap and the room; a loop over a snapshot of the
    objects looks each one up again in the room, since the code shares them by
    pointer.  [pow] and the generator of the critical hits are arguments. *)

From Stdlib Require Import SpecFloat.
From stdpp Require Import base strings gmap option list.
From S2P Require Import Prelude Float32 Random GameData Modifiers Inventory Entity Player World Projectile Waves Effects Room RoomObjects.

(** ** Constants of GameConfig.h *)

Definition MONSTER_ATTACK_REACH : float := flit 2 10.
Definition EXP_GEM_PICKUP_RADIUS : float := flit 1 2.
Definition EXP_GEM_MAGNET_RADIUS : float := f_of_Z 5.
Definition EXP_GEM_FLY_SPEED : float := f_of_Z 15.

Record AttackEvent := mkAttack { ae_monsterId : Z; ae_playerId : Z; ae_damage : Z; ae_attackTime : float }.

(** What the S_DamageEffect packet of a pass collects. *)
Record DamageList := mkDamages { dl_targets : list Z; dl_values : list Z; dl_crits : list bool }.
Definition no_damage : DamageList := mkDamages [] [] [].
Definition add_damage (target damage : Z) (crit : bool) (l : DamageList) : DamageList :=
  mkDamages (dl_targets l ++ [target]) (dl_values l ++ [damage]) (dl_crits l ++ [crit]).

Section Combat.
Context `{IterationOrder} (D : DataManager) (dis : nat -> Z -> Z) (pow : spec_float -> Z -> spec_float).

(** ** Clean-up *)

(** Whether an object is removed, and the picker it is announced with. *)
Definition finished (r : Room) (o : GameObject) : option Z :=
  match _type o with
  | PROJECTILE => p ← room_projectile (_id o) r; if pj_IsExpired p then Some 0 else None
  | MONSTER => if IsDead o then Some 0 else None
  | ITEM => g ← room_gem (_id o) r; if _isPickedUp g then Some (_pickerId g) else None
  | _ => None
  end.

Definition cleanup_step (s : list Z * list Z * Room) (o : GameObject) : list Z * list Z * Room :=
  let '(despawnIds, pickerIds, r) := s in
  match finished r o with
  | Some picker => (despawnIds ++ [_id o], pickerIds ++ [picker], RemoveRoomObject (_id o) r)
  | None => s
  end.

Definition ResolveCleanup (r : Room) : Room :=
  let '(despawnIds, pickerIds, r) := foldl cleanup_step ([], [], r) (GetAllObjects (_objMgr r)) in
  match despawnIds with [] => r | _ => BroadcastDespawn despawnIds pickerIds r end.

(** ** Monsters that touch players *)

Definition in_reach (m : Monster) (p : Player) : bool :=
  let dx := (_x (m_obj m) - _x (p_obj p))%F in
  let dy := (_y (m_obj m) - _y (p_obj p))%F in
  let distSq := (dx * dx + dy * dy)%F in
  let sumRad := (_radius (m_obj m) + _radius (p_obj p) + MONSTER_ATTACK_REACH)%F in
  (distSq <=? sumRad * sumRad)%F.

Definition attack_of (now : float) (m : Monster) (p : Player) : option AttackEvent :=
  if IsDead (p_obj p) then None
  else if in_reach m p && CanAttack now m
       then Some (mkAttack (_id (m_obj m)) (_id (p_obj p)) (_damageOnContact m) now) else None.

Definition CollectAttackEvents (h : gmap Z Player) (r : Room) : list AttackEvent :=
  flat_map (fun o =>
    if is_monster o then
      match room_monster (_id o) r with
      | Some m => if IsDead (m_obj m) then []
                  else omap (fun kv => p ← h !! kv.2; attack_of (_totalRunTime (rm_clock r)) m p) (iter_order (rm_players r))
      | None => []
      end
    else []) (GetAllObjects (_objMgr r)).

Definition all_dead (h : gmap Z Player) (r : Room) : bool :=
  forallb (fun kv => match h !! kv.2 with Some p => IsDead (p_obj p) | None => true end) (iter_order (rm_players r)).

(** The turn of [ExecuteAttackEvents] for one event.  The player is looked up by the
    32-bit object id, converted to the key type. *)
Definition execute_attack (s : gmap Z Player * Room) (evt : AttackEvent) : gmap Z Player * Room :=
  let '(h, r) := s in
  match rm_players r !! u64 (ae_playerId evt) with
  | None => s
  | Some a =>
      match h !! a with
      | None => s
      | Some p =>
          if IsDead (p_obj p) then s
          else
            let '(p, r) := Player_TakeDamage (ae_damage evt) p r in
            let h := <[a := p]> h in
            let r := match room_monster (ae_monsterId evt) r with
                     | Some _ => room_update_monster (ae_monsterId evt) (ResetAttackCooldown (ae_attackTime evt)) r
                     | None => r end in
            if IsDead (p_obj p) then
              let r := Room_BroadcastPacket (Own (S_PlayerDead (_id (p_obj p)))) 0 r in
              (h, if all_dead h r then HandleGameOver false r else r)
            else (h, r)
      end
  end.

Definition ExecuteAttackEvents (events : list AttackEvent) (s : gmap Z Player * Room) : gmap Z Player * Room :=
  foldl execute_attack s events.

Definition ResolveBodyCollisions (s : gmap Z Player * Room) : gmap Z Player * Room :=
  ExecuteAttackEvents (CollectAttackEvents s.1 s.2) s.

(** ** Gems *)

Definition with_gem_obj (f : GameObject -> GameObject) (g : ExpGem) : ExpGem :=
  mkGem (f (g_obj g)) (_expAmount g) (_isPickedUp g) (_pickerId g).

(** The turn of [ResolveItemCollisions] for one object of the snapshot; [None] where
    the giving of experience is undefined. *)
Definition resolve_item (o : GameObject) (s : gmap Z Player * Room) : option (gmap Z Player * Room) :=
  let '(h, r) := s in
  match _type o, room_gem (_id o) r with
  | ITEM, Some g =>
      if _isPickedUp g then Some s
      else
        let gx := _x (g_obj g) in
        let gy := _y (g_obj g) in
        let stop := Some (h, put_gem (_id o) (with_gem_obj (SetVelocity f0 f0) g) r) in
        match (a ← GetNearestPlayer h gx gy r; pair a <$> h !! a) with
        | None => stop
        | Some (a, p) =>
            if IsDead (p_obj p) then stop
            else
              let dx := (_x (p_obj p) - gx)%F in
              let dy := (_y (p_obj p) - gy)%F in
              let distSq := (dx * dx + dy * dy)%F in
              let dist := fsqrt distSq in
              if (distSq <=? EXP_GEM_PICKUP_RADIUS * EXP_GEM_PICKUP_RADIUS)%F then
                '(p, r) ← GiveExp D dis (_expAmount g) p r;
                Some (<[a := p]> h, put_gem (_id o) (MarkAsPickedUp (SetPickerId (_id (p_obj p)) g)) r)
              else if (distSq <=? EXP_GEM_MAGNET_RADIUS * EXP_GEM_MAGNET_RADIUS)%F then
                if (flit 1 1000 <? dist)%F then
                  let nx := (dx / dist)%F in
                  let ny := (dy / dist)%F in
                  Some (h, put_gem (_id o) (with_gem_obj (SetVelocity (nx * EXP_GEM_FLY_SPEED)%F (ny * EXP_GEM_FLY_SPEED)%F) g) r)
                else Some s
              else stop
        end
  | _, _ => Some s
  end.

Definition ResolveItemCollisions (s : gmap Z Player * Room) : option (gmap Z Player * Room) :=
  for_each resolve_item (GetAllObjects (_objMgr s.2)) s.

(** ** Projectiles *)

(** What the player's weapons that use a skill add: the chance of the last one, and
    the product of the multipliers. *)
Definition weapon_crit (inv : PlayerInventory) (skillId : Z) (acc : float * float) (weapon : WeaponInfo) : float * float :=
  if existsb (fun lvl => wl_skillId lvl =? skillId) (wp_levels weapon) then
    let level := GetWeaponLevel inv (wp_id weapon) in
    if (0 <? level) && (level <=? Z.of_nat (length (wp_levels weapon))) then
      match wp_levels weapon !! Z.to_nat (level - 1) with
      | Some lvl => (wl_critChance lvl, (acc.2 * wl_critDamageMult lvl)%F)
      | None => acc
      end
    else acc
  else acc.

(** Whether a hit is critical, and its multiplier. *)
Definition roll_critical (h : gmap Z Player) (r : Room) (proj : Projectile) (rng : FastRandom) : bool * float * FastRandom :=
  match room_player h r (_ownerId proj) with
  | None => (false, f1, rng)
  | Some (_, p) =>
      let '(chance, mult) := foldl (weapon_crit (_inventory p) (_skillId proj)) (f0, f1) (iter_order (_weaponInfos D)).*2 in
      let totalCritChance := (GetCriticalChance D p + chance)%F in
      let '(x, rng) := NextFloat rng in
      if (x <? totalCritChance)%F then (true, (mult * GetCriticalDamageMultiplier D p)%F, rng) else (false, mult, rng)
  end.

(** [static_cast<int32_t>(baseDamage * std::pow(0.9f, hitIndex) * critMultiplier)], in
    double precision. *)
Definition projectile_damage (proj : Projectile) (critMultiplier : float) : Z :=
  cast_i32 (dmul (dmul (d_of_Z (_damage proj)) (pow (d_of_f (flit 9 10)) (GetHitCount proj))) (d_of_f critMultiplier)).

Definition effect_type (name : string) : EffectType :=
  if bool_decide (name = "POISON"%string) then POISON
  else if bool_decide (name = "BURN"%string) then BURN
  else if bool_decide (name = "SLOW"%string) then SLOW
  else POISON.

Definition apply_skill_effect (proj : Projectile) (targetId : Z) (r : Room) : Room :=
  match GetSkillInfo D (_skillId proj) with
  | None => r
  | Some t =>
      if bool_decide (si_effectType t = EmptyString) then r
      else
        let now := _totalRunTime (rm_clock r) in
        match effect_type (si_effectType t) with
        | SLOW => room_update_monster targetId (AddStatusEffect "SLOW" (si_effectValue t) (si_effectDuration t) now) r
        | ty =>
            let interval := if (f0 <? si_effectInterval t)%F then si_effectInterval t else flit 1 2 in
            set_effectMgr (ApplyEffect targetId (mkEffect ty (_ownerId proj) (now + si_effectDuration t)%F interval now (si_effectValue t))
                             (_effectMgr r)) r
        end
  end.

Definition touches (proj : Projectile) (m : Monster) : bool :=
  let dx := (_x (pj_obj proj) - _x (m_obj m))%F in
  let dy := (_y (pj_obj proj) - _y (m_obj m))%F in
  let distSq := (dx * dx + dy * dy)%F in
  let sumRad := (_radius (pj_obj proj) + _radius (m_obj m))%F in
  (distSq <=? (sumRad + flit 1 10) * (sumRad + flit 1 10))%F.

Definition Shots := (Room * FastRandom * DamageList)%type.

(** One hit. *)
Definition hit_target (h : gmap Z Player) (pid : Z) (proj : Projectile) (targetId : Z) (s : Shots) : Shots :=
  let '(r, rng, dl) := s in
  let '(crit, mult, rng) := roll_critical h r proj rng in
  let damage := projectile_damage proj mult in
  let r := apply_skill_effect proj targetId r in
  let r := hit_monster targetId damage r in
  let '(_, proj) := OnHit (AddHit targetId proj) in
  (put_projectile pid proj r, rng, add_damage targetId damage crit dl).

(** The loop over the targets of one projectile. *)
Fixpoint collide_targets (h : gmap Z Player) (pid : Z) (targets : list GameObject) (s : Shots) : Shots :=
  match targets with
  | [] => s
  | t :: targets =>
      match room_projectile pid s.1.1 with
      | None => s
      | Some proj =>
          if pj_IsExpired proj then s
          else if _id t =? pid then collide_targets h pid targets s
          else
            match _type t, room_monster (_id t) s.1.1 with
            | MONSTER, Some m =>
                if IsDead (m_obj m) then collide_targets h pid targets s
                else if touches proj m && negb (HasHit (_id t) proj) then
                  let consumed := (OnHit (AddHit (_id t) proj)).1 in
                  let s := hit_target h pid proj (_id t) s in
                  if consumed : bool then s else collide_targets h pid targets s
                else collide_targets h pid targets s
            | _, _ => collide_targets h pid targets s
            end
      end
  end.

(** [None] where the query is undefined. *)
Definition collide_projectile (h : gmap Z Player) (o : GameObject) (s : Shots) : option Shots :=
  match _type o, room_projectile (_id o) s.1.1 with
  | PROJECTILE, Some proj =>
      if pj_IsExpired proj then Some s
      else
        let r := s.1.1 in
        targets ← Query (_grid r) (_objMgr r) (_x (pj_obj proj)) (_y (pj_obj proj)) (_radius (pj_obj proj) + flit 15 10)%F;
        Some (collide_targets h (_id o) targets s)
  | _, _ => Some s
  end.

Definition ResolveProjectileCollisions (h : gmap Z Player) (r : Room) (rng : FastRandom) : option (Room * FastRandom) :=
  '(r, rng, dl) ← for_each (collide_projectile h) (GetAllObjects (_objMgr r)) (r, rng, no_damage);
  Some (match dl_targets dl with
        | [] => r
        | _ => Room_BroadcastPacket (S_DamageEffect 0 (dl_targets dl) (dl_values dl) (dl_crits dl)) 0 r
        end, rng).

Definition Combat_Update (h : gmap Z Player) (r : Room) (rng : FastRandom) : option (gmap Z Player * Room * FastRandom) :=
  '(r, rng) ← ResolveProjectileCollisions h r rng;
  let '(h, r) := ResolveBodyCollisions (h, r) in
  '(h, r) ← ResolveItemCollisions (h, r);
  Some (h, ResolveCleanup r, rng).

End Combat.

(** ** Projectiles: what one frame can do to them *)

(** [q] is [p] after some targets struck it. *)
Definition struck (p q : Projectile) : Prop := exists ids, q = foldl (fun p id => (strike id p).2) p ids.

Lemma struck_refl p : struck p p.
Proof. by exists []. Qed.

Lemma struck_trans p q s : struck p q -> struck q s -> struck p s.
Proof. intros [l ->] [l' ->]. exists (l ++ l'). by rewrite foldl_app. Qed.

Lemma strike_live id p : pj_IsExpired p = false -> HasHit id p = false -> strike id p = (true, (OnHit (AddHit id p)).2).
Proof. intros E1 E2. unfold strike. by rewrite E1, E2. Qed.

Lemma OnHit_fields p : _hitTargets (OnHit p).2 = _hitTargets p /\ pj_obj (OnHit p).2 = pj_obj p /\ _lifetime (OnHit p).2 = _lifetime p.
Proof. unfold OnHit. destruct (_ =? 0); [done|]. by destruct (0 <? _). Qed.

Lemma strike_prefix id p : _hitTargets p `prefix_of` _hitTargets (strike id p).2 /\ pj_obj (strike id p).2 = pj_obj p.
Proof.
  unfold strike. destruct (_ || _); [done|]. cbn [snd]. destruct (OnHit_fields (AddHit id p)) as (-> & -> & _).
  split; [by apply prefix_app_r|done].
Qed.

Lemma struck_ok pierce p q : pierce < 2 ^ 31 -> struck p q -> hits_ok pierce p -> hits_ok pierce q /\ _hitTargets p `prefix_of` _hitTargets q.
Proof.
  intros Hp [ids ->]. revert p; induction ids as [|id ids IH]; intros p Hh; [done|]. cbn [foldl].
  destruct (IH _ (strike_ok _ id _ Hp Hh)) as [? ?]. split; [done|]. etrans; [apply (strike_prefix id p)|done].
Qed.

(** A change of the room in which projectiles are only struck. *)
Record volley_ok (r r' : Room) : Prop := mk_volley_ok {
  vo_wf : room_wf r';
  vo_ids : ids_needed r' = ids_needed r;
  vo_part : frame_part r' = frame_part r;
  vo_proj : forall pid p, room_projectile pid r = Some p -> exists p', room_projectile pid r' = Some p' /\ struck p p'
}.

Lemma volley_refl r : room_wf r -> volley_ok r r.
Proof. intros. constructor; try done. intros pid p Hp. exists p. split; [done|apply struck_refl]. Qed.

Lemma volley_trans r r' r'' : volley_ok r r' -> volley_ok r' r'' -> volley_ok r r''.
Proof.
  intros [H1 H2 H3 H4] [G1 G2 G3 G4]. constructor; [done|congruence|congruence|].
  intros pid p Hp. destruct (H4 _ _ Hp) as (p' & Hp' & Hs). destruct (G4 _ _ Hp') as (p'' & Hp'' & Hs').
  exists p''. split; [done|]. by eapply struck_trans.
Qed.

Lemma room_projectile_inv pid r p :
  room_projectile pid r = Some p -> exists d, rm_derived r !! pid = Some (IsProjectile d) /\ GetObject pid (_objMgr r) = Some (pj_obj p).
Proof.
  unfold room_projectile. destruct (rm_derived r !! pid) as [[| |d|]|]; try done. destruct (GetObject _ _) as [o|]; [|done].
  intros [= <-]. by exists d.
Qed.

Lemma room_projectile_same pid r r' :
  GetObject pid (_objMgr r') = GetObject pid (_objMgr r) -> rm_derived r' !! pid = rm_derived r !! pid ->
  room_projectile pid r' = room_projectile pid r.
Proof. unfold room_projectile. by intros -> ->. Qed.

Lemma room_monster_same id r r' :
  GetObject id (_objMgr r') = GetObject id (_objMgr r) -> rm_derived r' !! id = rm_derived r !! id ->
  room_monster id r' = room_monster id r.
Proof. unfold room_monster. by intros -> ->. Qed.

(** An id is a monster's or a projectile's. *)
Lemma monster_not_projectile id r m : room_monster id r = Some m -> room_projectile id r = None.
Proof. intros Hm. destruct (room_monster_inv _ _ _ Hm) as (d & Hd & _). unfold room_projectile. by rewrite Hd. Qed.

Lemma update_monster_projectile id f pid r : room_projectile pid (room_update_monster id f r) = room_projectile pid r.
Proof.
  destruct (decide (pid = id)) as [->|Hne].
  - unfold room_update_monster. destruct (room_monster id r) as [m|] eqn:E; [|done].
    rewrite (monster_not_projectile _ _ _ E). unfold room_projectile; cbn. by rewrite lookup_insert_eq.
  - destruct (update_monster_other id pid f r Hne). by apply room_projectile_same.
Qed.

Section Volley.
Context `{IterationOrder} (D : DataManager) (pow : spec_float -> Z -> spec_float).

Lemma hit_monster_volley id d r : room_wf r -> ids_needed r < 2 ^ 31 - 1 -> volley_ok r (hit_monster id d r).
Proof.
  intros Hr Hn. destruct (hit_monster_wf id d r Hr Hn) as [Hw Hi]. constructor; [done|done|apply hit_monster_part|].
  intros pid p Hp. exists p. split; [|apply struck_refl]. destruct (room_monster id r) as [m|] eqn:Hm; [|by rewrite hit_monster_none].
  assert (pid <> id) as Hne by (intros ->; by rewrite (monster_not_projectile _ _ _ Hm) in Hp).
  destruct (room_projectile_inv _ _ _ Hp) as (d' & _ & Ho).
  destruct (hit_monster_other id pid d r _ Hr Hn Hne Ho) as [E1 E2]. rewrite <- Hp. apply room_projectile_same; [by rewrite E1|done].
Qed.

Lemma update_monster_volley id f r :
  room_wf r -> (forall m, _id (m_obj (f m)) = _id (m_obj m) /\ _type (m_obj (f m)) = _type (m_obj m) /\ IsDead (m_obj (f m)) = IsDead (m_obj m)) ->
  volley_ok r (room_update_monster id f r).
Proof.
  intros Hr Hf. constructor; [apply update_monster_wf; [done|intros m; by destruct (Hf m) as (? & ? & _)]| |apply update_monster_part|].
  - unfold ids_needed. rewrite update_monster_nextId. destruct (room_monster id r) as [m|] eqn:E.
    + destruct (Hf m) as (_ & Ht & Hd). rewrite (living_update _ f _ _ Hr E Ht), Hd. lia.
    + unfold room_update_monster. by rewrite E.
  - intros pid p Hp. exists p. rewrite update_monster_projectile. split; [done|apply struck_refl].
Qed.

Lemma AddStatusEffect_obj t v d now m :
  _id (m_obj (AddStatusEffect t v d now m)) = _id (m_obj m) /\ _type (m_obj (AddStatusEffect t v d now m)) = _type (m_obj m) /\
  IsDead (m_obj (AddStatusEffect t v d now m)) = IsDead (m_obj m).
Proof. unfold AddStatusEffect. by destruct (bool_decide _). Qed.

Lemma set_effectMgr_volley em r : room_wf r -> volley_ok r (set_effectMgr em r).
Proof. intros Hr. constructor; [by eapply room_wf_objects; [..|exact Hr]|done|done|]. intros pid p Hp. exists p. split; [exact Hp|apply struck_refl]. Qed.

Lemma apply_skill_effect_cases p id r :
  apply_skill_effect D p id r = r \/
  (exists v d now, apply_skill_effect D p id r = room_update_monster id (AddStatusEffect "SLOW" v d now) r) \/
  (exists em, apply_skill_effect D p id r = set_effectMgr em r).
Proof.
  unfold apply_skill_effect. destruct (GetSkillInfo D _) as [t|]; [|by left]. destruct (bool_decide _); [by left|].
  right. destruct (effect_type _); try (right; eexists; reflexivity). left. eexists _, _, _. reflexivity.
Qed.

Lemma apply_skill_effect_volley p id r : room_wf r -> volley_ok r (apply_skill_effect D p id r).
Proof.
  intros Hr. destruct (apply_skill_effect_cases p id r) as [->|[(v & d & now & ->)|[em ->]]].
  - by apply volley_refl.
  - apply update_monster_volley; [done|]. intros m. apply AddStatusEffect_obj.
  - by apply set_effectMgr_volley.
Qed.

Lemma put_projectile_volley pid p q r :
  room_wf r -> room_projectile pid r = Some p -> struck p q -> pj_obj q = pj_obj p -> volley_ok r (put_projectile pid q r).
Proof.
  intros Hr Hp Hs Ho. destruct (room_projectile_inv _ _ _ Hp) as (d & Hd & Hg).
  destruct (world_ids _ _ _ (rw_world _ Hr) Hg) as [Hid _]. pose proof (rw_derived _ Hr pid) as Ht. rewrite Hd, Hg in Ht. cbn in Ht.
  injection Ht as Ht. constructor.
  - apply (put_wf pid (pj_obj p)); [done|done|by rewrite Ho|by rewrite Ho|done].
  - unfold ids_needed, put_projectile. cbn -[living_monsters put_object]. rewrite (living_put _ _ _ _ Hg), Ho. cbn. lia.
  - done.
  - intros pid' p' Hp'. destruct (decide (pid' = pid)) as [->|Hne].
    + rewrite Hp in Hp'. injection Hp' as <-. exists q. split; [|done]. unfold room_projectile, GetObject; cbn.
      rewrite !lookup_insert_eq. by destruct q.
    + exists p'. split; [|apply struck_refl]. unfold room_projectile, GetObject; cbn. by rewrite !lookup_insert_ne.
Qed.

Lemma put_projectile_self pid p r : room_projectile pid (put_projectile pid p r) = Some p.
Proof. unfold room_projectile, GetObject; cbn. rewrite !lookup_insert_eq. by destruct p. Qed.

(** One hit: the room stays sound, the projectile has one more target, and only the
    target changes among the monsters. *)
Lemma hit_target_ok h pid proj tid m r rng dl :
  room_wf r -> ids_needed r < 2 ^ 31 - 1 -> room_projectile pid r = Some proj -> room_monster tid r = Some m ->
  pj_IsExpired proj = false -> HasHit tid proj = false ->
  exists r' rng' damage crit, hit_target D pow h pid proj tid (r, rng, dl) = (r', rng', add_damage tid damage crit dl) /\
    volley_ok r r' /\ room_projectile pid r' = Some (OnHit (AddHit tid proj)).2 /\
    (forall id o, id <> tid -> id <> pid -> GetObject id (_objMgr r) = Some o ->
       GetObject id (_objMgr r') = Some o /\ rm_derived r' !! id = rm_derived r !! id).
Proof.
  intros Hr Hn Hp Hm He Hh. unfold hit_target. destruct (roll_critical D h r proj rng) as [[crit mult] rng'].
  pose proof (apply_skill_effect_volley proj tid r Hr) as H1. set (r1 := apply_skill_effect D proj tid r) in *.
  assert (ids_needed r1 < 2 ^ 31 - 1) as Hn1 by (by rewrite (vo_ids _ _ H1)).
  set (dmg := projectile_damage pow proj mult).
  pose proof (hit_monster_volley tid dmg r1 (vo_wf _ _ H1) Hn1) as H2. set (r2 := hit_monster tid dmg r1) in *.
  assert (pid <> tid) as Hne by (intros ->; by rewrite (monster_not_projectile _ _ _ Hm) in Hp).
  assert (room_projectile pid r1 = Some proj) as Hp1.
  { rewrite <- Hp. unfold r1. destruct (apply_skill_effect_cases proj tid r) as [->|[(v & d & now & ->)|[em ->]]]; try done.
    apply update_monster_projectile. }
  assert (room_projectile pid r2 = Some proj) as Hp2.
  { rewrite <- Hp1. destruct (room_projectile_inv _ _ _ Hp1) as (d' & _ & Ho).
    destruct (hit_monster_other tid pid dmg r1 _ (vo_wf _ _ H1) Hn1 Hne Ho) as [E1 E2].
    apply room_projectile_same; [by rewrite Ho|done]. }
  destruct (OnHit (AddHit tid proj)) as [c q] eqn:Eq. cbn [snd].
  exists (put_projectile pid q r2), rng', dmg, crit. split; [done|]. split_and!.
  - eapply volley_trans; [exact H1|]. eapply volley_trans; [exact H2|].
    assert (q = (strike tid proj).2) as Es by (rewrite strike_live by done; by rewrite Eq).
    apply (put_projectile_volley pid proj); [apply H2|done|exists [tid]; by rewrite Es|].
    rewrite Es. apply strike_prefix.
  - apply put_projectile_self.
  - intros id o Hid Hidp Ho.
    assert (GetObject id (_objMgr r1) = Some o /\ rm_derived r1 !! id = rm_derived r !! id) as [Eo1 Ed1].
    { unfold r1. destruct (apply_skill_effect_cases proj tid r) as [->|[(v & d & now & ->)|[em ->]]]; try done.
      rewrite <- Ho. by apply update_monster_other. }
    destruct (hit_monster_other tid id dmg r1 _ (vo_wf _ _ H1) Hn1 Hid Eo1) as [E1 E2]. fold r2 in E1, E2.
    split; [rewrite <- E1; by apply get_other_put|]. cbn. by rewrite lookup_insert_ne, E2.
Qed.

Lemma collide_targets_volley h pid targets : forall s,
  room_wf s.1.1 -> ids_needed s.1.1 < 2 ^ 31 - 1 -> volley_ok s.1.1 (collide_targets D pow h pid targets s).1.1.
Proof.
  induction targets as [|t targets IH]; intros [[r rng] dl] Hr Hn; cbn [fst] in *; [by apply volley_refl|].
  cbn [collide_targets fst]. destruct (room_projectile pid r) as [proj|] eqn:Hp; [|by apply volley_refl].
  destruct (pj_IsExpired proj) eqn:He; [by apply volley_refl|].
  destruct (_id t =? pid); [by apply (IH (r, rng, dl))|]. destruct (_type t); try by apply (IH (r, rng, dl)).
  destruct (room_monster (_id t) r) as [m|] eqn:Hm; [|by apply (IH (r, rng, dl))]. destruct (IsDead (m_obj m)); [by apply (IH (r, rng, dl))|].
  destruct (touches proj m && negb (HasHit (_id t) proj)) eqn:Et; [|by apply (IH (r, rng, dl))].
  apply andb_true_iff in Et as [_ Hh]. apply negb_true_iff in Hh.
  destruct (hit_target_ok h pid proj (_id t) m r rng dl Hr Hn Hp Hm He Hh) as (r' & rng' & dmg & crit & -> & Hv & _ & _).
  destruct (OnHit _).1; [done|]. eapply volley_trans; [exact Hv|].
  apply (IH (r', rng', _)); [apply Hv|cbn; by rewrite (vo_ids _ _ Hv)].
Qed.

Lemma collide_projectile_inv h o s s' :
  collide_projectile D pow h o s = Some s' -> s' = s \/ exists targets, s' = collide_targets D pow h (_id o) targets s.
Proof.
  unfold collide_projectile. destruct (_type o); try (intros [= <-]; by left).
  destruct (room_projectile _ _) as [p|]; [|intros [= <-]; by left]. destruct (pj_IsExpired p); [intros [= <-]; by left|].
  intros (targets & _ & [= <-])%bind_Some. right. by exists targets.
Qed.

Lemma collide_projectile_volley h o s s' :
  collide_projectile D pow h o s = Some s' -> room_wf s.1.1 -> ids_needed s.1.1 < 2 ^ 31 - 1 -> volley_ok s.1.1 s'.1.1.
Proof. intros [->|[targets ->]]%collide_projectile_inv Hr Hn; [by apply volley_refl|by apply collide_targets_volley]. Qed.

Lemma emit_volley out r r' : volley_ok r r' -> volley_ok r (emit out r').
Proof. intros [H1 H2 H3 H4]. constructor; try done. by eapply room_wf_objects; [..|exact H1]. Qed.

Lemma projectile_pass_volley h r rng r' rng' :
  ResolveProjectileCollisions D pow h r rng = Some (r', rng') -> room_wf r -> ids_needed r < 2 ^ 31 - 1 -> volley_ok r r'.
Proof.
  intros ([[r1 rng1] dl] & E & [= <- <-])%bind_Some Hr Hn.
  assert (volley_ok r r1) as Hs.
  { apply (for_each_inv (fun s : Shots => volley_ok r s.1.1) _ _ _ _) in E; [done| |by apply volley_refl].
    intros o s s' Es Hs. eapply volley_trans; [exact Hs|]. eapply collide_projectile_volley; [exact Es|apply Hs|by rewrite (vo_ids _ _ Hs)]. }
  destruct (dl_targets dl); [done|]. by apply emit_volley.
Qed.

(** ** The targets of one projectile *)

(** Whether an object of the query is hit when its turn comes. *)
Definition eligible (r : Room) (pid : Z) (p : Projectile) (t : GameObject) : bool :=
  match _type t, room_monster (_id t) r with
  | MONSTER, Some m => negb (_id t =? pid) && negb (IsDead (m_obj m)) && touches p m && negb (HasHit (_id t) p)
  | _, _ => false
  end.

(** As many as the pierce count lets through. *)
Definition take_pierce {A} (pierce : Z) (l : list A) : list A := if pierce <? 0 then l else take (Z.to_nat (pierce + 1)) l.

Lemma eligible_after r r' pid p q t tid :
  _id t <> tid -> _id t <> pid -> is_Some (GetObject (_id t) (_objMgr r)) ->
  (forall id o, id <> tid -> id <> pid -> GetObject id (_objMgr r) = Some o ->
     GetObject id (_objMgr r') = Some o /\ rm_derived r' !! id = rm_derived r !! id) ->
  pj_obj q = pj_obj p -> _hitTargets q = _hitTargets p ++ [tid] -> eligible r' pid q t = eligible r pid p t.
Proof.
  intros Ht Hp [o Ho] Hsame Hobj Hh. destruct (Hsame _ _ Ht Hp Ho) as [E1 E2].
  unfold eligible. rewrite (room_monster_same _ r r') by (by rewrite ?E1, ?E2). destruct (_type t); try done.
  destruct (room_monster _ _) as [m|]; [|done]. unfold touches, HasHit. rewrite Hobj, Hh, existsb_app. cbn [existsb].
  apply Z.eqb_neq in Ht. rewrite Z.eqb_sym in Ht. by rewrite Ht, !orb_false_r.
Qed.

Lemma expired_after p q :
  pj_obj q = pj_obj p -> _lifetime q = _lifetime p -> _isHit q = _isHit p -> pj_IsExpired q = pj_IsExpired p.
Proof. unfold pj_IsExpired. by intros -> -> ->. Qed.

Lemma filter_bool {A} (f : A -> bool) x l :
  filter (fun t => f t) (x :: l) = if f x then x :: filter (fun t => f t) l else filter (fun t => f t) l.
Proof. rewrite filter_cons. destruct (f x), (decide _); done. Qed.

Lemma take_pierce_nil {A} n : take_pierce n (@nil A) = [].
Proof. unfold take_pierce. by destruct (n <? 0); rewrite ?take_nil. Qed.

Lemma take_pierce_cons {A} n (x : A) l :
  n < 2 ^ 31 -> take_pierce n (x :: l) = x :: (if n =? 0 then [] else take_pierce (if 0 <? n then i32 (n - 1) else n) l).
Proof.
  intros Hn. unfold take_pierce. destruct (n <? 0) eqn:E1; bool_to_prop.
  - destruct (n =? 0) eqn:E2; bool_to_prop; [lia|]. destruct (0 <? n) eqn:E3; bool_to_prop; [lia|].
    destruct (n <? 0) eqn:E4; bool_to_prop; [done|lia].
  - replace (Z.to_nat (n + 1)) with (S (Z.to_nat n)) by lia. cbn [take]. f_equal.
    destruct (n =? 0) eqn:E2; bool_to_prop; [by subst|]. destruct (0 <? n) eqn:E3; bool_to_prop; [|lia].
    rewrite swrap_small by lia. destruct (n - 1 <? 0) eqn:E4; bool_to_prop; [lia|]. f_equal. lia.
Qed.

(** A hit changes no other monster. *)
Lemma monsters_elsewhere pid p tid r r' : room_projectile pid r = Some p ->
  (forall id o, id <> tid -> id <> pid -> GetObject id (_objMgr r) = Some o ->
     GetObject id (_objMgr r') = Some o /\ rm_derived r' !! id = rm_derived r !! id) ->
  forall id m, id <> tid -> room_monster id r = Some m -> room_monster id r' = Some m.
Proof.
  intros Hp Hsame id m Hid Hm. destruct (room_monster_inv _ _ _ Hm) as (d & _ & Ho).
  assert (id <> pid) as Hidp by (intros ->; by rewrite (monster_not_projectile _ _ _ Hm) in Hp).
  destruct (Hsame _ _ Hid Hidp Ho) as [E1 E2]. rewrite <- Hm. apply room_monster_same; [by rewrite E1|done].
Qed.

(** ... and does not change which of the other targets can be hit. *)
Lemma eligible_others r r' pid p q tid targets :
  tid ∉ map _id targets -> Forall (fun t => is_Some (GetObject (_id t) (_objMgr r))) targets ->
  (forall id o, id <> tid -> id <> pid -> GetObject id (_objMgr r) = Some o ->
     GetObject id (_objMgr r') = Some o /\ rm_derived r' !! id = rm_derived r !! id) ->
  pj_obj q = pj_obj p -> _hitTargets q = _hitTargets p ++ [tid] ->
  filter (fun t => eligible r' pid q t) targets = filter (fun t => eligible r pid p t) targets.
Proof.
  intros Hnt Hobj Hsame Hq Hh. induction targets as [|t targets IH]; [done|]. cbn [map] in Hnt. apply not_elem_of_cons in Hnt as [Hne Hnt].
  apply Forall_cons in Hobj as [Ht Hobj]. rewrite !filter_bool, IH by done.
  assert (eligible r' pid q t = eligible r pid p t) as ->; [|done].
  destruct (decide (_id t = pid)) as [E|E]; [|apply (eligible_after r r' pid p q t tid); done].
  unfold eligible. rewrite E, Z.eqb_refl. destruct (_type t); try done. by destruct (room_monster pid r'), (room_monster pid r).
Qed.

(** C32: a projectile hits exactly what it should: of the objects its query returns, the
    living monsters that touch it and that it has not hit before, in the order of the
    query, up to one more than its pierce count (all of them when it pierces without
    limit); each of them goes to the damage packet and to its hit list once, and no
    other monster of the room changes. *)
Theorem projectile_hits_exact h pid targets : forall r rng dl p,
  room_wf r -> ids_needed r < 2 ^ 31 - 1 -> room_projectile pid r = Some p -> pj_IsExpired p = false ->
  _pierceCount p < 2 ^ 31 -> NoDup (map _id targets) -> Forall (fun t => is_Some (GetObject (_id t) (_objMgr r))) targets ->
  let hits := map _id (take_pierce (_pierceCount p) (filter (fun t => eligible r pid p t) targets)) in
  exists r' rng' dl' p', collide_targets D pow h pid targets (r, rng, dl) = (r', rng', dl') /\
    dl_targets dl' = dl_targets dl ++ hits /\ room_projectile pid r' = Some p' /\ _hitTargets p' = _hitTargets p ++ hits /\
    forall id m, id ∉ hits -> room_monster id r = Some m -> room_monster id r' = Some m.
Proof.
  induction targets as [|t targets IH]; intros r rng dl p Hr Hn Hp He Hpc Hnd Hobj; cbv zeta.
  { exists r, rng, dl, p. rewrite filter_nil, take_pierce_nil. cbn. by rewrite !app_nil_r. }
  apply NoDup_cons in Hnd as [Hnt Hnd]. apply Forall_cons in Hobj as [Ht Hobj].
  pose proof (IH r rng dl p Hr Hn Hp He Hpc Hnd Hobj) as Hskip. cbv zeta in Hskip.
  cbn [collide_targets fst]. rewrite Hp, He, filter_bool. destruct (eligible r pid p t) eqn:Ee; unfold eligible in Ee.
  2: { destruct (_id t =? pid); [done|]. destruct (_type t), (room_monster (_id t) r) as [m|]; try done.
       destruct (IsDead (m_obj m)); [done|]. cbn [negb andb] in Ee. by rewrite Ee. }
  clear Hskip. destruct (_type t); try done. destruct (room_monster (_id t) r) as [m|] eqn:Hm; [|done].
  destruct (_id t =? pid) eqn:Eid; [done|]. destruct (IsDead (m_obj m)) eqn:Ed; [done|]. cbn [negb andb] in Ee. rewrite Ee.
  apply andb_true_iff in Ee as [_ Hh]. apply negb_true_iff in Hh. apply Z.eqb_neq in Eid.
  destruct (hit_target_ok h pid p (_id t) m r rng dl Hr Hn Hp Hm He Hh) as (r' & rng' & dmg & crit & -> & Hv & Hp' & Hsame).
  rewrite take_pierce_cons by done. cbn [map]. unfold OnHit in *. cbn [AddHit _pierceCount] in *.
  assert (forall id m', id <> _id t -> room_monster id r = Some m' -> room_monster id r' = Some m') as Hmon.
  { intros id m'. by apply (monsters_elsewhere pid p (_id t) r r'). }
  destruct (_pierceCount p =? 0) eqn:Ez; cbn [fst snd] in *.
  { eexists r', rng', _, _. split_and!; [done|done|exact Hp'|done|]. intros id m' Hid. apply Hmon. set_solver. }
  set (q := if 0 <? _pierceCount p then set_hit (_isHit (AddHit (_id t) p)) (i32 (_pierceCount p - 1)) (AddHit (_id t) p) else AddHit (_id t) p) in *.
  assert (pj_obj q = pj_obj p /\ _lifetime q = _lifetime p /\ _isHit q = _isHit p /\ _hitTargets q = _hitTargets p ++ [_id t] /\
          _pierceCount q = if 0 <? _pierceCount p then i32 (_pierceCount p - 1) else _pierceCount p) as (Q1 & Q2 & Q3 & Q4 & Q5).
  { unfold q. by destruct (0 <? _pierceCount p). }
  assert (_pierceCount q < 2 ^ 31) as Hq.
  { rewrite Q5. destruct (0 <? _pierceCount p) eqn:E3; bool_to_prop; [|lia]. rewrite swrap_small by lia. lia. }
  assert (filter (fun t' => eligible r' pid q t') targets = filter (fun t' => eligible r pid p t') targets) as Ef.
  { by apply (eligible_others r r' pid p q (_id t)). }
  destruct (IH r' rng' (add_damage (_id t) dmg crit dl) q) as (r2 & rng2 & dl2 & p2 & E & E1 & E2 & E3 & E4); try done.
  - apply Hv.
  - by rewrite (vo_ids _ _ Hv).
  - by rewrite (expired_after p q).
  - rewrite Forall_forall in Hobj |- *. intros t' Ht'. destruct (Hobj _ Ht') as [o Ho].
    destruct (decide (_id t' = pid)) as [Ep|Ep].
    + destruct (room_projectile_inv _ _ _ Hp') as (d & _ & Hg). rewrite Ep. by eexists.
    + destruct (Hsame (_id t') o) as [-> _]; [|done|done|by eexists].
      intros E. apply Hnt. rewrite <- E. by apply list_elem_of_fmap_2.
  - rewrite Ef, Q5 in *. exists r2, rng2, dl2, p2. split_and!; [exact E| |done| |].
    + rewrite E1. cbn [add_damage dl_targets]. by rewrite <- app_assoc.
    + by rewrite E3, Q4, <- app_assoc.
    + intros id m' Hid Hm'. apply E4; [set_solver|]. apply Hmon; [set_solver|done].
Qed.

(** Through a whole pass over all projectiles and monsters, a projectile launched to
    pierce [pierce] monsters never hits the same one twice, never hits more than
    [pierce + 1], forgets no hit, and the room's objects stay sound. *)
Theorem pierce_bounds_hits h r rng pierce pid p r' rng' :
  room_wf r -> ids_needed r < 2 ^ 31 - 1 -> pierce < 2 ^ 31 -> room_projectile pid r = Some p -> hits_ok pierce p ->
  ResolveProjectileCollisions D pow h r rng = Some (r', rng') ->
  room_wf r' /\ exists p', room_projectile pid r' = Some p' /\ _hitTargets p `prefix_of` _hitTargets p' /\
    NoDup (_hitTargets p') /\ hits_ok pierce p' /\ (0 <= pierce -> Z.of_nat (length (_hitTargets p')) <= pierce + 1).
Proof.
  intros Hr Hn Hpi Hp Hh Hrun. pose proof (projectile_pass_volley h r rng r' rng' Hrun Hr Hn) as Hv. split; [apply Hv|].
  destruct (vo_proj _ _ Hv _ _ Hp) as (p' & Hp' & Hs). destruct (struck_ok _ _ _ Hpi Hs Hh) as [Hh' Hpre].
  exists p'. split_and!; [done|done|apply Hh'|done|]. intros H0. pose proof (ho_finite _ _ Hh' H0). destruct (_isHit p'); lia.
Qed.

End Volley.

(** ** The arena *)

Definition no_pow : spec_float -> Z -> spec_float := fun _ _ => d_of_Z 1.

Lemma arena_ids : ids_needed arena < 2 ^ 31 - 1.
Proof. vm_compute. reflexivity. Qed.

Lemma arena_projectile : exists p, room_projectile 1003 arena = Some p /\ _pierceCount p = 1 /\ _hitTargets p = [] /\
  pj_IsExpired p = false /\ hits_ok 1 p.
Proof.
  destruct (room_projectile 1003 arena) as [p|] eqn:E; [|vm_compute in E; discriminate].
  exists p. vm_compute in E. injection E as <-. split_and!; try reflexivity.
  constructor; cbn; [apply NoDup_nil_2|intros _; lia|lia].
Qed.

(** Pierce 1: both monsters are hit, and the projectile is consumed by the second. *)
Lemma pierce_bounds_hits_witness : exists r' rng' p',
  ResolveProjectileCollisions (H := any_order) DataManager_new no_pow arena_heap arena FastRandom_new = Some (r', rng') /\
  room_projectile 1003 r' = Some p' /\ NoDup (_hitTargets p') /\ Z.of_nat (length (_hitTargets p')) <= 2.
Proof.
  destruct arena_projectile as (p & Hp & _ & _ & _ & Hh).
  destruct (ResolveProjectileCollisions (H := any_order) DataManager_new no_pow arena_heap arena FastRandom_new) as [[r' rng']|] eqn:E.
  2: { exfalso. apply (f_equal (fun o => match o with Some _ => true | None => false end)) in E. vm_compute in E. discriminate E. }
  destruct (pierce_bounds_hits (H := any_order) DataManager_new no_pow arena_heap arena FastRandom_new 1 1003 p r' rng' arena_wf arena_ids
              ltac:(lia) Hp Hh E) as (_ & p' & Hp' & _ & Hn & _ & Hl).
  exists r', rng', p'. split; [reflexivity|]. split; [exact Hp'|]. split; [exact Hn|]. apply Hl. lia.
Defined.

Lemma projectile_hits_exact_witness : exists targets r' rng' dl' p',
  Query (_grid arena) (_objMgr arena) f1 f0 (flit 17 10) = Some targets /\
  collide_targets (H := any_order) DataManager_new no_pow arena_heap 1003 targets (arena, FastRandom_new, no_damage) = (r', rng', dl') /\
  dl_targets dl' = [1001; 1002] /\ room_projectile 1003 r' = Some p' /\ _hitTargets p' = [1001; 1002].
Proof.
  destruct arena_projectile as (p & Hp & Hpc & Hh & He & _).
  destruct (Query (_grid arena) (_objMgr arena) f1 f0 (flit 17 10)) as [targets|] eqn:Eq; [|vm_compute in Eq; discriminate].
  assert (map _id targets = [1001; 1002]) as Hids by (vm_compute in Eq; injection Eq as <-; reflexivity).
  assert (map _id (take_pierce 1 (filter (fun t => eligible arena 1003 p t) targets)) = [1001; 1002]) as Hel.
  { vm_compute in Eq. injection Eq as <-. vm_compute in Hp. injection Hp as <-. vm_compute. reflexivity. }
  assert (Forall (fun t => is_Some (GetObject (_id t) (_objMgr arena))) targets) as Hobj.
  { vm_compute in Eq. injection Eq as <-. repeat constructor; vm_compute; by eexists. }
  destruct (projectile_hits_exact (H := any_order) DataManager_new no_pow arena_heap 1003 targets arena FastRandom_new no_damage p
              arena_wf arena_ids Hp He ltac:(rewrite Hpc; lia)
              ltac:(rewrite Hids; apply (bool_decide_unpack _); vm_compute; exact I) Hobj)
    as (r' & rng' & dl' & p' & E1 & E2 & E3 & E4 & _).
  rewrite Hpc, Hel in E2, E4. rewrite Hh in E4. exists targets, r', rng', dl', p'. by split_and!.
Defined.
