(* ===== verification/CombatProps.v ===== *)
(** * CombatProps: contact damage, gems and the clean-up

    Theorems on [ResolveBodyCollisions], [ResolveItemCollisions] and [ResolveCleanup]
    of Combat.v. *)

From Stdlib Require Import SpecFloat.
From stdpp Require Import base strings gmap option list.
From S2P Require Import Prelude Float32 Random GameData Modifiers Inventory Entity Player World Projectile Waves Effects Room RoomObjects Combat.

(** ** Contact damage *)

Section Contact.
Context `{IterationOrder}.

(** What an attack may change of the room besides the players and the monster that
    attacks: packets, and the end of the game. *)
Lemma execute_attack_players h r e : rm_players (execute_attack (h, r) e).2 = rm_players r /\ rm_clock (execute_attack (h, r) e).2 = rm_clock r.
Proof.
  unfold execute_attack. destruct (rm_players r !! _) as [a|]; [|done]. destruct (h !! a) as [p|]; [|done].
  destruct (IsDead (p_obj p)); [done|].
  assert (rm_players (Player_TakeDamage (ae_damage e) p r).2 = rm_players r /\ rm_clock (Player_TakeDamage (ae_damage e) p r).2 = rm_clock r) as [E1 E2].
  { unfold Player_TakeDamage. repeat case_match; done. }
  destruct (Player_TakeDamage _ p r) as [p' r1]. cbn [snd] in E1, E2.
  assert (forall f, rm_players (room_update_monster (ae_monsterId e) f r1) = rm_players r /\ rm_clock (room_update_monster (ae_monsterId e) f r1) = rm_clock r) as E3.
  { intros f. unfold room_update_monster. by destruct (room_monster _ r1). }
  destruct (IsDead (p_obj p')), (room_monster _ r1); cbn; try apply E3; try done; destruct (all_dead _ _); cbn; by try apply E3.
Qed.

Definition targets_player (r : Room) (a : Z) (e : AttackEvent) : bool := bool_decide (rm_players r !! u64 (ae_playerId e) = Some a).

(** The damage depends on the room only through its clock. *)
Lemma TakeDamage_clock d p (r r' : Room) :
  rm_clock r = rm_clock r' -> (Player_TakeDamage d p r).1 = (Player_TakeDamage d p r').1.
Proof. intros E. unfold Player_TakeDamage. cbn [GetTotalRunTime Room_api]. rewrite E. by repeat case_match. Qed.

(** Whether damage is ignored now. *)
Definition shielded (now : float) (p : Player) : bool :=
  IsDead (p_obj p) || _isLevelingUp p || (IsInvincible now p || _godMode p).

Lemma TakeDamage_shielded d p (r : Room) : shielded (_totalRunTime (rm_clock r)) p = true -> Player_TakeDamage d p r = (p, r).
Proof.
  unfold shielded, Player_TakeDamage. cbn [GetTotalRunTime Room_api]. destruct (IsDead _); [done|]. destruct (_isLevelingUp p); [done|].
  cbn [orb]. by intros ->.
Qed.

(** A hit leaves its player shielded for the rest of the frame. *)
Lemma TakeDamage_shields d p (r : Room) :
  (_totalRunTime (rm_clock r) <? _totalRunTime (rm_clock r) + PLAYER_INVINCIBLE_DURATION)%F = true ->
  shielded (_totalRunTime (rm_clock r)) (Player_TakeDamage d p r).1 = true.
Proof.
  intros Ht. destruct (shielded (_totalRunTime (rm_clock r)) p) eqn:E; [by rewrite TakeDamage_shielded|].
  unfold shielded in E. apply orb_false_iff in E as [E E3]. apply orb_false_iff in E as [E1 E2].
  unfold Player_TakeDamage. cbn [GetTotalRunTime Room_api]. rewrite E1, E2, E3. cbv zeta. destruct (_ <=? 0); cbn [fst]; [done|].
  unfold shielded, IsInvincible. cbn [_invincibleUntil set_obj SetInvincible set_levelup]. rewrite Ht. cbn [orb]. by rewrite orb_true_r.
Qed.

Lemma TakeDamage_again d d' p (r : Room) :
  (_totalRunTime (rm_clock r) <? _totalRunTime (rm_clock r) + PLAYER_INVINCIBLE_DURATION)%F = true ->
  (Player_TakeDamage d' (Player_TakeDamage d p r).1 r).1 = (Player_TakeDamage d p r).1.
Proof. intros Ht. by rewrite TakeDamage_shielded by (by apply TakeDamage_shields). Qed.

Lemma execute_attack_heap h r e a p :
  h !! a = Some p ->
  (execute_attack (h, r) e).1 !! a = Some (if targets_player r a e then (Player_TakeDamage (ae_damage e) p r).1 else p).
Proof.
  intros Hp. unfold execute_attack, targets_player. destruct (rm_players r !! _) as [a'|]; [|by rewrite bool_decide_false].
  case_bool_decide as Ea.
  - injection Ea as ->. rewrite Hp. destruct (IsDead (p_obj p)) eqn:Ed.
    + cbn. unfold Player_TakeDamage. by rewrite Ed, Hp.
    + destruct (Player_TakeDamage _ p r) as [p' r1]. destruct (IsDead (p_obj p')); cbn; by rewrite lookup_insert_eq.
  - assert (a <> a') as Hne by congruence. destruct (h !! a') as [p'|]; [|done]. destruct (IsDead (p_obj p')); [done|].
    destruct (Player_TakeDamage _ p' r) as [p'' r1]. destruct (IsDead (p_obj p'')); cbn; by rewrite lookup_insert_ne.
Qed.

(** A player takes contact damage at most once per frame, whatever the number of
    monsters on top of it: of the attacks collected against it only the first has an
    effect, and that one is what [TakeDamage] makes of it (nothing for a player that
    is dead, choosing a level-up, invincible or in god mode). *)
Theorem contact_damage_once h r a p :
  h !! a = Some p ->
  (_totalRunTime (rm_clock r) <? _totalRunTime (rm_clock r) + PLAYER_INVINCIBLE_DURATION)%F = true ->
  (ResolveBodyCollisions (h, r)).1 !! a =
  Some (match filter (fun e => targets_player r a e) (CollectAttackEvents h r) with
        | [] => p
        | e :: _ => (Player_TakeDamage (ae_damage e) p r).1
        end).
Proof.
  intros Hp Ht. unfold ResolveBodyCollisions, ExecuteAttackEvents. cbn [fst snd].
  generalize (CollectAttackEvents h r). intros events.
  (* after a first hit nothing changes any more *)
  assert (forall d l h1 r1, rm_players r1 = rm_players r -> rm_clock r1 = rm_clock r ->
            h1 !! a = Some (Player_TakeDamage d p r).1 -> (foldl execute_attack (h1, r1) l).1 !! a = Some (Player_TakeDamage d p r).1) as Hdone.
  { intros d. induction l as [|e l IH]; intros h1 r1 E1 E2 Hh; [done|]. cbn [foldl].
    pose proof (execute_attack_heap h1 r1 e a _ Hh) as Hh'. pose proof (execute_attack_players h1 r1 e) as [F1 F2].
    destruct (execute_attack (h1, r1) e) as [h2 r2]. cbn [fst snd] in *. apply IH; [congruence|congruence|].
    rewrite Hh'. destruct (targets_player r1 a e); [|done].
    rewrite (TakeDamage_clock _ _ r1 r) by done. by rewrite TakeDamage_again. }
  assert (forall l h1 r1, rm_players r1 = rm_players r -> rm_clock r1 = rm_clock r -> h1 !! a = Some p ->
            (foldl execute_attack (h1, r1) l).1 !! a =
            Some (match filter (fun e => targets_player r a e) l with [] => p | e :: _ => (Player_TakeDamage (ae_damage e) p r).1 end)) as Hall.
  { induction l as [|e l IH]; intros h1 r1 E1 E2 Hh; [done|]. cbn [foldl]. rewrite filter_bool.
    pose proof (execute_attack_heap h1 r1 e a _ Hh) as Hh'. pose proof (execute_attack_players h1 r1 e) as [F1 F2].
    assert (targets_player r1 a e = targets_player r a e) as Et by (unfold targets_player; by rewrite E1). rewrite Et in Hh'.
    destruct (execute_attack (h1, r1) e) as [h2 r2]. cbn [fst snd] in *. destruct (targets_player r a e).
    - apply Hdone; [congruence|congruence|]. by rewrite Hh', (TakeDamage_clock _ _ r1 r).
    - apply IH; [congruence|congruence|done]. }
  by apply Hall.
Qed.

(** ** The end of the game *)

Lemma all_dead_spec h r : all_dead h r = true <-> forall sid a p, rm_players r !! sid = Some a -> h !! a = Some p -> IsDead (p_obj p) = true.
Proof.
  unfold all_dead. rewrite forallb_forall. split.
  - intros Hf sid a p Ha Hp. specialize (Hf (sid, a)). cbn in Hf. rewrite Hp in Hf. apply Hf, list_elem_of_In. by apply elem_of_iter_order.
  - intros Hd [sid a] Hin. apply list_elem_of_In, elem_of_iter_order in Hin. cbn. destruct (h !! a) as [p|] eqn:Hp; [|done]. by eapply Hd.
Qed.

Lemma all_dead_players h r r' : rm_players r = rm_players r' -> all_dead h r = all_dead h r'.
Proof. unfold all_dead. by intros ->. Qed.

Lemma dead_stays h r e a p : h !! a = Some p -> IsDead (p_obj p) = true -> (execute_attack (h, r) e).1 !! a = Some p.
Proof.
  intros Hp Hd. rewrite (execute_attack_heap h r e a p Hp). destruct (targets_player r a e); [|done].
  rewrite TakeDamage_shielded; [done|]. unfold shielded. by rewrite Hd.
Qed.

Lemma all_dead_alive h r sid a p : rm_players r !! sid = Some a -> h !! a = Some p -> IsDead (p_obj p) = false -> all_dead h r = false.
Proof.
  intros Ha Hp Hd. destruct (all_dead h r) eqn:E; [|done]. rewrite all_dead_spec in E. by rewrite (E _ _ _ Ha Hp) in Hd.
Qed.

Lemma queue_TakeDamage d p (r : Room) : rm_queue (Player_TakeDamage d p r).2 = rm_queue r /\ rm_players (Player_TakeDamage d p r).2 = rm_players r.
Proof. unfold Player_TakeDamage. by repeat case_match. Qed.

Lemma queue_update_monster id f r : rm_queue (room_update_monster id f r) = rm_queue r /\ rm_players (room_update_monster id f r) = rm_players r.
Proof. unfold room_update_monster. by destruct (room_monster id r). Qed.

Definition game_over_news (before after : bool) : list Task := if negb before && after then [TGameOver false] else [].

Lemma execute_attack_queue h r e :
  let s := execute_attack (h, r) e in
  rm_queue s.2 = rm_queue r ++ game_over_news (all_dead h r) (all_dead s.1 r).
Proof.
  assert (forall b, game_over_news b b = []) as Hsame by (by intros []).
  cbv zeta. unfold execute_attack. destruct (rm_players r !! _) as [a|] eqn:Ha; [|by rewrite Hsame, app_nil_r].
  destruct (h !! a) as [p|] eqn:Hp; [|by rewrite Hsame, app_nil_r].
  destruct (IsDead (p_obj p)) eqn:Hd; [by rewrite Hsame, app_nil_r|].
  rewrite (all_dead_alive h r _ _ _ Ha Hp Hd).
  destruct (queue_TakeDamage (ae_damage e) p r) as [Eq Ep]. destruct (Player_TakeDamage _ p r) as [p' r1]. cbn [fst snd] in *.
  set (r2 := match room_monster (ae_monsterId e) r1 with
             | Some _ => room_update_monster (ae_monsterId e) (ResetAttackCooldown (ae_attackTime e)) r1 | None => r1 end).
  assert (rm_queue r2 = rm_queue r /\ rm_players r2 = rm_players r) as [Eq2 Ep2].
  { unfold r2. destruct (room_monster _ r1); [|done]. rewrite <- Eq, <- Ep. apply queue_update_monster. }
  destruct (IsDead (p_obj p')) eqn:Hd'; cbn [fst snd].
  - rewrite (all_dead_players _ (Room_BroadcastPacket _ _ r2) r) by done. unfold game_over_news; cbn [negb andb].
    destruct (all_dead _ r); cbn; rewrite Eq2; [done|by rewrite app_nil_r].
  - rewrite (all_dead_alive (<[a := p']> h) r _ a p' Ha) by (done || by rewrite lookup_insert_eq).
    cbn. by rewrite Eq2, app_nil_r.
Qed.

(** The game ends exactly when the last living player dies: a frame's contact damage
    posts one game-over task if some player was alive before it and none is after it,
    and posts nothing otherwise. *)
Theorem game_over_exact h r :
  let s := ResolveBodyCollisions (h, r) in
  rm_queue s.2 = rm_queue r ++ game_over_news (all_dead h r) (all_dead s.1 r).
Proof.
  cbv zeta. unfold ResolveBodyCollisions, ExecuteAttackEvents. cbn [fst snd]. generalize (CollectAttackEvents h r). intros events.
  assert (forall h' r', rm_players r' = rm_players r -> (all_dead h r = true -> all_dead h' r = true) ->
            rm_queue r' = rm_queue r ++ game_over_news (all_dead h r) (all_dead h' r) ->
            rm_queue (foldl execute_attack (h', r') events).2 =
            rm_queue r ++ game_over_news (all_dead h r) (all_dead (foldl execute_attack (h', r') events).1 r)) as Hl.
  { induction events as [|e events IH]; intros h' r' Ep Hm Hq; [done|]. cbn [foldl].
    pose proof (execute_attack_queue h' r' e) as Hq'. pose proof (execute_attack_players h' r' e) as [F1 _].
    assert (all_dead h' r = true -> all_dead (execute_attack (h', r') e).1 r = true) as Hm'.
    { rewrite !all_dead_spec. intros Hd sid a p Ha Hp. destruct (h' !! a) as [p0|] eqn:Hp0.
      - pose proof (Hd _ _ _ Ha Hp0) as Hd0. rewrite (dead_stays _ _ e _ _ Hp0 Hd0) in Hp. by injection Hp as <-.
      - exfalso. revert Hp. unfold execute_attack. destruct (rm_players r' !! _) as [a'|]; [|cbn; by rewrite Hp0].
        destruct (h' !! a') as [p'|] eqn:Hp'; [|cbn; by rewrite Hp0]. destruct (IsDead (p_obj p')); [cbn; by rewrite Hp0|].
        destruct (Player_TakeDamage _ p' r') as [p'' r1]. assert (a <> a') as Hne by congruence.
        destruct (IsDead (p_obj p'')); cbn; by rewrite lookup_insert_ne, Hp0. }
    destruct (execute_attack (h', r') e) as [h2 r2]. cbn [fst snd] in *. apply IH; [congruence|auto|].
    rewrite Hq', Hq, <- app_assoc. rewrite !(all_dead_players _ r' r) by done. f_equal.
    unfold game_over_news. destruct (all_dead h r), (all_dead h' r), (all_dead h2 r); cbn; try done; exfalso; naive_solver. }
  apply Hl; [done|done|]. unfold game_over_news. by destruct (all_dead h r); rewrite app_nil_r.
Qed.

End Contact.

(** ** Clean-up *)

Section Cleanup.
Context `{IterationOrder}.

Definition gone (r : Room) (o : GameObject) : bool := match finished r o with Some _ => true | None => false end.

Lemma remove_lookup id id' r :
  GetObject id' (_objMgr (RemoveRoomObject id r)) = (if bool_decide (id' = id) then None else GetObject id' (_objMgr r)) /\
  rm_derived (RemoveRoomObject id r) !! id' = (if bool_decide (id' = id) then None else rm_derived r !! id').
Proof.
  unfold GetObject, RemoveRoomObject, RemoveObject; cbn. case_bool_decide as E.
  - subst. rewrite lookup_delete_eq. split; [|done]. destruct (_objects (_objMgr r) !! id) as [o|] eqn:Eo; [|done]. cbn. by rewrite lookup_delete_eq.
  - rewrite lookup_delete_ne by done. split; [|done]. destruct (_objects (_objMgr r) !! id) as [o|] eqn:Eo; [|done]. cbn. by rewrite lookup_delete_ne.
Qed.

Lemma finished_remove id r o : _id o <> id -> finished (RemoveRoomObject id r) o = finished r o.
Proof.
  intros Hne. destruct (remove_lookup id (_id o) r) as [E1 E2]. rewrite bool_decide_false in E1, E2 by done.
  unfold finished, room_projectile, room_gem. by rewrite E1, E2.
Qed.

Definition remove_all (r : Room) (l : list Z) : Room := foldl (fun r id => RemoveRoomObject id r) r l.

Lemma finished_remove_all l r o : _id o ∉ l -> finished (remove_all r l) o = finished r o.
Proof.
  revert r; induction l as [|id l IH]; intros r Hl; [done|]. apply not_elem_of_cons in Hl as [? ?].
  cbn. rewrite IH, finished_remove; done.
Qed.

Lemma remove_all_lookup l r id : GetObject id (_objMgr (remove_all r l)) = if bool_decide (id ∈ l) then None else GetObject id (_objMgr r).
Proof.
  revert r; induction l as [|x l IH]; intros r; [by rewrite bool_decide_false by set_solver|]. cbn [remove_all foldl].
  change (foldl _ (RemoveRoomObject x r) l) with (remove_all (RemoveRoomObject x r) l). rewrite IH.
  destruct (remove_lookup x id r) as [-> _]. repeat case_bool_decide; set_solver.
Qed.

Lemma remove_all_wf l r : room_wf r -> room_wf (remove_all r l).
Proof. revert r; induction l as [|x l IH]; intros r Hr; [done|]. by apply IH, remove_wf. Qed.

Lemma remove_all_frame l r : frame_part (remove_all r l) = frame_part r /\ rm_out (remove_all r l) = rm_out r.
Proof. revert r; induction l as [|x l IH]; intros r; [done|]. exact (IH (RemoveRoomObject x r)). Qed.

Lemma combat_cleanup_fold l : forall ds ps r, NoDup (map _id l) ->
  foldl cleanup_step (ds, ps, r) l =
  (ds ++ map _id (filter (fun o => gone r o) l), ps ++ omap (finished r) (filter (fun o => gone r o) l),
   remove_all r (map _id (filter (fun o => gone r o) l))).
Proof.
  induction l as [|o l IH]; intros ds ps r Hnd; [cbn; by rewrite !app_nil_r|]. cbn [map] in Hnd. apply NoDup_cons in Hnd as [Ho Hnd].
  cbn [foldl cleanup_step]. rewrite filter_bool. destruct (gone r o) eqn:Eg0; unfold gone in Eg0; destruct (finished r o) as [picker|] eqn:Ef; try done.
  - rewrite IH by done. cbn [map omap list_omap]. cbn. rewrite Ef.
    assert (forall o', o' ∈ l -> finished (RemoveRoomObject (_id o) r) o' = finished r o') as Hsame.
    { intros o' Ho'. apply finished_remove. intros E. apply Ho. rewrite <- E. by apply list_elem_of_fmap_2. }
    assert (filter (fun o' => gone (RemoveRoomObject (_id o) r) o') l = filter (fun o' => gone r o') l) as Eg.
    { clear -Hsame. induction l as [|x l IHl]; [done|]. rewrite !filter_bool.
      assert (gone (RemoveRoomObject (_id o) r) x = gone r x) as -> by (unfold gone; by rewrite Hsame by left).
      rewrite IHl; [done|]. intros o' Ho'. apply Hsame. by right. }
    rewrite Eg. rewrite <- !app_assoc. do 2 f_equal. cbn. do 2 f_equal.
    assert (forall o', o' ∈ filter (fun o' => gone r o') l -> finished (RemoveRoomObject (_id o) r) o' = finished r o') as Hs2.
    { intros o' Ho'. apply list_elem_of_filter in Ho' as [_ ?]. by apply Hsame. }
    clear -Hs2. induction (filter _ l) as [|x l' IHl]; [done|]. cbn. rewrite Hs2 by left.
    rewrite IHl; [done|]. intros o' Ho'. apply Hs2. by right.
  - by rewrite IH.
Qed.

Lemma finished_length r l : length (omap (finished r) (filter (fun o => gone r o) l)) = length (filter (fun o => gone r o) l).
Proof.
  induction l as [|o l IH]; [done|]. rewrite filter_bool. destruct (gone r o) eqn:E; [|done]. unfold gone in E. cbn.
  destruct (finished r o); [|done]. cbn. by rewrite IH.
Qed.

Lemma imap_pickers (ids pickers : list Z) : length ids = length pickers -> imap (fun i _ => default 0 (pickers !! i)) ids = pickers.
Proof.
  intros Hl. apply list_eq. intros i. rewrite list_lookup_imap. destruct (pickers !! i) as [x|] eqn:E.
  - assert (is_Some (ids !! i)) as [y ->]; [|done]. apply lookup_lt_is_Some. rewrite Hl. by eapply lookup_lt_Some.
  - assert (ids !! i = None) as ->; [|done]. apply lookup_ge_None. rewrite Hl. by apply lookup_ge_None.
Qed.

(** The clean-up of a frame is exact: it removes the expired projectiles, the dead
    monsters and the picked gems and nothing else, tells every client once about each
    of them with the picker of each gem in the same place, sends nothing when there is
    nothing to remove, and leaves the monster counter equal to the number of monsters. *)
Theorem cleanup_exact r :
  room_wf r ->
  let out := filter (fun o => gone r o) (GetAllObjects (_objMgr r)) in
  let r' := ResolveCleanup r in
  (forall id, GetObject id (_objMgr r') = match GetObject id (_objMgr r) with Some o => if gone r o then None else Some o | None => None end) /\
  rm_out r' = rm_out r ++ match out with
                          | [] => []
                          | _ => map (fun sid => ToSession sid (S_DespawnObject (map _id out) (omap (finished r) out))) (listeners r)
                          end /\
  GetAliveMonsterCount (_objMgr r') = monsters_in (_objects (_objMgr r')) /\ room_wf r'.
Proof.
  intros Hr. cbv zeta.
  assert (map_Forall (fun k o => _id o = k) (_objects (_objMgr r))) as Hids.
  { eapply map_Forall_impl; [exact (wi_ids _ (rw_world _ Hr))|]. cbn. by intros ? ? [? ?]. }
  pose proof (GetAllObjects_ids _ Hids) as Hnd. unfold ResolveCleanup. rewrite combat_cleanup_fold by done. cbn [app].
  set (out := filter _ _). pose proof (finished_length r (GetAllObjects (_objMgr r))) as Hlen. fold out in Hlen.
  assert (forall o, o ∈ out <-> GetObject (_id o) (_objMgr r) = Some o /\ gone r o = true) as Hout.
  { intros o. unfold out. rewrite list_elem_of_filter, GetAllObjects_elem by done. destruct (gone r o); naive_solver. }
  set (r1 := remove_all r (map _id out)).
  assert (forall id, GetObject id (_objMgr r1) = match GetObject id (_objMgr r) with Some o => if gone r o then None else Some o | None => None end) as Hget.
  { intros id. unfold r1. rewrite remove_all_lookup. destruct (GetObject id (_objMgr r)) as [o|] eqn:Eo; [|by case_bool_decide].
    assert (_id o = id) as Hid by exact (Hids _ _ Eo). destruct (gone r o) eqn:Eg.
    - rewrite bool_decide_true; [done|]. rewrite <- Hid. apply list_elem_of_fmap_2, Hout. by rewrite Hid.
    - rewrite bool_decide_false; [done|]. intros (o' & Eid & Ho')%list_elem_of_fmap. apply Hout in Ho' as [Eo' Eg'].
      rewrite <- Eid, Eo in Eo'. congruence. }
  pose proof (remove_all_wf (map _id out) r Hr) as Hw1. fold r1 in Hw1.
  destruct (remove_all_frame (map _id out) r) as [Ef Eo]. fold r1 in Ef, Eo.
  assert (rm_players r1 = rm_players r) as Epl by (unfold frame_part in Ef; by injection Ef).
  destruct out as [|o out'] eqn:Eout; [|].
  - cbn [map]. split_and!; [exact Hget|by rewrite Eo, app_nil_r|apply (wi_count _ (rw_world _ Hw1))|done].
  - rewrite <- Eout in *. assert (match map _id out with [] => r1 | _ => BroadcastDespawn (map _id out) (omap (finished r) out) r1 end =
      emit (map (fun sid => ToSession sid (S_DespawnObject (map _id out) (omap (finished r) out))) (listeners r)) r1) as ->.
    { rewrite Eout at 1. cbn [map]. unfold BroadcastDespawn. rewrite Eout at 1. cbn [map].
      rewrite imap_pickers by (by rewrite length_map, Hlen). unfold Room_BroadcastPacket, send_each, listeners. by rewrite Epl. }
    split_and!; [exact Hget| |apply (wi_count _ (rw_world _ Hw1))|by eapply room_wf_objects; [..|exact Hw1]].
    unfold emit; cbn [rm_out]. rewrite Eo, Eout. done.
Qed.

End Cleanup.

(** ** Gems *)

Section Gems.
Context `{IterationOrder} (D : DataManager) (dis : nat -> Z -> Z).

(** What other objects see of a player. *)
Definition same_body (p q : Player) : Prop :=
  _id (p_obj q) = _id (p_obj p) /\ _x (p_obj q) = _x (p_obj p) /\ _y (p_obj q) = _y (p_obj p) /\ IsDead (p_obj q) = IsDead (p_obj p).

(** A player after a gift of experience in the room. *)
Definition given (r : Room) (e : Z) (p : Player) : option Player := fst <$> GiveExp D dis e p r.

Lemma given_Some r e p p' r' : GiveExp D dis e p r = Some (p', r') -> given r e p = Some p'.
Proof. unfold given. by intros ->. Qed.

Lemma GiveExp_body e p r p' r' : GiveExp D dis e p r = Some (p', r') -> IsDead (p_obj p) = false -> same_body p p'.
Proof.
  intros E Hd. apply given_Some in E. revert E. unfold given, GiveExp, AddExp. destruct (_isLevelingUp p); [by intros [= <-]|].
  destruct (level_loop _ _ _ _ _) as [[[[exp maxExp] level] up]|]; [|done]. cbn [mbind option_bind].
  destruct (_ =? 0); [by intros [= <-]|]. destruct up; [|by intros [= <-]].
  destruct (GenerateOptions D dis _); by intros [= <-].
Qed.

Lemma given_clock e p r r' : rm_clock r = rm_clock r' -> given r e p = given r' e p.
Proof.
  intros E. unfold given, GiveExp, AddExp. destruct (_isLevelingUp p); [done|].
  destruct (level_loop _ _ _ _ _) as [[[[exp maxExp] level] up]|]; [|done]. cbn [mbind option_bind].
  destruct (_ =? 0); [done|]. destruct up; [|done]. destruct (GenerateOptions D dis _); [done|].
  unfold EnterLevelUpState. cbn [GetTotalRunTime Room_api fmap option_fmap option_map fst].
  change (_totalRunTime (rm_clock (SendToPlayer ?s ?k ?x))) with (_totalRunTime (rm_clock x)).
  cbn -[set_levelup]. by rewrite E.
Qed.

Lemma update_monster_gem id f id' r : room_gem id' (room_update_monster id f r) = room_gem id' r.
Proof.
  destruct (decide (id' = id)) as [->|Hne].
  - unfold room_update_monster. destruct (room_monster id r) as [m|] eqn:E; [|done].
    destruct (room_monster_inv _ _ _ E) as (d & Hd & _). unfold room_gem; cbn. by rewrite lookup_insert_eq, Hd.
  - destruct (update_monster_other id id' f r Hne) as [E1 E2]. unfold room_gem. by rewrite E1, E2.
Qed.

Lemma put_gem_wf id g0 g r : room_gem id r = Some g0 -> g_obj g = g_obj g0 -> room_wf r -> room_wf (put_gem id g r).
Proof.
  intros E Eg Hr. unfold room_gem in E. destruct (rm_derived r !! id) as [[| | |d]|] eqn:Ed; try done.
  destruct (GetObject id (_objMgr r)) as [o|] eqn:Eo; [|done]. injection E as <-. cbn in Eg.
  pose proof (rw_derived _ Hr id) as Ht. rewrite Ed, Eo in Ht. cbn in Ht. injection Ht as Ht.
  destruct (world_ids _ _ _ (rw_world _ Hr) Eo) as [Hid _]. apply (put_wf id o); [done|done|by rewrite Eg|by rewrite Eg|done].
Qed.

Definition gem_view (r : Room) : gmap Z Z * Clock := (rm_players r, rm_clock r).

Lemma GiveExp_room e p r p' r' :
  GiveExp D dis e p r = Some (p', r') -> gem_view r' = gem_view r /\ forall id, room_gem id r' = room_gem id r.
Proof.
  unfold GiveExp. destruct (AddExp D dis e p (Some r)) as [[p1 room']|] eqn:E; [|done]. cbn. intros [= <- <-].
  apply (AddExp_stable D dis (fun r' => gem_view r' = gem_view r /\ forall id, room_gem id r' = room_gem id r)) in E as [_ Ho].
  - destruct room'; cbn in *; done.
  - intros id f r' [E1 E2]. cbn [update_monster Room_api]. pose proof (update_monster_part id f r') as Ep. unfold frame_part in Ep.
    injection Ep as ? ? ? ? Epl ? Ec _ _ _. unfold gem_view in *. rewrite Epl, Ec. split; [done|]. intros id'. by rewrite update_monster_gem.
  - done.
  - done.
  - done.
Qed.

(** ** The specification: who picks a gem up *)

Definition pickup (h : gmap Z Player) (r : Room) (g : ExpGem) : option (Z * Player) :=
  a ← GetNearestPlayer h (_x (g_obj g)) (_y (g_obj g)) r;
  p ← h !! a;
  if IsDead (p_obj p) then None
  else
    let dx := (_x (p_obj p) - _x (g_obj g))%F in
    let dy := (_y (p_obj p) - _y (g_obj g))%F in
    if (dx * dx + dy * dy <=? EXP_GEM_PICKUP_RADIUS * EXP_GEM_PICKUP_RADIUS)%F then Some (a, p) else None.

Definition gem_of (r : Room) (o : GameObject) : option ExpGem :=
  match _type o with ITEM => g ← room_gem (_id o) r; if _isPickedUp g then None else Some g | _ => None end.

(** The experience of the gems that go to a player. *)
Definition paid_to (h : gmap Z Player) (r : Room) (a : Z) (o : GameObject) : option Z :=
  g ← gem_of r o; '(a', _) ← pickup h r g; if a' =? a then Some (_expAmount g) else None.

Definition same_bodies (h h' : gmap Z Player) : Prop :=
  forall a, match h !! a, h' !! a with Some p, Some q => same_body p q | None, None => True | _, _ => False end.

Lemma same_body_refl p : same_body p p.
Proof. by split_and!. Qed.

Lemma same_bodies_refl h : same_bodies h h.
Proof. intros a. destruct (h !! a); [apply same_body_refl|done]. Qed.

Lemma nearest_same h h' x y r r' : same_bodies h h' -> rm_players r = rm_players r' -> GetNearestPlayer h x y r = GetNearestPlayer h' x y r'.
Proof.
  intros Hb Ep. unfold GetNearestPlayer. rewrite Ep. f_equal. generalize (None : option Z, FLT_MAX). generalize (iter_order (rm_players r')).
  intros l. induction l as [|kv l IH]; intros s; [done|]. cbn [foldl]. rewrite IH. f_equal.
  unfold nearest_step. specialize (Hb kv.2). destruct (h !! kv.2) as [p|], (h' !! kv.2) as [q|]; try done.
  destruct Hb as (_ & -> & -> & ->). done.
Qed.

Lemma pickup_same h h' r r' g :
  same_bodies h h' -> rm_players r = rm_players r' ->
  match pickup h r g, pickup h' r' g with
  | Some (a, p), Some (a', q) => a = a' /\ h !! a = Some p /\ h' !! a = Some q /\ same_body p q /\ IsDead (p_obj q) = false
  | None, None => True
  | _, _ => False
  end.
Proof.
  intros Hb Ep. unfold pickup. rewrite (nearest_same h h' _ _ r r' Hb Ep). destruct (GetNearestPlayer h' _ _ r') as [a|]; [|done]. cbn.
  pose proof (Hb a) as Ha. destruct (h !! a) as [p|] eqn:Hp, (h' !! a) as [q|] eqn:Hq; try done. cbn.
  pose proof Ha as (_ & Ex & Ey & Ed). rewrite Ex, Ey, Ed. destruct (IsDead (p_obj p)) eqn:Edp; [done|]. destruct (_ <=? _)%F; [|done].
  by split_and!.
Qed.

Lemma put_gem_other id id' g r : id' <> id -> room_gem id' (put_gem id g r) = room_gem id' r.
Proof. intros Hne. unfold room_gem, GetObject; cbn. by rewrite !lookup_insert_ne. Qed.

Lemma put_gem_self id g r : room_gem id (put_gem id g r) = Some g.
Proof. unfold room_gem, GetObject; cbn. rewrite !lookup_insert_eq. by destruct g. Qed.

(** The turn of one object. *)
Lemma resolve_item_spec h0 r0 h r o s :
  same_bodies h0 h -> gem_view r = gem_view r0 -> room_gem (_id o) r = room_gem (_id o) r0 ->
  resolve_item D dis o (h, r) = Some s ->
  same_bodies h0 s.1 /\ gem_view s.2 = gem_view r0 /\
  (forall id, id <> _id o -> room_gem id s.2 = room_gem id r) /\
  (forall a p, h !! a = Some p -> exists p', s.1 !! a = Some p' /\
     match paid_to h0 r0 a o with Some e => given r0 e p = Some p' | None => p' = p end) /\
  (forall g, gem_of r0 o = Some g -> exists g', room_gem (_id o) s.2 = Some g' /\ _expAmount g' = _expAmount g /\
     _isPickedUp g' = match pickup h0 r0 g with Some _ => true | None => false end /\
     _pickerId g' = match pickup h0 r0 g with Some (_, p) => _id (p_obj p) | None => _pickerId g end).
Proof.
  intros Hb Hv Hg. unfold resolve_item, paid_to, gem_of.
  assert (Some (h, r) = Some s -> same_bodies h0 s.1 /\ gem_view s.2 = gem_view r0 /\
    (forall id, id <> _id o -> room_gem id s.2 = room_gem id r) /\
    (forall a p, h !! a = Some p -> exists p', s.1 !! a = Some p' /\ p' = p)) as Hnone by (intros [= <-]; split_and!; eauto).
  destruct (_type o); try (intros Hs; destruct (Hnone Hs) as (? & ? & ? & ?); by split_and!).
  rewrite <- Hg. destruct (room_gem (_id o) r) as [g|] eqn:Eg; [|intros Hs; destruct (Hnone Hs) as (? & ? & ? & ?); by split_and!].
  cbn [mbind option_bind]. destruct (_isPickedUp g) eqn:Epk; [intros Hs; destruct (Hnone Hs) as (? & ? & ? & ?); by split_and!|].
  cbn [mbind option_bind].
  assert (rm_players r0 = rm_players r) as Epl by (unfold gem_view in Hv; by injection Hv).
  pose proof (pickup_same h0 h r0 r g Hb Epl) as Hps. set (pk := pickup h0 r0 g) in *.
  (* what a gem that nobody picks up does *)
  assert (forall f, pk = None -> Some (h, put_gem (_id o) (with_gem_obj f g) r) = Some s ->
    same_bodies h0 s.1 /\ gem_view s.2 = gem_view r0 /\ (forall id, id <> _id o -> room_gem id s.2 = room_gem id r) /\
    (forall a p, h !! a = Some p -> exists p', s.1 !! a = Some p' /\
       match (pk ≫= fun '(a', _) => if a' =? a then Some (_expAmount g) else None) with
       | Some e => given r0 e p = Some p' | None => p' = p end) /\
    (forall g0, Some g = Some g0 -> exists g', room_gem (_id o) s.2 = Some g' /\ _expAmount g' = _expAmount g0 /\
       _isPickedUp g' = match pickup h0 r0 g0 with Some _ => true | None => false end /\
       _pickerId g' = match pickup h0 r0 g0 with Some (_, p) => _id (p_obj p) | None => _pickerId g0 end)) as Hstay.
  { intros f Epn [= <-]. cbn [fst snd]. split_and!; [done|done|intros id Hid; by apply put_gem_other|rewrite Epn; intros b q Hq; by exists q|].
    intros g0 [= <-]. exists (with_gem_obj f g). rewrite put_gem_self. fold pk. rewrite Epn. by split_and!. }
  unfold pickup in Hps. cbv zeta in Hps. revert Hps.
  destruct (GetNearestPlayer h _ _ r) as [a|] eqn:En; cbn [mbind option_bind]; [|intros Hps; apply Hstay; by destruct pk as [[? ?]|]].
  destruct (h !! a) as [p|] eqn:Hp; cbn [mbind option_bind fmap option_fmap option_map]; [|intros Hps; apply Hstay; by destruct pk as [[? ?]|]].
  destruct (IsDead (p_obj p)) eqn:Ed; [intros Hps; apply Hstay; by destruct pk as [[? ?]|]|].
  destruct (_ <=? EXP_GEM_PICKUP_RADIUS * EXP_GEM_PICKUP_RADIUS)%F eqn:Er; intros Hps.
  - destruct pk as [[a' p0]|] eqn:Epk2; [|done]. destruct Hps as (-> & Hp0 & _ & Hsb & _).
    destruct (GiveExp D dis (_expAmount g) p r) as [[p1 r1]|] eqn:Ege; [|done]. cbn [mbind option_bind]. intros [= <-].
    pose proof (GiveExp_body _ _ _ _ _ Ege Ed) as Hbody. destruct (GiveExp_room _ _ _ _ _ Ege) as [Hv' Hg'].
    pose proof (given_clock (_expAmount g) p r r0) as Hc. rewrite (given_Some _ _ _ _ _ Ege) in Hc. cbn [fst snd] in *.
    assert (same_body p0 p1) as Hsb1 by (destruct Hsb as (? & ? & ? & ?), Hbody as (? & ? & ? & ?); split_and!; congruence).
    split_and!.
    + intros b. destruct (decide (b = a)) as [->|Hne]; [rewrite lookup_insert_eq, Hp0; exact Hsb1|rewrite lookup_insert_ne by done; apply Hb].
    + rewrite <- Hv, <- Hv'. done.
    + intros id Hid. rewrite put_gem_other by done. apply Hg'.
    + intros b q Hq. cbn [mbind option_bind]. destruct (a =? b) eqn:Eab; bool_to_prop.
      * subst b. rewrite lookup_insert_eq. assert (q = p) as -> by congruence. exists p1. split; [done|].
        symmetry. apply Hc. unfold gem_view in Hv; by injection Hv.
      * rewrite lookup_insert_ne by done. eauto.
    + intros g0 [= <-]. rewrite put_gem_self. eexists. split; [done|]. fold pk. rewrite Epk2. cbn. split_and!; try done.
      by destruct Hsb1 as (-> & _).
  - assert (pk = None) as Epn by (by destruct pk as [[? ?]|]).
    destruct (_ <=? EXP_GEM_MAGNET_RADIUS * _)%F; [|by apply Hstay]. destruct (flit 1 1000 <? _)%F; [by apply Hstay|].
    intros [= <-]. cbn [fst snd]. split_and!; try done; [rewrite Epn; intros b q Hq; by exists q|]. intros g0 [= <-]. exists g. fold pk. rewrite Epn. by split_and!.
Qed.

Lemma item_pass h0 r0 l s : forall h r,
  NoDup (map _id l) -> same_bodies h0 h -> gem_view r = gem_view r0 -> (forall o, o ∈ l -> room_gem (_id o) r = room_gem (_id o) r0) ->
  for_each (resolve_item D dis) l (h, r) = Some s ->
  (forall a p, h !! a = Some p -> exists p', s.1 !! a = Some p' /\ for_each (given r0) (omap (paid_to h0 r0 a) l) p = Some p') /\
  (forall id, id ∉ map _id l -> room_gem id s.2 = room_gem id r) /\
  (forall o g, o ∈ l -> gem_of r0 o = Some g -> exists g', room_gem (_id o) s.2 = Some g' /\ _expAmount g' = _expAmount g /\
     _isPickedUp g' = match pickup h0 r0 g with Some _ => true | None => false end /\
     _pickerId g' = match pickup h0 r0 g with Some (_, p) => _id (p_obj p) | None => _pickerId g end).
Proof.
  induction l as [|o l IH]; intros h r Hnd Hb Hv Hg Hrun.
  { injection Hrun as <-. split_and!; [eauto|done|]. intros o g Ho. by apply elem_of_nil in Ho. }
  cbn [map] in Hnd |- *. apply NoDup_cons in Hnd as [Ho Hnd]. cbn [for_each] in Hrun. apply bind_Some in Hrun as ([h1 r1] & E1 & Hrun).
  destruct (resolve_item_spec h0 r0 h r o (h1, r1) Hb Hv) as (Hb' & Hv' & Hg' & Hp' & Hgem'); [apply Hg; left|done|].
  cbn [fst snd] in *.
  destruct (IH h1 r1) as (I1 & I2 & I3); try done.
  { intros o' Ho'. rewrite Hg'; [apply Hg; by right|]. intros E. apply Ho. rewrite <- E. by apply list_elem_of_fmap_2. }
  split_and!.
  - intros a p Hp. destruct (Hp' a p Hp) as (p1 & Hp1 & Hpay). destruct (I1 a p1 Hp1) as (p2 & Hp2 & Hrest).
    exists p2. split; [done|]. cbn [omap list_omap]. destruct (paid_to h0 r0 a o) as [e|]; cbn [for_each]; [by rewrite Hpay|by subst].
  - intros id [Hid Hl]%not_elem_of_cons. rewrite I2 by done. by apply Hg'.
  - intros o' g [->|Ho']%elem_of_cons Hgo; [|by apply I3]. destruct (Hgem' g Hgo) as (g' & E & ?). exists g'. rewrite I2 by done. done.
Qed.

(** The experience of a gem is paid exactly once: in a frame every gem that lies
    within reach of the living player nearest to it is marked with that player, and no
    other gem is; each player's experience, levels and options change by the gems that
    are marked with it, in the order of the objects, and by nothing else.  (The
    clean-up of the same frame removes the marked gems.) *)
Theorem gems_paid_once h r s :
  room_wf r -> ResolveItemCollisions D dis (h, r) = Some s ->
  (forall a p, h !! a = Some p -> exists p', s.1 !! a = Some p' /\
     for_each (given r) (omap (paid_to h r a) (GetAllObjects (_objMgr r))) p = Some p') /\
  (forall o g, GetObject (_id o) (_objMgr r) = Some o -> gem_of r o = Some g ->
     exists g', room_gem (_id o) s.2 = Some g' /\ _expAmount g' = _expAmount g /\
       _isPickedUp g' = match pickup h r g with Some _ => true | None => false end /\
       _pickerId g' = match pickup h r g with Some (_, p) => _id (p_obj p) | None => _pickerId g end).
Proof.
  intros Hr Hrun. unfold ResolveItemCollisions in Hrun. cbn [snd] in Hrun.
  assert (map_Forall (fun k o => _id o = k) (_objects (_objMgr r))) as Hids.
  { eapply map_Forall_impl; [exact (wi_ids _ (rw_world _ Hr))|]. cbn. by intros ? ? [? ?]. }
  destruct (item_pass h r (GetAllObjects (_objMgr r)) s h r (GetAllObjects_ids _ Hids)) as (I1 & _ & I3); try done.
  { apply same_bodies_refl. }
  split; [exact I1|]. intros o g Ho. apply I3. by apply GetAllObjects_elem.
Qed.

End Gems.

(** A gem picked up while its picker chooses a level-up is worth nothing: [AddExp]
    returns at once, the gem is marked and removed all the same. *)
Lemma leveling_player_wastes_gems `{IterationOrder} D dis e p r :
  _isLevelingUp p = true -> GiveExp D dis e p r = Some (p, r).
Proof. intros E. unfold GiveExp, AddExp. by rewrite E. Qed.

(** ** The arena *)

(** The clock runs: a hit makes invincible. *)
Definition busy_arena : Room := set_clock (mkClock (f_of_Z 3) 75 f0) arena.

Lemma contact_damage_once_witness : exists p',
  (ResolveBodyCollisions (H := any_order) (arena_heap, busy_arena)).1 !! 10 = Some p' /\ _hp (p_obj p') = 90.
Proof.
  pose proof (contact_damage_once (H := any_order) arena_heap busy_arena 10 (Player_new 5 5) ltac:(reflexivity) ltac:(vm_compute; reflexivity)) as E.
  assert (filter (fun e => targets_player busy_arena 10 e) (CollectAttackEvents (H := any_order) arena_heap busy_arena) =
          [mkAttack 1001 5 10 (f_of_Z 3)]) as Ef by (vm_compute; reflexivity).
  rewrite Ef in E. eexists. split; [exact E|]. vm_compute. reflexivity.
Defined.

(** A monster that died, and a gem that was picked by player 5. *)
Definition littered_arena : Room :=
  let r := room_update_monster 1001 (fun m => (Monster_TakeDamage 200 m).1) arena in
  match room_gem 1004 r with Some g => put_gem 1004 (MarkAsPickedUp (SetPickerId 5 g)) r | None => r end.

Lemma littered_wf : room_wf littered_arena.
Proof.
  unfold littered_arena. cbv zeta.
  assert (room_wf (room_update_monster 1001 (fun m => (Monster_TakeDamage 200 m).1) arena)) as Hr.
  { apply update_monster_wf; [exact arena_wf|]. intros m. apply TakeDamage_obj. }
  revert Hr. generalize (room_update_monster 1001 (fun m => (Monster_TakeDamage 200 m).1) arena). intros r Hr.
  destruct (room_gem 1004 r) as [g|] eqn:E; [|exact Hr]. by apply (put_gem_wf 1004 g).
Qed.

Lemma cleanup_exact_witness :
  GetObject 1001 (_objMgr (ResolveCleanup (H := any_order) littered_arena)) = None /\
  is_Some (GetObject 1002 (_objMgr (ResolveCleanup (H := any_order) littered_arena))) /\
  rm_out (ResolveCleanup (H := any_order) littered_arena) = [ToSession 5 (S_DespawnObject [1001; 1004] [0; 5])].
Proof.
  destruct (cleanup_exact (H := any_order) littered_arena littered_wf) as (E1 & E2 & _).
  rewrite E1, E1, E2. split_and!; vm_compute; [reflexivity|by eexists|reflexivity].
Defined.

Lemma gems_paid_once_witness : exists s p' g',
  ResolveItemCollisions (H := any_order) DataManager_new (fun _ lo => lo) (arena_heap, arena) = Some s /\
  s.1 !! 10 = Some p' /\ _exp p' = 10 /\ room_gem 1004 s.2 = Some g' /\ _isPickedUp g' = true /\ _pickerId g' = 5.
Proof.
  destruct (ResolveItemCollisions (H := any_order) DataManager_new (fun _ lo => lo) (arena_heap, arena)) as [s|] eqn:E.
  2: { exfalso. apply (f_equal (fun o => match o with Some _ => true | None => false end)) in E. vm_compute in E. discriminate E. }
  destruct (gems_paid_once (H := any_order) DataManager_new (fun _ lo => lo) arena_heap arena s arena_wf E) as [E1 E2].
  destruct (E1 10 (Player_new 5 5) ltac:(reflexivity)) as (p' & Hp' & Hpay).
  destruct (GetObject 1004 (_objMgr arena)) as [o|] eqn:Eo; [|vm_compute in Eo; discriminate].
  assert (_id o = 1004) as Hid by (vm_compute in Eo; injection Eo as <-; reflexivity).
  destruct (gem_of arena o) as [g|] eqn:Eg; [|vm_compute in Eo; injection Eo as <-; vm_compute in Eg; discriminate].
  destruct (E2 o g ltac:(rewrite Hid; exact Eo) Eg) as (g' & Hg' & _ & Hpk & Hpi). rewrite Hid in Hg'.
  exists s, p', g'. split; [reflexivity|]. split; [exact Hp'|]. split.
  { apply (f_equal (fmap _exp)) in Hpay. vm_compute in Hpay. by injection Hpay. }
  split; [exact Hg'|]. rewrite Hpk, Hpi. vm_compute in Eo. injection Eo as <-. vm_compute in Eg. injection Eg as <-. vm_compute. split; reflexivity.
Defined.

(** Both ends of a kill announce the death: [TakeDamage] and [ExecuteAttackEvents]. *)
Definition weak_heap : gmap Z Player := {[10 := set_obj (SetHp 5 (p_obj (Player_new 5 5))) (Player_new 5 5)]}.

Definition is_death (o : Out) : bool := match o with ToSession _ (Own (S_PlayerDead _)) => true | _ => false end.

Lemma death_is_announced_twice :
  filter (fun o => is_death o) (rm_out (ResolveBodyCollisions (H := any_order) (weak_heap, busy_arena)).2) =
  [ToSession 5 (Own (S_PlayerDead 5)); ToSession 5 (Own (S_PlayerDead 5))].
Proof. vm_compute. reflexivity. Qed.
