(* ===== verification/Emitters.v ===== *)
(** * Emitters: the weapons of a player

    Models [DamageEmitter::Update] and [IsExpired] of
    src/Examples/VampireSurvivor/Server/Game/DamageEmitter.cpp and [Player::Update] of
    Entity/Player.cpp.  An emitter reads its owner and changes the room: it damages
    monsters, slows them, launches projectiles and sends packets.

    The trigonometric functions and [shuffle] (the n-th use of std::shuffle with a
    random device) are arguments.  The classes of Game/Emitter are not used by the
    program. *)

From Stdlib Require Import SpecFloat.
From stdpp Require Import base strings gmap option list.
From S2P Require Import Prelude Float32 Random GameData Modifiers Inventory Entity Player World Projectile Waves Effects Room RoomObjects Combat.

(** 3.14159265f *)
Definition PI_F : float := S754_finite false 13176795 (-22).

(** What an update works on: the room, the generator of the "Arc" branch, the idle
    projectiles, and how many shuffles were made. *)
Record Arsenal := mkArsenal { ar_room : Room; ar_arc : FastRandom; ar_pool : list Projectile; ar_shuffles : nat }.

Definition on_room (f : Room -> Room) (s : Arsenal) : Arsenal := mkArsenal (f (ar_room s)) (ar_arc s) (ar_pool s) (ar_shuffles s).

(** Setters of the emitter, one per group of fields. *)
Definition set_timers (timer dotTimer : float) (st : EmitterState) (e : DamageEmitter) : DamageEmitter :=
  mkEmitter (e_skillId e) (e_weaponId e) (e_level e) (e_owner e) (e_damage e) (e_typeId e) (e_tickInterval e) (e_hitRadius e)
    timer (e_activeDuration e) (e_dotInterval e) dotTimer st (e_emitterType e) (e_pierce e)
    (e_maxTargetsPerTick e) (e_targetRule e) (e_lifeTime e) (e_elapsedTime e) (e_arcDegrees e) (e_width e) (e_height e) (e_active e).

Definition set_life_time (elapsed : float) (active : bool) (e : DamageEmitter) : DamageEmitter :=
  mkEmitter (e_skillId e) (e_weaponId e) (e_level e) (e_owner e) (e_damage e) (e_typeId e) (e_tickInterval e) (e_hitRadius e)
    (e_timer e) (e_activeDuration e) (e_dotInterval e) (e_dotTimer e) (e_state e) (e_emitterType e) (e_pierce e)
    (e_maxTargetsPerTick e) (e_targetRule e) (e_lifeTime e) elapsed (e_arcDegrees e) (e_width e) (e_height e) active.

(** The multipliers of an update. *)
Record Boosts := mkBoosts {
  b_damage : float; b_cooldown : float; b_area : float; b_duration : float; b_projectiles : Z; b_pierce : Z
}.

(** What a hit does besides the damage. *)
Record HitEffect := mkHitEffect { he_type : string; he_value : float; he_duration : float }.

Definition has_trait (t : option SkillInfo) (trait : string) : bool :=
  match t with Some t => bool_decide (trait ∈ si_traits t) | None => false end.

Definition plain_effect (caster skillId : Z) (x y radius duration : float) : SkillEffect :=
  mkSkillEffect caster skillId x y radius duration f0 f0 f0 f0.

Section Emitters.
Context `{IterationOrder} (D : DataManager) (sin cos acos : float -> float) (atan2 : float -> float -> float).
Context (shuffle : nat -> list Z -> list Z).

(** The data of the weapon's level, if the emitter belongs to a weapon. *)
Definition level_data (e : DamageEmitter) : option WeaponLevelInfo :=
  if 0 <? e_weaponId e then
    t ← GetWeaponInfo D (e_weaponId e);
    snd <$> list_find (fun lvl => wl_level lvl = e_level e) (wp_levels t)
  else None.

Definition boosts (p : Player) (e : DamageEmitter) : Boosts :=
  let tmpl := GetSkillInfo D (e_skillId e) in
  let dmg := GetDamageMultiplier D p in
  let cool := GetCooldownMultiplier D p in
  let area := if has_trait tmpl "AREA" || has_trait tmpl "AOE" then GetAreaMultiplier D p else f1 in
  let dur := if has_trait tmpl "DURATION" then GetDurationMultiplier D p else f1 in
  let '(shots, pierce) :=
    if has_trait tmpl "PROJECTILE" then (GetAdditionalProjectileCount D p, GetAdditionalPierceCount D p) else (0, 0) in
  match level_data e with
  | None => mkBoosts dmg cool area dur shots pierce
  | Some lvl =>
      let area := (area * wl_areaMult lvl)%F in
      mkBoosts (dmg * wl_damageMult lvl)%F (cool * wl_cooldownMult lvl)%F
        (match wl_params lvl !! "skill_width_mult"%string with Some w => (area * w)%F | None => area end)
        (dur * wl_durationMult lvl)%F (i32 (shots + wl_projectileCount lvl)) (i32 (pierce + wl_pierceCount lvl))
  end.

Definition tick_interval (b : Boosts) (e : DamageEmitter) : float := fmax (flit 5 100) (e_tickInterval e * b_cooldown b)%F.

Definition final_damage (b : Boosts) (e : DamageEmitter) : Z := cast_i32 (f_of_Z (e_damage e) * b_damage b)%F.

(** The effect of a pulse: the skill's, where the level does not override it. *)
Definition pulse_effect (e : DamageEmitter) : HitEffect :=
  let base := match GetSkillInfo D (e_skillId e) with
              | Some t => mkHitEffect (si_effectType t) (si_effectValue t) (si_effectDuration t)
              | None => mkHitEffect EmptyString f0 f0 end in
  match level_data e with
  | None => base
  | Some lvl =>
      mkHitEffect (if bool_decide (wl_effectType lvl = EmptyString) then he_type base else wl_effectType lvl)
        (if (wl_effectValue lvl =? f0)%F then he_value base else wl_effectValue lvl)
        (if (wl_effectDuration lvl =? f0)%F then he_duration base else wl_effectDuration lvl)
  end.

Definition cast_effect (eff : SkillEffect) (r : Room) : Room := Room_BroadcastPacket (S_SkillEffect eff) 0 r.

(** The damage packet, if anything was hit. *)
Definition report (skillId : Z) (dl : DamageList) (r : Room) : Room :=
  match dl_targets dl with
  | [] => r
  | _ => Room_BroadcastPacket (S_DamageEffect skillId (dl_targets dl) (dl_values dl) (dl_crits dl)) 0 r
  end.

(** [TakeDamage], then the status effect. *)
Definition wound (eff : HitEffect) (damage : Z) (id : Z) (r : Room) : Room :=
  let r := hit_monster id damage r in
  if bool_decide (he_type eff = EmptyString) then r
  else room_update_monster id (AddStatusEffect (he_type eff) (he_value eff) (he_duration eff) (_totalRunTime (rm_clock r))) r.

(** The field's packet has no critical flags. *)
Definition add_plain (target damage : Z) (l : DamageList) : DamageList :=
  mkDamages (dl_targets l ++ [target]) (dl_values l ++ [damage]) (dl_crits l).

(** ** Fields *)

Definition field_damage (p : Player) (b : Boosts) (e : DamageEmitter) (r : Room) : Room :=
  let eff := match GetSkillInfo D (e_skillId e) with
             | Some t => mkHitEffect (si_effectType t) (si_effectValue t) (si_effectDuration t)
             | None => mkHitEffect EmptyString f0 f0 end in
  let dmg := final_damage b e in
  let victims := Room_GetMonstersInRange (_x (p_obj p)) (_y (p_obj p)) (e_hitRadius e * b_area b)%F r in
  let '(r, dl) := foldl (fun s id => (wound eff dmg id s.1, add_plain id dmg s.2)) (r, no_damage) victims in
  report (e_skillId e) dl r.

Definition update_field (dt : float) (p : Player) (b : Boosts) (e : DamageEmitter) (r : Room) : DamageEmitter * Room :=
  let duration := (e_activeDuration e * b_duration b)%F in
  let timer := (e_timer e + dt)%F in
  match e_state e with
  | COOLING =>
      if (tick_interval b e <=? timer)%F then
        (set_timers f0 (e_dotInterval e) ACTIVE e,
         cast_effect (plain_effect (_id (p_obj p)) (e_skillId e) (_x (p_obj p)) (_y (p_obj p)) (e_hitRadius e * b_area b)%F duration) r)
      else (set_timers timer (e_dotTimer e) COOLING e, r)
  | ACTIVE =>
      let dot := (e_dotTimer e + dt)%F in
      let '(dot, r) := if (e_dotInterval e <=? dot)%F then ((dot - e_dotInterval e)%F, field_damage p b e r) else (dot, r) in
      if (duration <=? timer)%F then (set_timers f0 dot COOLING e, r) else (set_timers timer dot ACTIVE e, r)
  end.

(** ** Critical pulses *)

Definition crit_chance (p : Player) (lvl : option WeaponLevelInfo) : float :=
  let c := GetCriticalChance D p in
  match lvl with Some l => if (f0 <? wl_critChance l)%F then (c + wl_critChance l)%F else c | None => c end.

Definition crit_mult (p : Player) (lvl : option WeaponLevelInfo) : float :=
  let m := GetCriticalDamageMultiplier D p in
  match lvl with Some l => if (f1 <? wl_critDamageMult l)%F then (m * wl_critDamageMult l)%F else m | None => m end.

(** Whether a pulse with the random number [x] is critical, and its damage. *)
Definition crit_roll (p : Player) (lvl : option WeaponLevelInfo) (x : float) (damage : Z) : bool * Z :=
  if (x <? crit_chance p lvl)%F then (true, cast_i32 (f_of_Z damage * crit_mult p lvl)%F)
  else (false, cast_i32 (f_of_Z damage * f1)%F).

(** [FastRandom().NextFloat()]: of a generator made for this one draw. *)
Definition fresh_float : float := (NextFloat FastRandom_new).1.

(** The target limit of the branches that count projectiles as targets. *)
Definition max_targets (b : Boosts) (e : DamageEmitter) (lvl : option WeaponLevelInfo) : Z :=
  match lvl with
  | Some l => if 0 <? wl_maxTargets l then wl_maxTargets l else i32 (e_maxTargetsPerTick e + b_projectiles b)
  | None => i32 (e_maxTargetsPerTick e + b_projectiles b)
  end.

(** The loop of "Arc" and "Directional": the limit is tested after a hit. *)
Fixpoint hit_until (inside : Monster -> bool) (limit count : Z) (eff : HitEffect) (damage : Z) (crit : bool) (ids : list Z)
  (s : Room * DamageList) : Room * DamageList :=
  match ids with
  | [] => s
  | id :: ids =>
      match room_monster id s.1 with
      | Some m =>
          if inside m then
            let s := (wound eff damage id s.1, add_damage id damage crit s.2) in
            if limit <=? count + 1 then s else hit_until inside limit (count + 1) eff damage crit ids s
          else hit_until inside limit count eff damage crit ids s
      | None => hit_until inside limit count eff damage crit ids s
      end
  end.

(** The loop of "Aura" and "AoE": the limit is tested before a hit. *)
Fixpoint hit_while (limit count : Z) (eff : HitEffect) (damage : Z) (crit : bool) (ids : list Z) (s : Room * DamageList) : Room * DamageList :=
  match ids with
  | [] => s
  | id :: ids =>
      if limit <=? count then s
      else hit_while limit (count + 1) eff damage crit ids (wound eff damage id s.1, add_damage id damage crit s.2)
  end.

(** ** Projectiles *)

Definition nearest_monster_step (px py : float) (r : Room) (s : option Monster * float) (id : Z) : option Monster * float :=
  match room_monster id r with
  | Some m =>
      if IsDead (m_obj m) then s
      else
        let dSq := DistanceSq (mkVec px py) (mkVec (_x (m_obj m)) (_y (m_obj m))) in
        if (dSq <? s.2)%F then (Some m, dSq) else s
  | None => s
  end.

(** The direction of fire: towards the nearest monster, if there is one. *)
Definition aim (p : Player) (r : Room) : Vector2 :=
  let px := _x (p_obj p) in
  let py := _y (p_obj p) in
  match (foldl (nearest_monster_step px py r) (None, FLT_MAX) (Room_GetMonstersInRange px py (f_of_Z 30) r)).1 with
  | Some m =>
      let d := mkVec (_x (m_obj m) - px)%F (_y (m_obj m) - py)%F in
      if IsZero d then _facingDir p else Normalize d
  | None => _facingDir p
  end.

(** A projectile joins the room. *)
Definition launch (owner skillId typeId : Z) (x y vx vy : float) (damage : Z) (life : float) (f : Projectile -> Projectile)
  (s : Arsenal) : Arsenal :=
  let r := ar_room s in
  let '(proj, pool, w) := CreateProjectile owner skillId typeId x y vx vy damage life (ar_pool s) (_objMgr r) in
  let proj := f proj in
  let id := _id (pj_obj proj) in
  let r := set_objects (AddObject (pj_obj proj) w) (<[id := IsProjectile proj]> (rm_derived r)) r in
  mkArsenal (BroadcastSpawn [pj_obj proj] r) (ar_arc s) pool (ar_shuffles s).

Definition fire_linear (p : Player) (b : Boosts) (e : DamageEmitter) (lvl : option WeaponLevelInfo) (count : Z) (dir : Vector2)
  (s : Arsenal) (i : nat) : Arsenal :=
  let speed := (f_of_Z 15 * match lvl with Some l => wl_speedMult l | None => f1 end)%F in
  let fireDir :=
    if 1 <? count then
      let angle := ((f_of_Z (Z.of_nat i) / f_of_Z (count - 1) - flit 1 2) * flit 1 2)%F in
      mkVec (vx dir * cos angle - vy dir * sin angle)%F (vx dir * sin angle + vy dir * cos angle)%F
    else dir in
  let offset := (_radius (p_obj p) + flit 3 10)%F in
  launch (_id (p_obj p)) (e_skillId e) (e_typeId e) (_x (p_obj p) + vx fireDir * offset)%F (_y (p_obj p) + vy fireDir * offset)%F
    (vx fireDir * speed)%F (vy fireDir * speed)%F (final_damage b e) (f_of_Z 3)
    (fun proj => SetPierce (i32 (e_pierce e + b_pierce b)) (set_pj_obj (SetRadius (flit 2 10) (pj_obj proj)) proj)) s.

Definition fire_orbit (p : Player) (b : Boosts) (e : DamageEmitter) (lvl : option WeaponLevelInfo) (count : Z)
  (s : Arsenal) (i : nat) : Arsenal :=
  let radius := (f_of_Z 3 * b_area b)%F in
  let speed := (f_of_Z 4 * match lvl with Some l => wl_speedMult l | None => f1 end)%F in
  let life := (f_of_Z 4 * b_duration b)%F in
  let angle := (f_of_Z (Z.of_nat i) / f_of_Z count * f_of_Z 2 * PI_F)%F in
  launch (_id (p_obj p)) (e_skillId e) (e_typeId e) (_x (p_obj p) + radius * cos angle)%F (_y (p_obj p) + radius * sin angle)%F
    f0 f0 (final_damage b e) life
    (fun proj => SetOrbit radius speed angle (SetPierce (-1) (set_pj_obj (SetRadius (flit 3 10) (pj_obj proj)) proj))) s.

(** ** Pulses *)

Definition pulse_linear (p : Player) (b : Boosts) (e : DamageEmitter) (s : Arsenal) : Arsenal :=
  let count := i32 (1 + b_projectiles b) in
  foldl (fire_linear p b e (level_data e) count (aim p (ar_room s))) s (seq 0 (Z.to_nat count)).

Definition pulse_orbit (p : Player) (b : Boosts) (e : DamageEmitter) (s : Arsenal) : Arsenal :=
  let count := i32 (1 + b_projectiles b) in
  foldl (fire_orbit p b e (level_data e) count) s (seq 0 (Z.to_nat count)).

Definition zone_hit (p : Player) (e : DamageEmitter) (damage : Z) (s : Room * DamageList) (id : Z) : Room * DamageList :=
  let r := hit_monster id damage s.1 in
  (match room_monster id r with
   | Some m => cast_effect (plain_effect (_id (p_obj p)) (e_skillId e) (_x (m_obj m)) (_y (m_obj m)) f1 (flit 2 10)) r
   | None => r
   end, add_plain id damage s.2).

Definition pulse_zone (p : Player) (b : Boosts) (e : DamageEmitter) (s : Arsenal) : Arsenal :=
  let r := ar_room s in
  match Room_GetMonstersInRange (_x (p_obj p)) (_y (p_obj p)) (e_hitRadius e * b_area b)%F r with
  | [] => s
  | monsters =>
      let shots := i32 (1 + b_projectiles b) in
      let shots := match level_data e with Some l => if 0 <? wl_maxTargets l then wl_maxTargets l else shots | None => shots end in
      let chosen := take (Z.to_nat shots) (shuffle (ar_shuffles s) monsters) in
      let '(r, dl) := foldl (zone_hit p e (final_damage b e)) (r, no_damage) chosen in
      mkArsenal (report (e_skillId e) dl r) (ar_arc s) (ar_pool s) (S (ar_shuffles s))
  end.

Definition in_box (cx cy sinA cosA width height : float) (m : Monster) : bool :=
  let dx := (_x (m_obj m) - cx)%F in
  let dy := (_y (m_obj m) - cy)%F in
  let localX := (dx * cosA - dy * sinA)%F in
  let localY := (dx * sinA + dy * cosA)%F in
  (SFabs localX <=? height * flit 1 2)%F && (SFabs localY <=? width * flit 1 2)%F.

Definition directional_attack (p : Player) (b : Boosts) (e : DamageEmitter) (dir : Vector2) (width height : float) (r : Room) : Room :=
  let lvl := level_data e in
  let cx := (_x (p_obj p) + vx dir * (height * flit 1 2))%F in
  let cy := (_y (p_obj p) + vy dir * (height * flit 1 2))%F in
  let angle := atan2 (vy dir) (vx dir) in
  let sinA := sin (- angle)%F in
  let cosA := cos (- angle)%F in
  let monsters := Room_GetMonstersInRange cx cy height r in
  let '(crit, damage) := crit_roll p lvl fresh_float (final_damage b e) in
  let '(r, dl) := hit_until (in_box cx cy sinA cosA width height) (max_targets b e lvl) 0 (pulse_effect e) damage crit monsters (r, no_damage) in
  let r := report (e_skillId e) dl r in
  cast_effect (mkSkillEffect (_id (p_obj p)) (e_skillId e) cx cy (height * flit 1 2)%F (flit 2 10) f0
                 (angle * (f_of_Z 180 / PI_F))%F width height) r.

Definition pulse_directional (p : Player) (b : Boosts) (e : DamageEmitter) (r : Room) : Room :=
  let lvl := level_data e in
  let param k := match lvl with Some l => default f1 (wl_params l !! k) | None => f1 end in
  let width := (e_width e * b_area b * param "skill_width_mult"%string)%F in
  let height := (e_height e * b_area b * param "skill_height_mult"%string)%F in
  let dir := _facingDir p in
  let r := directional_attack p b e dir width height r in
  if match lvl with Some l => bool_decide ("BIDIRECTIONAL"%string ∈ wl_flags l) | None => false end
  then directional_attack p b e (mkVec (- vx dir)%F (- vy dir)%F) width height r else r.

Definition clamp (v lo hi : float) : float := if (v <? lo)%F then lo else if (hi <? v)%F then hi else v.

Definition in_arc (px py : float) (direction : Vector2) (radius arc : float) (m : Monster) : bool :=
  if IsDead (m_obj m) then false
  else
    let to := mkVec (_x (m_obj m) - px)%F (_y (m_obj m) - py)%F in
    if (radius * radius <? MagnitudeSq to)%F then false
    else
      let to := Normalize to in
      let dot := (vx direction * vx to + vy direction * vy to)%F in
      let angleDeg := (acos (clamp dot (- f1)%F f1) * f_of_Z 180 / PI_F)%F in
      (angleDeg <=? arc / f_of_Z 2)%F.

Definition pulse_arc (p : Player) (b : Boosts) (e : DamageEmitter) (s : Arsenal) : Arsenal :=
  let lvl := level_data e in
  let px := _x (p_obj p) in
  let py := _y (p_obj p) in
  let radius := (e_hitRadius e * b_area b)%F in
  let direction := _facingDir p in
  let monsters := Room_GetMonstersInRange px py radius (ar_room s) in
  let '(x, rng) := NextFloat (ar_arc s) in
  let '(crit, damage) := crit_roll p lvl x (final_damage b e) in
  let '(r, dl) := hit_until (in_arc px py direction radius (e_arcDegrees e)) (max_targets b e lvl) 0 (pulse_effect e) damage crit monsters
                    (ar_room s, no_damage) in
  let r := report (e_skillId e) dl r in
  let r := cast_effect (mkSkillEffect (_id (p_obj p)) (e_skillId e) px py radius (flit 3 10) (e_arcDegrees e)
                          (atan2 (vy direction) (vx direction) * (f_of_Z 180 / PI_F))%F f0 f0) r in
  mkArsenal r rng (ar_pool s) (ar_shuffles s).

Definition closer (px py : float) (r : Room) (a b : Z) : bool :=
  match room_monster a r, room_monster b r with
  | Some ma, Some mb => (DistanceSq (mkVec px py) (mkVec (_x (m_obj ma)) (_y (m_obj ma))) <?
                         DistanceSq (mkVec px py) (mkVec (_x (m_obj mb)) (_y (m_obj mb))))%F
  | _, _ => false
  end.

(** "Aura" and the default "AoE": the latter may take the nearest first, and does not
    count projectiles as targets. *)
Definition pulse_around (aura : bool) (p : Player) (b : Boosts) (e : DamageEmitter) (r : Room) : Room :=
  let lvl := level_data e in
  let px := _x (p_obj p) in
  let py := _y (p_obj p) in
  let radius := (e_hitRadius e * b_area b)%F in
  let victims := Room_GetMonstersInRange px py radius r in
  let victims := if negb aura && bool_decide (e_targetRule e = "Nearest"%string) then std_sort (closer px py r) victims else victims in
  let limit := if aura then max_targets b e lvl
               else match lvl with Some l => if 0 <? wl_maxTargets l then wl_maxTargets l else e_maxTargetsPerTick e
                                 | None => e_maxTargetsPerTick e end in
  let '(crit, damage) := crit_roll p lvl fresh_float (final_damage b e) in
  let '(r, dl) := hit_while limit 0 (pulse_effect e) damage crit victims (r, no_damage) in
  let r := report (e_skillId e) dl r in
  cast_effect (plain_effect (_id (p_obj p)) (e_skillId e) px py radius (flit 2 10)) r.

Definition pulse (p : Player) (b : Boosts) (e : DamageEmitter) (s : Arsenal) : Arsenal :=
  let type_is t := bool_decide (e_emitterType e = t) in
  if type_is "Linear"%string then pulse_linear p b e s
  else if type_is "Orbit"%string then pulse_orbit p b e s
  else if type_is "Zone"%string then pulse_zone p b e s
  else if type_is "Directional"%string then on_room (pulse_directional p b e) s
  else if type_is "Arc"%string then pulse_arc p b e s
  else on_room (pulse_around (type_is "Aura"%string) p b e) s.

(** ** The update *)

Definition emitter_Update (dt : float) (p : Player) (e : DamageEmitter) (s : Arsenal) : DamageEmitter * Arsenal :=
  if IsDead (p_obj p) || negb (e_active e) then (e, s)
  else
    let e := set_life_time (e_elapsedTime e + dt)%F true e in
    if (f0 <? e_lifeTime e)%F && (e_lifeTime e <=? e_elapsedTime e)%F then (set_life_time (e_elapsedTime e) false e, s)
    else
      let b := boosts p e in
      if (f0 <? e_activeDuration e)%F then
        let '(e, r) := update_field dt p b e (ar_room s) in (e, on_room (fun _ => r) s)
      else
        let timer := (e_timer e + dt)%F in
        if (tick_interval b e <=? timer)%F then
          let e := set_timers (timer - tick_interval b e)%F (e_dotTimer e) (e_state e) e in (e, pulse p b e s)
        else (set_timers timer (e_dotTimer e) (e_state e) e, s).

Definition emitter_IsExpired (p : Player) (e : DamageEmitter) : bool := negb (e_active e) || IsDead (p_obj p).

Fixpoint update_emitters (dt : float) (p : Player) (l : list DamageEmitter) (s : Arsenal) : list DamageEmitter * Arsenal :=
  match l with
  | [] => ([], s)
  | e :: l =>
      let '(e, s) := emitter_Update dt p e s in
      let '(l, s) := update_emitters dt p l s in (e :: l, s)
  end.

Definition Player_Update (dt : float) (p : Player) (s : Arsenal) : Player * Arsenal :=
  let '(p, room) := update_levelup D p (Some (ar_room s)) in
  let s := on_room (fun r => default r room) s in
  if negb (_isReady p) then (p, s)
  else
    let '(l, s) := update_emitters dt p (_emitters p) s in
    (set_emitters (filter (fun e => emitter_IsExpired p e = false) l) p, s).

End Emitters.

(** ** What an update leaves alone *)

Lemma broadcast_part p r `{IterationOrder} : frame_part (Room_BroadcastPacket p 0 r) = frame_part r.
Proof. done. Qed.

Section Frame.
Context `{IterationOrder} (D : DataManager) (sin cos acos : float -> float) (atan2 : float -> float -> float).
Context (shuffle : nat -> list Z -> list Z).

Lemma wound_part eff d id r : frame_part (wound eff d id r) = frame_part r.
Proof. unfold wound. destruct (bool_decide _); [|rewrite update_monster_part]; apply hit_monster_part. Qed.

Lemma report_part k dl r : frame_part (report k dl r) = frame_part r.
Proof. unfold report. by destruct (dl_targets dl). Qed.

Lemma fold_part {A B} (f : Room * A -> B -> Room * A) l : forall s,
  (forall s b, frame_part (f s b).1 = frame_part s.1) -> frame_part (foldl f s l).1 = frame_part s.1.
Proof. induction l as [|b l IH]; intros s Hf; [done|]. cbn [foldl]. by rewrite IH, Hf. Qed.

Lemma field_damage_part p b e r : frame_part (field_damage D p b e r) = frame_part r.
Proof.
  unfold field_damage. match goal with |- context [foldl ?f ?s ?l] => pose proof (fold_part f l s) as E; destruct (foldl f s l) as [r' dl] end.
  rewrite report_part. apply E. intros s x. apply wound_part.
Qed.

Lemma hit_until_part inside limit eff d crit ids : forall count s, frame_part (hit_until inside limit count eff d crit ids s).1 = frame_part s.1.
Proof.
  induction ids as [|id ids IH]; intros count s; [done|]. cbn [hit_until]. destruct (room_monster id s.1); [|by apply IH].
  destruct (inside _); [|by apply IH]. destruct (_ <=? _); [apply wound_part|]. rewrite IH. apply wound_part.
Qed.

Lemma hit_while_part limit eff d crit ids : forall count s, frame_part (hit_while limit count eff d crit ids s).1 = frame_part s.1.
Proof.
  induction ids as [|id ids IH]; intros count s; [done|]. cbn [hit_while]. destruct (_ <=? _); [done|]. rewrite IH. apply wound_part.
Qed.

Lemma directional_part p b e dir w h r : frame_part (directional_attack D sin cos atan2 p b e dir w h r) = frame_part r.
Proof.
  unfold directional_attack. destruct (crit_roll _ _ _ _ _) as [crit d].
  match goal with |- context [hit_until ?i ?l ?c ?e ?d ?cr ?ids ?s] =>
    pose proof (hit_until_part i l e d cr ids c s) as E; destruct (hit_until i l c e d cr ids s) as [r' dl] end.
  cbn [fst] in E. rewrite <- E. exact (report_part (e_skillId e) dl r').
Qed.

Lemma launch_part o k t x y vx vy d life f s : frame_part (ar_room (launch o k t x y vx vy d life f s)) = frame_part (ar_room s).
Proof. unfold launch. by destruct (CreateProjectile _ _ _ _ _ _ _ _ _ _ _) as [[proj pool] w]. Qed.

Lemma fold_arsenal_part {B} (f : Arsenal -> B -> Arsenal) l : forall s,
  (forall s b, frame_part (ar_room (f s b)) = frame_part (ar_room s)) -> frame_part (ar_room (foldl f s l)) = frame_part (ar_room s).
Proof. induction l as [|b l IH]; intros s Hf; [done|]. cbn [foldl]. by rewrite IH, Hf. Qed.

Lemma pulse_part p b e s : frame_part (ar_room (pulse D sin cos acos atan2 shuffle p b e s)) = frame_part (ar_room s).
Proof.
  unfold pulse. cbv zeta. destruct (bool_decide _); [apply fold_arsenal_part; intros; apply launch_part|].
  destruct (bool_decide _); [apply fold_arsenal_part; intros; apply launch_part|].
  destruct (bool_decide _).
  { unfold pulse_zone. destruct (Room_GetMonstersInRange _ _ _ _) as [|m ms]; [done|].
    match goal with |- context [foldl ?f ?s ?l] => pose proof (fold_part f l s) as E; destruct (foldl f s l) as [r' dl] end.
    cbn [ar_room]. rewrite report_part. apply E. intros [r1 dl1] id. unfold zone_hit. cbn [fst].
    destruct (room_monster id _); apply hit_monster_part. }
  destruct (bool_decide _).
  { cbn [on_room ar_room]. unfold pulse_directional. cbv zeta. destruct (match level_data D e with Some _ => _ | None => _ end);
      by rewrite !directional_part. }
  destruct (bool_decide _).
  { unfold pulse_arc. destruct (NextFloat _) as [x rng]. destruct (crit_roll _ _ _ _ _) as [crit d].
    match goal with |- context [hit_until ?i ?l ?c ?e ?d ?cr ?ids ?s] =>
      pose proof (hit_until_part i l e d cr ids c s) as E; destruct (hit_until i l c e d cr ids s) as [r' dl] end.
    cbn [fst ar_room] in *. rewrite <- E. exact (report_part (e_skillId e) dl r'). }
  cbn [on_room ar_room]. unfold pulse_around. destruct (crit_roll _ _ _ _ _) as [crit d].
  match goal with |- context [hit_while ?l ?c ?e ?d ?cr ?ids ?s] =>
    pose proof (hit_while_part l e d cr ids c s) as E; destruct (hit_while l c e d cr ids s) as [r' dl] end.
  cbn [fst] in E. rewrite <- E. exact (report_part (e_skillId e) dl r').
Qed.

Lemma update_field_part dt p b e r : frame_part (update_field D dt p b e r).2 = frame_part r.
Proof.
  unfold update_field. destruct (e_state e); [by destruct (_ <=? _)%F|]. destruct (_ <=? _)%F.
  - destruct (_ <=? _)%F; apply field_damage_part.
  - by destruct (_ <=? _)%F.
Qed.

Lemma emitter_Update_part dt p e s :
  frame_part (ar_room (emitter_Update D sin cos acos atan2 shuffle dt p e s).2) = frame_part (ar_room s).
Proof.
  unfold emitter_Update. destruct (_ || _); [done|]. destruct (_ && _); [done|]. destruct (_ <? _)%F.
  - match goal with |- context [update_field ?D ?dt ?p ?b ?e ?r] => pose proof (update_field_part dt p b e r) as E; destruct (update_field D dt p b e r) end.
    exact E.
  - destruct (_ <=? _)%F; [apply pulse_part|done].
Qed.

Lemma update_emitters_part dt p l : forall s,
  frame_part (ar_room (update_emitters D sin cos acos atan2 shuffle dt p l s).2) = frame_part (ar_room s).
Proof.
  induction l as [|e l IH]; intros s; [done|]. cbn [update_emitters].
  pose proof (emitter_Update_part dt p e s) as E. destruct (emitter_Update _ _ _ _ _ _ dt p e s) as [e' s']. cbn [snd] in E.
  specialize (IH s'). destruct (update_emitters _ _ _ _ _ _ dt p l s') as [l' s'']. cbn [snd] in *. by rewrite IH, E.
Qed.

Lemma Player_Update_part dt p s :
  let res := Player_Update D sin cos acos atan2 shuffle dt p s in
  core (ar_room res.2) = core (ar_room s) /\ _sessionId res.1 = _sessionId p.
Proof.
  cbv zeta. unfold Player_Update.
  assert (stable (fun r => core r = core (ar_room s)) p (update_levelup D p (Some (ar_room s)))) as [Es Eo].
  { apply update_levelup_stable; [|done|done|done]. intros id f r <-. by apply (api_core id f (S_PlayerDead 0) 0). }
  destruct (update_levelup D p _) as [p1 room]. cbn [fst snd] in Es, Eo.
  assert (core (default (ar_room s) room) = core (ar_room s)) as Ec by (by destruct room).
  destruct (negb (_isReady p1)); [by split|].
  pose proof (update_emitters_part dt p1 (_emitters p1) (on_room (fun r => default r room) s)) as Eu.
  destruct (update_emitters _ _ _ _ _ _ dt p1 _ _) as [l s']. cbn [snd fst] in *. split; [|done].
  rewrite (frame_part_core _ _ Eu). exact Ec.
Qed.

End Frame.

(** ** Sorting *)

Section Sort.
Context {A : Type} (lt : A -> A -> bool).
Hypothesis lt_trans : forall x y z, lt x y = true -> lt y z = true -> lt x z = true.

(** No element is smaller than one before it. *)
Fixpoint ordered (l : list A) : Prop :=
  match l with [] => True | x :: l => Forall (fun y => lt y x = false) l /\ ordered l end.

Lemma insert_sorted_perm x l : insert_sorted lt x l ≡ₚ x :: l.
Proof.
  induction l as [|y l IH]; [done|]. cbn [insert_sorted]. destruct (lt x y); [done|]. rewrite IH. apply Permutation_swap.
Qed.

Lemma insert_sorted_ordered x l : (forall y, lt y y = false) -> ordered l -> ordered (insert_sorted lt x l).
Proof.
  intros Hirr. induction l as [|y l IH]; [done|]. intros [Hy Hl]. cbn [insert_sorted]. destruct (lt x y) eqn:E.
  - split; [|done]. apply Forall_cons. split.
    + destruct (lt y x) eqn:E2; [|done]. specialize (Hirr x). rewrite (lt_trans _ _ _ E E2) in Hirr. done.
    + eapply Forall_impl; [exact Hy|]. intros z Hz. cbv beta in *. destruct (lt z x) eqn:E2; [|done]. rewrite (lt_trans _ _ _ E2 E) in Hz. done.
  - split; [|by apply IH]. rewrite insert_sorted_perm. by apply Forall_cons.
Qed.

Lemma std_sort_spec l : (forall y, lt y y = false) -> ordered (std_sort lt l) /\ std_sort lt l ≡ₚ l.
Proof.
  intros Hirr. unfold std_sort. assert (forall acc, ordered acc -> ordered (foldl (fun acc x => insert_sorted lt x acc) acc l) /\
    foldl (fun acc x => insert_sorted lt x acc) acc l ≡ₚ acc ++ l) as Hl; [|by apply (Hl [])].
  induction l as [|x l IH]; intros acc Ho; [by rewrite app_nil_r|]. cbn [foldl].
  destruct (IH (insert_sorted lt x acc)) as [H1 H2]; [by apply insert_sorted_ordered|]. split; [done|].
  rewrite H2, insert_sorted_perm. cbn. by rewrite Permutation_middle.
Qed.

Lemma ordered_take n l x y : ordered l -> x ∈ take n l -> y ∈ drop n l -> lt y x = false.
Proof.
  clear lt_trans. revert n; induction l as [|z l IH]; intros [|n] Ho Hx Hy; cbn in *; try (by apply elem_of_nil in Hx).
  destruct Ho as [Hz Ho]. apply elem_of_cons in Hx as [->|Hx]; [|by eapply IH].
  rewrite Forall_forall in Hz. apply Hz. rewrite <- (take_drop n l). set_solver.
Qed.

End Sort.

(** ** The targets of a pulse *)

(** What a hit makes of a monster. *)
Definition wounded (eff : HitEffect) (d : Z) (now : float) (m : Monster) : Monster :=
  let m := (Monster_TakeDamage d m).1 in
  if bool_decide (he_type eff = EmptyString) then m else AddStatusEffect (he_type eff) (he_value eff) (he_duration eff) now m.

Section Pulse.
Context `{IterationOrder} (D : DataManager).

Lemma wound_ok eff d id m r :
  room_wf r -> ids_needed r < 2 ^ 31 - 1 -> room_monster id r = Some m ->
  room_wf (wound eff d id r) /\ ids_needed (wound eff d id r) = ids_needed r /\
  room_monster id (wound eff d id r) = Some (wounded eff d (_totalRunTime (rm_clock r)) m) /\
  (forall id' m', id' <> id -> room_monster id' r = Some m' -> room_monster id' (wound eff d id r) = Some m').
Proof.
  intros Hr Hn Hm. destruct (hit_monster_wf id d r Hr Hn) as [Hw Hi]. pose proof (hit_monster_self id d r m Hr Hn Hm) as Hs.
  assert (forall id' m', id' <> id -> room_monster id' r = Some m' -> room_monster id' (hit_monster id d r) = Some m') as Ho.
  { intros id' m' Hne Hm'. destruct (room_monster_inv _ _ _ Hm') as (dd & _ & Hg).
    destruct (hit_monster_other id id' d r _ Hr Hn Hne Hg) as [E1 E2]. rewrite <- Hm'. apply room_monster_same; [by rewrite E1|done]. }
  unfold wound, wounded. destruct (bool_decide _); [done|].
  assert (rm_clock (hit_monster id d r) = rm_clock r) as Ec.
  { pose proof (hit_monster_part id d r) as E. unfold frame_part in E. by injection E. }
  pose proof (update_monster_volley id (AddStatusEffect (he_type eff) (he_value eff) (he_duration eff) (_totalRunTime (rm_clock (hit_monster id d r))))
                _ Hw ltac:(intros; apply AddStatusEffect_obj)) as Hv.
  split; [apply Hv|]. split; [by rewrite (vo_ids _ _ Hv)|]. split.
  - rewrite (update_monster_self _ _ _ _ Hs). by rewrite Ec.
  - intros id' m' Hne Hm'. rewrite <- (Ho id' m' Hne Hm').
    destruct (update_monster_other id id' (AddStatusEffect (he_type eff) (he_value eff) (he_duration eff) (_totalRunTime (rm_clock (hit_monster id d r)))) (hit_monster id d r) Hne).
    by apply room_monster_same.
Qed.

Lemma wound_clock eff d id r : rm_clock (wound eff d id r) = rm_clock r.
Proof. pose proof (wound_part eff d id r) as E. unfold frame_part in E. by injection E. Qed.

Lemma hit_while_exact limit eff d crit ids : forall count s,
  room_wf s.1 -> ids_needed s.1 < 2 ^ 31 - 1 -> NoDup ids -> (forall id, id ∈ ids -> is_Some (room_monster id s.1)) ->
  let hits := take (Z.to_nat (limit - count)) ids in
  let s' := hit_while limit count eff d crit ids s in
  dl_targets s'.2 = dl_targets s.2 ++ hits /\ dl_values s'.2 = dl_values s.2 ++ map (fun _ => d) hits /\
  dl_crits s'.2 = dl_crits s.2 ++ map (fun _ => crit) hits /\ room_wf s'.1 /\
  forall id m, room_monster id s.1 = Some m ->
    room_monster id s'.1 = Some (if bool_decide (id ∈ hits) then wounded eff d (_totalRunTime (rm_clock s.1)) m else m).
Proof.
  induction ids as [|id ids IH]; intros count s Hr Hn Hnd Hm; cbv zeta.
  { rewrite take_nil, !app_nil_r. split_and!; done. }
  cbn [hit_while]. apply NoDup_cons in Hnd as [Hid Hnd]. destruct (limit <=? count) eqn:El; bool_to_prop.
  { replace (Z.to_nat (limit - count)) with O by lia. cbn. rewrite !app_nil_r. split_and!; done. }
  replace (Z.to_nat (limit - count)) with (S (Z.to_nat (limit - (count + 1)))) by lia. cbn [take].
  destruct (Hm id) as [m Em]; [apply list_elem_of_here|]. destruct (wound_ok eff d id m s.1 Hr Hn Em) as (Hw & Hi & Hs & Ho).
  destruct (IH (count + 1) (wound eff d id s.1, add_damage id d crit s.2)) as (E1 & E2 & E3 & E4 & E5).
  { done. } { cbn. by rewrite Hi. } { done. }
  { intros id' Hid'. destruct (Hm id') as [m' Em']; [by right|]. exists m'. apply Ho; [|done]. by intros ->. }
  cbn [fst snd add_damage dl_targets dl_values dl_crits] in *. rewrite E1, E2, E3, <- !app_assoc. cbn [app map]. split_and!; try done.
  intros id' m' Em'. destruct (decide (id' = id)) as [->|Hne].
  - assert (m' = m) as -> by congruence. rewrite (E5 _ _ Hs). rewrite bool_decide_false, bool_decide_true; [done|apply list_elem_of_here|].
    intros Hin. apply Hid. apply elem_of_take in Hin as (i & Hi' & _). by eapply list_elem_of_lookup_2.
  - rewrite (E5 _ _ (Ho _ _ Hne Em')), wound_clock. f_equal.
    rewrite (bool_decide_ext (id' ∈ id :: _) (id' ∈ take (Z.to_nat (limit - (count + 1))) ids)); [done|]. rewrite elem_of_cons. tauto.
Qed.

Lemma closer_trans px py r a b c : closer px py r a b = true -> closer px py r b c = true -> closer px py r a c = true.
Proof.
  unfold closer. destruct (room_monster a r), (room_monster b r), (room_monster c r); try done. apply SFltb_trans.
Qed.

Lemma closer_irrefl px py r a : closer px py r a a = false.
Proof. unfold closer. destruct (room_monster a r); [|done]. apply SFltb_irrefl. Qed.

(** The number of targets an area pulse may hit. *)
Definition aoe_limit (e : DamageEmitter) : Z :=
  match level_data D e with Some l => if 0 <? wl_maxTargets l then wl_maxTargets l else e_maxTargetsPerTick e | None => e_maxTargetsPerTick e end.

(** An area pulse with the rule "Nearest" hits the nearest monsters in its radius, as
    many as its limit allows: none that is left out is closer than one that is hit;
    each target takes the same damage once and the status effect of the weapon, no
    other monster changes, and the damage packet lists exactly the targets. *)
Theorem aoe_hits_nearest p b e r :
  room_wf r -> ids_needed r < 2 ^ 31 - 1 -> e_targetRule e = "Nearest"%string ->
  let px := _x (p_obj p) in
  let py := _y (p_obj p) in
  let radius := (e_hitRadius e * b_area b)%F in
  let victims := Room_GetMonstersInRange px py radius r in
  NoDup victims ->
  let '(crit, damage) := crit_roll D p (level_data D e) fresh_float (final_damage b e) in
  exists hits rest r1,
    hits ++ rest ≡ₚ victims /\ length hits = Nat.min (Z.to_nat (aoe_limit e)) (length victims) /\
    (forall x y, x ∈ hits -> y ∈ rest -> closer px py r y x = false) /\
    pulse_around D false p b e r =
      cast_effect (plain_effect (_id (p_obj p)) (e_skillId e) px py radius (flit 2 10))
        (report (e_skillId e) (mkDamages hits (map (fun _ => damage) hits) (map (fun _ => crit) hits)) r1) /\
    room_wf r1 /\
    forall id m, room_monster id r = Some m ->
      room_monster id r1 = Some (if bool_decide (id ∈ hits) then wounded (pulse_effect D e) damage (_totalRunTime (rm_clock r)) m else m).
Proof.
  intros Hr Hn Hrule. cbv zeta. intros Hnd. set (victims := Room_GetMonstersInRange _ _ _ r) in *.
  unfold pulse_around. cbv zeta. fold victims. rewrite Hrule, bool_decide_true by done. cbn [negb andb].
  destruct (crit_roll _ _ _ _ _) as [crit damage].
  destruct (std_sort_spec (closer (_x (p_obj p)) (_y (p_obj p)) r) (closer_trans _ _ r) victims (closer_irrefl _ _ r)) as [Ho Hp].
  set (sorted := std_sort _ victims) in *.
  assert (NoDup sorted) as Hnds by (by rewrite Hp).
  assert (forall id, id ∈ sorted -> is_Some (room_monster id r)) as Hmon.
  { intros id Hid. rewrite Hp in Hid. exact (in_range_exist (R := Room) _ _ _ _ _ Hid). }
  fold (aoe_limit e).
  destruct (hit_while_exact (aoe_limit e) (pulse_effect D e) damage crit sorted 0 (r, no_damage) Hr Hn Hnds Hmon) as (E1 & E2 & E3 & E4 & E5).
  destruct (hit_while _ _ _ _ _ _ _) as [r1 dl]. cbn [fst snd no_damage dl_targets dl_values dl_crits app] in *. rewrite Z.sub_0_r in *.
  exists (take (Z.to_nat (aoe_limit e)) sorted), (drop (Z.to_nat (aoe_limit e)) sorted), r1. split_and!.
  - by rewrite take_drop.
  - rewrite length_take. by rewrite (Permutation_length Hp).
  - intros x y Hx Hy. exact (ordered_take _ _ _ x y Ho Hx Hy).
  - destruct dl as [ts vs cs]. cbn in E1, E2, E3. by subst.
  - done.
  - exact E5.
Qed.

(** ** Critical hits of area and box attacks *)

(** Area, aura and box attacks never roll a critical hit at random: their generator is
    made anew for every draw, so with a chance of up to 36 percent no attack is ever
    critical, and with more than 37 percent every attack is. *)
Theorem area_crit_is_all_or_nothing p lvl damage :
  ((crit_chance D p lvl <=? flit 36 100)%F = true -> (crit_roll D p lvl fresh_float damage).1 = false) /\
  ((flit 37 100 <? crit_chance D p lvl)%F = true -> (crit_roll D p lvl fresh_float damage).1 = true).
Proof.
  assert ((flit 36 100 <? fresh_float)%F = true) as E1 by (vm_compute; reflexivity).
  assert ((fresh_float <? flit 37 100)%F = true) as E2 by (vm_compute; reflexivity).
  revert E1 E2. generalize fresh_float. intros x E1 E2. unfold crit_roll. split; intros Hc.
  - apply SFleb_ltb in Hc. destruct (x <? crit_chance D p lvl)%F eqn:E; [|done]. by rewrite (SFltb_trans _ _ _ E1 E) in Hc.
  - by rewrite (SFltb_trans _ _ _ E2 Hc).
Qed.

(** Of the status effects only "SLOW" reaches a monster through an emitter: a weapon
    with POISON or BURN does its direct damage and nothing else. *)
Lemma emitter_dots_are_ignored eff d now m :
  he_type eff <> "SLOW"%string -> wounded eff d now m = (Monster_TakeDamage d m).1.
Proof. intros Ht. unfold wounded. destruct (bool_decide _); [done|]. unfold AddStatusEffect. by rewrite bool_decide_false. Qed.

End Pulse.

(** ** A pulse in the arena *)

Definition demo_emitter : DamageEmitter :=
  mkEmitter 1 0 1 10 5 0 f1 f1 f1 f0 f0 f0 COOLING "AoE" 1 1 "Nearest" f0 f0 f0 f1 f1 true.

#[local] Existing Instance any_order.

Lemma aoe_hits_nearest_witness : exists hits rest r1,
  hits ++ rest ≡ₚ [1001; 1002] /\ length hits = 1%nat /\
  pulse_around DataManager_new false (Player_new 5 5) (mkBoosts f1 f1 (f_of_Z 4) f1 0 0) demo_emitter arena =
    cast_effect (plain_effect 5 1 f0 f0 (f_of_Z 4) (flit 2 10)) (report 1 (mkDamages hits (map (fun _ => 5) hits) (map (fun _ => false) hits)) r1).
Proof.
  pose (b := mkBoosts f1 f1 (f_of_Z 4) f1 0 0).
  assert (Room_GetMonstersInRange f0 f0 (f_of_Z 4) arena = [1001; 1002]) as Hv by (vm_compute; reflexivity).
  assert (crit_roll DataManager_new (Player_new 5 5) (level_data DataManager_new demo_emitter) fresh_float (final_damage b demo_emitter) = (false, 5)) as Hc
    by (vm_compute; reflexivity).
  assert ((e_hitRadius demo_emitter * b_area b)%F = f_of_Z 4) as Hrad by (vm_compute; reflexivity).
  pose proof (aoe_hits_nearest DataManager_new (Player_new 5 5) b demo_emitter arena arena_wf
                ltac:(apply (bool_decide_unpack _); vm_compute; exact I) eq_refl) as W.
  cbv zeta in W. rewrite Hrad, Hc in W. change (_x (p_obj (Player_new 5 5))) with f0 in W. change (_y (p_obj (Player_new 5 5))) with f0 in W.
  rewrite Hv in W. destruct W as (hits & rest & r1 & W1 & W2 & _ & W4 & _); [apply (bool_decide_unpack _); vm_compute; exact I|].
  exists hits, rest, r1. split; [exact W1|]. split; [exact W2|exact W4].
Defined.
