(* ===== verification/Movement.v ===== *)
(** * Movement: how a monster chooses its velocity

    Models the classes of src/Examples/VampireSurvivor/Server/Entity/AI/Movement and the
    occupied cells of Game/Room.h.  A strategy reads the monster, its neighbours in the
    room and its target; it may change the monster (the cached speed, the stuck timer),
    reserve a cell and draw random numbers.  The cells are cleared at the start of each
    frame and used only in it, so they are part of what a frame threads through, with
    the generators, and not of the room. *)

From Stdlib Require Import SpecFloat.
From stdpp Require Import base strings gmap option list.
From S2P Require Import Prelude Float32 Random GameData Modifiers Entity Player World Room.

(** ** Occupied cells *)

Definition cell_key (x y : Z) : Z := Z.lor (Z.shiftl (u32 x) 32) (u32 y).

Definition IsCellOccupied (x y : Z) (cells : gset Z) : bool := bool_decide (cell_key x y ∈ cells).
Definition OccupyCell (x y : Z) (cells : gset Z) : gset Z := {[cell_key x y]} ∪ cells.

(** What the monsters of a frame share: the cells, and the generators of
    [SmartFlockingStrategy], [StrictSeparationStrategy] and [WanderAI]. *)
Record Steering := mkSteering { _occupiedCells : gset Z; st_smart : FastRandom; st_strict : FastRandom; st_wander : FastRandom }.

Definition set_cells (c : gset Z) (s : Steering) : Steering := mkSteering c (st_smart s) (st_strict s) (st_wander s).
Definition set_smart (g : FastRandom) (s : Steering) : Steering := mkSteering (_occupiedCells s) g (st_strict s) (st_wander s).
Definition set_strict (g : FastRandom) (s : Steering) : Steering := mkSteering (_occupiedCells s) (st_smart s) g (st_wander s).
Definition set_wander (g : FastRandom) (s : Steering) : Steering := mkSteering (_occupiedCells s) (st_smart s) (st_strict s) g.

(** The chosen velocity, the monster and the shared state. *)
Definition Steered := (float * float * Monster * Steering)%type.

(** [static_cast<int>(std::floor(v))]; out of range, the result of the x86 conversion. *)
Definition cell_of (v : float) : Z := default (- 2 ^ 31) (floor_int v).

(** A vector scaled to length 1, unless it is tiny. *)
Definition unit_unless_tiny (x y : float) : float * float :=
  let len := fsqrt (x * x + y * y)%F in
  if (flit 1 1000 <? len)%F then ((x / len)%F, (y / len)%F) else (x, y).

Section Strategies.
Context `{IterationOrder}.

(** The other monsters in range. *)
Definition neighbors_of (m : Monster) (radius : float) (r : Room) : list Monster :=
  let id := _id (m_obj m) in
  omap (fun n => if n =? id then None else room_monster n r) (Room_GetMonstersInRange (_x (m_obj m)) (_y (m_obj m)) radius r).

(** ** CellBasedMovementStrategy *)

Definition candidates (x y : Z) : list (Z * Z) :=
  [(x, y); (i32 (x + 1), y); (i32 (x - 1), y); (x, i32 (y + 1)); (x, i32 (y - 1));
   (i32 (x + 1), i32 (y + 1)); (i32 (x - 1), i32 (y + 1)); (i32 (x + 1), i32 (y - 1)); (i32 (x - 1), i32 (y - 1))].

(** The squared distance from the centre of a cell to the target. *)
Definition cell_dist (targetX targetY : float) (c : Z * Z) : float :=
  let tx := (targetX - (f_of_Z c.1 + flit 1 2))%F in
  let ty := (targetY - (f_of_Z c.2 + flit 1 2))%F in (tx * tx + ty * ty)%F.

Definition cell_step (targetX targetY : float) (cells : gset Z) (s : option (Z * Z) * float) (c : Z * Z) : option (Z * Z) * float :=
  if IsCellOccupied c.1 c.2 cells then s
  else
    let tdSq := cell_dist targetX targetY c in
    if (tdSq <? s.2)%F then (Some c, tdSq) else s.

(** The cell taken: the free candidate nearest to the target, else the monster's own. *)
Definition choose_cell (targetX targetY : float) (ahead own : Z * Z) (cells : gset Z) : Z * Z :=
  default own (foldl (cell_step targetX targetY cells) (None, f_of_Z 999999) (candidates ahead.1 ahead.2)).1.

(** The velocity towards the centre of the reserved cell. *)
Definition arrive (best : Z * Z) (speed : float) (o : GameObject) : float * float :=
  let vdx := (f_of_Z best.1 + flit 1 2 - _x o)%F in
  let vdy := (f_of_Z best.2 + flit 1 2 - _y o)%F in
  let vDist := fsqrt (vdx * vdx + vdy * vdy)%F in
  if (flit 5 100 <? vDist)%F then
    let currentSpeed := if (vDist <? flit 1 2)%F then (speed * (vDist / flit 1 2))%F else speed in
    let targetVx := (vdx / vDist * currentSpeed)%F in
    let targetVy := (vdy / vDist * currentSpeed)%F in
    ((_vx o * flit 8 10 + targetVx * flit 2 10)%F, (_vy o * flit 8 10 + targetVy * flit 2 10)%F)
  else (f0, f0).

Definition at_target (o : GameObject) (targetX targetY : float) : bool :=
  let dx := (targetX - _x o)%F in let dy := (targetY - _y o)%F in (dx * dx + dy * dy <? flit 25 100)%F.

(** The cell one step towards the target. *)
Definition ahead_cell (o : GameObject) (targetX targetY : float) : Z * Z :=
  let dx := (targetX - _x o)%F in
  let dy := (targetY - _y o)%F in
  let dist := fsqrt (dx * dx + dy * dy)%F in
  (cell_of (_x o + dx / dist * f1)%F, cell_of (_y o + dy / dist * f1)%F).

Definition CellBased (m : Monster) (targetX targetY : float) (s : Steering) : Steered :=
  let o := m_obj m in
  if at_target o targetX targetY then (f0, f0, m, s)
  else
    let '(speed, m) := GetSpeed m in
    let best := choose_cell targetX targetY (ahead_cell o targetX targetY) (cell_of (_x o), cell_of (_y o)) (_occupiedCells s) in
    (arrive best speed o, m, set_cells (OccupyCell best.1 best.2 (_occupiedCells s)) s).

(** ** The flocking strategies *)

(** What the loop over the neighbours gathers: the push away from them, how many push,
    the largest overlap, whether the way ahead is blocked, and the generator. *)
Record Push := mkPush { ps_x : float; ps_y : float; ps_count : Z; ps_overlap : float; ps_blocked : bool; ps_rng : FastRandom }.

Definition no_push (g : FastRandom) : Push := mkPush f0 f0 0 f0 false g.

(** The turn of a neighbour that overlaps in "Fluid" and "Surrounding": [reach] is the
    distance the push is measured from, [ahead] the cosine of the blocked sector. *)
Definition push_away (nx ny ox oy d reach ahead : float) (s : Push) : Push :=
  let dot := (ox / d * nx + oy / d * ny)%F in
  mkPush (ps_x s - ox / d * (reach - d))%F (ps_y s - oy / d * (reach - d))%F (ps_count s + 1) (ps_overlap s)
    (ps_blocked s || (ahead <? dot)%F) (ps_rng s).

Definition fluid_step (m : Monster) (nx ny : float) (s : Push) (n : Monster) : Push :=
  let ox := (_x (m_obj n) - _x (m_obj m))%F in
  let oy := (_y (m_obj n) - _y (m_obj m))%F in
  let d2 := (ox * ox + oy * oy)%F in
  let rSum := (_radius (m_obj m) + _radius (m_obj n))%F in
  if (d2 <? rSum * rSum * flit 121 100)%F && (flit 1 1000 <? d2)%F
  then push_away nx ny ox oy (fsqrt d2) rSum (flit 866 1000) s else s.

(** The side of the way that the neighbours push towards. *)
Definition flow_side (nx ny : float) (s : Push) : float * float :=
  let leftForce := (ps_x s * (- ny) + ps_y s * nx)%F in
  let rightForce := (ps_x s * ny + ps_y s * (- nx))%F in
  if (rightForce <? leftForce)%F then ((- ny)%F, nx) else (ny, (- nx)%F).

(** The share of the neighbours' mean push in the direction. *)
Definition blend (nx ny own push : float) (s : Push) : float * float :=
  let n := f_of_Z (ps_count s) in
  ((nx * own + ps_x s / n * push)%F, (ny * own + ps_y s / n * push)%F).

Definition FluidStacking (m : Monster) (r : Room) (targetX targetY : float) (st : Steering) : Steered :=
  let dx := (targetX - _x (m_obj m))%F in
  let dy := (targetY - _y (m_obj m))%F in
  let distSq := (dx * dx + dy * dy)%F in
  if (distSq <? flit 1 10)%F then (f0, f0, m, st)
  else
    let dist := fsqrt distSq in
    let nx := (dx / dist)%F in
    let ny := (dy / dist)%F in
    let s := foldl (fluid_step m nx ny) (no_push (st_smart st)) (neighbors_of m (_radius (m_obj m) * flit 5 2)%F r) in
    let '(speed, m) := GetSpeed m in
    let '(nx, ny, speed) :=
      if ps_blocked s then
        let '(flowX, flowY) := flow_side nx ny s in
        ((nx * flit 2 10 + flowX * flit 8 10)%F, (ny * flit 2 10 + flowY * flit 8 10)%F, (speed * flit 9 10)%F)
      else if 0 <? ps_count s then (blend nx ny (flit 6 10) (flit 4 10) s, speed)
      else (nx, ny, speed) in
    let '(nx, ny) := unit_unless_tiny nx ny in
    ((_vx (m_obj m) * flit 9 10 + nx * speed * flit 1 10)%F, (_vy (m_obj m) * flit 9 10 + ny * speed * flit 1 10)%F, m, st).

Definition surround_step (m : Monster) (nx ny : float) (s : Push) (n : Monster) : Push :=
  let ox := (_x (m_obj n) - _x (m_obj m))%F in
  let oy := (_y (m_obj n) - _y (m_obj m))%F in
  let d2 := (ox * ox + oy * oy)%F in
  let minSep := ((_radius (m_obj m) + _radius (m_obj n)) * flit 11 10)%F in
  if (d2 <? minSep * minSep)%F && (flit 1 10000 <? d2)%F
  then push_away nx ny ox oy (fsqrt d2) minSep (flit 707 1000) s else s.

Definition SurroundingFlocking (m : Monster) (r : Room) (targetX targetY : float) (st : Steering) : Steered :=
  let dx := (targetX - _x (m_obj m))%F in
  let dy := (targetY - _y (m_obj m))%F in
  let distSq := (dx * dx + dy * dy)%F in
  if (distSq <? flit 25 100)%F then (f0, f0, m, st)
  else
    let dist := fsqrt distSq in
    let nx := (dx / dist)%F in
    let ny := (dy / dist)%F in
    let s := foldl (surround_step m nx ny) (no_push (st_smart st)) (neighbors_of m (_radius (m_obj m) * flit 22 10)%F r) in
    let preferCCW := Z.rem (_id (m_obj m)) 2 =? 0 in
    let '(speed, m) := GetSpeed m in
    let '(nx, ny, speed) :=
      if ps_blocked s then
        let '(tx, ty) := if preferCCW : bool then ((- ny)%F, nx) else (ny, (- nx)%F) in
        ((nx * flit 4 10 + tx * flit 8 10)%F, (ny * flit 4 10 + ty * flit 8 10)%F, (speed * flit 95 100)%F)
      else if 0 <? ps_count s then (blend nx ny (flit 7 10) (flit 3 10) s, speed)
      else (nx, ny, speed) in
    let '(nx, ny) := unit_unless_tiny nx ny in
    ((_vx (m_obj m) * flit 85 100 + nx * speed * flit 15 100)%F,
     (_vy (m_obj m) * flit 85 100 + ny * speed * flit 15 100)%F, m, st).

(** *** Strict and smart *)

Definition MIN_SEP : float := flit 12 10.

(** The turn of a neighbour nearer than [MIN_SEP]; on the same spot the push is random. *)
Definition separate (weightFactor : float) (m n : Monster) (s : Push) : Push :=
  let ddx := (_x (m_obj m) - _x (m_obj n))%F in
  let ddy := (_y (m_obj m) - _y (m_obj n))%F in
  let lSq := (ddx * ddx + ddy * ddy)%F in
  if (lSq <? MIN_SEP * MIN_SEP)%F then
    let l := fsqrt lSq in
    let overlap := (MIN_SEP - l)%F in
    let maxOverlap := if (ps_overlap s <? overlap)%F then overlap else ps_overlap s in
    if (l <? flit 1 1000)%F then
      let '(a, g) := NextFloat_range (- f1)%F f1 (ps_rng s) in
      let '(b, g) := NextFloat_range (- f1)%F f1 g in
      mkPush (ps_x s + a)%F (ps_y s + b)%F (ps_count s + 1) maxOverlap (ps_blocked s) g
    else
      let weight := (overlap / MIN_SEP)%F in
      mkPush (ps_x s + ddx / l * weight * weightFactor)%F (ps_y s + ddy / l * weight * weightFactor)%F (ps_count s + 1)
        maxOverlap (ps_blocked s) (ps_rng s)
  else s.

(** Flight from a deep overlap: the push alone, faster when very deep. *)
Definition escape (speed : float) (s : Push) : float * float * float :=
  (unit_unless_tiny (ps_x s) (ps_y s), if (flit 3 10 <? ps_overlap s)%F then (speed * flit 3 2)%F else speed).

Definition StrictSeparation (m : Monster) (r : Room) (targetX targetY : float) (st : Steering) : Steered :=
  let dx := (targetX - _x (m_obj m))%F in
  let dy := (targetY - _y (m_obj m))%F in
  let dist := fsqrt (dx * dx + dy * dy)%F in
  if (dist <=? flit 11 10)%F then (f0, f0, m, st)
  else
    let nx := (dx / dist)%F in
    let ny := (dy / dist)%F in
    let s := foldl (fun s n => separate (f_of_Z 2) m n s) (no_push (st_strict st)) (neighbors_of m MIN_SEP r) in
    let '(speed, m) := GetSpeed m in
    let '(nx, ny, speed) :=
      if (0 <? ps_count s) && (flit 1 10 <? ps_overlap s)%F then escape speed s
      else if 0 <? ps_count s then
        let '(nx, ny) := blend nx ny (flit 6 10) (flit 4 10) s in (unit_unless_tiny nx ny, speed)
      else (nx, ny, speed) in
    ((nx * speed)%F, (ny * speed)%F, m, set_strict (ps_rng s) st).

(** A neighbour blocks the way if the next step would run into it; tested only while
    no deep overlap was seen. *)
Definition smart_step (m : Monster) (lookAheadX lookAheadY : float) (s : Push) (n : Monster) : Push :=
  let s := separate (flit 5 2) m n s in
  if (ps_overlap s <? flit 1 10)%F then
    let fdx := (lookAheadX - _x (m_obj n))%F in
    let fdy := (lookAheadY - _y (m_obj n))%F in
    if (fdx * fdx + fdy * fdy <? f1)%F
    then mkPush (ps_x s) (ps_y s) (ps_count s) (ps_overlap s) true (ps_rng s) else s
  else s.

(** Blocked: the monster waits for half a second, then goes around. *)
Definition wait_or_avoid (nx ny speed : float) (s : Push) (m : Monster) : float * float * float * Monster :=
  let m := if (_stuckTimer m <=? f0)%F then SetStuckTimer (flit 8 10) m else m in
  if (flit 3 10 <? _stuckTimer m)%F then (f0, f0, f0, m)
  else
    let '(sideX, sideY) := flow_side nx ny s in
    (unit_unless_tiny (nx * flit 3 10 + sideX * flit 7 10)%F (ny * flit 3 10 + sideY * flit 7 10)%F, (speed * flit 8 10)%F, m).

Definition SmartFlocking (m : Monster) (r : Room) (targetX targetY : float) (st : Steering) : Steered :=
  let dx := (targetX - _x (m_obj m))%F in
  let dy := (targetY - _y (m_obj m))%F in
  let dist := fsqrt (dx * dx + dy * dy)%F in
  if (dist <=? flit 11 10)%F then (f0, f0, m, st)
  else
    let nx := (dx / dist)%F in
    let ny := (dy / dist)%F in
    let '(speed, m) := GetSpeed m in
    let s := foldl (smart_step m (_x (m_obj m) + nx * flit 1 2)%F (_y (m_obj m) + ny * flit 1 2)%F)
               (no_push (st_smart st)) (neighbors_of m (flit 3 2) r) in
    let '(nx, ny, speed, m) :=
      if (0 <? ps_count s) && (flit 1 10 <? ps_overlap s)%F then (escape speed s, m)
      else if ps_blocked s then wait_or_avoid nx ny speed s m
      else
        let m := SetStuckTimer f0 m in
        if 0 <? ps_count s then
          let '(nx, ny) := blend nx ny (flit 1 2) (flit 1 2) s in (unit_unless_tiny nx ny, speed, m)
        else (nx, ny, speed, m) in
    ((nx * speed)%F, (ny * speed)%F, m, set_smart (ps_rng s) st).

(** ** VampireSurvivorMovementStrategy *)

Definition soft_push (m : Monster) (separationRadius speed : float) (s : float * float) (n : Monster) : float * float :=
  if IsDead (m_obj n) then s
  else
    let nDx := (_x (m_obj m) - _x (m_obj n))%F in
    let nDy := (_y (m_obj m) - _y (m_obj n))%F in
    let nDistSq := (nDx * nDx + nDy * nDy)%F in
    let minDistance := (separationRadius + _radius (m_obj n) * f_of_Z 3)%F in
    if (flit 1 10000 <? nDistSq)%F && (nDistSq <? minDistance * minDistance)%F then
      let nDist := fsqrt nDistSq in
      let pushStrength := ((minDistance - nDist) / minDistance)%F in
      let pushFactor := (speed * f_of_Z 2)%F in
      ((s.1 + nDx / nDist * pushStrength * pushFactor)%F, (s.2 + nDy / nDist * pushStrength * pushFactor)%F)
    else s.

Definition limit_speed (vx vy speed : float) : float * float :=
  let finalDistSq := (vx * vx + vy * vy)%F in
  if (speed * speed <? finalDistSq)%F then
    let finalDist := fsqrt finalDistSq in ((vx / finalDist * speed)%F, (vy / finalDist * speed)%F)
  else (vx, vy).

Definition VampireSurvivorMovement (m : Monster) (r : Room) (targetX targetY : float) (st : Steering) : Steered :=
  let dx := (targetX - _x (m_obj m))%F in
  let dy := (targetY - _y (m_obj m))%F in
  let distanceSq := (dx * dx + dy * dy)%F in
  if (distanceSq <? flit 1 1000)%F then (f0, f0, m, st)
  else
    let distance := fsqrt distanceSq in
    let '(speed, m) := GetSpeed m in
    let baseVx := (dx / distance * speed)%F in
    let baseVy := (dy / distance * speed)%F in
    let separationRadius := (_radius (m_obj m) * f_of_Z 3)%F in
    let '(pushVx, pushVy) := foldl (soft_push m separationRadius speed) (f0, f0)
                               (neighbors_of m (separationRadius * f_of_Z 2)%F r) in
    (limit_speed (baseVx + pushVx)%F (baseVy + pushVy)%F speed, m, st).

Definition CalculateMovement (s : MovementStrategy) (m : Monster) (r : Room) (targetX targetY : float) (st : Steering) : Steered :=
  match s with
  | CellBasedMovementStrategy => CellBased m targetX targetY st
  | FluidStackingStrategy => FluidStacking m r targetX targetY st
  | SmartFlockingStrategy => SmartFlocking m r targetX targetY st
  | StrictSeparationStrategy => StrictSeparation m r targetX targetY st
  | SurroundingFlockingStrategy => SurroundingFlocking m r targetX targetY st
  | VampireSurvivorMovementStrategy => VampireSurvivorMovement m r targetX targetY st
  end.

End Strategies.

(** ** Reservations *)

Section Cells.

(** The cell a monster reserves, unless it is at its target. *)
Definition reservation (m : Monster) (x y : float) (cells : gset Z) : option (Z * Z) :=
  let o := m_obj m in
  if at_target o x y then None else Some (choose_cell x y (ahead_cell o x y) (cell_of (_x o), cell_of (_y o)) cells).

(** The nine cells a monster may choose from. *)
Definition around (m : Monster) (x y : float) : list (Z * Z) :=
  let c := ahead_cell (m_obj m) x y in candidates c.1 c.2.

(** The monsters of a frame, one after the other, each with its target. *)
Definition crowd (l : list (Monster * (float * float))) (s : Steering) : Steering :=
  foldl (fun s '(m, (x, y)) => (CellBased m x y s).2) s l.

Lemma CellBased_cells m x y s :
  _occupiedCells (CellBased m x y s).2 =
  match reservation m x y (_occupiedCells s) with Some c => OccupyCell c.1 c.2 (_occupiedCells s) | None => _occupiedCells s end.
Proof. unfold CellBased, reservation. destruct (at_target _ x y); [done|]. by destruct (GetSpeed m). Qed.

Lemma crowd_grows l s : _occupiedCells s ⊆ _occupiedCells (crowd l s).
Proof.
  revert s; induction l as [|[m [x y]] l IH]; intros s; [done|]. cbn [crowd foldl]. etrans; [|apply IH].
  rewrite CellBased_cells. destruct (reservation _ _ _ _); [|done]. unfold OccupyCell. set_solver.
Qed.

(** What the search has found among the cells [seen]. *)
Definition best_of (x y : float) (cells : gset Z) (seen : list (Z * Z)) (s : option (Z * Z) * float) : Prop :=
  match s.1 with
  | Some c => c ∈ seen /\ IsCellOccupied c.1 c.2 cells = false /\ s.2 = cell_dist x y c
  | None => s.2 = f_of_Z 999999
  end /\
  forall c, c ∈ seen -> IsCellOccupied c.1 c.2 cells = false -> (cell_dist x y c <? s.2)%F = false.

Lemma cell_step_best x y cells seen s c : best_of x y cells seen s -> best_of x y cells (seen ++ [c]) (cell_step x y cells s c).
Proof.
  intros [Hs Hb]. unfold cell_step.
  assert ((IsCellOccupied c.1 c.2 cells = false -> (cell_dist x y c <? s.2)%F = false) -> best_of x y cells (seen ++ [c]) s) as Hkeep.
  { intros Hc. split; [destruct s.1; [|done]; destruct Hs as (? & ? & ?); split_and!; [set_solver|done|done]|].
    intros c' [Hc'|Hc'%list_elem_of_singleton]%elem_of_app Hf; [by apply Hb|]. subst. by apply Hc. }
  destruct (IsCellOccupied c.1 c.2 cells) eqn:Eo; [by apply Hkeep|].
  destruct (cell_dist x y c <? s.2)%F eqn:El; [|by apply Hkeep]. split; cbn [fst snd]; [split_and!; [set_solver|done|done]|].
  intros c' [Hc'|Hc'%list_elem_of_singleton]%elem_of_app Hf; [|subst; apply SFltb_irrefl].
  specialize (Hb c' Hc' Hf). destruct (cell_dist x y c' <? cell_dist x y c)%F eqn:E; [|done].
  rewrite (SFltb_trans _ _ _ E El) in Hb. done.
Qed.

Lemma search_best x y cells l : forall seen s,
  best_of x y cells seen s -> best_of x y cells (seen ++ l) (foldl (cell_step x y cells) s l).
Proof.
  induction l as [|c l IH]; intros seen s Hs; [by rewrite app_nil_r|]. cbn [foldl].
  replace (seen ++ c :: l) with ((seen ++ [c]) ++ l) by (by rewrite <- app_assoc). by apply IH, cell_step_best.
Qed.

Lemma occupied_here c cells : IsCellOccupied c.1 c.2 (OccupyCell c.1 c.2 cells) = true.
Proof. unfold IsCellOccupied, OccupyCell. apply bool_decide_true. set_solver. Qed.

(** Within a frame a monster that finds a free cell (below the search bound) among
    the nine around the point ahead of it takes a free one, of those one that is nearest
    to its target, and no monster steered earlier in the frame, whichever they are, has
    taken that cell. *)
Theorem free_cell_is_nobody_elses l s m x y c c0 :
  let cells := _occupiedCells (crowd l s) in
  reservation m x y cells = Some c ->
  c0 ∈ around m x y -> IsCellOccupied c0.1 c0.2 cells = false -> (cell_dist x y c0 <? f_of_Z 999999)%F = true ->
  c ∈ around m x y /\ IsCellOccupied c.1 c.2 cells = false /\
  (forall c', c' ∈ around m x y -> IsCellOccupied c'.1 c'.2 cells = false -> (cell_dist x y c' <? cell_dist x y c)%F = false) /\
  (forall l1 m' x' y' l2, l = l1 ++ (m', (x', y')) :: l2 -> reservation m' x' y' (_occupiedCells (crowd l1 s)) <> Some c).
Proof.
  cbv zeta. set (cells := _occupiedCells (crowd l s)). intros Hc H0 Hf Hd. unfold reservation in Hc.
  destruct (at_target _ x y); [done|]. injection Hc as Hc. unfold choose_cell in Hc. fold (around m x y) in Hc.
  assert (best_of x y cells [] (None, f_of_Z 999999)) as Hi by (split; [done|]; intros ? []%elem_of_nil).
  pose proof (search_best x y cells (around m x y) [] _ Hi) as [Hb Ha]. cbn [app] in *.
  destruct (foldl (cell_step x y cells) (None, f_of_Z 999999) (around m x y)) as [[b|] d]; cbn [fst snd default from_option] in *.
  - unfold id in Hc. subst b. destruct Hb as (Hin & Hfree & ->). split_and!; [done|done|done|].
    intros l1 m' x' y' l2 -> E. assert (IsCellOccupied c.1 c.2 cells = true) as Ht; [|congruence].
    apply bool_decide_true. unfold cells, crowd. rewrite foldl_app. cbn [foldl].
    apply (crowd_grows l2). rewrite CellBased_cells. fold (crowd l1 s). rewrite E.
    pose proof (occupied_here c (_occupiedCells (crowd l1 s))) as Ho. by apply bool_decide_eq_true in Ho.
  - subst d. specialize (Ha c0 H0 Hf). congruence.
Qed.

End Cells.

(** Two monsters on the same spot choose different cells. *)
Definition no_steering : Steering := mkSteering ∅ FastRandom_new FastRandom_new FastRandom_new.

Lemma free_cell_is_nobody_elses_witness :
  let t := (f_of_Z 10, f_of_Z 10) in
  reservation Monster_new t.1 t.2 (_occupiedCells no_steering) = Some (1, 1) /\
  reservation Monster_new t.1 t.2 (_occupiedCells (crowd [(Monster_new, t)] no_steering)) = Some (1, 0) /\
  IsCellOccupied 1 0 (_occupiedCells (crowd [(Monster_new, t)] no_steering)) = false.
Proof.
  cbv zeta.
  assert (reservation Monster_new (f_of_Z 10) (f_of_Z 10) (_occupiedCells (crowd [(Monster_new, (f_of_Z 10, f_of_Z 10))] no_steering)) = Some (1, 0)) as Hc
    by (vm_compute; reflexivity).
  split; [vm_compute; reflexivity|]. split; [exact Hc|].
  destruct (free_cell_is_nobody_elses [(Monster_new, (f_of_Z 10, f_of_Z 10))] no_steering Monster_new (f_of_Z 10) (f_of_Z 10) (1, 0) (0, 0) Hc)
    as (_ & Hf & _).
  - apply (bool_decide_unpack _). vm_compute. exact I.
  - vm_compute. reflexivity.
  - vm_compute. reflexivity.
  - exact Hf.
Defined.
