(* ===== verification/MonsterAI.v ===== *)
(** * MonsterAI: the behaviours of monsters

    Models the classes of src/Examples/VampireSurvivor/Server/Entity/AI (chaser, swarm,
    wanderer, and the boss with its behaviour tree) and [Monster::Update] of
    Entity/Monster.cpp.  A behaviour is run in two phases: [Think] looks for a player,
    at most once per interval, [Execute] sets the monster's velocity. *)

From Stdlib Require Import SpecFloat.
From stdpp Require Import base strings gmap option list.
From S2P Require Import Prelude Float32 Random GameData Modifiers Entity Player World Room Movement.

(** ** Behaviour trees *)

Inductive NodeStatus := SUCCESS | FAILURE | RUNNING.

(** The nodes of BehaviorTree.h, and the leaf of BossAI.cpp. *)
Inductive BehaviorNode :=
| ChaseNode
| Selector (children : list BehaviorNode)
| Sequence (children : list BehaviorNode).

(** [BossAI::BuildTree] *)
Definition BuildTree : BehaviorNode := Selector [ChaseNode].

Section AI.
Context `{IterationOrder} (sin cos : float -> float) (h : gmap Z Player).

(** The position of the nearest living player. *)
Definition nearest_target (m : Monster) (r : Room) : option (float * float) :=
  a ← GetNearestPlayer h (_x (m_obj m)) (_y (m_obj m)) r; p ← h !! a; Some (_x (p_obj p), _y (p_obj p)).

Definition set_velocity (v : float * float) (m : Monster) : Monster := with_obj (SetVelocity v.1 v.2) m.

(** [ChaseNode::Tick]; the room is absent in the second phase. *)
Definition chase (room : option Room) (m : Monster) : NodeStatus * Monster :=
  match room with
  | None => (RUNNING, m)
  | Some r =>
      match nearest_target m r with
      | None => (FAILURE, m)
      | Some (x, y) =>
          let dx := (x - _x (m_obj m))%F in
          let dy := (y - _y (m_obj m))%F in
          let distSq := (dx * dx + dy * dy)%F in
          if (flit 1 10 <? distSq)%F then
            let dist := fsqrt distSq in
            let '(speed, m) := GetSpeed m in
            (RUNNING, set_velocity ((dx / dist * speed)%F, (dy / dist * speed)%F) m)
          else (SUCCESS, m)
      end
  end.

Fixpoint Tick (node : BehaviorNode) (room : option Room) (m : Monster) : NodeStatus * Monster :=
  match node with
  | ChaseNode => chase room m
  | Selector children =>
      (fix select (children : list BehaviorNode) (m : Monster) : NodeStatus * Monster :=
         match children with
         | [] => (FAILURE, m)
         | c :: children =>
             let '(status, m) := Tick c room m in
             match status with FAILURE => select children m | _ => (status, m) end
         end) children m
  | Sequence children =>
      (fix run (children : list BehaviorNode) (m : Monster) : NodeStatus * Monster :=
         match children with
         | [] => (SUCCESS, m)
         | c :: children =>
             let '(status, m) := Tick c room m in
             match status with SUCCESS => run children m | _ => (status, m) end
         end) children m
  end.

(** ** Think and Execute *)

(** Two pi: 2.0f * 3.14159265f. *)
Definition TWO_PI : float := (f_of_Z 2 * S754_finite false 13176795 (-22))%F.

Definition Chaser_Think (now : float) (r : Room) (m : Monster) (c : Chaser) : Chaser :=
  if (now <? ch_nextThinkTime c)%F then c
  else
    let found := match nearest_target m r with Some _ => true | None => false end in
    mkChaser (ch_speed c) (ch_thinkInterval c) (now + ch_thinkInterval c)%F found true.

Definition Swarm_Think (now : float) (r : Room) (m : Monster) (s : Swarm) : Swarm :=
  if (now <? sw_nextThinkTime s)%F then s
  else
    let next := (now + sw_thinkInterval s)%F in
    match nearest_target m r with
    | Some (x, y) => mkSwarm (sw_speed s) (sw_thinkInterval s) next true x y true
    | None => mkSwarm (sw_speed s) (sw_thinkInterval s) next false (sw_playerX s) (sw_playerY s) true
    end.

Definition Wander_Think (now : float) (w : Wander) (g : FastRandom) : Wander * FastRandom :=
  if (now <? wa_nextDirectionChangeTime w)%F then (w, g)
  else
    let '(angle, g) := NextFloat_range f0 TWO_PI g in
    (mkWander (wa_speed w) (wa_directionChangeInterval w) (now + wa_directionChangeInterval w)%F (cos angle) (sin angle), g).

Definition Boss_Think (r : Room) (m : Monster) : Monster := (Tick BuildTree (Some r) m).2.

Definition ai_Think (now : float) (r : Room) (ai : AIBehavior) (m : Monster) (st : Steering) : AIBehavior * Monster * Steering :=
  match ai with
  | ChaserAI c => (ChaserAI (Chaser_Think now r m c), m, st)
  | SwarmAI s => (SwarmAI (Swarm_Think now r m s), m, st)
  | WanderAI w => let '(w, g) := Wander_Think now w (st_wander st) in (WanderAI w, m, set_wander g st)
  | BossAI => (ai, Boss_Think r m, st)
  end.

(** The monster heads for a point by its movement strategy. *)
Definition steer (r : Room) (target : float * float) (m : Monster) (st : Steering) : Monster * Steering :=
  let '(vx, vy, m, st) := CalculateMovement (_movementStrategy m) m r target.1 target.2 st in (set_velocity (vx, vy) m, st).

Definition Chaser_Execute (r : Room) (c : Chaser) (m : Monster) (st : Steering) : Monster * Steering :=
  let stop := (set_velocity (f0, f0) m, st) in
  if negb (ch_hasTarget c) || negb (ch_hasRoom c) then stop
  else match nearest_target m r with Some t => steer r t m st | None => stop end.

Definition Swarm_Execute (r : Room) (s : Swarm) (m : Monster) (st : Steering) : Monster * Steering :=
  if negb (sw_hasPlayer s) || negb (sw_hasRoom s) then (set_velocity (f0, f0) m, st)
  else steer r (sw_playerX s, sw_playerY s) m st.

Definition Wander_Execute (w : Wander) (m : Monster) : Monster :=
  let '(speed, m) := GetSpeed m in set_velocity ((wa_dirX w * speed)%F, (wa_dirY w * speed)%F) m.

Definition Boss_Execute (m : Monster) : Monster := (Tick BuildTree None m).2.

Definition ai_Execute (r : Room) (ai : AIBehavior) (m : Monster) (st : Steering) : Monster * Steering :=
  match ai with
  | ChaserAI c => Chaser_Execute r c m st
  | SwarmAI s => Swarm_Execute r s m st
  | WanderAI w => (Wander_Execute w m, st)
  | BossAI => (Boss_Execute m, st)
  end.

(** ** Monster::Update *)

Definition Monster_Update (dt : float) (r : Room) (m : Monster) (st : Steering) : Monster * Steering :=
  let '(m, runs) := update_timers dt (_totalRunTime (rm_clock r)) m in
  match _ai m with
  | Some ai =>
      if runs : bool then
        let '(ai, m, st) := ai_Think (_aliveTime m) r ai m st in
        let '(m, st) := ai_Execute r ai m st in
        (SetAI (Some ai) m, st)
      else (m, st)
  | None => (m, st)
  end.

End AI.

(** ** What an update leaves alone *)

(** Two states of a monster that differ at most in velocity, facing, timers, behaviour
    and modifiers. *)
Definition same_place (m m' : Monster) : Prop :=
  _id (m_obj m') = _id (m_obj m) /\ _type (m_obj m') = _type (m_obj m) /\ _x (m_obj m') = _x (m_obj m) /\
  _y (m_obj m') = _y (m_obj m) /\ _hp (m_obj m') = _hp (m_obj m) /\ _maxHp (m_obj m') = _maxHp (m_obj m) /\
  _radius (m_obj m') = _radius (m_obj m).

Lemma same_place_trans m m' m'' : same_place m m' -> same_place m' m'' -> same_place m m''.
Proof. unfold same_place. intros (?&?&?&?&?&?&?) (?&?&?&?&?&?&?). split_and!; congruence. Qed.

Lemma GetSpeed_place m : same_place m (GetSpeed m).2.
Proof. unfold GetSpeed. by destruct (GetStat _ _). Qed.

Lemma set_velocity_place v m : same_place m (set_velocity v m).
Proof. done. Qed.

Lemma update_timers_place dt now m : same_place m (update_timers dt now m).1.
Proof. unfold update_timers, UpdateStateExpiry. cbn. by destruct (_ && _). Qed.

Section Place.
Context `{IterationOrder} (sin cos : float -> float) (h : gmap Z Player).

Lemma stuck_place t m : same_place m (SetStuckTimer t m).
Proof. done. Qed.

Lemma wait_place nx ny speed s m : same_place m (wait_or_avoid nx ny speed s m).2.
Proof.
  unfold wait_or_avoid. destruct (_stuckTimer m <=? f0)%F; (destruct (_ <? _)%F; [done|]); by destruct (flow_side _ _ _).
Qed.

Lemma CalculateMovement_place strategy m r x y st : same_place m (CalculateMovement strategy m r x y st).1.2.
Proof.
  pose proof (GetSpeed_place m) as Hs. destruct strategy; cbn [CalculateMovement].
  - unfold CellBased. destruct (at_target _ _ _); [done|]. by destruct (GetSpeed m).
  - unfold FluidStacking. destruct (_ <? _)%F; [done|]. destruct (GetSpeed m) as [speed m']. cbn [snd] in Hs.
    match goal with |- context [if ps_blocked ?a then ?b else ?c] => destruct (if ps_blocked a then b else c) as [[nx ny] sp] end. by destruct (unit_unless_tiny nx ny).
  - unfold SmartFlocking. destruct (_ <=? _)%F; [done|]. destruct (GetSpeed m) as [speed m']. cbn [snd] in Hs.
    destruct (_ && _); [by destruct (escape _ _) as [[? ?] ?]|]. destruct (ps_blocked _).
    + match goal with |- context [wait_or_avoid ?a ?b ?c ?d ?e] => pose proof (wait_place a b c d e) as Hw; destruct (wait_or_avoid a b c d e) as [[[? ?] ?] ?] end.
      cbn in *. by eapply same_place_trans.
    + destruct (0 <? _); [destruct (blend _ _ _ _ _) as [a b]; destruct (unit_unless_tiny a b)|]; exact Hs.
  - unfold StrictSeparation. destruct (_ <=? _)%F; [done|]. destruct (GetSpeed m) as [speed m']. cbn [snd] in Hs.
    match goal with |- context [if (0 <? ?k) && ?o then ?b else ?c] => by destruct (if (0 <? k) && o then b else c) as [[nx ny] sp] end.
  - unfold SurroundingFlocking. destruct (_ <? _)%F; [done|]. destruct (GetSpeed m) as [speed m']. cbn [snd] in Hs.
    match goal with |- context [if ps_blocked ?a then ?b else ?c] => destruct (if ps_blocked a then b else c) as [[nx ny] sp] end. by destruct (unit_unless_tiny nx ny).
  - unfold VampireSurvivorMovement. destruct (_ <? _)%F; [done|]. destruct (GetSpeed m) as [speed m']. cbn [snd] in Hs.
    by destruct (foldl _ _ _).
Qed.

Lemma steer_place r t m st : same_place m (steer r t m st).1.
Proof.
  unfold steer. pose proof (CalculateMovement_place (_movementStrategy m) m r t.1 t.2 st) as Hm.
  destruct (CalculateMovement _ _ _ _ _ _) as [[[vx vy] m'] st']. exact Hm.
Qed.

Lemma chase_place room m : same_place m (chase h room m).2.
Proof.
  unfold chase. destruct room as [r|]; [|done]. destruct (nearest_target h m r) as [[x y]|]; [|done]. destruct (_ <? _)%F; [|done].
  pose proof (GetSpeed_place m) as Hs. destruct (GetSpeed m) as [speed m']. exact Hs.
Qed.

Lemma boss_place room m : same_place m (Tick h BuildTree room m).2.
Proof. cbn. pose proof (chase_place room m) as Hc. destruct (chase h room m) as [status m']. by destruct status. Qed.

Lemma ai_Think_place now r ai m st : same_place m (ai_Think sin cos h now r ai m st).1.2.
Proof.
  destruct ai as [c|s|w|]; cbn [ai_Think]; [done|done| |apply boss_place]. by destruct (Wander_Think _ _ _ _ _).
Qed.

Lemma ai_Execute_place r ai m st : same_place m (ai_Execute h r ai m st).1.
Proof.
  destruct ai as [c|s|w|]; cbn [ai_Execute].
  - unfold Chaser_Execute. destruct (_ || _); [done|]. destruct (nearest_target h m r); [apply steer_place|done].
  - unfold Swarm_Execute. destruct (_ || _); [done|apply steer_place].
  - unfold Wander_Execute. pose proof (GetSpeed_place m) as Hs. destruct (GetSpeed m) as [speed m']. exact Hs.
  - apply boss_place.
Qed.

Lemma Monster_Update_place dt r m st : same_place m (Monster_Update sin cos h dt r m st).1.
Proof.
  unfold Monster_Update. pose proof (update_timers_place dt (_totalRunTime (rm_clock r)) m) as Ht.
  destruct (update_timers dt _ m) as [m1 runs]. cbn [fst] in Ht. destruct (_ai m1) as [ai|]; [|done]. destruct runs; [|done].
  pose proof (ai_Think_place (_aliveTime m1) r ai m1 st) as H1. destruct (ai_Think _ _ _ _ _ _ _ _) as [[ai' m2] st']. cbn [fst snd] in H1.
  pose proof (ai_Execute_place r ai' m2 st') as H2. destruct (ai_Execute _ _ _ _ _) as [m3 st'']. cbn [fst] in *.
  eapply same_place_trans; [exact Ht|]. by eapply same_place_trans.
Qed.

End Place.

(** ** Without a target *)

Section NoTarget.
Context `{IterationOrder} (sin cos : float -> float) (h : gmap Z Player).

Definition velocity (m : Monster) : float * float := (_vx (m_obj m), _vy (m_obj m)).

Lemma same_place_target m m' r : same_place m m' -> nearest_target h m' r = nearest_target h m r.
Proof. unfold nearest_target. by intros (_ & _ & -> & -> & _). Qed.

Lemma update_timers_kept dt now m :
  _ai (update_timers dt now m).1 = _ai m /\ velocity (update_timers dt now m).1 = velocity m.
Proof. unfold update_timers, UpdateStateExpiry, velocity. cbn. by destruct (_ && _). Qed.

(** When no living player is left, a chaser stops in the same update, whatever it
    was doing; a swarm monster stops at its next thought and until then runs on to the
    point where it last saw a player; a boss goes on with the velocity it has. *)
Theorem monsters_without_target dt r m st ai :
  let m1 := (update_timers dt (_totalRunTime (rm_clock r)) m).1 in
  let m' := (Monster_Update sin cos h dt r m st).1 in
  (update_timers dt (_totalRunTime (rm_clock r)) m).2 = true -> _ai m = Some ai -> nearest_target h m r = None ->
  match ai with
  | ChaserAI _ => velocity m' = (f0, f0)
  | SwarmAI s =>
      velocity m' =
        if (_aliveTime m1 <? sw_nextThinkTime s)%F && sw_hasPlayer s && sw_hasRoom s
        then (CalculateMovement (_movementStrategy m1) m1 r (sw_playerX s) (sw_playerY s) st).1.1 else (f0, f0)
  | WanderAI _ => True
  | BossAI => velocity m' = velocity m
  end.
Proof.
  cbv zeta. intros Hrun Hai Hnt. pose proof (update_timers_place dt (_totalRunTime (rm_clock r)) m) as Hpl.
  pose proof (update_timers_kept dt (_totalRunTime (rm_clock r)) m) as [Eai Ev].
  unfold Monster_Update. destruct (update_timers dt _ m) as [m1 runs]. cbn [fst snd] in *. subst runs. rewrite Eai, Hai.
  rewrite <- (same_place_target _ _ r Hpl) in Hnt. destruct ai as [c|s|w|]; cbn [ai_Think].
  - cbn [ai_Execute]. unfold Chaser_Execute, Chaser_Think. rewrite Hnt. destruct (_ <? _)%F; cbn [ch_hasTarget ch_hasRoom negb orb]; [|done].
    by destruct (negb (ch_hasTarget c) || _).
  - cbn [ai_Execute]. unfold Swarm_Execute, Swarm_Think. rewrite Hnt. destruct (_ <? _)%F; cbn [sw_hasPlayer sw_hasRoom negb orb andb]; [|done].
    destruct (sw_hasPlayer s), (sw_hasRoom s); cbn [negb orb andb]; try done. unfold steer. cbn [fst snd].
    destruct (CalculateMovement _ _ _ _ _ _) as [[[vx vy] m2] st2]. done.
  - done.
  - cbn [ai_Execute]. unfold Boss_Execute, Boss_Think, BuildTree. cbn. rewrite Hnt. cbn. by rewrite <- Ev.
Qed.

End NoTarget.

(** A chaser at full speed in a room without players. *)
Definition lone_chaser : Monster := set_velocity (f1, f1) (SetAI (Some (ChaserAI (mkChaser f1 f1 (f_of_Z 9) true true))) Monster_new).

#[local] Existing Instance any_order.

Lemma monsters_without_target_witness :
  velocity lone_chaser = (f1, f1) /\
  velocity (Monster_Update (fun x => x) (fun x => x) ∅ f1 (Room_new 0 1 1 EmptyString false) lone_chaser no_steering).1 = (f0, f0).
Proof.
  split; [reflexivity|].
  exact (monsters_without_target (fun x => x) (fun x => x) ∅ f1 (Room_new 0 1 1 EmptyString false) lone_chaser no_steering
           (ChaserAI (mkChaser f1 f1 (f_of_Z 9) true true)) ltac:(vm_compute; reflexivity) eq_refl ltac:(vm_compute; reflexivity)).
Defined.
