(* ===== verification/Frame.v ===== *)
(** * Frame: one step of a room's simulation

    Models the middle of [Room::ExecuteUpdate] (src/Examples/VampireSurvivor/Server/
    Game/Room_Update.cpp): waves, effects, the grid, the objects' own updates, physics
    and combat, in this order, on the players' heap and the room.  Room.v has the frame
    as an interface; the instance here is the program's, and the theorem
    [simulation_keeps_the_room] discharges what the room's life cycle asks of it.

    The generators belong to the thread, the pools to the process and the maps to the
    static data: what a frame finds in them is given by [inputs].

    A frame is [None] where the code does something undefined: it converts to an
    integer the coordinates of a cell that no integer has (rebuilding the grid, the
    query of a projectile, the sweep over the map), or an experience loop does not
    end. *)

From Stdlib Require Import SpecFloat.
From stdpp Require Import base strings gmap option list.
From S2P Require Import Prelude Float32 Random GameData Modifiers Inventory Entity Player World Projectile Waves Effects TileMap Room RoomObjects.
From S2P Require Import Combat CombatProps Emitters Movement MonsterAI.

(** What a frame takes from outside the room. *)
Record FrameInputs := mkInputs {
  fi_monsters : MonsterPool;
  fi_spawn : FastRandom;
  fi_arc : FastRandom;
  fi_projectiles : list Projectile;
  fi_smart : FastRandom;
  fi_strict : FastRandom;
  fi_wander : FastRandom;
  fi_critical : FastRandom;
  fi_debug : FastRandom;
  fi_shuffle : nat -> list Z -> list Z
}.

(** ** Damage over time *)

(** [GetObject(id)->TakeDamage(damage, room)]: projectiles and gems take none. *)
Definition damage_object `{IterationOrder} (id damage : Z) (s : gmap Z Player * Room) : gmap Z Player * Room :=
  let '(h, r) := s in
  match rm_derived r !! id with
  | Some (IsMonster _) => (h, hit_monster id damage r)
  | Some (IsPlayer a) =>
      match h !! a with
      | Some p => let '(p, r) := Player_TakeDamage damage p r in (<[a := p]> h, r)
      | None => s
      end
  | _ => s
  end.

#[global] Instance Heap_damage `{IterationOrder} : DamageRoom (gmap Z Player * Room) := {|
  room_has := fun id s => bool_decide (is_Some (GetObject id (_objMgr s.2)));
  room_damage := damage_object
|}.

Section Frame.
Context `{IterationOrder} (D : DataManager) (dis : nat -> Z -> Z) (pow : spec_float -> Z -> spec_float).
Context (sin cos acos : float -> float) (atan2 : float -> float -> float) (maps : gmap Z TileMap).

(** ** Waves *)

(** The objects with the players' as they are in the heap. *)
Definition published (h : gmap Z Player) (r : Room) : ObjectManager :=
  let w := _objMgr r in mkObjMgr (_nextId w) (current h r <$> _objects w) (_aliveMonsterCount w).

Definition wave_event (r : Room) (e : WaveEvent) : Room :=
  match e with
  | WaveNotify index duration => Room_BroadcastPacket (S_WaveNotify index duration) 0 r
  | SpawnObject id typeId x y hp maxHp =>
      Room_BroadcastPacket (S_SpawnObject (_serverTick (rm_clock r)) [mkInfo id MONSTER typeId x y hp maxHp IDLE f0 f0 false]) 0 r
  end.

(** What the wave manager works on, and its results put back into the room. *)
Definition spawn_env (fi : FrameInputs) (h : gmap Z Player) (r : Room) : SpawnEnv :=
  mkEnv (published h r) (fi_monsters fi) (fi_spawn fi) [] [].

Definition spawn_results (wm : WaveManager) (env : SpawnEnv) (r : Room) : Room :=
  let derived := foldl (fun dv m => <[_id (m_obj m) := IsMonster m]> dv) (rm_derived r) (env_spawned env) in
  foldl wave_event (set_managers (_grid r) wm (set_objects (env_objs env) derived r)) (env_events env).

Definition run_waves (dt : float) (fi : FrameInputs) (h : gmap Z Player) (r : Room) : Room :=
  let '(wm, env) := Wave_Update D atan2 cos sin dt (_waveMgr r) (spawn_env fi h r) in
  spawn_results wm env r.

(** The task of [DebugSpawnMonster]. *)
Definition debug_spawn_monster (typeId count : Z) (fi : FrameInputs) (h : gmap Z Player) (r : Room) : option Room :=
  env ← DebugSpawn D atan2 cos sin typeId count (fi_debug fi) (spawn_env fi h r);
  Some (spawn_results (_waveMgr r) env r).

(** ** Effects and the grid *)

Definition run_effects (s : gmap Z Player * Room) : option (gmap Z Player * Room) :=
  '(em, room) ← Effect_Update (_totalRunTime (rm_clock s.2)) (_effectMgr s.2) (Some s);
  '(h, r) ← room;
  Some (h, set_effectMgr em r).

(** [_grid.Rebuild(currentObjects)]. *)
Definition rebuild_grid (objects : list GameObject) (r : Room) : option Room :=
  grid ← Rebuild objects (_grid r); Some (set_managers grid (_waveMgr r) r).

(** ** The objects' own updates *)

Definition Stage := (gmap Z Player * Arsenal * Steering)%type.

(** An object of the room as it is now. *)
Definition object_now (h : gmap Z Player) (r : Room) (id : Z) : option GameObject :=
  o ← GetObject id (_objMgr r);
  Some match rm_derived r !! id with Some (IsPlayer a) => default o (p_obj <$> h !! a) | _ => o end.

(** [obj->Update(deltaTime, this)] for a living object of the snapshot. *)
Definition update_object (shuffle : nat -> list Z -> list Z) (dt : float) (s : Stage) (o : GameObject) : Stage :=
  let '(h, ar, st) := s in
  let r := ar_room ar in
  let id := _id o in
  match rm_derived r !! id, object_now h r id with
  | Some d, Some now =>
      if IsDead now then s
      else
        match d with
        | IsMonster _ =>
            match room_monster id r with
            | Some m =>
                let '(m, st) := Monster_Update sin cos h dt r m st in
                (h, on_room (fun r => room_update_monster id (fun _ => m) r) ar, st)
            | None => s
            end
        | IsPlayer a =>
            match h !! a with
            | Some p => let '(p, ar) := Player_Update D sin cos acos atan2 shuffle dt p ar in (<[a := p]> h, ar, st)
            | None => s
            end
        | IsProjectile _ =>
            match room_projectile id r with
            | Some p => (h, on_room (put_projectile id (Projectile_Update cos sin dt (object_now h r (_ownerId p)) p)) ar, st)
            | None => s
            end
        | IsGem _ => s
        end
  | _, _ => s
  end.

(** ** Physics *)

(** The turn of [UpdatePhysics] for an object of the snapshot. *)
Definition move_now (dt : float) (o : GameObject) (s : gmap Z Player * Room) : option (gmap Z Player * Room) :=
  let '(h, r) := s in
  let id := _id o in
  match rm_derived r !! id, GetObject id (_objMgr r) with
  | Some (IsPlayer a), Some _ =>
      match h !! a with
      | Some p => moved ← move_object (GetMap (_mapId r) maps) dt (p_obj p); Some (<[a := set_obj moved p]> h, r)
      | None => Some s
      end
  | Some _, Some o =>
      moved ← move_object (GetMap (_mapId r) maps) dt o;
      Some (h, set_objects (put_object id moved (_objMgr r)) (rm_derived r) r)
  | _, _ => Some s
  end.

(** ** The frame *)

Definition run_frame (dt : float) (fi : FrameInputs) (h : gmap Z Player) (r : Room) : option (gmap Z Player * Room) :=
  let r := run_waves dt fi h r in
  '(h, r) ← run_effects (h, r);
  let currentObjects := GetAllObjects (_objMgr r) in
  r ← rebuild_grid currentObjects r;
  let steering := mkSteering ∅ (fi_smart fi) (fi_strict fi) (fi_wander fi) in
  let '(h, ar, _) := foldl (update_object (fi_shuffle fi) dt) (h, mkArsenal r (fi_arc fi) (fi_projectiles fi) 0, steering) currentObjects in
  '(h, r) ← for_each (move_now dt) currentObjects (h, ar_room ar);
  '(h, r, _) ← Combat_Update D dis pow h r (fi_critical fi);
  Some (h, r).

End Frame.

(** ** What a frame leaves alone *)

(** The same players with the same sessions, and nobody comes back to life. *)
Definition same_dead (h h' : gmap Z Player) : Prop :=
  forall a, _sessionId <$> h' !! a = _sessionId <$> h !! a /\
    forall p p', h !! a = Some p -> h' !! a = Some p' -> IsDead (p_obj p) = true -> IsDead (p_obj p') = true.

(** A step that posts nothing and leaves the room's life cycle alone. *)
Record calm (h : gmap Z Player) (r : Room) (h' : gmap Z Player) (r' : Room) : Prop := mk_calm {
  cm_core : core r' = core r;
  cm_dead : same_dead h h'
}.

Lemma same_dead_refl h : same_dead h h.
Proof. intros a. split; [done|]. intros p p' Hp Hp'. by replace p' with p by congruence. Qed.

Lemma same_dead_trans h h' h'' : same_dead h h' -> same_dead h' h'' -> same_dead h h''.
Proof.
  intros H1 H2 a. destruct (H1 a) as [E1 D1], (H2 a) as [E2 D2]. split; [congruence|]. intros p p'' Hp Hp'' Hd.
  destruct (h' !! a) as [p'|] eqn:Hp'; [by eapply D2, D1|]. by rewrite Hp'' in E2.
Qed.

Lemma same_dead_player h a p p' :
  h !! a = Some p -> _sessionId p' = _sessionId p -> (IsDead (p_obj p) = true -> IsDead (p_obj p') = true) -> same_dead h (<[a := p']> h).
Proof.
  intros Hp Hs Hd a'. destruct (decide (a' = a)) as [->|Hne].
  - rewrite lookup_insert_eq, Hp. cbn. split; [by rewrite Hs|]. intros q q' [= <-] [= <-]. exact Hd.
  - rewrite lookup_insert_ne by done. apply same_dead_refl.
Qed.

Lemma calm_refl h r : calm h r h r.
Proof. split; [done|apply same_dead_refl]. Qed.

Lemma calm_trans h r h' r' h'' r'' : calm h r h' r' -> calm h' r' h'' r'' -> calm h r h'' r''.
Proof. intros [A1 A2] [B1 B2]. split; [congruence|by eapply same_dead_trans]. Qed.

Lemma calm_core h r r' : core r' = core r -> calm h r h r'.
Proof. intros E. split; [done|apply same_dead_refl]. Qed.

Lemma calm_room h r r' : frame_part r' = frame_part r -> calm h r h r'.
Proof. intros E. by apply calm_core, frame_part_core. Qed.

(** A step that replaces a player of the heap. *)
Lemma calm_player h r a p p' r' :
  h !! a = Some p -> _sessionId p' = _sessionId p -> (IsDead (p_obj p) = true -> IsDead (p_obj p') = true) ->
  core r' = core r -> calm h r (<[a := p']> h) r'.
Proof. intros Hp Hs Hd Hc. split; [done|by eapply same_dead_player]. Qed.

Lemma calm_fold {A B} (f : A -> B -> A) (view : A -> gmap Z Player * Room) l :
  (forall s x, calm (view s).1 (view s).2 (view (f s x)).1 (view (f s x)).2) ->
  forall s, calm (view s).1 (view s).2 (view (foldl f s l)).1 (view (foldl f s l)).2.
Proof.
  intros Hf. induction l as [|x l IH]; intros s; [apply calm_refl|]. cbn [foldl]. eapply calm_trans; [apply Hf|apply IH].
Qed.

Lemma calm_for_each {B} (f : B -> gmap Z Player * Room -> option (gmap Z Player * Room)) l s s' :
  (forall x s s', f x s = Some s' -> calm s.1 s.2 s'.1 s'.2) -> for_each f l s = Some s' -> calm s.1 s.2 s'.1 s'.2.
Proof.
  intros Hf E. apply (for_each_inv (fun t => calm s.1 s.2 t.1 t.2) _ _ _ _) in E; [done| |apply calm_refl].
  intros x t t' Ht Hs. eapply calm_trans; [exact Hs|by eapply Hf].
Qed.

Lemma TakeDamage_core `{IterationOrder} d p (r : Room) :
  _sessionId (Player_TakeDamage d p r).1 = _sessionId p /\ core (Player_TakeDamage d p r).2 = core r /\
  (IsDead (p_obj p) = true -> IsDead (p_obj (Player_TakeDamage d p r).1) = true).
Proof. unfold Player_TakeDamage. destruct (IsDead (p_obj p)) eqn:E; [done|]. by repeat case_match. Qed.

Section Keep.
Context `{IterationOrder} (D : DataManager) (dis : nat -> Z -> Z) (pow : spec_float -> Z -> spec_float).
Context (sin cos acos : float -> float) (atan2 : float -> float -> float) (maps : gmap Z TileMap).

Lemma damage_object_ok id d s : calm s.1 s.2 (damage_object id d s).1 (damage_object id d s).2.
Proof.
  destruct s as [h r]. unfold damage_object. cbn [fst snd].
  destruct (rm_derived r !! id) as [[m|a|p|g]|]; try apply calm_refl; [apply calm_room, hit_monster_part|].
  destruct (h !! a) as [p|] eqn:Hp; [|apply calm_refl]. destruct (TakeDamage_core d p r) as (Es & Ec & Ed).
  destruct (Player_TakeDamage d p r) as [p' r']. by apply (calm_player _ _ _ p).
Qed.

(** Effects: an option that stays [Some]. *)
Definition kept (s : gmap Z Player * Room) (room : option (gmap Z Player * Room)) : Prop :=
  exists s', room = Some s' /\ calm s.1 s.2 s'.1 s'.2.

Lemma deal_kept now id effects : forall s room, kept s room -> kept s (deal now id room effects).
Proof.
  induction effects as [|e effects IH]; intros s room Hk; [done|]. cbn [deal foldl]. apply IH. destruct (NeedsTick now e); [|done].
  destruct Hk as (s' & -> & Hok). cbn [ProcessDotDamage]. destruct (room_has id s'); [|by exists s'].
  eexists; split; [done|]. eapply calm_trans; [exact Hok|apply damage_object_ok].
Qed.

Lemma run_effects_ok s : exists s', run_effects s = Some s' /\ calm s.1 s.2 s'.1 s'.2.
Proof.
  unfold run_effects. rewrite Effect_Update_frame. set (now := _totalRunTime _).
  assert (kept s (frame_damage now (_effectMgr s.2) (Some s))) as (s' & E & Hok).
  { assert (forall l room, kept s room -> kept s (foldl (fun room kv => deal now kv.1 room kv.2) room l)) as Hl.
    { induction l as [|kv l IH]; intros room Hk; [done|]. cbn [foldl]. by apply IH, deal_kept. }
    apply Hl. exists s. split; [done|apply calm_refl]. }
  rewrite E. destruct s' as [h' r']. cbn [mbind option_bind]. eexists. split; [done|]. cbn [fst snd] in *.
  eapply calm_trans; [exact Hok|]. by apply calm_core.
Qed.

Lemma spawn_results_core wm env r : core (spawn_results wm env r) = core r.
Proof.
  unfold spawn_results. generalize (env_events env). intros l.
  assert (forall r', core (foldl wave_event r' l) = core r') as ->; [|done].
  induction l as [|e l IH]; intros r'; [done|]. cbn [foldl]. rewrite IH. by destruct e.
Qed.

Lemma run_waves_core dt fi h r : core (run_waves D sin cos atan2 dt fi h r) = core r.
Proof. unfold run_waves. destruct (Wave_Update _ _ _ _ _ _ _) as [wm env]. apply spawn_results_core. Qed.

Lemma debug_spawn_core typeId count fi h r r' :
  debug_spawn_monster D sin cos atan2 typeId count fi h r = Some r' -> core r' = core r.
Proof. intros (env & _ & [= <-])%bind_Some. apply spawn_results_core. Qed.

Lemma update_object_ok shuffle dt s o :
  let s' := update_object D sin cos acos atan2 shuffle dt s o in
  calm s.1.1 (ar_room s.1.2) s'.1.1 (ar_room s'.1.2).
Proof.
  cbv zeta. destruct s as [[h ar] st]. unfold update_object. cbn [fst snd].
  destruct (rm_derived (ar_room ar) !! _id o) as [d|] eqn:Ed; [|apply calm_refl].
  destruct (object_now h (ar_room ar) (_id o)) as [now|] eqn:En; [|apply calm_refl].
  destruct (IsDead now) eqn:Ei; [apply calm_refl|].
  destruct d as [m0|a|p0|g0]; [| | |apply calm_refl].
  - destruct (room_monster _ _) as [m|]; [|apply calm_refl]. destruct (Monster_Update _ _ _ _ _ _ _) as [m' st'].
    apply calm_room. cbn [on_room ar_room fst snd]. apply update_monster_part.
  - destruct (h !! a) as [p|] eqn:Hp; [|apply calm_refl].
    destruct (Player_Update_part D sin cos acos atan2 shuffle dt p ar) as [Ec Es].
    destruct (Player_Update _ _ _ _ _ _ dt p ar) as [p' ar']. cbn [fst snd] in *.
    assert (now = p_obj p) as ->.
    { unfold object_now in En. rewrite Ed, Hp in En. destruct (GetObject _ _); [by injection En|done]. }
    apply (calm_player _ _ _ p); [done|done|congruence|done].
  - destruct (room_projectile _ _) as [p|]; [|apply calm_refl]. by apply calm_room.
Qed.

Lemma move_now_ok dt o s s' : move_now maps dt o s = Some s' -> calm s.1 s.2 s'.1 s'.2.
Proof.
  destruct s as [h r]. unfold move_now. destruct (rm_derived r !! _id o) as [d|]; [|intros [= <-]; apply calm_refl].
  destruct (GetObject _ _) as [o'|]; [|destruct d; intros [= <-]; apply calm_refl].
  destruct d as [m|a|p|g]; try (intros (moved & _ & [= <-])%bind_Some; by apply calm_room).
  destruct (h !! a) as [p|] eqn:Hp; [|intros [= <-]; apply calm_refl]. intros (moved & Hm & [= <-])%bind_Some.
  apply (calm_player _ _ _ p); [done|done| |done]. intros Hd. unfold move_object in Hm. rewrite Hd in Hm. by injection Hm as <-.
Qed.

Lemma collide_targets_part h pid targets : forall s, frame_part (collide_targets D pow h pid targets s).1.1 = frame_part s.1.1.
Proof.
  induction targets as [|t targets IH]; intros s; [done|]. cbn [collide_targets].
  destruct (room_projectile pid s.1.1) as [proj|]; [|done]. destruct (pj_IsExpired proj); [done|]. destruct (_ =? _); [apply IH|].
  destruct (_type t); try apply IH. destruct (room_monster _ _) as [m|]; [|apply IH]. destruct (IsDead _); [apply IH|].
  destruct (touches _ _ && _); [|apply IH].
  assert (frame_part (hit_target D pow h pid proj (_id t) s).1.1 = frame_part s.1.1) as Eh.
  { destruct s as [[r rng] dl]. unfold hit_target. destruct (roll_critical _ _ _ _ _) as [[crit mult] rng'].
    destruct (OnHit _) as [consumed proj']. cbn [fst snd].
    transitivity (frame_part (hit_monster (_id t) (projectile_damage pow proj mult) (apply_skill_effect D proj (_id t) r))); [done|].
    rewrite hit_monster_part. destruct (apply_skill_effect_cases D proj (_id t) r) as [->|[(v & d & now & ->)|[em ->]]];
      [done|apply update_monster_part|done]. }
  destruct (OnHit _).1; [done|]. by rewrite IH.
Qed.

Lemma projectile_pass_part h r rng r' rng' :
  ResolveProjectileCollisions D pow h r rng = Some (r', rng') -> frame_part r' = frame_part r.
Proof.
  intros ([[r1 rng1] dl] & E & [= <- _])%bind_Some.
  assert (frame_part r1 = frame_part r) as Hl.
  { apply (for_each_inv (fun s : Shots => frame_part s.1.1 = frame_part r) _ _ _ _) in E; [done| |done].
    intros o s s' [->|[targets ->]]%collide_projectile_inv Hs; [done|]. by rewrite collide_targets_part. }
  rewrite <- Hl. by destruct (dl_targets dl).
Qed.

(** The contact damage, which may post the end of the game. *)
Lemma execute_attack_frame s e :
  let s' := execute_attack s e in
  same_dead s.1 s'.1 /\
  core s'.2 = (rm_addr s.2, _roomId s.2, rm_userDB s.2, rm_players s.2, rm_life s.2, rm_queue s.2 ++ game_over_news (all_dead s.1 s.2) (all_dead s'.1 s.2)).
Proof.
  cbv zeta. destruct s as [h r]. pose proof (execute_attack_queue h r e) as Hq. unfold execute_attack in *. cbn [fst snd] in *.
  assert (same_dead h h /\ core r = (rm_addr r, _roomId r, rm_userDB r, rm_players r, rm_life r, rm_queue r ++ game_over_news (all_dead h r) (all_dead h r))) as Hsame.
  { split; [apply same_dead_refl|]. unfold game_over_news. by destruct (all_dead h r); rewrite app_nil_r. }
  destruct (rm_players r !! _) as [a|]; [|done]. destruct (h !! a) as [p|] eqn:Hp; [|done].
  destruct (IsDead (p_obj p)) eqn:Hd; [done|].
  destruct (TakeDamage_core (ae_damage e) p r) as (Es & Ec & _). destruct (Player_TakeDamage _ p r) as [p' r1]. cbn [fst snd] in *.
  set (r2 := match room_monster (ae_monsterId e) r1 with Some _ => _ | None => r1 end) in *.
  assert (core r2 = core r) as E2.
  { rewrite <- Ec. unfold r2. destruct (room_monster _ _); [|done]. apply frame_part_core, update_monster_part. }
  clearbody r2. assert (same_dead h (<[a := p']> h)) as Hsd by (eapply same_dead_player; [done|done|congruence]).
  injection E2 as A1 A2 A3 A4 A5 A6. destruct (IsDead (p_obj p')); [|cbn [fst snd] in *; split; [done|unfold core; congruence]].
  split; [done|]. cbn [fst snd] in *. rewrite <- Hq. destruct (all_dead _ (Room_BroadcastPacket _ _ _)); unfold core; cbn; congruence.
Qed.

Lemma all_dead_same h h' r r' : same_dead h h' -> rm_players r' = rm_players r -> all_dead h r = true -> all_dead h' r' = true.
Proof.
  intros Hs Ep. rewrite (all_dead_players h' r' r) by done. rewrite !all_dead_spec. intros Hd sid a p' Ha Hp'.
  destruct (Hs a) as [E Dd]. rewrite Hp' in E. destruct (h !! a) as [p|] eqn:Hp; [|done]. eapply Dd; [done|done|]. by eapply Hd.
Qed.

Lemma body_frame h r :
  let s := ResolveBodyCollisions (h, r) in
  exists l, same_dead h s.1 /\ core s.2 = (rm_addr r, _roomId r, rm_userDB r, rm_players r, rm_life r, rm_queue r ++ l) /\
    (l = [] \/ l = [TGameOver false] /\ all_dead h r = false).
Proof.
  cbv zeta. unfold ResolveBodyCollisions, ExecuteAttackEvents. cbn [fst snd]. generalize (CollectAttackEvents h r). intros events.
  revert h r; induction events as [|e events IH]; intros h r.
  { exists []. rewrite app_nil_r. split; [apply same_dead_refl|]. split; [done|by left]. }
  cbn [foldl]. pose proof (execute_attack_frame (h, r) e) as [Hs Hc]. destruct (execute_attack (h, r) e) as [h1 r1]. cbn [fst snd] in *.
  destruct (IH h1 r1) as (l & Hs1 & Hc1 & Hl). injection Hc as A1 A2 A3 A4 A5 A6. rewrite A1, A2, A3, A4, A5, A6 in Hc1.
  pose proof (all_dead_same h h1 r r Hs eq_refl) as Hm. rewrite (all_dead_players h1 r1 r) in Hl by done.
  exists (game_over_news (all_dead h r) (all_dead h1 r) ++ l). rewrite app_assoc. split; [by eapply same_dead_trans|]. split; [done|].
  unfold game_over_news. destruct (all_dead h r); cbn.
  - rewrite Hm in Hl by done. by destruct Hl as [->|[_ ?]]; [left|].
  - destruct (all_dead h1 r); cbn; [|naive_solver]. right. split; [|done]. by destruct Hl as [->|[_ ?]].
Qed.

Lemma resolve_item_ok o s s' : resolve_item D dis o s = Some s' -> calm s.1 s.2 s'.1 s'.2.
Proof.
  destruct s as [h r]. unfold resolve_item. cbn [fst snd]. pose proof (calm_refl h r) as Hrefl.
  destruct (_type o); try by intros [= <-]. destruct (room_gem _ _) as [g|]; [|by intros [= <-]].
  destruct (_isPickedUp g); [by intros [= <-]|].
  destruct (GetNearestPlayer _ _ _ _) as [a|]; cbn; [|intros [= <-]; by apply calm_room].
  destruct (h !! a) as [p|] eqn:Hp; cbn; [|intros [= <-]; by apply calm_room].
  destruct (IsDead (p_obj p)) eqn:Hd; [intros [= <-]; by apply calm_room|]. destruct (_ <=? _)%F.
  - intros ([p' r'] & E & [= <-])%bind_Some. destruct (give_exp_quiet D dis (_expAmount g) p r p' r' E) as [Es Ec].
    apply (calm_player _ _ _ p); [done|done|congruence|done].
  - destruct (_ <=? _)%F; [|intros [= <-]; by apply calm_room]. destruct (_ <? _)%F; intros [= <-]; [by apply calm_room|done].
Qed.

Lemma ResolveCleanup_core r : core (ResolveCleanup r) = core r.
Proof.
  unfold ResolveCleanup.
  assert (forall l s, core (foldl cleanup_step s l).2 = core s.2) as Hl.
  { induction l as [|o l IH]; intros s; [done|]. cbn [foldl]. rewrite IH. destruct s as [[ds ps] r']. unfold cleanup_step.
    by destruct (finished r' o). }
  specialize (Hl (GetAllObjects (_objMgr r)) ([], [], r)). destruct (foldl _ _ _) as [[ds ps] r']. cbn [snd] in Hl.
  rewrite <- Hl. by destruct ds.
Qed.

(** What a whole frame does to the players and the room's life cycle. *)
Record frame_effect (h : gmap Z Player) (r : Room) (h' : gmap Z Player) (r' : Room) : Prop := mk_frame_effect {
  fe_dead : same_dead h h';
  fe_core : exists l, core r' = (rm_addr r, _roomId r, rm_userDB r, rm_players r, rm_life r, rm_queue r ++ l) /\
    (l = [] \/ l = [TGameOver false] /\ all_dead h r = false)
}.

(** Before the contact damage a frame is calm, and so it is after it. *)
Lemma frame_effect_around h r h1 r1 h2 r2 h' r' :
  calm h r h1 r1 -> frame_effect h1 r1 h2 r2 -> calm h2 r2 h' r' -> frame_effect h r h' r'.
Proof.
  intros [Hc Hd] [Hd2 (l & Hc2 & Hl)] [Hc3 Hd3]. split; [eapply same_dead_trans; [exact Hd|]; by eapply same_dead_trans|].
  injection Hc as A1 A2 A3 A4 A5 A6. exists l. split; [rewrite Hc3, Hc2; congruence|].
  destruct Hl as [->|[-> Ha]]; [by left|]. right. split; [done|]. destruct (all_dead h r) eqn:E; [|done].
  by rewrite (all_dead_same h h1 r r1 Hd A4 E) in Ha.
Qed.

Lemma combat_effect h r rng h' r' rng' :
  Combat_Update D dis pow h r rng = Some (h', r', rng') -> frame_effect h r h' r'.
Proof.
  intros ([r1 rng1] & Ep & E)%bind_Some. pose proof (projectile_pass_part _ _ _ _ _ Ep) as E1.
  destruct (body_frame h r1) as (l & Hs & Hc & Hl). destruct (ResolveBodyCollisions (h, r1)) as [h2 r2]. cbn [fst snd] in *.
  apply bind_Some in E as ([h3 r3] & Ei & [= <- <- _]). pose proof (calm_for_each _ _ _ _ resolve_item_ok Ei) as E3. cbn [fst snd] in E3.
  apply (frame_effect_around h r h r1 h2 r2); [by apply calm_room|split; [done|by exists l]|].
  eapply calm_trans; [exact E3|apply calm_core, ResolveCleanup_core].
Qed.

Lemma run_frame_ok dt fi h r h' r' :
  run_frame D dis pow sin cos acos atan2 maps dt fi h r = Some (h', r') -> frame_effect h r h' r'.
Proof.
  unfold run_frame. pose proof (run_waves_core dt fi h r) as E1. set (r1 := run_waves _ _ _ _ _ _ _ _) in *.
  destruct (run_effects_ok (h, r1)) as ([h2 r2] & -> & E2). cbn [fst snd mbind option_bind] in *.
  intros (r3 & E3 & E)%bind_Some. apply bind_Some in E3 as (grid & _ & [= <-]).
  revert E. match goal with |- context [foldl ?f ?s ?l] => pose proof (calm_fold f (fun t => (t.1.1, ar_room t.1.2)) l (update_object_ok _ _) s) as E4;
    destruct (foldl f s l) as [[h4 ar] st] end. cbn [fst snd ar_room] in E4.
  intros ([h5 r5] & E5 & E)%bind_Some. apply (calm_for_each _ _ _ _ (move_now_ok dt)) in E5. cbn [fst snd] in E5.
  apply bind_Some in E as ([[h6 r6] rng] & E6 & [= <- <-]). apply combat_effect in E6.
  apply (frame_effect_around h r h5 r5 h6 r6); [|done|apply calm_refl].
  eapply calm_trans; [by apply (calm_core h r r1)|]. eapply calm_trans; [exact E2|].
  eapply calm_trans; [by apply (calm_core h2 r2 (set_managers grid (_waveMgr r2) r2))|]. eapply calm_trans; [exact E4|exact E5].
Qed.

End Keep.

(** ** The program's frame *)

Section Program.
Context `{IterationOrder} (D : DataManager) (dis : nat -> Z -> Z) (pow : spec_float -> Z -> spec_float).
Context (sin cos acos : float -> float) (atan2 : float -> float -> float) (maps : gmap Z TileMap).
Context (inputs : gmap Z Player -> Room -> FrameInputs).

(** The simulation the room's tasks run. *)
Definition program_frame : RoomFrame := {|
  simulate dt h r := run_frame D dis pow sin cos acos atan2 maps dt (inputs h r) h r;
  summon typeId count h r := debug_spawn_monster D sin cos atan2 typeId count (inputs h r) h r
|}.

(** What Room.v and Lobby.v ask of a simulation holds of the program's. *)
#[export] Instance program_frame_laws : @FrameLaws program_frame.
Proof.
  split; [|intros typeId count h r r'; apply debug_spawn_core]. intros dt h r h' r' E. apply run_frame_ok in E as [Hs (l & Hc & Hl)].
  injection Hc as A1 A2 A3 A4 A5 A6. constructor; try done.
  - exists l. split; [done|]. destruct Hl as [->|[-> _]]; by repeat constructor.
  - intros a. apply (Hs a).
Qed.

(** C31: a frame of the simulation (waves, effects, monsters' behaviours, weapons,
    projectiles, physics, combat, clean-up), where it is defined, leaves the room's
    identity, its players and its life cycle alone; no player appears, vanishes or gets
    another session, and none that is dead is alive afterwards; the frame posts nothing
    but at most one end of the game, and that only if somebody was alive before: a room
    whose last living player has left never ends its game. *)
Theorem simulation_keeps_the_room dt h r h' r' :
  @simulate program_frame dt h r = Some (h', r') ->
  exists l,
    rm_addr r' = rm_addr r /\ _roomId r' = _roomId r /\ rm_players r' = rm_players r /\ rm_life r' = rm_life r /\
    rm_queue r' = rm_queue r ++ l /\ (l = [] \/ l = [TGameOver false]) /\
    (forall a, _sessionId <$> h' !! a = _sessionId <$> h !! a) /\
    (forall a p p', h !! a = Some p -> h' !! a = Some p' -> IsDead (p_obj p) = true -> IsDead (p_obj p') = true) /\
    (all_dead h r = true -> l = [] /\ all_dead h' r' = true).
Proof.
  intros E. apply run_frame_ok in E as [Hs (l & Hc & Hl)]. injection Hc as A1 A2 A3 A4 A5 A6.
  exists l. split_and!; try done.
  - by destruct Hl as [?|[? _]]; [left|right].
  - intros a. apply (Hs a).
  - intros a p p'. apply (Hs a).
  - intros Hd. split; [|by apply (all_dead_same h h' r r')]. destruct Hl as [?|[_ E]]; [done|congruence].
Qed.

End Program.

(** ** A frame of the arena

    A second player lies dead beside the first, and the monster strikes. *)
Definition fallen : Player := set_obj (SetState DEAD f0 (SetHp 0 (p_obj (Player_new 6 6)))) (Player_new 6 6).
Definition field_heap : gmap Z Player := {[10 := Player_new 5 5; 11 := fallen]}.
Definition field : Room := set_clock (mkClock (f_of_Z 3) 75 f0) (AddPlayerObject 11 fallen (set_players {[5 := 10; 6 := 11]} arena)).

Definition field_inputs : FrameInputs :=
  mkInputs (mkPool [] FastRandom_new) FastRandom_new FastRandom_new [] FastRandom_new FastRandom_new FastRandom_new FastRandom_new
    FastRandom_new (fun _ l => l).

Abbreviation field_frame :=
  (@simulate (program_frame (H := any_order) DataManager_new (fun _ lo => lo) no_pow (fun x => x) (fun x => x) (fun x => x) (fun x _ => x) ∅
     (fun _ _ => field_inputs)) (flit 4 100) field_heap field).

Lemma simulation_keeps_the_room_witness : exists h' r' p p',
  field_frame = Some (h', r') /\ rm_players r' = {[5 := 10; 6 := 11]} /\
  h' !! 10 = Some p /\ IsDead (p_obj p) = false /\ h' !! 11 = Some p' /\ IsDead (p_obj p') = true.
Proof.
  destruct field_frame as [[h' r']|] eqn:E.
  2: { exfalso. apply (f_equal (fun o => match o with Some _ => true | None => false end)) in E. vm_compute in E. discriminate E. }
  destruct (simulation_keeps_the_room (H := any_order) DataManager_new (fun _ lo => lo) no_pow (fun x => x) (fun x => x) (fun x => x)
              (fun x _ => x) ∅ (fun _ _ => field_inputs) (flit 4 100) field_heap field h' r' E)
    as (l & _ & _ & Hp & _ & _ & _ & Hs & Hd & _).
  assert (match field_frame with Some (h, _) => IsDead <$> (p_obj <$> h !! 10) | None => None end = Some false) as H10 by (vm_compute; reflexivity).
  rewrite E in H10. destruct (h' !! 10) as [p|] eqn:Ep; [|discriminate]. injection H10 as H10.
  pose proof (Hs 11) as H11. destruct (h' !! 11) as [p'|] eqn:Ep'; [|discriminate].
  exists h', r', p, p'. split; [reflexivity|]. split; [exact Hp|]. split; [exact Ep|]. split; [exact H10|]. split; [exact Ep'|].
  apply (Hd 11 fallen p'); [reflexivity|exact Ep'|reflexivity].
Defined.

(** ** Projectiles move twice

    [Projectile::UpdateLinear] advances the projectile, then [UpdatePhysics] does so
    again, while the distance travelled counts once. *)
Lemma projectile_moves_twice cos sin dt owner p :
  IsDead (pj_obj p) = false -> _isOrbit p = false -> _isHit p = false ->
  let d := (_traveledDistance p + fsqrt (_vx (pj_obj p) * _vx (pj_obj p) + _vy (pj_obj p) * _vy (pj_obj p)) * dt)%F in
  (_maxRange p <=? d)%F = false -> (_lifetime p - dt <=? f0)%F = false ->
  feq0 (_vx (pj_obj p) * dt)%F = false ->
  let p' := Projectile_Update cos sin dt owner p in
  _traveledDistance p' = d /\
  exists o, move_object None dt (pj_obj p') = Some o /\
    _x o = (_x (pj_obj p) + _vx (pj_obj p) * dt + _vx (pj_obj p) * dt)%F /\
    _y o = (_y (pj_obj p) + _vy (pj_obj p) * dt + _vy (pj_obj p) * dt)%F.
Proof.
  intros Hd Ho Hh d Hr Hl Hv. cbv zeta. unfold Projectile_Update. rewrite Hd, Ho. unfold UpdateLinear. cbv zeta. fold d.
  cbn [set_traveled _maxRange _traveledDistance]. rewrite Hr. cbn [set_pj_obj SetLifetime set_traveled _lifetime _isHit]. rewrite Hl, Hh.
  cbn [orb _traveledDistance pj_obj]. split; [done|]. unfold move_object.
  match goal with |- context [IsDead ?o] => change (IsDead o) with (IsDead (pj_obj p)) end. rewrite Hd. cbn -[fadd fmul feq0]. rewrite Hv. cbn [andb]. eexists. split; [reflexivity|]. done.
Qed.
