(* ===== verification/Lobby.v ===== *)
(** * Lobby: the room manager, its events and the packet handlers

    Models src/Examples/VampireSurvivor/Server/Game/RoomManager.h and
    RoomManager.cpp, Entity/PlayerFactory.cpp, and the handlers under
    Core/Handlers (lobby, rooms, game input, ping) with the answer of
    Core/LoginController.cpp.

    The handlers and the events of the bus run on the main thread; the strands of the
    rooms, the timer and the database run beside it.  The server is a state on which
    one step of any of them is taken at a time.  Events are queued ([EventBus]
    pushes them to the dispatcher), so that a handler's event takes effect later. *)

From stdpp Require Import base strings pretty gmap option list.
From S2P Require Import Prelude Float32 GameData Inventory Entity Player Room.

Inductive Event :=
| RoomJoined (sid : Z) (player : Z)
| RoomLeft (sid : Z)
| SessionDisconnected (sid : Z).

Record RoomInfo := mkRoomInfo {
  ri_id : Z; ri_current : Z; ri_max : Z; ri_playing : bool; ri_title : string; ri_mapId : Z
}.

(** What a handler does to its session. *)
Inductive Reply :=
| S_EnterLobby
| S_CreateRoom (roomId mapId : Z)
| S_RoomList (rooms : list RoomInfo)
| S_JoinRoom (roomId mapId : Z)
| S_LeaveRoom
| S_Login (success : bool) (myPlayerId : Z) (serverTick : Z)
| S_Pong (timestamp : Z)
| S_Chat (playerId : Z) (msg : string)
| Closed.

Record Server := mkServer {
  sv_heap : gmap Z Room;         (* the room objects by identity *)
  _rooms : gmap Z Z;             (* _rooms of the manager: room id to room *)
  sv_players : gmap Z Z;         (* _players of the manager: session to player *)
  _lobbySessions : list Z;
  sv_env : Env;
  sv_events : list Event;
  sv_nextRoomId : Z;             (* static nextRoomId of CreateRoomHandler *)
  sv_nextAddr : Z;               (* identities handed out so far *)
  sv_sent : list (Z * Reply)
}.

Definition Server_new : Server := mkServer ∅ ∅ ∅ [] (mkServerEnv ∅ ∅ 1 []) [] 2 1 [].

(** Setters. *)
Definition set_rooms (h : gmap Z Room) (m : gmap Z Z) (s : Server) : Server :=
  mkServer h m (sv_players s) (_lobbySessions s) (sv_env s) (sv_events s) (sv_nextRoomId s) (sv_nextAddr s) (sv_sent s).
Definition set_registry (m : gmap Z Z) (s : Server) : Server :=
  mkServer (sv_heap s) (_rooms s) m (_lobbySessions s) (sv_env s) (sv_events s) (sv_nextRoomId s) (sv_nextAddr s) (sv_sent s).
Definition set_lobby (l : list Z) (s : Server) : Server :=
  mkServer (sv_heap s) (_rooms s) (sv_players s) l (sv_env s) (sv_events s) (sv_nextRoomId s) (sv_nextAddr s) (sv_sent s).
Definition set_env (e : Env) (s : Server) : Server :=
  mkServer (sv_heap s) (_rooms s) (sv_players s) (_lobbySessions s) e (sv_events s) (sv_nextRoomId s) (sv_nextAddr s) (sv_sent s).
Definition set_events (l : list Event) (s : Server) : Server :=
  mkServer (sv_heap s) (_rooms s) (sv_players s) (_lobbySessions s) (sv_env s) l (sv_nextRoomId s) (sv_nextAddr s) (sv_sent s).
Definition set_ids (roomId addr : Z) (s : Server) : Server :=
  mkServer (sv_heap s) (_rooms s) (sv_players s) (_lobbySessions s) (sv_env s) (sv_events s) roomId addr (sv_sent s).
Definition reply (sid : Z) (r : Reply) (s : Server) : Server :=
  mkServer (sv_heap s) (_rooms s) (sv_players s) (_lobbySessions s) (sv_env s) (sv_events s) (sv_nextRoomId s) (sv_nextAddr s)
    (sv_sent s ++ [(sid, r)]).

(** A change of one room object. *)
Definition on_room (addr : Z) (f : Room -> Room) (s : Server) : Server := set_rooms (alter f addr (sv_heap s)) (_rooms s) s.

Definition Publish (e : Event) (s : Server) : Server := set_events (sv_events s ++ [e]) s.

(** ** RoomManager *)

Definition EnterLobby (sid : Z) (s : Server) : Server :=
  if bool_decide (sid ∈ _lobbySessions s) then s else set_lobby (_lobbySessions s ++ [sid]) s.

Definition LeaveLobby (sid : Z) (s : Server) : Server := set_lobby (filter (fun x => x ≠ sid) (_lobbySessions s)) s.

Definition IsInLobby (sid : Z) (s : Server) : bool := bool_decide (sid ∈ _lobbySessions s).

Definition RegisterPlayer (sid a : Z) (s : Server) : Server := set_registry (<[sid := a]> (sv_players s)) s.
Definition UnregisterPlayer (sid : Z) (s : Server) : Server := set_registry (delete sid (sv_players s)) s.
Definition GetPlayer (sid : Z) (s : Server) : option Z := sv_players s !! sid.
Definition GetRoom (roomId : Z) (s : Server) : option Z := _rooms s !! roomId.

(** The room id a player holds. *)
Definition GetRoomId (a : Z) (s : Server) : Z := default 0 (_currentRoomId <$> ev_players (sv_env s) !! a).

Definition CreateRoom (roomId : Z) (title : string) (mapId : Z) (userDB : bool) (s : Server) : Server :=
  let addr := sv_nextAddr s in
  let '(r, e) := Start (Room_new addr roomId mapId title userDB, sv_env s) in
  set_env e (set_ids (sv_nextRoomId s) (addr + 1) (set_rooms (<[addr := r]> (sv_heap s)) (<[roomId := addr]> (_rooms s)) s)).

Definition DestroyRoom (roomId : Z) (s : Server) : Server :=
  if roomId =? 1 then s
  else match _rooms s !! roomId with
       | Some addr => set_rooms (alter Stop addr (sv_heap s)) (delete roomId (_rooms s)) s
       | None => s
       end.

(** [_rooms] is a std::map: ascending in the room ids. *)
Definition GetAllRooms (s : Server) : list Room :=
  omap (fun kv => sv_heap s !! kv.2) (std_sort (fun a b => a.1 <? b.1) (map_to_list (_rooms s))).

Definition Init (userDB : bool) (s : Server) : Server :=
  if bool_decide (_rooms s = ∅) then CreateRoom 1 "Default Room" 1 userDB s else s.

Definition Cleanup (s : Server) : Server :=
  set_lobby [] (set_registry ∅
    (set_rooms (foldl (fun h r => alter Stop (rm_addr r) h) (sv_heap s) (GetAllRooms s)) ∅ s)).

(** ** Events *)

(** The part the two leaving events share. *)
Definition leave_and_unregister (sid : Z) (s : Server) : Server :=
  match GetPlayer sid s with
  | None => s
  | Some a =>
      let s := match GetRoom (GetRoomId a s) s with
               | Some addr => on_room addr (Leave sid) s
               | None => s
               end in
      UnregisterPlayer sid s
  end.

Definition HandleSessionDisconnected (sid : Z) (s : Server) : Server :=
  let s := if IsInLobby sid s then LeaveLobby sid s else s in
  leave_and_unregister sid s.

Definition HandleRoomJoined (sid a : Z) (s : Server) : Server := RegisterPlayer sid a (LeaveLobby sid s).

Definition HandleRoomLeft (sid : Z) (s : Server) : Server := EnterLobby sid (leave_and_unregister sid s).

Definition handle_event (e : Event) (s : Server) : Server :=
  match e with
  | RoomJoined sid a => HandleRoomJoined sid a s
  | RoomLeft sid => HandleRoomLeft sid s
  | SessionDisconnected sid => HandleSessionDisconnected sid s
  end.

(** ** Handlers *)

(** A parsed request; a packet that does not parse is dropped. *)
Inductive Request :=
| C_EnterLobby
| C_CreateRoom (title : string) (mapId : Z)
| C_GetRoomList (onlyJoinable : bool)
| C_JoinRoom (roomId : Z)
| C_LeaveRoom
| C_GameReady
| C_MoveInput (clientTick dx dy : Z)
| C_SelectLevelUp (optionIndex : Z)
| C_Ping (timestamp : Z).

Section Handlers.
Context (D : DataManager).

Definition DEFAULT_PLAYER_HP : Z := 100.
Definition DEFAULT_PLAYER_SPEED : float := f_of_Z 5.
Definition MAX_PLAYERS : Z := 4.

(** [p0] is the object the pool hands out, if it has one. *)
Definition CreatePlayer (gameId sid : Z) (p0 : option Player) : option Player :=
  p ← p0;
  let '(hp, speed) := match GetPlayerInfo D 1 with
                      | Some t => (pi_hp t, pi_speed t)
                      | None => (DEFAULT_PLAYER_HP, DEFAULT_PLAYER_SPEED)
                      end in
  Some (Player_Initialize gameId sid hp speed p).

Definition SetName (name : string) (p : Player) : Player :=
  mkPlayer (p_obj p) (_sessionId p) name (_classId p) (_currentRoomId p) (_speed p) (_lastInputTick p) (_facingDir p)
    (_baseMaxHp p) (_exp p) (_maxExp p) (_level p) (_invincibleUntil p) (_isLevelingUp p) (_levelUpStartedAt p)
    (_emitters p) (_inventory p) (_pendingLevelUpOptions p) (_slowedMonsterIds p) (_isReady p) (_godMode p).

Definition room_info (r : Room) : RoomInfo :=
  mkRoomInfo (_roomId r) (_playerCount (rm_life r)) MAX_PLAYERS (_gameStarted (rm_life r)) (_title r) (_mapId r).

Definition EnterLobbyHandler (sid : Z) (s : Server) : Server := reply sid S_EnterLobby (EnterLobby sid s).

Definition CreateRoomHandler (userDB : bool) (sid : Z) (title : string) (mapId : Z) (s : Server) : Server :=
  let newRoomId := sv_nextRoomId s in
  let s := set_ids (i32 (newRoomId + 1)) (sv_nextAddr s) s in
  let title := if bool_decide (title = EmptyString) then "Room " +:+ pretty newRoomId else title in
  reply sid (S_CreateRoom newRoomId mapId) (CreateRoom newRoomId title mapId userDB s).

Definition GetRoomListHandler (sid : Z) (onlyJoinable : bool) (s : Server) : Server :=
  let rooms := filter (fun r => negb (onlyJoinable && _gameStarted (rm_life r))) (GetAllRooms s) in
  reply sid (S_RoomList (map room_info rooms)) s.

(** [None]: the pool had no player and a null pointer is used. *)
Definition JoinRoomHandler (sid roomId : Z) (p0 : option Player) (s : Server) : option Server :=
  match GetRoom roomId s with
  | None => Some s
  | Some addr =>
      match GetPlayer sid s with
      | Some _ => Some s
      | None =>
          let gameId := i32 sid in
          p ← CreatePlayer gameId sid p0;
          r ← sv_heap s !! addr;
          let p := SetName ("Survivor_" +:+ pretty gameId) p in
          let a := sv_nextAddr s in
          let s := set_ids (sv_nextRoomId s) (a + 1) (set_env (set_heap (<[a := p]> (ev_players (sv_env s))) (sv_env s)) s) in
          let s := reply sid (S_JoinRoom roomId (_mapId r)) s in
          let s := on_room addr (Enter a) s in
          Some (Publish (RoomJoined sid a) s)
      end
  end.

Definition LeaveRoomHandler (sid : Z) (s : Server) : Server := reply sid S_LeaveRoom (Publish (RoomLeft sid) s).

(** An operation on the room a session's player holds. *)
Definition to_own_room (sid : Z) (f : Z -> Room -> Room) (s : Server) : Server :=
  match GetPlayer sid s with
  | None => s
  | Some a => match GetRoom (GetRoomId a s) s with
              | Some addr => on_room addr (f a) s
              | None => s
              end
  end.

Definition GameReadyHandler (sid : Z) : Server -> Server := to_own_room sid (fun _ => OnPlayerReady sid).
Definition MoveInputHandler (sid tick dx dy : Z) : Server -> Server := to_own_room sid (fun a => Post (TInput a tick dx dy)).
Definition SelectLevelUpHandler (sid i : Z) : Server -> Server := to_own_room sid (fun a => Post (TSelect a i)).

Definition PingHandler (sid timestamp : Z) (s : Server) : Server :=
  let isKnown := bool_decide (is_Some (GetPlayer sid s)) || IsInLobby sid s in
  reply sid (if isKnown then S_Pong timestamp else Closed) s.

(** The answer of the login transaction. *)
Definition OnLoginResult (sid : Z) (success : bool) (s : Server) : Server :=
  let s := if success then EnterLobby sid s else s in
  match GetRoom DEFAULT_ROOM_ID s with
  | Some addr =>
      let tick := default 0 ((fun r => _serverTick (rm_clock r)) <$> sv_heap s !! addr) in
      reply sid (if success then S_Login true (i32 sid) tick else S_Login false 0 0) s
  | None => s
  end.

Definition HandlePacket (userDB : bool) (p0 : option Player) (sid : Z) (req : Request) (s : Server) : option Server :=
  match req with
  | C_EnterLobby => Some (EnterLobbyHandler sid s)
  | C_CreateRoom title mapId => Some (CreateRoomHandler userDB sid title mapId s)
  | C_GetRoomList b => Some (GetRoomListHandler sid b s)
  | C_JoinRoom roomId => JoinRoomHandler sid roomId p0 s
  | C_LeaveRoom => Some (LeaveRoomHandler sid s)
  | C_GameReady => Some (GameReadyHandler sid s)
  | C_MoveInput tick dx dy => Some (MoveInputHandler sid tick dx dy s)
  | C_SelectLevelUp i => Some (SelectLevelUpHandler sid i s)
  | C_Ping t => Some (PingHandler sid t s)
  end.

End Handlers.

(** ** What a step of a strand keeps *)

Lemma life_change_keeps t v v' : life_change t v v' ->
  v_addr v' = v_addr v /\ v_id v' = v_id v /\ v_sess v' = v_sess v /\
  (exists l, v_queue v' = v_queue v ++ l) /\
  (forall sid a, v_players v' !! sid = Some a -> v_players v !! sid = Some a \/ v_sess v !! a = Some sid).
Proof.
  assert (exists l : list Task, v_queue v = v_queue v ++ l) as Hnil by (exists []; by rewrite app_nil_r).
  assert (forall w, v_addr (v_start w) = v_addr w /\ v_id (v_start w) = v_id w /\ v_sess (v_start w) = v_sess w /\
            v_queue (v_start w) = v_queue w /\ v_players (v_start w) = v_players w) as Hstart.
  { intros w. unfold v_start. destruct (_gameStarted _); [done|]. by destruct (_ =? 0). }
  assert (forall w, v_addr (v_clear w) = v_addr w /\ v_id (v_clear w) = v_id w /\ v_sess (v_clear w) = v_sess w /\
            v_queue (v_clear w) = v_queue w /\ v_players (v_clear w) = ∅) as Hclear.
  { intros w. unfold v_clear. by destruct (_ =? 0). }
  destruct 1 as [t v|a sid l v Hsid Hl|a skills v|sid a v Hsid|t v Ht|v|v|w v|l v Hl].
  - repeat split; try done. by left.
  - repeat split; try done; [by exists l|]. intros sid' a'. cbn.
    destruct (decide (sid' = sid)) as [->|Hne]; [rewrite lookup_insert_eq; intros [= <-]; by right|].
    rewrite lookup_insert_ne by done. by left.
  - repeat split; try done; [by eexists|by left].
  - unfold v_leave. cbn [v_players v_set_life v_set_players v_id]. destruct (bool_decide _).
    + destruct (v_id v =? _); [|set (w := v_set_life _ _); destruct (Hclear w) as (? & ? & ? & Hq & Hp)].
      * repeat split; try done. intros sid' a' Hl. cbn in Hl. apply lookup_delete_Some in Hl as [_ ?]. by left.
      * repeat split; try done; unfold v_reset; cbn [v_queue v_players v_set_life];
          try (by rewrite Hq); intros sid' a'; by rewrite Hp, lookup_empty.
    + repeat split; try done. intros sid' a' Hl. cbn in Hl. apply lookup_delete_Some in Hl as [_ ?]. by left.
  - destruct (Hstart v) as (? & ? & ? & Hq & Hp). repeat split; try done; try (by rewrite Hq). rewrite Hp. by left.
  - repeat split; try done. by left.
  - destruct (Hclear v) as (? & ? & ? & Hq & Hp). repeat split; try done; try (by rewrite Hq); intros sid' a'; by rewrite Hp, lookup_empty.
  - repeat split; try done. by left.
  - repeat split; try done; [by exists l|by left].
Qed.

Lemma life_change_leave t v v' : life_change t v v' -> forall sid, t = TLeave sid -> v_players v' !! sid = None.
Proof.
  destruct 1 as [t v _ _ _ _ Hle|a s l v Hsid Hl|a skills v|s a v Hsid|t v Ht|v|v|w v|l v Hl]; intros sid E; try discriminate E.
  - by apply Hle.
  - injection E as ->. unfold v_leave. cbn [v_players v_set_life v_set_players v_id].
    destruct (bool_decide _); [|apply lookup_delete_eq]. destruct (v_id _ =? _); [apply lookup_delete_eq|].
    unfold v_reset, v_clear. destruct (_ =? 0); apply lookup_empty.
  - by destruct Ht as [->|[? ->]].
Qed.

(** A strand changes only its own room's timers. *)
Lemma life_change_timers t v v' addr :
  (forall h, v_timers v !! h = Some (v_addr v) <-> h = _timerHandle (v_life v) /\ h <> 0) ->
  (forall h, is_Some (v_timers v !! h) -> h < v_next v) -> addr <> v_addr v -> life_change t v v' ->
  (forall h, v_timers v' !! h = Some addr <-> v_timers v !! h = Some addr) /\ v_next v <= v_next v' /\
  (forall h, is_Some (v_timers v' !! h) -> h < v_next v').
Proof.
  intros Ht Hf Hne Hst.
  assert (forall w, v_timers w = v_timers v -> v_next w = v_next v -> v_addr w = v_addr v -> _timerHandle (v_life w) = _timerHandle (v_life v) ->
     (forall h, v_timers (v_start w) !! h = Some addr <-> v_timers v !! h = Some addr) /\ v_next v <= v_next (v_start w) /\
     (forall h, is_Some (v_timers (v_start w) !! h) -> h < v_next (v_start w))) as Hstart.
  { intros w E1 E2 E3 E4. unfold v_start. destruct (_gameStarted _); [rewrite E1, E2; done|]. cbn.
    destruct (_ =? 0); cbn; rewrite ?E1, ?E2, ?E3; [|done]. repeat split; try lia.
    - intros Hh. destruct (decide (h = v_next v)) as [->|Hd]; [rewrite lookup_insert_eq in Hh; congruence|].
      by rewrite lookup_insert_ne in Hh.
    - intros Hh. assert (h < v_next v) by (apply Hf; eauto). rewrite lookup_insert_ne by lia. done.
    - intros h. destruct (decide (h = v_next v)) as [->|Hd]; [lia|]. rewrite lookup_insert_ne by done. intros Hh%Hf. lia. }
  assert (forall w, v_timers w = v_timers v -> v_next w = v_next v -> _timerHandle (v_life w) = _timerHandle (v_life v) ->
     (forall h, v_timers (v_clear w) !! h = Some addr <-> v_timers v !! h = Some addr) /\ v_next v <= v_next (v_clear w) /\
     (forall h, is_Some (v_timers (v_clear w) !! h) -> h < v_next (v_clear w))) as Hclear.
  { intros w E1 E2 E4. unfold v_clear. rewrite E4. destruct (_timerHandle (v_life v) =? 0) eqn:Eh; bool_to_prop; cbn; rewrite ?E1, ?E2; [done|].
    repeat split; try lia.
    - by intros [_ ?]%lookup_delete_Some.
    - intros Hh. apply lookup_delete_Some. split; [|done]. intros <-.
      assert (v_timers v !! _timerHandle (v_life v) = Some (v_addr v)) by (by apply Ht). congruence.
    - intros h [x [_ Hx]%lookup_delete_Some]. apply Hf. by eexists. }
  destruct Hst as [t v|a sid l v Hsid Hl|a skills v|sid a v Hsid|t v _|v|v|w v|l v Hl]; try (cbn; done).
  - unfold v_leave. cbn [v_players v_set_life v_set_players v_id]. destruct (bool_decide _); [|done].
    destruct (v_id v =? _); [done|]. by apply Hclear.
  - by apply Hstart.
  - by apply Hclear.
Qed.

(** ** The server *)

Section System.
Context `{IterationOrder} `{FrameLaws} (D : DataManager) (dis : nat -> Z -> Z) (userDB : bool).

(** The strand of a room runs its oldest task. *)
Definition run_strand (addr : Z) (s : Server) : option Server :=
  r ← sv_heap s !! addr;
  '(r', e') ← strand_step D dis (r, sv_env s);
  Some (set_env e' (set_rooms (<[addr := r']> (sv_heap s)) (_rooms s) s)).

(** A running timer fires. *)
Definition fire_timer (h : Z) (s : Server) : option Server :=
  addr ← ev_timers (sv_env s) !! h; Some (on_room addr OnTimer s).

(** The database answers the [i]-th load. *)
Definition answer_load (i : nat) (skills : list (Z * Z)) (s : Server) : option Server :=
  '(addr, a) ← ev_loads (sv_env s) !! i;
  Some (on_room addr (Post (TLoaded a skills)) (set_env (set_loads (delete i (ev_loads (sv_env s))) (sv_env s)) s)).

(** The main thread takes the oldest event. *)
Definition take_event (s : Server) : option Server :=
  match sv_events s with
  | [] => None
  | e :: l => Some (handle_event e (set_events l s))
  end.

Inductive server_step : Server -> Server -> Prop :=
| st_packet sid req p0 s s' : HandlePacket D userDB p0 sid req s = Some s' -> server_step s s'
| st_login sid ok s : server_step s (OnLoginResult sid ok s)
| st_disconnect sid s : server_step s (Publish (SessionDisconnected sid) s)
| st_event s s' : take_event s = Some s' -> server_step s s'
| st_strand addr s s' : run_strand addr s = Some s' -> server_step s s'
| st_timer h s s' : fire_timer h s = Some s' -> server_step s s'
| st_answer i skills s s' : answer_load i skills s = Some s' -> server_step s s'
| st_destroy roomId s : server_step s (DestroyRoom roomId s).

Inductive server_reachable : Server -> Prop :=
| sr_init : server_reachable (Init userDB Server_new)
| sr_step s s' : server_reachable s -> server_step s s' -> server_reachable s'.

(** A player of a session. *)
Definition player_of (e : Env) (sid a : Z) : Prop := exists p, ev_players e !! a = Some p /\ _sessionId p = sid.

Record server_inv (s : Server) : Prop := mk_server_inv {
  si_lobby : NoDup (_lobbySessions s);
  si_rooms : forall id addr, _rooms s !! id = Some addr -> exists r, sv_heap s !! addr = Some r /\ _roomId r = id;
  si_addrs : forall addr r, sv_heap s !! addr = Some r -> rm_addr r = addr /\ addr < sv_nextAddr s;
  si_fresh : forall a, is_Some (ev_players (sv_env s) !! a) -> a < sv_nextAddr s;
  si_timers : 0 < ev_nextHandle (sv_env s) /\ (forall h, is_Some (ev_timers (sv_env s) !! h) -> h < ev_nextHandle (sv_env s)) /\
              (forall h addr, ev_timers (sv_env s) !! h = Some addr -> addr < sv_nextAddr s);
  si_reach : forall addr r, sv_heap s !! addr = Some r -> exists g, room_reachable D dis ((r, sv_env s), g);
  si_members : forall addr r sid a, sv_heap s !! addr = Some r -> rm_players r !! sid = Some a -> player_of (sv_env s) sid a;
  si_registered : forall sid a, sv_players s !! sid = Some a -> player_of (sv_env s) sid a;
  si_joining : forall sid a, RoomJoined sid a ∈ sv_events s -> player_of (sv_env s) sid a
}.

(** A step that leaves rooms, players and timers alone. *)
Lemma server_inv_lobby s s' :
  server_inv s -> sv_heap s' = sv_heap s -> _rooms s' = _rooms s -> sv_env s' = sv_env s -> sv_nextAddr s' = sv_nextAddr s ->
  NoDup (_lobbySessions s') ->
  (forall sid a, sv_players s' !! sid = Some a -> player_of (sv_env s) sid a) ->
  (forall sid a, RoomJoined sid a ∈ sv_events s' -> player_of (sv_env s) sid a) ->
  server_inv s'.
Proof. intros [] E1 E2 E3 E4 Hl Hp Hj. constructor; rewrite ?E1, ?E2, ?E3, ?E4; done. Qed.

(** A step outside the strand on one room. *)
Lemma server_inv_on_room s addr f :
  server_inv s ->
  (forall r, rm_addr (f r) = rm_addr r /\ _roomId (f r) = _roomId r /\ rm_players (f r) = rm_players r) ->
  (forall r e g, room_reachable D dis ((r, e), g) -> room_reachable D dis ((f r, e), g)) ->
  server_inv (on_room addr f s).
Proof.
  intros [Hl Hr Ha Hf Ht Hre Hm Hp Hj] Hkeep Hact. unfold on_room.
  assert (forall addr' r', alter f addr (sv_heap s) !! addr' = Some r' -> exists r, sv_heap s !! addr' = Some r /\ (r' = r \/ r' = f r)) as Hin.
  { intros addr' r'. destruct (decide (addr' = addr)) as [->|Hne].
    - rewrite lookup_alter_eq, fmap_Some. intros (r & ? & ->). exists r. auto.
    - rewrite lookup_alter_ne by done. intros ?. exists r'. auto. }
  constructor; cbn; try done.
  - intros id addr' (r & Hlk & Hid)%Hr. destruct (decide (addr' = addr)) as [->|Hne].
    + exists (f r). rewrite lookup_alter_eq, Hlk. split; [done|]. destruct (Hkeep r) as (_ & -> & _). done.
    + exists r. by rewrite lookup_alter_ne.
  - intros addr' r' (r & Hlk & [->| ->])%Hin; [by apply Ha|]. destruct (Hkeep r) as (-> & _ & _). by apply Ha.
  - intros addr' r' (r & Hlk & [->| ->])%Hin; destruct (Hre _ _ Hlk) as [g Hg]; exists g; [done|by apply Hact].
  - intros addr' r' sid a (r & Hlk & [->| ->])%Hin; [by apply (Hm addr')|]. destruct (Hkeep r) as (_ & _ & ->). by apply (Hm addr').
Qed.

Lemma reach_Post t r e g : postable t -> room_reachable D dis ((r, e), g) -> room_reachable D dis ((Post t r, e), g).
Proof. intros Ht Hr. eapply reach_act; [exact Hr|]. by apply (act_post D dis t (r, e)). Qed.

Lemma server_inv_post s addr t : server_inv s -> postable t -> server_inv (on_room addr (Post t) s).
Proof. intros Hs Ht. apply server_inv_on_room; [done|done|]. intros r e g. by apply reach_Post. Qed.

(** New players and rooms, and other rooms' timers, are no business of a room. *)
Lemma reach_others r e e' g : others (rm_addr r) e e' -> room_reachable D dis ((r, e), g) -> room_reachable D dis ((r, e'), g).
Proof. intros Ho Hr. eapply reach_act; [exact Hr|]. by apply (act_others D dis e' (r, e)). Qed.

Lemma server_inv_create s roomId title mapId db : server_inv s -> server_inv (CreateRoom roomId title mapId db s).
Proof.
  intros [Hl Hr Ha Hf (Hn & Ht & Hta) Hre Hm Hp Hj]. unfold CreateRoom.
  set (addr := sv_nextAddr s). set (e := sv_env s) in *. set (n := ev_nextHandle e) in *.
  assert (forall x, is_Some (sv_heap s !! x) -> x <> addr) as Hnew.
  { intros x [r Hx] ->. destruct (Ha _ _ Hx). unfold addr in *. lia. }
  assert (env_fresh addr e) as Hfresh.
  { split; [done|]. split; [done|]. intros h Hh. apply Hta in Hh. unfold addr in Hh. lia. }
  constructor; cbn; try done.
  - intros id addr'. destruct (decide (id = roomId)) as [->|Hne].
    + rewrite lookup_insert_eq. intros [= <-]. eexists. rewrite lookup_insert_eq. done.
    + rewrite lookup_insert_ne by done. intros (r & Hlk & Hid)%Hr. exists r. by rewrite lookup_insert_ne by (symmetry; apply Hnew; eauto).
  - intros addr' r. destruct (decide (addr' = addr)) as [->|Hne].
    + rewrite lookup_insert_eq. intros [= <-]. cbn. lia.
    + rewrite lookup_insert_ne by done. intros [? ?]%Ha. unfold addr. split; [done|lia].
  - intros a Hx%Hf. unfold addr. lia.
  - split; [lia|]. split.
    + intros h. destruct (decide (h = n)) as [->|Hne]; [lia|]. rewrite lookup_insert_ne by done. intros Hx%Ht. fold n in Hx. lia.
    + intros h addr'. destruct (decide (h = n)) as [->|Hne]; [rewrite lookup_insert_eq; intros [= <-]; lia|].
      rewrite lookup_insert_ne by done. intros Hx%Hta. unfold addr. lia.
  - intros addr' r. destruct (decide (addr' = addr)) as [->|Hne].
    + rewrite lookup_insert_eq. intros [= <-]. eexists. exact (reach_new D dis addr roomId mapId title db e Hfresh).
    + rewrite lookup_insert_ne by done. intros Hlk. destruct (Hre _ _ Hlk) as [g Hg]. exists g. eapply reach_others; [|exact Hg].
      destruct (Ha _ _ Hlk) as [Hra _]. split; [|split; cbn; [lia|]].
      * intros h. cbn. destruct (decide (h = n)) as [->|Hd]; [|by rewrite lookup_insert_ne].
        rewrite lookup_insert_eq. split; [congruence|]. intros Hh. assert (n < n) by (apply Ht; eauto). lia.
      * intros h. destruct (decide (h = n)) as [->|Hd]; [lia|]. rewrite lookup_insert_ne by done. intros Hx%Ht. fold n in Hx. lia.
  - intros addr' r sid a. destruct (decide (addr' = addr)) as [->|Hne]; [rewrite lookup_insert_eq; intros [= <-]; done|].
    rewrite lookup_insert_ne by done. intros Hlk Hsid. by apply (Hm _ _ _ _ Hlk).
Qed.

Lemma player_of_sess e sid a : player_of e sid a <-> (_sessionId <$> ev_players e) !! a = Some sid.
Proof. rewrite lookup_fmap, fmap_Some. unfold player_of. naive_solver. Qed.

Lemma server_inv_strand s addr s' : server_inv s -> run_strand addr s = Some s' -> server_inv s'.
Proof.
  intros [Hl Hr Ha Hf (Hn & Ht & Hta) Hre Hm Hp Hj]. unfold run_strand.
  destruct (sv_heap s !! addr) as [r|] eqn:Elk; [|discriminate]. cbn.
  unfold strand_step. cbn [fst]. destruct (rm_queue r) as [|t q] eqn:Eq; [discriminate|]. cbn.
  destruct (exec_task D dis t (set_queue q r, sv_env s)) as [[r' e']|] eqn:Ex; [|discriminate]. intros [= <-].
  pose proof (life_step_change _ _ _ (exec_task_life D dis t _ _ Ex)) as Hstep. destruct (Hre _ _ Elk) as [g Hg].
  pose proof (act_run D dis t q (r, sv_env s) (r', e') g Eq Ex) as Hact.
  set (v := view (set_queue q r, sv_env s)) in *. set (v' := view (r', e')) in *.
  destruct (life_change_keeps _ _ _ Hstep) as (Ka & Ki & Ks & _ & Kp). cbn in Ka, Ki, Ks.
  destruct (Ha _ _ Elk) as [Hra Hlt].
  assert (forall sid a, player_of (sv_env s) sid a <-> player_of e' sid a) as Hpl.
  { intros sid a. rewrite !player_of_sess. by rewrite Ks. }
  pose proof (reachable_inv D dis _ Hg) as [Lt [Ln Lf] _ _ _ _ _]. cbn [fst snd] in *.
  assert (forall addr', addr' <> addr -> others addr' (sv_env s) e') as Hoth.
  { intros addr' Hne. apply (life_change_timers t v v' addr' Lt Lf); [cbn; congruence|done]. }
  assert (room_reachable D dis ((r', e'), ghost_after t (view (r, sv_env s)) g)) as Hg' by (eapply reach_act; [exact Hg|exact Hact]).
  pose proof (reachable_inv D dis _ Hg') as [Lt' [Ln' Lf'] _ _ _ _ _]. cbn -[ghost_after] in Lt', Ln', Lf'.
  constructor; cbn; try done.
  - intros id addr' (r0 & Hlk & Hid)%Hr. destruct (decide (addr' = addr)) as [->|Hne].
    + exists r'. rewrite lookup_insert_eq. split; [done|]. congruence.
    + exists r0. by rewrite lookup_insert_ne.
  - intros addr' r0. destruct (decide (addr' = addr)) as [->|Hne].
    + rewrite lookup_insert_eq. intros [= <-]. split; [congruence|done].
    + rewrite lookup_insert_ne by done. apply Ha.
  - intros a [p Hpa]. destruct (proj2 (Hpl (_sessionId p) a)) as (p0 & ? & _); [by exists p|]. apply Hf. eauto.
  - split; [done|]. split; [done|]. intros h addr' Hh. destruct (decide (addr' = addr)) as [->|Hne]; [done|].
    destruct (Hoth _ Hne) as (Ho & _ & _). apply (Hta h). by apply Ho.
  - intros addr' r0. destruct (decide (addr' = addr)) as [->|Hne].
    + rewrite lookup_insert_eq. intros [= <-]. by eexists.
    + rewrite lookup_insert_ne by done. intros Hlk. destruct (Hre _ _ Hlk) as [g0 Hg0]. exists g0.
      eapply reach_others; [|exact Hg0]. destruct (Ha _ _ Hlk) as [-> _]. by apply Hoth.
  - intros addr' r0 sid a. rewrite <- Hpl. destruct (decide (addr' = addr)) as [->|Hne].
    + rewrite lookup_insert_eq. intros [= <-] Hsid. destruct (Kp sid a Hsid) as [Hold|Hs].
      * by apply (Hm _ _ _ _ Elk).
      * by apply player_of_sess.
    + rewrite lookup_insert_ne by done. intros Hlk Hsid. by apply (Hm _ _ _ _ Hlk).
  - intros sid a Hsid. apply Hpl. by apply Hp.
  - intros sid a Hin. apply Hpl. by apply Hj.
Qed.

Lemma server_inv_join s s' sid roomId p0 : server_inv s -> JoinRoomHandler D sid roomId p0 s = Some s' -> server_inv s'.
Proof.
  intros Hs. unfold JoinRoomHandler. destruct (GetRoom roomId s) as [addr|]; [|by intros [= <-]].
  destruct (GetPlayer sid s); [by intros [= <-]|]. destruct p0 as [p0|]; [|discriminate]. cbn [CreatePlayer mbind option_bind].
  destruct (match GetPlayerInfo D 1 with Some t => _ | None => _ end) as [hp speed].
  destruct (sv_heap s !! addr) as [r|]; [|discriminate]. cbn [mbind option_bind]. intros [= <-].
  set (p := SetName _ _). set (a := sv_nextAddr s).
  set (s1 := set_ids _ _ _). assert (_sessionId p = sid) as Hsid by done.
  assert (forall sid' a', player_of (sv_env s) sid' a' -> player_of (sv_env s1) sid' a') as Hpl.
  { intros sid' a' (q & Hq & Hqs). exists q. cbn. rewrite lookup_insert_ne; [done|].
    pose proof (si_fresh _ Hs a' ltac:(eauto)). unfold a. lia. }
  assert (server_inv s1) as Hs1.
  { destruct Hs as [Hl Hr Ha Hf (Hn & Ht & Hta) Hre Hm Hp Hj]. constructor; try done.
    - intros addr' r' [? ?]%Ha. cbn. split; [done|]. unfold a. lia.
    - intros a'. cbn. destruct (decide (a' = a)) as [->|Hne]; [lia|]. rewrite lookup_insert_ne by done. intros Hx%Hf. unfold a. lia.
    - split; [done|]. split; [done|]. intros h addr' Hh. cbn. apply Hta in Hh. unfold a. lia.
    - intros addr' r' Hlk. destruct (Hre _ _ Hlk) as [g Hg]. exists g. eapply reach_others; [|exact Hg]. repeat split; cbn; done || lia.
    - intros addr' r' sid' a' Hlk Hx. by apply Hpl, (Hm addr' r').
    - intros sid' a' Hx. by apply Hpl, Hp.
    - intros sid' a' Hx. by apply Hpl, Hj. }
  eapply server_inv_lobby; [apply (server_inv_post (reply sid (S_JoinRoom roomId (_mapId r)) s1) addr (TEnter a)); [|by repeat split]| | | | | | |];
    try reflexivity.
  - eapply server_inv_lobby; [exact Hs1|done|done|done|done|apply Hs1|apply Hs1|apply Hs1].
  - apply Hs1.
  - apply Hs1.
  - cbn. intros sid' a' [Hin|[= -> ->]%list_elem_of_singleton]%elem_of_app; [by apply (si_joining _ Hs1)|].
    exists p. cbn. by rewrite lookup_insert_eq.
Qed.

Lemma EnterLobby_NoDup sid s : NoDup (_lobbySessions s) -> NoDup (_lobbySessions (EnterLobby sid s)).
Proof.
  intros Hl. unfold EnterLobby. case_bool_decide as Hin; [done|]. cbn. apply NoDup_app. repeat split; [done| |apply NoDup_singleton].
  intros x Hx ->%list_elem_of_singleton. done.
Qed.

Lemma server_inv_enter_lobby sid s : server_inv s -> server_inv (EnterLobby sid s).
Proof.
  intros Hs. pose proof (EnterLobby_NoDup sid s (si_lobby _ Hs)) as Hl. unfold EnterLobby in *. case_bool_decide; [done|].
  eapply server_inv_lobby; try done; apply Hs.
Qed.

Lemma server_inv_leave_lobby sid s : server_inv s -> server_inv (LeaveLobby sid s).
Proof. intros Hs. eapply server_inv_lobby; try done; [apply NoDup_filter|..]; apply Hs. Qed.

Lemma server_inv_leave sid s : server_inv s -> server_inv (leave_and_unregister sid s).
Proof.
  intros Hs. unfold leave_and_unregister. destruct (GetPlayer sid s) as [a|]; [|done].
  set (s1 := match GetRoom _ s with Some _ => _ | None => _ end).
  assert (server_inv s1) as Hs1.
  { subst s1. destruct (GetRoom (GetRoomId a s) s) as [addr|]; [|done]. apply server_inv_post; [done|]. by repeat split. }
  eapply server_inv_lobby; try done; try apply Hs1. cbn. intros sid' a' [_ Hx]%lookup_delete_Some. by apply Hs1.
Qed.

Lemma server_inv_event e s : server_inv s -> (forall sid a, e = RoomJoined sid a -> player_of (sv_env s) sid a) -> server_inv (handle_event e s).
Proof.
  intros Hs He. destruct e as [sid a|sid|sid]; cbn [handle_event].
  - unfold HandleRoomJoined. eapply server_inv_lobby; [apply (server_inv_leave_lobby sid s Hs)|done..| | |].
    + apply (server_inv_leave_lobby sid s Hs).
    + cbn. intros sid' a'. destruct (decide (sid' = sid)) as [->|Hne]; [rewrite lookup_insert_eq; intros [= <-]; by apply He|].
      rewrite lookup_insert_ne by done. apply Hs.
    + apply Hs.
  - unfold HandleRoomLeft. by apply server_inv_enter_lobby, server_inv_leave.
  - unfold HandleSessionDisconnected. apply server_inv_leave. destruct (IsInLobby sid s); [by apply server_inv_leave_lobby|done].
Qed.

Lemma server_inv_reply sid r s : server_inv s -> server_inv (reply sid r s).
Proof. intros Hs. eapply server_inv_lobby; try done; apply Hs. Qed.

Lemma server_inv_own_room sid task s : (forall a, postable (task a)) -> server_inv s -> server_inv (to_own_room sid (fun a => Post (task a)) s).
Proof.
  intros Ht Hs. unfold to_own_room. destruct (GetPlayer sid s) as [a|]; [|done].
  destruct (GetRoom _ s); [|done]. by apply server_inv_post.
Qed.

Lemma server_step_inv s s' : server_inv s -> server_step s s' -> server_inv s'.
Proof.
  intros Hs Hst. destruct Hst as [sid req p0 s s' Hp|sid ok s|sid s|s s' Hev|addr s s' Hrun|h s s' Hh|i skills s s' Hi|roomId s].
  - destruct req; cbn in Hp; try (injection Hp as <-).
    + by apply server_inv_reply, server_inv_enter_lobby.
    + apply server_inv_reply, server_inv_create. eapply server_inv_lobby; try done; apply Hs.
    + by apply server_inv_reply.
    + by eapply server_inv_join.
    + apply server_inv_reply. eapply server_inv_lobby; try done; try apply Hs.
      intros sid' a [Hin|Hin]%elem_of_app; [by apply (si_joining _ Hs)|]. apply list_elem_of_singleton in Hin. discriminate.
    + apply (server_inv_own_room sid (fun _ => TReady sid)); [|done]. intros ?. by repeat split.
    + apply (server_inv_own_room sid (fun a => TInput a clientTick dx dy)); [|done]. intros ?. by repeat split.
    + apply (server_inv_own_room sid (fun a => TSelect a optionIndex)); [|done]. intros ?. by repeat split.
    + by apply server_inv_reply.
  - unfold OnLoginResult. destruct ok; (destruct (GetRoom _ _); [apply server_inv_reply|]); try done; by apply server_inv_enter_lobby.
  - eapply server_inv_lobby; try done; try apply Hs.
    intros sid' a [Hin|Hin]%elem_of_app; [by apply (si_joining _ Hs)|]. apply list_elem_of_singleton in Hin. discriminate.
  - unfold take_event in Hev. destruct (sv_events s) as [|e l] eqn:E; [discriminate|]. injection Hev as <-.
    apply server_inv_event.
    + eapply server_inv_lobby; try done; try apply Hs. cbn. intros sid a Hin. apply (si_joining _ Hs). rewrite E. by right.
    + intros sid a ->. cbn. apply (si_joining _ Hs). rewrite E. left.
  - by eapply server_inv_strand.
  - unfold fire_timer in Hh. destruct (ev_timers _ !! h) as [addr|]; [|discriminate]. injection Hh as <-.
    apply server_inv_on_room; [done| |].
    + intros r. unfold OnTimer. by destruct (_isUpdating _).
    + intros r e g Hr. eapply reach_act; [exact Hr|]. apply (act_timer D dis (r, e)).
  - unfold answer_load in Hi. destruct (ev_loads _ !! i) as [[addr a]|]; [|discriminate]. injection Hi as <-.
    apply server_inv_post; [|by repeat split]. destruct Hs as [Hl Hr Ha Hf (Hn & Ht & Hta) Hre Hm Hp Hj]. constructor; try done.
    intros addr' r Hlk. destruct (Hre _ _ Hlk) as [g Hg]. exists g. eapply reach_others; [|exact Hg]. repeat split; cbn; done || lia.
  - unfold DestroyRoom. destruct (roomId =? 1); [done|]. destruct (_rooms s !! roomId) as [addr|]; [|done].
    assert (server_inv (on_room addr Stop s)) as [Hl Hr Ha Hf Ht Hre Hm Hp Hj].
    { apply server_inv_on_room; [done| |].
      - intros r. unfold Stop. by destruct (_isStopping _).
      - intros r e g Hr. eapply reach_act; [exact Hr|]. apply (act_stop D dis (r, e)). }
    constructor; try done. cbn. intros id addr' [_ Hx]%lookup_delete_Some. by apply Hr.
Qed.

Lemma server_reachable_inv s : server_reachable s -> server_inv s.
Proof.
  induction 1 as [|s s' _ IH Hst]; [|by eapply server_step_inv].
  unfold Init. rewrite bool_decide_true by done. apply server_inv_create.
  constructor; try done; cbn; try (by intros ? []); try (intros; set_solver).
  - constructor.
  - split; [lia|]. split; [|done]. by intros h [].
Qed.

(** At every moment of every run of the server, with packets, logins,
    disconnections, strands, timers and database answers in any order: no session is
    twice in the lobby; every room the manager lists is the room object with that id;
    every session a room or the manager has is the session of the player it is mapped
    to; and every room, with what all other rooms do in between, is in a state of a
    room on its own, so that the invariants of the room's life cycle hold for all. *)
Theorem server_consistent s :
  server_reachable s ->
  NoDup (_lobbySessions s) /\
  (forall id addr, _rooms s !! id = Some addr -> exists r, sv_heap s !! addr = Some r /\ _roomId r = id /\ rm_addr r = addr) /\
  (forall sid a, sv_players s !! sid = Some a -> player_of (sv_env s) sid a) /\
  (forall addr r sid a, sv_heap s !! addr = Some r -> rm_players r !! sid = Some a -> player_of (sv_env s) sid a) /\
  (forall addr r, sv_heap s !! addr = Some r -> exists g, room_reachable D dis ((r, sv_env s), g)).
Proof.
  intros Hs%server_reachable_inv. split; [apply Hs|]. split; [|split; [apply Hs|split; apply Hs]].
  intros id addr (r & Hr & Hid)%(si_rooms _ Hs). exists r. split; [done|]. split; [done|]. by apply (si_addrs _ Hs).
Qed.

(** [n] tasks of one strand. *)
Fixpoint drain (n : nat) (addr : Z) (s : Server) : option Server :=
  match n with O => Some s | S n => s ← run_strand addr s; drain n addr s end.

Lemma drain_app n m addr s : drain (n + m) addr s = (s ← drain n addr s; drain m addr s).
Proof. revert s. induction n as [|n IH]; intros s; [done|]. cbn. destruct (run_strand addr s); [apply IH|done]. Qed.

(** A strand with tasks runs the first, if it can, and appends what it posts. *)
Lemma run_strand_spec addr s r t q s' :
  sv_heap s !! addr = Some r -> rm_queue r = t :: q -> run_strand addr s = Some s' ->
  exists r' l, sv_heap s' !! addr = Some r' /\ rm_queue r' = q ++ l /\
    sv_players s' = sv_players s /\ _lobbySessions s' = _lobbySessions s /\
    (forall sid, t = TLeave sid -> rm_players r' !! sid = None).
Proof.
  intros Hlk Hq. unfold run_strand, strand_step. rewrite Hlk. cbn. rewrite Hq.
  destruct (exec_task D dis t (set_queue q r, sv_env s)) as [[r' e']|] eqn:Ex; [|discriminate]. intros [= <-].
  pose proof (life_step_change _ _ _ (exec_task_life D dis t _ _ Ex)) as Hst.
  destruct (life_change_keeps _ _ _ Hst) as (_ & _ & _ & (l & Hl) & _). cbn in Hl.
  exists r', l. cbn. rewrite lookup_insert_eq. repeat split; try done.
  intros sid Ht. exact (life_change_leave _ _ _ Hst sid Ht).
Qed.

(** A task that is always defined does run. *)
Lemma run_strand_runs addr s r t q :
  sv_heap s !! addr = Some r -> rm_queue r = t :: q -> may_be_undefined t = false -> is_Some (run_strand addr s).
Proof.
  intros Hlk Hq Ht. unfold run_strand, strand_step. rewrite Hlk. cbn. rewrite Hq.
  destruct (exec_task_defined D dis t (set_queue q r, sv_env s) Ht) as [[r' e'] ->]. by eexists.
Qed.

Lemma drain_spec addr n : forall s r s', sv_heap s !! addr = Some r -> (n <= length (rm_queue r))%nat -> drain n addr s = Some s' ->
  exists r' l, sv_heap s' !! addr = Some r' /\ rm_queue r' = drop n (rm_queue r) ++ l /\
    sv_players s' = sv_players s /\ _lobbySessions s' = _lobbySessions s.
Proof.
  induction n as [|n IH]; intros s r s' Hlk Hn; [intros [= <-]; exists r, []; by rewrite app_nil_r|].
  destruct (rm_queue r) as [|t q] eqn:Eq; [cbn in Hn; lia|]. cbn in Hn. intros (s1 & Hrun & Hd)%bind_Some.
  destruct (run_strand_spec addr s r t q s1 Hlk Eq Hrun) as (r1 & l1 & Hlk1 & Hq1 & Hp1 & Hl1 & _).
  destruct (IH s1 r1 s' Hlk1) as (r2 & l2 & Hlk2 & Hq2 & Hp2 & Hl2); [rewrite Hq1, length_app; lia|done|].
  exists r2, (l1 ++ l2). repeat split; try done; try congruence.
  rewrite Hq2, Hq1, drop_app_le by lia. by rewrite app_assoc.
Qed.

(** The room that the manager tells of a disconnection: that of the registered player,
    if it knows its room by then. *)
Definition registered_room (sid : Z) (s : Server) : option Z := a ← sv_players s !! sid; _rooms s !! GetRoomId a s.

(** C34: when the disconnection of a session is handled, the manager forgets the
    session at once, in the lobby and among the players.  If the session's player is
    registered and knows its room by then, that room's strand gets the task to let it
    go, no other room changes, and once the tasks that were waiting in that strand have
    run, whatever they are, this one runs and the player is out of the room.  Otherwise
    (a session without a player, or a player whose entering has not run yet) no room
    is told at all. *)
Theorem disconnect_cleans_up s sid :
  let s1 := HandleSessionDisconnected sid s in
  sid ∉ _lobbySessions s1 /\ sv_players s1 !! sid = None /\
  match registered_room sid s with
  | None => sv_heap s1 = sv_heap s
  | Some addr =>
      (forall addr', addr' <> addr -> sv_heap s1 !! addr' = sv_heap s !! addr') /\
      forall r, sv_heap s !! addr = Some r ->
        sv_heap s1 !! addr = Some (Post (TLeave sid) r) /\
        forall s2, drain (length (rm_queue r)) addr s1 = Some s2 ->
          exists s3 r3, run_strand addr s2 = Some s3 /\ sv_heap s3 !! addr = Some r3 /\
            rm_players r3 !! sid = None /\ sv_players s3 !! sid = None /\ sid ∉ _lobbySessions s3
  end.
Proof.
  cbn zeta. unfold HandleSessionDisconnected, registered_room.
  set (s0 := if IsInLobby sid s then LeaveLobby sid s else s).
  assert (sid ∉ _lobbySessions s0) as Hnl.
  { subst s0. unfold IsInLobby. case_bool_decide; [|done]. cbn. intros [Hne _]%list_elem_of_filter. done. }
  assert (sv_players s0 = sv_players s /\ _rooms s0 = _rooms s /\ sv_heap s0 = sv_heap s /\ sv_env s0 = sv_env s) as (E1 & E2 & E3 & E4).
  { subst s0. by destruct (IsInLobby sid s). }
  unfold leave_and_unregister, GetPlayer, GetRoom, GetRoomId in *. rewrite E1.
  destruct (sv_players s !! sid) as [a|] eqn:Ha; cbn [mbind option_bind]; [|split_and!; [done|cbn; congruence|done]].
  rewrite E2, E4. destruct (_rooms s !! _) as [addr|] eqn:Hroom; [|split_and!; [done|cbn; by rewrite E1, lookup_delete_eq|done]].
  set (s1 := UnregisterPlayer sid _).
  assert (sv_players s1 !! sid = None) as Hp1 by (cbn; by rewrite E1, lookup_delete_eq).
  assert (sid ∉ _lobbySessions s1) as Hl1 by done.
  split; [done|]. split; [done|]. split; [intros addr' Hne; cbn; by rewrite E3, lookup_alter_ne|]. intros r Hlk.
  assert (sv_heap s1 !! addr = Some (Post (TLeave sid) r)) as Hlk1 by (cbn; by rewrite E3, lookup_alter_eq, Hlk).
  split; [done|]. intros s2 Hd.
  destruct (drain_spec addr (length (rm_queue r)) s1 _ s2 Hlk1) as (r2 & l & Hlk2 & Hq & Hp2 & Hl2); [cbn; rewrite length_app; lia|done|].
  cbn in Hq. rewrite drop_app_length in Hq.
  destruct (run_strand_runs addr s2 r2 (TLeave sid) l Hlk2 Hq) as [s3 Hrun]; [done|].
  destruct (run_strand_spec addr s2 r2 (TLeave sid) l s3 Hlk2 Hq Hrun) as (r3 & l3 & Hlk3 & _ & Hp3 & Hl3 & Hgone).
  exists s3, r3. split; [done|]. split; [done|]. split; [by apply Hgone|]. rewrite Hp3, Hp2, Hl3, Hl2. done.
Qed.

Lemma life_change_enter t v v' : life_change t v v' -> forall a sid, t = TEnter a -> v_sess v !! a = Some sid ->
  v_players v' !! sid = Some a /\ exists l, v_queue v' = v_queue v ++ l /\ TLeave sid ∉ l.
Proof.
  destruct 1 as [t v _ _ _ Hen _|a s l v Hsid Hl|a skills v|s a v Hsid|t v Ht|v|v|w v|l v Hl]; intros a' sid E Hs; try discriminate E.
  - by destruct (Hen a' sid).
  - injection E as ->. rewrite Hs in Hsid. injection Hsid as ->. split; [apply lookup_insert_eq|].
    exists l. split; [done|]. destruct Hl as [->| ->]; set_solver.
  - by destruct Ht as [->|[? ->]].
Qed.

(** A session that disconnects after its join was handled but before the room's
    strand has run the entering leaves its player in the room for good: the player
    does not know its room yet, so the manager forgets the session without telling any
    room, and the strand then lets the player in. *)
Theorem early_disconnect_leaves_ghost s sid a addr r q :
  sv_players s !! sid = Some a -> player_of (sv_env s) sid a -> GetRoomId a s = 0 -> _rooms s !! 0 = None ->
  sv_heap s !! addr = Some r -> rm_queue r = TEnter a :: q -> TLeave sid ∉ q ->
  exists s2 r2 l, run_strand addr (HandleSessionDisconnected sid s) = Some s2 /\ sv_heap s2 !! addr = Some r2 /\
    rm_players r2 !! sid = Some a /\ sv_players s2 !! sid = None /\ sid ∉ _lobbySessions s2 /\
    rm_queue r2 = q ++ l /\ TLeave sid ∉ q ++ l.
Proof.
  intros Ha Hpl Hid H0r Hlk Hq Hnq. unfold HandleSessionDisconnected.
  set (s0 := if IsInLobby sid s then LeaveLobby sid s else s).
  assert (sid ∉ _lobbySessions s0) as Hnl.
  { subst s0. unfold IsInLobby. case_bool_decide; [|done]. cbn. intros [Hne _]%list_elem_of_filter. done. }
  assert (sv_players s0 = sv_players s /\ _rooms s0 = _rooms s /\ sv_heap s0 = sv_heap s /\ sv_env s0 = sv_env s) as (E1 & E2 & E3 & E4).
  { subst s0. by destruct (IsInLobby sid s). }
  unfold leave_and_unregister, GetPlayer, GetRoom. rewrite E1, Ha.
  assert (GetRoomId a s0 = 0) as -> by (unfold GetRoomId in *; by rewrite E4). rewrite E2, H0r.
  unfold run_strand. cbn [sv_heap UnregisterPlayer set_registry sv_env]. rewrite E3, Hlk. cbn [mbind option_bind].
  unfold strand_step. cbn [fst snd]. rewrite Hq, E4.
  destruct (exec_task_defined D dis (TEnter a) (set_queue q r, sv_env s)) as [[r2 e2] Ex]; [done|]. rewrite Ex. cbn [mbind option_bind].
  pose proof (life_step_change _ _ _ (exec_task_life D dis _ _ _ Ex)) as Hst.
  destruct (life_change_enter _ _ _ Hst a sid) as [Hin (l & Hl & Hnl2)]; [done|by apply player_of_sess|].
  eexists _, r2, l. split; [done|]. cbn. rewrite lookup_insert_eq, E1, lookup_delete_eq.
  repeat split; try done. intros [?|?]%elem_of_app; done.
Qed.

End System.

(** ** Runs *)

#[local] Existing Instance idle_frame.
#[local] Existing Instance idle_frame_ok.

Abbreviation packet := (fun sid req s => default s (HandlePacket whip_data false (Some (Player_new 0 0)) sid req s)).
Abbreviation event := (fun s => default s (take_event s)).
Abbreviation strand := (fun addr s => default s (run_strand (H := any_order) whip_data demo_dis addr s)).
Abbreviation reachable := (server_reachable (H := any_order) whip_data demo_dis false).

Lemma packet_reachable sid req s : reachable s -> reachable (packet sid req s).
Proof.
  intros Hs. cbn beta. destruct (HandlePacket _ _ _ _ _ s) as [s'|] eqn:E; [|done].
  eapply sr_step; [exact Hs|]. eapply st_packet, E.
Qed.

Lemma event_reachable s : reachable s -> reachable (event s).
Proof. intros Hs. cbn beta. destruct (take_event s) as [s'|] eqn:E; [|done]. eapply sr_step; [exact Hs|]. by apply st_event. Qed.

Lemma strand_reachable addr s : reachable s -> reachable (strand addr s).
Proof.
  intros Hs. cbn beta. destruct (run_strand _ _ addr s) as [s'|] eqn:E; [|done]. eapply sr_step; [exact Hs|]. by eapply st_strand.
Qed.

Definition opened_server : Server := Init false Server_new.

(** Session 7 joins room 1; the manager knows it, the strand has not run. *)
Definition joining : Server := event (packet 7 (C_JoinRoom 1) opened_server).

(** The strand has run: the player is in the room and the game has started. *)
Definition joined : Server := strand 1 (strand 1 joining).

Lemma joined_reachable : reachable joined.
Proof. apply strand_reachable, strand_reachable, event_reachable, packet_reachable, sr_init. Qed.

Lemma server_consistent_witness :
  reachable joined /\ sv_players joined !! 7 = Some 2 /\ player_of (sv_env joined) 7 2.
Proof.
  split; [exact joined_reachable|]. assert (sv_players joined !! 7 = Some 2) as Hp by (vm_compute; reflexivity).
  split; [exact Hp|].
  exact (proj1 (proj2 (proj2 (server_consistent (H := any_order) whip_data demo_dis false joined joined_reachable))) 7 2 Hp).
Defined.

Definition room_1 (s : Server) : Room := default (Room_new 0 0 0 EmptyString false) (sv_heap s !! 1).

Lemma heap_room_1 s : bool_decide (is_Some (sv_heap s !! 1)) = true -> sv_heap s !! 1 = Some (room_1 s).
Proof. intros [r Hr]%bool_decide_eq_true. unfold room_1. by rewrite Hr. Qed.

(** Session 7 disconnects while the timer's update waits in the strand of its room. *)
Definition leaving : Server := default joined (fire_timer 1 joined).

Lemma disconnect_cleans_up_witness :
  rm_players (room_1 leaving) !! 7 = Some 2 /\ rm_queue (room_1 leaving) = [TUpdate] /\
  exists s2 s3 r3, drain (H := any_order) whip_data demo_dis 1 1 (HandleSessionDisconnected 7 leaving) = Some s2 /\
    run_strand (H := any_order) whip_data demo_dis 1 s2 = Some s3 /\ sv_heap s3 !! 1 = Some r3 /\ rm_players r3 !! 7 = None.
Proof.
  split; [vm_compute; reflexivity|]. assert (rm_queue (room_1 leaving) = [TUpdate]) as Hq by (vm_compute; reflexivity). split; [exact Hq|].
  destruct (disconnect_cleans_up (H := any_order) whip_data demo_dis leaving 7) as (_ & _ & Hd).
  assert (registered_room 7 leaving = Some 1) as Hreg by (vm_compute; reflexivity). rewrite Hreg in Hd. destruct Hd as [_ Hd].
  assert (sv_heap leaving !! 1 = Some (room_1 leaving)) as Hlk by (apply heap_room_1; vm_compute; reflexivity).
  destruct (Hd (room_1 leaving) Hlk) as [_ Hrun]. rewrite Hq in Hrun. cbn [length] in Hrun.
  destruct (drain (H := any_order) whip_data demo_dis 1 1 (HandleSessionDisconnected 7 leaving)) as [s2|] eqn:E.
  - destruct (Hrun s2 eq_refl) as (s3 & r3 & E3 & Hr3 & Hn & _). exists s2, s3, r3.
    split; [reflexivity|]. split; [exact E3|]. split; [exact Hr3|exact Hn].
  - exfalso. apply (f_equal (fun o => match o with Some _ => true | None => false end)) in E. vm_compute in E. discriminate E.
Defined.

Lemma early_disconnect_leaves_ghost_witness :
  reachable joining /\
  exists s2 r2, run_strand (H := any_order) whip_data demo_dis 1 (HandleSessionDisconnected 7 joining) = Some s2 /\
    sv_heap s2 !! 1 = Some r2 /\ rm_players r2 !! 7 = Some 2 /\ sv_players s2 !! 7 = None.
Proof.
  split; [apply event_reachable, packet_reachable, sr_init|].
  destruct (early_disconnect_leaves_ghost (H := any_order) whip_data demo_dis joining 7 2 1 (room_1 joining) [])
    as (s2 & r2 & _ & Hrun & Hr & Hp & Hs & _);
    [vm_compute; reflexivity|eexists; split; vm_compute; reflexivity|vm_compute; reflexivity|vm_compute; reflexivity
    |apply heap_room_1; vm_compute; reflexivity|vm_compute; reflexivity|apply not_elem_of_nil|].
  exists s2, r2. split; [exact Hrun|]. split; [exact Hr|]. split; [exact Hp|exact Hs].
Defined.

(** Two joins before the first one's event is handled: the session plays in two
    rooms, and leaves only one of them when it disconnects. *)
Definition twice_joined : Server :=
  let s := packet 7 (C_CreateRoom EmptyString 1) opened_server in
  let s := packet 7 (C_JoinRoom 2) (packet 7 (C_JoinRoom 1) s) in
  let s := strand 2 (strand 1 (event (event s))) in
  strand 2 (strand 2 (strand 1 (event (Publish (SessionDisconnected 7) s)))).

Lemma double_join_stays : rm_players (room_1 twice_joined) !! 7 = Some 3 /\ sv_players twice_joined = ∅ /\ sv_events twice_joined = [].
Proof. repeat split; vm_compute; reflexivity. Qed.

(** The room list says at most four; a fifth session joins all the same. *)
Lemma fifth_player_joins :
  let s := foldl (fun s sid => strand 1 (strand 1 (event (packet sid (C_JoinRoom 1) s)))) opened_server [1; 2; 3; 4; 5] in
  map room_info (GetAllRooms s) = [mkRoomInfo 1 5 4 true "Default Room" 1].
Proof. vm_compute. reflexivity. Qed.

(** A session that never logged in is let into the lobby by the answer to its
    leaving a room, and is then known to the ping handler. *)
Lemma lobby_without_login :
  let s := packet 9 (C_Ping 5) (event (packet 9 C_LeaveRoom opened_server)) in
  IsInLobby 9 s = true /\ sv_sent s = [(9, S_LeaveRoom); (9, S_Pong 5)].
Proof. split; vm_compute; reflexivity. Qed.

(** An empty pool is a null pointer in the handler. *)
Lemma join_with_empty_pool sid s addr :
  _rooms s !! 1 = Some addr -> sv_players s !! sid = None -> HandlePacket whip_data false None sid (C_JoinRoom 1) s = None.
Proof. intros Hr Hp. cbn. unfold JoinRoomHandler, GetRoom, GetPlayer. by rewrite Hr, Hp. Qed.
