(* ===== verification/Commands.v ===== *)
(** * Commands: the chat, its commands and the server's console

    Models src/Examples/VampireSurvivor/Server/Game/CommandManager.cpp and .h,
    Core/Handlers/Game/ChatHandler.cpp, and of Core/ServerApp.cpp the console's lines and
    the subscriber of the lobby chat.

    A line is split into words and its numbers are read as the Standard Library of C++
    does it (Text), and the command is looked up by its name.  A command
    acts on the player and its room directly, on the main thread (as one step here), or
    posts a task to the room's strand.  Nothing is thrown: every [catch] of the source is
    the branch of an option.  A command is [None] where it does not return: the
    experience given by [/levelup] overflows or its loop does not end. *)

From Stdlib Require Import Ascii.
From stdpp Require Import base strings pretty gmap option list.
From S2P Require Import Prelude Text Float32 GameData Inventory Entity Player Room Lobby.

(** ** The commands *)

Record CommandContext := mkContext { cc_sessionId : Z; cc_roomId : Z; cc_isGM : bool }.

Definition FromServer (ctx : CommandContext) : bool := cc_sessionId ctx =? 0.

Definition CommandHandler := CommandContext -> list string -> Server -> option Server.

Section Commands.
Context `{IterationOrder} (D : DataManager) (dis : nat -> Z -> Z).

(** An operation on a player, with the room it is in (if the manager still has it). *)
Definition act_on_player (a : Z) (f : Player -> option Room -> option (Player * option Room)) (s : Server) : option Server :=
  match ev_players (sv_env s) !! a with
  | None => Some s
  | Some p =>
      let addr := GetRoom (_currentRoomId p) s in
      '(p, room) ← f p (addr ≫= fun x => sv_heap s !! x);
      let s := set_env (set_heap (<[a := p]> (ev_players (sv_env s))) (sv_env s)) s in
      Some match addr, room with
           | Some x, Some r => set_rooms (<[x := r]> (sv_heap s)) (_rooms s) s
           | _, _ => s
           end
  end.

(** The player of the session that sent the command. *)
Definition act_on_own (ctx : CommandContext) (f : Player -> option Room -> option (Player * option Room)) (s : Server) : option Server :=
  match GetPlayer (cc_sessionId ctx) s with
  | Some a => act_on_player a f s
  | None => Some s
  end.

Definition on_all_rooms (f : Room -> Room) (s : Server) : Server :=
  foldl (fun s r => on_room (rm_addr r) f s) s (GetAllRooms s).

Definition on_room_of (ctx : CommandContext) (f : Room -> Room) (s : Server) : Server :=
  match GetRoom (cc_roomId ctx) s with Some addr => on_room addr f s | None => s end.

Definition levelup_command : CommandHandler := fun ctx args s =>
  let exp := match args with x :: _ => default 100 (stoi x) | [] => 100 end in
  if FromServer ctx then Some (on_all_rooms (DebugAddExpToAll exp) s)
  else act_on_own ctx (AddExp D dis exp) s.

Definition spawn_command : CommandHandler := fun ctx args s =>
  match args with
  | x :: y :: _ =>
      match stoi x, stoi y with
      | Some id, Some count => Some (on_room_of ctx (DebugSpawnMonster id count) s)
      | _, _ => Some s
      end
  | _ => Some s
  end.

Definition god_command : CommandHandler := fun ctx args s =>
  if FromServer ctx then Some (on_all_rooms DebugToggleGodMode s)
  else act_on_own ctx (fun p room => Some (SetGodMode (negb (_godMode p)) p, room)) s.

(** What the four inventory commands do after their change. *)
Definition refresh_inventory (p : Player) (room : option Room) : Player * option Room :=
  match room with
  | Some _ => let '(p, room) := RefreshInventoryEffects D p room in (p, SyncInventory p <$> room)
  | None => (p, None)
  end.

(** [change] says whether it did something: the add commands stop if it did not. *)
Definition inventory_command (change : Z -> PlayerInventory -> bool * PlayerInventory) : CommandHandler := fun ctx args s =>
  match args with
  | [] => Some s
  | x :: _ =>
      if FromServer ctx then Some s
      else match stoi x with
           | None => Some s
           | Some id =>
               act_on_own ctx (fun p room =>
                 let '(changed, inv) := change id (_inventory p) in
                 let p := set_inventory inv p in
                 Some (if changed : bool then refresh_inventory p room else (p, room))) s
           end
  end.

Definition add_weapon_command : CommandHandler := inventory_command (AddOrUpgradeWeapon D).
Definition remove_weapon_command : CommandHandler := inventory_command (fun id inv => (true, RemoveWeapon id inv)).
Definition add_passive_command : CommandHandler := inventory_command (AddOrUpgradePassive D).
Definition remove_passive_command : CommandHandler := inventory_command (fun id inv => (true, RemovePassive id inv)).

Definition ai_command : CommandHandler := fun ctx args s =>
  match args with
  | name :: _ => Some (on_room_of ctx (SetMonsterStrategy name) s)
  | [] => Some s
  end.

Definition RegisterCommand (command : string) (handler : CommandHandler) (m : gmap string CommandHandler) : gmap string CommandHandler :=
  <[command := handler]> m.

(** [CommandManager::Init]. *)
Definition commands : gmap string CommandHandler :=
  RegisterCommand "/ai" ai_command
  (RegisterCommand "/remove_passive" remove_passive_command
  (RegisterCommand "/add_passive" add_passive_command
  (RegisterCommand "/remove_weapon" remove_weapon_command
  (RegisterCommand "/add_weapon" add_weapon_command
  (RegisterCommand "/god" god_command
  (RegisterCommand "/spawn" spawn_command
  (RegisterCommand "/levelup" levelup_command ∅))))))).

(** [CommandManager::Execute]. *)
Definition Execute_command (ctx : CommandContext) (line : string) (s : Server) : option Server :=
  match line with
  | String "/" _ =>
      match words line with
      | cmd :: args => match commands !! cmd with Some handler => handler ctx args s | None => Some s end
      | [] => Some s
      end
  | _ => Some s
  end.

(** ** The chat *)

(** The JSON object of the lobby chat: ["p"] and ["m"]. *)
Record LobbyMessage := mkLobbyMessage { lm_p : Z; lm_m : string }.

(** The server, and what was published to the lobby chat. *)
Record Program := mkProgram { pr_server : Server; pr_bus : list LobbyMessage }.

Definition starts_with_slash (msg : string) : bool := match msg with String "/" _ => true | _ => false end.

Definition ChatHandler (sid : Z) (msg : string) (x : Program) : option Program :=
  let s := pr_server x in
  if IsInLobby sid s then Some (mkProgram s (pr_bus x ++ [mkLobbyMessage (i32 sid) msg]))
  else
    match GetPlayer sid s with
    | None => Some x
    | Some a =>
        if starts_with_slash msg then
          s ← Execute_command (mkContext sid (GetRoomId a s) true) msg s;
          Some (mkProgram (reply sid (S_Chat 0 ("Command processed: " +:+ msg)) s) (pr_bus x))
        else Some (mkProgram (reply sid (S_Chat (i32 sid) msg) s) (pr_bus x))
    end.

(** [RoomManager::BroadcastPacketToLobby] of the subscriber's packet. *)
Definition BroadcastToLobby (m : LobbyMessage) (s : Server) : Server :=
  foldl (fun s sid => reply sid (S_Chat (lm_p m) (lm_m m)) s) s (_lobbySessions s).

(** A command of the console, whose arguments [ServerApp] joins again. *)
Definition console_command (cmd : string) (args : list string) (s : Server) : option Server :=
  Execute_command (mkContext 0 1 true) (join_args cmd args) s.

End Commands.

(** ** What a command may change *)

(** A room after a command: tasks were posted, objects changed and packets sent. *)
Definition commanded (r r' : Room) : Prop :=
  (exists l, core r' = (rm_addr r, _roomId r, rm_userDB r, rm_players r, rm_life r, rm_queue r ++ l) /\ Forall postable l) /\
  rm_out r `prefix_of` rm_out r'.

(** ... and one that only got tasks. *)
Definition posted (r r' : Room) : Prop := exists l, r' = set_queue (rm_queue r ++ l) r /\ Forall postable l.

Definition rooms_related (R : Z -> Room -> Room -> Prop) (h h' : gmap Z Room) : Prop :=
  forall addr, option_relation (R addr) (fun _ => False) (fun _ => False) (h !! addr) (h' !! addr).

(** [own]: the player a command may change; [mine]: the room that player is in;
    [reach]: the rooms that may get tasks. *)
Record Scope := mkScope { sc_own : option Z; sc_mine : option Z; sc_reach : Z -> Prop }.

(** The room that player is in can change as a whole, the rooms in reach by tasks, and
    the others not at all. *)
Definition room_change (sc : Scope) (addr : Z) (r r' : Room) : Prop :=
  commanded r r' /\ (sc_mine sc <> Some addr -> posted r r') /\ (sc_mine sc <> Some addr -> ~ sc_reach sc addr -> r' = r).

(** The server after a command. *)
Record command_effect (sc : Scope) (s s' : Server) : Prop := mk_effect {
  ce_manager : (_rooms s', sv_players s', _lobbySessions s', sv_events s', sv_nextRoomId s', sv_nextAddr s', sv_sent s') =
               (_rooms s, sv_players s, _lobbySessions s, sv_events s, sv_nextRoomId s, sv_nextAddr s, sv_sent s);
  ce_env : (ev_timers (sv_env s'), ev_nextHandle (sv_env s'), ev_loads (sv_env s')) =
           (ev_timers (sv_env s), ev_nextHandle (sv_env s), ev_loads (sv_env s));
  ce_players : forall a, sc_own sc <> Some a -> ev_players (sv_env s') !! a = ev_players (sv_env s) !! a;
  ce_sessions : _sessionId <$> ev_players (sv_env s') = _sessionId <$> ev_players (sv_env s);
  ce_rooms : rooms_related (room_change sc) (sv_heap s) (sv_heap s')
}.

Lemma posted_refl r : posted r r.
Proof. exists []. rewrite app_nil_r. split; [by destruct r|done]. Qed.

Lemma posted_trans r1 r2 r3 : posted r1 r2 -> posted r2 r3 -> posted r1 r3.
Proof.
  intros (l1 & -> & H1) (l2 & -> & H2). exists (l1 ++ l2). split; [|by apply Forall_app].
  unfold set_queue; cbn. by rewrite app_assoc.
Qed.

Lemma posted_commanded r r' : posted r r' -> commanded r r'.
Proof. intros (l & -> & Hl). split; [by exists l|done]. Qed.

Lemma posted_post t r : postable t -> posted r (Post t r).
Proof. intros Ht. exists [t]. split; [done|]. by apply Forall_singleton. Qed.

Lemma commanded_trans r1 r2 r3 : commanded r1 r2 -> commanded r2 r3 -> commanded r1 r3.
Proof.
  intros [(l1 & E1 & H1) O1] [(l2 & E2 & H2) O2]. split; [|by etransitivity]. exists (l1 ++ l2). split; [|by apply Forall_app].
  unfold core in E1. injection E1 as A1 A2 A3 A4 A5 A6. by rewrite E2, A1, A2, A3, A4, A5, A6, app_assoc.
Qed.

Lemma commanded_quiet r r' : core r' = core r -> rm_out r `prefix_of` rm_out r' -> commanded r r'.
Proof. intros E Ho. split; [|done]. exists []. by rewrite app_nil_r, E. Qed.

Lemma room_change_refl sc addr r : room_change sc addr r r.
Proof. split; [apply posted_commanded, posted_refl|]. split; [intros; apply posted_refl|done]. Qed.

Lemma room_change_trans sc addr r1 r2 r3 : room_change sc addr r1 r2 -> room_change sc addr r2 r3 -> room_change sc addr r1 r3.
Proof.
  intros (A1 & A2 & A3) (B1 & B2 & B3). split; [by eapply commanded_trans|].
  split; [intros Hm; eapply posted_trans; auto|]. intros Hm Hr. by rewrite B3, A3.
Qed.

Lemma rooms_refl sc h : rooms_related (room_change sc) h h.
Proof. intros addr. destruct (h !! addr); cbn; [apply room_change_refl|done]. Qed.

Lemma effect_refl sc s : command_effect sc s s.
Proof. constructor; try done. apply rooms_refl. Qed.

Lemma effect_trans sc s1 s2 s3 : command_effect sc s1 s2 -> command_effect sc s2 s3 -> command_effect sc s1 s3.
Proof.
  intros [A1 A2 A3 A4 A5] [B1 B2 B3 B4 B5]. constructor; try congruence.
  - intros a Ha. by rewrite B3, A3.
  - intros addr. specialize (A5 addr). specialize (B5 addr).
    destruct (sv_heap s1 !! addr), (sv_heap s2 !! addr), (sv_heap s3 !! addr); cbn in *; try done. by eapply room_change_trans.
Qed.

(** One room gets a task. *)
Lemma effect_post sc addr t s : postable t -> sc_reach sc addr -> command_effect sc s (on_room addr (Post t) s).
Proof.
  intros Ht Hr. constructor; try done. intros addr'. cbn. destruct (decide (addr' = addr)) as [->|Hne].
  - rewrite lookup_alter_eq. destruct (sv_heap s !! addr) as [r|]; cbn; [|done]. pose proof (posted_post t r Ht) as Hp.
    split; [by apply posted_commanded|]. by split.
  - rewrite lookup_alter_ne by done. apply rooms_refl.
Qed.

Section Effects.
Context `{IterationOrder} (D : DataManager) (dis : nat -> Z -> Z).

(** An operation on a player reaches its room through the interface of the players
    only, so that it keeps whatever that interface keeps. *)
Definition own_op (f : Player -> option Room -> option (Player * option Room)) : Prop :=
  forall P : Room -> Prop, (forall id g r, P r -> P (update_monster id g r)) -> (forall p r, P r -> P (BroadcastPacket p r)) ->
    (forall sid p r, P r -> P (SendToPlayer sid p r)) -> forall p room res, opt_P P room -> f p room = Some res -> stable P p res.

Definition same_core (room room' : option Room) : Prop :=
  match room with
  | Some r => forall r', room' = Some r' -> core r' = core r /\ rm_out r `prefix_of` rm_out r'
  | None => room' = None
  end.

Lemma own_op_room f p room res : own_op f -> f p room = Some res -> _sessionId res.1 = _sessionId p /\ same_core room res.2.
Proof.
  intros Hf E. unfold same_core. destruct room as [r|].
  - destruct (Hf (fun r' => core r' = core r /\ rm_out r `prefix_of` rm_out r')) with (5 := E) as [Hs Ho].
    + intros id g r' [<- Hp]. split; [by apply (api_core id g (S_PlayerDead 0) 0)|]. cbn. unfold room_update_monster.
      by destruct (room_monster id r').
    + intros q r' [<- Hp]. split; [done|]. by apply prefix_app_r.
    + intros sid q r' [<- Hp]. split; [done|]. by apply prefix_app_r.
    + done.
    + split; [done|]. intros r' Hr. by rewrite Hr in Ho.
  - destruct (Hf (fun _ => False)) with (5 := E) as [Hs Ho]; try done. split; [done|]. by destruct res.2.
Qed.

(** The player of a session, the room it is in, and the room of the command. *)
Definition scope (ctx : CommandContext) (s : Server) : Scope :=
  let own := if FromServer ctx then None else GetPlayer (cc_sessionId ctx) s in
  mkScope own (own ≫= fun a => GetRoom (GetRoomId a s) s) (fun addr => FromServer ctx = true \/ GetRoom (cc_roomId ctx) s = Some addr).

Lemma effect_own ctx f s s' : FromServer ctx = false -> own_op f -> act_on_own ctx f s = Some s' -> command_effect (scope ctx s) s s'.
Proof.
  intros Hctx Hf. unfold act_on_own. destruct (GetPlayer (cc_sessionId ctx) s) as [a|] eqn:Ea; [|intros [= <-]; apply effect_refl].
  unfold act_on_player. destruct (ev_players (sv_env s) !! a) as [p|] eqn:Ep; [|intros [= <-]; apply effect_refl].
  assert (sc_own (scope ctx s) = Some a) as Hown by (unfold scope; cbn; by rewrite Hctx).
  assert (sc_mine (scope ctx s) = GetRoom (_currentRoomId p) s) as Hmine.
  { unfold scope; cbn. rewrite Hctx, Ea. cbn. unfold GetRoomId. by rewrite Ep. }
  set (sc := scope ctx s) in *. clearbody sc. set (addr := GetRoom (_currentRoomId p) s) in *.
  intros ([p' room] & E & Hs')%bind_Some. destruct (own_op_room f p _ _ Hf E) as [Hs Hr]. cbn [fst snd] in *.
  assert (forall h, rooms_related (room_change sc) (sv_heap s) h ->
    command_effect sc s (set_rooms h (_rooms s) (set_env (set_heap (<[a := p']> (ev_players (sv_env s))) (sv_env s)) s))) as Hgo.
  { intros h Hh. constructor; cbn; try done.
    - intros a' Ha. by rewrite lookup_insert_ne by congruence.
    - rewrite fmap_insert, Hs. apply insert_id. by rewrite lookup_fmap, Ep. }
  destruct addr as [x|]; [destruct room as [r|]|]; injection Hs' as <-; try (apply (Hgo (sv_heap s)), rooms_refl).
  apply (Hgo (<[x := r]> (sv_heap s))). intros addr'. cbn [mbind option_bind] in Hr.
  destruct (decide (addr' = x)) as [->|Hne]; [|rewrite lookup_insert_ne by done; apply rooms_refl].
  rewrite lookup_insert_eq. destruct (sv_heap s !! x) as [r0|]; cbn; [|done]. destruct (Hr r eq_refl) as [Hc Ho].
  split; [by apply commanded_quiet|]. by split.
Qed.

Lemma effect_room_of ctx t s : postable t -> command_effect (scope ctx s) s (on_room_of ctx (Post t) s).
Proof.
  intros Ht. unfold on_room_of. destruct (GetRoom (cc_roomId ctx) s) as [addr|] eqn:E; [|apply effect_refl].
  apply effect_post; [done|by right].
Qed.

Lemma effect_all_rooms ctx t s : FromServer ctx = true -> postable t -> command_effect (scope ctx s) s (on_all_rooms (Post t) s).
Proof.
  intros Hctx Ht. unfold on_all_rooms. assert (forall addr, sc_reach (scope ctx s) addr) as Hr by (by left).
  revert Hr. generalize (scope ctx s). intros sc Hr. generalize (GetAllRooms s). intros l. revert s.
  induction l as [|r l IH]; intros s; [apply effect_refl|]. cbn [foldl]. eapply effect_trans; [by apply effect_post|apply IH].
Qed.

Lemma exp_op exp : own_op (AddExp D dis exp).
Proof. intros P Hu Hb Hs p room res Hr E. by apply (AddExp_stable D dis P Hu Hb Hs exp p room res Hr E). Qed.

Lemma inventory_op (change : Z -> PlayerInventory -> bool * PlayerInventory) id : own_op (fun p room =>
  let '(changed, inv) := change id (_inventory p) in
  let p := set_inventory inv p in Some (if changed : bool then refresh_inventory D p room else (p, room))).
Proof.
  intros P Hu Hb Hs p room res Hr. destruct (change id (_inventory p)) as [[] inv]; [|by intros [= <-]]. unfold refresh_inventory.
  destruct room as [r|]; [|by intros [= <-]].
  pose proof (RefreshInventoryEffects_stable D P Hb Hs (set_inventory inv p) (Some r) Hr) as [H1 H2].
  destruct (RefreshInventoryEffects D _ _) as [p' room]. intros [= <-]. split; [done|]. cbn [fst snd] in *.
  apply opt_P_fmap; [|done]. intros r'. apply Hs.
Qed.

Definition well_behaved (h : CommandHandler) : Prop :=
  forall ctx args s s', h ctx args s = Some s' -> command_effect (scope ctx s) s s'.

Lemma inventory_well_behaved change : well_behaved (inventory_command D change).
Proof.
  intros ctx args s s'. pose proof (effect_refl (scope ctx s) s) as Hrefl. unfold inventory_command.
  destruct args as [|x args]; [by intros [= <-]|]. destruct (FromServer ctx) eqn:Ef; [by intros [= <-]|].
  destruct (stoi x); [|by intros [= <-]]. apply effect_own; [done|apply inventory_op].
Qed.

Lemma commands_well_behaved : map_Forall (fun _ h => well_behaved h) (commands D dis).
Proof.
  unfold commands, RegisterCommand.
  repeat (apply map_Forall_insert_2; [try apply inventory_well_behaved|]); [..|apply map_Forall_empty];
    intros ctx args s s'; pose proof (effect_refl (scope ctx s) s) as Hrefl.
  - destruct args as [|name args]; intros [= <-]; [done|]. by apply effect_room_of.
  - unfold god_command. destruct (FromServer ctx) eqn:Ef; [intros [= <-]; by apply effect_all_rooms|]. apply effect_own; [done|].
    intros P _ _ _ p room res Hr [= <-]. by split.
  - destruct args as [|x [|y args]]; try by intros [= <-]. cbn [spawn_command].
    destruct (stoi x); [|by intros [= <-]]. destruct (stoi y); intros [= <-]; [by apply effect_room_of|done].
  - unfold levelup_command. destruct (FromServer ctx) eqn:Ef; [intros [= <-]; by apply effect_all_rooms|].
    apply effect_own; [done|apply exp_op].
Qed.

Lemma Execute_effect ctx line s s' : Execute_command D dis ctx line s = Some s' -> command_effect (scope ctx s) s s'.
Proof.
  pose proof (effect_refl (scope ctx s) s) as Hrefl.
  unfold Execute_command. destruct line as [|a line]; [by intros [= <-]|].
  destruct (words (String a line)) as [|cmd args]; [repeat case_match; by intros [= <-]|].
  destruct (commands D dis !! cmd) as [h|] eqn:E; [|repeat case_match; by intros [= <-]].
  pose proof (commands_well_behaved cmd h E ctx args s s'). repeat case_match; done || (by intros [= <-]).
Qed.

Lemma act_on_own_returns ctx f s : (forall p room, is_Some (f p room)) -> is_Some (act_on_own ctx f s).
Proof.
  intros Hf. unfold act_on_own, act_on_player. destruct (GetPlayer _ _) as [a|]; [|by eexists].
  destruct (ev_players (sv_env s) !! a) as [p|]; [|by eexists].
  destruct (Hf p (GetRoom (_currentRoomId p) s ≫= fun x => sv_heap s !! x)) as [[p' room] ->]. by eexists.
Qed.

Lemma inventory_command_returns change ctx args s : is_Some (inventory_command D change ctx args s).
Proof.
  unfold inventory_command. destruct args as [|x args]; [by eexists|]. destruct (FromServer ctx); [by eexists|].
  destruct (stoi x); [|by eexists]. apply act_on_own_returns. intros p room. destruct (change _ _) as [[] inv]; by eexists.
Qed.

(** Every command but [/levelup] returns. *)
Lemma commands_return : map_Forall (fun k h => k <> "/levelup"%string -> forall ctx args s, is_Some (h ctx args s)) (commands D dis).
Proof.
  unfold commands, RegisterCommand.
  repeat (apply map_Forall_insert_2; [|]); [..|apply map_Forall_empty]; intros Hk ctx args s; try apply inventory_command_returns; try done.
  - destruct args; by eexists.
  - unfold god_command. destruct (FromServer ctx); [by eexists|]. apply act_on_own_returns. by eexists.
  - destruct args as [|x [|y args]]; try by eexists. cbn. destruct (stoi x), (stoi y); by eexists.
Qed.

Lemma Execute_returns ctx line s : head (words line) <> Some "/levelup"%string -> is_Some (Execute_command D dis ctx line s).
Proof.
  intros Hl. unfold Execute_command. destruct line as [|a line]; [by eexists|].
  destruct (words (String a line)) as [|cmd args]; [repeat case_match; by eexists|].
  destruct (commands D dis !! cmd) as [h|] eqn:E; [|repeat case_match; by eexists].
  assert (is_Some (h ctx args s)) by (apply (commands_return cmd h E); cbn in Hl; congruence). repeat case_match; done || by eexists.
Qed.

(** The commands of the server itself always return. *)
Lemma server_commands_return : map_Forall (fun _ h => forall ctx args s, FromServer ctx = true -> is_Some (h ctx args s)) (commands D dis).
Proof.
  unfold commands, RegisterCommand.
  repeat (apply map_Forall_insert_2; [|]); [..|apply map_Forall_empty]; intros ctx args s Hf;
    unfold ai_command, add_weapon_command, remove_weapon_command, add_passive_command, remove_passive_command, inventory_command,
      god_command, spawn_command, levelup_command; rewrite ?Hf; repeat case_match; by eexists.
Qed.

End Effects.

(** ** The server with its chat and its console *)

Section Chat.
Context `{IterationOrder} `{FrameLaws} (D : DataManager) (dis : nat -> Z -> Z) (userDB : bool).

Lemma reach_commanded r r' e g : commanded r r' -> room_reachable D dis ((r, e), g) -> room_reachable D dis ((r', e), g).
Proof.
  intros [(l & Ec & Hl) _] Hr.
  assert (room_reachable D dis ((set_queue (rm_queue r) r', e), g)) as Hq.
  { eapply reach_act; [exact Hr|]. apply (act_command D dis _ (r, e)). unfold core in *. cbn in *. by injection Ec as -> -> -> -> -> _. }
  assert (rm_queue r' = rm_queue r ++ l) as Eq by (by injection Ec).
  assert (r' = set_queue (rm_queue r ++ l) r') as -> by (rewrite <- Eq; by destruct r').
  clear Ec Hr Eq. revert Hq. generalize (rm_queue r). intros q Hq.
  induction l as [|t l IH] using rev_ind; [by rewrite app_nil_r|]. apply Forall_app in Hl as [Hl Ht].
  rewrite Forall_singleton in Ht. specialize (IH Hl). apply (reach_Post D dis t _ _ _ Ht) in IH.
  by rewrite app_assoc.
Qed.

Lemma effect_inv sc s s' : command_effect sc s s' -> server_inv D dis s -> server_inv D dis s'.
Proof.
  intros [E1 E2 _ Es Er] [Hl Hr Ha Hf Ht Hre Hm Hp Hj].
  injection E1 as A1 A2 A3 A4 _ A5 _. injection E2 as B1 B2 _.
  assert (forall sid a, player_of (sv_env s) sid a <-> player_of (sv_env s') sid a) as Hpl.
  { intros sid a. by rewrite !player_of_sess, Es. }
  assert (forall addr r', sv_heap s' !! addr = Some r' -> exists r, sv_heap s !! addr = Some r /\ commanded r r') as Hback.
  { intros addr r' Hlk. specialize (Er addr). rewrite Hlk in Er. destruct (sv_heap s !! addr) as [r|]; [|done]. exists r. split; [done|apply Er]. }
  constructor; rewrite ?A1, ?A2, ?A3, ?A4, ?A5, ?B1, ?B2; try done.
  - intros id addr (r & Hlk & Hid)%Hr. specialize (Er addr). rewrite Hlk in Er.
    destruct (sv_heap s' !! addr) as [r'|]; [|done]. exists r'. split; [done|]. destruct Er as ([(l & Ec & _) _] & _).
    injection Ec as _ -> _ _ _ _. done.
  - intros addr r' (r & Hlk & (l & Ec & _) & _)%Hback. injection Ec as -> _ _ _ _ _. by apply Ha.
  - intros a [p Hpa]. destruct (proj2 (Hpl (_sessionId p) a)) as (p0 & Hp0 & _); [by exists p|]. apply Hf. eauto.
  - intros addr r' (r & Hlk & Hc)%Hback. destruct (Hre _ _ Hlk) as [g Hg]. exists g.
    eapply reach_commanded; [exact Hc|]. eapply reach_others; [|exact Hg]. destruct Ht as (_ & Hh & _).
    unfold others. rewrite B1, B2. split; [done|]. split; [done|exact Hh].
  - intros addr r' sid a (r & Hlk & (l & Ec & _) & _)%Hback. injection Ec as _ _ _ -> _ _. rewrite <- Hpl. by apply (Hm addr).
  - intros sid a. rewrite <- Hpl. apply Hp.
  - intros sid a. rewrite <- Hpl. apply Hj.
Qed.

Lemma reply_inv sid r s : server_inv D dis s -> server_inv D dis (reply sid r s).
Proof. intros Hs. by apply (server_inv_lobby D dis s); try apply Hs. Qed.

(** The steps of the server, chat messages, the console's commands, and a message of the
    bus that reaches the subscriber (once, again or never). *)
Inductive program_step : Program -> Program -> Prop :=
| ps_server s s' bus : server_step D dis userDB s s' -> program_step (mkProgram s bus) (mkProgram s' bus)
| ps_chat sid msg x y : ChatHandler D dis sid msg x = Some y -> program_step x y
| ps_console cmd args s s' bus : console_command D dis cmd args s = Some s' -> program_step (mkProgram s bus) (mkProgram s' bus)
| ps_bus m s bus : m ∈ bus -> program_step (mkProgram s bus) (mkProgram (BroadcastToLobby m s) bus).

Inductive program_reachable : Program -> Prop :=
| pr_init : program_reachable (mkProgram (Init userDB Server_new) [])
| pr_step x y : program_reachable x -> program_step x y -> program_reachable y.

Lemma broadcast_inv m s : server_inv D dis s -> server_inv D dis (BroadcastToLobby m s).
Proof.
  unfold BroadcastToLobby. generalize (_lobbySessions s). intros l. revert s.
  induction l as [|sid l IH]; intros s Hs; [done|]. cbn [foldl]. by apply IH, reply_inv.
Qed.

Lemma program_step_inv x y : program_step x y -> server_inv D dis (pr_server x) -> server_inv D dis (pr_server y).
Proof.
  destruct 1 as [s s' bus Hst|sid msg x y Hc|cmd args s s' bus Hc|m s bus _]; cbn; intros Hs.
  - by eapply server_step_inv.
  - revert Hc. unfold ChatHandler. destruct (IsInLobby _ _); [by intros [= <-]|]. destruct (GetPlayer _ _); [|by intros [= <-]].
    destruct (starts_with_slash msg); [|intros [= <-]; by apply reply_inv]. intros (s' & He & [= <-])%bind_Some.
    apply reply_inv. eapply effect_inv; [by eapply Execute_effect|done].
  - eapply effect_inv; [by eapply Execute_effect|done].
  - by apply broadcast_inv.
Qed.

(** C27: at every moment of every run of the server, with packets, logins, disconnections,
    strands, timers, database answers, chat messages of any session, whatever they say,
    commands of the console and messages of the lobby chat in any order: no session is
    twice in the lobby; every room the manager lists is the room object with that id;
    every session a room or the manager has is the session of the player it is mapped
    to; and every room, with what all other rooms do in between, is in a state of a room
    on its own, so that the invariants of the room's life cycle hold for all. *)
Theorem server_with_chat_consistent x :
  program_reachable x ->
  let s := pr_server x in
  NoDup (_lobbySessions s) /\
  (forall id addr, _rooms s !! id = Some addr -> exists r, sv_heap s !! addr = Some r /\ _roomId r = id /\ rm_addr r = addr) /\
  (forall sid a, sv_players s !! sid = Some a -> player_of (sv_env s) sid a) /\
  (forall addr r sid a, sv_heap s !! addr = Some r -> rm_players r !! sid = Some a -> player_of (sv_env s) sid a) /\
  (forall addr r, sv_heap s !! addr = Some r -> exists g, room_reachable D dis ((r, sv_env s), g)).
Proof.
  intros Hx s. assert (server_inv D dis s) as Hs.
  { induction Hx as [|x y _ IH Hst]; [apply (server_reachable_inv D dis userDB), sr_init|by eapply program_step_inv]. }
  split; [apply Hs|]. split; [|split; [apply Hs|split; apply Hs]].
  intros id addr (r & Hr & Hid)%(si_rooms _ _ _ Hs). exists r. split; [done|]. split; [done|]. by apply (si_addrs _ _ _ Hs).
Qed.


Lemma bus_grows x y m : program_step x y -> m ∈ pr_bus x -> m ∈ pr_bus y.
Proof.
  destruct 1 as [| sid msg x y Hc| |]; try done. intros Hin. revert Hc. unfold ChatHandler.
  destruct (IsInLobby _ _); [intros [= <-]; cbn; apply elem_of_app; by left|]. destruct (GetPlayer _ _); [|by intros [= <-]].
  destruct (starts_with_slash msg); [|by intros [= <-]]. by intros (s' & _ & [= <-])%bind_Some.
Qed.

(** A message written in the lobby stays on the bus whatever happens next, and a
    delivery at any later moment sends it, as the writer's, exactly once to every session
    that is in the lobby by then, in the lobby's order, and to nobody else. *)
Theorem lobby_chat_reaches_the_lobby sid msg x y :
  IsInLobby sid (pr_server x) = true ->
  let m := mkLobbyMessage (i32 sid) msg in
  let x' := mkProgram (pr_server x) (pr_bus x ++ [m]) in
  ChatHandler D dis sid msg x = Some x' /\
  (rtc program_step x' y -> m ∈ pr_bus y) /\
  sv_sent (BroadcastToLobby m (pr_server y)) =
    sv_sent (pr_server y) ++ map (fun to => (to, S_Chat (i32 sid) msg)) (_lobbySessions (pr_server y)).
Proof.
  intros El m x'. assert (m ∈ pr_bus x') as Hin by (apply elem_of_app; right; by apply list_elem_of_singleton).
  split; [unfold ChatHandler; by rewrite El|]. split; [intros Hst; clear El; by induction Hst; eauto using bus_grows|].
  unfold BroadcastToLobby. generalize (_lobbySessions (pr_server y)). intros l. generalize (pr_server y). intros s. revert s.
  induction l as [|to l IH]; intros s; [by rewrite app_nil_r|]. cbn [foldl map]. rewrite IH. cbn. by rewrite <- app_assoc.
Qed.

End Chat.

(** ** Lines are read back *)

Section Lines.
Context `{IterationOrder} (D : DataManager) (dis : nat -> Z -> Z).

(** The line the console (or a player) writes is understood as it was meant: for
    words [args] the line that joins them is split into the same words, so that the
    command's handler runs with exactly these arguments; and numbers that were written
    in decimal are read as these numbers, for every value of a 32-bit int. *)
Theorem command_line_roundtrip ctx cmd args handler s :
  is_word cmd -> Forall is_word args -> commands D dis !! cmd = Some handler ->
  Execute_command D dis ctx (join_args cmd args) s = handler ctx args s /\
  (forall zs : list Z, args = map pretty zs -> Forall (fun z => - 2 ^ 31 <= z < 2 ^ 31) zs -> map stoi args = map Some zs).
Proof.
  intros Hc Ha Hh. split.
  - assert (exists r, cmd = String "/" r) as [r ->].
    { assert (map_Forall (fun k _ => exists r, k = String "/" r) (commands D dis)) as Hall; [|by apply (Hall cmd handler)].
      unfold commands, RegisterCommand. repeat (apply map_Forall_insert_2; [by eexists|]). apply map_Forall_empty. }
    unfold Execute_command. rewrite join_tail.
    rewrite (words_word (String "/" r) (tail_of args)); [|done|by destruct args].
    rewrite words_tail by done. change (String "/" r +:+ tail_of args) with (String "/" (r +:+ tail_of args)).
    cbv beta iota. by rewrite Hh.
  - intros zs -> Hz. induction Hz as [|z zs Hz _ IH]; [done|]. cbn [map]. rewrite stoi_pretty by done.
    apply Forall_cons in Ha as [_ Ha]. by rewrite IH.
Qed.

(** A [/spawn] of a player for any monster and any number posts exactly this request
    to the strand of the room the player is in, and tells the player so; nothing asks
    whether the player may. *)
Theorem spawn_from_the_chat sid a addr id count x :
  let s := pr_server x in
  IsInLobby sid s = false -> GetPlayer sid s = Some a -> GetRoom (GetRoomId a s) s = Some addr ->
  - 2 ^ 31 <= id < 2 ^ 31 -> - 2 ^ 31 <= count < 2 ^ 31 ->
  let msg := join_args "/spawn" [pretty id; pretty count] in
  ChatHandler D dis sid msg x =
    Some (mkProgram (reply sid (S_Chat 0 ("Command processed: " +:+ msg)) (on_room addr (Post (TSpawn id count)) s)) (pr_bus x)).
Proof.
  cbv zeta. intros El Ep Er Hi Hc. unfold ChatHandler. rewrite El, Ep.
  assert (Execute_command D dis (mkContext sid (GetRoomId a (pr_server x)) true) (join_args "/spawn" [pretty id; pretty count]) (pr_server x) =
          Some (on_room addr (Post (TSpawn id count)) (pr_server x))) as ->; [|done].
  unfold Execute_command. rewrite join_tail. rewrite (words_word "/spawn"), words_tail;
    [|by repeat constructor; apply pretty_word|by split; [|repeat constructor]|done].
  change ("/spawn" +:+ tail_of [pretty id; pretty count]) with (String "/" ("spawn" +:+ tail_of [pretty id; pretty count])).
  cbv beta iota. change (commands D dis !! "/spawn") with (Some spawn_command). cbv beta iota.
  unfold spawn_command. rewrite !stoi_pretty by done. unfold on_room_of. cbn [cc_roomId]. by rewrite Er.
Qed.

End Lines.

(** ** Runs *)

#[local] Existing Instance any_order.
#[local] Existing Instance idle_frame.
#[local] Existing Instance idle_frame_ok.

(** Session 7 plays in room 1 and writes [/god]. *)
Definition chatting : Program := default (mkProgram joined []) (ChatHandler whip_data demo_dis 7 "/god" (mkProgram joined [])).

Lemma joined_program : program_reachable whip_data demo_dis false (mkProgram joined []).
Proof.
  pose proof joined_reachable as Hr. induction Hr as [|s s' _ IH Hst]; [constructor|].
  eapply pr_step; [exact IH|]. by apply ps_server.
Qed.

(** The command changed the writer's player, and the numbers in a line have their bounds. *)
Example chat_commands_run :
  (_godMode <$> ev_players (sv_env (pr_server chatting)) !! 2) = Some true /\
  words "  /levelup   12x   7 " = ["/levelup"; "12x"; "7"]%string /\
  map stoi ["12x"; "-7"; "+5"; "x"; "2147483647"; "2147483648"; "-"; " 4"]%string =
    [Some 12; Some (-7); Some 5; None; Some 2147483647; None; None; Some 4].
Proof. split_and!; vm_compute; reflexivity. Qed.

Lemma server_with_chat_consistent_witness :
  program_reachable whip_data demo_dis false chatting /\ player_of (sv_env (pr_server chatting)) 7 2.
Proof.
  assert (program_reachable whip_data demo_dis false chatting) as Hr .
  { eapply pr_step; [exact joined_program|]. apply (ps_chat whip_data demo_dis false 7 "/god"). vm_compute. reflexivity. }
  split; [exact Hr|].
  refine (proj1 (proj2 (proj2 (server_with_chat_consistent whip_data demo_dis false chatting Hr))) 7 2 _). vm_compute. reflexivity.
Defined.


Definition waiting : Program := mkProgram (EnterLobby 9 (EnterLobby 8 joined)) [].

Lemma lobby_chat_reaches_the_lobby_witness :
  IsInLobby 9 (pr_server waiting) = true /\
  (pr_bus <$> ChatHandler whip_data demo_dis 9 "hi" waiting) = Some [mkLobbyMessage 9 "hi"] /\
  sv_sent (BroadcastToLobby (mkLobbyMessage 9 "hi") (pr_server waiting)) =
    sv_sent joined ++ [(8, S_Chat 9 "hi"); (9, S_Chat 9 "hi")].
Proof.
  split; [vm_compute; reflexivity|].
  destruct (lobby_chat_reaches_the_lobby whip_data demo_dis false 9 "hi" waiting waiting) as (-> & _ & Hs); [vm_compute; reflexivity|].
  split; [reflexivity|exact Hs].
Defined.

Lemma command_line_roundtrip_witness :
  Execute_command whip_data demo_dis (mkContext 7 1 true) (join_args "/spawn" ["3"; "-10"]%string) joined =
    spawn_command (mkContext 7 1 true) ["3"; "-10"]%string joined /\
  map stoi ["3"; "-10"]%string = [Some 3; Some (-10)].
Proof.
  assert (Forall is_word ["3"; "-10"]%string) as Hw by (change ["3"; "-10"]%string with (map pretty [3; -10]); repeat constructor; apply pretty_word).
  destruct (command_line_roundtrip whip_data demo_dis (mkContext 7 1 true) "/spawn" ["3"; "-10"]%string spawn_command joined)
    as [H1 H2]; [split; [discriminate|repeat constructor]|exact Hw|reflexivity|].
  split; [exact H1|]. apply (H2 [3; -10]); [reflexivity|repeat constructor; lia].
Defined.

Lemma spawn_from_the_chat_witness :
  GetPlayer 7 joined = Some 2 /\
  ChatHandler whip_data demo_dis 7 (join_args "/spawn" [pretty 3; pretty 10]) (mkProgram joined []) =
    Some (mkProgram (reply 7 (S_Chat 0 "Command processed: /spawn 3 10") (on_room 1 (Post (TSpawn 3 10)) joined)) []).
Proof.
  split; [vm_compute; reflexivity|].
  exact (spawn_from_the_chat whip_data demo_dis 7 2 1 3 10 (mkProgram joined [])
    ltac:(vm_compute; reflexivity) ltac:(vm_compute; reflexivity) ltac:(vm_compute; reflexivity) ltac:(lia) ltac:(lia)).
Defined.
