(* ===== verification/Config.v ===== *)
(** * Config: the settings of the server

    Models src/System/IConfig.h and Config/Json/JsonConfigLoader.cpp, over the JSON
    library of [GameData], and what Framework.cpp makes of the settings of the packet
    encryption.  The loader assigns one setting after the other to the configuration that
    it keeps; an exception of the library ends it with those assigned that came before.

    The numbers of type double are only passed on: they stand as their 64-bit patterns. *)

From Stdlib Require Import Ascii.
From stdpp Require Import base strings gmap list.
From S2P Require Import Prelude Text GameData Cipher.

#[local] Open Scope Z_scope.

Record ServerConfig := mkConfig {
  port : Z;
  workerThreadCount : Z;
  taskWorkerCount : Z;
  dbWorkerCount : Z;
  dbAddress : string;
  dbType : string;
  dbUser : string;
  dbPassword : string;
  dbSchema : string;
  dbPort : Z;
  rateLimit : Z;
  rateBurst : Z;
  encryption : string;
  encryptionKey : string;
  encryptionIV : string;
  logLevel : string;
  serverRole : string;
  webSocketEnabled : bool;
  webSocketPort : Z
}.

Definition dbl_50 : Z := 0x4049000000000000.
Definition dbl_100 : Z := 0x4059000000000000.

Definition ServerConfig_new : ServerConfig :=
  mkConfig 0 0 0 2 EmptyString "sqlite" EmptyString EmptyString EmptyString 3306 dbl_50 dbl_100 "none" EmptyString EmptyString "info"
    "gateway" false 9001.

Definition set_port (v : Z) (c : ServerConfig) : ServerConfig :=
  mkConfig v (workerThreadCount c) (taskWorkerCount c) (dbWorkerCount c) (dbAddress c) (dbType c) (dbUser c)
    (dbPassword c) (dbSchema c) (dbPort c) (rateLimit c) (rateBurst c) (encryption c) (encryptionKey c)
    (encryptionIV c) (logLevel c) (serverRole c) (webSocketEnabled c) (webSocketPort c).
Definition set_workerThreadCount (v : Z) (c : ServerConfig) : ServerConfig :=
  mkConfig (port c) v (taskWorkerCount c) (dbWorkerCount c) (dbAddress c) (dbType c) (dbUser c) (dbPassword c)
    (dbSchema c) (dbPort c) (rateLimit c) (rateBurst c) (encryption c) (encryptionKey c) (encryptionIV c)
    (logLevel c) (serverRole c) (webSocketEnabled c) (webSocketPort c).
Definition set_taskWorkerCount (v : Z) (c : ServerConfig) : ServerConfig :=
  mkConfig (port c) (workerThreadCount c) v (dbWorkerCount c) (dbAddress c) (dbType c) (dbUser c) (dbPassword c)
    (dbSchema c) (dbPort c) (rateLimit c) (rateBurst c) (encryption c) (encryptionKey c) (encryptionIV c)
    (logLevel c) (serverRole c) (webSocketEnabled c) (webSocketPort c).
Definition set_dbWorkerCount (v : Z) (c : ServerConfig) : ServerConfig :=
  mkConfig (port c) (workerThreadCount c) (taskWorkerCount c) v (dbAddress c) (dbType c) (dbUser c) (dbPassword c)
    (dbSchema c) (dbPort c) (rateLimit c) (rateBurst c) (encryption c) (encryptionKey c) (encryptionIV c)
    (logLevel c) (serverRole c) (webSocketEnabled c) (webSocketPort c).
Definition set_dbAddress (v : string) (c : ServerConfig) : ServerConfig :=
  mkConfig (port c) (workerThreadCount c) (taskWorkerCount c) (dbWorkerCount c) v (dbType c) (dbUser c)
    (dbPassword c) (dbSchema c) (dbPort c) (rateLimit c) (rateBurst c) (encryption c) (encryptionKey c)
    (encryptionIV c) (logLevel c) (serverRole c) (webSocketEnabled c) (webSocketPort c).
Definition set_dbType (v : string) (c : ServerConfig) : ServerConfig :=
  mkConfig (port c) (workerThreadCount c) (taskWorkerCount c) (dbWorkerCount c) (dbAddress c) v (dbUser c)
    (dbPassword c) (dbSchema c) (dbPort c) (rateLimit c) (rateBurst c) (encryption c) (encryptionKey c)
    (encryptionIV c) (logLevel c) (serverRole c) (webSocketEnabled c) (webSocketPort c).
Definition set_dbUser (v : string) (c : ServerConfig) : ServerConfig :=
  mkConfig (port c) (workerThreadCount c) (taskWorkerCount c) (dbWorkerCount c) (dbAddress c) (dbType c) v
    (dbPassword c) (dbSchema c) (dbPort c) (rateLimit c) (rateBurst c) (encryption c) (encryptionKey c)
    (encryptionIV c) (logLevel c) (serverRole c) (webSocketEnabled c) (webSocketPort c).
Definition set_dbPassword (v : string) (c : ServerConfig) : ServerConfig :=
  mkConfig (port c) (workerThreadCount c) (taskWorkerCount c) (dbWorkerCount c) (dbAddress c) (dbType c) (dbUser c) v
    (dbSchema c) (dbPort c) (rateLimit c) (rateBurst c) (encryption c) (encryptionKey c) (encryptionIV c)
    (logLevel c) (serverRole c) (webSocketEnabled c) (webSocketPort c).
Definition set_dbSchema (v : string) (c : ServerConfig) : ServerConfig :=
  mkConfig (port c) (workerThreadCount c) (taskWorkerCount c) (dbWorkerCount c) (dbAddress c) (dbType c) (dbUser c)
    (dbPassword c) v (dbPort c) (rateLimit c) (rateBurst c) (encryption c) (encryptionKey c) (encryptionIV c)
    (logLevel c) (serverRole c) (webSocketEnabled c) (webSocketPort c).
Definition set_dbPort (v : Z) (c : ServerConfig) : ServerConfig :=
  mkConfig (port c) (workerThreadCount c) (taskWorkerCount c) (dbWorkerCount c) (dbAddress c) (dbType c) (dbUser c)
    (dbPassword c) (dbSchema c) v (rateLimit c) (rateBurst c) (encryption c) (encryptionKey c) (encryptionIV c)
    (logLevel c) (serverRole c) (webSocketEnabled c) (webSocketPort c).
Definition set_rateLimit (v : Z) (c : ServerConfig) : ServerConfig :=
  mkConfig (port c) (workerThreadCount c) (taskWorkerCount c) (dbWorkerCount c) (dbAddress c) (dbType c) (dbUser c)
    (dbPassword c) (dbSchema c) (dbPort c) v (rateBurst c) (encryption c) (encryptionKey c) (encryptionIV c)
    (logLevel c) (serverRole c) (webSocketEnabled c) (webSocketPort c).
Definition set_rateBurst (v : Z) (c : ServerConfig) : ServerConfig :=
  mkConfig (port c) (workerThreadCount c) (taskWorkerCount c) (dbWorkerCount c) (dbAddress c) (dbType c) (dbUser c)
    (dbPassword c) (dbSchema c) (dbPort c) (rateLimit c) v (encryption c) (encryptionKey c) (encryptionIV c)
    (logLevel c) (serverRole c) (webSocketEnabled c) (webSocketPort c).
Definition set_encryption (v : string) (c : ServerConfig) : ServerConfig :=
  mkConfig (port c) (workerThreadCount c) (taskWorkerCount c) (dbWorkerCount c) (dbAddress c) (dbType c) (dbUser c)
    (dbPassword c) (dbSchema c) (dbPort c) (rateLimit c) (rateBurst c) v (encryptionKey c) (encryptionIV c)
    (logLevel c) (serverRole c) (webSocketEnabled c) (webSocketPort c).
Definition set_encryptionKey (v : string) (c : ServerConfig) : ServerConfig :=
  mkConfig (port c) (workerThreadCount c) (taskWorkerCount c) (dbWorkerCount c) (dbAddress c) (dbType c) (dbUser c)
    (dbPassword c) (dbSchema c) (dbPort c) (rateLimit c) (rateBurst c) (encryption c) v (encryptionIV c) (logLevel c)
    (serverRole c) (webSocketEnabled c) (webSocketPort c).
Definition set_encryptionIV (v : string) (c : ServerConfig) : ServerConfig :=
  mkConfig (port c) (workerThreadCount c) (taskWorkerCount c) (dbWorkerCount c) (dbAddress c) (dbType c) (dbUser c)
    (dbPassword c) (dbSchema c) (dbPort c) (rateLimit c) (rateBurst c) (encryption c) (encryptionKey c) v
    (logLevel c) (serverRole c) (webSocketEnabled c) (webSocketPort c).
Definition set_logLevel (v : string) (c : ServerConfig) : ServerConfig :=
  mkConfig (port c) (workerThreadCount c) (taskWorkerCount c) (dbWorkerCount c) (dbAddress c) (dbType c) (dbUser c)
    (dbPassword c) (dbSchema c) (dbPort c) (rateLimit c) (rateBurst c) (encryption c) (encryptionKey c)
    (encryptionIV c) v (serverRole c) (webSocketEnabled c) (webSocketPort c).
Definition set_serverRole (v : string) (c : ServerConfig) : ServerConfig :=
  mkConfig (port c) (workerThreadCount c) (taskWorkerCount c) (dbWorkerCount c) (dbAddress c) (dbType c) (dbUser c)
    (dbPassword c) (dbSchema c) (dbPort c) (rateLimit c) (rateBurst c) (encryption c) (encryptionKey c)
    (encryptionIV c) (logLevel c) v (webSocketEnabled c) (webSocketPort c).
Definition set_webSocketEnabled (v : bool) (c : ServerConfig) : ServerConfig :=
  mkConfig (port c) (workerThreadCount c) (taskWorkerCount c) (dbWorkerCount c) (dbAddress c) (dbType c) (dbUser c)
    (dbPassword c) (dbSchema c) (dbPort c) (rateLimit c) (rateBurst c) (encryption c) (encryptionKey c)
    (encryptionIV c) (logLevel c) (serverRole c) v (webSocketPort c).
Definition set_webSocketPort (v : Z) (c : ServerConfig) : ServerConfig :=
  mkConfig (port c) (workerThreadCount c) (taskWorkerCount c) (dbWorkerCount c) (dbAddress c) (dbType c) (dbUser c)
    (dbPassword c) (dbSchema c) (dbPort c) (rateLimit c) (rateBurst c) (encryption c) (encryptionKey c)
    (encryptionIV c) (logLevel c) (serverRole c) (webSocketEnabled c) v.

(** ** JsonConfigLoader

    [value_bool], [value_double]: [value] with a default of these types. *)

Section Loader.
Context {J : Json} (value_bool : json -> string -> bool -> option bool) (value_double : json -> string -> Z -> option Z).
Context (hardware_concurrency : Z).

(** [server.value(key, server.value(oldKey, d))]: the argument is evaluated first. *)
Definition value2 {A} (value : json -> string -> A -> option A) (server : json) (key oldKey : string) (d : A) : option A :=
  d ← value server oldKey d; value server key d.

(** The thread counts: the first of two names that is there, which must be a number. *)
Definition thread_count (server : json) (key oldKey : string) (d : Z) : option Z :=
  if contains server key then field server key ≫= get_int
  else if contains server oldKey then field server oldKey ≫= get_int
  else Some d.

(** The assignments in their order; each may throw. *)
Definition settings (server : json) : list (ServerConfig -> option ServerConfig) := [
  fun c => v ← value_int server "port" 9000; Some (set_port v c);
  fun c => v ← thread_count server "worker_threads" "workerThreadCount" (i32 hardware_concurrency); Some (set_workerThreadCount v c);
  fun c => v ← thread_count server "task_worker_threads" "taskWorkerCount" (i32 hardware_concurrency); Some (set_taskWorkerCount v c);
  fun c => v ← thread_count server "db_worker_threads" "dbWorkerCount" 2; Some (set_dbWorkerCount v c);
  fun c => v ← value2 value_string server "db_info" "dbAddress" EmptyString; Some (set_dbAddress v c);
  fun c => v ← value2 value_string server "db_type" "dbType" "sqlite"; Some (set_dbType v c);
  fun c => v ← value2 value_string server "db_user" "dbUser" EmptyString; Some (set_dbUser v c);
  fun c => v ← value2 value_string server "db_password" "dbPassword" EmptyString; Some (set_dbPassword v c);
  fun c => v ← value2 value_string server "db_schema" "dbSchema" EmptyString; Some (set_dbSchema v c);
  fun c => v ← value2 value_int server "db_port" "dbPort" 3306; Some (set_dbPort v c);
  fun c => v ← value2 value_double server "rate_limit" "rateLimit" dbl_50; Some (set_rateLimit v c);
  fun c => v ← value2 value_double server "rate_burst" "rateBurst" dbl_100; Some (set_rateBurst v c);
  fun c => v ← value_string server "encryption" "none"; Some (set_encryption v c);
  fun c => v ← value2 value_string server "encryption_key" "encryptionKey" EmptyString; Some (set_encryptionKey v c);
  fun c => v ← value2 value_string server "encryption_iv" "encryptionIV" EmptyString; Some (set_encryptionIV v c);
  fun c => v ← value_string server "log_level" "info"; Some (set_logLevel v c);
  fun c => v ← value2 value_string server "server_role" "serverRole" "gateway"; Some (set_serverRole v c);
  fun c => v ← value2 value_bool server "websocket_enabled" "webSocketEnabled" false; Some (set_webSocketEnabled v c);
  fun c => v ← value2 value_int server "websocket_port" "webSocketPort" 9001; Some (set_webSocketPort v c)
].

Fixpoint assign_all (l : list (ServerConfig -> option ServerConfig)) (c : ServerConfig) : bool * ServerConfig :=
  match l with
  | [] => (true, c)
  | f :: l => match f c with Some c => assign_all l c | None => (false, c) end
  end.

(** [file]: what the file parses to, if it can be opened and parsed. *)
Definition Load (file : option json) (c : ServerConfig) : bool * ServerConfig :=
  match file with
  | None => (false, c)
  | Some j =>
      if contains j "server" then
        match field j "server" with
        | Some server => assign_all (settings server) c
        | None => (false, c)
        end
      else (true, c)
  end.

(** ** What a loaded file means *)

(** The value of a setting that has one name, or two of which the first one counts. *)
Definition setting {A} (get : json -> option A) (server : json) (keys : list string) (d : A) : option A :=
  match list_find (fun k => contains server k = true) keys with
  | Some (_, k) => field server k ≫= get
  | None => Some d
  end.

(** What the JSON library documents of [value]: the entry if there is one, else the
    default. *)
Class JsonValues (get_bool : json -> option bool) (get_double : json -> option Z) := {
  value_int_law : forall j k d, is_object j = true -> value_int j k d = setting get_int j [k] d;
  value_string_law : forall j k d, is_object j = true -> value_string j k d = setting get_string j [k] d;
  value_bool_law : forall j k d, is_object j = true -> value_bool j k d = setting get_bool j [k] d;
  value_double_law : forall j k d, is_object j = true -> value_double j k d = setting get_double j [k] d
}.

Lemma setting_two {A} (get : json -> option A) value server key oldKey d v :
  (forall k d, value server k d = setting get server [k] d) ->
  value2 value server key oldKey d = Some v -> setting get server [key; oldKey] d = Some v.
Proof.
  intros Hv. unfold value2. rewrite Hv. unfold setting. cbn.
  destruct (decide (contains server key = true)) as [Hk|Hk], (decide (contains server oldKey = true)) as [Ho|Ho]; cbn;
    try (destruct (field server oldKey ≫= get) as [v0|]; [cbn|done]); rewrite Hv; unfold setting; cbn;
    destruct (decide (contains server key = true)); cbn; done.
Qed.

(** The settings that a "server" entry stands for. *)
Definition documented (get_bool : json -> option bool) (get_double : json -> option Z) (server : json) : option ServerConfig :=
  p ← setting get_int server ["port"] 9000;
  w ← setting get_int server ["worker_threads"; "workerThreadCount"] (i32 hardware_concurrency);
  t ← setting get_int server ["task_worker_threads"; "taskWorkerCount"] (i32 hardware_concurrency);
  n ← setting get_int server ["db_worker_threads"; "dbWorkerCount"] 2;
  addr ← setting get_string server ["db_info"; "dbAddress"] EmptyString;
  type ← setting get_string server ["db_type"; "dbType"] "sqlite";
  user ← setting get_string server ["db_user"; "dbUser"] EmptyString;
  pass ← setting get_string server ["db_password"; "dbPassword"] EmptyString;
  schema ← setting get_string server ["db_schema"; "dbSchema"] EmptyString;
  dbport ← setting get_int server ["db_port"; "dbPort"] 3306;
  rate ← setting get_double server ["rate_limit"; "rateLimit"] dbl_50;
  burst ← setting get_double server ["rate_burst"; "rateBurst"] dbl_100;
  enc ← setting get_string server ["encryption"] "none";
  key ← setting get_string server ["encryption_key"; "encryptionKey"] EmptyString;
  iv ← setting get_string server ["encryption_iv"; "encryptionIV"] EmptyString;
  level ← setting get_string server ["log_level"] "info";
  role ← setting get_string server ["server_role"; "serverRole"] "gateway";
  ws ← setting get_bool server ["websocket_enabled"; "webSocketEnabled"] false;
  wsport ← setting get_int server ["websocket_port"; "webSocketPort"] 9001;
  Some (mkConfig p w t n addr type user pass schema dbport rate burst enc key iv level role ws wsport).

Lemma thread_count_setting server key oldKey d v :
  thread_count server key oldKey d = Some v -> setting get_int server [key; oldKey] d = Some v.
Proof.
  unfold thread_count, setting. cbn. destruct (decide (contains server key = true)) as [->|Hk]; [done|].
  apply not_true_is_false in Hk. rewrite Hk. cbn. by destruct (decide (contains server oldKey = true)) as [->|Ho];
    [|apply not_true_is_false in Ho; rewrite Ho].
Qed.

Lemma assign_all_cons f l c c' : assign_all (f :: l) c = (true, c') -> exists c1, f c = Some c1 /\ assign_all l c1 = (true, c').
Proof. cbn. destruct (f c) as [c1|]; [|done]. by exists c1. Qed.

Lemma assigned {A} (v : option A) set l c c' :
  assign_all ((fun c => x ← v; Some (set x c)) :: l) c = (true, c') -> exists x, v = Some x /\ assign_all l (set x c) = (true, c').
Proof. intros (c1 & Hf & Hl)%assign_all_cons. destruct v as [x|]; [|done]. injection Hf as <-. by exists x. Qed.

(** A configuration that loads is the documented one, whatever was configured before:
    each setting is the entry under its new name, or else the one under its old name, or
    else its default. *)
Theorem loaded_config_is_documented get_bool get_double `{!JsonValues get_bool get_double} j server c c'
  (Hserver : contains j "server" = true) (Hfield : field j "server" = Some server) (Hobject : is_object server = true) :
  Load (Some j) c = (true, c') -> documented get_bool get_double server = Some c'.
Proof.
  unfold Load. rewrite Hserver, Hfield. unfold settings.
  assert (forall k d, value_int server k d = setting get_int server [k] d) as Hi by (intros; by apply value_int_law).
  assert (forall k d, value_string server k d = setting get_string server [k] d) as Hs by (intros; by apply value_string_law).
  assert (forall k d, value_bool server k d = setting get_bool server [k] d) as Hb by (intros; by apply value_bool_law).
  assert (forall k d, value_double server k d = setting get_double server [k] d) as Hd by (intros; by apply value_double_law).
  rewrite !Hi, !Hs. intros Hl. unfold documented.
  repeat match goal with
    | H : assign_all (_ :: _) _ = _ |- _ =>
        apply assigned in H as (? & E & H);
        first [apply thread_count_setting in E | apply (setting_two _ _ _ _ _ _ _ Hi) in E | apply (setting_two _ _ _ _ _ _ _ Hs) in E |
               apply (setting_two _ _ _ _ _ _ _ Hb) in E | apply (setting_two _ _ _ _ _ _ _ Hd) in E | idtac]; rewrite E; clear E; cbn [mbind option_bind]
    end.
  cbn [assign_all] in Hl. injection Hl as <-. done.
Qed.

(** A file without a "server" entry changes nothing and counts as loaded. *)
Theorem empty_config_loads j c : contains j "server" = false -> Load (Some j) c = (true, c).
Proof. unfold Load. by intros ->. Qed.

End Loader.

(** ** The packet encryption of the settings *)

Definition bytes_of (s : string) : list Z := (fun a => Z.of_N (N_of_ascii a)) <$> String.list_ascii_of_string s.

(** A number, or else the first character, as a byte. *)
Definition xor_key (encryptionKey : string) : Z :=
  match encryptionKey with
  | EmptyString => 0xA5
  | String a _ => match stoi encryptionKey with Some v => u8 v | None => u8 (Z.of_N (N_of_ascii a)) end
  end.

(** [memcpy] of at most 16 bytes into 16 zeroes. *)
Definition fit16 (bs : list Z) : list Z := take 16 bs ++ replicate (16 - length bs) 0.

(** What the factory makes that [Framework::Init] installs, if it installs one. *)
Definition configured_cipher (c : ServerConfig) : option IPacketEncryption :=
  if bool_decide (encryption c = "xor") then Some (Xor.XorEncryption (xor_key (encryptionKey c)))
  else if bool_decide (encryption c = "aes")
  then Aes.AesEncryption (fit16 (bytes_of (encryptionKey c))) (fit16 (bytes_of (encryptionIV c)))
  else None.

(** The payloads that the configured cipher can handle. *)
Definition cipher_lengths (c : ServerConfig) (n : nat) : Prop := encryption c = "aes" -> (n mod 16 = 0)%nat.

Lemma bytes_of_bytes s : Forall is_byte (bytes_of s).
Proof.
  unfold bytes_of. apply Forall_fmap, Forall_true. intros a. unfold is_byte. cbn. pose proof (N_ascii_bounded a). lia.
Qed.

Lemma fit16_spec bs : Forall is_byte bs -> length (fit16 bs) = 16%nat /\ Forall is_byte (fit16 bs).
Proof.
  intros Hb. unfold fit16. split; [rewrite length_app, length_take, length_replicate; lia|].
  apply Forall_app. split; [by apply Forall_take|]. apply Forall_replicate. unfold is_byte. lia.
Qed.

Lemma xor_key_byte k : is_byte (xor_key k).
Proof. unfold xor_key. destruct k as [|a k]; [unfold is_byte; lia|]. destruct (stoi _); apply u8_byte. Qed.

Lemma configured_cipher_lawful_on c cipher : configured_cipher c = Some cipher -> LawfulCipher cipher (cipher_lengths c).
Proof.
  unfold configured_cipher, cipher_lengths. destruct (fit16_spec (bytes_of (encryptionKey c)) (bytes_of_bytes _)) as [K1 K2].
  destruct (fit16_spec (bytes_of (encryptionIV c)) (bytes_of_bytes _)) as [I1 I2].
  case_bool_decide as Hx; [|case_bool_decide as Ha; [|done]].
  - intros [= <-]. destruct (XorEncryption_lawful _ (xor_key_byte (encryptionKey c))) as [H]. split. intros bs Hb _. by apply H.
  - intros Hc. destruct (AesEncryption_lawful _ _ _ K2 I2 Hc) as [H]. split. intros bs Hb Hn. apply H; auto.
Qed.

(** Whatever the settings, the encryption they ask for can be made and is lawful:
    "xor" and "aes" always give a cipher, with keys and initial vectors of any length, and
    it gives back every payload of a length that it handles. *)
Theorem configured_cipher_lawful c :
  (encryption c = "xor" \/ encryption c = "aes" -> is_Some (configured_cipher c)) /\
  forall cipher, configured_cipher c = Some cipher -> LawfulCipher cipher (cipher_lengths c).
Proof.
  split; [|intros cipher; apply configured_cipher_lawful_on]. unfold configured_cipher.
  destruct (fit16_spec (bytes_of (encryptionKey c)) (bytes_of_bytes _)) as [K1 _].
  destruct (fit16_spec (bytes_of (encryptionIV c)) (bytes_of_bytes _)) as [I1 _].
  intros [->| ->]; [by eexists|]. rewrite bool_decide_false, bool_decide_true by done.
  unfold Aes.AesEncryption. rewrite !decide_False by (rewrite ?K1, ?I1; auto). by eexists.
Qed.

(** ** A configuration file *)

Definition jbool (j : jval) : option bool := match j with JNum z => Some (negb (z =? 0)) | _ => None end.

#[export] Instance jval_values : JsonValues (J := jval_json) (jvalue jbool) (jvalue jint) jbool jint.
Proof.
  assert (forall A (get : jval -> option A) j k d, is_object (Json := jval_json) j = true ->
    jvalue get j k d = setting (J := jval_json) get j [k] d) as H.
  { intros A get j k d Hj. destruct j as [| | |l]; try done. unfold setting. cbn. destruct (assoc k l) as [v|] eqn:E.
    - rewrite decide_True by by apply bool_decide_eq_true_2. cbn. by rewrite E.
    - rewrite decide_False; [done|]. rewrite bool_decide_eq_true. by intros []. }
  split; intros; by apply H.
Qed.

Definition demo_server : jval :=
  JObj [("port", JNum 7777); ("task_worker_threads", JNum 4); ("workerThreadCount", JNum 2); ("dbAddress", JStr "old.db");
        ("db_info", JStr "game.db"); ("encryption", JStr "aes"); ("encryption_key", JStr "short"); ("webSocketEnabled", JNum 1)].

Definition demo_file : jval := JObj [("server", demo_server)].

Lemma loaded_config_is_documented_witness :
  exists c, Load (J := jval_json) (jvalue jbool) (jvalue jint) 8 (Some demo_file) ServerConfig_new = (true, c) /\
    documented (J := jval_json) 8 jbool jint demo_server = Some c /\ dbAddress c = "game.db" /\ workerThreadCount c = 2 /\ webSocketEnabled c = true.
Proof.
  eexists. split; [reflexivity|]. split; [|by vm_compute].
  apply (loaded_config_is_documented (J := jval_json) (jvalue jbool) (jvalue jint) 8 jbool jint demo_file demo_server ServerConfig_new); reflexivity.
Defined.

Lemma empty_config_loads_witness : Load (J := jval_json) (jvalue jbool) (jvalue jint) 8 (Some (JObj [])) ServerConfig_new = (true, ServerConfig_new).
Proof. apply (empty_config_loads (J := jval_json)). reflexivity. Defined.

Lemma configured_cipher_lawful_witness :
  exists cipher, configured_cipher (set_encryption "xor" ServerConfig_new) = Some cipher /\
    LawfulCipher cipher (cipher_lengths (set_encryption "xor" ServerConfig_new)).
Proof.
  destruct (proj1 (configured_cipher_lawful (set_encryption "xor" ServerConfig_new)) (or_introl eq_refl)) as [cipher Hc].
  exists cipher. split; [exact Hc|]. by apply configured_cipher_lawful.
Defined.

(** An entry under its old name must have the right type even when there is a new one; a
    load that fails leaves the settings read before it. *)
Example failed_load_changes_settings :
  exists c, Load (J := jval_json) (jvalue jbool) (jvalue jint) 8
    (Some (JObj [("server", JObj [("port", JNum 7777); ("db_info", JStr "game.db"); ("dbAddress", JNum 5)])])) ServerConfig_new = (false, c) /\
    port c = 7777 /\ workerThreadCount c = 8 /\ dbAddress c = EmptyString.
Proof. eexists. split; [reflexivity|]. by vm_compute. Qed.

(** Keys are taken apart only by their number or first character. *)
Example xor_keys : xor_key "300" = 44 /\ xor_key "secret" = xor_key "simple" /\ xor_key "0x10" = 0.
Proof. done. Qed.
