(* ===== verification/Console.v ===== *)
(** * Console: the terminal of the server

    Models src/System/Console/CommandConsole.cpp with its four commands, the thread that
    reads lines, and [ServerApp::RegisterConsoleCommands], which puts the commands of
    [Commands] into it.  [/reload] loads the configuration ([Config]) again.

    The lines of the terminal are the steps of the reading threads; answers to the operator
    are a list.  The handlers throw nothing: the library's exceptions end in [Load] and in
    [CommandManager::Execute]. *)

From Stdlib Require Import Ascii.
From stdpp Require Import base strings pretty gmap option list.
From S2P Require Import Prelude Text Config GameData Inventory Player Room Lobby.
From S2P Require Import Commands.

#[local] Open Scope Z_scope.

(** ** The commands *)

(** The handlers by what they are: the console's own, and those of the application, which
    keep the name of their command. *)
Inductive Handler := Status | Reload | Help | Quit | GameCommand (cmd : string).

Record CommandDescriptor := mkDescriptor { command : string; description : string; handler : Handler }.

(** What the operator reads. *)
Inductive Answer :=
| RateLimits (rate burst : Z) | Reloaded | ReloadFailed | Available (l : list (string * string)) | ShuttingDown
| UnknownCommand (cmd : string).

(** A thread that reads lines: at the test of its loop, in [getline], or left. *)
Inductive Reader := AtTest | Reading | Left.

#[global] Instance Reader_eq_dec : EqDecision Reader.
Proof. solve_decision. Defined.

(** The shared state of the console, its reading threads (of which a stopped console has
    detached itself), and what its handlers refer to. *)
Record Console := mkConsole {
  co_running : bool;
  co_commands : gmap string CommandDescriptor;
  co_readers : list Reader;
  co_config : ServerConfig;
  co_server : Server;
  co_answers : list Answer
}.

Definition RegisterCommand (desc : CommandDescriptor) (c : Console) : Console :=
  mkConsole (co_running c) (<[command desc := desc]> (co_commands c)) (co_readers c) (co_config c) (co_server c) (co_answers c).

Definition UnregisterCommand (cmd : string) (c : Console) : Console :=
  mkConsole (co_running c) (delete cmd (co_commands c)) (co_readers c) (co_config c) (co_server c) (co_answers c).

(** The commands that the constructor registers. *)
Definition default_commands : list CommandDescriptor := [
  mkDescriptor "/status" "Show server status" Status;
  mkDescriptor "/reload" "Reload configuration" Reload;
  mkDescriptor "/help" "List available commands" Help;
  mkDescriptor "/quit" "Shutdown server" Quit
].

Definition CommandConsole_new (config : ServerConfig) (s : Server) : Console :=
  foldl (fun c d => RegisterCommand d c) (mkConsole false ∅ [] config s []) default_commands.

(** The names and descriptions of the application's commands. *)
Definition GetCommands : list (string * string) := [
  ("/add_passive", "Add or upgrade passive (Usage: /add_passive [id])");
  ("/add_weapon", "Add or upgrade weapon (Usage: /add_weapon [id])");
  ("/ai", "Change AI strategy (Usage: /ai [strict|smart|fluid|surround|vampire])");
  ("/god", "Toggle God Mode");
  ("/levelup", "Add EXP to players (Usage: /levelup [amount])");
  ("/remove_passive", "Remove passive (Usage: /remove_passive [id])");
  ("/remove_weapon", "Remove weapon (Usage: /remove_weapon [id])");
  ("/spawn", "Spawn monsters (Usage: /spawn [id] [count])")
]%string.

Definition RegisterConsoleCommands (c : Console) : Console :=
  foldl (fun c cd => RegisterCommand (mkDescriptor cd.1 cd.2 (GameCommand cd.1)) c) c GetCommands.

Section Console.
Context `{IterationOrder} `{FrameLaws} (D : DataManager) (dis : nat -> Z -> Z).
Context {J : Json} (value_bool : json -> string -> bool -> option bool) (value_double : json -> string -> Z -> option Z).
Context (hardware_concurrency : Z).

Definition answer (a : Answer) (c : Console) : Console :=
  mkConsole (co_running c) (co_commands c) (co_readers c) (co_config c) (co_server c) (co_answers c ++ [a]).

Definition set_console_config (v : ServerConfig) (c : Console) : Console :=
  mkConsole (co_running c) (co_commands c) (co_readers c) v (co_server c) (co_answers c).

Definition set_console_server (v : Server) (c : Console) : Console :=
  mkConsole (co_running c) (co_commands c) (co_readers c) (co_config c) v (co_answers c).

(** The commands in the order of [std::map]: strings byte by byte. *)
Fixpoint string_leb (s t : string) : bool :=
  match s, t with
  | EmptyString, _ => true
  | _, EmptyString => false
  | String a s, String b t => (N_of_ascii a <? N_of_ascii b)%N || ((N_of_ascii a =? N_of_ascii b)%N && string_leb s t)
  end.

Fixpoint insert_sorted (kv : string * string) (l : list (string * string)) : list (string * string) :=
  match l with
  | [] => [kv]
  | x :: l => if string_leb kv.1 x.1 then kv :: x :: l else x :: insert_sorted kv l
  end.

Definition in_map_order (m : gmap string CommandDescriptor) : list (string * string) :=
  foldr insert_sorted [] ((fun kd => (kd.1, description kd.2)) <$> map_to_list m).

(** A handler, with what the configuration file parses to; [None]: the process has ended. *)
Definition run_handler (h : Handler) (args : list string) (file : option json) (c : Console) : option Console :=
  match h with
  | Status => Some (answer (RateLimits (rateLimit (co_config c)) (rateBurst (co_config c))) c)
  | Reload =>
      let '(ok, config) := Load value_bool value_double hardware_concurrency file (co_config c) in
      Some (answer (if ok then Reloaded else ReloadFailed) (set_console_config config c))
  | Help => Some (answer (Available (in_map_order (co_commands c))) c)
  | Quit => None
  | GameCommand cmd => s ← console_command D dis cmd args (co_server c); Some (set_console_server s c)
  end.

(** A line: also one without words is looked up, as the empty command. *)
Definition ProcessCommand (line : string) (file : option json) (c : Console) : option Console :=
  let '(cmd, args) := match words line with w :: l => (w, l) | [] => (EmptyString, []) end in
  match co_commands c !! cmd with
  | Some d => run_handler (handler d) args file c
  | None => Some (answer (UnknownCommand cmd) c)
  end.

(** ** The reading thread *)

Definition set_readers (l : list Reader) (c : Console) : Console :=
  mkConsole (co_running c) (co_commands c) l (co_config c) (co_server c) (co_answers c).

Definition Start (c : Console) : Console :=
  if co_running c then c
  else mkConsole true (co_commands c) (co_readers c ++ [AtTest]) (co_config c) (co_server c) (co_answers c).

(** The threads are detached, not joined. *)
Definition Stop (c : Console) : Console :=
  mkConsole false (co_commands c) (co_readers c) (co_config c) (co_server c) (co_answers c).

(** What a thread meets: the test, a line, the end of the input. *)
Inductive ReaderEvent := Test | Line (line : string) (file : option json) | EndOfInput.

(** One step of thread [i]; [None]: the process has ended; nothing happens when the event
    is not the thread's. *)
Definition reader_step (i : nat) (e : ReaderEvent) (c : Console) : option Console :=
  match co_readers c !! i, e with
  | Some AtTest, Test => Some (set_readers (<[i := if co_running c then Reading else Left]> (co_readers c)) c)
  | Some Reading, Line line file =>
      let c := set_readers (<[i := AtTest]> (co_readers c)) c in
      match line with EmptyString => Some c | _ => ProcessCommand line file c end
  | Some Reading, EndOfInput => Some (set_readers (<[i := Left]> (co_readers c)) c)
  | _, _ => Some c
  end.

Fixpoint reader_run (es : list (nat * ReaderEvent)) (c : Console) : option Console :=
  match es with
  | [] => Some c
  | (i, e) :: es => c ← reader_step i e c; reader_run es c
  end.

(** ** What a line does *)

(** The console of the server: its own four commands and the eight of the application. *)
Definition registered (c : Console) : Prop :=
  forall config s, co_commands c = co_commands (RegisterConsoleCommands (CommandConsole_new config s)).

Lemma game_command_registered c cmd h : registered c -> commands D dis !! cmd = Some h ->
  exists d, co_commands c !! cmd = Some (mkDescriptor cmd d (GameCommand cmd)).
Proof.
  intros Hr Hc. rewrite (Hr ServerConfig_new Server_new).
  assert (map_Forall (fun k _ => exists d, co_commands (RegisterConsoleCommands (CommandConsole_new ServerConfig_new Server_new)) !! k =
                                          Some (mkDescriptor k d (GameCommand k))) (commands D dis)) as Hall; [|by apply (Hall cmd h)].
  unfold commands, Commands.RegisterCommand. repeat (apply map_Forall_insert_2; [eexists; reflexivity|]). apply map_Forall_empty.
Qed.

(** What the operator types is what the server does: a line whose first word is a command
    of the application, with white space wherever it likes, runs that command's handler
    for the server's own context and exactly the words that were typed, although they are
    joined and split again on the way; and it touches nothing else of the console. *)
Theorem typed_command_runs line file c cmd args h :
  registered c -> words line = cmd :: args -> commands D dis !! cmd = Some h ->
  exists s, h (mkContext 0 1 true) args (co_server c) = Some s /\ ProcessCommand line file c = Some (set_console_server s c).
Proof.
  intros Hr Hl Hc. destruct (game_command_registered c cmd h Hr Hc) as [d Hd].
  pose proof (words_are_words line) as Hw. rewrite Hl in Hw. apply Forall_cons in Hw as [Hw Hargs].
  unfold ProcessCommand. rewrite Hl, Hd. cbn [run_handler handler]. unfold console_command.
  rewrite (proj1 (command_line_roundtrip D dis (mkContext 0 1 true) cmd args h (co_server c) Hw Hargs Hc)).
  destruct (server_commands_return D dis cmd h Hc (mkContext 0 1 true) args (co_server c)) as [s ->]; [done|]. by exists s.
Qed.

(** Whatever is typed, a line that ends in a command the console does not know changes
    nothing and is answered so. *)
Lemma unknown_command_does_nothing line file c cmd args :
  words line = cmd :: args -> co_commands c !! cmd = None -> ProcessCommand line file c = Some (answer (UnknownCommand cmd) c).
Proof. intros Hl Hd. unfold ProcessCommand. by rewrite Hl, Hd. Qed.

Lemma process_server userDB line file c c' bus : ProcessCommand line file c = Some c' ->
  rtc (program_step D dis userDB) (mkProgram (co_server c) bus) (mkProgram (co_server c') bus).
Proof.
  unfold ProcessCommand. destruct (match words line with [] => _ | w :: l => _ end) as [cmd args].
  destruct (co_commands c !! cmd) as [[k d h]|]; [|by intros [= <-]]. destruct h as [| | | |k']; cbn.
  - by intros [= <-].
  - destruct (Load _ _ _ _ _) as [ok config]. by intros [= <-].
  - by intros [= <-].
  - done.
  - intros (s' & Hs & [= <-])%bind_Some. by eapply rtc_once, ps_console.
Qed.

Lemma reader_step_server userDB i e c c' bus : reader_step i e c = Some c' ->
  rtc (program_step D dis userDB) (mkProgram (co_server c) bus) (mkProgram (co_server c') bus).
Proof.
  unfold reader_step. destruct (co_readers c !! i) as [[]|], e as [|line file|]; try (by intros [= <-]).
  destruct line as [|a line]; [by intros [= <-]|].
  intros Hp. by apply (process_server userDB (String a line) file (set_readers (<[i := AtTest]> (co_readers c)) c)).
Qed.

(** The terminal is no way around the server's invariants: whatever lines its threads
    read, in whatever order, what they do to the server are console steps of the game
    server's own transition system, so that a reachable server stays reachable. *)
Theorem console_runs_are_server_runs userDB es c c' bus : reader_run es c = Some c' ->
  program_reachable D dis userDB (mkProgram (co_server c) bus) -> program_reachable D dis userDB (mkProgram (co_server c') bus).
Proof.
  intros Hrun Hc. assert (rtc (program_step D dis userDB) (mkProgram (co_server c) bus) (mkProgram (co_server c') bus)) as Hr.
  { clear Hc. revert c Hrun. induction es as [|[i e] es IH]; intros c; cbn; [by intros [= <-]|].
    destruct (reader_step i e c) as [c1|] eqn:E; cbn; [|done]. intros Hrun. etrans; [by eapply reader_step_server|by apply IH]. }
  induction Hr as [|x y z Hxy _ IH]; [done|]. apply IH. by eapply pr_step.
Qed.

(** ** After the stop *)

(** How many lines are still executed. *)
Fixpoint lines_read (es : list (nat * ReaderEvent)) (c : Console) : nat :=
  match es with
  | [] => O
  | (i, e) :: es =>
      ((match co_readers c !! i, e with Some Reading, Line (String _ _) _ => 1 | _, _ => 0 end) +
       match reader_step i e c with Some c => lines_read es c | None => 0 end)%nat
  end.

Definition is_reading (r : Reader) : nat := if decide (r = Reading) then 1%nat else 0%nat.

Definition readers_reading (c : Console) : nat := sum_list_with is_reading (co_readers c).

Lemma reading_insert l i x y : l !! i = Some x ->
  (sum_list_with is_reading (<[i := y]> l) + is_reading x = sum_list_with is_reading l + is_reading y)%nat.
Proof.
  revert i. induction l as [|z l IH]; intros [|i]; try done; intros Hx.
  - injection Hx as ->. cbn [sum_list_with insert list_insert]. lia.
  - specialize (IH i Hx). change (<[S i := y]> (z :: l)) with (z :: <[i := y]> l). cbn [sum_list_with]. lia.
Qed.

Lemma process_readers line file c c' : ProcessCommand line file c = Some c' -> co_readers c' = co_readers c /\ co_running c' = co_running c.
Proof.
  unfold ProcessCommand. destruct (match words line with [] => _ | w :: l => _ end) as [cmd args].
  destruct (co_commands c !! cmd) as [[k d []]|]; cbn; try (by intros [= <-]); try done.
  - destruct (Load _ _ _ _ _) as [ok config]. by intros [= <-].
  - by intros (s' & _ & [= <-])%bind_Some.
Qed.

(** A stopped console may still execute lines - one for each thread that was waiting for
    one when it was stopped, and no more. *)
Theorem lines_after_the_stop es c : co_running c = false -> (lines_read es c <= readers_reading c)%nat.
Proof.
  revert c. induction es as [|[i e] es IH]; intros c Hc; cbn [lines_read]; [lia|].
  unfold reader_step. destruct (co_readers c !! i) as [x|] eqn:Ex; [|specialize (IH c Hc); lia].
  pose proof (reading_insert (co_readers c) i x AtTest Ex) as Ha. pose proof (reading_insert (co_readers c) i x Left Ex) as Hb.
  assert (is_reading AtTest = 0 /\ is_reading Left = 0 /\ is_reading Reading = 1)%nat as (RA & RL & RR) by done. rewrite ?RA, ?RL in *.
  destruct x, e as [|line file|]; try (specialize (IH c Hc); lia).
  - rewrite Hc. specialize (IH (set_readers (<[i := Left]> (co_readers c)) c) Hc). cbv iota. rewrite ?RR, ?RA, ?RL in *. unfold readers_reading in *. cbn [co_readers set_readers] in *. lia.
  - set (c1 := set_readers (<[i := AtTest]> (co_readers c)) c).
    assert (forall c2, co_readers c2 = co_readers c1 -> co_running c2 = false -> (lines_read es c2 + 1 <= readers_reading c)%nat) as Hdone.
    { intros c2 E2 R2. specialize (IH c2 R2). unfold readers_reading in *. rewrite E2 in IH. rewrite ?RR in *. unfold c1 in IH. cbn [co_readers set_readers] in *. lia. }
    destruct line as [|a line]; [specialize (Hdone c1 eq_refl Hc); lia|].
    destruct (ProcessCommand (String a line) file c1) as [c2|] eqn:Ep.
    + apply process_readers in Ep as [E2 R2]. specialize (Hdone c2 E2 ltac:(by rewrite R2)). lia.
    + rewrite RR in *. unfold readers_reading. lia.
  - specialize (IH (set_readers (<[i := Left]> (co_readers c)) c) Hc). rewrite ?RR, ?RA, ?RL in *. unfold readers_reading in *. cbn [co_readers set_readers] in *. lia.
Qed.

End Console.

(** ** A session at the terminal *)

Definition demo_console : Console := RegisterConsoleCommands (CommandConsole_new ServerConfig_new joined).

Lemma demo_registered : registered demo_console.
Proof. by intros config s. Qed.

#[local] Existing Instance any_order.
#[local] Existing Instance jval_json.
#[local] Existing Instance idle_frame.
#[local] Existing Instance idle_frame_ok.

(** The configuration file of the lines: one that loads, and one that ends in an error. *)
Definition broken_file : jval := JObj [("server", JObj [("port", JNum 7777); ("db_info", JNum 5)])].

Definition type_lines (es : list (nat * ReaderEvent (J := jval_json))) (c : Console) : option Console :=
  reader_run (J := jval_json) whip_data demo_dis (jvalue jbool) (jvalue jint) 8 es c.

Lemma typed_command_runs_witness : exists s,
  ai_command (mkContext 0 1 true) ["smart"%string] joined = Some s /\
  ProcessCommand (J := jval_json) whip_data demo_dis (jvalue jbool) (jvalue jint) 8 "  /ai   smart " None demo_console =
    Some (set_console_server s demo_console).
Proof.
  apply (typed_command_runs (J := jval_json) whip_data demo_dis (jvalue jbool) (jvalue jint) 8 "  /ai   smart " None demo_console "/ai" ["smart"%string] ai_command);
    [exact demo_registered|reflexivity|reflexivity].
Defined.

Definition typed : list (nat * ReaderEvent (J := jval_json)) :=
  [(0%nat, Test); (0%nat, Line EmptyString None); (0%nat, Test); (0%nat, Line "/spawn 3 10" None); (0%nat, Test);
   (0%nat, Line "/reload" (Some broken_file)); (0%nat, Test); (0%nat, Line "spawn" None)].

Lemma console_runs_are_server_runs_witness :
  exists c', type_lines typed (Start demo_console) = Some c' /\
    program_reachable whip_data demo_dis false (mkProgram (co_server c') []) /\
    co_answers c' = [ReloadFailed; UnknownCommand "spawn"].
Proof.
  destruct (type_lines typed (Start demo_console)) as [c'|] eqn:E; [|by vm_compute in E]. exists c'. split; [done|]. split.
  - by apply (console_runs_are_server_runs (J := jval_json) whip_data demo_dis (jvalue jbool) (jvalue jint) 8 false typed
      (Start demo_console) c' []); [|exact joined_program].
  - assert (co_answers <$> type_lines typed (Start demo_console) = Some [ReloadFailed; UnknownCommand "spawn"]) as Ha
      by (vm_compute; reflexivity). rewrite E in Ha. by injection Ha.
Defined.

Lemma lines_after_the_stop_witness :
  (lines_read (J := jval_json) whip_data demo_dis (jvalue jbool) (jvalue jint) 8
     [(0%nat, Line "/god" None); (0%nat, Test); (0%nat, Line "/god" None)]
     (Stop (set_readers [Reading] demo_console)) <= 1)%nat.
Proof.
  apply (lines_after_the_stop (J := jval_json) whip_data demo_dis (jvalue jbool) (jvalue jint) 8 _ (Stop (set_readers [Reading] demo_console)) eq_refl).
Defined.

(** The line that was waited for is executed after the stop, a second one is not. *)
Example one_more_line :
  lines_read (J := jval_json) whip_data demo_dis (jvalue jbool) (jvalue jint) 8
     [(0%nat, Line "/god" None); (0%nat, Test); (0%nat, Line "/god" None)] (Stop (set_readers [Reading] demo_console)) = 1%nat /\
  type_lines [(0%nat, Line "/quit" None)] (Stop (set_readers [Reading] demo_console)) = None.
Proof. split; vm_compute; reflexivity. Qed.

(** A console that is started again while its old thread still waits has two threads. *)
Example two_readers : co_readers (Start (Stop (set_readers [Reading] (Start demo_console)))) = [Reading; AtTest].
Proof. done. Qed.

(** Reloading a broken file changes the settings up to the error. *)
Example reload_changes_half :
  exists c', ProcessCommand (J := jval_json) whip_data demo_dis (jvalue jbool) (jvalue jint) 8 "/reload" (Some broken_file) demo_console = Some c' /\
    co_answers c' = [ReloadFailed] /\ port (co_config c') = 7777.
Proof. eexists. split; [vm_compute; reflexivity|]. by vm_compute. Qed.

(** What [/help] shows, in the order of the map. *)
Example help_lists_all :
  (fun kd => kd.1) <$> in_map_order (co_commands demo_console) =
    ["/add_passive"; "/add_weapon"; "/ai"; "/god"; "/help"; "/levelup"; "/quit"; "/reload"; "/remove_passive"; "/remove_weapon"; "/spawn"; "/status"]%string.
Proof. vm_compute. reflexivity. Qed.
