(* ===== verification/Acceptors.v ===== *)
(** * Acceptors: accepting TCP connections, and the WebSocket server

    Models src/System/Network/NetworkImpl.cpp (without the UDP part, which is in
    [UdpNetwork]), WebSocketNetworkImpl.cpp and WebSocketSession.cpp.  Pending asynchronous
    operations are part of the state, their completion handlers are operations; the runs
    interleave them with broadcasts from other threads.  Every operation holds the mutex of
    what it changes, so each is one step.

    [None] is what the WebSocket library does not allow: a second write on a stream while
    one is pending.  An exception that leaves a handler ends the thread that runs it (the
    I/O threads of Framework.cpp catch it outside of their loop). *)

From stdpp Require Import base numbers gmap list.
From S2P Require Import Prelude.

#[local] Open Scope Z_scope.

(** The bytes of a message. *)
Abbreviation Bytes := (list Z).

(** ** WebSocketSession *)

(** The pending operation of the reading side. *)
Inductive ReadOp := AsyncAccept | AsyncRead.

#[global] Instance ReadOp_eq_dec : EqDecision ReadOp.
Proof. solve_decision. Defined.

(** [requests]: the messages given to [async_write] so far, all of them as text frames. *)
Record WebSocketSession := mkSession {
  _sendQueue : list Bytes;
  _isWriting : bool;
  reading : option ReadOp;
  writing : bool;
  requests : list Bytes
}.

Definition WebSocketSession_new : WebSocketSession := mkSession [] false None false [].

Definition set_reading (r : option ReadOp) (s : WebSocketSession) : WebSocketSession :=
  mkSession (_sendQueue s) (_isWriting s) r (writing s) (requests s).

Definition Run (s : WebSocketSession) : WebSocketSession := set_reading (Some AsyncAccept) s.

Definition DoRead (s : WebSocketSession) : WebSocketSession := set_reading (Some AsyncRead) s.

(** The handler of [async_accept]; [ok]: no error. *)
Definition OnHandshake (ok : bool) (s : WebSocketSession) : WebSocketSession :=
  if ok then DoRead s else set_reading None s.

(** What the read came back with; the message itself is thrown away. *)
Inductive ReadResult := ReadMessage | ReadClosed | ReadLost | ReadError.

Definition OnRead (r : ReadResult) (s : WebSocketSession) : WebSocketSession :=
  match r with ReadMessage => DoRead s | _ => set_reading None s end.

Definition DoWrite (s : WebSocketSession) : option WebSocketSession :=
  match _sendQueue s with
  | [] => Some (mkSession (_sendQueue s) false (reading s) (writing s) (requests s))
  | m :: _ => if writing s then None else Some (mkSession (_sendQueue s) true (reading s) true (requests s ++ [m]))
  end.

Definition Send (message : Bytes) (s : WebSocketSession) : option WebSocketSession :=
  let s := mkSession (_sendQueue s ++ [message]) (_isWriting s) (reading s) (writing s) (requests s) in
  if negb (_isWriting s) then DoWrite s else Some s.

(** The bytes become a string, which goes the same way. *)
Definition SendBinary (data : Bytes) (s : WebSocketSession) : option WebSocketSession :=
  let s := mkSession (_sendQueue s ++ [data]) (_isWriting s) (reading s) (writing s) (requests s) in
  if negb (_isWriting s) then DoWrite s else Some s.

(** The handler of [async_write], which is no longer pending. *)
Definition OnWrite (ok : bool) (s : WebSocketSession) : option WebSocketSession :=
  let s := mkSession (tail (_sendQueue s)) (_isWriting s) (reading s) false (requests s) in
  if negb ok then Some (mkSession (_sendQueue s) false (reading s) (writing s) (requests s)) else DoWrite s.

(** ** WebSocketNetworkImpl *)

(** [_acceptor]: whether there is one, and whether it is open; [accepting]: how many
    [async_accept]s are pending; [_sessions] are pointers to [objects]; [io_threads]: the
    threads that run handlers. *)
Record WebSocketNetwork := mkNetwork {
  _acceptor : option bool;
  _isStopping : bool;
  accepting : nat;
  _sessions : list Z;
  objects : gmap Z WebSocketSession;
  next : Z;
  io_threads : nat
}.

Definition set_accepting (k : nat) (n : WebSocketNetwork) : WebSocketNetwork :=
  mkNetwork (_acceptor n) (_isStopping n) k (_sessions n) (objects n) (next n) (io_threads n).

Definition set_sessions (l : list Z) (o : gmap Z WebSocketSession) (x : Z) (n : WebSocketNetwork) : WebSocketNetwork :=
  mkNetwork (_acceptor n) (_isStopping n) (accepting n) l o x (io_threads n).

(** An I/O thread leaves [io_context::run] by an exception. *)
Definition thread_ends (n : WebSocketNetwork) : WebSocketNetwork :=
  mkNetwork (_acceptor n) (_isStopping n) (accepting n) (_sessions n) (objects n) (next n) (pred (io_threads n)).

Definition DoAccept (n : WebSocketNetwork) : WebSocketNetwork :=
  if negb (bool_decide (is_Some (_acceptor n))) || _isStopping n then n else set_accepting (S (accepting n)) n.

(** [listening]: whether opening, binding and listening worked; otherwise they threw. *)
Definition Start (listening : bool) (n : WebSocketNetwork) : bool * WebSocketNetwork :=
  let n := mkNetwork (Some listening) false (accepting n) (_sessions n) (objects n) (next n) (io_threads n) in
  if listening then (true, DoAccept n) else (false, n).

Definition Stop (n : WebSocketNetwork) : WebSocketNetwork :=
  mkNetwork ((fun _ => false) <$> _acceptor n) true (accepting n) [] (objects n) (next n) (io_threads n).

(** [Vanished]: the peer is gone already, so that [remote_endpoint] throws. *)
Inductive AcceptResult := Accepted | Vanished | AcceptError.

Definition OnAccept (r : AcceptResult) (n : WebSocketNetwork) : WebSocketNetwork :=
  if _isStopping n then n else
  match r with
  | AcceptError => DoAccept n
  | Vanished => thread_ends n
  | Accepted => DoAccept (set_sessions (_sessions n ++ [next n]) (<[next n := Run WebSocketSession_new]> (objects n)) (next n + 1) n)
  end.

(** [use_count] of a pointer in [_sessions]: every pending operation holds one more. *)
Definition use_count (n : WebSocketNetwork) (id : Z) : Z :=
  match objects n !! id with
  | Some s => 1 + (match reading s with Some _ => 1 | None => 0 end) + (if writing s then 1 else 0)
  | None => 1
  end.

(** [objects[id]] through [f]. *)
Definition on_session (f : WebSocketSession -> option WebSocketSession) (id : Z) (o : gmap Z WebSocketSession) :
    option (gmap Z WebSocketSession) :=
  s ← o !! id; s ← f s; Some (<[id := s]> o).

Fixpoint for_each (f : WebSocketSession -> option WebSocketSession) (ids : list Z) (o : gmap Z WebSocketSession) :
    option (gmap Z WebSocketSession) :=
  match ids with [] => Some o | id :: ids => o ← on_session f id o; for_each f ids o end.

(** The sessions that only the vector refers to go first. *)
Definition broadcast (f : WebSocketSession -> option WebSocketSession) (n : WebSocketNetwork) : option WebSocketNetwork :=
  let live := filter (fun id => use_count n id <> 1) (_sessions n) in
  o ← for_each f live (objects n);
  Some (set_sessions live o (next n) n).

Definition Broadcast (message : Bytes) : WebSocketNetwork -> option WebSocketNetwork := broadcast (Send message).
Definition BroadcastBinary (data : Bytes) : WebSocketNetwork -> option WebSocketNetwork := broadcast (SendBinary data).

(** ** NetworkImpl

    [created]: the sockets given to [SessionFactory::CreateSession], whose sessions are
    then told that they are connected; [udp_port]: where the UDP network listens. *)
Record Network := mkTcp {
  tcp_open : bool;
  tcp_stopping : bool;
  tcp_accepting : nat;
  created : list Z;
  udp_port : option Z;
  websockets : WebSocketNetwork;
  io_stopped : bool
}.

Definition StartAccept (n : Network) : Network :=
  if negb (tcp_open n) then n else
  mkTcp (tcp_open n) (tcp_stopping n) (S (tcp_accepting n)) (created n) (udp_port n) (websockets n) (io_stopped n).

Definition with_websockets (f : WebSocketNetwork -> WebSocketNetwork) (n : Network) : Network :=
  mkTcp (tcp_open n) (tcp_stopping n) (tcp_accepting n) (created n) (udp_port n) (f (websockets n)) (io_stopped n).

(** How far the calls on the acceptor get before one throws. *)
Inductive Listening := OpenFails | BindFails | Listens.

(** The acceptor stays open when binding fails; that the UDP network did not start is
    only logged. *)
Definition Network_Start (port : Z) (listening : Listening) (udp_ok : bool) (n : Network) : bool * Network :=
  let n := mkTcp (tcp_open n) false (tcp_accepting n) (created n) (udp_port n) (websockets n) (io_stopped n) in
  match (if tcp_open n then OpenFails else listening) with
  | OpenFails => (false, n)
  | BindFails => (false, mkTcp true false (tcp_accepting n) (created n) (udp_port n) (websockets n) (io_stopped n))
  | Listens =>
      let n := StartAccept (mkTcp true false (tcp_accepting n) (created n) (udp_port n) (websockets n) (io_stopped n)) in
      let udp := if udp_ok then Some (wrap 16 (port + 1)) else udp_port n in
      (true, mkTcp (tcp_open n) (tcp_stopping n) (tcp_accepting n) (created n) udp (websockets n) (io_stopped n))
  end.

Definition Network_Stop (n : Network) : Network :=
  mkTcp false true (tcp_accepting n) (created n) (udp_port n) (Stop (websockets n)) true.

Inductive TcpAcceptResult := TcpAccepted (socket : Z) | TcpVanished | TcpAborted | TcpAcceptError.

(** The handler of [async_accept]; also here [remote_endpoint] throws if the peer is gone. *)
Definition OnTcpAccept (r : TcpAcceptResult) (n : Network) : Network :=
  let n := mkTcp (tcp_open n) (tcp_stopping n) (pred (tcp_accepting n)) (created n) (udp_port n) (websockets n) (io_stopped n) in
  if tcp_stopping n then n else
  match r with
  | TcpAccepted socket =>
      StartAccept (mkTcp (tcp_open n) (tcp_stopping n) (tcp_accepting n) (created n ++ [socket]) (udp_port n) (websockets n) (io_stopped n))
  | TcpVanished => with_websockets thread_ends n
  | TcpAborted => n
  | TcpAcceptError => StartAccept n
  end.

(** ** Runs *)

Inductive Event :=
| EvAccept (r : AcceptResult)
| EvHandshake (id : Z) (ok : bool)
| EvRead (id : Z) (r : ReadResult)
| EvWrite (id : Z) (ok : bool)
| EvBroadcast (message : Bytes)
| EvBroadcastBinary (data : Bytes)
| EvThreadEnds
| EvStop.

(** A handler needs its pending operation and a thread to run on; a thread may end in a
    handler of another part of the program ([EvThreadEnds]). *)
Definition can (e : Event) (n : WebSocketNetwork) : bool :=
  match e with
  | EvAccept _ => (0 <? io_threads n)%nat && (0 <? accepting n)%nat
  | EvHandshake id _ => (0 <? io_threads n)%nat && bool_decide ((reading <$> objects n !! id) = Some (Some AsyncAccept))
  | EvRead id _ => (0 <? io_threads n)%nat && bool_decide ((reading <$> objects n !! id) = Some (Some AsyncRead))
  | EvWrite id _ => (0 <? io_threads n)%nat && bool_decide ((writing <$> objects n !! id) = Some true)
  | EvThreadEnds => (0 <? io_threads n)%nat
  | _ => true
  end.

Definition on_object (f : WebSocketSession -> option WebSocketSession) (id : Z) (n : WebSocketNetwork) : option WebSocketNetwork :=
  o ← on_session f id (objects n); Some (set_sessions (_sessions n) o (next n) n).

Definition handle (e : Event) (n : WebSocketNetwork) : option WebSocketNetwork :=
  match e with
  | EvAccept r => Some (OnAccept r (set_accepting (pred (accepting n)) n))
  | EvHandshake id ok => on_object (fun s => Some (OnHandshake ok s)) id n
  | EvRead id r => on_object (fun s => Some (OnRead r s)) id n
  | EvWrite id ok => on_object (OnWrite ok) id n
  | EvBroadcast m => Broadcast m n
  | EvBroadcastBinary m => BroadcastBinary m n
  | EvThreadEnds => Some (thread_ends n)
  | EvStop => Some (Stop n)
  end.

Inductive run (n : WebSocketNetwork) : list Event -> WebSocketNetwork -> Prop :=
| run_nil : run n [] n
| run_snoc es n1 e n2 : run n es n1 -> can e n1 = true -> handle e n1 = Some n2 -> run n (es ++ [e]) n2.

(** The handlers of NetworkImpl and of its WebSocket server, and its [Stop]. *)
Inductive NetworkEvent := TcpEvent (r : TcpAcceptResult) | WsEvent (e : Event) | NetworkStop.

(** Nothing but an abort comes from a closed acceptor, and nothing runs in a stopped
    [io_context] but the broadcasts of other threads. *)
Definition network_can (e : NetworkEvent) (n : Network) : bool :=
  match e with
  | WsEvent EvThreadEnds => false
  | TcpEvent r => negb (io_stopped n) && (0 <? io_threads (websockets n))%nat && (0 <? tcp_accepting n)%nat &&
                  match r with TcpAborted => negb (tcp_open n) | _ => tcp_open n end
  | WsEvent (EvBroadcast m) => true
  | WsEvent (EvBroadcastBinary m) => true
  | WsEvent EvStop => false
  | WsEvent e => negb (io_stopped n) && can e (websockets n)
  | NetworkStop => true
  end.

Definition network_handle (e : NetworkEvent) (n : Network) : option Network :=
  match e with
  | TcpEvent r => Some (OnTcpAccept r n)
  | WsEvent e => w ← handle e (websockets n); Some (with_websockets (fun _ => w) n)
  | NetworkStop => Some (Network_Stop n)
  end.

Inductive network_run (n : Network) : list NetworkEvent -> Network -> Prop :=
| network_run_nil : network_run n [] n
| network_run_snoc es n1 e n2 :
    network_run n es n1 -> network_can e n1 = true -> network_handle e n1 = Some n2 -> network_run n (es ++ [e]) n2.

Definition started (threads : nat) : WebSocketNetwork :=
  (Start true (mkNetwork None false 0 [] ∅ 1 threads)).2.

(** ** A session's write queue *)

(** The messages that wait for a write. *)
Definition waiting (s : WebSocketSession) : list Bytes := if writing s then tail (_sendQueue s) else _sendQueue s.

(** All that the session was told to send. *)
Definition offered (s : WebSocketSession) : list Bytes := requests s ++ waiting s.

(** The pending write is that of the first message. *)
Definition session_ok (s : WebSocketSession) : Prop :=
  _isWriting s = writing s /\ (writing s = true -> exists m q r, _sendQueue s = m :: q /\ requests s = r ++ [m]).

Lemma new_session_ok : session_ok (Run WebSocketSession_new).
Proof. by split. Qed.

Lemma session_ok_reading r s : session_ok s -> session_ok (set_reading r s) /\ offered (set_reading r s) = offered s.
Proof. done. Qed.

Lemma DoWrite_spec s : writing s = false ->
  exists s', DoWrite s = Some s' /\ session_ok s' /\ offered s' = offered s /\ reading s' = reading s /\
    (writing s' = false -> waiting s' = []).
Proof.
  intros Hw. unfold DoWrite, offered, waiting, session_ok. rewrite Hw. destruct (_sendQueue s) as [|m q] eqn:Eq.
  - eexists. split; [reflexivity|]. by cbn.
  - eexists. split; [reflexivity|]. cbn. rewrite <- app_assoc. split_and!; try done. intros _. by exists m, q, (requests s).
Qed.

Lemma Send_spec m s : session_ok s ->
  exists s', Send m s = Some s' /\ session_ok s' /\ offered s' = offered s ++ [m] /\ reading s' = reading s /\
    (writing s' = false -> waiting s' = []).
Proof.
  intros [Hw Hq]. unfold Send. cbn. rewrite Hw. destruct (writing s) eqn:Ew; cbn.
  - destruct (Hq eq_refl) as (m0 & q & r & Eq & Er). eexists. split; [reflexivity|].
    unfold session_ok, offered, waiting. cbn. rewrite Ew, Eq. cbn. rewrite app_assoc. split_and!; try done.
    intros _. by exists m0, (q ++ [m]), r.
  - set (s0 := mkSession _ _ _ _ _). destruct (DoWrite_spec s0 eq_refl) as (s' & H1 & H2 & H3 & H4 & H5).
    exists s'. split_and!; try done. rewrite H3. unfold offered, waiting. cbn. by rewrite Ew, app_assoc.
Qed.

Lemma OnWrite_spec ok s : session_ok s -> writing s = true ->
  exists s', OnWrite ok s = Some s' /\ session_ok s' /\ offered s' = offered s /\ reading s' = reading s /\
    (ok = true -> writing s' = false -> waiting s' = []).
Proof.
  intros [_ Hq] Hw. unfold OnWrite. destruct ok; cbn.
  - set (s0 := mkSession _ _ _ _ _). destruct (DoWrite_spec s0 eq_refl) as (s' & H1 & H2 & H3 & H4 & H5).
    exists s'. split_and!; try done. rewrite H3. unfold offered, waiting. cbn. by rewrite Hw.
  - eexists. split; [reflexivity|]. unfold session_ok, offered, waiting. cbn. by rewrite Hw.
Qed.

(** ** The network's invariant *)

Record net_inv (n : WebSocketNetwork) : Prop := mk_net_inv {
  ni_nodup : NoDup (_sessions n);
  ni_objects : forall id, id ∈ _sessions n -> is_Some (objects n !! id);
  ni_fresh : forall id s, objects n !! id = Some s -> id < next n /\ session_ok s
}.

(** What a step may do to an object: [f] is how its offered messages grow. *)
Lemma on_session_spec f id o s : o !! id = Some s -> session_ok s ->
  (exists s', f s = Some s' /\ session_ok s') ->
  exists s', f s = Some s' /\ on_session f id o = Some (<[id := s']> o) /\ session_ok s'.
Proof. intros Hs _ (s' & Hf & Hok). exists s'. unfold on_session. rewrite Hs. cbn. by rewrite Hf. Qed.

(** Every session of [ids] is told to send [m], no other one is touched. *)
Lemma for_each_send m ids : forall o, NoDup ids -> (forall id, id ∈ ids -> is_Some (o !! id)) ->
  (forall id s, o !! id = Some s -> session_ok s) ->
  exists o', for_each (Send m) ids o = Some o' /\ forall id,
    match o !! id with
    | None => o' !! id = None
    | Some s => if bool_decide (id ∈ ids)
                then exists s', o' !! id = Some s' /\ session_ok s' /\ offered s' = offered s ++ [m] /\ (writing s' = false -> waiting s' = [])
                else o' !! id = Some s
    end.
Proof.
  induction ids as [|i ids IH]; intros o Hn Hs Hok.
  - exists o. split; [done|]. intros id. destruct (o !! id); [|done]. rewrite bool_decide_false; [done|]. apply not_elem_of_nil.
  - apply NoDup_cons in Hn as [Hi Hn]. destruct (Hs i) as [s Es]; [by left|].
    destruct (Send_spec m s (Hok i s Es)) as (s' & H1 & H2 & H3 & _ & H5).
    destruct (IH (<[i := s']> o)) as (o' & H6 & H7); [done| | |].
    + intros id Hid. apply lookup_insert_is_Some'. right. apply Hs. by right.
    + intros id s0. destruct (decide (id = i)) as [->|]; [rewrite lookup_insert_eq; by intros [= <-]|].
      rewrite lookup_insert_ne by done. apply Hok.
    + exists o'. split; [cbn; unfold on_session; rewrite Es; cbn; by rewrite H1|].
      intros id. specialize (H7 id). destruct (decide (id = i)) as [->|Hne].
      * rewrite Es, bool_decide_true by (by left). rewrite lookup_insert_eq, bool_decide_false in H7 by done. by exists s'.
      * rewrite lookup_insert_ne in H7 by done. destruct (o !! id); [|done].
        assert (bool_decide (id ∈ i :: ids) = bool_decide (id ∈ ids)) as ->; [|done].
        apply bool_decide_ext. rewrite elem_of_cons. naive_solver.
Qed.

(** ** What a step does to the sessions

    [settled]: what waits, waits for a write that is pending.  [grown]: every object
    keeps what it was offered, or is offered one more message if [heard] is one and the
    object is still listed afterwards; all but [failed] stay settled. *)
Definition settled (s : WebSocketSession) : Prop := writing s = false -> waiting s = [].

Definition grown (heard : option Bytes) (failed : option Z) (n n' : WebSocketNetwork) : Prop :=
  forall id s, objects n !! id = Some s -> exists s', objects n' !! id = Some s' /\
    (failed <> Some id -> settled s -> settled s') /\
    (id ∈ _sessions n' -> id ∈ _sessions n /\ offered s' = offered s ++ option_list heard).

Definition broadcast_of (e : Event) : option Bytes :=
  match e with EvBroadcast m | EvBroadcastBinary m => Some m | _ => None end.

Definition failed_write (e : Event) : option Z := match e with EvWrite id false => Some id | _ => None end.

Lemma set_accepting_inv k n : net_inv n -> net_inv (set_accepting k n).
Proof. by intros []. Qed.

Lemma DoAccept_same n : objects (DoAccept n) = objects n /\ _sessions (DoAccept n) = _sessions n /\ next (DoAccept n) = next n.
Proof. unfold DoAccept. by destruct (_ || _). Qed.

Lemma DoAccept_inv n : net_inv n -> net_inv (DoAccept n).
Proof. unfold DoAccept. intros H. destruct (_ || _); [done|]. by apply set_accepting_inv. Qed.

Lemma on_object_step f id n s failed : net_inv n -> objects n !! id = Some s ->
  (exists s', f s = Some s' /\ session_ok s' /\ offered s' = offered s /\ (failed <> Some id -> settled s -> settled s')) ->
  exists n', on_object f id n = Some n' /\ net_inv n' /\ grown None failed n n' /\ next n' = next n.
Proof.
  intros [H1 H2 H3] Hs (s' & Hf & Hok & Hof & Hst). unfold on_object, on_session. rewrite Hs. cbn. rewrite Hf. cbn.
  eexists. split; [reflexivity|]. split_and!; [split; cbn|intros i si Hi; cbn|done].
  - done.
  - intros i Hi. apply lookup_insert_is_Some'. right. by apply H2.
  - intros i si. destruct (decide (i = id)) as [->|]; [rewrite lookup_insert_eq; intros [= <-]|rewrite lookup_insert_ne by done; apply H3].
    split; [by eapply H3|done].
  - destruct (decide (i = id)) as [->|]; [rewrite lookup_insert_eq|rewrite lookup_insert_ne by done].
    + rewrite Hs in Hi. injection Hi as <-. eexists. split; [reflexivity|]. split; [done|]. intros Hin. by rewrite app_nil_r.
    + exists si. split; [done|]. split; [done|]. intros Hin. by rewrite app_nil_r.
Qed.

Lemma broadcast_step m n : net_inv n ->
  exists n', Broadcast m n = Some n' /\ net_inv n' /\ grown (Some m) None n n' /\ next n' = next n.
Proof.
  intros [H1 H2 H3]. unfold Broadcast, broadcast. set (live := filter _ _).
  assert (forall id, id ∈ live -> id ∈ _sessions n) as Hlive by (intros id; unfold live; rewrite list_elem_of_filter; tauto).
  assert (NoDup live) as Hnd by (by apply NoDup_filter).
  destruct (for_each_send m live (objects n)) as (o' & Ho & Hspec); [done|by intros id ?%Hlive; apply H2|intros id s ?; by eapply H3|].
  rewrite Ho. cbn. eexists. split; [reflexivity|]. split_and!; [split; cbn|intros i s Hi; cbn|done].
  - done.
  - intros id Hid. specialize (Hspec id). destruct (H2 id) as [s Es]; [by apply Hlive|]. rewrite Es, bool_decide_true in Hspec by done.
    destruct Hspec as (s' & -> & _). by eexists.
  - intros id s' Hs'. specialize (Hspec id). destruct (objects n !! id) as [s|] eqn:Es; [|congruence]. destruct (H3 id s Es) as [Hlt Hok].
    split; [done|]. case_bool_decide; [destruct Hspec as (s1 & E1 & Hok1 & _)|]; congruence.
  - specialize (Hspec i). rewrite Hi in Hspec. case_bool_decide as Hin.
    + destruct Hspec as (s' & -> & _ & Hof & Hst). eexists. split; [reflexivity|]. split; [by intros _ _|]. intros _. split; [by apply Hlive|done].
    + exists s. split; [done|]. split; [done|]. by intros ?.
Qed.

Lemma grown_refl n n' : objects n' = objects n -> _sessions n' = _sessions n -> grown None None n n'.
Proof. unfold grown. intros -> ->. intros id s Hs. exists s. split; [done|]. split; [done|]. by rewrite app_nil_r. Qed.

Lemma accept_step r n : net_inv n -> net_inv (OnAccept r n) /\ next n <= next (OnAccept r n) /\ grown None None n (OnAccept r n).
Proof.
  intros Hi. unfold OnAccept. destruct (_isStopping n); [split_and!; [done|lia|by apply grown_refl]|]. destruct r.
  - set (n1 := set_sessions _ _ _ _). destruct (DoAccept_same n1) as (Eo & El & En). unfold grown. rewrite Eo, El, En. cbn.
    destruct Hi as [H1 H2 H3]. assert (objects n !! next n = None) as Hf.
    { destruct (objects n !! next n) as [s|] eqn:Es; [|done]. destruct (H3 _ _ Es). lia. }
    split_and!; [apply DoAccept_inv; split; cbn|lia|].
    + apply NoDup_app. split_and!; [done| |by apply NoDup_singleton]. intros i Hin ->%list_elem_of_singleton. destruct (H2 _ Hin). congruence.
    + intros i [Hin|Hin%list_elem_of_singleton]%elem_of_app; apply lookup_insert_is_Some'; [right; by apply H2|by left].
    + intros i s. destruct (decide (i = next n)) as [->|]; [rewrite lookup_insert_eq; intros [= <-]; split; [lia|apply new_session_ok]|].
      rewrite lookup_insert_ne by done. intros Hs. destruct (H3 _ _ Hs). split; [lia|done].
    + intros i s Hs. assert (i <> next n) by congruence. rewrite lookup_insert_ne by done. exists s. split; [done|]. split; [done|].
      rewrite app_nil_r. intros [Hin|Hin%list_elem_of_singleton]%elem_of_app; done.
  - split_and!; [by destruct Hi|cbn; lia|by apply grown_refl].
  - destruct (DoAccept_same n) as (Eo & El & En). rewrite En. split_and!; [by apply DoAccept_inv|lia|by apply grown_refl].
Qed.

Lemma can_reading op id n : bool_decide ((reading <$> objects n !! id) = Some (Some op)) = true ->
  bool_decide (((fun s => bool_decide (reading s = Some op)) <$> objects n !! id) = Some true) = true.
Proof.
  intros Hc%bool_decide_eq_true. apply bool_decide_eq_true. destruct (objects n !! id) as [s|]; [|done]. cbn in *.
  injection Hc as ->. by rewrite bool_decide_true.
Qed.

(** Every step that can be taken is defined and keeps the invariant. *)
Lemma handle_step e n : net_inv n -> can e n = true ->
  exists n', handle e n = Some n' /\ net_inv n' /\ next n <= next n' /\ grown (broadcast_of e) (failed_write e) n n'.
Proof.
  intros Hi Hc. assert (forall id f op failed, bool_decide ((op <$> objects n !! id) = Some true) = true ->
    (forall s, session_ok s -> op s = true -> exists s', f s = Some s' /\ session_ok s' /\ offered s' = offered s /\
       (failed <> Some id -> settled s -> settled s')) ->
    exists n', on_object f id n = Some n' /\ net_inv n' /\ next n <= next n' /\ grown None failed n n') as Hobj.
  { intros id f op failed Hop%bool_decide_eq_true Hf. destruct (objects n !! id) as [s|] eqn:Hs; [|done]. injection Hop as Hop.
    destruct (on_object_step f id n s failed Hi Hs) as (n' & ? & ? & ? & ?); [apply Hf; [by eapply ni_fresh|done]|].
    exists n'. split_and!; try done; lia. }
  assert (forall m, exists n', Broadcast m n = Some n' /\ net_inv n' /\ next n <= next n' /\ grown (Some m) None n n') as Hbc.
  { intros m. destruct (broadcast_step m n Hi) as (n' & ? & ? & ? & ?). exists n'. split_and!; try done; lia. }
  destruct e as [r|id ok|id r|id ok|m|m| |]; cbn [handle broadcast_of failed_write] in *; [| | | |apply Hbc|apply Hbc| |].
  - eexists. split; [reflexivity|]. apply (accept_step r (set_accepting (pred (accepting n)) n)). by apply set_accepting_inv.
  - apply andb_true_iff in Hc as [_ Hc]. eapply (Hobj id _ (fun s => bool_decide (reading s = Some AsyncAccept))); [by apply can_reading|].
    intros s Hs _. eexists. split; [reflexivity|]. by destruct ok.
  - apply andb_true_iff in Hc as [_ Hc]. eapply (Hobj id _ (fun s => bool_decide (reading s = Some AsyncRead))); [by apply can_reading|].
    intros s Hs _. eexists. split; [reflexivity|]. by destruct r.
  - apply andb_true_iff in Hc as [_ Hc]. eapply (Hobj id _ writing); [done|]. intros s Hs Hw.
    destruct (OnWrite_spec ok s Hs Hw) as (s' & H1 & H2 & H3 & _ & H5). exists s'. split_and!; try done.
    intros Hne _ Hw'. apply H5; [by destruct ok|done].
  - eexists. split; [reflexivity|]. split_and!; [by destruct Hi|cbn; lia|by apply grown_refl].
  - eexists. split; [reflexivity|]. split_and!; [|cbn; lia|].
    + destruct Hi as [_ _ H3]. split; cbn; [constructor|by intros id ?%elem_of_nil|done].
    + intros i s Hs. exists s. split; [done|]. split; [done|]. by intros ?%elem_of_nil.
Qed.

Lemma run_inv n es n' : run n es n' -> net_inv n -> net_inv n' /\ next n <= next n'.
Proof.
  induction 1 as [|es n1 e n2 _ IH Hc Hh]; intros Hi; [split; [done|lia]|]. destruct (IH Hi) as [Hi1 Hn].
  destruct (handle_step e n1 Hi1 Hc) as (n' & Hh' & Hi' & Hn' & _). rewrite Hh in Hh'. injection Hh' as <-. split; [done|lia].
Qed.

Lemma started_inv k : net_inv (started k).
Proof. split; cbn; [constructor|by intros id ?%elem_of_nil|by intros id s]. Qed.

(** WebSocket clients never see the library misused: in every interleaving of
    connections, handshakes, reads, completed and failed writes, broadcasts and a stop,
    whatever can happen next is defined (no second write while one is pending), the
    sessions listed are distinct live objects, and a session's flag is set exactly while
    its first message is being written. *)
Theorem websocket_writes_one_at_a_time k es n (Hrun : run (started k) es n) :
  (forall e, can e n = true -> is_Some (handle e n)) /\
  NoDup (_sessions n) /\
  forall id, id ∈ _sessions n -> exists s, objects n !! id = Some s /\ _isWriting s = writing s /\
    (writing s = true -> exists m q r, _sendQueue s = m :: q /\ requests s = r ++ [m]).
Proof.
  destruct (run_inv _ _ _ Hrun (started_inv k)) as [Hi _]. split_and!.
  - intros e Hc. destruct (handle_step e n Hi Hc) as (n' & -> & _). by eexists.
  - apply Hi.
  - intros id Hin. destruct (ni_objects _ Hi id Hin) as [s Hs]. exists s. split; [done|]. by eapply ni_fresh.
Qed.

(** The messages of the broadcasts among the events. *)
Definition broadcasts (es : list Event) : list Bytes := omap broadcast_of es.

(** From a moment on at which a session has been offered nothing. *)
Lemma object_kept n es n' id s : run n es n' -> net_inv n -> objects n !! id = Some s ->
  exists s', objects n' !! id = Some s' /\ (EvWrite id false ∉ es -> settled s -> settled s').
Proof.
  induction 1 as [|es n1 e n2 Hr IH Hc Hh]; intros Hi Hs; [by exists s|]. destruct (IH Hi Hs) as (s1 & Hs1 & Hst1).
  destruct (run_inv _ _ _ Hr Hi) as [Hi1 _]. destruct (handle_step e n1 Hi1 Hc) as (n' & Hh' & _ & _ & Hg).
  rewrite Hh in Hh'. injection Hh' as <-. destruct (Hg id s1 Hs1) as (s2 & Hs2 & Hst2 & _). exists s2. split; [done|].
  rewrite elem_of_app, list_elem_of_singleton. intros Hno Hst. apply Hst2; [|apply Hst1; tauto].
  intros He. apply Hno. right. destruct e as [| | |i []| | | |]; try done. by injection He as ->.
Qed.

Lemma listed_since n es n' id s : run n es n' -> net_inv n -> objects n !! id = Some s -> offered s = [] -> id ∈ _sessions n' ->
  exists s', objects n' !! id = Some s' /\ offered s' = broadcasts es.
Proof.
  induction 1 as [|es n1 e n2 Hr IH Hc Hh]; intros Hi Hs Ho Hin; [by exists s|].
  destruct (run_inv _ _ _ Hr Hi) as [Hi1 _]. destruct (handle_step e n1 Hi1 Hc) as (n' & Hh' & _ & _ & Hg).
  rewrite Hh in Hh'. injection Hh' as <-. destruct (object_kept _ _ _ _ _ Hr Hi Hs) as (s1 & Hs1 & _).
  destruct (Hg id s1 Hs1) as (s2 & Hs2 & _ & Hkeep). destruct (Hkeep Hin) as [Hin1 Hof]. exists s2. split; [done|].
  destruct (IH Hi Hs Ho Hin1) as (s1' & E & Ho1). rewrite Hs1 in E. injection E as <-. unfold broadcasts. rewrite omap_app, Hof, Ho1.
  f_equal.
Qed.


(** ** NetworkImpl *)

(** Listening with [threads] I/O threads. *)
Definition network_started (port : Z) (udp_ok : bool) (threads : nat) : Network :=
  (Network_Start port Listens udp_ok (mkTcp false false 0 [] None (started threads) false)).2.

(** What the WebSocket server sees of an event. *)
Definition ws_event (e : NetworkEvent) : option Event :=
  match e with TcpEvent TcpVanished => Some EvThreadEnds | TcpEvent _ => None | WsEvent e => Some e | NetworkStop => Some EvStop end.

(** The part of [n] that its own handlers leave alone until it is stopped. *)
Definition listening (n : Network) : Prop :=
  tcp_stopping n = io_stopped n /\ tcp_open n = negb (io_stopped n) /\
  (io_stopped n = false -> _acceptor (websockets n) = Some true /\ _isStopping (websockets n) = false).

Lemma handle_acceptor e n n' : handle e n = Some n' -> e <> EvStop ->
  _acceptor n' = _acceptor n /\ _isStopping n' = _isStopping n.
Proof.
  assert (forall m, _acceptor (DoAccept m) = _acceptor m /\ _isStopping (DoAccept m) = _isStopping m) as Hd
    by (intros m; unfold DoAccept; by destruct (_ || _)).
  destruct e as [r|id ok|id r|id ok|m|m| |]; cbn; try done; unfold on_object, Broadcast, BroadcastBinary, broadcast.
  - unfold OnAccept. intros [= <-] _. destruct (_isStopping _) eqn:E; [done|]. destruct r; rewrite ?(proj1 (Hd _)), ?(proj2 (Hd _)); done.
  - by destruct (on_session _ _ _); intros [= <-].
  - by destruct (on_session _ _ _); intros [= <-].
  - by destruct (on_session _ _ _); intros [= <-].
  - by destruct (for_each _ _ _); intros [= <-].
  - by destruct (for_each _ _ _); intros [= <-].
  - by intros [= <-].
Qed.

Lemma network_step e n n' : listening n -> network_can e n = true -> network_handle e n = Some n' ->
  listening n' /\ match ws_event e with
                  | Some e' => can e' (websockets n) = true /\ handle e' (websockets n) = Some (websockets n')
                  | None => websockets n' = websockets n
                  end.
Proof.
  intros (Hs & Ho & Hw) Hc Hh. destruct e as [r|e|].
  - cbn in Hc. apply andb_true_iff in Hc as [[[Hio Ht]%andb_true_iff Ha]%andb_true_iff Hr].
    apply negb_true_iff in Hio. destruct (Hw Hio) as [Hw1 Hw2]. cbn in Hh. unfold OnTcpAccept in Hh. cbn in Hh. rewrite Hs, Hio in Hh.
    rewrite Hio in Ho. destruct r; cbn in Hh; unfold StartAccept in Hh; cbn in Hh; rewrite ?Ho in Hh; injection Hh as <-;
      unfold listening; cbn; rewrite ?Ho, ?Hio, ?Hs; by split_and!.
  - assert (can e (websockets n) = true /\ e <> EvStop) as [Hce Hne].
    { destruct e; cbn in Hc; try done; split; try done; try (apply andb_true_iff in Hc as [_ Hc]; exact Hc). }
    cbn in Hh. destruct (handle e (websockets n)) as [w|] eqn:E; [|done]. injection Hh as <-.
    destruct (handle_acceptor _ _ _ E Hne) as [E1 E2]. unfold listening. cbn. rewrite E1, E2. by split_and!.
  - injection Hh as <-. by split.
Qed.

Lemma network_run_websockets n es n' : listening n -> network_run n es n' ->
  listening n' /\ run (websockets n) (omap ws_event es) (websockets n').
Proof.
  intros Hl. induction 1 as [|es n1 e n2 _ [IH1 IH2] Hc Hh]; [split; [done|constructor]|].
  destruct (network_step e n1 n2 IH1 Hc Hh) as [Hl2 He]. split; [done|]. rewrite omap_app. cbn.
  destruct (ws_event e) as [e'|]; [destruct He; by econstructor|]. rewrite app_nil_r. by rewrite He.
Qed.

(** The clients that were gone when their connection was accepted. *)
Definition tcp_vanished (es : list NetworkEvent) : nat :=
  length (omap (fun e => match e with TcpEvent TcpVanished => Some tt | _ => None end) es).
Definition ws_vanished (es : list NetworkEvent) : nat :=
  length (omap (fun e => match e with WsEvent (EvAccept Vanished) => Some tt | _ => None end) es).

Lemma handle_accepting e n n' : handle e n = Some n' -> can e n = true -> _acceptor n = Some true -> _isStopping n = false -> e <> EvStop ->
  (accepting n' + match e with EvAccept Vanished => 1 | _ => 0 end = accepting n /\
   io_threads n' + match e with EvAccept Vanished | EvThreadEnds => 1 | _ => 0 end = io_threads n)%nat.
Proof.
  intros Hh Hc Ha Hs Hne. destruct e as [r|id ok|id r|id ok|m|m| |]; cbn in Hh; unfold can in Hc; try done;
    unfold on_object, Broadcast, BroadcastBinary, broadcast in Hh.
  - apply andb_true_iff in Hc as [Ht%Nat.ltb_lt Hk%Nat.ltb_lt]. injection Hh as <-. unfold OnAccept, DoAccept. cbn. rewrite Hs.
    destruct r; cbn; rewrite ?Ha, ?Hs, ?bool_decide_true by (by eexists); cbn; lia.
  - destruct (on_session _ _ _); [injection Hh as <-; cbn; lia|done].
  - destruct (on_session _ _ _); [injection Hh as <-; cbn; lia|done].
  - destruct (on_session _ _ _); [injection Hh as <-; cbn; lia|done].
  - destruct (for_each _ _ _); [injection Hh as <-; cbn; lia|done].
  - destruct (for_each _ _ _); [injection Hh as <-; cbn; lia|done].
  - apply Nat.ltb_lt in Hc. injection Hh as <-. cbn. lia.
Qed.

Lemma started_listening port udp k : listening (network_started port udp k).
Proof. by split_and!. Qed.

(** How long the server accepts clients: until it is stopped, in every run, each of
    its two acceptors has exactly one pending accept, unless a client of that acceptor
    had vanished when it was accepted: then it has none, and never will.  Every such
    client also ends one I/O thread; nothing else does. *)
Theorem accept_loops_exact port udp k es n (Hrun : network_run (network_started port udp k) es n) (Hup : NetworkStop ∉ es) :
  (tcp_accepting n + tcp_vanished es = 1 /\ accepting (websockets n) + ws_vanished es = 1 /\
   io_threads (websockets n) + tcp_vanished es + ws_vanished es = k)%nat.
Proof.
  assert (io_stopped n = false /\ (tcp_accepting n + tcp_vanished es = 1 /\ accepting (websockets n) + ws_vanished es = 1 /\
   io_threads (websockets n) + tcp_vanished es + ws_vanished es = k)%nat); [|tauto].
  induction Hrun as [|es n1 e n2 Hr IH Hc Hh]; [by cbn; split_and!; try lia|].
  apply not_elem_of_app in Hup as [Hup He]. rewrite list_elem_of_singleton in He. destruct (IH Hup) as (Hio & H1 & H2 & H3).
  destruct (network_run_websockets _ _ _ (started_listening port udp k) Hr) as [(Hs & Ho & Hw) _]. destruct (Hw Hio) as [Ha Hst].
  rewrite Hio in Hs, Ho. unfold tcp_vanished, ws_vanished in *. rewrite !omap_app, !length_app. destruct e as [r|e|]; [| |done].
  - unfold network_can in Hc. rewrite !andb_true_iff in Hc. destruct Hc as [[[_ Ht%Nat.ltb_lt] Hk%Nat.ltb_lt] Hr'].
    cbn in Hh. injection Hh as <-. unfold OnTcpAccept, StartAccept. cbn. rewrite Hs, Ho in *. destruct r; cbn in *; try done; split_and!; (done || lia).
  - cbn in Hh. destruct (handle e (websockets n1)) as [w|] eqn:E; [|done]. injection Hh as <-.
    assert (can e (websockets n1) = true /\ e <> EvStop /\ e <> EvThreadEnds) as (Hce & Hne & Hnt).
    { destruct e; cbn in Hc; try done; split_and!; try done; try (apply andb_true_iff in Hc as [_ Hc]; exact Hc). }
    destruct (handle_accepting e _ _ E Hce Ha Hst Hne) as [H4 H5]. cbn.
    destruct e as [[]| | | | | | |]; cbn in *; split_and!; (done || lia).
Qed.

(** ** Concrete runs *)

Fixpoint exec (es : list Event) (n : WebSocketNetwork) : option WebSocketNetwork :=
  match es with
  | [] => Some n
  | e :: es => if can e n then n ← handle e n; exec es n else None
  end.

Lemma exec_run es : forall pre n0 n n', run n0 pre n -> exec es n = Some n' -> run n0 (pre ++ es) n'.
Proof.
  induction es as [|e es IH]; intros pre n0 n n' Hr; cbn; [intros [= <-]; by rewrite app_nil_r|].
  destruct (can e n) eqn:Hc; [|done]. destruct (handle e n) as [n1|] eqn:Hh; [|done]. cbn. intros He.
  change (e :: es) with ([e] ++ es). rewrite app_assoc. eapply IH; [|exact He]. by econstructor.
Qed.

Fixpoint network_exec (es : list NetworkEvent) (n : Network) : option Network :=
  match es with
  | [] => Some n
  | e :: es => if network_can e n then n ← network_handle e n; network_exec es n else None
  end.

Lemma network_exec_run es : forall pre n0 n n', network_run n0 pre n -> network_exec es n = Some n' -> network_run n0 (pre ++ es) n'.
Proof.
  induction es as [|e es IH]; intros pre n0 n n' Hr; cbn; [intros [= <-]; by rewrite app_nil_r|].
  destruct (network_can e n) eqn:Hc; [|done]. destruct (network_handle e n) as [n1|] eqn:Hh; [|done]. cbn. intros He.
  change (e :: es) with ([e] ++ es). rewrite app_assoc. eapply IH; [|exact He]. by econstructor.
Qed.

(** One client, two messages of which the first is written; then a second client. *)
Definition demo_start : list Event :=
  [EvAccept Accepted; EvHandshake 1 true; EvBroadcast [72]; EvBroadcast [73]; EvWrite 1 true].
Definition demo_rest : list Event := [EvHandshake 2 true; EvBroadcastBinary [0; 255]; EvWrite 1 true; EvRead 1 ReadMessage; EvBroadcast [74]].

Definition demo1 : WebSocketNetwork := default (started 0) (exec demo_start (started 2)).
Definition demo2 : WebSocketNetwork := OnAccept Accepted (set_accepting (pred (accepting demo1)) demo1).
Definition demo3 : WebSocketNetwork := default (started 0) (exec demo_rest demo2).

Lemma websocket_writes_one_at_a_time_witness :
  NoDup (_sessions demo1) /\ exists s, objects demo1 !! 1 = Some s /\ _isWriting s = true /\ _sendQueue s = [[73]] /\ requests s = [[72]; [73]].
Proof.
  assert (run (started 2) demo_start demo1) as Hr by (apply (exec_run demo_start [] _ (started 2)); [constructor|by vm_compute]).
  split; [exact (proj1 (proj2 (websocket_writes_one_at_a_time 2 demo_start demo1 Hr)))|]. eexists. split; [by vm_compute|]. done.
Defined.


(** A message that is broadcast while a client still shakes hands is written to its stream
    at once. *)
Example broadcast_during_handshake :
  exists n s, exec [EvAccept Accepted; EvBroadcast [72]] (started 2) = Some n /\ objects n !! 1 = Some s /\
    reading s = Some AsyncAccept /\ requests s = [[72]].
Proof. do 2 eexists. split; [by vm_compute|]. by vm_compute. Qed.

(** After a write that failed the messages behind it stay until the next broadcast, which
    writes the oldest of them. *)
Example failed_write_leaves_messages :
  exists n s, exec [EvAccept Accepted; EvHandshake 1 true; EvBroadcast [72]; EvBroadcast [73]; EvWrite 1 false] (started 2) = Some n /\
    objects n !! 1 = Some s /\ writing s = false /\ waiting s = [[73]].
Proof. do 2 eexists. split; [by vm_compute|]. by vm_compute. Qed.

(** Two clients in a hurry: with two I/O threads nothing is served any more. *)
Definition hurried : list NetworkEvent := [TcpEvent (TcpAccepted 5); TcpEvent TcpVanished; WsEvent (EvAccept Vanished)].

Lemma accept_loops_exact_witness :
  exists n, network_run (network_started 9000 true 2) hurried n /\ created n = [5] /\ udp_port n = Some 9001 /\
    (tcp_accepting n + 1 = 1)%nat /\ io_threads (websockets n) = 0%nat.
Proof.
  assert (exists n, network_exec hurried (network_started 9000 true 2) = Some n /\ created n = [5] /\ udp_port n = Some 9001) as (n & He & Hc & Hu)
    by (eexists; split; [by vm_compute|done]).
  assert (network_run (network_started 9000 true 2) hurried n) as Hr by (apply (network_exec_run hurried [] _ _ _ (network_run_nil _) He)).
  exists n. split_and!; [exact Hr|done|done|..];
    (destruct (accept_loops_exact 9000 true 2 hurried n Hr) as (H1 & H2 & H3); [by intros [?|[?|[?|?%elem_of_nil]%elem_of_cons]%elem_of_cons]%elem_of_cons|]);
    cbn in *; lia.
Defined.

(** The port behind the last one is port 0, which the system replaces by any. *)
Example udp_behind_the_last_port : udp_port (network_started 65535 true 2) = Some 0.
Proof. done. Qed.
