(* ===== verification/MessageQueue.v ===== *)
(** * MessageQueue: the message system and its drivers

    Models src/System/MQ: MessageSystem.cpp with its two qualities of service,
    RedisStreamDriver.cpp with the polling task that runs on a worker of the thread pool,
    and NatsDriver.cpp, over the two client libraries as classes of operations.  The steps
    of the polling task interleave with what other threads do; what it finds in a stream
    is shown from what Redis documents of XADD and XREAD ([StreamLaws]).

    Callbacks are identities, and the calls made of them are a list.  [None] is undefined
    behaviour: the use of a null pointer or of a destroyed object. *)

From Stdlib Require Import String.
From stdpp Require Import base numbers list strings pretty option gmap.
From S2P Require Import Prelude.

#[local] Open Scope Z_scope.

(** ** Redis *)

(** An entry of a stream: its id, and its fields unless it was deleted. *)
Record Item := mkItem { item_id : string; attrs : option (list (string * string)) }.

(** <sw/redis++/redis++.h>, as far as it is used: [false] and [None] are exceptions. *)
Class Redis (L : Type) := {
  redis_ping : string -> L -> bool * L;
  redis_xadd : string -> list (string * string) -> L -> bool * L;
  redis_xread : list (string * string) -> L -> option (list (string * list Item)) * L
}.

Section RedisStreamDriver.
Context {L : Type} `{!Redis L}.

Record Subscription := mkSub { topic : string; lastId : string; callback : Z }.

(** Where the polling task is: nowhere, at the head of its loop, before the read, and
    before the results are looked at. *)
Inductive PollPC := NoPoll | PollHead | PollRead (currentSubs : list Subscription) | PollApply (results : list (string * list Item)).

(** [m_redis] by whether there is a connection; [object]: the driver has not been
    destroyed; [made]: the calls of callbacks, with topic and message. *)
Record RedisStreamDriver := mkRedis {
  m_redis : bool;
  m_running : bool;
  m_threadPool : bool;
  m_subs : list Subscription;
  object : bool;
  poll : PollPC;
  made : list (Z * string * string);
  server : L
}.

Definition RedisStreamDriver_new (threadPool : bool) (l : L) : RedisStreamDriver :=
  mkRedis false false threadPool [] true NoPoll [] l.

Definition set_server (l : L) (d : RedisStreamDriver) : RedisStreamDriver :=
  mkRedis (m_redis d) (m_running d) (m_threadPool d) (m_subs d) (object d) (poll d) (made d) l.

Definition set_poll (pc : PollPC) (d : RedisStreamDriver) : RedisStreamDriver :=
  mkRedis (m_redis d) (m_running d) (m_threadPool d) (m_subs d) (object d) pc (made d) (server d).

(** The connection object stays when the ping throws. *)
Definition Connect (connectionString : string) (d : RedisStreamDriver) : bool * RedisStreamDriver :=
  let '(ok, l) := redis_ping connectionString (server d) in
  if ok : bool
  then (true, mkRedis true true (m_threadPool d) (m_subs d) (object d) (if m_threadPool d then PollHead else poll d) (made d) l)
  else (false, mkRedis true (m_running d) (m_threadPool d) (m_subs d) (object d) (poll d) (made d) l).

Definition Disconnect (d : RedisStreamDriver) : RedisStreamDriver :=
  mkRedis false false (m_threadPool d) (m_subs d) (object d) (poll d) (made d) (server d).

Definition Publish (tp message : string) (d : RedisStreamDriver) : bool * RedisStreamDriver :=
  if negb (m_redis d) then (false, d) else
  let '(ok, l) := redis_xadd tp [("payload"%string, message)] (server d) in (ok, set_server l d).

Definition Subscribe (tp : string) (cb : Z) (d : RedisStreamDriver) : bool * RedisStreamDriver :=
  (true, mkRedis (m_redis d) (m_running d) (m_threadPool d) (m_subs d ++ [mkSub tp "$" cb]) (object d) (poll d) (made d) (server d)).

(** [streams[sub.topic] = sub.lastId]: for a topic with several subscriptions the last one
    counts. *)
Definition streams_of (subs : list Subscription) : list (string * string) :=
  map_to_list (foldl (fun m s => <[topic s := lastId s]> m) (∅ : gmap string string) subs).

(** The first field with the name. *)
Definition payload (i : Item) : option string :=
  fields ← attrs i; snd <$> head (filter (fun kv => kv.1 = "payload"%string) fields).

(** The items of a topic, for the first subscription that has it. *)
Fixpoint apply_items (tp : string) (items : list Item) (subs : list Subscription) : list Subscription * list (Z * string * string) :=
  match subs with
  | [] => ([], [])
  | s :: subs =>
      if bool_decide (topic s = tp)
      then (mkSub (topic s) (default (lastId s) (item_id <$> last items)) (callback s) :: subs,
            (fun p => (callback s, tp, p)) <$> omap payload items)
      else let '(subs, calls) := apply_items tp items subs in (s :: subs, calls)
  end.

Fixpoint apply_results (results : list (string * list Item)) (subs : list Subscription) : list Subscription * list (Z * string * string) :=
  match results with
  | [] => (subs, [])
  | (tp, items) :: results =>
      let '(subs, c1) := apply_items tp items subs in
      let '(subs, c2) := apply_results results subs in (subs, c1 ++ c2)
  end.

(** One step of [_PollTask]. *)
Definition poll_step (d : RedisStreamDriver) : option RedisStreamDriver :=
  if negb (object d) then match poll d with NoPoll => Some d | _ => None end else
  match poll d with
  | NoPoll => Some d
  | PollHead =>
      if negb (m_running d) then Some (set_poll NoPoll d)
      else match m_subs d with [] => Some d | subs => Some (set_poll (PollRead subs) d) end
  | PollRead subs =>
      if negb (m_redis d) then None else
      match redis_xread (streams_of subs) (server d) with
      | (None, l) => Some (set_poll PollHead (set_server l d))
      | (Some results, l) => Some (set_poll (PollApply results) (set_server l d))
      end
  | PollApply results =>
      let '(subs, calls) := apply_results results (m_subs d) in
      Some (mkRedis (m_redis d) (m_running d) (m_threadPool d) subs (object d) PollHead (made d ++ calls) (server d))
  end.

(** The last [shared_ptr] goes. *)
Definition destroy (d : RedisStreamDriver) : RedisStreamDriver :=
  let d := Disconnect d in mkRedis (m_redis d) (m_running d) (m_threadPool d) (m_subs d) false (poll d) (made d) (server d).

(** ** What a subscription receives *)

(** What Redis documents: streams only grow, ids are unique and never the dollar sign;
    XREAD gives from each stream some of the entries right behind the id, and for the
    dollar sign some of those that arrived while it was waiting. *)
Class StreamLaws := {
  entries : string -> L -> list Item;
  grows (l l' : L) : Prop := forall t, entries t l `prefix_of` entries t l';
  ids_unique : forall t l, NoDup (item_id <$> entries t l);
  ids_not_dollar : forall t l i, i ∈ entries t l -> item_id i <> "$"%string;
  xadd_law : forall t fields l ok l', redis_xadd t fields l = (ok, l') -> grows l l';
  xread_law : forall streams l r l', redis_xread streams l = (r, l') -> grows l l' /\
    forall results, r = Some results -> NoDup results.*1 /\
      forall t items, (t, items) ∈ results -> items <> [] /\ exists id pre post,
        (t, id) ∈ streams /\ entries t l' = pre ++ items ++ post /\
        (id <> "$"%string -> forall pre0 e post0, entries t l = pre0 ++ e :: post0 -> item_id e = id -> pre = pre0 ++ [e])
}.

Context `{!StreamLaws}.

(** The messages among the calls for a topic. *)
Definition received (tp : string) (calls : list (Z * string * string)) : list string :=
  omap (fun c => if bool_decide (c.1.2 = tp) then Some c.2 else None) calls.

(** [seg] is the part of the stream that the subscription has received: consecutive
    entries, of which the last one has the id that the next read starts from. *)
Definition sub_ok (l : L) (calls : list (Z * string * string)) (s : Subscription) : Prop :=
  (forall c p, (c, topic s, p) ∈ calls -> c = callback s) /\
  exists pre seg post, entries (topic s) l = pre ++ seg ++ post /\ received (topic s) calls = omap payload seg /\
    ((lastId s = "$"%string /\ seg = []) \/ exists seg' e, seg = seg' ++ [e] /\ item_id e = lastId s).

(** What was read is right behind it. *)
Definition result_ok (l : L) (subs : list Subscription) (r : string * list Item) : Prop :=
  r.2 <> [] /\ exists s, s ∈ subs /\ topic s = r.1 /\ exists pre post, entries r.1 l = pre ++ r.2 ++ post /\
    (lastId s = "$"%string \/ exists pre' e, pre = pre' ++ [e] /\ item_id e = lastId s).

Record mq_inv (d : RedisStreamDriver) : Prop := mk_mq_inv {
  mq_alive : object d = true /\ m_redis d = true;
  mq_topics : NoDup (topic <$> m_subs d);
  mq_subs : forall s, s ∈ m_subs d -> sub_ok (server d) (made d) s;
  mq_made : forall c, c ∈ made d -> c.1.2 ∈ topic <$> m_subs d;
  mq_poll : match poll d with
            | PollRead subs => forall s, s ∈ subs -> s ∈ m_subs d
            | PollApply results => NoDup results.*1 /\ forall r, r ∈ results -> result_ok (server d) (m_subs d) r
            | _ => True
            end
}.

(** What can happen while the driver is connected: subscriptions of new topics,
    publications here and elsewhere, the polling task. *)
Inductive mq_step (d : RedisStreamDriver) : RedisStreamDriver -> Prop :=
| mq_subscribe tp cb : tp ∉ topic <$> m_subs d -> mq_step d (Subscribe tp cb d).2
| mq_publish tp message : mq_step d (Publish tp message d).2
| mq_elsewhere l : grows (server d) l -> mq_step d (set_server l d)
| mq_poll_step d' : poll_step d = Some d' -> mq_step d d'.

Lemma sub_ok_grows l l' calls s : grows l l' -> sub_ok l calls s -> sub_ok l' calls s.
Proof.
  intros Hg (Hc & pre & seg & post & He & Hr). split; [done|]. destruct (Hg (topic s)) as [more Hm].
  exists pre, seg, (post ++ more). rewrite Hm, He, <- !app_assoc. by split.
Qed.

Lemma result_ok_grows l l' subs r : grows l l' -> result_ok l subs r -> result_ok l' subs r.
Proof.
  intros Hg (Hne & s & Hs & Ht & pre & post & He & Hp). split; [done|]. exists s. split_and!; [done|done|]. destruct (Hg r.1) as [more Hm].
  exists pre, (post ++ more). rewrite Hm, He, <- !app_assoc. by split.
Qed.

Lemma mq_grows d l : mq_inv d -> grows (server d) l -> mq_inv (set_server l d).
Proof.
  intros [H1 H2 H3 H4 H5] Hg. split; cbn; try done.
  - intros s Hs. eapply sub_ok_grows; [exact Hg|by apply H3].
  - destruct (poll d); try done. destruct H5 as [H5 H6]. split; [done|]. intros r Hr. eapply result_ok_grows; [exact Hg|by apply H6].
Qed.

(** An id has one place in a stream. *)
Lemma unique_place {A} (f : A -> string) (a b a' b' : list A) x x' :
  NoDup (f <$> (a ++ x :: b)) -> a ++ x :: b = a' ++ x' :: b' -> f x = f x' -> a = a' /\ b = b'.
Proof.
  intros Hn He Hf. assert (length a = length a') as Hl.
  { eapply (NoDup_lookup _ _ _ (f x) Hn); rewrite list_lookup_fmap.
    - rewrite lookup_app_r, Nat.sub_diag by lia. done.
    - rewrite He, lookup_app_r, Nat.sub_diag by lia. by rewrite Hf. }
  apply app_inj_1 in He as [-> He]; [|done]. by injection He.
Qed.

Lemma received_app tp c1 c2 : received tp (c1 ++ c2) = received tp c1 ++ received tp c2.
Proof. unfold received. apply omap_app. Qed.

Lemma received_calls cb tp ps : received tp ((fun p => (cb, tp, p)) <$> ps) = ps.
Proof. unfold received. induction ps as [|p ps IH]; [done|]. cbn. rewrite bool_decide_true by done. by rewrite IH. Qed.

Lemma received_other tp tp' calls : tp <> tp' -> (forall c, c ∈ calls -> c.1.2 = tp') -> received tp calls = [].
Proof.
  intros Hne Hc. unfold received. induction calls as [|c calls IH]; [done|]. cbn. rewrite bool_decide_false.
  - apply IH. intros c' Hc'. apply Hc. by right.
  - rewrite (Hc c) by by left. congruence.
Qed.

Lemma apply_items_at tp items s1 s s2 : tp ∉ topic <$> s1 -> topic s = tp ->
  apply_items tp items (s1 ++ s :: s2) =
    (s1 ++ mkSub (topic s) (default (lastId s) (item_id <$> last items)) (callback s) :: s2, (fun p => (callback s, tp, p)) <$> omap payload items).
Proof.
  intros Hn Ht. induction s1 as [|s0 s1 IH]; cbn; [by rewrite bool_decide_true|]. cbn in Hn. apply not_elem_of_cons in Hn as [H0 Hn].
  rewrite bool_decide_false by congruence. by rewrite IH.
Qed.

(** The subscription that gets the items. *)
Lemma sub_ok_applied l calls s items pre' post' : sub_ok l calls s -> items <> [] ->
  entries (topic s) l = pre' ++ items ++ post' ->
  (lastId s = "$"%string \/ exists p e, pre' = p ++ [e] /\ item_id e = lastId s) ->
  sub_ok l (calls ++ ((fun p => (callback s, topic s, p)) <$> omap payload items))
    (mkSub (topic s) (default (lastId s) (item_id <$> last items)) (callback s)).
Proof.
  intros (Hc & pre & seg & post & He & Hr & Hl) Hne He' Hp. split; cbn.
  - intros c p [?|Hin]%elem_of_app; [by eapply Hc|]. apply list_elem_of_fmap in Hin as (p' & [= -> _] & _). done.
  - destruct (last items) as [e'|] eqn:El; [|by apply last_None in El]. apply last_Some in El as [items' ->]. cbn [fmap option_fmap option_map default].
    rewrite received_app, received_calls, Hr, <- omap_app. destruct Hl as [[Hd ->]|(seg' & e & -> & Hid)].
    + exists pre', (items' ++ [e']), post'. split_and!; [done|done|right; by exists items', e'].
    + destruct Hp as [Hd|(p & e0 & -> & Hid0)].
      { exfalso. eapply (ids_not_dollar (topic s) l e); [|congruence]. rewrite He, !elem_of_app, list_elem_of_singleton. tauto. }
      assert (pre ++ seg' = p /\ post = (items' ++ [e']) ++ post') as [<- ->].
      { apply (unique_place item_id _ _ _ _ e e0); [|rewrite <- !app_assoc in *; cbn in *; congruence|congruence].
        pose proof (ids_unique (topic s) l) as Hn. rewrite He, <- !app_assoc in Hn. rewrite <- app_assoc. exact Hn. }
      exists pre, (seg' ++ [e] ++ items' ++ [e']), post'. split_and!.
      * by rewrite He, <- !app_assoc.
      * by rewrite <- !app_assoc.
      * right. exists (seg' ++ [e] ++ items'), e'. by rewrite <- !app_assoc.
Qed.

(** The others. *)
Lemma sub_ok_other l calls calls' s tp : sub_ok l calls s -> topic s <> tp -> (forall c, c ∈ calls' -> c.1.2 = tp) -> sub_ok l (calls ++ calls') s.
Proof.
  intros (Hc & pre & seg & post & He & Hr & Hl) Hne Hc'. split.
  - intros c p [?|Hin]%elem_of_app; [by eapply Hc|]. apply Hc' in Hin. cbn in Hin. congruence.
  - exists pre, seg, post. rewrite received_app, (received_other (topic s) tp calls'), app_nil_r by done. by split_and!.
Qed.

Lemma apply_items_ok l calls tp items subs : NoDup (topic <$> subs) -> (forall s, s ∈ subs -> sub_ok l calls s) ->
  result_ok l subs (tp, items) ->
  exists subs' c, apply_items tp items subs = (subs', c) /\ topic <$> subs' = topic <$> subs /\
    (forall s, s ∈ subs' -> sub_ok l (calls ++ c) s) /\ (forall x, x ∈ c -> x.1.2 = tp) /\
    (forall r, r.1 <> tp -> result_ok l subs r -> result_ok l subs' r).
Proof.
  intros Hn Hs (Hne & s & Hin & Ht & pre & post & He & Hp). cbn in *. apply list_elem_of_split in Hin as (s1 & s2 & ->).
  rewrite fmap_app in Hn. cbn in Hn. apply NoDup_app in Hn as (Hn1 & Hd & Hn2). apply NoDup_cons in Hn2 as [Hn2 _].
  assert (tp ∉ topic <$> s1) as Hs1 by (intros Hi; apply (Hd tp Hi); rewrite Ht; by left).
  rewrite Ht in Hn2. rewrite (apply_items_at _ _ _ _ _ Hs1 Ht). do 2 eexists. split; [reflexivity|].
  set (s' := mkSub _ _ _). split; [by rewrite !fmap_app|].
  assert (forall x, x ∈ ((fun p => (callback s, tp, p)) <$> omap payload items) -> x.1.2 = tp) as Hc
    by (intros x (p & -> & _)%list_elem_of_fmap; done).
  assert (forall x, x ∈ s1 \/ x ∈ s2 -> topic x <> tp) as Hother.
  { intros x [Hx|Hx] <-; [apply Hs1|apply Hn2]; by apply list_elem_of_fmap_2. }
  split_and!; [|exact Hc|].
  - intros x [Hx|[->|Hx]%elem_of_cons]%elem_of_app.
    + eapply sub_ok_other; [apply Hs, elem_of_app; by left|apply Hother; by left|exact Hc].
    + subst tp. apply (sub_ok_applied l calls s items pre post); [apply Hs, elem_of_app; right; by left|done..].
    + eapply sub_ok_other; [apply Hs, elem_of_app; right; by right|apply Hother; by right|exact Hc].
  - intros r Hr (Hne' & x & Hx & Htx & Hrest). split; [done|]. exists x. split; [|by split].
    apply elem_of_app. apply elem_of_app in Hx as [Hx|[->|Hx]%elem_of_cons]; [by left|congruence|right; by right].
Qed.

Lemma apply_results_ok l results : forall subs calls, NoDup (topic <$> subs) -> (forall s, s ∈ subs -> sub_ok l calls s) ->
  NoDup results.*1 -> (forall r, r ∈ results -> result_ok l subs r) ->
  exists subs' c, apply_results results subs = (subs', c) /\ topic <$> subs' = topic <$> subs /\
    (forall s, s ∈ subs' -> sub_ok l (calls ++ c) s) /\ (forall x, x ∈ c -> x.1.2 ∈ topic <$> subs).
Proof.
  induction results as [|[tp items] results IH]; intros subs calls Hn Hs Hd Hr.
  - exists subs, []. split_and!; [done|done|by rewrite app_nil_r|by intros x ?%elem_of_nil].
  - cbn in Hd. apply NoDup_cons in Hd as [Htp Hd].
    destruct (apply_items_ok l calls tp items subs Hn Hs (Hr _ ltac:(by left))) as (subs1 & c1 & E1 & T1 & S1 & C1 & R1).
    destruct (IH subs1 (calls ++ c1)) as (subs2 & c2 & E2 & T2 & S2 & C2); [by rewrite T1|exact S1|exact Hd| |].
    { intros r Hin. apply R1; [|apply Hr; by right]. intros <-. apply Htp. by apply list_elem_of_fmap_2. }
    exists subs2, (c1 ++ c2). split_and!; [cbn; by rewrite E1, E2|congruence|by rewrite app_assoc|].
    intros x [Hx|Hx]%elem_of_app; [|rewrite <- T1; by apply C2]. rewrite (C1 x Hx).
    destruct (Hr (tp, items) ltac:(by left)) as (_ & s & Hin & Ht & _). cbn in Ht. subst tp. by apply (list_elem_of_fmap_2 topic).
Qed.

Lemma streams_of_sub subs t id : (t, id) ∈ streams_of subs -> exists s, s ∈ subs /\ topic s = t /\ lastId s = id.
Proof.
  unfold streams_of. rewrite elem_of_map_to_list. assert (forall m : gmap string string,
    foldl (fun m s => <[topic s := lastId s]> m) m subs !! t = Some id -> m !! t = Some id \/ exists s, s ∈ subs /\ topic s = t /\ lastId s = id) as Hf.
  { induction subs as [|s subs IH]; intros m Hm; [by left|]. destruct (IH _ Hm) as [Hi|(x & ? & ?)]; [|right; exists x; split; [by right|done]].
    destruct (decide (topic s = t)) as [<-|Hne]; [rewrite lookup_insert_eq in Hi; injection Hi as <-; right; exists s; split; [by left|done]|].
    rewrite lookup_insert_ne in Hi by done. by left. }
  intros Hm. destruct (Hf ∅ Hm) as [He|He]; [by rewrite lookup_empty in He|done].
Qed.

Lemma read_ok d subs results l : mq_inv d -> (forall s, s ∈ subs -> s ∈ m_subs d) ->
  redis_xread (streams_of subs) (server d) = (Some results, l) ->
  NoDup results.*1 /\ forall r, r ∈ results -> result_ok l (m_subs d) r.
Proof.
  intros Hi Hsub Hx. destruct (xread_law _ _ _ _ Hx) as [Hg Hr]. destruct (Hr results eq_refl) as [Hn Hres]. split; [done|].
  intros [t items] Hin. destruct (Hres t items Hin) as (Hne & id & pre & post & Hst & He & Hid).
  destruct (streams_of_sub _ _ _ Hst) as (s & Hs & <- & <-). split; [done|]. exists s. split_and!; [by apply Hsub|done|].
  exists pre, post. split; [done|]. destruct (mq_subs _ Hi s (Hsub s Hs)) as (_ & p0 & seg & q0 & He0 & _ & [[Hd _]|(seg' & e & -> & Hide)]);
    [by left|right]. exists (p0 ++ seg'), e. split; [|done]. apply (Hid) with (post0 := q0); [|by rewrite He0, <- !app_assoc|done].
  intros Hd. eapply (ids_not_dollar (topic s) (server d) e); [rewrite He0, !elem_of_app, list_elem_of_singleton; tauto|congruence].
Qed.

Lemma poll_step_inv d : mq_inv d -> exists d', poll_step d = Some d' /\ mq_inv d'.
Proof.
  intros Hi. pose proof Hi as [[Ho Hr] Hn Hs Hm Hp]. unfold poll_step. rewrite Ho. cbn [negb]. destruct (poll d) as [| |subs|results] eqn:Ep.
  - by exists d.
  - destruct (m_running d); cbn [negb]; [|eexists; split; [reflexivity|]; by split].
    destruct (m_subs d) as [|s subs] eqn:Es; [by exists d|]. eexists. split; [reflexivity|]. split; cbn; rewrite ?Es; try done; by split.
  - rewrite Hr. cbn [negb]. destruct (redis_xread (streams_of subs) (server d)) as [[results|] l] eqn:Ex.
    + eexists. split; [reflexivity|]. destruct (mq_grows d l Hi (proj1 (xread_law _ _ _ _ Ex))) as [H1 H2 H3 H4 _].
      split; try done. by apply (read_ok d subs).
    + eexists. split; [reflexivity|]. by destruct (mq_grows d l Hi (proj1 (xread_law _ _ _ _ Ex))) as [H1 H2 H3 H4 _].
  - destruct Hp as [Hd Hp]. destruct (apply_results_ok (server d) results (m_subs d) (made d) Hn Hs Hd Hp) as (subs & c & -> & Ht & Hok & Hc).
    eexists. split; [reflexivity|]. split; cbn; try done; [by rewrite Ht|]. rewrite Ht. intros x [Hx|Hx]%elem_of_app; [by apply Hm|by apply Hc].
Qed.

Lemma mq_step_inv d d' : mq_inv d -> mq_step d d' -> mq_inv d'.
Proof.
  intros Hi Hst. destruct Hst as [tp cb Htp|tp message|l Hg|d' Hp].
  - destruct Hi as [H1 H2 H3 H4 H5]. cbn. split; cbn; rewrite ?fmap_app.
    + done.
    + apply NoDup_app. split_and!; [done| |apply NoDup_singleton]. intros t Ht ->%list_elem_of_singleton. done.
    + intros s [Hs| ->%list_elem_of_singleton]%elem_of_app; [by apply H3|]. assert (forall c p, (c, tp, p) ∉ made d) as Hno.
      { intros c p Hin. by apply Htp, (H4 _ Hin). }
      split; cbn; [by intros c p ?%Hno|]. exists (entries tp (server d)), [], []. split_and!; [by rewrite !app_nil_r| |by left].
      unfold received. assert (forall calls, (forall c p, (c, tp, p) ∉ calls) -> omap (fun c : Z * string * string => if bool_decide (c.1.2 = tp) then Some c.2 else None) calls = []) as Hnone; [|by apply Hnone].
      induction calls as [|[[c t] p] calls IH]; intros Hc; [done|]. cbn. rewrite bool_decide_false by (intros ->; apply (Hc c p); by left).
      apply IH. intros c' p' Hin. apply (Hc c' p'). by right.
    + intros c Hc. apply elem_of_app. left. by apply H4.
    + destruct (poll d) as [| |subs|results]; try done; [intros s Hs; apply elem_of_app; left; by apply H5|].
      destruct H5 as [H5 H6]. split; [done|]. intros r Hr. destruct (H6 r Hr) as (Hne & s & Hs & Hrest). split; [done|].
      exists s. split; [apply elem_of_app; by left|done].
  - unfold Publish. destruct (negb (m_redis d)); [done|]. destruct (redis_xadd _ _ _) as [ok l] eqn:Ex. apply mq_grows; [done|]. by eapply xadd_law.
  - by apply mq_grows.
  - destruct (poll_step_inv d Hi) as (d1 & Hp1 & Hi1). rewrite Hp in Hp1. by injection Hp1 as <-.
Qed.

(** C8: a connected driver delivers reliably and in order.  Whatever subscriptions of new
    topics, publications and steps of the polling task there were since it connected, in
    whatever order: the polling task can go on, and the messages that a subscription's
    callback - and no other - was called with for its topic are the payloads of consecutive
    entries of its stream, in the order of the stream, none twice and none left out between
    the first and the last. *)
Theorem messages_are_delivered_in_order connection d d0 d' :
  Connect connection d = (true, d0) -> m_subs d = [] -> made d = [] -> object d = true -> poll d = NoPoll ->
  rtc mq_step d0 d' ->
  (exists d'', poll_step d' = Some d'') /\
  forall s, s ∈ m_subs d' ->
    (forall c p, (c, topic s, p) ∈ made d' -> c = callback s) /\
    exists pre seg post, entries (topic s) (server d') = pre ++ seg ++ post /\ received (topic s) (made d') = omap payload seg.
Proof.
  intros Hc Hs Hm Ho Hp Hr. assert (mq_inv d') as Hi.
  { assert (mq_inv d0) as H0.
    { unfold Connect in Hc. destruct (redis_ping connection (server d)) as [[] l]; [|done]. injection Hc as <-.
      split; cbn; rewrite ?Hs, ?Hm; cbn; try done; [apply NoDup_nil_2|by intros ? ?%elem_of_nil|by intros ? ?%elem_of_nil|].
      rewrite Hp. by destruct (m_threadPool d). }
    clear Hc. induction Hr as [|d1 d2 d3 H12 _ IH]; [done|]. apply IH. by eapply mq_step_inv. }
  split; [destruct (poll_step_inv d' Hi) as (d'' & He & _); by exists d''|]. intros s Hin.
  destruct (mq_subs _ Hi s Hin) as (Hcb & pre & seg & post & He & Hrec & _). split; [done|]. by exists pre, seg, post.
Qed.

(** The polling task of a connected driver does not end. *)
Lemma poll_step_runs d d' : poll_step d = Some d' -> m_running d = true -> poll d <> NoPoll -> m_running d' = true /\ poll d' <> NoPoll.
Proof.
  unfold poll_step. intros Hp Hr Hn. destruct (object d); cbn [negb] in Hp; [|by destruct (poll d)].
  destruct (poll d) as [| |subs|results] eqn:Ep; [done| | |].
  - rewrite Hr in Hp. cbn [negb] in Hp. destruct (m_subs d); injection Hp as <-; cbn; [by rewrite Ep|done].
  - destruct (negb (m_redis d)); [done|]. by destruct (redis_xread _ _) as [[results|] l]; injection Hp as <-.
  - destruct (apply_results _ _) as [subs calls]. by injection Hp as <-.
Qed.

Lemma mq_step_runs d d' : mq_step d d' -> m_running d = true -> poll d <> NoPoll -> m_running d' = true /\ poll d' <> NoPoll.
Proof.
  intros [tp cb _|tp message|l _|d1 Hp] Hr Hn; [done| |done|by eapply poll_step_runs].
  unfold Publish. destruct (negb (m_redis d)); [done|]. by destruct (redis_xadd _ _ _).
Qed.

(** [MessageSystem::Shutdown] disconnects and destroys the driver without waiting for
    its polling task.  Whatever a driver with a thread pool has done since it connected,
    its task has not ended, and what the task does next is undefined. *)
Theorem shutdown_under_the_polling_task connection d d0 d' : Connect connection d = (true, d0) -> m_threadPool d = true ->
  rtc mq_step d0 d' -> poll_step (destroy d') = None.
Proof.
  intros Hc Ht Hr. assert (m_running d' = true /\ poll d' <> NoPoll) as [_ Hp].
  { assert (m_running d0 = true /\ poll d0 <> NoPoll) as H0.
    { unfold Connect in Hc. destruct (redis_ping connection (server d)) as [[] l]; [|done]. injection Hc as <-. cbn. by rewrite Ht. }
    clear Hc. induction Hr as [|d1 d2 d3 H12 _ IH]; [done|]. apply IH. destruct H0. by eapply mq_step_runs. }
  unfold poll_step. cbn. by destruct (poll d').
Qed.

End RedisStreamDriver.

(** ** A small Redis *)

(** The streams, and what arrives while the next reads wait. *)
Record ToyRedis := mkToy { streams_in : string -> list (list (string * string)); arriving : list (string * list (string * string)) }.

Definition toy_entries (t : string) (l : ToyRedis) : list Item := imap (fun i f => mkItem ("0-" +:+ pretty (N.of_nat i)) (Some f)) (streams_in l t).

Definition toy_add (t : string) (f : list (string * string)) (l : ToyRedis) : ToyRedis :=
  mkToy (fun t' => if bool_decide (t' = t) then streams_in l t ++ [f] else streams_in l t') (arriving l).

Definition toy_arrive (l : ToyRedis) : ToyRedis :=
  match arriving l with [] => l | (t, f) :: rest => mkToy (streams_in (toy_add t f l)) rest end.

Definition toy_news (l l' : ToyRedis) (stream : string * string) : option (string * list Item) :=
  let '(t, id) := stream in
  let items := if bool_decide (id = "$"%string) then drop (length (toy_entries t l)) (toy_entries t l')
               else match list_find (fun i => item_id i = id) (toy_entries t l') with Some (k, _) => drop (S k) (toy_entries t l') | None => [] end in
  match items with [] => None | _ => Some (t, items) end.

#[local] Instance toy_redis : Redis ToyRedis := {|
  redis_ping _ l := (true, l);
  redis_xadd t f l := (true, toy_add t f l);
  redis_xread streams l := let l' := toy_arrive l in (Some (option_list (head (omap (toy_news l l') streams))), l')
|}.

Lemma toy_add_grows t f l t' : toy_entries t' l `prefix_of` toy_entries t' (toy_add t f l).
Proof.
  unfold toy_entries. cbn. case_bool_decide as Ht; [subst t'; rewrite imap_app; by eexists|done].
Qed.

Lemma toy_arrive_grows l t : toy_entries t l `prefix_of` toy_entries t (toy_arrive l).
Proof. unfold toy_arrive. destruct (arriving l) as [|[t0 f] rest]; [done|]. apply (toy_add_grows t0 f l t). Qed.

Lemma toy_ids t l : NoDup (item_id <$> toy_entries t l).
Proof.
  apply NoDup_alt. intros i j x. unfold toy_entries. rewrite !list_lookup_fmap, !list_lookup_imap.
  destruct (streams_in l t !! i) as [f|], (streams_in l t !! j) as [g|]; cbn; try done. intros [= <-] [= He].
  apply (inj (String.append EmptyString)), (inj pretty) in He. lia.
Qed.

Lemma toy_not_dollar t l i : i ∈ toy_entries t l -> item_id i <> "$"%string.
Proof.
  intros [k Hk]%list_elem_of_lookup. unfold toy_entries in Hk. rewrite list_lookup_imap in Hk. destruct (streams_in l t !! k); [|done].
  by injection Hk as <-.
Qed.

Lemma toy_news_from streams l l' r : r ∈ option_list (head (omap (toy_news l l') streams)) ->
  exists stream, stream ∈ streams /\ toy_news l l' stream = Some r.
Proof.
  intros Hr. apply list_elem_of_omap. destruct (omap (toy_news l l') streams) as [|x xs]; cbn in Hr; [by apply elem_of_nil in Hr|].
  apply list_elem_of_singleton in Hr as ->. by left.
Qed.

(** What is new is behind the id. *)
Lemma toy_news_spec l l' t id t' items : (forall t, toy_entries t l `prefix_of` toy_entries t l') ->
  toy_news l l' (t, id) = Some (t', items) -> t' = t /\ items <> [] /\ exists pre, toy_entries t l' = pre ++ items ++ [] /\
    (id <> "$"%string -> forall pre0 e post0, toy_entries t l = pre0 ++ e :: post0 -> item_id e = id -> pre = pre0 ++ [e]).
Proof.
  intros Hg. unfold toy_news. case_bool_decide as Hd.
  - destruct (drop _ _) as [|i rest] eqn:Ed; [done|]. intros [= <- <-]. split_and!; [done|done|].
    exists (take (length (toy_entries t l)) (toy_entries t l')). by rewrite app_nil_r, <- Ed, take_drop.
  - destruct (list_find _ _) as [[k x]|] eqn:Ef; [|done]. apply list_find_Some in Ef as (Hk & Hx & _).
    destruct (drop _ _) as [|i rest] eqn:Ed; [done|]. intros [= <- <-]. split_and!; [done|done|].
    exists (take (S k) (toy_entries t l')). split; [by rewrite app_nil_r, <- Ed, take_drop|]. intros _ pre0 e post0 He Hid.
    destruct (Hg t) as [more Hm]. pose proof (toy_ids t l') as Hn. rewrite Hm, He, <- app_assoc in *. cbn in *.
    assert (k = length pre0) as ->.
    { eapply (NoDup_lookup _ _ _ id Hn); rewrite list_lookup_fmap; [by rewrite Hk, <- Hx|]. rewrite lookup_app_r, Nat.sub_diag by lia. cbn. by rewrite Hid. }
    rewrite take_app_ge by lia. by replace (S (length pre0) - length pre0)%nat with 1%nat by lia.
Qed.

#[local] Program Instance toy_laws : StreamLaws (L := ToyRedis) := {| entries := toy_entries |}.
Next Obligation. apply toy_ids. Qed.
Next Obligation. apply toy_not_dollar. Qed.
Next Obligation. intros t f l ok l' [= <- <-] t'. apply toy_add_grows. Qed.
Next Obligation.
  intros streams l r l' [= <- <-]. split; [intros t; apply toy_arrive_grows|]. intros results [= <-]. split.
  - destruct (omap _ _) as [|x xs]; [apply NoDup_nil_2|apply NoDup_singleton].
  - intros t items Hin. apply toy_news_from in Hin as ([t0 id] & Hst & Hn).
    apply toy_news_spec in Hn as (-> & Hne & pre & He & Hid); [|apply toy_arrive_grows]. split; [done|]. by exists id, pre, [].
Qed.

(** ** Deliveries *)

Definition toy_start : ToyRedis :=
  mkToy (fun _ => [])
    [("LobbyChat", [("payload", "a")]); ("LobbyChat", [("kind", "x"); ("payload", "b")]); ("other", [("payload", "c")]);
     ("LobbyChat", [("kind", "y")])]%string.

Definition toy_new : RedisStreamDriver (L := ToyRedis) := RedisStreamDriver_new true toy_start.

Fixpoint polls (n : nat) (d : RedisStreamDriver (L := ToyRedis)) : option (RedisStreamDriver (L := ToyRedis)) :=
  match n with O => Some d | S n => d ← poll_step d; polls n d end.

Definition toy_connected : RedisStreamDriver (L := ToyRedis) := (Subscribe "LobbyChat" 7 (Connect "tcp://localhost:6379" toy_new).2).2.

(** Two messages that arrive while the task waits, then one that is published here. *)
Definition toy_run : option (RedisStreamDriver (L := ToyRedis)) :=
  d ← polls 6 toy_connected; polls 3 (Publish "LobbyChat" "d" d).2.

Lemma polls_steps n d d' : polls n d = Some d' -> rtc mq_step d d'.
Proof.
  revert d. induction n as [|n IH]; intros d; cbn; [by intros [= <-]|]. destruct (poll_step d) as [d1|] eqn:E; cbn; [|done].
  intros H. eapply rtc_l; [by apply mq_poll_step|by apply IH].
Qed.

Lemma messages_are_delivered_in_order_witness :
  exists d', toy_run = Some d' /\ rtc mq_step (Connect "tcp://localhost:6379" toy_new).2 d' /\
    received "LobbyChat" (made d') = ["a"; "b"; "d"]%string /\
    forall s, s ∈ m_subs d' -> exists pre seg post,
      entries (topic s) (server d') = pre ++ seg ++ post /\ received (topic s) (made d') = omap payload seg.
Proof.
  destruct (polls 6 toy_connected) as [d1|] eqn:E1; [|by vm_compute in E1].
  destruct (polls 3 (Publish "LobbyChat" "d" d1).2) as [d2|] eqn:E2; [|vm_compute in E1; injection E1 as <-; by vm_compute in E2].
  assert (rtc mq_step (Connect "tcp://localhost:6379" toy_new).2 d2) as Hr.
  { eapply rtc_l; [apply (mq_subscribe _ "LobbyChat" 7); by apply not_elem_of_nil|]. etrans; [exact (polls_steps _ _ _ E1)|].
    eapply rtc_l; [apply mq_publish|]. exact (polls_steps _ _ _ E2). }
  exists d2. split_and!; [unfold toy_run; by rewrite E1|exact Hr|vm_compute in E1; injection E1 as <-; vm_compute in E2; by injection E2 as <-|].
  intros s Hs. apply (messages_are_delivered_in_order "tcp://localhost:6379" toy_new (Connect "tcp://localhost:6379" toy_new).2 d2); done.
Defined.

Lemma shutdown_under_the_polling_task_witness : exists d', toy_run = Some d' /\ poll_step (destroy d') = None.
Proof.
  destruct messages_are_delivered_in_order_witness as (d' & H & Hr & _). exists d'. split; [exact H|].
  by apply (shutdown_under_the_polling_task "tcp://localhost:6379" toy_new (Connect "tcp://localhost:6379" toy_new).2 d').
Defined.

(** Of the first message only what arrives during a read counts: one that is published
    between two reads is lost. *)
Example published_between_reads :
  exists d', polls 6 (Publish "LobbyChat" "lost" (Subscribe "LobbyChat" 7 (Connect "tcp://localhost:6379" (RedisStreamDriver_new true (mkToy (fun _ => []) []))).2).2).2 = Some d' /\
    made d' = [].
Proof. eexists. split; [vm_compute; reflexivity|done]. Qed.

(** The second subscription of a topic gets nothing. *)
Example second_subscriber :
  exists d', polls 6 (Subscribe "LobbyChat" 8 toy_connected).2 = Some d' /\ made d' = [(7, "LobbyChat", "a"); (7, "LobbyChat", "b")]%string.
Proof. eexists. split; [vm_compute; reflexivity|done]. Qed.

(** Disconnecting at the wrong moment: the task has copied the subscriptions and goes on
    to a connection that is gone. *)
Example disconnect_before_the_read :
  exists d', polls 1 toy_connected = Some d' /\ poll_step (Disconnect d') = None.
Proof. eexists. split; [vm_compute; reflexivity|done]. Qed.

(** ** NATS *)

(** <nats/nats.h>: connections and subscriptions are handles, a closure is the address of
    a callback. *)
Class Nats (L : Type) := {
  natsConnection_ConnectTo : string -> L -> option Z * L;
  natsConnection_PublishString : Z -> string -> string -> L -> bool * L;
  natsConnection_Subscribe : Z -> string -> Z -> L -> option Z * L;
  natsSubscription_Destroy : Z -> L -> L;
  natsConnection_Destroy : Z -> L -> L
}.

Section NatsDriver.
Context {L : Type} `{!Nats L}.

(** [closures]: the callbacks on the heap, by address; [brk]: the addresses given out. *)
Record NatsDriver := mkNats {
  m_conn : option Z;
  nats_subs : list Z;
  m_callbacks : list Z;
  closures : gmap Z Z;
  brk : Z;
  client : L
}.

Definition NatsDriver_new (l : L) : NatsDriver := mkNats None [] [] ∅ 1 l.

Definition NatsConnect (connectionString : string) (d : NatsDriver) : bool * NatsDriver :=
  match m_conn d with
  | Some _ => (true, d)
  | None => let '(c, l) := natsConnection_ConnectTo connectionString (client d) in
            (bool_decide (is_Some c), mkNats c (nats_subs d) (m_callbacks d) (closures d) (brk d) l)
  end.

Definition NatsDisconnect (d : NatsDriver) : NatsDriver :=
  let l := foldl (fun l s => natsSubscription_Destroy s l) (client d) (nats_subs d) in
  let heap := foldl (fun h a => delete a h) (closures d) (m_callbacks d) in
  mkNats None [] [] heap (brk d) (match m_conn d with Some c => natsConnection_Destroy c l | None => l end).

Definition NatsPublish (tp message : string) (d : NatsDriver) : bool * NatsDriver :=
  match m_conn d with
  | None => (false, d)
  | Some c => let '(ok, l) := natsConnection_PublishString c tp message (client d) in
              (ok, mkNats (m_conn d) (nats_subs d) (m_callbacks d) (closures d) (brk d) l)
  end.

Definition NatsSubscribe (tp : string) (cb : Z) (d : NatsDriver) : bool * NatsDriver :=
  match m_conn d with
  | None => (false, d)
  | Some c =>
      let a := brk d in
      let heap := <[a := cb]> (closures d) in
      match natsConnection_Subscribe c tp a (client d) with
      | (Some s, l) => (true, mkNats (m_conn d) (nats_subs d ++ [s]) (m_callbacks d ++ [a]) heap (a + 1) l)
      | (None, l) => (false, mkNats (m_conn d) (nats_subs d) (m_callbacks d) (delete a heap) (a + 1) l)
      end
  end.

(** [_OnMessage] on a thread of the client library: the callback that is called, with
    topic and message. *)
Definition OnMessage (closure : Z) (tp message : string) (d : NatsDriver) : option (option (Z * string * string)) :=
  if bool_decide (closure = 0) then Some None else cb ← closures d !! closure; Some (Some (cb, tp, message)).

(** What the driver keeps on the heap is exactly what it will free. *)
Record nats_inv (d : NatsDriver) : Prop := mk_nats_inv {
  nats_heap : dom (closures d) = list_to_set (m_callbacks d);
  nats_distinct : NoDup (m_callbacks d);
  nats_fresh : forall a, a ∈ m_callbacks d -> 0 < a < brk d;
  nats_brk : 0 < brk d;
  nats_paired : length (nats_subs d) = length (m_callbacks d);
  nats_idle : m_conn d = None -> m_callbacks d = []
}.

Lemma nats_inv_new l : nats_inv (NatsDriver_new l).
Proof. split; cbn; [set_solver|apply NoDup_nil_2|by intros a ?%elem_of_nil|done..]. Qed.

Lemma nats_inv_connect cs d : nats_inv d -> nats_inv (NatsConnect cs d).2.
Proof.
  intros Hi. pose proof Hi as [H1 H2 H3 H4 H5 H6]. unfold NatsConnect. destruct (m_conn d) eqn:Ec; [done|].
  destruct (natsConnection_ConnectTo cs (client d)) as [c l]. split; cbn; try done. intros _. by apply H6.
Qed.

Lemma delete_all_dom (h : gmap Z Z) as_ : dom (foldl (fun h a => delete a h) h as_) = dom h ∖ list_to_set as_.
Proof. revert h. induction as_ as [|a as_ IH]; intros h; cbn; [set_solver|]. rewrite IH, dom_delete_L. set_solver. Qed.

Lemma nats_inv_disconnect d : nats_inv d -> nats_inv (NatsDisconnect d) /\ closures (NatsDisconnect d) = ∅.
Proof.
  intros [H1 H2 H3 H4 H5 H6]. assert (closures (NatsDisconnect d) = ∅) as He.
  { apply dom_empty_inv_L. unfold NatsDisconnect. cbn [closures]. rewrite delete_all_dom, H1. apply difference_diag_L. }
  split; [|exact He]. split; rewrite ?He; cbn; try done; [apply NoDup_nil_2|by intros a ?%elem_of_nil].
Qed.

Lemma nats_inv_publish tp m d : nats_inv d -> nats_inv (NatsPublish tp m d).2.
Proof.
  intros Hi. pose proof Hi as [H1 H2 H3 H4 H5 H6]. unfold NatsPublish. destruct (m_conn d) eqn:Ec; [|done].
  destruct (natsConnection_PublishString _ _ _ _) as [ok l]. by split.
Qed.

Lemma nats_inv_subscribe tp cb d : nats_inv d -> nats_inv (NatsSubscribe tp cb d).2.
Proof.
  intros Hi. pose proof Hi as [H1 H2 H3 H4 H5 H6]. assert (brk d ∉ m_callbacks d) as Hf by (intros Hin; apply H3 in Hin; lia).
  unfold NatsSubscribe. destruct (m_conn d) eqn:Ec; [|done].
  destruct (natsConnection_Subscribe _ _ _ _) as [[s|] l]; split; cbn; try lia; try done; try (by rewrite Ec).
  - rewrite dom_insert_L, H1, list_to_set_app_L. cbn. set_solver.
  - apply NoDup_app. split_and!; [done| |apply NoDup_singleton]. by intros a Ha ->%list_elem_of_singleton.
  - intros a [Ha| ->%list_elem_of_singleton]%elem_of_app; [apply H3 in Ha; lia|lia].
  - rewrite !length_app. cbn. lia.
  - rewrite dom_delete_L, dom_insert_L, H1. set_solver.
  - intros a Ha. apply H3 in Ha. lia.
Qed.

Inductive nats_step (d : NatsDriver) : NatsDriver -> Prop :=
| nats_connect cs : nats_step d (NatsConnect cs d).2
| nats_disconnect : nats_step d (NatsDisconnect d)
| nats_publish tp m : nats_step d (NatsPublish tp m d).2
| nats_subscribe tp cb : nats_step d (NatsSubscribe tp cb d).2.

(** The driver frees every callback that it allocates: after any use of it, disconnecting
    leaves none, and until then the closure of every subscription is one of them, so that
    a delivery finds its callback. *)
Theorem nats_frees_its_callbacks l d : rtc nats_step (NatsDriver_new l) d ->
  closures (NatsDisconnect d) = ∅ /\ length (nats_subs d) = length (m_callbacks d) /\
  forall a tp m, a ∈ m_callbacks d -> exists cb, closures d !! a = Some cb /\ OnMessage a tp m d = Some (Some (cb, tp, m)).
Proof.
  intros Hr. assert (nats_inv d) as Hi.
  { pose proof (nats_inv_new l) as H0. induction Hr as [|d1 d2 d3 H12 _ IH]; [done|]. apply IH.
    destruct H12; [by apply nats_inv_connect|by apply nats_inv_disconnect|by apply nats_inv_publish|by apply nats_inv_subscribe]. }
  split_and!; [by apply nats_inv_disconnect|by apply Hi|]. intros a tp m Ha.
  assert (is_Some (closures d !! a)) as [cb Hcb] by (apply elem_of_dom; rewrite (nats_heap _ Hi); by apply elem_of_list_to_set).
  exists cb. split; [done|]. unfold OnMessage. rewrite bool_decide_false by (pose proof (nats_fresh _ Hi a Ha); lia). by rewrite Hcb.
Qed.

(** A delivery that is under way when the driver disconnects finds its callback freed. *)
Lemma delivery_after_disconnect d a tp m : nats_inv d -> a ∈ m_callbacks d -> OnMessage a tp m (NatsDisconnect d) = None.
Proof.
  intros Hi Ha. unfold OnMessage. rewrite bool_decide_false by (pose proof (nats_fresh _ Hi a Ha); lia).
  by rewrite (proj2 (nats_inv_disconnect d Hi)).
Qed.

End NatsDriver.

(** ** The message system *)

Inductive MessageQoS := Fast | Reliable.

Section MessageSystem.
Context {L N : Type} `{!Redis L} `{!Nats N}.

(** The map of drivers by its two keys; [orphans]: destroyed drivers whose task may still
    be running on the thread pool. *)
Record MessageSystem := mkMQ {
  fast : option (NatsDriver (L := N));
  reliable : option (RedisStreamDriver (L := L));
  orphans : list (RedisStreamDriver (L := L))
}.

Definition MessageSystem_new : MessageSystem := mkMQ None None [].

(** The [shared_ptr] to the old driver is the last one: [~RedisStreamDriver]. *)
Definition dropped (d : option (RedisStreamDriver (L := L))) : list (RedisStreamDriver (L := L)) := option_list (destroy <$> d).

(** [threadPool]: the pointer is not null. *)
Definition MQInitialize (natsConfig redisConfig : string) (threadPool : bool) (n : N) (l : L) (q : MessageSystem) : bool * MessageSystem :=
  let '(okn, nats) := NatsConnect natsConfig (NatsDriver_new n) in
  let '(okr, redis) := Connect redisConfig (RedisStreamDriver_new threadPool l) in
  let f := if okn : bool then Some nats else fast q in
  let q := if okr : bool then mkMQ f (Some redis) (orphans q ++ dropped (reliable q)) else mkMQ f (reliable q) (orphans q) in
  (bool_decide (is_Some (fast q) \/ is_Some (reliable q)), q).

Definition MQShutdown (q : MessageSystem) : MessageSystem := mkMQ None None (orphans q ++ dropped (Disconnect <$> reliable q)).

Definition MQPublish (tp message : string) (qos : MessageQoS) (q : MessageSystem) : bool * MessageSystem :=
  match qos with
  | Fast => match fast q with
            | Some d => let '(ok, d) := NatsPublish tp message d in (ok, mkMQ (Some d) (reliable q) (orphans q))
            | None => (false, q)
            end
  | Reliable => match reliable q with
                | Some d => let '(ok, d) := Publish tp message d in (ok, mkMQ (fast q) (Some d) (orphans q))
                | None => (false, q)
                end
  end.

Definition MQSubscribe (tp : string) (cb : Z) (qos : MessageQoS) (q : MessageSystem) : bool * MessageSystem :=
  match qos with
  | Fast => match fast q with
            | Some d => let '(ok, d) := NatsSubscribe tp cb d in (ok, mkMQ (Some d) (reliable q) (orphans q))
            | None => (false, q)
            end
  | Reliable => match reliable q with
                | Some d => let '(ok, d) := Subscribe tp cb d in (ok, mkMQ (fast q) (Some d) (orphans q))
                | None => (false, q)
                end
  end.

(** Without a driver of the quality that is asked for nothing is sent and nothing is
    subscribed: the other quality does not stand in for it. *)
Theorem no_other_quality (qos : MessageQoS) q tp message cb :
  match qos with Fast => fast q = None | Reliable => reliable q = None end ->
  MQPublish tp message qos q = (false, q) /\ MQSubscribe tp cb qos q = (false, q).
Proof. destruct qos; cbn; intros ->; done. Qed.

(** Shutting the message system down, with the task of a connected driver running. *)
Lemma mq_shutdown_orphan q d : reliable q = Some d -> poll d <> NoPoll ->
  exists d', d' ∈ orphans (MQShutdown q) /\ poll_step d' = None.
Proof.
  intros Hr Hp. exists (destroy (Disconnect d)). split.
  - cbn. rewrite Hr. apply elem_of_app. right. by left.
  - unfold poll_step. cbn. by destruct (poll d).
Qed.

End MessageSystem.

(** A client library that grants everything; the message goes to the callback that was
    subscribed, until the driver disconnects. *)
#[local] Instance toy_nats : Nats unit := {|
  natsConnection_ConnectTo _ _ := (Some 1, tt);
  natsConnection_PublishString _ _ _ _ := (true, tt);
  natsConnection_Subscribe _ _ _ _ := (Some 1, tt);
  natsSubscription_Destroy _ _ := tt;
  natsConnection_Destroy _ _ := tt
|}.

Example nats_delivers :
  let q := (MQSubscribe "news" 7 Fast (MQInitialize "nats://localhost:4222" "tcp://localhost:6379" true tt toy_start MessageSystem_new).2).2 in
  (d ← fast q; OnMessage 1 "news" "hello" d) = Some (Some (7, "news", "hello")%string) /\
  (d ← fast q; OnMessage 1 "news" "hello" (NatsDisconnect d)) = None /\
  length (orphans (MQShutdown q)) = 1%nat.
Proof. done. Qed.
