(* ===== verification/Startup.v ===== *)
(** * Startup: the framework and the game server from start to stop

    Models src/System/Framework/Framework.cpp, Database/DatabaseRegistry.cpp and the
    start-up of src/Examples/VampireSurvivor/Server/Core/ServerApp.cpp, on top of the
    components of the other files: what a configuration makes of the session factory, the
    message pool, the thread pools, the database and the network, in which order things
    are started and stopped, and what a server that has started can rely on.

    An exception that leaves a function, or the end of the process, is [None]. *)

From stdpp Require Import base strings gmap list.
From S2P Require Import UdpSession.
From S2P Require Import Prelude ConcurrentQueue Messages MessagePool Session Cipher TcpSession SessionFactory.
From S2P Require Import Database.
From S2P Require Import Mysql.
From S2P Require Import Acceptors.
From S2P Require MessageQueue.
From S2P Require Import GameData.
From S2P Require Import TileMap.
From S2P Require Import Config.

#[local] Open Scope Z_scope.

(** ** The registry of database drivers *)

Inductive Backend := SQLiteBackend | MySQLBackend (config : Mysql.MySQLConfig).

(** A [DatabaseImpl]: its driver and the arguments it is made with. *)
Record DatabaseInstance := mkDatabase { backend : Backend; connStr : string; poolSize : Z; defaultTimeoutMs : Z }.

Definition DatabaseFactory : Type := ServerConfig -> option DatabaseInstance.

Definition CreateSQLite : DatabaseFactory := fun c => Some (mkDatabase SQLiteBackend (dbAddress c) (dbWorkerCount c) 5000).

Definition CreateMySQL : DatabaseFactory :=
  fun c => config ← Mysql.CreateMySQL (dbAddress c); Some (mkDatabase (MySQLBackend config) (dbAddress c) (dbWorkerCount c) 5000).

Record Registry := mkRegistry { _drivers : gmap string DatabaseFactory; _initialized : bool }.

Definition Register (type : string) (factory : DatabaseFactory) (r : Registry) : Registry :=
  mkRegistry (<[type := factory]> (_drivers r)) (_initialized r).

(** [use_sqlite], [use_mysql]: the drivers that the program is compiled with. *)
Definition Initialize (use_sqlite use_mysql : bool) (r : Registry) : Registry :=
  if _initialized r then r else
  let r := if use_sqlite then Register "sqlite" CreateSQLite r else r in
  let r := if use_mysql then Register "mysql" CreateMySQL r else r in
  mkRegistry (_drivers r) true.

(** The inner [None] is the null pointer for a type without driver. *)
Definition Create (type : string) (c : ServerConfig) (r : Registry) : option (option DatabaseInstance) :=
  match _drivers r !! type with
  | Some factory => d ← factory c; Some (Some d)
  | None => Some None
  end.

(** ** Framework *)

(** What [Run], [Stop], [Join] and the application call on the parts, in order. *)
Inductive LifeCall :=
| ConsoleStart | IoStart (threads : Z) | PoolStart (db : bool)
| NetworkHalt | ConsoleStop | DispatcherShutdown
| RoomsCleanup | SessionPoolsCleanup | MqShutdown | PoolStop (db : bool) | PoolJoin (db : bool) | IoJoin.

(** Thread pools by their number of threads. *)
Record Framework := mkFramework {
  _network : option Network;
  _threadPool : option Z;
  _dbThreadPool : option Z;
  _db : option DatabaseInstance;
  _console : bool;
  _running : bool;
  life : list LifeCall
}.

Definition Framework_new : Framework := mkFramework None None None None false false [].

(** [NetworkImpl::NetworkImpl] *)
Definition NetworkImpl_new : Network := mkTcp false false 0 [] None (mkNetwork None false 0 [] ∅ 1 0) false.

Definition calls_made (l : list LifeCall) (fw : Framework) : Framework :=
  mkFramework (_network fw) (_threadPool fw) (_dbThreadPool fw) (_db fw) (_console fw) (_running fw) (life fw ++ l).

(** By the signal handler on an I/O thread, or by anybody else; the dispatcher exists
    since [Init], like the network. *)
Definition Framework_Stop (fw : Framework) : Framework :=
  if negb (_running fw) then fw else
  let halted := match _network fw with Some _ => [NetworkHalt] | None => [] end in
  calls_made (halted ++ (if _console fw then [ConsoleStop] else []) ++ match _network fw with Some _ => [DispatcherShutdown] | None => [] end)
    (mkFramework (Network_Stop <$> _network fw) (_threadPool fw) (_dbThreadPool fw) (_db fw) (_console fw) false (life fw)).

Definition Join (fw : Framework) : Framework :=
  calls_made ((if _console fw then [ConsoleStop] else []) ++ [MqShutdown] ++
              match _threadPool fw with Some _ => [PoolStop false; PoolJoin false] | None => [] end ++
              match _dbThreadPool fw with Some _ => [PoolStop true; PoolJoin true] | None => [] end ++ [IoJoin]) fw.

(** [ServerApp::Run] when the main loop has ended: the rooms go first, then the sessions
    in the pools. *)
Definition ServerApp_end (fw : Framework) : Framework := Join (calls_made [RoomsCleanup; SessionPoolsCleanup] fw).

Section Framework.
Context {Q : Type -> Type} `{!ConcurrentQueue Q} {T I : Type} `{!UdpSession.Ikcp I}.
Context (sizeofPM : Z) (use_sqlite use_mysql : bool).
Implicit Types f : Factory Q T I.

Definition set_factory_mem (m : Mem Q T) f : Factory Q T I :=
  mkFactory (_nextSessionId f) (_encryptionFactory f) (_rateLimit f) (_heartbeat f) (_serverRole f)
    (f_pools f) (f_objs f) (f_next f) m (f_posted f) (f_io f) (f_net f).

(** What [Init] does to the statics of the session factory and to the message pool.
    [CreateSession] reads the role, the encryption factory (on a gateway) and the
    heartbeat; the rate limit stays in its static
    ([SessionFactory.settings_that_reach_no_session]). *)
Definition configure_sessions (c : ServerConfig) f : Factory Q T I :=
  let f := if bool_decide (serverRole c = "backend") then WarmUp (Z.to_nat 1000) BackendClass (SetServerRole RoleBackend f)
           else WarmUp (Z.to_nat 10000) GatewayClass (SetServerRole RoleGateway f) in
  let f := set_factory_mem (MessagePool.Prepare sizeofPM (Z.to_nat 20000) (Z.to_nat 5000) (Z.to_nat 1000) (f_mem f)) f in
  let f := match configured_cipher c with Some cipher => SetEncryptionFactory (Some cipher) f | None => f end in
  SetRateLimitConfig (rateLimit c) (rateBurst c) f.

(** The connection that the database tries out is [Database.Init].
    [listening], [udp_ok], [ws_listening]: whether the operating system lets the acceptors
    and the UDP socket have their ports. *)
Definition Init (c : ServerConfig) (listening : Listening) (udp_ok ws_listening : bool) (r : Registry) f :
    option (bool * Framework * Registry * Factory Q T I) :=
  let f := configure_sessions c f in
  let fw := mkFramework (Some NetworkImpl_new) None None None false false [] in
  if taskWorkerCount c <=? 0 then Some (false, fw, r, f) else
  let r := Initialize use_sqlite use_mysql r in
  db ← Create (dbType c) c r;
  let threads := if dbWorkerCount c <=? 0 then 1 else dbWorkerCount c in
  let fw n console := mkFramework (Some n) (Some (taskWorkerCount c)) (Some threads) db console false [] in
  match Network_Start (wrap 16 (port c)) listening udp_ok NetworkImpl_new with
  | (false, n) => Some (false, fw n false, r, f)
  | (true, n) =>
      let n := if webSocketEnabled c then with_websockets (fun w => (Start ws_listening w).2) n else n in
      Some (true, fw n true, r, f)
  end.

(** [Run] up to its main loop; [reserve] throws for a negative number. *)
Definition Run (c : ServerConfig) (fw : Framework) : option Framework :=
  if workerThreadCount c <? 0 then None else
  let n := with_websockets (fun w => mkNetwork (_acceptor w) (_isStopping w) (accepting w) (_sessions w) (objects w) (next w)
                                       (Z.to_nat (workerThreadCount c))) <$> _network fw in
  match _threadPool fw with
  | None => None
  | Some _ =>
      Some (mkFramework n (_threadPool fw) (_dbThreadPool fw) (_db fw) (_console fw) true
              (life fw ++ (if _console fw then [ConsoleStart] else []) ++ [IoStart (workerThreadCount c); PoolStart false] ++
               match _dbThreadPool fw with Some _ => [PoolStart true] | None => [] end))
  end.

(** ** ServerApp *)

Context {J : Json} (value_bool : json -> string -> bool -> option bool) (value_double : json -> string -> Z -> option Z).
Context (hardware_concurrency : Z).

(** The files that the server reads, as what they parse to. *)
Record Files := mkFiles {
  config_file : option json; monster_file : option json; wave_file : option json; player_file : option json;
  skill_file : option json; weapon_file : option json; passive_file : option json; map_file : option json
}.

(** The loaders in their order.  One that fails ends the process; without the map the
    server starts all the same. *)
Definition InitGameData (files : Files) (D : DataManager) (maps : gmap Z TileMap) : option (DataManager * gmap Z TileMap) :=
  D ← load_all [(Monsters, monster_file files); (Waves, wave_file files); (Players, player_file files);
                (Skills, skill_file files); (Weapons, weapon_file files); (Passives, passive_file files)] D;
  Some (D, (LoadMapData value_bool 1 (map_file files) maps).2).

Definition InitFramework (c : ServerConfig) (listening : Listening) (udp_ok ws_listening : bool) (r : Registry) f :
    option (bool * Framework * Registry * Factory Q T I) :=
  '(ok, fw, r, f) ← Init c listening udp_ok ws_listening r f;
  if negb ok then Some (false, fw, r, f) else Some (true, fw, r, SetHeartbeatConfig 5000 15000 true f).

Definition InitDatabase (fw : Framework) : bool := bool_decide (is_Some (_db fw)).

(** What the start-up leaves: [ServerApp]'s members, and the singletons it configures. *)
Record ServerApp := mkApp {
  app_config : ServerConfig; app_data : DataManager; app_maps : gmap Z TileMap;
  app_framework : Framework; app_registry : Registry; app_factory : Factory Q T I
}.

(** [ServerApp::Init] up to the game logic, whose part always succeeds and leaves the
    initial state of [Commands]; the members are those the successful part has set. *)
Definition ServerApp_Init (files : Files) (listening : Listening) (udp_ok ws_listening : bool) (r : Registry) f :
    option (option ServerApp) :=
  match Config.Load value_bool value_double hardware_concurrency (config_file files) ServerConfig_new with
  | (false, _) => Some None
  | (true, c) =>
      '(D, maps) ← InitGameData files DataManager_new ∅;
      '(ok, fw, r, f) ← InitFramework c listening udp_ok ws_listening r f;
      if negb ok then Some None else
      if negb (InitDatabase fw) then Some None else
      Some (Some (mkApp c D maps fw r f))
  end.

(** ** What a started server can rely on *)

Lemma init_starts c listening udp_ok ws_listening r f fw r' f' :
  Init c listening udp_ok ws_listening r f = Some (true, fw, r', f') ->
  0 < taskWorkerCount c /\ _threadPool fw = Some (taskWorkerCount c) /\ listening = Listens /\
  f' = configure_sessions c f /\
  Create (dbType c) c (Initialize use_sqlite use_mysql r) = Some (_db fw) /\
  exists n, _network fw = Some n /\ tcp_open n = true /\ tcp_accepting n = 1%nat /\ tcp_stopping n = false.
Proof.
  unfold Init. destruct (taskWorkerCount c <=? 0) eqn:Et; [done|]. apply Z.leb_gt in Et.
  destruct (Create (dbType c) c (Initialize use_sqlite use_mysql r)) as [db|] eqn:Ed; [|done]. cbn [mbind option_bind].
  destruct listening; [done|done|]. unfold Network_Start. cbn. intros [= <- <- <-]. cbn. split_and!; try done.
  eexists. split; [reflexivity|]. by destruct (webSocketEnabled c).
Qed.

Lemma grow_loop_statics k c f : _encryptionFactory (grow_loop k c f) = _encryptionFactory f /\ _serverRole (grow_loop k c f) = _serverRole f.
Proof. revert f. induction k as [|k IH]; intros f; [done|]. cbn. destruct (IH (set_objects (<[f_next f := new_session c]> (f_objs f)) (f_next f + 1)
                 (set_spool c (mkSessionPool (enqueue (f_next f) (_idle (f_pools f c))) (_totalAllocated (f_pools f c))
                                 (_availableCount (f_pools f c)) (_isGrowing (f_pools f c))) f))) as [-> ->]. done. Qed.

Lemma WarmUp_statics k c f : _encryptionFactory (WarmUp k c f) = _encryptionFactory f /\ _serverRole (WarmUp k c f) = _serverRole f.
Proof. unfold WarmUp, Grow. apply grow_loop_statics. Qed.

Lemma configured_statics cipher m rate burst f :
  let f1 := SetRateLimitConfig rate burst
    match cipher with Some cipher => SetEncryptionFactory (Some cipher) (set_factory_mem m f) | None => set_factory_mem m f end in
  _encryptionFactory f1 = match cipher with Some cipher => Some cipher | None => _encryptionFactory f end /\
  _rateLimit f1 = (rate, burst) /\ _serverRole f1 = _serverRole f.
Proof. by destruct cipher. Qed.

Lemma configured_sessions c f : _encryptionFactory f = None ->
  _encryptionFactory (configure_sessions c f) = configured_cipher c /\
  _rateLimit (configure_sessions c f) = (rateLimit c, rateBurst c) /\
  _serverRole (configure_sessions c f) = (if bool_decide (serverRole c = "backend"%string) then RoleBackend else RoleGateway).
Proof.
  intros He. unfold configure_sessions.
  pose proof (WarmUp_statics (Z.to_nat 1000) BackendClass (SetServerRole RoleBackend f)) as [W1 W2].
  pose proof (WarmUp_statics (Z.to_nat 10000) GatewayClass (SetServerRole RoleGateway f)) as [W3 W4].
  set (b := WarmUp (Z.to_nat 1000) _ _) in *. set (g := WarmUp (Z.to_nat 10000) _ _) in *. clearbody b g.
  set (f1 := if bool_decide _ then _ else _).
  set (m := MessagePool.Prepare _ _ _ _ _). clearbody m.
  destruct (configured_statics (configured_cipher c) m (rateLimit c) (rateBurst c) f1) as (H1 & H2 & H3).
  rewrite H1, H2, H3. unfold f1. cbn in W1, W2, W3, W4.
  destruct (bool_decide (serverRole c = _)); rewrite ?W1, ?W2, ?W3, ?W4; (split_and!; [by destruct (configured_cipher c)|done..]).
Qed.
(** The loaders keep the data well formed. *)
Lemma all_loaded_ok files D : load_all files DataManager_new = Some D -> data_ok D.
Proof.
  intros E. refine (for_each_inv data_ok _ _ _ _ _ E _).
  - intros [t file] s s'. apply data_ok_load.
  - split_and!; apply map_Forall_empty.
Qed.

(** When the game server starts: exactly if its configuration loads, every data file is
    well formed, there is a task worker, the configured database driver exists and can be
    made, and the port is free; nothing is asked of the map, of the UDP and WebSocket
    ports, and of the numbers of I/O threads and of database workers. *)
Theorem server_starts_iff files listening udp_ok ws_listening r f :
  (exists app, ServerApp_Init files listening udp_ok ws_listening r f = Some (Some app)) <->
  exists c D d, Config.Load value_bool value_double hardware_concurrency (config_file files) ServerConfig_new = (true, c) /\
    load_all [(Monsters, monster_file files); (Waves, wave_file files); (Players, player_file files);
              (Skills, skill_file files); (Weapons, weapon_file files); (Passives, passive_file files)] DataManager_new = Some D /\
    0 < taskWorkerCount c /\ Create (dbType c) c (Initialize use_sqlite use_mysql r) = Some (Some d) /\ listening = Listens.
Proof.
  unfold ServerApp_Init, InitGameData, InitFramework, InitDatabase. destruct (Config.Load _ _ _ _ _) as [[] c]; cbv iota; [|split; [by intros []|by intros (? & ? & ? & ? & _)]].
  destruct (load_all _ _) as [D|]; cbn [mbind option_bind]; [|split; [by intros []|by intros (? & ? & ? & ? & ? & _)]].
  split.
  - intros [app Ha]. destruct (Init c listening udp_ok ws_listening r f) as [[[[ok fw] r'] f']|] eqn:Ei; [|done].
    cbn [mbind option_bind] in Ha. destruct ok; [|done]. cbn [negb] in Ha.
    cbn [mbind option_bind negb] in Ha. destruct (init_starts _ _ _ _ _ _ _ _ _ Ei) as (H1 & _ & -> & _ & H4 & _).
    destruct (_db fw) as [d|]; [|by cbn in Ha]. by exists c, D, d.
  - intros (c' & D' & d & [= <-] & [= <-] & Ht & Hd & ->). unfold Init. rewrite (proj2 (Z.leb_gt _ _)) by done. rewrite Hd.
    cbn [mbind option_bind Network_Start NetworkImpl_new tcp_open]. cbv iota zeta.
    cbn [negb _db mbind option_bind]. rewrite bool_decide_true by by eexists. by eexists.
Qed.

(** C25: On what a started game server runs: the static data is well formed, the
    acceptor is open with one accept pending, the thread pool has the configured number of
    threads, the session factory holds the configured role and rate limit, the heartbeat
    of five and fifteen seconds with its ping, and the configured encryption, which is
    lawful; and every TCP session the factory makes with these settings, in whatever state
    it and the sessions then are, has that heartbeat, and on a gateway server that
    encryption.  (Sessions of a backend server and UDP sessions are not encrypted, and the
    rate limit reaches no session.) *)
Theorem started_server_is_configured files listening udp_ok ws_listening r f app (Hnew : _encryptionFactory f = None) :
  ServerApp_Init files listening udp_ok ws_listening r f = Some (Some app) ->
  Config.Load value_bool value_double hardware_concurrency (config_file files) ServerConfig_new = (true, app_config app) /\
  data_ok (app_data app) /\
  0 < taskWorkerCount (app_config app) /\ _threadPool (app_framework app) = Some (taskWorkerCount (app_config app)) /\
  (exists d, _db (app_framework app) = Some d /\
     Create (dbType (app_config app)) (app_config app) (Initialize use_sqlite use_mysql r) = Some (Some d)) /\
  (exists n, _network (app_framework app) = Some n /\ tcp_open n = true /\ tcp_accepting n = 1%nat /\ tcp_stopping n = false) /\
  _serverRole (app_factory app) = (if bool_decide (serverRole (app_config app) = "backend"%string) then RoleBackend else RoleGateway) /\
  _rateLimit (app_factory app) = (rateLimit (app_config app), rateBurst (app_config app)) /\
  _heartbeat (app_factory app) = mkHb 5000 15000 true /\
  _encryptionFactory (app_factory app) = configured_cipher (app_config app) /\
  (forall cipher, _encryptionFactory (app_factory app) = Some cipher -> LawfulCipher cipher (cipher_lengths (app_config app))) /\
  (forall tid socket disp now f1 p f2, _serverRole f1 = _serverRole (app_factory app) ->
     _encryptionFactory f1 = _encryptionFactory (app_factory app) -> _heartbeat f1 = _heartbeat (app_factory app) ->
     CreateSession tid socket disp now f1 = Some (Some p, f2) ->
     exists class s i, f_objs f2 !! p = Some (TcpObj class s i) /\
       _hbInterval i = 5000 /\ _hbTimeout i = 15000 /\ _hbPingFunc i = true /\
       (serverRole (app_config app) <> "backend"%string ->
          forall cipher, configured_cipher (app_config app) = Some cipher -> _encryption i = Some cipher)).
Proof.
  unfold ServerApp_Init. destruct (Config.Load _ _ _ _ _) as [[] c] eqn:Ec; [|done].
  unfold InitGameData, InitFramework, InitDatabase. destruct (load_all _ _) as [D|] eqn:Ed; [|done]. cbn [mbind option_bind].
  destruct (Init c listening udp_ok ws_listening r f) as [[[[ok fw] r'] f']|] eqn:Ei; [|done]. cbn [mbind option_bind].
  destruct ok; [|done]. cbn [negb mbind option_bind]. destruct (init_starts _ _ _ _ _ _ _ _ _ Ei) as (H1 & H2 & _ & -> & H4 & H5).
  destruct (_db fw) as [d|] eqn:Edb; [|by cbn]. rewrite bool_decide_true by by eexists. cbn [negb]. intros [= <-]. cbn [app_config app_data app_framework app_factory].
  destruct (configured_sessions c f Hnew) as (C1 & C2 & C3). unfold SetHeartbeatConfig. cbn [_encryptionFactory _rateLimit _serverRole _heartbeat set_config].
  split_and!; try done.
  - exact (all_loaded_ok _ _ Ed).
  - exists d. rewrite Edb. by split.
  - intros cipher. rewrite C1. apply configured_cipher_lawful_on.
  - intros tid socket disp now f1 p f2 Er Ee Eh Hcreate. rewrite C1 in Ee. rewrite C3 in Er.
    destruct (created_session_settings tid socket disp now f1 p f2) as (class & s & i & Ho & (I1 & I2 & I3) & Hcipher);
      [by rewrite Eh|exact Hcreate|]. rewrite Eh in I1, I2. exists class, s, i. split_and!; try done.
    intros Hne cipher Hc. apply Hcipher; [by rewrite Er, bool_decide_false|by rewrite Ee].
Qed.

End Framework.

(** ** The database without workers, and the end *)

(** A number of database workers that is not positive is replaced by one for the threads,
    but not for the connections: the pool may open none, and every query ends in a
    time-out. *)
Theorem no_database_workers {D : Type} `{!Driver D} c inst (d : D) sql (Hinst : CreateSQLite c = Some inst) (Hnone : dbWorkerCount c <= 0) :
  Database.Query sql (new_db (poolSize inst) (defaultTimeoutMs inst) d) =
    Ret (Fail_ timeout_status) (new_db (poolSize inst) (defaultTimeoutMs inst) d).
Proof.
  injection Hinst as <-. cbn [poolSize defaultTimeoutMs]. destruct (dbWorkerCount c) as [|p|p]; [reflexivity|lia|reflexivity].
Qed.

(** Stopping works once however often it is asked for (by signals, by the application),
    and in this order: no new connections, the console, the main loop; then, on the main
    thread, the rooms, the idle sessions, the console again, the message queue, the
    workers, the database's workers, the I/O threads. *)
Theorem shutdown_order fw n t dt k (Hrunning : _running fw = true) (Hnetwork : _network fw = Some n)
  (Hpool : _threadPool fw = Some t) (Hdb : _dbThreadPool fw = Some dt) (Hconsole : _console fw = true) :
  let fw' := ServerApp_end (Nat.iter (S k) Framework_Stop fw) in
  life fw' = life fw ++ [NetworkHalt; ConsoleStop; DispatcherShutdown; RoomsCleanup; SessionPoolsCleanup; ConsoleStop; MqShutdown;
                         PoolStop false; PoolJoin false; PoolStop true; PoolJoin true; IoJoin] /\
  _running fw' = false /\ _network fw' = Some (Network_Stop n).
Proof.
  assert (Nat.iter (S k) Framework_Stop fw = Framework_Stop fw) as ->.
  { induction k as [|k IH]; [done|]. change (Nat.iter (S (S k)) Framework_Stop fw) with (Framework_Stop (Nat.iter (S k) Framework_Stop fw)).
    rewrite IH. unfold Framework_Stop at 2. rewrite Hrunning. cbn [negb]. unfold Framework_Stop. cbn. by rewrite Hrunning. }
  unfold Framework_Stop, ServerApp_end, Join, calls_made. rewrite Hrunning, Hnetwork, Hconsole. cbn [negb]. cbn. rewrite ?Hpool, ?Hdb, ?Hconsole.
  cbn. by rewrite <- !app_assoc.
Qed.

(** ** The lobby chat *)

Section LobbyChat.
Context {L N : Type} `{!MessageQueue.Redis L} `{!MessageQueue.Nats N}.
Implicit Types q : MessageQueue.MessageSystem (L := L) (N := N).

(** The part of [ServerApp::InitGameLogic] that starts the message system; [subscriber]
    hands the message to [BroadcastToLobby] of [Commands]. *)
Definition InitMessageQueue (subscriber : Z) (threadPool : bool) (n : N) (l : L) q : MessageQueue.MessageSystem :=
  let '(ok, q) := MessageQueue.MQInitialize "nats://localhost:4222" "tcp://localhost:6379" threadPool n l q in
  if ok then (MessageQueue.MQSubscribe "LobbyChat" subscriber MessageQueue.Reliable q).2 else q.

(** The lobby chat lives on Redis alone: when the server could connect to it, the one
    subscription is the chat's and nothing has been received; otherwise, with NATS or
    without, what is written in the lobby goes nowhere, and nobody is told. *)
Theorem lobby_chat_needs_redis subscriber threadPool n l message :
  let q := InitMessageQueue subscriber threadPool n l MessageQueue.MessageSystem_new in
  match MessageQueue.redis_ping "tcp://localhost:6379"%string l with
  | (true, _) => exists d, MessageQueue.reliable q = Some d /\
      MessageQueue.m_subs d = [MessageQueue.mkSub "LobbyChat" "$" subscriber] /\ MessageQueue.made d = [] /\ MessageQueue.m_running d = true
  | (false, _) => MessageQueue.MQPublish "LobbyChat" message MessageQueue.Reliable q = (false, q)
  end.
Proof.
  cbv zeta. unfold InitMessageQueue, MessageQueue.MQInitialize. destruct (MessageQueue.NatsConnect _ _) as [okn nats].
  unfold MessageQueue.Connect. cbn [MessageQueue.server MessageQueue.RedisStreamDriver_new].
  destruct (MessageQueue.redis_ping _ l) as [[] l']; cbn [MessageQueue.reliable MessageQueue.fast MessageQueue.MessageSystem_new].
  - rewrite bool_decide_true by (right; by eexists). cbn. by eexists.
  - by destruct okn.
Qed.

End LobbyChat.

(** ** A start *)

Definition demo_files : Files (J := jval_json) :=
  mkFiles (J := jval_json) (Some demo_file) (Some (JArr [])) (Some (JArr [])) (Some (JArr [])) (Some (JArr []))
    (Some (jweapon 1 2)) (Some (JArr [])) None.

Lemma started_server_is_configured_witness :
  exists app, ServerApp_Init (J := jval_json) 40 true true (jvalue jbool) (jvalue jint) 8
      demo_files Listens true true (mkRegistry ∅ false) demo_factory = Some (Some app) /\
    data_ok (app_data app) /\ taskWorkerCount (app_config app) = 4 /\ _serverRole (app_factory app) = RoleGateway /\
    is_Some (_encryptionFactory (app_factory app)).
Proof.
  destruct (proj2 (server_starts_iff (J := jval_json) 40 true true (jvalue jbool) (jvalue jint) 8
    demo_files Listens true true (mkRegistry ∅ false) demo_factory)) as [app Happ].
  { do 3 eexists. split_and!; [by vm_compute..|reflexivity]. }
  exists app. split; [exact Happ|].
  destruct (started_server_is_configured (J := jval_json) 40 true true (jvalue jbool) (jvalue jint) 8
    demo_files Listens true true (mkRegistry ∅ false) demo_factory app eq_refl Happ) as (H1 & H2 & _ & _ & _ & _ & H3 & _ & _ & H4 & _ & _).
  assert (exists c, Config.Load (J := jval_json) (jvalue jbool) (jvalue jint) 8 (config_file demo_files) ServerConfig_new = (true, c) /\
    taskWorkerCount c = 4 /\ serverRole c = "gateway"%string /\ is_Some (configured_cipher c)) as (c & Hc & Ht & Hr & He).
  { eexists. split; [reflexivity|]. split_and!; [reflexivity..|]. eexists. reflexivity. }
  rewrite Hc in H1. injection H1 as H1. rewrite H3, H4, <- H1, Hr. by split_and!.
Defined.

Lemma no_database_workers_witness :
  exists inst, CreateSQLite (set_dbWorkerCount 0 ServerConfig_new) = Some inst /\
    Database.Query "select 1" (new_db (poolSize inst) (defaultTimeoutMs inst) tt) =
      Ret (Fail_ timeout_status) (new_db (poolSize inst) (defaultTimeoutMs inst) tt).
Proof. eexists. split; [reflexivity|]. by apply (no_database_workers (set_dbWorkerCount 0 ServerConfig_new)). Defined.

Definition demo_running : Framework := mkFramework (Some NetworkImpl_new) (Some 4) (Some 2) None true true [].

Lemma shutdown_order_witness :
  life (ServerApp_end (Nat.iter 3 Framework_Stop demo_running)) =
    [NetworkHalt; ConsoleStop; DispatcherShutdown; RoomsCleanup; SessionPoolsCleanup; ConsoleStop; MqShutdown; PoolStop false; PoolJoin false; PoolStop true; PoolJoin true; IoJoin].
Proof. exact (proj1 (shutdown_order demo_running NetworkImpl_new 4 2 2 eq_refl eq_refl eq_refl eq_refl eq_refl)). Defined.

(** A stop before [Run] is forgotten; [Run] with no I/O threads, or with fewer than none. *)
Example stop_before_run : Framework_Stop (mkFramework (Some NetworkImpl_new) (Some 4) (Some 2) None true false []) =
  mkFramework (Some NetworkImpl_new) (Some 4) (Some 2) None true false [].
Proof. done. Qed.

Example io_threads_unchecked :
  (exists fw, Run (set_workerThreadCount 0 ServerConfig_new) demo_running = Some fw /\ _running fw = true /\
     io_threads <$> (websockets <$> _network fw) = Some 0%nat) /\
  Run (set_workerThreadCount (-1) ServerConfig_new) demo_running = None.
Proof. split; [by eexists|done]. Qed.
